(* ===== verification/_CoqProject ===== *)
-Q . S2P
Prelude.v
Signed.v
BitManip.v
Opcode.v
InstrDecode.v
InstrDecodeFacts.v
DecodeCache.v
InstrTransform.v
Watchpoint.v
Core.v
CoreFacts.v
MemoryAccess.v
Coherence.v
CoreLimits.v
Refs.v
RingBuffer.v
Resource.v
Node.v
Routing.v
SSwitchRegs.v
RunnableQueue.v
SchedulerMap.v
StateMonad.v
Thread.v
SysState.v
Events.v
SysFacts.v
Timer.v
Sync.v
Chanend.v
ChanendFacts.v
ChannelWords.v
EventEnable.v
Exec.v
InstrData.v
InstrControl.v
ResourceOps.v
InstrResource.v
Execute.v
DataFacts.v
BitZip.v
DataExec.v
Alu.v
KernelEntry.v
Signal.v
PortState.v
Port.v
PortUse.v
PortFacts.v
PortSerial.v
SchedFrame.v
PortFrame.v
PortLocal.v
SystemRun.v
JitChecks.v
JitDriver.v
Syscalls.v
SyscallFacts.v
Device.v
UartRx.v
SPIFlash.v
EthernetPhy.v
SDRAM.v
PortArg.v
PortConnect.v
XE.v
Symbols.v
Boot.v
BootFacts.v
Overtake.v
PS2Keyboard.v
LCDScreen.v
Waveform.v
Config.v
EventPoller.v
