(* ===== verification/Prelude.v ===== *)
(** * AXE: a verified model of the XCore emulator

    AXE executes programs for XMOS XS1 and XS2 processors.  A system is a set of nodes joined by
    links; a node holds cores; a core has memory, threads and resources (timers, channel ends,
    synchronisers, locks, ports, clock blocks).  A scheduler holds the threads and resources that
    have something to do, ordered by time; the threads are interpreted instruction by instruction
    through a cache of decoded instructions, whose entries a compiler may replace by machine code.
    This library translates that program into Gallina, one file per part, and proves what makes
    the parts correct.  Doc comments of the form [file:first-last name] above a definition give the
    lines of the C++ source it translates, relative to src/.

    ** How the code is modelled

    - A [w]-bit integer is an integer of [Z], wrapped ([u8], [u16], [u32], [u64], [s32] below) where
      the code stores or converts it.  What C++ leaves undefined (an index out of bounds, a failed
      assertion, a null pointer, [abort], an uninitialised variable that is read, signed overflow)
      is [None]; a member that the code does not initialise is taken from an arbitrary value
      ([junk]).
    - A pointer to a resource or a core is a name ([Refs]); the system is a record of finite maps
      from names to the members of the object ([SysState]).  Code that changes the system runs in
      the state-and-failure monad of [StateMonad]; the code of an instruction in the monad [X] of
      [Exec], which adds the local variables of the generated function and its early returns.
    - Recursion that is not structural has fuel.  Routing needs at most 17 + 4n steps for n nodes
      and insertion into the scheduler at most one step per element: theorems show that this is
      enough, and that no more steps change the result.  The loops of ZIP and UNZIP run 32 steps at
      most.  [Execute.run_loop] takes its number of instructions as an argument, since a thread may
      run forever.  The loops of a port over the edges of its clock take a number of steps; one per
      edge is enough ([PortFacts.port_lazy_update]).  A change on the pins of a port may reach other
      ports through clock blocks, ready signals and loopback connections and so come back: the depth of
      this nesting is an argument of [Port.pinsChange].  [SystemRun.system_run] takes the number of
      iterations of the main loop, since a system may run forever; [Syscalls.scanString] has one step
      per byte of the RAM, which is what it needs.  [XE.readHeaders] needs one step more than the file has
      sectors ([XE.xe_roundtrip]); a broken file can make the reader loop for ever ([XE.xe_endless]).
      The loops of a boot step over breakpoints take their number as an argument.

    ** The files

    - Prelude, Signed: machine integers, bits, arrays, automation.  BitManip: lib/BitManip.h and
      lib/CRC.h.
    - Opcode: the instruction set (formats, operands, sizes) of utils/instgen/InstructionGen.cpp.
      InstrDecode and InstrDecodeFacts: the decoder of lib/Instruction.cpp.  InstrTransform: the
      rewriting of decoded instructions.  DecodeCache: lib/DecodeCache.cpp.
    - Core, CoreFacts, MemoryAccess, Coherence, CoreLimits, Watchpoint: memory, the marks that tell
      which decoded instructions a write invalidates, breakpoints and watchpoints, loads and stores
      of instructions (lib/Core.h, lib/Core.cpp, lib/WatchpointManager.cpp).
    - Refs, RingBuffer, Resource: names, token buffers, identifiers and tables of resources.
    - Node, Routing, SSwitchRegs: links, routing between nodes, the control registers of a switch
      (lib/Node.cpp, lib/ProcessorNode.cpp, lib/PeripheralNode.cpp, lib/SSwitchCtrlRegs.cpp).
    - RunnableQueue, SchedulerMap: the scheduler, an intrusive doubly linked list, and its
      refinement to a map from names to wake-up times (lib/RunnableQueue.cpp).
    - StateMonad, Thread, SysState, Events, SysFacts, EventEnable: the state of the system, threads,
      scheduling, ownership, events and interrupts (lib/Thread.h, lib/Thread.cpp, lib/Resource.cpp,
      lib/SystemState.cpp).
    - Timer, Sync, Chanend, ChanendFacts, ChannelWords: timers, synchronisers and locks, channel
      ends and switches (lib/Timer.cpp, lib/Synchroniser.cpp, lib/Lock.cpp, lib/Chanend.cpp,
      lib/ChanEndpoint.cpp, lib/SSwitch.cpp).
    - Exec, InstrData, InstrControl, ResourceOps, InstrResource, Execute: the functions generated
      for the instructions, the declarations of the instructions, the operations on resources they
      call and the interpreter (utils/instgen/InstructionGen.cpp, lib/InstructionHelpers.cpp,
      lib/Thread.cpp).
    - DataFacts, BitZip, DataExec, Alu, KernelEntry: what the data instructions compute, and what a
      whole instruction does to the registers and the program counter.
    - Signal, PortState, Port, PortUse, PortFacts, PortSerial: signals and their edges, ports and
      clock blocks (lib/Signal.h, lib/Port.h, lib/Port.cpp, lib/ClockBlock.h, lib/ClockBlock.cpp).
      PortUse has the instances of [Events.PortEvents] and [ResourceOps.PortOps], the classes through
      which the rest of the system, written before the ports, calls them; PortLocal proves what the rest relies
      on of them ([Events.PortEventsOk], [EventEnable.PortEnableOk]).
    - SchedFrame, PortFrame, SystemRun: the main loop (lib/SystemState.cpp, lib/Timeout.cpp), and what
      the instructions, resources and ports may do to the queue of the scheduler.
    - JitChecks: the placement of the memory checks of compiled code (lib/JITOptimize.cpp, and the part of
      lib/JIT.cpp that emits them).  JitDriver: the fragments that are compiled, what is emitted for them,
      the functions, the pointers through which they jump to each other and their deletion (lib/JIT.cpp).
    - Syscalls, SyscallFacts: the system calls of programs (lib/SyscallHandler.cpp).
    - Device, UartRx, SPIFlash, EthernetPhy, SDRAM, PS2Keyboard, LCDScreen: the devices on the pins of ports and the
      classes they are built from (the files of these names, lib/PortHandleClockMixin.h,
      lib/PortSignalTracker.cpp).  A device is a record of its members; an operation returns the list of
      the calls it makes to the scheduler and to the interfaces it drives.
    - PortArg, PortConnect: references to ports and the connections between slices of their pins
      (lib/PortArg.cpp, lib/PortNames.cpp, lib/PortAliases.cpp, lib/PortConnectionManager.cpp,
      lib/PortSplitter.cpp, lib/PortCombiner.cpp).
    - XE, Symbols, Boot, BootFacts: executable files, the symbols of an executable, and the sequence of
      steps by which a system boots (lib/XE.cpp, lib/SymbolInfo.cpp, lib/BootSequencer.cpp,
      lib/LoadedElf.cpp, lib/BreakpointManager.cpp).  Config: the system that the configuration in an
      executable file describes (lib/XEReader.cpp, lib/XMLUtils.cpp).
    - Overtake: the tracer that warns of packets that may overtake each other
      (lib/CheckPacketOvertakeTracer.cpp).  Waveform: the tracer that writes the levels on the pins of
      ports to a file (lib/WaveformTracer.cpp).  EventPoller: the events of the host
      (lib/SDLEventPoller.cpp).

    ** What is shown

    - Self-modifying code: whatever the sequence of stores, debugger writes, breakpoints and moves
      of the RAM, every decoded instruction in the cache is the decoding of the current memory
      ([Coherence.decode_cache_coherent]), and the next store into an instruction or a compiled fragment,
      anywhere in it, discards it; an invalidated range leaves no stale entry; a loaded
      word is the last stored one; decoding never reads outside the memory.
    - The decoder is inverse to the encodings of the formats, its operands are registers and
      immediates in range, and branches go to the addresses the manual gives.
    - The scheduler refines a priority map; routing terminates on every network and finds the
      route of the tables or reports that there is none; a packet reaches the channel end it is
      addressed to.
    - Channel ends: the two ends of a route agree on it and nobody else uses it; a word sent is the
      word received; requests to a switch are parsed as they were sent.
    - Threads: a barrier wakes all of its threads at the time of the last; a lock is handed to one
      thread at a time in order of arrival; a timer wakes a thread at the first tick that satisfies
      its condition; the lists of event-enabled resources are those of the resources that are owned
      and enabled.
    - Instructions: long arithmetic, division and its exceptions, saturation compute
      what they should; zip and unzip are inverse for groups of up to 8 bits (unzip is undefined for 16); the function
      generated for each arithmetic instruction with one result writes the value of a
      reference function [Alu.alu] to its destination and nothing else; in dual issue mode
      the two instructions of a bundle read the registers as they were before it; an exception
      followed by KRET returns to the instruction that raised it, with its exception data but not its status register.
    - Ports: the edges of a clock signal come one half period apart; bringing an idle output port without a ready mode up to date in one
      step does what stepping over the edges does (for a strobed port it does not); a word sent bit by bit is the word received.
    - The main loop: a run with a timeout runs nothing later than it and ends at it at the latest.
    - Compiled code: the memory checks placed for a fragment imply every check of the interpreter for
      accesses with an immediate offset, except those of LDDSP and STDSP, which are checked at another address; no jump between compiled functions, and no entry of the decode
      cache, leads to a function that has been deleted.
    - System calls: a program gets its arguments; opening takes the lowest free descriptor and
      closing gives it back; a write passes on the bytes of the buffer.
    - Devices: the bytes sent on a serial line are those that are printed; a flash memory answers the
      read command with the bytes of its file; a frame of the network comes back with a valid checksum; a
      burst of up to 8 words written to the memory chip is read back; the keyboard sends the codes of a key in frames that
      are stable at the edges of its clock; a frame that is sent to the screen is shown.
    - Connections: a reference to a port that is printed is read back; slices of ports that are connected
      carry the levels, whatever their number and the order in which they are connected.
    - Starting: the links of the configuration lead to each other; an executable file that was written is read back; its stages become the steps of
      the boot sequence; the segments of an executable are put into memory and no stale instruction stays in
      the decode cache.
    - Tracers: the overtake tracer warns exactly of the packets that differ with no acknowledgement in
      between; a file of waveforms is read back as the changes that were traced.
    - Defects: theorems about what the code does where it does not do what it means to (the
      compiled store of two words, breakpoints in ROM, the routing table of nodes with several
      cores, the registers of a link, the time stamp of an input port, the compiled access with an index
      register, the compiled access to a doubleword on the stack, UNZIP with groups of 16 bits, the time a strobed port waits for, bytes read over cached instructions, buffers that wrap around, programs of several
      stages started from flash, reading of a broken executable that does not end, waveforms of a
      clock that stops, negative numbers of links, code that is overwritten while it is only the target
      of a compiled jump).

    ** What is not modelled

    In [Port], the devices on the pins of a port and the addresses by which the sets of ports are
    ordered are parameters (class [PortState.PortEnv]), and so is what a device does when the main loop
    runs it; the devices are modelled on their own, with the calls they make, and calls that come back
    into a device while it makes a call are not modelled.  The host operating system is the class
    [Syscalls.Host], the library that reads ELF files the class [Boot.ElfLib], the one that reads XML the
    class [Config.XmlLib], the network a parameter of [EthernetPhy].  For the interpreter the JIT compiler is a
    parameter (class [Exec.Jit]), since it generates code through LLVM, which is not modelled: JitDriver
    has the code that is emitted as data.  Not modelled are the
    tracers that only print or count, the window in which the screen is shown, network taps, the
    registry and the properties of devices, the command line and the contents of the boot ROMs. *)

From stdpp Require Import base list numbers option.
From Stdlib Require Import ZArith Lia Btauto.

#[local] Open Scope Z_scope.

(** ** Machine integers

    A w-bit unsigned C++ value is an integer in [[0, 2^w)]; arithmetic is done
    in [Z] and wrapped where the code stores or converts the result. *)

Definition wrap (w x : Z) : Z := x mod 2 ^ w.
Abbreviation u8 := (wrap 8).
Abbreviation u16 := (wrap 16).
Abbreviation u32 := (wrap 32).
Abbreviation u64 := (wrap 64).

(** Two's complement reading of the low [w] bits ([(int32_t)x] at [w = 32]). *)
Definition signed (w x : Z) : Z :=
  if Z.testbit x (w - 1) then wrap w x - 2 ^ w else wrap w x.
Abbreviation s32 := (signed 32).

(** [x] is a value of a [w]-bit unsigned type. *)
Definition fits (w x : Z) : Prop := 0 <= x < 2 ^ w.
Abbreviation is_u8 := (fits 8).
Abbreviation is_u16 := (fits 16).
Abbreviation is_u32 := (fits 32).
Abbreviation is_u64 := (fits 64).

(** The bit operators of C++: on unsigned operands of [w] bits they need no
    wrapping, except the left shift and the complement ([u32] below). *)
Declare Scope cbits_scope.
Delimit Scope cbits_scope with cbits.
Notation "x '.&' y" := (Z.land x y) (at level 32, left associativity) : cbits_scope.
Notation "x '.|' y" := (Z.lor x y) (at level 34, left associativity) : cbits_scope.
Notation "x '.^' y" := (Z.lxor x y) (at level 33, left associativity) : cbits_scope.
Notation "x '.>>' n" := (Z.shiftr x n) (at level 31, left associativity) : cbits_scope.
Notation "x '.<<' n" := (u32 (Z.shiftl x n)) (at level 31, left associativity) : cbits_scope.

(** ** Hint databases and tactics *)

Create HintDb axe discriminated.
Create Rewrite HintDb zbits.

(** Split [0 <= i < n], [n] a literal, into one goal per value of [i]. *)
Ltac enum_step i H :=
  match type of H with
  | ?lo <= i < ?hi =>
      let E := fresh "E" in
      assert (i = lo \/ lo + 1 <= i < hi) as E by lia;
      let lo' := eval cbv in (lo + 1) in
      change (lo + 1) with lo' in E;
      clear H; destruct E as [-> | H]
  end.
Ltac enum_Z i H :=
  repeat first [ exfalso; clear -H; lia | enum_step i H ].

(** Evaluate the integer operations whose arguments are literals. *)
Ltac Z_literal t := lazymatch t with Z0 => idtac | Zpos _ => idtac | Zneg _ => idtac end.
Ltac eval_literal t :=
  let v := eval vm_compute in t in change t with v.
Ltac eval_literals :=
  repeat match goal with
    | |- context [Z.add ?a ?b] => Z_literal a; Z_literal b; eval_literal (Z.add a b)
    | |- context [Z.sub ?a ?b] => Z_literal a; Z_literal b; eval_literal (Z.sub a b)
    | |- context [Z.mul ?a ?b] => Z_literal a; Z_literal b; eval_literal (Z.mul a b)
    | |- context [Z.div ?a ?b] => Z_literal a; Z_literal b; eval_literal (Z.div a b)
    | |- context [Z.modulo ?a ?b] => Z_literal a; Z_literal b; eval_literal (Z.modulo a b)
    | |- context [Z.ltb ?a ?b] => Z_literal a; Z_literal b; eval_literal (Z.ltb a b)
    | |- context [Z.testbit ?a ?b] => Z_literal a; Z_literal b; eval_literal (Z.testbit a b)
    | |- context [Z.testbit ?a (Zneg ?b)] => rewrite (Z.testbit_neg_r a (Zneg b)) by lia
    end.

(** ** Lemmas on [Z] and its bits *)

Lemma pow2_pos w : 0 <= w -> 0 < 2 ^ w.
Proof. intros. apply Z.pow_pos_nonneg; lia. Qed.

Lemma wrap_fits w x : 0 <= w -> fits w (wrap w x).
Proof. intros. apply Z.mod_pos_bound, pow2_pos. done. Qed.

Lemma wrap_small w x : fits w x -> wrap w x = x.
Proof. apply Z.mod_small. Qed.

Lemma wrap_testbit w x i : 0 <= w -> 0 <= i ->
  Z.testbit (wrap w x) i = (i <? w) && Z.testbit x i.
Proof.
  intros. unfold wrap. destruct (Z.ltb_spec i w).
  - rewrite Z.mod_pow2_bits_low by lia. done.
  - rewrite Z.mod_pow2_bits_high by lia. done.
Qed.

Lemma fits_testbit_high w x i : 0 <= w -> fits w x -> w <= i -> Z.testbit x i = false.
Proof.
  intros ? Hx ?. rewrite <- (wrap_small w x Hx), wrap_testbit by lia.
  destruct (Z.ltb_spec i w); [lia | done].
Qed.

Lemma wrap_wrap w x : 0 <= w -> wrap w (wrap w x) = wrap w x.
Proof. intros. apply wrap_small, wrap_fits. done. Qed.

Lemma land_nonneg_l a b : 0 <= a -> 0 <= Z.land a b.
Proof. intros. apply Z.land_nonneg. by left. Qed.
Lemma land_nonneg_r a b : 0 <= b -> 0 <= Z.land a b.
Proof. intros. apply Z.land_nonneg. by right. Qed.

(** A value is determined by its bits; a [w]-bit one by its low [w] bits. *)
Lemma fits_bits_inj w x y : 0 <= w -> fits w x -> fits w y ->
  (forall i, 0 <= i < w -> Z.testbit x i = Z.testbit y i) -> x = y.
Proof.
  intros Hw Hx Hy H. apply Z.bits_inj'. intros i Hi.
  destruct (Z.lt_ge_cases i w); [apply H; lia |].
  by rewrite !(fits_testbit_high w) by done.
Qed.

Lemma fits_of_bits w x : 0 <= w -> 0 <= x ->
  (forall i, w <= i -> Z.testbit x i = false) -> fits w x.
Proof.
  intros Hw Hx H. split; [done |].
  assert (wrap w x = x) as <-; [| apply wrap_fits; done].
  apply Z.bits_inj'. intros i Hi. rewrite wrap_testbit by done.
  destruct (Z.ltb_spec i w); [done |]. by rewrite H by lia.
Qed.

Lemma fits_land_l w a b : 0 <= w -> fits w a -> fits w (Z.land a b).
Proof.
  intros Hw Ha. apply fits_of_bits; [done | apply land_nonneg_l; apply Ha |].
  intros. rewrite Z.land_spec, (fits_testbit_high w a) by done. done.
Qed.
Lemma fits_land_r w a b : 0 <= w -> fits w b -> fits w (Z.land a b).
Proof. intros. rewrite Z.land_comm. by apply fits_land_l. Qed.
Lemma fits_lor w a b : 0 <= w -> fits w a -> fits w b -> fits w (Z.lor a b).
Proof.
  intros Hw Ha Hb. apply fits_of_bits; [done | apply Z.lor_nonneg; split; [apply Ha | apply Hb] |].
  intros. by rewrite Z.lor_spec, !(fits_testbit_high w) by done.
Qed.
Lemma fits_lxor w a b : 0 <= w -> fits w a -> fits w b -> fits w (Z.lxor a b).
Proof.
  intros Hw Ha Hb. apply fits_of_bits; [done | apply Z.lxor_nonneg; destruct Ha, Hb; tauto |].
  intros. by rewrite Z.lxor_spec, !(fits_testbit_high w) by done.
Qed.
Lemma fits_shiftr w a n : 0 <= w -> 0 <= n -> fits w a -> fits w (Z.shiftr a n).
Proof.
  intros Hw Hn Ha. apply fits_of_bits; [done | apply Z.shiftr_nonneg, Ha |].
  intros. rewrite Z.shiftr_spec by lia. apply (fits_testbit_high w); [done.. | lia].
Qed.
Lemma fits_mono w w' x : w <= w' -> fits w x -> fits w' x.
Proof.
  unfold fits. intros ? [? ?]. split; [done |].
  eapply Z.lt_le_trans; [done |]. apply Z.pow_le_mono_r; lia.
Qed.

(** Shifting right by [k] leaves [w - k] bits. *)
Lemma fits_shiftr_sub w k x : 0 <= k <= w -> fits w x -> fits (w - k) (Z.shiftr x k).
Proof.
  intros Hk Hx. apply fits_of_bits; [lia | apply Z.shiftr_nonneg, Hx |].
  intros. rewrite Z.shiftr_spec by lia. apply (fits_testbit_high w); [lia | done | lia].
Qed.

Lemma wrap_lxor w a b : 0 <= w -> wrap w (Z.lxor a b) = Z.lxor (wrap w a) (wrap w b).
Proof.
  intros. apply Z.bits_inj'. intros i Hi.
  rewrite Z.lxor_spec, !wrap_testbit, Z.lxor_spec by lia.
  destruct (i <? w); done.
Qed.

#[export] Hint Resolve wrap_fits fits_land_l fits_land_r fits_lor fits_lxor fits_shiftr : axe.
#[export] Hint Extern 1 (0 <= _) => lia : axe.
#[export] Hint Extern 2 (fits _ _) => (unfold fits; lia) : axe.

#[export] Hint Rewrite Z.land_spec Z.lor_spec Z.lxor_spec Z.testbit_0_l : zbits.
#[export] Hint Rewrite Z.shiftr_spec Z.shiftl_spec Z.lnot_spec wrap_testbit using lia : zbits.

(** Bit-by-bit equality of two integers. *)
Ltac zbitwise :=
  apply Z.bits_inj';
  let i := fresh "i" in let Hi := fresh "Hi" in
  intros i Hi; autorewrite with zbits.

(** Bits at a literal position: literals are evaluated, variables stay. *)
Ltac bits_at :=
  repeat (progress (eval_literals; autorewrite with zbits));
  repeat match goal with
    | H : fits ?w ?x |- context [Z.testbit ?x ?i] =>
        rewrite (fits_testbit_high w x i ltac:(lia) H ltac:(lia))
    end;
  cbn [andb orb xorb negb]; try btauto.

(** A sum of parts that have no bit in common. *)
Lemma lor_disjoint a b k : 0 <= k -> 0 <= a < 2 ^ k -> Z.lor a (b * 2 ^ k) = a + b * 2 ^ k.
Proof.
  intros Hk Ha. pose proof (Z.add_lor_land a (b * 2 ^ k)) as H.
  assert (Z.land a (b * 2 ^ k) = 0) as E.
  { apply Z.bits_inj'. intros i Hi. rewrite Z.land_spec, Z.bits_0. destruct (Z.lt_ge_cases i k).
    - by rewrite Z.mul_pow2_bits_low, andb_false_r by done.
    - rewrite <- (Z.mod_small a (2 ^ k)) by done. by rewrite Z.mod_pow2_bits_high by lia. }
  lia.
Qed.

(** ** Lists *)

Lemma ForallOrdPairs_snoc {X} (R : X -> X -> Prop) l x : ForallOrdPairs R (l ++ [x]) -> ForallOrdPairs R l /\ Forall (fun y => R y x) l.
Proof.
  induction l as [|y l IH]; cbn; intros Hl; [by split; constructor |]. inversion Hl as [|? ? H1 H2]; subst. apply Forall_app in H1 as [H1 H3].
  destruct (IH H2). split; constructor; try done. by inversion H3.
Qed.

Lemma Forall_insert' {A} (P : A -> Prop) (l : list A) i x :
  Forall P l -> P x -> Forall P (<[i := x]> l).
Proof. intros. by apply Forall_insert. Qed.

(** ** Arrays

    A C++ array (or [std::vector]) indexed by an integer.  An access outside its bounds is
    undefined behaviour: the operations return [None], and code that uses them runs in the
    option monad, where [None] stands for an undefined access or a failed [assert]. *)

Definition array_get {A} (l : list A) (i : Z) : option A :=
  if 0 <=? i then l !! Z.to_nat i else None.
Definition array_set {A} (l : list A) (i : Z) (v : A) : option (list A) :=
  if (0 <=? i) && (i <? Z.of_nat (length l)) then Some (<[Z.to_nat i := v]> l) else None.

Abbreviation zlength l := (Z.of_nat (length l)).

(** [assert(b)] in the option monad. *)
Definition assert (b : bool) : option unit := if b then Some tt else None.

Section arrays.
Context {A : Type}.
Implicit Types (l : list A) (i : Z).

Lemma array_get_is_Some l i : 0 <= i < zlength l -> exists v, array_get l i = Some v.
Proof.
  intros Hi. unfold array_get. destruct (Z.leb_spec 0 i); [| lia].
  apply lookup_lt_is_Some. lia.
Qed.

Lemma array_get_bound l i v : array_get l i = Some v -> 0 <= i < zlength l.
Proof.
  unfold array_get. destruct (Z.leb_spec 0 i); [| done].
  intros ?%lookup_lt_Some. lia.
Qed.

Lemma array_set_is_Some l i v : 0 <= i < zlength l -> exists l', array_set l i v = Some l'.
Proof.
  intros. unfold array_set. eexists.
  rewrite (proj2 (Z.leb_le 0 i)), (proj2 (Z.ltb_lt i _)) by lia. reflexivity.
Qed.

Lemma array_set_spec l i v l' : array_set l i v = Some l' ->
  0 <= i < zlength l /\ length l' = length l /\
  forall j, array_get l' j = if decide (j = i) then Some v else array_get l j.
Proof.
  unfold array_set. destruct (Z.leb_spec 0 i), (Z.ltb_spec i (zlength l)); intros; simplify_eq/=.
  split; [lia |]. split; [apply length_insert |]. intros j. unfold array_get.
  destruct (Z.leb_spec 0 j), (decide (j = i)) as [->|]; try done; try lia.
  - apply list_lookup_insert_eq. lia.
  - apply list_lookup_insert_ne. lia.
Qed.

Lemma array_set_get l i v l' : array_set l i v = Some l' -> array_get l' i = Some v.
Proof. intros (_ & _ & H)%array_set_spec. by rewrite H, decide_True. Qed.

Lemma array_set_get_ne l i v l' j :
  array_set l i v = Some l' -> j <> i -> array_get l' j = array_get l j.
Proof. intros (_ & _ & H)%array_set_spec ?. by rewrite H, decide_False. Qed.

Lemma array_set_length l i v l' : array_set l i v = Some l' -> length l' = length l.
Proof. by intros (_ & H & _)%array_set_spec. Qed.

Lemma array_ext l l' : length l = length l' ->
  (forall i, 0 <= i < zlength l -> array_get l i = array_get l' i) -> l = l'.
Proof.
  intros Hl H. apply list_eq. intros n.
  destruct (decide (n < length l)%nat) as [Hn|Hn].
  - specialize (H (Z.of_nat n)). unfold array_get in H.
    rewrite (proj2 (Z.leb_le 0 (Z.of_nat n))), Nat2Z.id in H by lia. apply H. lia.
  - rewrite !lookup_ge_None_2; [done | lia..].
Qed.

Lemma array_get_replicate n (v : A) i :
  0 <= i < Z.of_nat n -> array_get (replicate n v) i = Some v.
Proof.
  intros. unfold array_get. rewrite (proj2 (Z.leb_le 0 i)) by lia.
  apply lookup_replicate_2. lia.
Qed.

Lemma array_get_app_l l k i : i < zlength l -> array_get (l ++ k) i = array_get l i.
Proof.
  intros. unfold array_get. destruct (Z.leb_spec 0 i); [| done]. apply lookup_app_l. lia.
Qed.
Lemma array_get_app_r l k i : zlength l <= i -> array_get (l ++ k) i = array_get k (i - zlength l).
Proof.
  intros. unfold array_get. rewrite (proj2 (Z.leb_le 0 i)), (proj2 (Z.leb_le 0 (i - zlength l))) by lia.
  rewrite lookup_app_r by lia. f_equal. lia.
Qed.
Lemma array_get_drop l n i : 0 <= n -> 0 <= i ->
  array_get (drop (Z.to_nat n) l) i = array_get l (n + i).
Proof.
  intros. unfold array_get. rewrite (proj2 (Z.leb_le 0 i)), (proj2 (Z.leb_le 0 (n + i))) by lia.
  rewrite lookup_drop. f_equal. lia.
Qed.

Lemma array_get_fmap {B} (f : A -> B) l i : array_get (f <$> l) i = f <$> array_get l i.
Proof. unfold array_get. destruct (0 <=? i); [apply list_lookup_fmap | done]. Qed.

Lemma array_get_Forall (P : A -> Prop) l i v : Forall P l -> array_get l i = Some v -> P v.
Proof. unfold array_get. destruct (0 <=? i); [apply Forall_lookup_1 | done]. Qed.

Lemma array_set_same l i v l' : array_get l i = Some v -> array_set l i v = Some l' -> l' = l.
Proof.
  intros G S. pose proof (array_set_length _ _ _ _ S) as L. symmetry. apply array_ext; [done |].
  intros j _. apply array_set_spec in S as (_ & _ & S). rewrite S. by destruct (decide (j = i)) as [->|].
Qed.
End arrays.

(** Take the next monadic step apart: a read or write known to be in bounds succeeds. *)
Ltac array_read l i v E :=
  let H := fresh in
  destruct (array_get_is_Some l i) as [v E]; [| rewrite E; cbn [mbind option_bind]].
Ltac array_write l i v l' E :=
  destruct (array_set_is_Some l i v) as [l' E]; [| rewrite E; cbn [mbind option_bind]].
