(* ===== verification/Signed.v ===== *)
(** * Two's complement

    The signed reading of a word is the only value of the signed range that has its residue. *)

From stdpp Require Import base list numbers option.
From Stdlib Require Import ZArith Lia.
From S2P Require Import Prelude.

#[local] Open Scope Z_scope.

Lemma pow2_half w : 0 < w -> 2 ^ w = 2 * 2 ^ (w - 1).
Proof. intros. rewrite <- Z.pow_succ_r by lia. f_equal. lia. Qed.

Lemma testbit_top w x : 0 < w -> Z.testbit x (w - 1) = (2 ^ (w - 1) <=? wrap w x).
Proof.
  intros Hw. assert (Z.testbit x (w - 1) = Z.testbit (wrap w x) (w - 1)) as ->.
  { rewrite wrap_testbit by lia. by rewrite (proj2 (Z.ltb_lt _ _)) by lia. }
  pose proof (wrap_fits w x ltac:(lia)) as [H0 H1]. pose proof (pow2_half w Hw) as Hh.
  pose proof (pow2_pos (w - 1) ltac:(lia)) as Hp.
  rewrite Z.testbit_eqb by lia. destruct (Z.leb_spec (2 ^ (w - 1)) (wrap w x)).
  - apply Z.eqb_eq. assert (wrap w x / 2 ^ (w - 1) = 1) as ->; [| done].
    symmetry. apply Z.div_unique with (wrap w x - 2 ^ (w - 1)); lia.
  - apply Z.eqb_neq. rewrite Z.div_small by lia. done.
Qed.

Lemma signed_range w x : 0 < w -> - 2 ^ (w - 1) <= signed w x < 2 ^ (w - 1).
Proof.
  intros Hw. unfold signed. rewrite testbit_top by done.
  pose proof (wrap_fits w x ltac:(lia)) as [H0 H1]. pose proof (pow2_half w Hw).
  destruct (Z.leb_spec (2 ^ (w - 1)) (wrap w x)); lia.
Qed.

Lemma signed_mod w x : 0 < w -> signed w x mod 2 ^ w = x mod 2 ^ w.
Proof.
  intros Hw. unfold signed, wrap. pose proof (pow2_pos w ltac:(lia)). case_match.
  - rewrite Zminus_mod, Z.mod_mod, Z.mod_same, Z.sub_0_r by lia. apply Z.mod_mod. lia.
  - apply Z.mod_mod. lia.
Qed.

Lemma signed_unique w x y : 0 < w -> - 2 ^ (w - 1) <= y < 2 ^ (w - 1) ->
  y mod 2 ^ w = x mod 2 ^ w -> signed w x = y.
Proof.
  intros Hw Hy He. pose proof (signed_range w x Hw) as Hs. pose proof (signed_mod w x Hw) as Hm.
  pose proof (pow2_half w Hw). pose proof (pow2_pos w ltac:(lia)).
  assert ((signed w x - y) mod 2 ^ w = 0) as H2
    by (rewrite Zminus_mod, Hm, He, Z.sub_diag, Z.mod_0_l by lia; done).
  apply Z.mod_divide in H2 as [k Hk]; [| lia].
  assert (- 2 ^ w < k * 2 ^ w < 2 ^ w) as Hb by lia.
  assert (k = 0) as ->; [| lia]. assert (-1 < k) by (apply (Z.mul_lt_mono_pos_r (2 ^ w)); lia).
  assert (k < 1) by (apply (Z.mul_lt_mono_pos_r (2 ^ w)); lia). lia.
Qed.

Lemma signed_small w x : 0 < w -> - 2 ^ (w - 1) <= x < 2 ^ (w - 1) -> signed w x = x.
Proof. intros. by apply signed_unique. Qed.

Lemma signed_wrap w x : 0 < w -> signed w (wrap w x) = signed w x.
Proof.
  intros. apply signed_unique; [done | by apply signed_range |]. rewrite signed_mod by done.
  unfold wrap. rewrite Z.mod_mod; [done |]. pose proof (pow2_pos w). lia.
Qed.

Lemma wrap_signed w x : 0 < w -> wrap w (signed w x) = wrap w x.
Proof. apply signed_mod. Qed.

(** Adding to a word adds to its signed reading, as long as that stays in range. *)
Lemma signed_add w x n : 0 < w -> - 2 ^ (w - 1) <= signed w x + n < 2 ^ (w - 1) ->
  signed w (x + n) = signed w x + n.
Proof.
  intros Hw Hr. apply signed_unique; [done | done |]. pose proof (pow2_pos w ltac:(lia)).
  by rewrite Zplus_mod, signed_mod, <- Zplus_mod by done.
Qed.

Lemma signed_cases w x : 0 < w -> fits w x ->
  (x < 2 ^ (w - 1) /\ signed w x = x) \/ (2 ^ (w - 1) <= x /\ signed w x = x - 2 ^ w).
Proof.
  intros Hw Hx. unfold signed. rewrite testbit_top, wrap_small by done.
  destruct (Z.leb_spec (2 ^ (w - 1)) x); [right | left]; done.
Qed.
