(* ===== verification/BitManip.v ===== *)
(** * Bit manipulation and CRC helpers (lib/BitManip.h, lib/CRC.h)

    The pure 32-bit helpers the decoder, the instruction semantics, the
    switch registers and the routing code are built on, with their
    specifications bit by bit. *)

From stdpp Require Import base list numbers option.
From Stdlib Require Import ZArith Lia Btauto.
From S2P Require Import Prelude.

#[local] Open Scope Z_scope.
#[local] Open Scope cbits_scope.

(** ** Definitions *)

(** lib/BitManip.h:13-16 extractBits *)
Definition extractBits (value shift size : Z) : Z :=
  (value .>> shift) .& (Z.shiftl 1 size - 1).

(** lib/BitManip.h:18-21 extractBitRange *)
Definition extractBitRange (value high low : Z) : Z :=
  extractBits value low (1 + high - low).

(** lib/BitManip.h:23-26 extractBit *)
Definition extractBit (value shift : Z) : Z := extractBits value shift 1.

(** The counting loop: [for (i = 32; x; i--) x >>= 1;]. *)
Fixpoint countLeadingZeros_loop (fuel : nat) (i x : Z) : Z :=
  match fuel with
  | O => i
  | S fuel => if x =? 0 then i else countLeadingZeros_loop fuel (i - 1) (x .>> 1)
  end.

(** lib/BitManip.h:28-39 countLeadingZeros *)
Definition countLeadingZeros (x : Z) : Z := countLeadingZeros_loop 33 32 x.

(** lib/BitManip.h:41-45 bswap16 *)
Definition bswap16 (value : Z) : Z :=
  u16 (((value .& 0xff00) .>> 8) .| Z.shiftl (value .& 0xff) 8).

(** lib/BitManip.h:47-57 bswap32 *)
Definition bswap32 (x : Z) : Z :=
  (x .>> 24) .| ((x .>> 8) .& 0x0000ff00) .| ((x .<< 8) .& 0x00ff0000) .| (x .<< 24).

(** lib/BitManip.h:59-65 bitReverse *)
Definition bitReverse (x : Z) : Z :=
  let x := ((x .& 0xaaaaaaaa) .>> 1) .| ((x .& 0x55555555) .<< 1) in
  let x := ((x .& 0xcccccccc) .>> 2) .| ((x .& 0x33333333) .<< 2) in
  let x := ((x .& 0xf0f0f0f0) .>> 4) .| ((x .& 0x0f0f0f0f) .<< 4) in
  bswap32 x.

(** lib/BitManip.h:67-73 makeMask *)
Definition makeMask (x : Z) : Z :=
  if 31 <? x then 0xFFFFFFFF else Z.shiftl 1 x - 1.

(** lib/BitManip.h:75-81 signExtend *)
Definition signExtend (value amount : Z) : Z :=
  if (amount =? 0) || (31 <? amount) then value
  else u32 (s32 (value .<< (32 - amount)) .>> (32 - amount)).

(** lib/BitManip.h:83-89 zeroExtend *)
Definition zeroExtend (value amount : Z) : Z :=
  if (amount =? 0) || (31 <? amount) then value
  else (value .<< (32 - amount)) .>> (32 - amount).

(** lib/BitManip.h:91-94 isPowerOf2 *)
Definition isPowerOf2 (value : Z) : bool :=
  negb (value =? 0) && (value .& u32 (value - 1) =? 0).

(** The loop of [parity]: each iteration clears the lowest set bit. *)
Fixpoint parity_loop (fuel : nat) (parity : bool) (value : Z) : option bool :=
  if value =? 0 then Some parity else
  match fuel with
  | O => None
  | S fuel => parity_loop fuel (negb parity) (value .& u32 (value - 1))
  end.

(** lib/BitManip.h:96-104 parity *)
Definition parity (value : Z) : option bool := parity_loop 32 false value.

(** One iteration of the loop of [crc]. *)
Definition crc_step (checksum data poly : Z) : Z :=
  let xorBit := checksum .& 1 in
  let checksum := (checksum .>> 1) .| ((data .& 1) .<< 31) in
  if xorBit =? 0 then checksum else checksum .^ poly.

(** lib/CRC.h:13-25 crc *)
Fixpoint crc (bits : nat) (checksum data poly : Z) : Z :=
  match bits with
  | O => checksum
  | S bits => crc bits (crc_step checksum data poly) (data .>> 1) poly
  end.

(** lib/CRC.h:27-30 crc32 *)
Definition crc32 (checksum data poly : Z) : Z := crc 32 checksum data poly.

(** lib/CRC.h:32-35 crc8 *)
Definition crc8 (checksum data poly : Z) : Z := crc 8 checksum data poly.

(** ** Bit fields *)

Lemma extractBits_alt value shift size : 0 <= shift -> 0 <= size ->
  extractBits value shift size = (value / 2 ^ shift) mod 2 ^ size.
Proof.
  intros. unfold extractBits.
  rewrite Z.shiftl_1_l, Z.shiftr_div_pow2 by lia.
  replace (2 ^ size - 1) with (Z.ones size) by (rewrite Z.ones_equiv; lia).
  by rewrite Z.land_ones by lia.
Qed.

Lemma extractBits_fits value shift size : 0 <= shift -> 0 <= size ->
  fits size (extractBits value shift size).
Proof. intros. rewrite extractBits_alt by done. by apply wrap_fits. Qed.

Lemma extractBitRange_fits value high low : 0 <= low -> low <= high + 1 ->
  fits (1 + high - low) (extractBitRange value high low).
Proof. intros. apply extractBits_fits; lia. Qed.

Lemma extractBit_testbit value i : 0 <= i ->
  extractBit value i = Z.b2z (Z.testbit value i).
Proof.
  intros. unfold extractBit. rewrite extractBits_alt by lia.
  change (2 ^ 1) with 2. symmetry. by apply Z.testbit_spec'.
Qed.

(** ** Counting leading zeros *)

Lemma countLeadingZeros_loop_spec fuel : forall i x,
  0 <= x < 2 ^ (Z.of_nat fuel - 1) ->
  countLeadingZeros_loop fuel i x = if x =? 0 then i else i - 1 - Z.log2 x.
Proof.
  induction fuel as [|fuel IH]; intros i x Hx.
  { cbn in Hx. lia. }
  cbn [countLeadingZeros_loop]. destruct (Z.eqb_spec x 0) as [->|Hx0]; [done |].
  destruct (Z.eq_dec x 1) as [->|Hx1].
  { destruct fuel; [cbn in Hx; lia |].
    cbn. change (1 .>> 1) with 0. cbn. lia. }
  assert (1 <= Z.log2 x) by (apply Z.log2_le_pow2; lia).
  rewrite IH.
  - rewrite Z.shiftr_div_pow2 by lia. change (2 ^ 1) with 2.
    assert (0 < x / 2) by (apply Z.div_str_pos; lia).
    destruct (Z.eqb_spec (x / 2) 0); [lia |].
    replace (x / 2) with (Z.shiftr x 1) by (by rewrite Z.shiftr_div_pow2 by lia).
    rewrite Z.log2_shiftr by lia. lia.
  - rewrite Z.shiftr_div_pow2 by lia. change (2 ^ 1) with 2.
    rewrite Nat2Z.inj_succ in Hx.
    replace (2 ^ (Z.succ (Z.of_nat fuel) - 1)) with (2 * 2 ^ (Z.of_nat fuel - 1)) in Hx.
    + split; [apply Z.div_pos; lia | apply Z.div_lt_upper_bound; lia].
    + rewrite <- Z.pow_succ_r; [f_equal; lia |].
      destruct fuel; [cbn in Hx |]; lia.
Qed.

Lemma countLeadingZeros_pos x : 0 < x < 2 ^ 32 -> countLeadingZeros x = 31 - Z.log2 x.
Proof.
  intros. unfold countLeadingZeros. rewrite countLeadingZeros_loop_spec by (cbn; lia).
  destruct (Z.eqb_spec x 0); lia.
Qed.

Lemma countLeadingZeros_bounds x : is_u32 x -> 0 <= countLeadingZeros x <= 32.
Proof.
  intros Hx. unfold fits in Hx. destruct (Z.eq_dec x 0) as [->|]; [cbn; lia |].
  rewrite countLeadingZeros_pos by lia.
  assert (Z.log2 x < 32) by (apply Z.log2_lt_pow2; lia).
  pose proof (Z.log2_nonneg x). lia.
Qed.

(** ** Byte and bit reversal *)

Lemma bswap32_testbit x i : is_u32 x -> 0 <= i < 32 ->
  Z.testbit (bswap32 x) i = Z.testbit x (8 * (3 - i / 8) + i mod 8).
Proof.
  intros Hx Hi. unfold bswap32. enum_Z i Hi.
  all: by bits_at.
Qed.

Lemma bswap32_fits x : is_u32 x -> is_u32 (bswap32 x).
Proof. intros. unfold bswap32. auto 10 with axe. Qed.

(** The three mask-and-shift stages of [bitReverse] exchange adjacent fields. *)
Lemma swap_stage_testbit (hi lo k x i : Z) : 0 <= k -> 0 <= i < 32 ->
  Z.testbit (((x .& hi) .>> k) .| ((x .& lo) .<< k)) i =
  (Z.testbit x (i + k) && Z.testbit hi (i + k)) || (Z.testbit x (i - k) && Z.testbit lo (i - k)).
Proof.
  intros. rewrite Z.lor_spec, Z.shiftr_spec, wrap_testbit, Z.shiftl_spec, !Z.land_spec by lia.
  destruct (Z.ltb_spec i 32); [done | lia].
Qed.

Ltac swap_stage i Hi :=
  rewrite swap_stage_testbit by lia; enum_Z i Hi; eval_literals; cbn iota; by btauto.

Lemma swap1_testbit x i : 0 <= i < 32 ->
  Z.testbit (((x .& 0xaaaaaaaa) .>> 1) .| ((x .& 0x55555555) .<< 1)) i
  = Z.testbit x (if Z.testbit i 0 then i - 1 else i + 1).
Proof. intros Hi. swap_stage i Hi. Qed.

Lemma swap2_testbit x i : 0 <= i < 32 ->
  Z.testbit (((x .& 0xcccccccc) .>> 2) .| ((x .& 0x33333333) .<< 2)) i
  = Z.testbit x (if Z.testbit i 1 then i - 2 else i + 2).
Proof. intros Hi. swap_stage i Hi. Qed.

Lemma swap4_testbit x i : 0 <= i < 32 ->
  Z.testbit (((x .& 0xf0f0f0f0) .>> 4) .| ((x .& 0x0f0f0f0f) .<< 4)) i
  = Z.testbit x (if Z.testbit i 2 then i - 4 else i + 4).
Proof. intros Hi. swap_stage i Hi. Qed.

Lemma bitReverse_testbit x i : is_u32 x -> 0 <= i < 32 ->
  Z.testbit (bitReverse x) i = Z.testbit x (31 - i).
Proof.
  intros Hx Hi. unfold bitReverse.
  rewrite bswap32_testbit by auto 10 with axe.
  enum_Z i Hi; eval_literals;
  (rewrite swap4_testbit by lia; eval_literals; cbn iota; eval_literals;
   rewrite swap2_testbit by lia; eval_literals; cbn iota; eval_literals;
   rewrite swap1_testbit by lia; eval_literals; cbn iota; eval_literals; done).
Qed.

Lemma bitReverse_fits x : is_u32 x -> is_u32 (bitReverse x).
Proof. intros. unfold bitReverse. apply bswap32_fits. auto 10 with axe. Qed.

(** ** Masks and extension *)

Lemma makeMask_ones x : 0 <= x -> makeMask x = Z.ones (Z.min x 32).
Proof.
  intros. unfold makeMask. destruct (Z.ltb_spec 31 x).
  - by rewrite Z.min_r by lia.
  - rewrite Z.min_l, Z.shiftl_1_l, Z.ones_equiv by lia. lia.
Qed.

Lemma signExtend_signed value amount : is_u32 value -> 0 < amount < 32 ->
  signExtend value amount = u32 (signed amount value).
Proof.
  intros Hv Ha. unfold signExtend.
  destruct (Z.eqb_spec amount 0); [lia |]. destruct (Z.ltb_spec 31 amount); [lia |]. cbn [orb].
  f_equal. unfold signed.
  rewrite wrap_testbit, Z.shiftl_spec by lia.
  replace (32 - 1 - (32 - amount)) with (amount - 1) by lia. cbn [Z.ltb Z.sub Z.compare].
  replace (u32 (u32 (Z.shiftl value (32 - amount))))
    with (Z.shiftl (wrap amount value) (32 - amount)).
  2: { zbitwise. destruct (Z.ltb_spec (i - (32 - amount)) 0).
       { rewrite !Z.testbit_neg_r by lia. btauto. }
       rewrite wrap_testbit by lia.
       destruct (Z.ltb_spec (i - (32 - amount)) amount), (Z.ltb_spec i 32); try lia; done. }
  change (32 - 1 <? 32) with true. cbn [andb].
  replace (2 ^ 32) with (2 ^ amount * 2 ^ (32 - amount)).
  2: { rewrite <- Z.pow_add_r by lia. f_equal. lia. }
  rewrite Z.shiftl_mul_pow2 by lia.
  assert (0 < 2 ^ (32 - amount)) by (apply pow2_pos; lia).
  destruct (Z.testbit value (amount - 1)); rewrite Z.shiftr_div_pow2 by lia.
  - rewrite <- Z.mul_sub_distr_r, Z.div_mul by lia. done.
  - by rewrite Z.div_mul by lia.
Qed.

Lemma zeroExtend_wrap value amount : is_u32 value -> 0 < amount < 32 ->
  zeroExtend value amount = wrap amount value.
Proof.
  intros Hv Ha. unfold zeroExtend.
  destruct (Z.eqb_spec amount 0); [lia |]. destruct (Z.ltb_spec 31 amount); [lia |]. cbn [orb].
  zbitwise. replace (i + (32 - amount) - (32 - amount)) with i by lia.
  destruct (Z.ltb_spec i amount), (Z.ltb_spec (i + (32 - amount)) 32); try lia; done.
Qed.

(** ** Clearing the lowest set bit *)

Lemma land_pred_double p : Z.pos p~0 .& (Z.pos p~0 - 1) = 2 * (Z.pos p .& (Z.pos p - 1)).
Proof.
  replace (Z.pos p~0 - 1) with (2 * (Z.pos p - 1) + 1) by lia.
  rewrite (Pos2Z.inj_xO p). apply Z.bits_inj'. intros i Hi. rewrite Z.land_spec.
  destruct (Z.eq_dec i 0) as [->|].
  - rewrite Z.testbit_even_0. by rewrite Z.testbit_even_0.
  - replace i with (Z.succ (i - 1)) by lia.
    rewrite !Z.testbit_even_succ, Z.testbit_odd_succ, Z.land_spec by lia. done.
Qed.

Lemma land_pred_succ_double p : Z.pos p~1 .& (Z.pos p~1 - 1) = Z.pos p~0.
Proof.
  replace (Z.pos p~1 - 1) with (2 * Z.pos p) by lia.
  replace (Z.pos p~1) with (2 * Z.pos p + 1) by lia.
  replace (Z.pos p~0) with (2 * Z.pos p) by lia.
  apply Z.bits_inj'. intros i Hi. rewrite Z.land_spec.
  destruct (Z.eq_dec i 0) as [->|].
  - by rewrite Z.testbit_even_0, andb_false_r.
  - replace i with (Z.succ (i - 1)) by lia.
    rewrite !Z.testbit_even_succ, Z.testbit_odd_succ by lia. btauto.
Qed.

(** The number of set bits. *)
Fixpoint pos_popcount (p : positive) : nat :=
  match p with
  | xH => 1
  | xO p => pos_popcount p
  | xI p => S (pos_popcount p)
  end.
Definition popcount (x : Z) : nat :=
  match x with Zpos p => pos_popcount p | _ => 0 end.

Lemma popcount_double x : popcount (2 * x) = popcount x.
Proof. by destruct x. Qed.

Lemma popcount_clear_lowest x : 0 < x -> popcount x = S (popcount (x .& (x - 1))).
Proof.
  destruct x as [|p|]; try lia. intros _. induction p as [p IH|p IH|].
  - by rewrite land_pred_succ_double.
  - by rewrite land_pred_double, popcount_double.
  - done.
Qed.

Lemma popcount_bound w x : 0 <= x < 2 ^ Z.of_nat w -> (popcount x <= w)%nat.
Proof.
  revert x. induction w as [|w IH]; intros x Hx.
  - assert (x = 0) as -> by (cbn in Hx; lia). done.
  - rewrite Nat2Z.inj_succ, Z.pow_succ_r in Hx by lia.
    assert (popcount x <= S (popcount (x / 2)))%nat.
    { destruct x as [|[p|p|]|]; try lia; cbn [popcount pos_popcount]; [lia | | | cbn; lia].
      - replace (Z.pos p~1 / 2) with (Z.pos p); [cbn; lia |].
        replace (Z.pos p~1) with (Z.pos p * 2 + 1) by lia.
        rewrite Z.div_add_l by lia. change (1 / 2) with 0. lia.
      - replace (Z.pos p~0 / 2) with (Z.pos p); [cbn; lia |].
        replace (Z.pos p~0) with (Z.pos p * 2) by lia. by rewrite Z.div_mul by lia. }
    assert (popcount (x / 2) <= w)%nat; [| lia].
    apply IH. split; [apply Z.div_pos; lia | apply Z.div_lt_upper_bound; lia].
Qed.

Lemma parity_loop_spec fuel : forall b x,
  0 <= x < 2 ^ 32 -> (popcount x <= fuel)%nat ->
  parity_loop fuel b x = Some (xorb b (Nat.odd (popcount x))).
Proof.
  induction fuel as [|fuel IH]; intros b x Hx Hp; cbn [parity_loop];
    destruct (Z.eqb_spec x 0) as [->|Hx0]; try (cbn; by rewrite xorb_false_r).
  - rewrite popcount_clear_lowest in Hp by lia. lia.
  - assert (u32 (x - 1) = x - 1) as -> by (apply wrap_small; unfold fits; lia).
    assert (0 <= x .& (x - 1) < 2 ^ 32) by (apply (fits_land_l 32); [lia | done]).
    rewrite popcount_clear_lowest in Hp by lia.
    rewrite IH by (done || lia). rewrite (popcount_clear_lowest x) by lia.
    rewrite Nat.odd_succ, <- Nat.negb_odd. f_equal. by destruct b, (Nat.odd _).
Qed.

(** ** CRC *)

Lemma crc_step_fits c d p : is_u32 c -> is_u32 p -> is_u32 (crc_step c d p).
Proof. intros. unfold crc_step. case_match; auto 10 with axe. Qed.

Lemma crc_fits n : forall c d p, is_u32 c -> is_u32 p -> is_u32 (crc n c d p).
Proof. induction n; intros; cbn [crc]; auto using crc_step_fits. Qed.

(** [crc] consumes its data least significant bits first, and can be split. *)
Lemma crc_app n m : forall c d p,
  crc (n + m) c d p = crc m (crc n c d p) (d .>> Z.of_nat n) p.
Proof.
  induction n as [|n IH]; intros; cbn [Nat.add crc].
  - by rewrite Z.shiftr_0_r.
  - rewrite IH, Z.shiftr_shiftr, Nat2Z.inj_succ by lia.
    by replace (1 + Z.of_nat n) with (Z.succ (Z.of_nat n)) by lia.
Qed.

(** Only the low [n] bits of the data matter. *)
Lemma crc_ext n : forall c d d' p,
  (forall i, 0 <= i < Z.of_nat n -> Z.testbit d i = Z.testbit d' i) ->
  crc n c d p = crc n c d' p.
Proof.
  induction n as [|n IH]; intros c d d' p H; cbn [crc]; [done |].
  assert (crc_step c d p = crc_step c d' p) as ->.
  { unfold crc_step. replace (d .& 1) with (d' .& 1); [done |].
    zbitwise. destruct (Z.eq_dec i 0) as [->|].
    - by rewrite H by lia.
    - rewrite (fits_testbit_high 1 1 i) by (unfold fits; lia). btauto. }
  apply IH. intros. rewrite !Z.shiftr_spec by lia. apply H. lia.
Qed.

Lemma b2z_lxor1 a b : (Z.lxor a b) .& 1 = Z.lxor (a .& 1) (b .& 1).
Proof. zbitwise. btauto. Qed.

Lemma land1_cases a : a .& 1 = 0 \/ a .& 1 = 1.
Proof.
  pose proof (Z.land_ones a 1 ltac:(lia)) as H. change (Z.ones 1) with 1 in H.
  change (2 ^ 1) with 2 in H. pose proof (Z.mod_pos_bound a 2). lia.
Qed.

Lemma crc_step_linear c1 c2 d1 d2 p : is_u32 c1 -> is_u32 c2 ->
  crc_step (Z.lxor c1 c2) (Z.lxor d1 d2) p = Z.lxor (crc_step c1 d1 p) (crc_step c2 d2 p).
Proof.
  intros H1 H2. unfold crc_step.
  assert (forall c d, is_u32 c ->
    (c .>> 1) .| (d .& 1) .<< 31 = (c .>> 1) .^ (d .& 1) .<< 31) as Hdisj.
  { intros c d Hc. zbitwise. destruct (Z.ltb_spec i 32); cbn [andb]; [| btauto].
    destruct (Z.eq_dec i 31) as [->|].
    - rewrite (fits_testbit_high 32 c) by (done || lia). btauto.
    - destruct (Z.lt_ge_cases i 31).
      + rewrite (Z.testbit_neg_r _ (i - 31)) by lia. btauto.
      + rewrite (fits_testbit_high 1 1 (i - 31)) by (unfold fits; lia). btauto. }
  rewrite (Hdisj (Z.lxor c1 c2) (Z.lxor d1 d2)) by auto with axe.
  rewrite (Hdisj c1 d1), (Hdisj c2 d2), !b2z_lxor1 by done.
  rewrite (Z.shiftr_lxor c1 c2), Z.shiftl_lxor, wrap_lxor by lia.
  destruct (land1_cases c1) as [-> | ->], (land1_cases c2) as [-> | ->];
    repeat change (Z.lxor _ _ =? 0) with true; repeat change (Z.lxor _ _ =? 0) with false;
    cbn [Z.eqb]; zbitwise; btauto.
Qed.

Lemma crc_linear n : forall c1 c2 d1 d2 p, is_u32 c1 -> is_u32 c2 -> is_u32 p ->
  crc n (Z.lxor c1 c2) (Z.lxor d1 d2) p = Z.lxor (crc n c1 d1 p) (crc n c2 d2 p).
Proof.
  induction n as [|n IH]; intros; cbn [crc]; [done |].
  rewrite crc_step_linear, Z.shiftr_lxor by done.
  apply IH; auto using crc_step_fits.
Qed.

(** ** Properties *)

(** On 32-bit values [bitReverse] moves bit [i] to bit [31 - i] and is its own inverse,
    and so is the byte swap [bswap32]. *)
Theorem bitReverse_involutive (x : Z) : is_u32 x ->
  (forall i, 0 <= i < 32 -> Z.testbit (bitReverse x) i = Z.testbit x (31 - i)) /\
  bitReverse (bitReverse x) = x /\ bswap32 (bswap32 x) = x.
Proof.
  intros Hx. split; [| split].
  - intros. by apply bitReverse_testbit.
  - apply (fits_bits_inj 32); [lia | by do 2 apply bitReverse_fits | done |].
    intros i Hi. rewrite bitReverse_testbit by (done || by apply bitReverse_fits).
    rewrite bitReverse_testbit by (done || lia). f_equal. lia.
  - apply (fits_bits_inj 32); [lia | by do 2 apply bswap32_fits | done |].
    intros i Hi. rewrite bswap32_testbit by (done || by apply bswap32_fits).
    rewrite bswap32_testbit by (done || (Z.div_mod_to_equations; lia)). f_equal.
    Z.div_mod_to_equations; lia.
Qed.

Lemma bitReverse_involutive_witness :
  is_u32 0xdeadbeef /\ bitReverse (bitReverse 0xdeadbeef) = 0xdeadbeef.
Proof.
  split; [unfold fits; lia |].
  apply (bitReverse_involutive 0xdeadbeef). unfold fits; lia.
Defined.

(** The loop of [parity] ends within 32 iterations on every 32-bit value and computes
    the parity of the number of set bits. *)
Theorem parity_correct (value : Z) : is_u32 value ->
  parity value = Some (Nat.odd (popcount value)).
Proof.
  intros Hv. unfold parity. rewrite parity_loop_spec; [done | done |].
  by apply (popcount_bound 32).
Qed.

Lemma parity_correct_witness : is_u32 0x1011 /\ parity 0x1011 = Some true.
Proof. split; [unfold fits; lia | apply (parity_correct 0x1011); unfold fits; lia]. Defined.

(** Sign extension from bit [amount - 1] is the two's complement value of the low
    [amount] bits (as a 32-bit word), and zero extension is truncation to [amount] bits. *)
Theorem extend_correct (value amount : Z) : is_u32 value -> 0 < amount < 32 ->
  signExtend value amount = u32 (signed amount value) /\
  zeroExtend value amount = value mod 2 ^ amount.
Proof. intros. split; [by apply signExtend_signed | by apply zeroExtend_wrap]. Qed.

Lemma extend_correct_witness :
  is_u32 0x1234abcd /\ signExtend 0x1234abcd 16 = 0xffffabcd /\ zeroExtend 0x1234abcd 16 = 0xabcd.
Proof.
  split; [unfold fits; lia |].
  destruct (extend_correct 0x1234abcd 16) as [H1 H2]; [unfold fits; lia | lia |].
  split; [rewrite H1 | rewrite H2]; reflexivity.
Defined.

(** A 32-bit CRC step equals four 8-bit steps over the bytes of the data word, least
    significant byte first, for every polynomial. *)
Theorem crc32_by_bytes (checksum data poly : Z) :
  crc32 checksum data poly =
    crc8 (crc8 (crc8 (crc8 checksum (extractBits data 0 8) poly)
      (extractBits data 8 8) poly) (extractBits data 16 8) poly) (extractBits data 24 8) poly.
Proof.
  assert (forall k c, 0 <= k -> crc 8 c (data .>> k) poly = crc8 c (extractBits data k 8) poly) as H.
  { intros k c Hk. apply crc_ext. intros i Hi. unfold extractBits.
    rewrite Z.land_spec. change (Z.shiftl 1 8 - 1) with (Z.ones 8).
    rewrite Z.ones_spec_low by (cbn in Hi; lia). btauto. }
  rewrite <- !H by lia. unfold crc32. rewrite Z.shiftr_0_r.
  change 32%nat with (8 + (8 + (8 + 8)))%nat.
  rewrite !crc_app, !Z.shiftr_shiftr by lia. reflexivity.
Qed.

(** The CRC is linear over exclusive or in checksum and data, for every polynomial. *)
Theorem crc32_linear (c1 c2 d1 d2 poly : Z) : is_u32 c1 -> is_u32 c2 -> is_u32 poly ->
  crc32 (Z.lxor c1 c2) (Z.lxor d1 d2) poly = Z.lxor (crc32 c1 d1 poly) (crc32 c2 d2 poly).
Proof. apply crc_linear. Qed.

Lemma crc32_linear_witness : is_u32 0xedb88320 /\
  crc32 (Z.lxor 5 9) (Z.lxor 77 1234) 0xedb88320
  = Z.lxor (crc32 5 77 0xedb88320) (crc32 9 1234 0xedb88320).
Proof. split; [unfold fits; lia | apply (crc32_linear 5 9 77 1234); unfold fits; lia]. Defined.
