(* ===== verification/Opcode.v ===== *)
(** * The instruction list (utils/instgen/InstructionGen.cpp)

    The code generator of the project declares every instruction once: its
    name, its encoding format (hence its size and the kinds of its explicit
    operands).  From that list it emits the enumeration
    [InstructionOpcode] and the table [instructionProperties] that the
    decoder and the dispatch loop use. *)

From stdpp Require Import base list numbers option.
From Stdlib Require Import ZArith Lia.
From S2P Require Import Prelude.

#[local] Open Scope Z_scope.

(** lib/InstructionProperties.h:14-19 OpType (here [in_] is the source's [in]) *)
Inductive OpType := in_ | out | inout | imm.

(** lib/Register.h:12-37 Reg *)
Inductive Reg :=
  | R0 | R1 | R2 | R3 | R4 | R5 | R6 | R7 | R8 | R9 | R10 | R11
  | CP | DP | SP | LR | ET | ED | KEP | KSP | SPC | SED | SSR.

(** lib/Register.h:36-36 NUM_REGISTERS *)
Definition NUM_REGISTERS : Z := 23.

(** The value of a register enumerator, i.e. its index in [Thread::regs]. *)
Definition reg_index (r : Reg) : Z :=
  match r with
  | R0 => 0 | R1 => 1 | R2 => 2 | R3 => 3 | R4 => 4 | R5 => 5 | R6 => 6 | R7 => 7 | R8 => 8
  | R9 => 9 | R10 => 10 | R11 => 11 | CP => 12 | DP => 13 | SP => 14 | LR => 15 | ET => 16
  | ED => 17 | KEP => 18 | KSP => 19 | SPC => 20 | SED => 21 | SSR => 22
  end.

(** The encoding formats, one per format function of the generator; the formats that
    declare a short and a long instruction have a second constructor with suffix [_l]. *)
Inductive Format :=
  | f3r | f2rus | f2rus_in | fl0r | fl3r | fl3r_inout_inout | fl3rus_in | fl3rus_out_out
  | fl3r_in | fl3r_inout | fl2rus | fl2rus_inout_inout | fl2rus_out | fl2rus_in | fl4rus
  | fl4r_inout_inout | fl4r_out_out | fl4r_out_inout | fl5r | fl5r_1out_4in | fl6r | fru6_out
  | fru6_in | fu6 | fu10 | f2r | f2r_in | f2r_inout | frus | frus_in | frus_inout | fl2r
  | fl2r_in | f1r | f1r_out | f0r | fru6_out_l | fru6_in_l | fu6_l | fu10_l | tsetr | tsetr_l
  | pseudoInst.

(** utils/instgen/InstructionGen.cpp:1550-1709 fl3r: operands of the long formats [fl0r] to [fl6r] *)
Definition long_format_ops (f : Format) : option (list OpType) :=
  match f with
  | fl0r => Some []
  | fl3r => Some [out; in_; in_]
  | fl3r_inout_inout => Some [inout; inout; in_]
  | fl3rus_in => Some [in_; in_; imm; in_]
  | fl3rus_out_out => Some [out; in_; imm; out]
  | fl3r_in => Some [in_; in_; in_]
  | fl3r_inout => Some [inout; in_; in_]
  | fl2rus => Some [out; in_; imm]
  | fl2rus_inout_inout => Some [inout; inout; imm]
  | fl2rus_out => Some [out; out; imm]
  | fl2rus_in => Some [in_; in_; imm]
  | fl4rus => Some [out; in_; in_; in_; imm]
  | fl4r_inout_inout => Some [inout; in_; in_; inout]
  | fl4r_out_out => Some [out; in_; in_; out]
  | fl4r_out_inout => Some [out; in_; in_; inout]
  | fl5r => Some [out; in_; in_; out; in_]
  | fl5r_1out_4in => Some [out; in_; in_; in_; in_]
  | fl6r => Some [out; in_; in_; out; in_; in_]
  | _ => None
  end.

(** utils/instgen/InstructionGen.cpp:1711-1855 f2r: operands of the other formats *)
Definition format_ops (f : Format) : list OpType :=
  match f with
  | f3r => [out; in_; in_]
  | f2rus => [out; in_; imm]
  | f2rus_in => [in_; in_; imm]
  | fru6_out | fru6_out_l => [out; imm]
  | fru6_in | fru6_in_l => [in_; imm]
  | fu6 | fu6_l => [imm]
  | fu10 | fu10_l => [imm]
  | f2r => [out; in_]
  | f2r_in => [in_; in_]
  | f2r_inout => [inout; in_]
  | frus => [out; imm]
  | frus_in => [in_; imm]
  | frus_inout => [inout; imm]
  | fl2r => [out; in_]
  | fl2r_in => [in_; in_]
  | f1r => [in_]
  | f1r_out => [out]
  | f0r => []
  | tsetr | tsetr_l => [imm; in_; in_]
  | pseudoInst => []
  | _ => default [] (long_format_ops f)
  end.

(** utils/instgen/InstructionGen.cpp:1523-1548 f3r: size in bytes of each format *)
Definition format_size (f : Format) : Z :=
  match f with
  | fl0r | fl3r | fl3r_inout_inout | fl3rus_in | fl3rus_out_out | fl3r_in | fl3r_inout | fl2rus
  | fl2rus_inout_inout | fl2rus_out | fl2rus_in | fl4rus | fl4r_inout_inout | fl4r_out_out
  | fl4r_out_inout | fl5r | fl5r_1out_4in | fl6r | fl2r | fl2r_in | fru6_out_l | fru6_in_l
  | fu6_l | fu10_l | tsetr_l => 4
  | _ => 2
  end.

(** lib/InstructionOpcode.h:28-36 InstructionOpcode: the enumeration, in the order in which the
    generator declares the instructions *)
Inductive InstructionOpcode :=
  | ADD_3r | ADD_2rus | ADD_mov_2rus | SUB_3r | SUB_2rus | EQ_3r | EQ_2rus | LSS_3r | LSU_3r
  | AND_3r | OR_3r | SHL_3r | SHL_2rus | SHL_32_2rus | SHR_3r | SHR_2rus | SHR_32_2rus | LDW_3r
  | LDW_2rus | LD16S_3r | LD8U_3r | STW_2rus | TSETR_3r | TSETR_l3r | LSATS_l3r | LDAWF_l3r
  | LDAWF_l2rus | LDAWB_l3r | LDAWB_l2rus | LDA16F_l3r | LDA16B_l3r | STW_l3r | ST16_l3r
  | ST8_l3r | MUL_l3r | DIVS_l3r | DIVU_l3r | REMS_l3r | REMU_l3r | XOR_l3r | ASHR_l3r
  | ASHR_l2rus | ASHR_32_l2rus | UNZIP_l2rus | ZIP_l2rus | OUTPW_l2rus | INPW_l2rus | CRC_l3r
  | LDD_l4r | LDD_l3rus | LDDSP_l2rus | CRCN_l4r | STD_l4r | STD_l3rus | STDSP_l2rus | MACCU_l4r
  | MACCS_l4r | CRC8_l4r | XOR4_l5r | LADD_l5r | LSUB_l5r | LEXTRACT_l4rus | LDIVU_l5r
  | LMUL_l6r | LDAWDP_ru6 | LDAWDP_lru6 | LDWDP_ru6 | LDWDP_lru6 | LDWCP_ru6 | LDWCP_lru6
  | LDWSP_ru6 | LDWSP_lru6 | STWDP_ru6 | STWDP_lru6 | STWSP_ru6 | STWSP_lru6 | LDAWSP_ru6
  | LDAWSP_lru6 | LDC_ru6 | LDC_lru6 | BRFT_ru6 | BRFT_lru6 | BRFT_illegal_ru6
  | BRFT_illegal_lru6 | BRBT_ru6 | BRBT_lru6 | BRBT_illegal_ru6 | BRBT_illegal_lru6 | BRFF_ru6
  | BRFF_lru6 | BRFF_illegal_ru6 | BRFF_illegal_lru6 | BRBF_ru6 | BRBF_lru6 | BRBF_illegal_ru6
  | BRBF_illegal_lru6 | SETC_ru6 | SETC_lru6 | EXTSP_u6 | EXTSP_lu6 | EXTDP_u6 | EXTDP_lu6
  | ENTSP_u6 | ENTSP_lu6 | DUALENTSP_u6 | DUALENTSP_lu6 | RETSP_u6 | RETSP_lu6 | RETSP_xs2a_u6
  | RETSP_xs2a_lu6 | KRESTSP_u6 | KRESTSP_lu6 | KENTSP_u6 | KENTSP_lu6 | BRFU_u6 | BRFU_lu6
  | BRFU_illegal_u6 | BRFU_illegal_lu6 | BRBU_u6 | BRBU_lu6 | BRBU_illegal_u6 | BRBU_illegal_lu6
  | LDAWCP_u6 | LDAWCP_lu6 | SETSR_u6 | SETSR_lu6 | CLRSR_u6 | CLRSR_lu6 | BLAT_u6 | BLAT_lu6
  | KCALL_u6 | KCALL_lu6 | GETSR_u6 | GETSR_lu6 | LDWCPL_u10 | LDWCPL_lu10 | LDAPF_u10
  | LDAPF_lu10 | LDAPB_u10 | LDAPB_lu10 | BLRF_u10 | BLRF_lu10 | BLRF_illegal_u10
  | BLRF_illegal_lu10 | BLRB_u10 | BLRB_lu10 | BLRB_illegal_u10 | BLRB_illegal_lu10 | BLACP_u10
  | BLACP_lu10 | NOT_2r | NEG_2r | SEXT_rus | SEXT_2r | ZEXT_rus | ZEXT_2r | ANDNOT_2r
  | MKMSK_2r | MKMSK_rus | GETR_rus | GETST_2r | PEEK_2r | ENDIN_2r | SETPSC_2r | BITREV_2r
  | BITREV_l2r | BYTEREV_2r | BYTEREV_l2r | CLZ_2r | CLZ_l2r | TINITLR_l2r | GETD_l2r
  | TESTLCL_l2r | SETN_l2r | GETN_l2r | GETPS_l2r | SETPS_l2r | SETC_l2r | SETCLK_l2r
  | SETTW_l2r | SETRDY_l2r | IN_2r | OUT_2r | TINITPC_2r | TINITPC_l2r | TINITDP_2r
  | TINITSP_l2r | TINITSP_2r | TINITCP_2r | TSETMR_2r | SETD_2r | OUTCT_2r | OUTCT_rus | OUTT_2r
  | INT_2r | INCT_2r | CHKCT_2r | CHKCT_rus | TESTCT_2r | TESTWCT_2r | EET_2r | EEF_2r
  | INSHR_2r | OUTSHR_2r | GETTS_2r | SETPT_2r | GETTIME_1r | ELATE_1r | SETSP_1r | SETDP_1r
  | SETCP_1r | ECALLT_1r | ECALLF_1r | BAU_1r | BLA_1r | BRU_1r | TSTART_1r | DGETREG_1r
  | KCALL_1r | FREER_1r | MSYNC_1r | MJOIN_1r | SETV_1r | SETEV_1r | EDU_1r | EEU_1r | WAITET_1r
  | WAITEF_1r | SYNCR_1r | CLRPT_1r | NOP_0r | GETID_0r | GETET_0r | GETED_0r | GETKEP_0r
  | GETKSP_0r | SETKEP_0r | KRET_0r | KRET_l0r | DRESTSP_0r | LDSPC_0r | LDSSR_0r | LDSED_0r
  | LDET_0r | STSPC_0r | STSSR_0r | STSED_0r | STET_0r | FREET_0r | DCALL_0r | DRET_0r
  | DENTSP_0r | CLRE_0r | WAITEU_0r | SSYNC_0r | ILLEGAL_PC | ILLEGAL_PC_THREAD
  | ILLEGAL_INSTRUCTION | BREAKPOINT | RUN_JIT | INTERPRET_ONE | DECODE.

(** The declaration order. *)
Definition opcodes : list InstructionOpcode :=
  [ ADD_3r; ADD_2rus; ADD_mov_2rus; SUB_3r; SUB_2rus; EQ_3r; EQ_2rus; LSS_3r; LSU_3r; AND_3r;
    OR_3r; SHL_3r; SHL_2rus; SHL_32_2rus; SHR_3r; SHR_2rus; SHR_32_2rus; LDW_3r; LDW_2rus;
    LD16S_3r; LD8U_3r; STW_2rus; TSETR_3r; TSETR_l3r; LSATS_l3r; LDAWF_l3r; LDAWF_l2rus;
    LDAWB_l3r; LDAWB_l2rus; LDA16F_l3r; LDA16B_l3r; STW_l3r; ST16_l3r; ST8_l3r; MUL_l3r;
    DIVS_l3r; DIVU_l3r; REMS_l3r; REMU_l3r; XOR_l3r; ASHR_l3r; ASHR_l2rus; ASHR_32_l2rus;
    UNZIP_l2rus; ZIP_l2rus; OUTPW_l2rus; INPW_l2rus; CRC_l3r; LDD_l4r; LDD_l3rus; LDDSP_l2rus;
    CRCN_l4r; STD_l4r; STD_l3rus; STDSP_l2rus; MACCU_l4r; MACCS_l4r; CRC8_l4r; XOR4_l5r;
    LADD_l5r; LSUB_l5r; LEXTRACT_l4rus; LDIVU_l5r; LMUL_l6r; LDAWDP_ru6; LDAWDP_lru6;
    LDWDP_ru6; LDWDP_lru6; LDWCP_ru6; LDWCP_lru6; LDWSP_ru6; LDWSP_lru6; STWDP_ru6; STWDP_lru6;
    STWSP_ru6; STWSP_lru6; LDAWSP_ru6; LDAWSP_lru6; LDC_ru6; LDC_lru6; BRFT_ru6; BRFT_lru6;
    BRFT_illegal_ru6; BRFT_illegal_lru6; BRBT_ru6; BRBT_lru6; BRBT_illegal_ru6;
    BRBT_illegal_lru6; BRFF_ru6; BRFF_lru6; BRFF_illegal_ru6; BRFF_illegal_lru6; BRBF_ru6;
    BRBF_lru6; BRBF_illegal_ru6; BRBF_illegal_lru6; SETC_ru6; SETC_lru6; EXTSP_u6; EXTSP_lu6;
    EXTDP_u6; EXTDP_lu6; ENTSP_u6; ENTSP_lu6; DUALENTSP_u6; DUALENTSP_lu6; RETSP_u6; RETSP_lu6;
    RETSP_xs2a_u6; RETSP_xs2a_lu6; KRESTSP_u6; KRESTSP_lu6; KENTSP_u6; KENTSP_lu6; BRFU_u6;
    BRFU_lu6; BRFU_illegal_u6; BRFU_illegal_lu6; BRBU_u6; BRBU_lu6; BRBU_illegal_u6;
    BRBU_illegal_lu6; LDAWCP_u6; LDAWCP_lu6; SETSR_u6; SETSR_lu6; CLRSR_u6; CLRSR_lu6; BLAT_u6;
    BLAT_lu6; KCALL_u6; KCALL_lu6; GETSR_u6; GETSR_lu6; LDWCPL_u10; LDWCPL_lu10; LDAPF_u10;
    LDAPF_lu10; LDAPB_u10; LDAPB_lu10; BLRF_u10; BLRF_lu10; BLRF_illegal_u10;
    BLRF_illegal_lu10; BLRB_u10; BLRB_lu10; BLRB_illegal_u10; BLRB_illegal_lu10; BLACP_u10;
    BLACP_lu10; NOT_2r; NEG_2r; SEXT_rus; SEXT_2r; ZEXT_rus; ZEXT_2r; ANDNOT_2r; MKMSK_2r;
    MKMSK_rus; GETR_rus; GETST_2r; PEEK_2r; ENDIN_2r; SETPSC_2r; BITREV_2r; BITREV_l2r;
    BYTEREV_2r; BYTEREV_l2r; CLZ_2r; CLZ_l2r; TINITLR_l2r; GETD_l2r; TESTLCL_l2r; SETN_l2r;
    GETN_l2r; GETPS_l2r; SETPS_l2r; SETC_l2r; SETCLK_l2r; SETTW_l2r; SETRDY_l2r; IN_2r; OUT_2r;
    TINITPC_2r; TINITPC_l2r; TINITDP_2r; TINITSP_l2r; TINITSP_2r; TINITCP_2r; TSETMR_2r;
    SETD_2r; OUTCT_2r; OUTCT_rus; OUTT_2r; INT_2r; INCT_2r; CHKCT_2r; CHKCT_rus; TESTCT_2r;
    TESTWCT_2r; EET_2r; EEF_2r; INSHR_2r; OUTSHR_2r; GETTS_2r; SETPT_2r; GETTIME_1r; ELATE_1r;
    SETSP_1r; SETDP_1r; SETCP_1r; ECALLT_1r; ECALLF_1r; BAU_1r; BLA_1r; BRU_1r; TSTART_1r;
    DGETREG_1r; KCALL_1r; FREER_1r; MSYNC_1r; MJOIN_1r; SETV_1r; SETEV_1r; EDU_1r; EEU_1r;
    WAITET_1r; WAITEF_1r; SYNCR_1r; CLRPT_1r; NOP_0r; GETID_0r; GETET_0r; GETED_0r; GETKEP_0r;
    GETKSP_0r; SETKEP_0r; KRET_0r; KRET_l0r; DRESTSP_0r; LDSPC_0r; LDSSR_0r; LDSED_0r; LDET_0r;
    STSPC_0r; STSSR_0r; STSED_0r; STET_0r; FREET_0r; DCALL_0r; DRET_0r; DENTSP_0r; CLRE_0r;
    WAITEU_0r; SSYNC_0r; ILLEGAL_PC; ILLEGAL_PC_THREAD; ILLEGAL_INSTRUCTION; BREAKPOINT;
    RUN_JIT; INTERPRET_ONE; DECODE ].

(** The enumerator value of an opcode. *)
Definition opcode_value (o : InstructionOpcode) : nat :=
  match o with
  | ADD_3r => 0 | ADD_2rus => 1 | ADD_mov_2rus => 2 | SUB_3r => 3 | SUB_2rus => 4 | EQ_3r => 5
  | EQ_2rus => 6 | LSS_3r => 7 | LSU_3r => 8 | AND_3r => 9 | OR_3r => 10 | SHL_3r => 11
  | SHL_2rus => 12 | SHL_32_2rus => 13 | SHR_3r => 14 | SHR_2rus => 15 | SHR_32_2rus => 16
  | LDW_3r => 17 | LDW_2rus => 18 | LD16S_3r => 19 | LD8U_3r => 20 | STW_2rus => 21
  | TSETR_3r => 22 | TSETR_l3r => 23 | LSATS_l3r => 24 | LDAWF_l3r => 25 | LDAWF_l2rus => 26
  | LDAWB_l3r => 27 | LDAWB_l2rus => 28 | LDA16F_l3r => 29 | LDA16B_l3r => 30 | STW_l3r => 31
  | ST16_l3r => 32 | ST8_l3r => 33 | MUL_l3r => 34 | DIVS_l3r => 35 | DIVU_l3r => 36
  | REMS_l3r => 37 | REMU_l3r => 38 | XOR_l3r => 39 | ASHR_l3r => 40 | ASHR_l2rus => 41
  | ASHR_32_l2rus => 42 | UNZIP_l2rus => 43 | ZIP_l2rus => 44 | OUTPW_l2rus => 45
  | INPW_l2rus => 46 | CRC_l3r => 47 | LDD_l4r => 48 | LDD_l3rus => 49 | LDDSP_l2rus => 50
  | CRCN_l4r => 51 | STD_l4r => 52 | STD_l3rus => 53 | STDSP_l2rus => 54 | MACCU_l4r => 55
  | MACCS_l4r => 56 | CRC8_l4r => 57 | XOR4_l5r => 58 | LADD_l5r => 59 | LSUB_l5r => 60
  | LEXTRACT_l4rus => 61 | LDIVU_l5r => 62 | LMUL_l6r => 63 | LDAWDP_ru6 => 64
  | LDAWDP_lru6 => 65 | LDWDP_ru6 => 66 | LDWDP_lru6 => 67 | LDWCP_ru6 => 68 | LDWCP_lru6 => 69
  | LDWSP_ru6 => 70 | LDWSP_lru6 => 71 | STWDP_ru6 => 72 | STWDP_lru6 => 73 | STWSP_ru6 => 74
  | STWSP_lru6 => 75 | LDAWSP_ru6 => 76 | LDAWSP_lru6 => 77 | LDC_ru6 => 78 | LDC_lru6 => 79
  | BRFT_ru6 => 80 | BRFT_lru6 => 81 | BRFT_illegal_ru6 => 82 | BRFT_illegal_lru6 => 83
  | BRBT_ru6 => 84 | BRBT_lru6 => 85 | BRBT_illegal_ru6 => 86 | BRBT_illegal_lru6 => 87
  | BRFF_ru6 => 88 | BRFF_lru6 => 89 | BRFF_illegal_ru6 => 90 | BRFF_illegal_lru6 => 91
  | BRBF_ru6 => 92 | BRBF_lru6 => 93 | BRBF_illegal_ru6 => 94 | BRBF_illegal_lru6 => 95
  | SETC_ru6 => 96 | SETC_lru6 => 97 | EXTSP_u6 => 98 | EXTSP_lu6 => 99 | EXTDP_u6 => 100
  | EXTDP_lu6 => 101 | ENTSP_u6 => 102 | ENTSP_lu6 => 103 | DUALENTSP_u6 => 104
  | DUALENTSP_lu6 => 105 | RETSP_u6 => 106 | RETSP_lu6 => 107 | RETSP_xs2a_u6 => 108
  | RETSP_xs2a_lu6 => 109 | KRESTSP_u6 => 110 | KRESTSP_lu6 => 111 | KENTSP_u6 => 112
  | KENTSP_lu6 => 113 | BRFU_u6 => 114 | BRFU_lu6 => 115 | BRFU_illegal_u6 => 116
  | BRFU_illegal_lu6 => 117 | BRBU_u6 => 118 | BRBU_lu6 => 119 | BRBU_illegal_u6 => 120
  | BRBU_illegal_lu6 => 121 | LDAWCP_u6 => 122 | LDAWCP_lu6 => 123 | SETSR_u6 => 124
  | SETSR_lu6 => 125 | CLRSR_u6 => 126 | CLRSR_lu6 => 127 | BLAT_u6 => 128 | BLAT_lu6 => 129
  | KCALL_u6 => 130 | KCALL_lu6 => 131 | GETSR_u6 => 132 | GETSR_lu6 => 133 | LDWCPL_u10 => 134
  | LDWCPL_lu10 => 135 | LDAPF_u10 => 136 | LDAPF_lu10 => 137 | LDAPB_u10 => 138
  | LDAPB_lu10 => 139 | BLRF_u10 => 140 | BLRF_lu10 => 141 | BLRF_illegal_u10 => 142
  | BLRF_illegal_lu10 => 143 | BLRB_u10 => 144 | BLRB_lu10 => 145 | BLRB_illegal_u10 => 146
  | BLRB_illegal_lu10 => 147 | BLACP_u10 => 148 | BLACP_lu10 => 149 | NOT_2r => 150
  | NEG_2r => 151 | SEXT_rus => 152 | SEXT_2r => 153 | ZEXT_rus => 154 | ZEXT_2r => 155
  | ANDNOT_2r => 156 | MKMSK_2r => 157 | MKMSK_rus => 158 | GETR_rus => 159 | GETST_2r => 160
  | PEEK_2r => 161 | ENDIN_2r => 162 | SETPSC_2r => 163 | BITREV_2r => 164 | BITREV_l2r => 165
  | BYTEREV_2r => 166 | BYTEREV_l2r => 167 | CLZ_2r => 168 | CLZ_l2r => 169 | TINITLR_l2r => 170
  | GETD_l2r => 171 | TESTLCL_l2r => 172 | SETN_l2r => 173 | GETN_l2r => 174 | GETPS_l2r => 175
  | SETPS_l2r => 176 | SETC_l2r => 177 | SETCLK_l2r => 178 | SETTW_l2r => 179 | SETRDY_l2r => 180
  | IN_2r => 181 | OUT_2r => 182 | TINITPC_2r => 183 | TINITPC_l2r => 184 | TINITDP_2r => 185
  | TINITSP_l2r => 186 | TINITSP_2r => 187 | TINITCP_2r => 188 | TSETMR_2r => 189
  | SETD_2r => 190 | OUTCT_2r => 191 | OUTCT_rus => 192 | OUTT_2r => 193 | INT_2r => 194
  | INCT_2r => 195 | CHKCT_2r => 196 | CHKCT_rus => 197 | TESTCT_2r => 198 | TESTWCT_2r => 199
  | EET_2r => 200 | EEF_2r => 201 | INSHR_2r => 202 | OUTSHR_2r => 203 | GETTS_2r => 204
  | SETPT_2r => 205 | GETTIME_1r => 206 | ELATE_1r => 207 | SETSP_1r => 208 | SETDP_1r => 209
  | SETCP_1r => 210 | ECALLT_1r => 211 | ECALLF_1r => 212 | BAU_1r => 213 | BLA_1r => 214
  | BRU_1r => 215 | TSTART_1r => 216 | DGETREG_1r => 217 | KCALL_1r => 218 | FREER_1r => 219
  | MSYNC_1r => 220 | MJOIN_1r => 221 | SETV_1r => 222 | SETEV_1r => 223 | EDU_1r => 224
  | EEU_1r => 225 | WAITET_1r => 226 | WAITEF_1r => 227 | SYNCR_1r => 228 | CLRPT_1r => 229
  | NOP_0r => 230 | GETID_0r => 231 | GETET_0r => 232 | GETED_0r => 233 | GETKEP_0r => 234
  | GETKSP_0r => 235 | SETKEP_0r => 236 | KRET_0r => 237 | KRET_l0r => 238 | DRESTSP_0r => 239
  | LDSPC_0r => 240 | LDSSR_0r => 241 | LDSED_0r => 242 | LDET_0r => 243 | STSPC_0r => 244
  | STSSR_0r => 245 | STSED_0r => 246 | STET_0r => 247 | FREET_0r => 248 | DCALL_0r => 249
  | DRET_0r => 250 | DENTSP_0r => 251 | CLRE_0r => 252 | WAITEU_0r => 253 | SSYNC_0r => 254
  | ILLEGAL_PC => 255 | ILLEGAL_PC_THREAD => 256 | ILLEGAL_INSTRUCTION => 257 | BREAKPOINT => 258
  | RUN_JIT => 259 | INTERPRET_ONE => 260 | DECODE => 261
  end.

(** utils/instgen/InstructionGen.cpp:1856-1934 add: the format each instruction is declared with *)
Definition opcode_format (o : InstructionOpcode) : Format :=
  match o with
  | ADD_3r | SUB_3r | EQ_3r | LSS_3r | LSU_3r | AND_3r | OR_3r | SHL_3r | SHR_3r | LDW_3r
  | LD16S_3r | LD8U_3r => f3r
  | ADD_2rus | ADD_mov_2rus | SUB_2rus | EQ_2rus | SHL_2rus | SHL_32_2rus | SHR_2rus
  | SHR_32_2rus | LDW_2rus => f2rus
  | STW_2rus => f2rus_in
  | KRET_l0r => fl0r
  | LDAWF_l3r | LDAWB_l3r | LDA16F_l3r | LDA16B_l3r | MUL_l3r | DIVS_l3r | DIVU_l3r | REMS_l3r
  | REMU_l3r | XOR_l3r | ASHR_l3r => fl3r
  | LSATS_l3r => fl3r_inout_inout
  | STD_l3rus => fl3rus_in
  | LDD_l3rus => fl3rus_out_out
  | STW_l3r | ST16_l3r | ST8_l3r => fl3r_in
  | CRC_l3r => fl3r_inout
  | LDAWF_l2rus | LDAWB_l2rus | ASHR_l2rus | ASHR_32_l2rus | INPW_l2rus => fl2rus
  | UNZIP_l2rus | ZIP_l2rus => fl2rus_inout_inout
  | LDDSP_l2rus => fl2rus_out
  | OUTPW_l2rus | STDSP_l2rus => fl2rus_in
  | LEXTRACT_l4rus => fl4rus
  | CRCN_l4r | STD_l4r | MACCU_l4r | MACCS_l4r => fl4r_inout_inout
  | LDD_l4r => fl4r_out_out
  | CRC8_l4r => fl4r_out_inout
  | LADD_l5r | LSUB_l5r | LDIVU_l5r => fl5r
  | XOR4_l5r => fl5r_1out_4in
  | LMUL_l6r => fl6r
  | LDAWDP_ru6 | LDWDP_ru6 | LDWCP_ru6 | LDWSP_ru6 | LDAWSP_ru6 | LDC_ru6 => fru6_out
  | STWDP_ru6 | STWSP_ru6 | BRFT_ru6 | BRFT_illegal_ru6 | BRBT_ru6 | BRBT_illegal_ru6 | BRFF_ru6
  | BRFF_illegal_ru6 | BRBF_ru6 | BRBF_illegal_ru6 | SETC_ru6 => fru6_in
  | EXTSP_u6 | EXTDP_u6 | ENTSP_u6 | DUALENTSP_u6 | RETSP_u6 | RETSP_xs2a_u6 | KRESTSP_u6
  | KENTSP_u6 | BRFU_u6 | BRFU_illegal_u6 | BRBU_u6 | BRBU_illegal_u6 | LDAWCP_u6 | SETSR_u6
  | CLRSR_u6 | BLAT_u6 | KCALL_u6 | GETSR_u6 => fu6
  | LDWCPL_u10 | LDAPF_u10 | LDAPB_u10 | BLRF_u10 | BLRF_illegal_u10 | BLRB_u10
  | BLRB_illegal_u10 | BLACP_u10 => fu10
  | NOT_2r | NEG_2r | MKMSK_2r | GETST_2r | PEEK_2r | ENDIN_2r | BITREV_2r | BYTEREV_2r | CLZ_2r
  | IN_2r | INT_2r | INCT_2r | TESTCT_2r | TESTWCT_2r | GETTS_2r => f2r
  | SETPSC_2r | OUT_2r | TINITPC_2r | TINITDP_2r | TINITSP_2r | TINITCP_2r | TSETMR_2r | SETD_2r
  | OUTCT_2r | OUTT_2r | CHKCT_2r | EET_2r | EEF_2r | SETPT_2r => f2r_in
  | SEXT_2r | ZEXT_2r | ANDNOT_2r | INSHR_2r | OUTSHR_2r => f2r_inout
  | MKMSK_rus | GETR_rus => frus
  | OUTCT_rus | CHKCT_rus => frus_in
  | SEXT_rus | ZEXT_rus => frus_inout
  | BITREV_l2r | BYTEREV_l2r | CLZ_l2r | GETD_l2r | TESTLCL_l2r | GETN_l2r | GETPS_l2r => fl2r
  | TINITLR_l2r | SETN_l2r | SETPS_l2r | SETC_l2r | SETCLK_l2r | SETTW_l2r | SETRDY_l2r
  | TINITPC_l2r | TINITSP_l2r => fl2r_in
  | ELATE_1r | SETSP_1r | SETDP_1r | SETCP_1r | ECALLT_1r | ECALLF_1r | BAU_1r | BLA_1r | BRU_1r
  | TSTART_1r | KCALL_1r | FREER_1r | MSYNC_1r | MJOIN_1r | SETV_1r | SETEV_1r | EDU_1r | EEU_1r
  | WAITET_1r | WAITEF_1r | SYNCR_1r | CLRPT_1r => f1r
  | GETTIME_1r | DGETREG_1r => f1r_out
  | NOP_0r | GETID_0r | GETET_0r | GETED_0r | GETKEP_0r | GETKSP_0r | SETKEP_0r | KRET_0r
  | DRESTSP_0r | LDSPC_0r | LDSSR_0r | LDSED_0r | LDET_0r | STSPC_0r | STSSR_0r | STSED_0r
  | STET_0r | FREET_0r | DCALL_0r | DRET_0r | DENTSP_0r | CLRE_0r | WAITEU_0r | SSYNC_0r => f0r
  | LDAWDP_lru6 | LDWDP_lru6 | LDWCP_lru6 | LDWSP_lru6 | LDAWSP_lru6 | LDC_lru6 => fru6_out_l
  | STWDP_lru6 | STWSP_lru6 | BRFT_lru6 | BRFT_illegal_lru6 | BRBT_lru6 | BRBT_illegal_lru6
  | BRFF_lru6 | BRFF_illegal_lru6 | BRBF_lru6 | BRBF_illegal_lru6 | SETC_lru6 => fru6_in_l
  | EXTSP_lu6 | EXTDP_lu6 | ENTSP_lu6 | DUALENTSP_lu6 | RETSP_lu6 | RETSP_xs2a_lu6 | KRESTSP_lu6
  | KENTSP_lu6 | BRFU_lu6 | BRFU_illegal_lu6 | BRBU_lu6 | BRBU_illegal_lu6 | LDAWCP_lu6
  | SETSR_lu6 | CLRSR_lu6 | BLAT_lu6 | KCALL_lu6 | GETSR_lu6 => fu6_l
  | LDWCPL_lu10 | LDAPF_lu10 | LDAPB_lu10 | BLRF_lu10 | BLRF_illegal_lu10 | BLRB_lu10
  | BLRB_illegal_lu10 | BLACP_lu10 => fu10_l
  | TSETR_3r => tsetr
  | TSETR_l3r => tsetr_l
  | ILLEGAL_PC | ILLEGAL_PC_THREAD | ILLEGAL_INSTRUCTION | BREAKPOINT | RUN_JIT | INTERPRET_ONE
  | DECODE => pseudoInst
  end.

(** lib/InstructionProperties.h:21-33 InstructionProperties: the [size] field, in bytes *)
Definition instruction_size (o : InstructionOpcode) : Z := format_size (opcode_format o).

(** The kinds of the explicit operands of an instruction. *)
Definition explicit_ops (o : InstructionOpcode) : list OpType := format_ops (opcode_format o).

Lemma opcodes_lookup o : opcodes !! opcode_value o = Some o.
Proof. by destruct o. Qed.

Lemma opcode_value_inj : Inj (=) (=) opcode_value.
Proof.
  intros o1 o2 H. pose proof (opcodes_lookup o1) as H1. rewrite H, opcodes_lookup in H1.
  by injection H1.
Qed.

#[export] Instance InstructionOpcode_eq_dec : EqDecision InstructionOpcode.
Proof.
  intros o1 o2. destruct (decide (opcode_value o1 = opcode_value o2)) as [E|E].
  - left. by apply opcode_value_inj.
  - right. intros ->. by apply E.
Defined.

#[export] Instance OpType_eq_dec : EqDecision OpType.
Proof. solve_decision. Defined.

#[export] Instance Reg_eq_dec : EqDecision Reg.
Proof. solve_decision. Defined.

Lemma instruction_size_cases o : instruction_size o = 2 \/ instruction_size o = 4.
Proof. unfold instruction_size. destruct (opcode_format o); cbn; tauto. Qed.

Lemma reg_index_bound r : 0 <= reg_index r < NUM_REGISTERS.
Proof. destruct r; unfold NUM_REGISTERS; cbn; lia. Qed.
