(* ===== verification/InstrDecode.v ===== *)
(** * The instruction decoder (lib/Instruction.cpp)

    [instructionDecode] maps a half-word pair to an opcode and up to six
    operands.  The two results are reference parameters of the C++ code: a
    path that assigns nothing leaves the caller's (uninitialised) variable
    alone, so the opcode slot of the state is an option, with [None] for a
    variable that has not been assigned.  The flag [assertsOk] records
    whether every [assert] on the path held. *)

From stdpp Require Import base list numbers option.
From Stdlib Require Import ZArith Lia.
From S2P Require Import Prelude BitManip Opcode.

#[local] Open Scope Z_scope.
#[local] Open Scope cbits_scope.

(** lib/Node.h:53-57 Type *)
Inductive NodeType := XS1_L | XS1_G | XS2_A.

#[export] Instance NodeType_eq_dec : EqDecision NodeType.
Proof. solve_decision. Defined.

Definition is_XS2_A (t : NodeType) : bool := bool_decide (t = XS2_A).

(** [struct Operands] of lib/Instruction.h: an array of six words. *)
Abbreviation Operands := (list Z).

(** lib/Instruction.h:29-31 instructionDecode: its reference parameters [opcode] and [operands] *)
Record DecodeState := mkDecodeState {
  d_opcode : option InstructionOpcode;
  d_operands : Operands;
  assertsOk : bool
}.

(** The caller's variables before the call: the opcode unassigned, any operands. *)
Definition fresh_state (junk : Operands) : DecodeState := mkDecodeState None junk true.

(** lib/Instruction.cpp:334-334 OP *)
Definition OP (n : nat) (ops : Operands) : Z := nth n ops 0.
Definition set_OP (n : nat) (v : Z) (ops : Operands) : Operands := <[n := v]> ops.

Definition set_opcode (o : InstructionOpcode) (s : DecodeState) : DecodeState :=
  mkDecodeState (Some o) (d_operands s) (assertsOk s).
Definition set_operands (f : Operands -> Operands) (s : DecodeState) : DecodeState :=
  mkDecodeState (d_opcode s) (f (d_operands s)) (assertsOk s).

(** ** Bit tests of the encoding formats *)

(** lib/Instruction.cpp:15-18 bitRange *)
Definition bitRange (value high low : Z) : Z := extractBitRange value high low.
(** lib/Instruction.cpp:20-23 bit *)
Definition bit (value shift : Z) : Z := extractBit value shift.

(** lib/Instruction.cpp:26-29 test3R *)
Definition test3R (low : Z) : bool := bitRange low 10 6 <? 27.

(** The two-register operand field, in unsigned arithmetic. *)
Definition combined2R (low : Z) : Z := u32 (u32 (bitRange low 10 6 - 27) + bit low 5 * 5).

(** lib/Instruction.cpp:32-37 test2R *)
Definition test2R (low : Z) : bool := combined2R low <? 9.
(** lib/Instruction.cpp:39-42 test1R *)
Definition test1R (low : Z) : bool :=
  (bitRange low 10 5 =? 0x3f) && (bitRange low 3 0 <? 12).
(** lib/Instruction.cpp:44-47 testRU6 *)
Definition testRU6 (low : Z) : bool := bitRange low 9 6 <? 12.
(** lib/Instruction.cpp:49-52 testRU6_2 *)
Definition testRU6_2 (low : Z) : bool := true.
(** lib/Instruction.cpp:54-57 testLRU6 *)
Definition testLRU6 (high low : Z) : bool := testRU6 high.
(** lib/Instruction.cpp:59-62 testLRU6_2 *)
Definition testLRU6_2 (high low : Z) : bool := testRU6_2 high.
(** lib/Instruction.cpp:64-69 testL2R *)
Definition testL2R (high low : Z) : bool :=
  (combined2R low <? 9) && (bitRange high 10 4 =? 0x7e).
(** lib/Instruction.cpp:72-75 testL3R *)
Definition testL3R (high low : Z) : bool :=
  (bitRange low 10 6 <? 27) && (bitRange high 10 4 =? 0x7e).
(** lib/Instruction.cpp:77-81 testL4R *)
Definition testL4R (high low : Z) : bool :=
  (bitRange low 10 6 <? 27) && (bitRange high 3 0 <? 12) && (bitRange high 10 5 =? 0x3f).
(** lib/Instruction.cpp:83-91 testL5R *)
Definition testL5R (high low : Z) : bool :=
  if 26 <? bitRange low 10 6 then false else combined2R high <? 9.
(** lib/Instruction.cpp:93-97 testL6R *)
Definition testL6R (high low : Z) : bool :=
  (bitRange low 10 6 <? 27) && (bitRange high 10 6 <? 27).

(** ** Operand extraction *)

(** lib/Instruction.cpp:99-108 decode3ROperands *)
Definition decode3ROperands (ops : Operands) (low : Z) : Operands :=
  let combined := bitRange low 10 6 in
  let op0_high := combined mod 3 in
  let op1_high := (combined / 3) mod 3 in
  let op2_high := combined / 9 in
  let ops := set_OP 0 (bitRange low 5 4 .| (op0_high .<< 2)) ops in
  let ops := set_OP 1 (bitRange low 3 2 .| (op1_high .<< 2)) ops in
  set_OP 2 (bitRange low 1 0 .| (op2_high .<< 2)) ops.

(** lib/Instruction.cpp:110-113 decodeL3ROperands *)
Definition decodeL3ROperands (ops : Operands) (high low : Z) : Operands :=
  decode3ROperands ops low.
(** lib/Instruction.cpp:115-118 decode2RUSOperands *)
Definition decode2RUSOperands (ops : Operands) (low : Z) : Operands := decode3ROperands ops low.
(** lib/Instruction.cpp:120-123 decodeL2RUSOperands *)
Definition decodeL2RUSOperands (ops : Operands) (high low : Z) : Operands :=
  decodeL3ROperands ops high low.
(** lib/Instruction.cpp:125-129 decodeRU6Operands *)
Definition decodeRU6Operands (ops : Operands) (low : Z) : Operands :=
  set_OP 1 (bitRange low 5 0) (set_OP 0 (bitRange low 9 6) ops).
(** lib/Instruction.cpp:131-135 decodeLRU6Operands *)
Definition decodeLRU6Operands (ops : Operands) (high low : Z) : Operands :=
  set_OP 1 (bitRange high 5 0 .| (bitRange low 9 0 .<< 6)) (set_OP 0 (bitRange high 9 6) ops).
(** lib/Instruction.cpp:137-140 decodeU6Operands *)
Definition decodeU6Operands (ops : Operands) (low : Z) : Operands :=
  set_OP 0 (bitRange low 5 0) ops.
(** lib/Instruction.cpp:142-145 decodeLU6Operands *)
Definition decodeLU6Operands (ops : Operands) (high low : Z) : Operands :=
  set_OP 0 (bitRange high 5 0 .| (bitRange low 9 0 .<< 6)) ops.
(** lib/Instruction.cpp:147-150 decodeU10Operands *)
Definition decodeU10Operands (ops : Operands) (low : Z) : Operands :=
  set_OP 0 (bitRange low 9 0) ops.
(** lib/Instruction.cpp:152-155 decodeLU10Operands *)
Definition decodeLU10Operands (ops : Operands) (high low : Z) : Operands :=
  set_OP 0 (bitRange high 9 0 .| (bitRange low 9 0 .<< 10)) ops.
(** lib/Instruction.cpp:157-164 decode2ROperands *)
Definition decode2ROperands (ops : Operands) (low : Z) : Operands :=
  let combined := combined2R low in
  let op0_high := combined mod 3 in
  let op1_high := combined / 3 in
  set_OP 1 (bitRange low 1 0 .| (op1_high .<< 2))
    (set_OP 0 (bitRange low 3 2 .| (op0_high .<< 2)) ops).
(** lib/Instruction.cpp:166-169 decodeL2ROperands *)
Definition decodeL2ROperands (ops : Operands) (high low : Z) : Operands :=
  decode2ROperands ops low.
(** lib/Instruction.cpp:171-178 decodeRUSOperands *)
Definition decodeRUSOperands (ops : Operands) (low : Z) : Operands :=
  let combined := combined2R low in
  let op0_high := combined mod 3 in
  let op1_high := combined / 3 in
  set_OP 1 (bitRange low 1 0 .| (op1_high .<< 2))
    (set_OP 0 (bitRange low 3 2 .| (op0_high .<< 2)) ops).
(** lib/Instruction.cpp:180-183 decode1ROperands *)
Definition decode1ROperands (ops : Operands) (low : Z) : Operands :=
  set_OP 0 (bitRange low 3 0) ops.
(** lib/Instruction.cpp:185-195 decodeL4ROperands *)
Definition decodeL4ROperands (ops : Operands) (high low : Z) : Operands :=
  let combined := bitRange low 10 6 in
  let op0_high := combined mod 3 in
  let op1_high := (combined / 3) mod 3 in
  let op2_high := combined / 9 in
  let ops := set_OP 0 (bitRange low 5 4 .| (op0_high .<< 2)) ops in
  let ops := set_OP 1 (bitRange low 3 2 .| (op1_high .<< 2)) ops in
  let ops := set_OP 2 (bitRange low 1 0 .| (op2_high .<< 2)) ops in
  set_OP 3 (bitRange high 3 0) ops.
(** lib/Instruction.cpp:197-213 decodeL5ROperands *)
Definition decodeL5ROperands (ops : Operands) (high low : Z) : Operands :=
  let combined_low := bitRange low 10 6 in
  let op0_high := combined_low mod 3 in
  let op1_high := (combined_low / 3) mod 3 in
  let op2_high := combined_low / 9 in
  let combined_high := combined2R high in
  let op3_high := combined_high mod 3 in
  let op4_high := combined_high / 3 in
  let ops := set_OP 0 (bitRange low 5 4 .| (op0_high .<< 2)) ops in
  let ops := set_OP 1 (bitRange low 3 2 .| (op1_high .<< 2)) ops in
  let ops := set_OP 2 (bitRange low 1 0 .| (op2_high .<< 2)) ops in
  let ops := set_OP 3 (bitRange high 3 2 .| (op3_high .<< 2)) ops in
  set_OP 4 (bitRange high 1 0 .| (op4_high .<< 2)) ops.
(** lib/Instruction.cpp:215-233 decodeL6ROperands *)
Definition decodeL6ROperands (ops : Operands) (high low : Z) : Operands :=
  let combined_low := bitRange low 10 6 in
  let op0_high := combined_low mod 3 in
  let op1_high := (combined_low / 3) mod 3 in
  let op2_high := combined_low / 9 in
  let combined_high := bitRange high 10 6 in
  let op3_high := combined_high mod 3 in
  let op4_high := (combined_high / 3) mod 3 in
  let op5_high := combined_high / 9 in
  let ops := set_OP 0 (bitRange low 5 4 .| (op0_high .<< 2)) ops in
  let ops := set_OP 1 (bitRange low 3 2 .| (op1_high .<< 2)) ops in
  let ops := set_OP 2 (bitRange low 1 0 .| (op2_high .<< 2)) ops in
  let ops := set_OP 3 (bitRange high 5 4 .| (op3_high .<< 2)) ops in
  let ops := set_OP 4 (bitRange high 3 2 .| (op4_high .<< 2)) ops in
  set_OP 5 (bitRange high 1 0 .| (op5_high .<< 2)) ops.

(** ** The [DECODE_*] macros *)

(** lib/Instruction.cpp:235-239 DECODE_3R *)
Definition DECODE_3R (inst : InstructionOpcode) (low : Z) (s : DecodeState) : DecodeState :=
  set_operands (fun ops => decode3ROperands ops low) (set_opcode inst s).
(** lib/Instruction.cpp:240-244 DECODE_2RUS *)
Definition DECODE_2RUS (inst : InstructionOpcode) (low : Z) (s : DecodeState) : DecodeState :=
  set_operands (fun ops => decode2RUSOperands ops low) (set_opcode inst s).
(** lib/Instruction.cpp:245-249 DECODE_RU6 *)
Definition DECODE_RU6 (inst : InstructionOpcode) (low : Z) (s : DecodeState) : DecodeState :=
  set_operands (fun ops => decodeRU6Operands ops low) (set_opcode inst s).
(** lib/Instruction.cpp:250-254 DECODE_LRU6 *)
Definition DECODE_LRU6 (inst : InstructionOpcode) (high low : Z) (s : DecodeState) : DecodeState :=
  set_operands (fun ops => decodeLRU6Operands ops high low) (set_opcode inst s).
(** lib/Instruction.cpp:255-259 DECODE_2R *)
Definition DECODE_2R (inst : InstructionOpcode) (low : Z) (s : DecodeState) : DecodeState :=
  set_operands (fun ops => decode2ROperands ops low) (set_opcode inst s).
(** lib/Instruction.cpp:260-264 DECODE_RUS *)
Definition DECODE_RUS (inst : InstructionOpcode) (low : Z) (s : DecodeState) : DecodeState :=
  set_operands (fun ops => decodeRUSOperands ops low) (set_opcode inst s).
(** lib/Instruction.cpp:265-269 DECODE_1R *)
Definition DECODE_1R (inst : InstructionOpcode) (low : Z) (s : DecodeState) : DecodeState :=
  set_operands (fun ops => decode1ROperands ops low) (set_opcode inst s).
(** lib/Instruction.cpp:270-274 DECODE_U6 *)
Definition DECODE_U6 (inst : InstructionOpcode) (low : Z) (s : DecodeState) : DecodeState :=
  set_operands (fun ops => decodeU6Operands ops low) (set_opcode inst s).
(** lib/Instruction.cpp:275-279 DECODE_LU6 *)
Definition DECODE_LU6 (inst : InstructionOpcode) (high low : Z) (s : DecodeState) : DecodeState :=
  set_operands (fun ops => decodeLU6Operands ops high low) (set_opcode inst s).
(** lib/Instruction.cpp:280-284 DECODE_U10 *)
Definition DECODE_U10 (inst : InstructionOpcode) (low : Z) (s : DecodeState) : DecodeState :=
  set_operands (fun ops => decodeU10Operands ops low) (set_opcode inst s).
(** lib/Instruction.cpp:285-289 DECODE_LU10 *)
Definition DECODE_LU10 (inst : InstructionOpcode) (high low : Z) (s : DecodeState) : DecodeState :=
  set_operands (fun ops => decodeLU10Operands ops high low) (set_opcode inst s).
(** lib/Instruction.cpp:290-293 DECODE_0R *)
Definition DECODE_0R (inst : InstructionOpcode) (s : DecodeState) : DecodeState :=
  set_opcode inst s.
(** lib/Instruction.cpp:294-297 DECODE_L0R *)
Definition DECODE_L0R (inst : InstructionOpcode) (s : DecodeState) : DecodeState :=
  set_opcode inst s.
(** lib/Instruction.cpp:298-302 DECODE_L2R *)
Definition DECODE_L2R (inst : InstructionOpcode) (high low : Z) (s : DecodeState) : DecodeState :=
  set_operands (fun ops => decodeL2ROperands ops high low) (set_opcode inst s).
(** lib/Instruction.cpp:303-307 DECODE_L3R *)
Definition DECODE_L3R (inst : InstructionOpcode) (high low : Z) (s : DecodeState) : DecodeState :=
  set_operands (fun ops => decodeL3ROperands ops high low) (set_opcode inst s).
(** lib/Instruction.cpp:308-312 DECODE_L2RUS *)
Definition DECODE_L2RUS (inst : InstructionOpcode) (high low : Z) (s : DecodeState) : DecodeState :=
  set_operands (fun ops => decodeL2RUSOperands ops high low) (set_opcode inst s).
(** lib/Instruction.cpp:313-317 DECODE_L3RUS *)
Definition DECODE_L3RUS (inst : InstructionOpcode) (high low : Z) (s : DecodeState) : DecodeState :=
  set_operands (fun ops => decodeL4ROperands ops high low) (set_opcode inst s).
(** lib/Instruction.cpp:318-322 DECODE_L4R *)
Definition DECODE_L4R (inst : InstructionOpcode) (high low : Z) (s : DecodeState) : DecodeState :=
  set_operands (fun ops => decodeL4ROperands ops high low) (set_opcode inst s).
(** lib/Instruction.cpp:323-327 DECODE_L5R *)
Definition DECODE_L5R (inst : InstructionOpcode) (high low : Z) (s : DecodeState) : DecodeState :=
  set_operands (fun ops => decodeL5ROperands ops high low) (set_opcode inst s).
(** lib/Instruction.cpp:328-332 DECODE_L6R *)
Definition DECODE_L6R (inst : InstructionOpcode) (high low : Z) (s : DecodeState) : DecodeState :=
  set_operands (fun ops => decodeL6ROperands ops high low) (set_opcode inst s).

(** The table of [bitpValue]. *)
Definition bitpValues : list Z := [32; 1; 2; 3; 4; 5; 6; 7; 8; 16; 24; 32].

(** lib/Instruction.cpp:336-354 bitpValue: [None] when its assertion fails *)
Definition bitpValue (Value : Z) : option Z :=
  if Value <? 12 then bitpValues !! Z.to_nat Value else None.

(** [OP(n) = bitpValue(OP(n));] *)
Definition OP_bitp (n : nat) (s : DecodeState) : DecodeState :=
  match bitpValue (OP n (d_operands s)) with
  | Some v => set_operands (set_OP n v) s
  | None => mkDecodeState (d_opcode s) (d_operands s) false
  end.

(** lib/Instruction.cpp:378-378 PFIX *)
Definition PFIX : Z := 0x1e.
(** lib/Instruction.cpp:379-379 EOPR *)
Definition EOPR : Z := 0x1f.

(** ** The decoder, by major opcode *)

(** lib/Instruction.cpp:381-440 case_0x00 *)
Definition case_0x00 (low high : Z) (highValid : bool) (type : NodeType) (s : DecodeState) : DecodeState :=
  if test3R low then DECODE_2RUS STW_2rus low s
  else if test2R low then
    let sel := bit low 4 in
    if sel =? 0 then
      if is_XS2_A type then DECODE_2R BYTEREV_2r low s
      else DECODE_2R TINITPC_2r low s
    else if sel =? 1 then DECODE_2R GETST_2r low s
    else s
  else if test1R low then
    let sel := bit low 4 in
    if sel =? 0 then DECODE_1R EDU_1r low s
    else if sel =? 1 then DECODE_1R EEU_1r low s
    else s
  else if low =? 0x07ec then DECODE_0R WAITEU_0r s
  else if low =? 0x07ed then DECODE_0R CLRE_0r s
  else if low =? 0x07ee then DECODE_0R SSYNC_0r s
  else if low =? 0x07ef then DECODE_0R FREET_0r s
  else if low =? 0x07fc then DECODE_0R DCALL_0r s
  else if low =? 0x07fd then
    if negb (is_XS2_A type) then DECODE_0R KRET_0r s
    else s
  else if low =? 0x07fe then
    if negb (is_XS2_A type) then DECODE_0R DRET_0r s
    else s
  else if low =? 0x07ff then DECODE_0R SETKEP_0r s
  else s.

(** lib/Instruction.cpp:442-497 case_0x01 *)
Definition case_0x01 (low high : Z) (highValid : bool) (type : NodeType) (s : DecodeState) : DecodeState :=
  if test3R low then DECODE_2RUS LDW_2rus low s
  else if test2R low then
    let sel := bit low 4 in
    if sel =? 0 then
      if is_XS2_A type then DECODE_2R CLZ_2r low s
      else DECODE_2R TINITDP_2r low s
    else if sel =? 1 then DECODE_2R OUTT_2r low s
    else s
  else if test1R low then
    let sel := bit low 4 in
    if sel =? 0 then DECODE_1R WAITET_1r low s
    else if sel =? 1 then DECODE_1R WAITEF_1r low s
    else s
  else if low =? 0x0fec then DECODE_0R LDSPC_0r s
  else if low =? 0x0fed then DECODE_0R STSPC_0r s
  else if low =? 0x0fee then DECODE_0R LDSSR_0r s
  else if low =? 0x0fef then DECODE_0R STSSR_0r s
  else if low =? 0x0ffc then DECODE_0R STSED_0r s
  else if low =? 0x0ffd then DECODE_0R STET_0r s
  else if low =? 0x0ffe then DECODE_0R GETED_0r s
  else if low =? 0x0fff then DECODE_0R GETET_0r s
  else s.

(** lib/Instruction.cpp:499-560 case_0x02 *)
Definition case_0x02 (low high : Z) (highValid : bool) (type : NodeType) (s : DecodeState) : DecodeState :=
  if test3R low then DECODE_3R ADD_3r low s
  else if test2R low then
    let sel := bit low 4 in
    if sel =? 0 then
      if is_XS2_A type then DECODE_2R BITREV_2r low s
      else DECODE_2R TINITSP_2r low s
    else if sel =? 1 then DECODE_2R SETD_2r low s
    else s
  else if test1R low then
    let sel := bit low 4 in
    if sel =? 0 then DECODE_1R FREER_1r low s
    else if sel =? 1 then DECODE_1R MJOIN_1r low s
    else s
  else if low =? 0x17ec then
    if negb (is_XS2_A type) then DECODE_0R DENTSP_0r s
    else s
  else if low =? 0x17ed then
    if negb (is_XS2_A type) then DECODE_0R DRESTSP_0r s
    else s
  else if low =? 0x17ee then DECODE_0R GETID_0r s
  else if low =? 0x17ef then DECODE_0R GETKEP_0r s
  else if low =? 0x17fc then DECODE_0R GETKSP_0r s
  else if low =? 0x17fd then DECODE_0R LDSED_0r s
  else if low =? 0x17fe then DECODE_0R LDET_0r s
  else if low =? 0x17ff then
    if is_XS2_A type then DECODE_0R NOP_0r s
    else s
  else s.

(** lib/Instruction.cpp:562-586 case_0x03 *)
Definition case_0x03 (low high : Z) (highValid : bool) (type : NodeType) (s : DecodeState) : DecodeState :=
  if test3R low then DECODE_3R SUB_3r low s
  else if (test2R low) && (negb (is_XS2_A type)) then
    let sel := bit low 4 in
    if sel =? 0 then DECODE_2R TINITCP_2r low s
    else if sel =? 1 then DECODE_2R TSETMR_2r low s
    else s
  else if test1R low then
    let sel := bit low 4 in
    if sel =? 0 then DECODE_1R TSTART_1r low s
    else if sel =? 1 then DECODE_1R MSYNC_1r low s
    else s
  else s.

(** lib/Instruction.cpp:588-611 case_0x04 *)
Definition case_0x04 (low high : Z) (highValid : bool) (type : NodeType) (s : DecodeState) : DecodeState :=
  if test3R low then DECODE_3R SHL_3r low s
  else if test2R low then
    let sel := bit low 4 in
    if sel =? 0 then s
    else if sel =? 1 then DECODE_2R EET_2r low s
    else s
  else if test1R low then
    let sel := bit low 4 in
    if sel =? 0 then DECODE_1R BLA_1r low s
    else if sel =? 1 then DECODE_1R BAU_1r low s
    else s
  else s.

(** lib/Instruction.cpp:613-637 case_0x05 *)
Definition case_0x05 (low high : Z) (highValid : bool) (type : NodeType) (s : DecodeState) : DecodeState :=
  if test3R low then DECODE_3R SHR_3r low s
  else if test2R low then
    let sel := bit low 4 in
    if sel =? 0 then DECODE_2R ANDNOT_2r low s
    else if sel =? 1 then DECODE_2R EEF_2r low s
    else s
  else if test1R low then
    let sel := bit low 4 in
    if sel =? 0 then DECODE_1R BRU_1r low s
    else if sel =? 1 then DECODE_1R SETSP_1r low s
    else s
  else s.

(** lib/Instruction.cpp:639-664 case_0x06 *)
Definition case_0x06 (low high : Z) (highValid : bool) (type : NodeType) (s : DecodeState) : DecodeState :=
  if test3R low then DECODE_3R EQ_3r low s
  else if test2R low then
    let sel := bit low 4 in
    if sel =? 0 then DECODE_2R SEXT_2r low s
    else if sel =? 1 then
      let s :=
        DECODE_RUS SEXT_rus low s
      in
      OP_bitp 1 s
    else s
  else if test1R low then
    let sel := bit low 4 in
    if sel =? 0 then DECODE_1R SETDP_1r low s
    else if sel =? 1 then DECODE_1R SETCP_1r low s
    else s
  else s.

(** lib/Instruction.cpp:666-690 case_0x07 *)
Definition case_0x07 (low high : Z) (highValid : bool) (type : NodeType) (s : DecodeState) : DecodeState :=
  if test3R low then DECODE_3R AND_3r low s
  else if test2R low then
    let sel := bit low 4 in
    if sel =? 0 then DECODE_2R GETTS_2r low s
    else if sel =? 1 then DECODE_2R SETPT_2r low s
    else s
  else if test1R low then
    let sel := bit low 4 in
    if sel =? 0 then DECODE_1R DGETREG_1r low s
    else if sel =? 1 then DECODE_1R SETEV_1r low s
    else s
  else s.

(** lib/Instruction.cpp:692-717 case_0x08 *)
Definition case_0x08 (low high : Z) (highValid : bool) (type : NodeType) (s : DecodeState) : DecodeState :=
  if test3R low then DECODE_3R OR_3r low s
  else if test2R low then
    let sel := bit low 4 in
    if sel =? 0 then DECODE_2R ZEXT_2r low s
    else if sel =? 1 then
      let s :=
        DECODE_RUS ZEXT_rus low s
      in
      OP_bitp 1 s
    else s
  else if test1R low then
    let sel := bit low 4 in
    if sel =? 0 then DECODE_1R KCALL_1r low s
    else if sel =? 1 then DECODE_1R SETV_1r low s
    else s
  else s.

(** lib/Instruction.cpp:719-743 case_0x09 *)
Definition case_0x09 (low high : Z) (highValid : bool) (type : NodeType) (s : DecodeState) : DecodeState :=
  if test3R low then DECODE_3R LDW_3r low s
  else if test2R low then
    let sel := bit low 4 in
    if sel =? 0 then DECODE_2R OUTCT_2r low s
    else if sel =? 1 then DECODE_RUS OUTCT_rus low s
    else s
  else if test1R low then
    let sel := bit low 4 in
    if sel =? 0 then DECODE_1R ECALLF_1r low s
    else if sel =? 1 then DECODE_1R ECALLT_1r low s
    else s
  else s.

(** lib/Instruction.cpp:745-758 case_0x0a *)
Definition case_0x0a (low high : Z) (highValid : bool) (type : NodeType) (s : DecodeState) : DecodeState :=
  if testRU6_2 low then
    let sel := bit low 10 in
    if sel =? 0 then DECODE_RU6 STWDP_ru6 low s
    else if sel =? 1 then DECODE_RU6 STWSP_ru6 low s
    else s
  else s.

(** lib/Instruction.cpp:760-773 case_0x0b *)
Definition case_0x0b (low high : Z) (highValid : bool) (type : NodeType) (s : DecodeState) : DecodeState :=
  if testRU6_2 low then
    let sel := bit low 10 in
    if sel =? 0 then DECODE_RU6 LDWDP_ru6 low s
    else if sel =? 1 then DECODE_RU6 LDWSP_ru6 low s
    else s
  else s.

(** lib/Instruction.cpp:775-788 case_0x0c *)
Definition case_0x0c (low high : Z) (highValid : bool) (type : NodeType) (s : DecodeState) : DecodeState :=
  if testRU6_2 low then
    let sel := bit low 10 in
    if sel =? 0 then DECODE_RU6 LDAWDP_ru6 low s
    else if sel =? 1 then DECODE_RU6 LDAWSP_ru6 low s
    else s
  else s.

(** lib/Instruction.cpp:790-803 case_0x0d *)
Definition case_0x0d (low high : Z) (highValid : bool) (type : NodeType) (s : DecodeState) : DecodeState :=
  if testRU6_2 low then
    let sel := bit low 10 in
    if sel =? 0 then DECODE_RU6 LDC_ru6 low s
    else if sel =? 1 then DECODE_RU6 LDWCP_ru6 low s
    else s
  else s.

(** lib/Instruction.cpp:805-849 case_0x0e *)
Definition case_0x0e (low high : Z) (highValid : bool) (type : NodeType) (s : DecodeState) : DecodeState :=
  if testRU6 low then
    let sel := bit low 10 in
    if sel =? 0 then DECODE_RU6 BRFT_ru6 low s
    else if sel =? 1 then DECODE_RU6 BRBT_ru6 low s
    else s
  else
    let sel := bitRange low 10 6 in
    if sel =? 0x0c then DECODE_U6 BRFU_u6 low s
    else if sel =? 0x0d then DECODE_U6 BLAT_u6 low s
    else if sel =? 0x0e then DECODE_U6 EXTDP_u6 low s
    else if sel =? 0x0f then DECODE_U6 KCALL_u6 low s
    else if sel =? 0x1c then DECODE_U6 BRBU_u6 low s
    else if sel =? 0x1d then DECODE_U6 ENTSP_u6 low s
    else if sel =? 0x1e then DECODE_U6 EXTSP_u6 low s
    else if sel =? 0x1f then
      if is_XS2_A type then DECODE_U6 RETSP_xs2a_u6 low s
      else DECODE_U6 RETSP_u6 low s
    else s.

(** lib/Instruction.cpp:851-892 case_0x0f *)
Definition case_0x0f (low high : Z) (highValid : bool) (type : NodeType) (s : DecodeState) : DecodeState :=
  if testRU6 low then
    let sel := bit low 10 in
    if sel =? 0 then DECODE_RU6 BRFF_ru6 low s
    else if sel =? 1 then DECODE_RU6 BRBF_ru6 low s
    else s
  else
    let sel := bitRange low 10 6 in
    if sel =? 0x0c then DECODE_U6 CLRSR_u6 low s
    else if sel =? 0x0d then DECODE_U6 SETSR_u6 low s
    else if sel =? 0x0e then DECODE_U6 KENTSP_u6 low s
    else if sel =? 0x0f then
      if negb (is_XS2_A type) then DECODE_U6 KRESTSP_u6 low s
      else s
    else if sel =? 0x1c then DECODE_U6 GETSR_u6 low s
    else if sel =? 0x1d then DECODE_U6 LDAWCP_u6 low s
    else if sel =? 0x1e then
      if is_XS2_A type then DECODE_U6 DUALENTSP_u6 low s
      else s
    else s.

(** lib/Instruction.cpp:894-918 case_0x10 *)
Definition case_0x10 (low high : Z) (highValid : bool) (type : NodeType) (s : DecodeState) : DecodeState :=
  if test3R low then DECODE_3R LD16S_3r low s
  else if test2R low then
    let sel := bit low 4 in
    if sel =? 0 then DECODE_RUS GETR_rus low s
    else if sel =? 1 then DECODE_2R INCT_2r low s
    else s
  else if test1R low then
    let sel := bit low 4 in
    if sel =? 0 then DECODE_1R CLRPT_1r low s
    else if sel =? 1 then DECODE_1R SYNCR_1r low s
    else s
  else s.

(** lib/Instruction.cpp:920-944 case_0x11 *)
Definition case_0x11 (low high : Z) (highValid : bool) (type : NodeType) (s : DecodeState) : DecodeState :=
  if test3R low then DECODE_3R LD8U_3r low s
  else if test2R low then
    let sel := bit low 4 in
    if sel =? 0 then DECODE_2R NOT_2r low s
    else if sel =? 1 then DECODE_2R INT_2r low s
    else s
  else if (test1R low) && (is_XS2_A type) then
    let sel := bit low 4 in
    if sel =? 0 then DECODE_1R GETTIME_1r low s
    else if sel =? 1 then DECODE_1R ELATE_1r low s
    else s
  else s.

(** lib/Instruction.cpp:946-961 case_0x12 *)
Definition case_0x12 (low high : Z) (highValid : bool) (type : NodeType) (s : DecodeState) : DecodeState :=
  if test3R low then DECODE_2RUS ADD_2rus low s
  else if test2R low then
    let sel := bit low 4 in
    if sel =? 0 then DECODE_2R NEG_2r low s
    else if sel =? 1 then DECODE_2R ENDIN_2r low s
    else s
  else s.

(** lib/Instruction.cpp:963-969 case_0x13 *)
Definition case_0x13 (low high : Z) (highValid : bool) (type : NodeType) (s : DecodeState) : DecodeState :=
  if test3R low then DECODE_2RUS SUB_2rus low s
  else s.

(** lib/Instruction.cpp:971-988 case_0x14 *)
Definition case_0x14 (low high : Z) (highValid : bool) (type : NodeType) (s : DecodeState) : DecodeState :=
  if test3R low then
    let s :=
      DECODE_2RUS SHL_2rus low s
    in
    OP_bitp 2 s
  else if test2R low then
    let sel := bit low 4 in
    if sel =? 0 then DECODE_2R MKMSK_2r low s
    else if sel =? 1 then
      let s :=
        DECODE_RUS MKMSK_rus low s
      in
      OP_bitp 1 s
    else s
  else s.

(** lib/Instruction.cpp:990-1006 case_0x15 *)
Definition case_0x15 (low high : Z) (highValid : bool) (type : NodeType) (s : DecodeState) : DecodeState :=
  if test3R low then
    let s :=
      DECODE_2RUS SHR_2rus low s
    in
    OP_bitp 2 s
  else if test2R low then
    let sel := bit low 4 in
    if sel =? 0 then DECODE_2R OUT_2r low s
    else if sel =? 1 then DECODE_2R OUTSHR_2r low s
    else s
  else s.

(** lib/Instruction.cpp:1008-1023 case_0x16 *)
Definition case_0x16 (low high : Z) (highValid : bool) (type : NodeType) (s : DecodeState) : DecodeState :=
  if test3R low then DECODE_2RUS EQ_2rus low s
  else if test2R low then
    let sel := bit low 4 in
    if sel =? 0 then DECODE_2R IN_2r low s
    else if sel =? 1 then DECODE_2R INSHR_2r low s
    else s
  else s.

(** lib/Instruction.cpp:1025-1040 case_0x17 *)
Definition case_0x17 (low high : Z) (highValid : bool) (type : NodeType) (s : DecodeState) : DecodeState :=
  if (test3R low) && (negb (is_XS2_A type)) then DECODE_3R TSETR_3r low s
  else if test2R low then
    let sel := bit low 4 in
    if sel =? 0 then DECODE_2R PEEK_2r low s
    else if sel =? 1 then DECODE_2R TESTCT_2r low s
    else s
  else s.

(** lib/Instruction.cpp:1042-1057 case_0x18 *)
Definition case_0x18 (low high : Z) (highValid : bool) (type : NodeType) (s : DecodeState) : DecodeState :=
  if test3R low then DECODE_3R LSS_3r low s
  else if test2R low then
    let sel := bit low 4 in
    if sel =? 0 then DECODE_2R SETPSC_2r low s
    else if sel =? 1 then DECODE_2R TESTWCT_2r low s
    else s
  else s.

(** lib/Instruction.cpp:1059-1074 case_0x19 *)
Definition case_0x19 (low high : Z) (highValid : bool) (type : NodeType) (s : DecodeState) : DecodeState :=
  if test3R low then DECODE_3R LSU_3r low s
  else if test2R low then
    let sel := bit low 4 in
    if sel =? 0 then DECODE_2R CHKCT_2r low s
    else if sel =? 1 then DECODE_RUS CHKCT_rus low s
    else s
  else s.

(** lib/Instruction.cpp:1076-1084 case_0x1a *)
Definition case_0x1a (low high : Z) (highValid : bool) (type : NodeType) (s : DecodeState) : DecodeState :=
  if negb (bit low 10 =? 0) then DECODE_U10 BLRB_u10 low s
  else DECODE_U10 BLRF_u10 low s.

(** lib/Instruction.cpp:1086-1094 case_0x1b *)
Definition case_0x1b (low high : Z) (highValid : bool) (type : NodeType) (s : DecodeState) : DecodeState :=
  if negb (bit low 10 =? 0) then DECODE_U10 LDAPB_u10 low s
  else DECODE_U10 LDAPF_u10 low s.

(** lib/Instruction.cpp:1096-1104 case_0x1c *)
Definition case_0x1c (low high : Z) (highValid : bool) (type : NodeType) (s : DecodeState) : DecodeState :=
  if negb (bit low 10 =? 0) then DECODE_U10 LDWCPL_u10 low s
  else DECODE_U10 BLACP_u10 low s.

(** lib/Instruction.cpp:1106-1114 case_0x1d *)
Definition case_0x1d (low high : Z) (highValid : bool) (type : NodeType) (s : DecodeState) : DecodeState :=
  if testRU6 low then
    if bit low 10 =? 0 then DECODE_RU6 SETC_ru6 low s
    else s
  else s.

(** lib/Instruction.cpp:1125-1136 case_PFIX: the case [0x0a] of its switch *)
Definition case_PFIX_0x0a (low high : Z) (highValid : bool) (type : NodeType) (s : DecodeState) : DecodeState :=
  if testLRU6_2 high low then
    let sel := bit high 10 in
    if sel =? 0 then DECODE_LRU6 STWDP_lru6 high low s
    else if sel =? 1 then DECODE_LRU6 STWSP_lru6 high low s
    else s
  else s.

(** lib/Instruction.cpp:1137-1148 case_PFIX: the case [0x0b] of its switch *)
Definition case_PFIX_0x0b (low high : Z) (highValid : bool) (type : NodeType) (s : DecodeState) : DecodeState :=
  if testLRU6_2 high low then
    let sel := bit high 10 in
    if sel =? 0 then DECODE_LRU6 LDWDP_lru6 high low s
    else if sel =? 1 then DECODE_LRU6 LDWSP_lru6 high low s
    else s
  else s.

(** lib/Instruction.cpp:1149-1160 case_PFIX: the case [0x0c] of its switch *)
Definition case_PFIX_0x0c (low high : Z) (highValid : bool) (type : NodeType) (s : DecodeState) : DecodeState :=
  if testLRU6_2 high low then
    let sel := bit high 10 in
    if sel =? 0 then DECODE_LRU6 LDAWDP_lru6 high low s
    else if sel =? 1 then DECODE_LRU6 LDAWSP_lru6 high low s
    else s
  else s.

(** lib/Instruction.cpp:1161-1172 case_PFIX: the case [0x0d] of its switch *)
Definition case_PFIX_0x0d (low high : Z) (highValid : bool) (type : NodeType) (s : DecodeState) : DecodeState :=
  if testLRU6_2 high low then
    let sel := bit high 10 in
    if sel =? 0 then DECODE_LRU6 LDC_lru6 high low s
    else if sel =? 1 then DECODE_LRU6 LDWCP_lru6 high low s
    else s
  else s.

(** lib/Instruction.cpp:1173-1215 case_PFIX: the case [0x0e] of its switch *)
Definition case_PFIX_0x0e (low high : Z) (highValid : bool) (type : NodeType) (s : DecodeState) : DecodeState :=
  if testLRU6 high low then
    let sel := bit high 10 in
    if sel =? 0 then DECODE_LRU6 BRFT_lru6 high low s
    else if sel =? 1 then DECODE_LRU6 BRBT_lru6 high low s
    else s
  else
    let sel := bitRange high 10 6 in
    if sel =? 0x0c then DECODE_LU6 BRFU_lu6 high low s
    else if sel =? 0x0d then DECODE_LU6 BLAT_lu6 high low s
    else if sel =? 0x0e then DECODE_LU6 EXTDP_lu6 high low s
    else if sel =? 0x0f then DECODE_LU6 KCALL_lu6 high low s
    else if sel =? 0x1c then DECODE_LU6 BRBU_lu6 high low s
    else if sel =? 0x1d then DECODE_LU6 ENTSP_lu6 high low s
    else if sel =? 0x1e then DECODE_LU6 EXTSP_lu6 high low s
    else if sel =? 0x1f then
      if is_XS2_A type then DECODE_LU6 RETSP_xs2a_lu6 high low s
      else DECODE_LU6 RETSP_lu6 high low s
    else s.

(** lib/Instruction.cpp:1216-1253 case_PFIX: the case [0x0f] of its switch *)
Definition case_PFIX_0x0f (low high : Z) (highValid : bool) (type : NodeType) (s : DecodeState) : DecodeState :=
  if testLRU6 high low then
    let sel := bit high 10 in
    if sel =? 0 then DECODE_LRU6 BRFF_lru6 high low s
    else if sel =? 1 then DECODE_LRU6 BRBF_lru6 high low s
    else s
  else
    let sel := bitRange high 10 6 in
    if sel =? 0x0c then DECODE_LU6 CLRSR_lu6 high low s
    else if sel =? 0x0d then DECODE_LU6 SETSR_lu6 high low s
    else if sel =? 0x0e then DECODE_LU6 KENTSP_lu6 high low s
    else if sel =? 0x0f then DECODE_LU6 KRESTSP_lu6 high low s
    else if sel =? 0x1c then DECODE_LU6 GETSR_lu6 high low s
    else if sel =? 0x1d then DECODE_LU6 LDAWCP_lu6 high low s
    else if sel =? 0x1e then
      if is_XS2_A type then DECODE_LU6 DUALENTSP_lu6 high low s
      else s
    else s.

(** lib/Instruction.cpp:1254-1260 case_PFIX: the case [0x1a] of its switch *)
Definition case_PFIX_0x1a (low high : Z) (highValid : bool) (type : NodeType) (s : DecodeState) : DecodeState :=
  if negb (bit high 10 =? 0) then DECODE_LU10 BLRB_lu10 high low s
  else DECODE_LU10 BLRF_lu10 high low s.

(** lib/Instruction.cpp:1261-1267 case_PFIX: the case [0x1b] of its switch *)
Definition case_PFIX_0x1b (low high : Z) (highValid : bool) (type : NodeType) (s : DecodeState) : DecodeState :=
  if negb (bit high 10 =? 0) then DECODE_LU10 LDAPB_lu10 high low s
  else DECODE_LU10 LDAPF_lu10 high low s.

(** lib/Instruction.cpp:1268-1274 case_PFIX: the case [0x1c] of its switch *)
Definition case_PFIX_0x1c (low high : Z) (highValid : bool) (type : NodeType) (s : DecodeState) : DecodeState :=
  if negb (bit high 10 =? 0) then DECODE_LU10 LDWCPL_lu10 high low s
  else DECODE_LU10 BLACP_lu10 high low s.

(** lib/Instruction.cpp:1275-1282 case_PFIX: the case [0x1d] of its switch *)
Definition case_PFIX_0x1d (low high : Z) (highValid : bool) (type : NodeType) (s : DecodeState) : DecodeState :=
  if testLRU6 high low then
    if bit high 10 =? 0 then DECODE_LRU6 SETC_lru6 high low s
    else s
  else s.

(** lib/Instruction.cpp:1116-1125 case_PFIX: the dispatch on the second half-word *)
Definition case_PFIX (low high : Z) (highValid : bool) (type : NodeType) (s : DecodeState) : DecodeState :=
  if negb highValid then
    set_opcode ILLEGAL_PC s
  else
  let high_opc := bitRange high 15 11 in
  if high_opc =? 0x0a then case_PFIX_0x0a low high highValid type s
  else if high_opc =? 0x0b then case_PFIX_0x0b low high highValid type s
  else if high_opc =? 0x0c then case_PFIX_0x0c low high highValid type s
  else if high_opc =? 0x0d then case_PFIX_0x0d low high highValid type s
  else if high_opc =? 0x0e then case_PFIX_0x0e low high highValid type s
  else if high_opc =? 0x0f then case_PFIX_0x0f low high highValid type s
  else if high_opc =? 0x1a then case_PFIX_0x1a low high highValid type s
  else if high_opc =? 0x1b then case_PFIX_0x1b low high highValid type s
  else if high_opc =? 0x1c then case_PFIX_0x1c low high highValid type s
  else if high_opc =? 0x1d then case_PFIX_0x1d low high highValid type s
  else s.

(** lib/Instruction.cpp:1295-1339 case_EOPR: the case [0x00] of its switch *)
Definition case_EOPR_0x00 (low high : Z) (highValid : bool) (type : NodeType) (s : DecodeState) : DecodeState :=
  if testL6R high low then DECODE_L6R LMUL_l6r high low s
  else if testL5R high low then
    if negb (bit high 4 =? 0) then DECODE_L5R LADD_l5r high low s
    else DECODE_L5R LDIVU_l5r high low s
  else if testL4R high low then
    let sel := bitRange high 10 4 in
    if sel =? 0x7e then DECODE_L4R CRC8_l4r high low s
    else if sel =? 0x7f then DECODE_L4R MACCU_l4r high low s
    else s
  else if testL3R high low then
    let sel := bitRange high 3 0 in
    if sel =? 0xc then DECODE_L3R STW_l3r high low s
    else s
  else if testL2R high low then
    let sel := Z.lor (Z.shiftl (bit low 4) 4) (bitRange high 3 0) in
    if sel =? 0x0c then
      if is_XS2_A type then DECODE_L2R TINITSP_l2r high low s
      else DECODE_L2R BITREV_l2r high low s
    else if sel =? 0x1c then
      if is_XS2_A type then DECODE_L2R TINITPC_l2r high low s
      else DECODE_L2R BYTEREV_l2r high low s
    else s
  else DECODE_L0R KRET_l0r s.

(** lib/Instruction.cpp:1340-1381 case_EOPR: the case [0x01] of its switch *)
Definition case_EOPR_0x01 (low high : Z) (highValid : bool) (type : NodeType) (s : DecodeState) : DecodeState :=
  let s :=
    if testL5R high low then
      if negb (bit high 4 =? 0) then
        if is_XS2_A type then DECODE_L5R XOR4_l5r high low s
        else s
      else DECODE_L5R LSUB_l5r high low s
    else s
  in
  if testL4R high low then
    let sel := bitRange high 10 4 in
    if sel =? 0x7e then DECODE_L4R MACCS_l4r high low s
    else if sel =? 0x7f then
      if is_XS2_A type then DECODE_L4R CRCN_l4r high low s
      else s
    else s
  else if testL3R high low then
    let sel := bitRange high 3 0 in
    if sel =? 0xc then DECODE_L3R XOR_l3r high low s
    else s
  else if testL2R high low then
    let sel := Z.lor (Z.shiftl (bit low 4) 4) (bitRange high 3 0) in
    if sel =? 0x0c then
      if is_XS2_A type then s
      else DECODE_L2R CLZ_l2r high low s
    else if sel =? 0x1c then DECODE_L2R SETCLK_l2r high low s
    else s
  else s.

(** lib/Instruction.cpp:1382-1410 case_EOPR: the case [0x02] of its switch *)
Definition case_EOPR_0x02 (low high : Z) (highValid : bool) (type : NodeType) (s : DecodeState) : DecodeState :=
  if testL4R high low then
    if is_XS2_A type then
      let sel := bit high 4 in
      if sel =? 0 then DECODE_L4R STD_l4r high low s
      else if sel =? 1 then DECODE_L3RUS STD_l3rus high low s
      else s
    else s
  else if testL3R high low then
    let sel := bitRange high 3 0 in
    if sel =? 0xc then DECODE_L3R ASHR_l3r high low s
    else s
  else if testL2R high low then
    let sel := Z.lor (Z.shiftl (bit low 4) 4) (bitRange high 3 0) in
    if sel =? 0x0c then DECODE_L2R TINITLR_l2r high low s
    else if sel =? 0x1c then DECODE_L2R GETPS_l2r high low s
    else s
  else s.

(** lib/Instruction.cpp:1411-1437 case_EOPR: the case [0x03] of its switch *)
Definition case_EOPR_0x03 (low high : Z) (highValid : bool) (type : NodeType) (s : DecodeState) : DecodeState :=
  if (testL5R high low) && (is_XS2_A type) then
    let sel := bit high 4 in
    if sel =? 0 then DECODE_L5R LEXTRACT_l4rus high low s
    else if sel =? 1 then s
    else s
  else if testL3R high low then
    let sel := bitRange high 3 0 in
    if sel =? 0xc then DECODE_L3R LDAWF_l3r high low s
    else s
  else if testL2R high low then
    let sel := Z.lor (Z.shiftl (bit low 4) 4) (bitRange high 3 0) in
    if sel =? 0x0c then DECODE_L2R SETPS_l2r high low s
    else if sel =? 0x1c then DECODE_L2R GETD_l2r high low s
    else s
  else s.

(** lib/Instruction.cpp:1438-1465 case_EOPR: the case [0x04] of its switch *)
Definition case_EOPR_0x04 (low high : Z) (highValid : bool) (type : NodeType) (s : DecodeState) : DecodeState :=
  if (testL4R high low) && (is_XS2_A type) then
    let sel := bit high 4 in
    if sel =? 0 then DECODE_L4R LDD_l4r high low s
    else if sel =? 1 then DECODE_L3RUS LDD_l3rus high low s
    else s
  else if testL3R high low then
    let sel := bitRange high 3 0 in
    if sel =? 0xc then DECODE_L3R LDAWB_l3r high low s
    else s
  else if testL2R high low then
    let sel := Z.lor (Z.shiftl (bit low 4) 4) (bitRange high 3 0) in
    if sel =? 0x0c then DECODE_L2R TESTLCL_l2r high low s
    else if sel =? 0x1c then DECODE_L2R SETTW_l2r high low s
    else s
  else s.

(** lib/Instruction.cpp:1466-1483 case_EOPR: the case [0x05] of its switch *)
Definition case_EOPR_0x05 (low high : Z) (highValid : bool) (type : NodeType) (s : DecodeState) : DecodeState :=
  if testL3R high low then
    let sel := bitRange high 3 0 in
    if sel =? 0xc then DECODE_L3R LDA16F_l3r high low s
    else s
  else if testL2R high low then
    let sel := Z.lor (Z.shiftl (bit low 4) 4) (bitRange high 3 0) in
    if sel =? 0x0c then DECODE_L2R SETRDY_l2r high low s
    else if sel =? 0x1c then DECODE_L2R SETC_l2r high low s
    else s
  else s.

(** lib/Instruction.cpp:1484-1501 case_EOPR: the case [0x06] of its switch *)
Definition case_EOPR_0x06 (low high : Z) (highValid : bool) (type : NodeType) (s : DecodeState) : DecodeState :=
  if testL3R high low then
    let sel := bitRange high 3 0 in
    if sel =? 0xc then DECODE_L3R LDA16B_l3r high low s
    else s
  else if testL2R high low then
    let sel := Z.lor (Z.shiftl (bit low 4) 4) (bitRange high 3 0) in
    if sel =? 0x0c then DECODE_L2R SETN_l2r high low s
    else if sel =? 0x1c then DECODE_L2R GETN_l2r high low s
    else s
  else s.

(** lib/Instruction.cpp:1502-1510 case_EOPR: the case [0x07] of its switch *)
Definition case_EOPR_0x07 (low high : Z) (highValid : bool) (type : NodeType) (s : DecodeState) : DecodeState :=
  if testL3R high low then
    let sel := bitRange high 3 0 in
    if sel =? 0xc then DECODE_L3R MUL_l3r high low s
    else s
  else s.

(** lib/Instruction.cpp:1511-1519 case_EOPR: the case [0x08] of its switch *)
Definition case_EOPR_0x08 (low high : Z) (highValid : bool) (type : NodeType) (s : DecodeState) : DecodeState :=
  if testL3R high low then
    let sel := bitRange high 3 0 in
    if sel =? 0xc then DECODE_L3R DIVS_l3r high low s
    else s
  else s.

(** lib/Instruction.cpp:1520-1528 case_EOPR: the case [0x09] of its switch *)
Definition case_EOPR_0x09 (low high : Z) (highValid : bool) (type : NodeType) (s : DecodeState) : DecodeState :=
  if testL3R high low then
    let sel := bitRange high 3 0 in
    if sel =? 0xc then DECODE_L3R DIVU_l3r high low s
    else s
  else s.

(** lib/Instruction.cpp:1529-1537 case_EOPR: the case [0x10] of its switch *)
Definition case_EOPR_0x10 (low high : Z) (highValid : bool) (type : NodeType) (s : DecodeState) : DecodeState :=
  if testL3R high low then
    let sel := bitRange high 3 0 in
    if sel =? 0xc then DECODE_L3R ST16_l3r high low s
    else s
  else s.

(** lib/Instruction.cpp:1538-1546 case_EOPR: the case [0x11] of its switch *)
Definition case_EOPR_0x11 (low high : Z) (highValid : bool) (type : NodeType) (s : DecodeState) : DecodeState :=
  if testL3R high low then
    let sel := bitRange high 3 0 in
    if sel =? 0xc then DECODE_L3R ST8_l3r high low s
    else s
  else s.

(** lib/Instruction.cpp:1547-1564 case_EOPR: the case [0x12] of its switch *)
Definition case_EOPR_0x12 (low high : Z) (highValid : bool) (type : NodeType) (s : DecodeState) : DecodeState :=
  if testL3R high low then
    let sel := bitRange high 3 0 in
    if sel =? 0xc then
      let s :=
        DECODE_L2RUS ASHR_l2rus high low s
      in
      OP_bitp 2 s
    else if sel =? 0xd then
      let s :=
        DECODE_L2RUS OUTPW_l2rus high low s
      in
      OP_bitp 2 s
    else if sel =? 0xe then
      let s :=
        DECODE_L2RUS INPW_l2rus high low s
      in
      OP_bitp 2 s
    else s
  else s.

(** lib/Instruction.cpp:1565-1583 case_EOPR: the case [0x13] of its switch *)
Definition case_EOPR_0x13 (low high : Z) (highValid : bool) (type : NodeType) (s : DecodeState) : DecodeState :=
  if testL3R high low then
    let sel := bitRange high 3 0 in
    if sel =? 0xc then DECODE_L2RUS LDAWF_l2rus high low s
    else if sel =? 0xd then
      if is_XS2_A type then DECODE_L2RUS UNZIP_l2rus high low s
      else s
    else if sel =? 0xe then
      if is_XS2_A type then DECODE_L2RUS ZIP_l2rus high low s
      else s
    else s
  else s.

(** lib/Instruction.cpp:1584-1592 case_EOPR: the case [0x14] of its switch *)
Definition case_EOPR_0x14 (low high : Z) (highValid : bool) (type : NodeType) (s : DecodeState) : DecodeState :=
  if testL3R high low then
    let sel := bitRange high 3 0 in
    if sel =? 0xc then DECODE_L2RUS LDAWB_l2rus high low s
    else s
  else s.

(** lib/Instruction.cpp:1593-1601 case_EOPR: the case [0x15] of its switch *)
Definition case_EOPR_0x15 (low high : Z) (highValid : bool) (type : NodeType) (s : DecodeState) : DecodeState :=
  if testL3R high low then
    let sel := bitRange high 3 0 in
    if sel =? 0xc then DECODE_L3R CRC_l3r high low s
    else s
  else s.

(** lib/Instruction.cpp:1602-1606 case_EOPR: the case [0x16] of its switch *)
Definition case_EOPR_0x16 (low high : Z) (highValid : bool) (type : NodeType) (s : DecodeState) : DecodeState :=
  if is_XS2_A type then DECODE_L3R TSETR_l3r high low s
  else s.

(** lib/Instruction.cpp:1607-1615 case_EOPR: the case [0x18] of its switch *)
Definition case_EOPR_0x18 (low high : Z) (highValid : bool) (type : NodeType) (s : DecodeState) : DecodeState :=
  if testL3R high low then
    let sel := bitRange high 3 0 in
    if sel =? 0xc then DECODE_L3R REMS_l3r high low s
    else s
  else s.

(** lib/Instruction.cpp:1616-1624 case_EOPR: the case [0x19] of its switch *)
Definition case_EOPR_0x19 (low high : Z) (highValid : bool) (type : NodeType) (s : DecodeState) : DecodeState :=
  if testL3R high low then
    let sel := bitRange high 3 0 in
    if sel =? 0xc then DECODE_L3R REMU_l3r high low s
    else s
  else s.

(** lib/Instruction.cpp:1625-1629 case_EOPR: the case [0x1c] of its switch *)
Definition case_EOPR_0x1c (low high : Z) (highValid : bool) (type : NodeType) (s : DecodeState) : DecodeState :=
  if testL3R high low then DECODE_L3R LSATS_l3r high low s
  else s.

(** lib/Instruction.cpp:1630-1634 case_EOPR: the case [0x1d] of its switch *)
Definition case_EOPR_0x1d (low high : Z) (highValid : bool) (type : NodeType) (s : DecodeState) : DecodeState :=
  if testL3R high low then DECODE_L2RUS LDDSP_l2rus high low s
  else s.

(** lib/Instruction.cpp:1635-1639 case_EOPR: the case [0x1e] of its switch *)
Definition case_EOPR_0x1e (low high : Z) (highValid : bool) (type : NodeType) (s : DecodeState) : DecodeState :=
  if testL3R high low then DECODE_L2RUS STDSP_l2rus high low s
  else s.

(** lib/Instruction.cpp:1286-1295 case_EOPR: the dispatch on the second half-word *)
Definition case_EOPR (low high : Z) (highValid : bool) (type : NodeType) (s : DecodeState) : DecodeState :=
  if negb highValid then
    set_opcode ILLEGAL_PC s
  else
  let high_opc := bitRange high 15 11 in
  if high_opc =? 0x00 then case_EOPR_0x00 low high highValid type s
  else if high_opc =? 0x01 then case_EOPR_0x01 low high highValid type s
  else if high_opc =? 0x02 then case_EOPR_0x02 low high highValid type s
  else if high_opc =? 0x03 then case_EOPR_0x03 low high highValid type s
  else if high_opc =? 0x04 then case_EOPR_0x04 low high highValid type s
  else if high_opc =? 0x05 then case_EOPR_0x05 low high highValid type s
  else if high_opc =? 0x06 then case_EOPR_0x06 low high highValid type s
  else if high_opc =? 0x07 then case_EOPR_0x07 low high highValid type s
  else if high_opc =? 0x08 then case_EOPR_0x08 low high highValid type s
  else if high_opc =? 0x09 then case_EOPR_0x09 low high highValid type s
  else if high_opc =? 0x10 then case_EOPR_0x10 low high highValid type s
  else if high_opc =? 0x11 then case_EOPR_0x11 low high highValid type s
  else if high_opc =? 0x12 then case_EOPR_0x12 low high highValid type s
  else if high_opc =? 0x13 then case_EOPR_0x13 low high highValid type s
  else if high_opc =? 0x14 then case_EOPR_0x14 low high highValid type s
  else if high_opc =? 0x15 then case_EOPR_0x15 low high highValid type s
  else if high_opc =? 0x16 then case_EOPR_0x16 low high highValid type s
  else if high_opc =? 0x18 then case_EOPR_0x18 low high highValid type s
  else if high_opc =? 0x19 then case_EOPR_0x19 low high highValid type s
  else if high_opc =? 0x1c then case_EOPR_0x1c low high highValid type s
  else if high_opc =? 0x1d then case_EOPR_0x1d low high highValid type s
  else if high_opc =? 0x1e then case_EOPR_0x1e low high highValid type s
  else s.

(** lib/Instruction.cpp:1643-1748 instructionDecode *)
Definition instructionDecode (low high : Z) (highValid : bool) (type : NodeType)
    (s : DecodeState) : DecodeState :=
  let opc := bitRange low 15 11 in
  if opc =? 0x00 then case_0x00 low high highValid type s
  else if opc =? 0x01 then case_0x01 low high highValid type s
  else if opc =? 0x02 then case_0x02 low high highValid type s
  else if opc =? 0x03 then case_0x03 low high highValid type s
  else if opc =? 0x04 then case_0x04 low high highValid type s
  else if opc =? 0x05 then case_0x05 low high highValid type s
  else if opc =? 0x06 then case_0x06 low high highValid type s
  else if opc =? 0x07 then case_0x07 low high highValid type s
  else if opc =? 0x08 then case_0x08 low high highValid type s
  else if opc =? 0x09 then case_0x09 low high highValid type s
  else if opc =? 0x0a then case_0x0a low high highValid type s
  else if opc =? 0x0b then case_0x0b low high highValid type s
  else if opc =? 0x0c then case_0x0c low high highValid type s
  else if opc =? 0x0d then case_0x0d low high highValid type s
  else if opc =? 0x0e then case_0x0e low high highValid type s
  else if opc =? 0x0f then case_0x0f low high highValid type s
  else if opc =? 0x10 then case_0x10 low high highValid type s
  else if opc =? 0x11 then case_0x11 low high highValid type s
  else if opc =? 0x12 then case_0x12 low high highValid type s
  else if opc =? 0x13 then case_0x13 low high highValid type s
  else if opc =? 0x14 then case_0x14 low high highValid type s
  else if opc =? 0x15 then case_0x15 low high highValid type s
  else if opc =? 0x16 then case_0x16 low high highValid type s
  else if opc =? 0x17 then case_0x17 low high highValid type s
  else if opc =? 0x18 then case_0x18 low high highValid type s
  else if opc =? 0x19 then case_0x19 low high highValid type s
  else if opc =? 0x1a then case_0x1a low high highValid type s
  else if opc =? 0x1b then case_0x1b low high highValid type s
  else if opc =? 0x1c then case_0x1c low high highValid type s
  else if opc =? 0x1d then case_0x1d low high highValid type s
  else if opc =? PFIX then
    if bit low 10 =? 0 then case_PFIX low high highValid type s
    else case_EOPR low high highValid type s
  else if opc =? EOPR then case_EOPR low high highValid type s
  else s.
