(* ===== verification/InstrDecodeFacts.v ===== *)
(** * Properties of the instruction decoder

    The decoder is followed path by path: whatever the two half-words are, no
    assertion fails, every register operand it extracts indexes the register
    file, and the size of the instruction it chooses is the number of bytes
    it has read. *)

From stdpp Require Import base list numbers option.
From Stdlib Require Import ZArith Lia.
From S2P Require Import Prelude BitManip Opcode InstrDecode.

Create HintDb decode discriminated.

#[local] Open Scope Z_scope.
#[local] Open Scope cbits_scope.

(** ** What is required of a decoded instruction *)

(** Operand [i] of [o] is an index of [Thread::regs]: a register operand of the current
    thread, or operand 0 of [TSETR], which names a register of another thread. *)
Definition is_reg_operand (o : InstructionOpcode) (i : nat) : bool :=
  match explicit_ops o !! i with
  | Some imm => match o with TSETR_3r | TSETR_l3r => bool_decide (i = 0%nat) | _ => false end
  | Some _ => true
  | None => false
  end.

(** The register operands of [o] are among its first [n]. *)
Definition regs_among (n : nat) (o : InstructionOpcode) : bool :=
  forallb (fun i => negb (is_reg_operand o i) || (i <? n)%nat) (seq 0 6).

(** Pseudo instructions no encoding stands for. *)
Definition is_pseudo (o : InstructionOpcode) : bool :=
  match o with
  | ILLEGAL_PC | ILLEGAL_PC_THREAD | ILLEGAL_INSTRUCTION | BREAKPOINT | RUN_JIT
  | INTERPRET_ONE | DECODE => true
  | _ => false
  end.

(** [o] is a real instruction of [size] bytes whose register operands are in range in [ops]. *)
Definition instr_ok (size : Z) (o : InstructionOpcode) (ops : Operands) : Prop :=
  is_pseudo o = false /\ instruction_size o = size /\
  forall i, is_reg_operand o i = true -> 0 <= OP i ops < 16.

(** The outcome of decoding: no assertion failed, and the opcode is unassigned, the
    out-of-memory pseudo instruction when the second half of a four-byte instruction is
    missing, or a real instruction. *)
Definition decode_post (highValid : bool) (size : Z) (s : DecodeState) : Prop :=
  assertsOk s = true /\ length (d_operands s) = 6%nat /\
  match d_opcode s with
  | None => True
  | Some o => o = ILLEGAL_PC /\ highValid = false /\ size = 4 \/ instr_ok size o (d_operands s)
  end.

(** ** Operand ranges *)

Lemma explicit_ops_length o : (length (explicit_ops o) <= 6)%nat.
Proof. unfold explicit_ops. destruct (opcode_format o); cbn; lia. Qed.

Lemma regs_among_spec n o i : regs_among n o = true -> is_reg_operand o i = true -> (i < n)%nat.
Proof.
  intros H Hi. unfold regs_among in H. rewrite forallb_forall in H.
  assert (i < 6)%nat.
  { unfold is_reg_operand in Hi. destruct (explicit_ops o !! i) eqn:E; [| done].
    apply lookup_lt_Some in E. pose proof (explicit_ops_length o). lia. }
  specialize (H i). rewrite Hi in H. cbn [negb orb] in H.
  apply Nat.ltb_lt, H. apply in_seq. lia.
Qed.

Lemma bitRange_bound v h l : 0 <= l -> l <= h + 1 -> 0 <= bitRange v h l < 2 ^ (1 + h - l).
Proof. apply extractBitRange_fits. Qed.

Lemma reg_field_bound lo hi n : 0 <= lo < 4 -> 0 <= hi < n -> n <= 4 ->
  0 <= lo .| (hi .<< 2) < 4 * n.
Proof.
  intros Hlo Hhi Hn.
  assert (u32 (Z.shiftl hi 2) = hi * 4) as ->.
  { rewrite Z.shiftl_mul_pow2 by lia. apply wrap_small. unfold fits. cbn. lia. }
  assert (lo .| (hi * 4) = lo + hi * 4) as ->; [| lia].
  replace (hi * 4) with (Z.shiftl hi 2) by (rewrite Z.shiftl_mul_pow2; lia).
  pose proof (Z.add_lor_land lo (Z.shiftl hi 2)) as H.
  assert (Z.land lo (Z.shiftl hi 2) = 0) as H0; [| lia].
  zbitwise. destruct (Z.lt_ge_cases i 2).
  - by rewrite (Z.testbit_neg_r _ (i - 2)), andb_false_r by lia.
  - by rewrite (fits_testbit_high 2 lo i) by (unfold fits; lia).
Qed.

Lemma bits2_bound v h l : h = l + 1 -> 0 <= l -> 0 <= bitRange v h l < 4.
Proof. intros. pose proof (bitRange_bound v h l). replace (1 + h - l) with 2 in *; lia. Qed.

Lemma bits4_bound v h l : h = l + 3 -> 0 <= l -> 0 <= bitRange v h l < 16.
Proof. intros. pose proof (bitRange_bound v h l). replace (1 + h - l) with 4 in *; lia. Qed.

Lemma bits5_bound v : 0 <= bitRange v 10 6 < 32.
Proof. apply (bitRange_bound v 10 6); lia. Qed.

Lemma combined2R_nonneg v : 0 <= combined2R v.
Proof. apply (wrap_fits 32). lia. Qed.

(** The register fields of the three- and two-register formats. *)
Lemma reg3_0 v : 0 <= bitRange v 5 4 .| ((bitRange v 10 6 mod 3) .<< 2) < 12.
Proof. apply (reg_field_bound _ _ 3); [by apply bits2_bound | apply Z.mod_pos_bound; lia | lia]. Qed.
Lemma reg3_1 v : 0 <= bitRange v 3 2 .| ((bitRange v 10 6 / 3 mod 3) .<< 2) < 12.
Proof. apply (reg_field_bound _ _ 3); [by apply bits2_bound | apply Z.mod_pos_bound; lia | lia]. Qed.
Lemma reg3_2 v : 0 <= bitRange v 1 0 .| ((bitRange v 10 6 / 9) .<< 2) < 16.
Proof.
  apply (reg_field_bound _ _ 4); [by apply bits2_bound | | lia].
  pose proof (bits5_bound v). Z.div_mod_to_equations. lia.
Qed.
Lemma reg3_2_strict v : test3R v = true -> 0 <= bitRange v 1 0 .| ((bitRange v 10 6 / 9) .<< 2) < 12.
Proof.
  intros H%Z.ltb_lt. apply (reg_field_bound _ _ 3); [by apply bits2_bound | | lia].
  pose proof (bits5_bound v). Z.div_mod_to_equations. lia.
Qed.
Lemma reg2_0 v : 0 <= bitRange v 3 2 .| ((combined2R v mod 3) .<< 2) < 12.
Proof. apply (reg_field_bound _ _ 3); [by apply bits2_bound | apply Z.mod_pos_bound; lia | lia]. Qed.
Lemma reg2_1 v : test2R v = true -> 0 <= bitRange v 1 0 .| ((combined2R v / 3) .<< 2) < 12.
Proof.
  intros H%Z.ltb_lt. apply (reg_field_bound _ _ 3); [by apply bits2_bound | | lia].
  pose proof (combined2R_nonneg v). Z.div_mod_to_equations. lia.
Qed.

(** ** One lemma per operand format *)

(** The state is ready to be written to. *)
Definition pre (s : DecodeState) : Prop :=
  assertsOk s = true /\ length (d_operands s) = 6%nat.

(** The first [n] operands are register indices, and the opcode is [o]. *)
Definition regs_ok (n : nat) (o : InstructionOpcode) (s : DecodeState) : Prop :=
  pre s /\ d_opcode s = Some o /\ forall i, (i < n)%nat -> 0 <= OP i (d_operands s) < 16.

Lemma regs_ok_post hv n size o s :
  regs_ok n o s -> is_pseudo o = false -> instruction_size o = size -> regs_among n o = true ->
  decode_post hv size s.
Proof.
  intros [[? ?] [Ho Hr]] ? ? Hn. split; [done | split; [done |]]. rewrite Ho. right.
  split; [done | split; [done |]]. intros i Hi. by apply Hr, (regs_among_spec n o).
Qed.

(** Six operands, spelled out. *)
Ltac six_operands s :=
  let H := fresh in
  destruct s as [? ops ?]; intros [H ?];
  cbn [d_operands assertsOk] in *;
  destruct ops as [|? [|? [|? [|? [|? [|? [|? ?]]]]]]]; try discriminate; subst.

Lemma lt12_16 x : 0 <= x < 12 -> 0 <= x < 16.
Proof. lia. Qed.

Lemma testL5R_spec high low : testL5R high low = true -> test2R high = true.
Proof. unfold testL5R, test2R. by destruct (26 <? _). Qed.
Lemma testL2R_spec high low : testL2R high low = true -> test2R low = true.
Proof. unfold testL2R, test2R. by intros [? _]%andb_true_iff. Qed.
Lemma testL3R_spec high low : testL3R high low = true -> test3R low = true.
Proof. unfold testL3R, test3R. by intros [? _]%andb_true_iff. Qed.

Ltac reg_bound :=
  first [ apply lt12_16, reg3_0 | apply lt12_16, reg3_1 | apply reg3_2
        | apply lt12_16, reg2_0 | apply lt12_16, reg2_1; done
        | apply bits4_bound; lia ].

(** Each operand index below the literal bound, by the range lemma of its field. *)
Ltac solve_regs :=
  split; [done | split; [done |]];
  let i := fresh "i" in let Hi := fresh "Hi" in
  intros i Hi;
  repeat (destruct i as [|i]; [reg_bound |]); lia.

Lemma DECODE_3R_regs o low s : pre s -> regs_ok 3 o (DECODE_3R o low s).
Proof. six_operands s. solve_regs. Qed.
Lemma DECODE_2RUS_regs o low s : pre s -> regs_ok 3 o (DECODE_2RUS o low s).
Proof. apply DECODE_3R_regs. Qed.
Lemma DECODE_L3R_regs o high low s : pre s -> regs_ok 3 o (DECODE_L3R o high low s).
Proof. apply DECODE_3R_regs. Qed.
Lemma DECODE_L2RUS_regs o high low s : pre s -> regs_ok 3 o (DECODE_L2RUS o high low s).
Proof. apply DECODE_3R_regs. Qed.
Lemma DECODE_RU6_regs o low s : pre s -> regs_ok 1 o (DECODE_RU6 o low s).
Proof. six_operands s. solve_regs. Qed.
Lemma DECODE_LRU6_regs o high low s : pre s -> regs_ok 1 o (DECODE_LRU6 o high low s).
Proof. six_operands s. solve_regs. Qed.
Lemma DECODE_U6_regs o low s : pre s -> regs_ok 0 o (DECODE_U6 o low s).
Proof. six_operands s. solve_regs. Qed.
Lemma DECODE_LU6_regs o high low s : pre s -> regs_ok 0 o (DECODE_LU6 o high low s).
Proof. six_operands s. solve_regs. Qed.
Lemma DECODE_U10_regs o low s : pre s -> regs_ok 0 o (DECODE_U10 o low s).
Proof. six_operands s. solve_regs. Qed.
Lemma DECODE_LU10_regs o high low s : pre s -> regs_ok 0 o (DECODE_LU10 o high low s).
Proof. six_operands s. solve_regs. Qed.
Lemma DECODE_0R_regs o s : pre s -> regs_ok 0 o (DECODE_0R o s).
Proof. six_operands s. solve_regs. Qed.
Lemma DECODE_L0R_regs o s : pre s -> regs_ok 0 o (DECODE_L0R o s).
Proof. apply DECODE_0R_regs. Qed.
Lemma DECODE_1R_regs o low s : pre s -> regs_ok 1 o (DECODE_1R o low s).
Proof. six_operands s. solve_regs. Qed.
Lemma DECODE_2R_regs o low s : test2R low = true -> pre s -> regs_ok 2 o (DECODE_2R o low s).
Proof. intros H. six_operands s. solve_regs. Qed.
Lemma DECODE_RUS_regs o low s : test2R low = true -> pre s -> regs_ok 2 o (DECODE_RUS o low s).
Proof. apply DECODE_2R_regs. Qed.
Lemma DECODE_L2R_regs o high low s : testL2R high low = true -> pre s ->
  regs_ok 2 o (DECODE_L2R o high low s).
Proof. intros H%testL2R_spec. by apply DECODE_2R_regs. Qed.
Lemma DECODE_L4R_regs o high low s : pre s -> regs_ok 4 o (DECODE_L4R o high low s).
Proof. six_operands s. solve_regs. Qed.
Lemma DECODE_L3RUS_regs o high low s : pre s -> regs_ok 4 o (DECODE_L3RUS o high low s).
Proof. apply DECODE_L4R_regs. Qed.
Lemma DECODE_L5R_regs o high low s : testL5R high low = true -> pre s ->
  regs_ok 5 o (DECODE_L5R o high low s).
Proof. intros H%testL5R_spec. six_operands s. solve_regs. Qed.
Lemma DECODE_L6R_regs o high low s : pre s -> regs_ok 6 o (DECODE_L6R o high low s).
Proof. six_operands s. solve_regs. Qed.

(** A [bitp] operand is rewritten through the table; its assertion holds. *)
Lemma bitpValue_Some v : 0 <= v < 12 -> exists w, bitpValue v = Some w.
Proof.
  intros Hv. unfold bitpValue. destruct (Z.ltb_spec v 12); [| lia].
  apply lookup_lt_is_Some. cbn. lia.
Qed.

Lemma OP_set_ne i n v ops : i <> n -> OP i (set_OP n v ops) = OP i ops.
Proof.
  intros. unfold OP, set_OP. by rewrite !nth_lookup, list_lookup_insert_ne.
Qed.

Lemma OP_bitp_regs n k o s : regs_ok n o s -> (k <= n)%nat -> 0 <= OP k (d_operands s) < 12 ->
  regs_ok k o (OP_bitp k s).
Proof.
  intros [[Ha Hl] [Ho Hr]] Hk Hop. unfold OP_bitp.
  destruct (bitpValue_Some _ Hop) as [w ->]. split; [split | split]; [done | | done |].
  - cbn. unfold set_OP. by rewrite length_insert.
  - intros i Hi. cbn [d_operands set_operands]. rewrite OP_set_ne by lia. apply Hr. lia.
Qed.

Lemma DECODE_2RUS_op2 o low s : test3R low = true -> pre s ->
  0 <= OP 2 (d_operands (DECODE_2RUS o low s)) < 12.
Proof. intros H. six_operands s. by apply reg3_2_strict. Qed.
Lemma DECODE_RUS_op1 o low s : test2R low = true -> pre s ->
  0 <= OP 1 (d_operands (DECODE_RUS o low s)) < 12.
Proof. intros H. six_operands s. by apply reg2_1. Qed.

Lemma DECODE_2RUS_bitp_regs o low s : test3R low = true -> pre s ->
  regs_ok 2 o (OP_bitp 2 (DECODE_2RUS o low s)).
Proof.
  intros. eapply OP_bitp_regs; [by apply DECODE_2RUS_regs | lia | by apply DECODE_2RUS_op2].
Qed.
Lemma DECODE_L2RUS_bitp_regs o high low s : testL3R high low = true -> pre s ->
  regs_ok 2 o (OP_bitp 2 (DECODE_L2RUS o high low s)).
Proof. intros ?%testL3R_spec. by apply DECODE_2RUS_bitp_regs. Qed.
Lemma DECODE_RUS_bitp_regs o low s : test2R low = true -> pre s ->
  regs_ok 1 o (OP_bitp 1 (DECODE_RUS o low s)).
Proof.
  intros. eapply OP_bitp_regs; [by apply DECODE_RUS_regs | lia | by apply DECODE_RUS_op1].
Qed.

(** ** Every path of the decoder *)

Lemma pre_fresh junk : length junk = 6%nat -> pre (fresh_state junk).
Proof. done. Qed.

Lemma regs_ok_pre n o s : regs_ok n o s -> pre s.
Proof. by intros [? _]. Qed.

#[export] Hint Resolve DECODE_3R_regs DECODE_2RUS_regs DECODE_L3R_regs DECODE_L2RUS_regs
  DECODE_RU6_regs DECODE_LRU6_regs DECODE_U6_regs DECODE_LU6_regs DECODE_U10_regs
  DECODE_LU10_regs DECODE_0R_regs DECODE_L0R_regs DECODE_1R_regs DECODE_2R_regs
  DECODE_RUS_regs DECODE_L2R_regs DECODE_L4R_regs DECODE_L3RUS_regs DECODE_L5R_regs
  DECODE_L6R_regs DECODE_2RUS_bitp_regs DECODE_L2RUS_bitp_regs DECODE_RUS_bitp_regs : decode.
#[export] Hint Extern 3 (pre _) => (eapply regs_ok_pre) : decode.

Lemma illegal_pc_post hv s : pre s -> negb hv = true -> decode_post hv 4 (set_opcode ILLEGAL_PC s).
Proof. intros [? ?] ?%negb_true_iff. split; [done | split; [done | by left]]. Qed.

(** A leaf assigns an instruction, reports an illegal pc, or leaves the state alone. *)
Ltac decode_leaf :=
  match goal with
  | |- decode_post _ _ (set_opcode ILLEGAL_PC _) => by apply illegal_pc_post
  | H : decode_post _ _ ?s |- decode_post _ _ ?s => exact H
  | |- decode_post _ _ _ => eapply regs_ok_post; [eauto with decode | reflexivity ..]
  end.

Ltac decode_paths :=
  repeat (cbv zeta;
    match goal with
    | H : (_ && _) = true |- _ => apply andb_true_iff in H; destruct H
    | |- decode_post _ _ (if ?b then _ else _) => destruct b eqn:?
    | |- _ => decode_leaf
    | |- decode_post _ _ (?f _ _ _ _ _) => unfold f
    | |- _ => case_match
    end).

Section paths.
Context (low high : Z) (highValid : bool) (type : NodeType) (s : DecodeState).
Context (Hpre : pre s) (Hnone : d_opcode s = None).

Lemma unassigned_post size : decode_post highValid size s.
Proof. destruct Hpre. split; [done | split; [done |]]. by rewrite Hnone. Qed.

Lemma case_PFIX_post : decode_post highValid 4 (case_PFIX low high highValid type s).
Proof. pose proof (unassigned_post 4). decode_paths. Qed.

Lemma case_EOPR_post : decode_post highValid 4 (case_EOPR low high highValid type s).
Proof. pose proof (unassigned_post 4). decode_paths. Qed.

(** The size in bytes announced by the first half-word. *)
Definition encoded_size : Z := if bitRange low 15 11 <? PFIX then 2 else 4.

Lemma instructionDecode_post :
  decode_post highValid encoded_size (instructionDecode low high highValid type s).
Proof.
  pose proof (unassigned_post encoded_size). unfold instructionDecode. cbv zeta.
  destruct (Z.ltb_spec (bitRange low 15 11) PFIX) as [Hlt|Hge].
  - assert (encoded_size = 2) as E by (unfold encoded_size; by apply Z.ltb_lt in Hlt as ->).
    rewrite E in *. decode_paths.
    all: match goal with H : (_ =? _) = true |- _ => apply Z.eqb_eq in H end.
    all: unfold PFIX, EOPR in *; lia.
  - assert (encoded_size = 4) as E by (unfold encoded_size; by apply Z.ltb_ge in Hge as ->).
    rewrite E in *.
    repeat (case_match;
      [match goal with H : (_ =? _) = true |- _ => apply Z.eqb_eq in H end|]);
    try done; try (exfalso; unfold PFIX, EOPR in *; lia).
    all: repeat case_match; auto using case_PFIX_post, case_EOPR_post.
Qed.
End paths.

(** ** Encoders of the register formats, and the claims *)

(** The half-word of a three-register instruction: the high parts of the three register
    numbers share the five bits 10:6. *)
Definition encode3R (opc a b c : Z) : Z :=
  opc * 2 ^ 11 + (a / 4 + 3 * (b / 4) + 9 * (c / 4)) * 2 ^ 6
  + (a mod 4) * 2 ^ 4 + (b mod 4) * 2 ^ 2 + c mod 4.

(** The half-word of a two-register instruction: the nine combinations of the high parts
    take the codes 27 to 31, and then 27 to 30 again with bit 5 set; bit 4 selects one of
    two instructions. *)
Definition encode2R (opc sel a b : Z) : Z :=
  let h := a / 4 + 3 * (b / 4) in
  opc * 2 ^ 11 + (if h <? 5 then (27 + h) * 2 ^ 6 else (22 + h) * 2 ^ 6 + 2 ^ 5)
  + sel * 2 ^ 4 + (a mod 4) * 2 ^ 2 + b mod 4.

(** [P] at each of the [n] integers from [x]. *)
Fixpoint all_from (n : nat) (x : Z) (P : Z -> bool) : bool :=
  match n with O => true | S n => P x && all_from n (x + 1) P end.
Abbreviation all_below n P := (all_from n 0 P).

Lemma all_from_spec n x0 P x : all_from n x0 P = true -> x0 <= x < x0 + Z.of_nat n -> P x = true.
Proof.
  revert x0. induction n as [|n IH]; cbn [all_from]; intros x0 H Hx; [lia |].
  apply andb_true_iff in H as [H0 H].
  destruct (decide (x = x0)) as [-> | ?]; [done | apply (IH (x0 + 1)); [done | lia]].
Qed.

Definition check3R (opc a b c : Z) : bool :=
  let low := encode3R opc a b c in
  test3R low && (bitRange low 15 11 =? opc) &&
  bool_decide (decode3ROperands (replicate 6 0) low = [a; b; c; 0; 0; 0]).

Definition check2R (opc sel a b : Z) : bool :=
  let low := encode2R opc sel a b in
  test2R low && negb (test3R low) && (bitRange low 15 11 =? opc) && (bit low 4 =? sel) &&
  bool_decide (decode2ROperands (replicate 6 0) low = [a; b; 0; 0; 0; 0]).

Lemma check3R_all : all_below 32 (fun opc => all_below 12 (fun a => all_below 12 (fun b =>
  all_below 12 (check3R opc a b)))) = true.
Proof. vm_compute. reflexivity. Qed.

Lemma check2R_all : all_below 32 (fun opc => all_below 2 (fun sel => all_below 12 (fun a =>
  all_below 12 (check2R opc sel a)))) = true.
Proof. vm_compute. reflexivity. Qed.

(** Every half-word in the three-register format is an encoding. *)
Definition reencode3R (low : Z) : bool :=
  let ops := decode3ROperands (replicate 6 0) low in
  implb (test3R low) (encode3R (bitRange low 15 11) (OP 0 ops) (OP 1 ops) (OP 2 ops) =? low).

Lemma reencode3R_all : all_below (2 ^ 16) reencode3R = true.
Proof. vm_compute. reflexivity. Qed.

Lemma check3R_spec opc a b c : 0 <= opc < 32 -> 0 <= a < 12 -> 0 <= b < 12 -> 0 <= c < 12 ->
  check3R opc a b c = true.
Proof.
  intros Ho Ha Hb Hc. pose proof check3R_all as H.
  apply (all_from_spec _ _ _ opc), (all_from_spec _ _ _ a), (all_from_spec _ _ _ b),
    (all_from_spec _ _ _ c) in H; done.
Qed.

Lemma check2R_spec opc sel a b : 0 <= opc < 32 -> 0 <= sel < 2 -> 0 <= a < 12 -> 0 <= b < 12 ->
  check2R opc sel a b = true.
Proof.
  intros Ho Hs Ha Hb. pose proof check2R_all as H.
  apply (all_from_spec _ _ _ opc), (all_from_spec _ _ _ sel), (all_from_spec _ _ _ a),
    (all_from_spec _ _ _ b) in H; done.
Qed.

(** C5: Whatever the two half-words are, and whatever node type and validity of the second
    half-word, no assertion of the decoder fails, and every operand of the decoded
    instruction that indexes the register file is below 16 (hence below [NUM_REGISTERS]). *)
Theorem decode_operands_in_range low high highValid type junk :
  length junk = 6%nat ->
  let s := instructionDecode low high highValid type (fresh_state junk) in
  assertsOk s = true /\
  forall o i, d_opcode s = Some o -> is_reg_operand o i = true ->
    0 <= OP i (d_operands s) < 16 /\ OP i (d_operands s) < NUM_REGISTERS.
Proof.
  intros Hj s.
  destruct (instructionDecode_post low high highValid type (fresh_state junk)) as [Ha [_ Hp]];
    [by apply pre_fresh | done |].
  split; [done |]. intros o i Ho Hi. fold s in Hp. rewrite Ho in Hp.
  destruct Hp as [[-> _] | [_ [_ Hr]]]; [done |].
  specialize (Hr i Hi). unfold NUM_REGISTERS. lia.
Qed.

Lemma decode_operands_in_range_witness :
  is_reg_operand ADD_3r 2 = true /\
  0 <= OP 2 (d_operands (instructionDecode 0x1001 0 true XS1_L (fresh_state (replicate 6 99)))) < 16.
Proof.
  split; [reflexivity |].
  destruct (decode_operands_in_range 0x1001 0 true XS1_L (replicate 6 99)) as [_ H];
    [reflexivity |].
  apply (H ADD_3r 2%nat); vm_compute; reflexivity.
Defined.

(** The opcode chosen for a half-word pair is the illegal-pc pseudo instruction or a real
    instruction whose size is 4 bytes exactly when the major opcode is the prefix or the
    extended one; the illegal pc is reported only for those, when the second half-word lies
    outside memory.  The decoder never chooses [ILLEGAL_INSTRUCTION]: on an encoding that
    stands for no instruction it leaves its result unassigned, as on [0x9fff]. *)
Theorem decode_size low high highValid type junk o :
  length junk = 6%nat ->
  d_opcode (instructionDecode low high highValid type (fresh_state junk)) = Some o ->
  (o = ILLEGAL_PC /\ highValid = false /\ encoded_size low = 4 \/
   (is_pseudo o = false /\ instruction_size o = encoded_size low)) /\
  o <> ILLEGAL_INSTRUCTION /\
  d_opcode (instructionDecode 0x9fff high highValid type (fresh_state junk)) = None.
Proof.
  intros Hj Ho.
  destruct (instructionDecode_post low high highValid type (fresh_state junk)) as [_ [_ Hp]];
    [by apply pre_fresh | done |].
  rewrite Ho in Hp. split; [| split].
  - destruct Hp as [? | [? [? _]]]; [by left | by right].
  - intros ->. by destruct Hp as [[? _] | [? _]].
  - by destruct type.
Qed.

Lemma decode_size_witness :
  d_opcode (instructionDecode 0x1001 0 true XS1_L (fresh_state (replicate 6 0))) = Some ADD_3r /\
  instruction_size ADD_3r = encoded_size 0x1001.
Proof.
  assert (d_opcode (instructionDecode 0x1001 0 true XS1_L (fresh_state (replicate 6 0)))
    = Some ADD_3r) as E by (vm_compute; reflexivity).
  split; [exact E |].
  destruct (decode_size 0x1001 0 true XS1_L (replicate 6 0) ADD_3r eq_refl E)
    as [[[H _] | [_ H]] _]; [discriminate | exact H].
Defined.

(** C9: Decoding inverts the encoding of the register formats: for every major opcode and all
    registers below 12 the three-register half-word passes [test3R] and yields the three
    registers, the two-register half-word passes [test2R] (and not [test3R]) and yields its
    two registers and its selector bit. *)
Theorem decode_encode_registers opc sel a b c :
  0 <= opc < 32 -> 0 <= sel < 2 -> 0 <= a < 12 -> 0 <= b < 12 -> 0 <= c < 12 ->
  (test3R (encode3R opc a b c) = true /\ bitRange (encode3R opc a b c) 15 11 = opc /\
   decode3ROperands (replicate 6 0) (encode3R opc a b c) = [a; b; c; 0; 0; 0]) /\
  (test2R (encode2R opc sel a b) = true /\ test3R (encode2R opc sel a b) = false /\
   bitRange (encode2R opc sel a b) 15 11 = opc /\ bit (encode2R opc sel a b) 4 = sel /\
   decode2ROperands (replicate 6 0) (encode2R opc sel a b) = [a; b; 0; 0; 0; 0]).
Proof.
  intros Ho Hs Ha Hb Hc.
  pose proof (check3R_spec opc a b c Ho Ha Hb Hc) as H3.
  pose proof (check2R_spec opc sel a b Ho Hs Ha Hb) as H2.
  unfold check3R, check2R in *. cbv zeta in *.
  rewrite !andb_true_iff, ?Z.eqb_eq, bool_decide_eq_true in H3.
  rewrite !andb_true_iff, negb_true_iff, ?Z.eqb_eq, bool_decide_eq_true in H2. tauto.
Qed.

Lemma decode_encode_registers_witness :
  encode3R 2 11 5 7 = 0x13b7 /\
  decode3ROperands (replicate 6 0) (encode3R 2 11 5 7) = [11; 5; 7; 0; 0; 0].
Proof.
  split; [vm_compute; reflexivity |].
  apply (decode_encode_registers 2 0 11 5 7); lia.
Defined.

(** Conversely, every half-word that passes [test3R] is the encoding of the registers
    decoded from it, so the three-register format has no redundant encodings. *)
Theorem encode_decode_3R low :
  is_u16 low -> test3R low = true ->
  let ops := decode3ROperands (replicate 6 0) low in
  encode3R (bitRange low 15 11) (OP 0 ops) (OP 1 ops) (OP 2 ops) = low.
Proof.
  intros Hl Ht.
  pose proof (all_from_spec _ _ _ low reencode3R_all) as H.
  unfold reencode3R in H. rewrite Ht in H. apply Z.eqb_eq, H.
  rewrite Nat2Z.inj_pow. exact Hl.
Qed.

Lemma encode_decode_3R_witness : is_u16 0x1587 /\ encode3R 2 4 5 11 = 0x1587.
Proof.
  split; [split; vm_compute; [discriminate | reflexivity] |].
  apply (encode_decode_3R 0x1587); [split; vm_compute; [discriminate | reflexivity] |
    vm_compute; reflexivity].
Defined.
