(* ===== verification/DecodeCache.v ===== *)
(** * The decode cache (lib/DecodeCache.h, lib/DecodeCache.cpp)

    One entry per half-word of a memory, holding the function that executes
    the instruction at that half-word; [invalidationInfo] records, for each
    half-word of a writable memory, whether a store to it must discard the
    entry at that half-word and possibly the ones before it.  The arrays are
    lists; an out-of-range access is [None]. *)

From stdpp Require Import base list numbers option.
From Stdlib Require Import ZArith Lia.
From S2P Require Import Prelude BitManip Opcode InstrDecode.

#[local] Open Scope Z_scope.
#[local] Open Scope cbits_scope.

(** lib/Instruction.h:20-20 OPCODE_TYPE: a pointer to the function generated for an instruction
    (with or without tracing), or to a function compiled by the JIT *)
Inductive OPCODE_TYPE :=
  | Inst (o : InstructionOpcode) (tracing : bool)
  | JitFunction (id : Z).

#[export] Instance OPCODE_TYPE_eq_dec : EqDecision OPCODE_TYPE.
Proof. solve_decision. Defined.

(** lib/DecodeCache.h:21-26 ILLEGAL_ADDR_OFFSET *)
Definition ILLEGAL_ADDR_OFFSET : Z := 1.
Definition RUN_JIT_ADDR_OFFSET : Z := 2.
Definition INTERPRET_ONE_ADDR_OFFSET : Z := 3.
Definition ILLEGAL_PC_THREAD_ADDR_OFFSET : Z := 4.

(** lib/DecodeCache.h:27-31 INVALIDATE_NONE *)
Inductive InvalidateInfo := INVALIDATE_NONE | INVALIDATE_CURRENT | INVALIDATE_CURRENT_AND_PREVIOUS.

#[export] Instance InvalidateInfo_eq_dec : EqDecision InvalidateInfo.
Proof. solve_decision. Defined.

(** lib/DecodeCache.h:32-47 State *)
Record State := mkState {
  opcode : list OPCODE_TYPE;
  operands : list Operands;
  executionFrequency : list Z;
  invalidationInfo : option (list InvalidateInfo);
  sizeShorts : Z;
  base : Z;
  tracingEnabled : bool
}.

Definition with_opcode f k := mkState (f (opcode k)) (operands k) (executionFrequency k)
  (invalidationInfo k) (sizeShorts k) (base k) (tracingEnabled k).

(** lib/DecodeCache.h:49-51 setBase *)
Definition setBase (value : Z) (k : State) : State :=
  mkState (opcode k) (operands k) (executionFrequency k) (invalidationInfo k)
    (sizeShorts k) value (tracingEnabled k).

(** lib/DecodeCache.h:98-98 setTracing *)
Definition setTracing (enabled : bool) (k : State) : State :=
  mkState (opcode k) (operands k) (executionFrequency k) (invalidationInfo k)
    (sizeShorts k) (base k) enabled.

(** lib/DecodeCache.h:53-55 getRunJitAddr *)
Definition getRunJitAddr (k : State) : Z := u32 (u32 (sizeShorts k - 1) + RUN_JIT_ADDR_OFFSET).
(** lib/DecodeCache.h:57-59 getInterpretOneAddr *)
Definition getInterpretOneAddr (k : State) : Z :=
  u32 (u32 (sizeShorts k - 1) + INTERPRET_ONE_ADDR_OFFSET).
(** lib/DecodeCache.h:61-63 getIllegalPCThreadAddr *)
Definition getIllegalPCThreadAddr (k : State) : Z :=
  u32 (u32 (sizeShorts k - 1) + ILLEGAL_PC_THREAD_ADDR_OFFSET).

(** lib/DecodeCache.h:65-67 contains *)
Definition contains (k : State) (address : Z) : bool := (u32 (address - base k) .>> 1) <? sizeShorts k.
(** lib/DecodeCache.h:69-71 isValidPc *)
Definition isValidPc (k : State) (pc : Z) : bool := pc <? sizeShorts k.
(** lib/DecodeCache.h:73-75 toPc *)
Definition toPc (k : State) (address : Z) : Z := u32 (address - base k) .>> 1.
(** lib/DecodeCache.h:77-79 fromPc *)
Definition fromPc (k : State) (pc : Z) : Z := u32 ((pc .<< 1) + base k).

(** lib/DecodeCache.cpp:42-45 clearOpcode *)
Definition clearOpcode (pc : Z) (k : State) : option State :=
  ops ← array_set (opcode k) pc (Inst DECODE (tracingEnabled k));
  Some (with_opcode (fun _ => ops) k).

(** The loop of [setOpcode] over the rest of the instruction. *)
Fixpoint markRest (pc i : Z) (n : nat) (info : list InvalidateInfo) : option (list InvalidateInfo) :=
  match n with
  | O => Some info
  | S n =>
      info ← array_set info (u32 (pc + i)) INVALIDATE_CURRENT_AND_PREVIOUS;
      markRest pc (i + 1) n info
  end.

(** The marks [setOpcode] leaves for an instruction of [size] bytes at [pc]. *)
Definition markInstruction (pc size : Z) (info : list InvalidateInfo) : option (list InvalidateInfo) :=
  cur ← array_get info pc;
  info ← (if bool_decide (cur = INVALIDATE_NONE) then array_set info pc INVALIDATE_CURRENT
          else Some info);
  _ ← assert (size mod 2 =? 0);
  markRest pc 1 (Z.to_nat (size / 2) - 1) info.

(** lib/DecodeCache.cpp:47-59 setOpcode *)
Definition setOpcode (pc : Z) (opc : OPCODE_TYPE) (size : Z) (k : State) : option State :=
  opcode' ← array_set (opcode k) pc opc;
  info' ← (match invalidationInfo k with
           | None => Some None
           | Some info => info ← markInstruction pc size info; Some (Some info)
           end);
  Some (mkState opcode' (operands k) (executionFrequency k) info'
          (sizeShorts k) (base k) (tracingEnabled k)).

(** lib/DecodeCache.cpp:61-66 setOpcode: with operands *)
Definition setOpcodeOperands (pc : Z) (opc : OPCODE_TYPE) (ops : Operands) (size : Z) (k : State)
    : option State :=
  k ← setOpcode pc opc size k;
  operands' ← array_set (operands k) pc ops;
  Some (mkState (opcode k) operands' (executionFrequency k) (invalidationInfo k)
          (sizeShorts k) (base k) (tracingEnabled k)).

(** lib/DecodeCache.cpp:68-82 initCache: the array has [size + 4] entries *)
Definition initCache (k : State) : option State :=
  let t := tracingEnabled k in
  let n := Z.to_nat (sizeShorts k) in
  let ops := replicate n (Inst DECODE t) ++ drop n (opcode k) in
  ops ← array_set ops (sizeShorts k) (Inst ILLEGAL_PC t);
  ops ← array_set ops (getRunJitAddr k) (Inst RUN_JIT t);
  ops ← array_set ops (getInterpretOneAddr k) (Inst INTERPRET_ONE t);
  ops ← array_set ops (getIllegalPCThreadAddr k) (Inst ILLEGAL_PC_THREAD t);
  Some (with_opcode (fun _ => ops) k).

(** lib/DecodeCache.cpp:13-32 DecodeCache: the arrays are uninitialised; [junkOpcode] and [junkOperands] stand for what they hold *)
Definition newDecodeCache (junkOpcode : OPCODE_TYPE) (junkOperands : Operands)
    (sz b : Z) (writable tracing : bool) : option State :=
  initCache (mkState
    (replicate (Z.to_nat (sz + ILLEGAL_PC_THREAD_ADDR_OFFSET)) junkOpcode)
    (replicate (Z.to_nat sz) junkOperands)
    (replicate (Z.to_nat sz) 0)
    (if writable then Some (replicate (Z.to_nat sz) INVALIDATE_NONE) else None)
    sz b tracing).

(** ** Shape of a cache *)

(** The arrays have the sizes of the allocation, and the four pseudo instructions follow the
    last half-word. *)
Record cache_wf (k : State) : Prop := {
  wf_size : 0 < sizeShorts k <= 2 ^ 31;
  wf_opcode : zlength (opcode k) = sizeShorts k + ILLEGAL_PC_THREAD_ADDR_OFFSET;
  wf_operands : zlength (operands k) = sizeShorts k;
  wf_frequency : zlength (executionFrequency k) = sizeShorts k;
  wf_info : forall info, invalidationInfo k = Some info -> zlength info = sizeShorts k;
  wf_pseudo : exists t,
    array_get (opcode k) (sizeShorts k) = Some (Inst ILLEGAL_PC t) /\
    array_get (opcode k) (getRunJitAddr k) = Some (Inst RUN_JIT t) /\
    array_get (opcode k) (getInterpretOneAddr k) = Some (Inst INTERPRET_ONE t) /\
    array_get (opcode k) (getIllegalPCThreadAddr k) = Some (Inst ILLEGAL_PC_THREAD t)
}.

Lemma pseudo_addresses k : 0 < sizeShorts k <= 2 ^ 31 ->
  getRunJitAddr k = sizeShorts k + 1 /\ getInterpretOneAddr k = sizeShorts k + 2 /\
  getIllegalPCThreadAddr k = sizeShorts k + 3.
Proof.
  intros. unfold getRunJitAddr, getInterpretOneAddr, getIllegalPCThreadAddr.
  rewrite !(wrap_small 32 (sizeShorts k - 1)) by (unfold fits; lia).
  unfold RUN_JIT_ADDR_OFFSET, INTERPRET_ONE_ADDR_OFFSET, ILLEGAL_PC_THREAD_ADDR_OFFSET.
  rewrite !wrap_small by (unfold fits; lia). lia.
Qed.

(** ** Marking an instruction *)

Lemma markRest_spec pc i n info :
  0 <= pc -> 0 <= i -> pc + i + Z.of_nat n <= zlength info <= 2 ^ 32 ->
  exists info', markRest pc i n info = Some info' /\ length info' = length info /\
    forall j, array_get info' j =
      if decide (pc + i <= j < pc + i + Z.of_nat n) then Some INVALIDATE_CURRENT_AND_PREVIOUS
      else array_get info j.
Proof.
  intros Hpc. revert i info. induction n as [|n IH]; intros i info Hi Hn; cbn [markRest].
  - exists info. split; [done |]. split; [done |]. intros j. rewrite decide_False by lia. done.
  - rewrite (wrap_small 32 (pc + i)) by (unfold fits; lia).
    array_write info (pc + i) INVALIDATE_CURRENT_AND_PREVIOUS info1 E; [lia |].
    apply array_set_spec in E as (_ & Hl & Hget).
    destruct (IH (i + 1) info1) as (info' & -> & Hl' & Hget'); [lia.. |].
    exists info'. split; [done |]. split; [lia |]. intros j. rewrite Hget', Hget.
    repeat case_decide; try done; lia.
Qed.

(** What [markInstruction] leaves at each half-word. *)
Definition marked (pc size j : Z) (old : InvalidateInfo) : InvalidateInfo :=
  if decide (j = pc) then
    (if bool_decide (old = INVALIDATE_NONE) then INVALIDATE_CURRENT else old)
  else if decide (pc < j < pc + size / 2) then INVALIDATE_CURRENT_AND_PREVIOUS else old.

Lemma markInstruction_spec pc size info :
  0 <= pc -> 2 <= size -> size mod 2 = 0 -> pc + size / 2 <= zlength info <= 2 ^ 32 ->
  exists info', markInstruction pc size info = Some info' /\ length info' = length info /\
    forall j, array_get info' j = marked pc size j <$> array_get info j.
Proof.
  intros Hpc Hs Hm Hl. unfold markInstruction.
  assert (1 <= size / 2) by (apply Z.div_le_lower_bound; lia).
  array_read info pc cur E; [lia |].
  assert (exists info1, (if bool_decide (cur = INVALIDATE_NONE)
      then array_set info pc INVALIDATE_CURRENT else Some info) = Some info1 /\
      length info1 = length info /\
      forall j, array_get info1 j = if decide (j = pc)
        then Some (if bool_decide (cur = INVALIDATE_NONE) then INVALIDATE_CURRENT else cur)
        else array_get info j) as (info1 & -> & Hl1 & H1).
  { case_bool_decide.
    - array_write info pc INVALIDATE_CURRENT info1 E1; [lia |].
      exists info1. by apply array_set_spec in E1 as (_ & ? & ?).
    - exists info. split; [done |]. split; [done |]. intros j. by case_decide as Hj; [rewrite Hj |]. }
  cbn [mbind option_bind]. rewrite Hm. cbn [assert Z.eqb mbind option_bind].
  destruct (markRest_spec pc 1 (Z.to_nat (size / 2) - 1) info1) as (info' & -> & Hl' & H');
    [lia.. |].
  exists info'. split; [done |]. split; [lia |]. intros j. rewrite H', H1. unfold marked.
  destruct (decide (j = pc)) as [->|?].
  - rewrite decide_False by lia. by rewrite E.
  - destruct (decide (pc < j < pc + size / 2)).
    + rewrite decide_True by lia. by destruct (array_get_is_Some info j) as [? ->]; [lia |].
    + rewrite decide_False by lia. by destruct (array_get info j).
Qed.

(** [setOpcode] succeeds where the instruction fits in the memory; it changes one entry and
    the marks of the instruction's half-words. *)
Lemma setOpcode_spec pc opc size k info :
  cache_wf k -> invalidationInfo k = Some info ->
  0 <= pc -> 2 <= size -> size mod 2 = 0 -> pc + size / 2 <= sizeShorts k ->
  exists opcode' info',
    setOpcode pc opc size k = Some (mkState opcode' (operands k) (executionFrequency k)
      (Some info') (sizeShorts k) (base k) (tracingEnabled k)) /\
    length opcode' = length (opcode k) /\ length info' = length info /\
    (forall j, array_get opcode' j = if decide (j = pc) then Some opc else array_get (opcode k) j) /\
    (forall j, array_get info' j = marked pc size j <$> array_get info j).
Proof.
  intros Hk Hi Hpc Hs Hm Hfit. unfold setOpcode.
  assert (1 <= size / 2) by (apply Z.div_le_lower_bound; lia).
  pose proof (wf_size _ Hk). pose proof (wf_opcode _ Hk). pose proof (wf_info _ Hk _ Hi).
  unfold ILLEGAL_PC_THREAD_ADDR_OFFSET in *.
  array_write (opcode k) pc opc opcode' E; [lia |].
  apply array_set_spec in E as (_ & Hlo & Ho). rewrite Hi.
  destruct (markInstruction_spec pc size info) as (info' & -> & Hl & H'); [lia.. |].
  cbn [mbind option_bind]. eauto 10.
Qed.

(** ** Construction *)

Lemma initCache_spec k :
  0 < sizeShorts k <= 2 ^ 31 ->
  zlength (opcode k) = sizeShorts k + ILLEGAL_PC_THREAD_ADDR_OFFSET ->
  exists ops, initCache k = Some (with_opcode (fun _ => ops) k) /\
    length ops = length (opcode k) /\
    (forall pc, 0 <= pc < sizeShorts k -> array_get ops pc = Some (Inst DECODE (tracingEnabled k))) /\
    array_get ops (sizeShorts k) = Some (Inst ILLEGAL_PC (tracingEnabled k)) /\
    array_get ops (getRunJitAddr k) = Some (Inst RUN_JIT (tracingEnabled k)) /\
    array_get ops (getInterpretOneAddr k) = Some (Inst INTERPRET_ONE (tracingEnabled k)) /\
    array_get ops (getIllegalPCThreadAddr k) = Some (Inst ILLEGAL_PC_THREAD (tracingEnabled k)).
Proof.
  intros Hs Hl. unfold initCache, ILLEGAL_PC_THREAD_ADDR_OFFSET in *.
  destruct (pseudo_addresses k Hs) as (-> & -> & ->).
  set (t := tracingEnabled k). set (n := Z.to_nat (sizeShorts k)). set (sz := sizeShorts k) in *.
  set (ops0 := replicate n (Inst DECODE t) ++ drop n (opcode k)).
  assert (zlength ops0 = sz + 4) as L0
    by (unfold ops0; rewrite length_app, length_replicate, length_drop; lia).
  array_write ops0 sz (Inst ILLEGAL_PC t) ops1 E1; [lia |].
  apply array_set_spec in E1 as (_ & L1 & G1).
  array_write ops1 (sz + 1) (Inst RUN_JIT t) ops2 E2; [lia |].
  apply array_set_spec in E2 as (_ & L2 & G2).
  array_write ops2 (sz + 2) (Inst INTERPRET_ONE t) ops3 E3; [lia |].
  apply array_set_spec in E3 as (_ & L3 & G3).
  array_write ops3 (sz + 3) (Inst ILLEGAL_PC_THREAD t) ops4 E4; [lia |].
  apply array_set_spec in E4 as (_ & L4 & G4).
  exists ops4. split; [done |]. split; [lia |].
  assert (forall j, array_get ops4 j =
    if decide (j = sz + 3) then Some (Inst ILLEGAL_PC_THREAD t)
    else if decide (j = sz + 2) then Some (Inst INTERPRET_ONE t)
    else if decide (j = sz + 1) then Some (Inst RUN_JIT t)
    else if decide (j = sz) then Some (Inst ILLEGAL_PC t) else array_get ops0 j) as G
    by (intros; by rewrite G4, G3, G2, G1).
  split; [| repeat split; rewrite G; by repeat case_decide; try lia].
  intros pc Hpc. rewrite G, !decide_False by lia.
  unfold array_get, ops0. rewrite (proj2 (Z.leb_le 0 pc)) by lia.
  rewrite lookup_app_l by (rewrite length_replicate; lia). apply lookup_replicate_2. lia.
Qed.

(** ** The claims *)

(** A new decode cache has a decode stub at every half-word, nothing to invalidate, and
    after the last half-word the four pseudo instructions that catch a pc that has run off
    the end of memory and that return to the JIT or the interpreter. *)
Theorem newDecodeCache_ok junk junkOps sz b writable tracing :
  0 < sz <= 2 ^ 31 ->
  exists k, newDecodeCache junk junkOps sz b writable tracing = Some k /\ cache_wf k /\
    base k = b /\ sizeShorts k = sz /\
    (forall pc, isValidPc k pc = true -> 0 <= pc -> array_get (opcode k) pc = Some (Inst DECODE tracing)) /\
    (forall info pc, invalidationInfo k = Some info -> isValidPc k pc = true -> 0 <= pc ->
      array_get info pc = Some INVALIDATE_NONE) /\
    array_get (opcode k) sz = Some (Inst ILLEGAL_PC tracing).
Proof.
  intros Hs. unfold newDecodeCache.
  match goal with |- exists _, initCache ?k0 = _ /\ _ => set (k := k0) end.
  destruct (initCache_spec k) as (ops & -> & L & Hdec & Hp);
    [done | cbn; rewrite length_replicate; unfold ILLEGAL_PC_THREAD_ADDR_OFFSET; lia |].
  eexists. split; [done |]. cbn. split; [| repeat split; try done].
  - split; cbn; [lia | rewrite L; cbn; rewrite length_replicate;
      unfold ILLEGAL_PC_THREAD_ADDR_OFFSET; lia | rewrite length_replicate; lia.. | |].
    + intros info. destruct writable; intros; simplify_eq. rewrite length_replicate. lia.
    + by exists tracing.
  - intros pc Hv%Z.ltb_lt ?. by apply Hdec.
  - intros info pc Hi Hv%Z.ltb_lt ?. destruct writable; simplify_eq.
    cbn in Hv. apply array_get_replicate. lia.
  - apply Hp.
Qed.

Lemma newDecodeCache_ok_witness : exists k,
  newDecodeCache (JitFunction 7) [1] 4 0x10000 true false = Some k /\ sizeShorts k = 4.
Proof.
  destruct (newDecodeCache_ok (JitFunction 7) [1] 4 0x10000 true false) as (k & H & _ & _ & Hs & _);
    [lia |].
  exists k. split; [exact H | exact Hs].
Defined.

(** Pc and address conversions are inverse: every half-word index below 2^31 is the pc of
    its address, and every address at an even distance from the base is the address of its
    pc; an address lies in the cache exactly when its pc is valid. *)
Theorem pc_address_roundtrip k pc address :
  is_u32 (base k) -> 0 <= pc < 2 ^ 31 -> is_u32 address -> Z.even (address - base k) = true ->
  toPc k (fromPc k pc) = pc /\ fromPc k (toPc k address) = address /\
  contains k address = isValidPc k (toPc k address).
Proof.
  unfold toPc, fromPc, contains, isValidPc. intros Hb Hpc Ha He. split; [| split; [| done]].
  - assert (u32 (Z.shiftl pc 1) = 2 * pc) as ->
      by (rewrite Z.shiftl_mul_pow2 by lia; rewrite wrap_small by (unfold fits; lia); lia).
    unfold wrap. rewrite Zminus_mod_idemp_l.
    replace (2 * pc + base k - base k) with (pc * 2) by lia.
    rewrite Z.mod_small by lia. rewrite Z.shiftr_div_pow2 by lia. by apply Z.div_mul.
  - apply Z.even_spec in He as [m Hm]. rewrite Z.shiftr_div_pow2, Z.shiftl_mul_pow2 by lia.
    assert (u32 (address - base k) / 2 ^ 1 * 2 ^ 1 = u32 (address - base k)) as ->.
    { rewrite Hm. unfold wrap. change (2 ^ 1) with 2. Z.div_mod_to_equations. lia. }
    rewrite wrap_wrap by lia. unfold wrap. rewrite Zplus_mod_idemp_l.
    replace (address - base k + base k) with address by lia. by apply Z.mod_small.
Qed.

Lemma pc_address_roundtrip_witness :
  is_u32 0x10000 /\
  fromPc (mkState [] [] [] None 0x8000 0x10000 false)
    (toPc (mkState [] [] [] None 0x8000 0x10000 false) 0x10006) = 0x10006.
Proof.
  split; [split; vm_compute; [discriminate | reflexivity] |].
  apply (pc_address_roundtrip _ 3 0x10006); [cbn; unfold fits; lia | lia | unfold fits; lia | reflexivity].
Defined.
