(* ===== verification/InstrTransform.v ===== *)
(** * Instruction transformation (lib/Instruction.cpp)

    After decoding, [instructionTransform] scales immediate operands, turns
    relative branch offsets into absolute pcs, and replaces the opcode of a
    branch out of the memory by its "illegal" variant, so that the functions
    that execute the instructions need not check the target. *)

From stdpp Require Import base list numbers option.
From Stdlib Require Import ZArith Lia.
From S2P Require Import Prelude BitManip Opcode InstrDecode InstrDecodeFacts DecodeCache.

#[local] Open Scope Z_scope.
#[local] Open Scope cbits_scope.

(** lib/Instruction.cpp:1757-1939 instructionTransform: [k] is the decode cache that contains [address] *)
Definition instructionTransform (opc : InstructionOpcode) (ops : Operands) (k : State)
    (address : Z) (isDualIssue : bool) : InstructionOpcode * Operands :=
  let issueWidth := if isDualIssue then 2 else 1 in
  let pc := toPc k address in
  (* OP(n) = target; if (!CHECK_PC(OP(n))) opc = illegal; *)
  let branch n target illegal :=
    (if isValidPc k target then opc else illegal, set_OP n target ops) in
  match opc with
  | ADD_2rus =>
      (if OP 2 ops =? 0 then ADD_mov_2rus else opc, ops)
  | STW_2rus | LDW_2rus | LDAWF_l2rus | LDAWB_l2rus =>
      (opc, set_OP 2 (OP 2 ops .<< 2) ops)
  | STWDP_ru6 | STWSP_ru6 | LDWDP_ru6 | LDWSP_ru6 | LDAWDP_ru6 | LDAWSP_ru6 | LDWCP_ru6
  | STWDP_lru6 | STWSP_lru6 | LDWDP_lru6 | LDWSP_lru6 | LDAWDP_lru6 | LDAWSP_lru6 | LDWCP_lru6 =>
      (opc, set_OP 1 (OP 1 ops .<< 2) ops)
  | EXTDP_u6 | ENTSP_u6 | DUALENTSP_u6 | EXTSP_u6 | RETSP_u6 | RETSP_xs2a_u6 | KENTSP_u6
  | KRESTSP_u6 | LDAWCP_u6 | LDWCPL_u10 | EXTDP_lu6 | ENTSP_lu6 | DUALENTSP_lu6 | EXTSP_lu6
  | RETSP_lu6 | RETSP_xs2a_lu6 | KENTSP_lu6 | KRESTSP_lu6 | LDAWCP_lu6 | LDWCPL_lu10 =>
      (opc, set_OP 0 (OP 0 ops .<< 2) ops)
  | LDAPB_u10 | LDAPF_u10 | LDAPB_lu10 | LDAPF_lu10 =>
      (opc, set_OP 0 (OP 0 ops .<< issueWidth) ops)
  | SHL_2rus =>
      (if OP 2 ops =? 32 then SHL_32_2rus else opc, ops)
  | SHR_2rus =>
      (if OP 2 ops =? 32 then SHR_32_2rus else opc, ops)
  | ASHR_l2rus =>
      (if OP 2 ops =? 32 then ASHR_32_l2rus else opc, ops)
  | BRFT_ru6 =>
      branch 1%nat (u32 (pc + 1 + OP 1 ops * issueWidth)) BRFT_illegal_ru6
  | BRBT_ru6 =>
      branch 1%nat (u32 (pc + 1 - OP 1 ops * issueWidth)) BRBT_illegal_ru6
  | BRFU_u6 =>
      branch 0%nat (u32 (pc + 1 + OP 0 ops * issueWidth)) BRFU_illegal_u6
  | BRBU_u6 =>
      branch 0%nat (u32 (pc + 1 - OP 0 ops * issueWidth)) BRBU_illegal_u6
  | BRFF_ru6 =>
      branch 1%nat (u32 (pc + 1 + OP 1 ops * issueWidth)) BRFF_illegal_ru6
  | BRBF_ru6 =>
      branch 1%nat (u32 (pc + 1 - OP 1 ops * issueWidth)) BRBF_illegal_ru6
  | BLRB_u10 =>
      branch 0%nat (u32 (pc + 1 - OP 0 ops * issueWidth)) BLRB_illegal_u10
  | BLRF_u10 =>
      branch 0%nat (u32 (pc + 1 + OP 0 ops * issueWidth)) BLRF_illegal_u10
  | BRFT_lru6 =>
      branch 1%nat (u32 (pc + 2 + OP 1 ops * issueWidth)) BRFT_illegal_lru6
  | BRBT_lru6 =>
      branch 1%nat (u32 (pc + 2 - OP 1 ops * issueWidth)) BRBT_illegal_lru6
  | BRFU_lu6 =>
      branch 0%nat (u32 (pc + 2 + OP 0 ops * issueWidth)) BRFU_illegal_lu6
  | BRBU_lu6 =>
      branch 0%nat (u32 (pc + 2 - OP 0 ops * issueWidth)) BRBU_illegal_lu6
  | BRFF_lru6 =>
      branch 1%nat (u32 (pc + 2 + OP 1 ops * issueWidth)) BRFF_illegal_lru6
  | BRBF_lru6 =>
      branch 1%nat (u32 (pc + 2 - OP 1 ops * issueWidth)) BRBF_illegal_lru6
  | BLRB_lu10 =>
      branch 0%nat (u32 (pc + 2 - OP 0 ops * issueWidth)) BLRB_illegal_lu10
  | BLRF_lu10 =>
      branch 0%nat (u32 (pc + 2 + OP 0 ops * issueWidth)) BLRF_illegal_lu10
  | MKMSK_rus =>
      (opc, set_OP 1 (makeMask (OP 1 ops)) ops)
  | _ => (opc, ops)
  end.

(** ** What the transformation keeps *)

(** Sizes and register operands survive the transformation. *)
Lemma transform_keeps o ops k address dual :
  let '(o', ops') := instructionTransform o ops k address dual in
  instruction_size o' = instruction_size o /\ length ops' = length ops /\
  forall i, is_reg_operand o i = true -> is_reg_operand o' i = true /\ OP i ops' = OP i ops.
Proof.
  destruct o; cbn [instructionTransform]; try (split; [done | split; [done |]]; by intros i Hi);
    repeat case_match; (split; [done | split; [first [done | apply length_insert] |]]);
    intros i Hi; (split; [exact Hi || done |]); try done;
    apply OP_set_ne; intros ->; discriminate Hi.
Qed.

(** Only the place of the memory matters, not the contents of its cache. *)
Lemma transform_ext o ops k k' address dual :
  base k' = base k -> sizeShorts k' = sizeShorts k ->
  instructionTransform o ops k' address dual = instructionTransform o ops k address dual.
Proof. intros Hb Hs. unfold instructionTransform, toPc, isValidPc. by rewrite Hb, Hs. Qed.

(** ** Branch targets *)

(** The relative branches: the operand that holds the offset, the direction, and the
    variant that raises an exception. *)
Definition relative_branch (o : InstructionOpcode) : option (nat * Z * InstructionOpcode) :=
  match o with
  | BRFT_ru6 => Some (1%nat, 1, BRFT_illegal_ru6)
  | BRBT_ru6 => Some (1%nat, -1, BRBT_illegal_ru6)
  | BRFF_ru6 => Some (1%nat, 1, BRFF_illegal_ru6)
  | BRBF_ru6 => Some (1%nat, -1, BRBF_illegal_ru6)
  | BRFU_u6 => Some (0%nat, 1, BRFU_illegal_u6)
  | BRBU_u6 => Some (0%nat, -1, BRBU_illegal_u6)
  | BLRF_u10 => Some (0%nat, 1, BLRF_illegal_u10)
  | BLRB_u10 => Some (0%nat, -1, BLRB_illegal_u10)
  | BRFT_lru6 => Some (1%nat, 1, BRFT_illegal_lru6)
  | BRBT_lru6 => Some (1%nat, -1, BRBT_illegal_lru6)
  | BRFF_lru6 => Some (1%nat, 1, BRFF_illegal_lru6)
  | BRBF_lru6 => Some (1%nat, -1, BRBF_illegal_lru6)
  | BRFU_lu6 => Some (0%nat, 1, BRFU_illegal_lu6)
  | BRBU_lu6 => Some (0%nat, -1, BRBU_illegal_lu6)
  | BLRF_lu10 => Some (0%nat, 1, BLRF_illegal_lu10)
  | BLRB_lu10 => Some (0%nat, -1, BLRB_illegal_lu10)
  | _ => None
  end.

Lemma OP_set_eq n v ops : (n < length ops)%nat -> OP n (set_OP n v ops) = v.
Proof. intros. unfold OP, set_OP. by rewrite nth_lookup, list_lookup_insert_eq. Qed.

(** A relative branch at address [a] gets as operand the absolute pc of the half-word
    after the instruction plus or minus its offset (counted in half-words, or in words in
    dual issue mode); its opcode is kept exactly when that pc lies in memory, and otherwise
    it becomes the variant that raises an illegal pc exception.  So no decoded branch
    transfers control outside the opcode array. *)
Theorem transform_branch o ops k address (dual : bool) n dir illegal :
  relative_branch o = Some (n, dir, illegal) -> length ops = 6%nat ->
  let target := u32 (toPc k address + instruction_size o / 2
                     + dir * (OP n ops * if dual then 2 else 1)) in
  let '(o', ops') := instructionTransform o ops k address dual in
  OP n ops' = target /\ (forall i, i <> n -> OP i ops' = OP i ops) /\
  (o' = o /\ target < sizeShorts k \/ o' = illegal /\ sizeShorts k <= target).
Proof.
  intros Ho Hl.
  assert (forall a b : Z, a + -1 * b = a - b) as Hneg by (intros; lia).
  destruct o; try discriminate Ho; injection Ho as <- <- <-;
    cbn [instructionTransform instruction_size opcode_format format_size];
    change (2 / 2) with 1; change (4 / 2) with 2; rewrite ?Z.mul_1_l, ?Hneg;
    (split; [by apply OP_set_eq; lia | split; [intros; by apply OP_set_ne |]]);
    unfold isValidPc; case_match eqn:E;
    first [left; split; [done | by apply Z.ltb_lt] | right; split; [done | by apply Z.ltb_ge]].
Qed.

Lemma transform_branch_witness :
  instructionTransform BRBU_u6 [5; 0; 0; 0; 0; 0]
    (mkState [] [] [] None 0x8000 0x10000 false) 0x10004 false
  = (BRBU_illegal_u6, [0xfffffffe; 0; 0; 0; 0; 0]) /\
  0x8000 <= 0xfffffffe.
Proof.
  split; [vm_compute; reflexivity |].
  pose proof (transform_branch BRBU_u6 [5; 0; 0; 0; 0; 0]
    (mkState [] [] [] None 0x8000 0x10000 false) 0x10004 false 0 (-1) BRBU_illegal_u6
    eq_refl eq_refl) as H.
  vm_compute in H. destruct H as (_ & _ & [[H _] | [_ H]]); [discriminate H | exact H].
Defined.
