(* ===== verification/Watchpoint.v ===== *)
(** * Watchpoints (lib/WatchpointManager.h, lib/WatchpointManager.cpp)

    A set of address ranges; a load or store that overlaps a range of its
    kind stops the simulation. *)

From stdpp Require Import base list numbers option gmap.
From Stdlib Require Import ZArith Lia.
From S2P Require Import Prelude.

#[local] Open Scope Z_scope.

(** lib/WatchpointManager.h:10-14 WatchpointType *)
Inductive WatchpointType := UNSET | READ | WRITE.

#[export] Instance WatchpointType_eq_dec : EqDecision WatchpointType.
Proof. solve_decision. Defined.
#[export] Instance WatchpointType_countable : Countable WatchpointType.
Proof.
  refine (inj_countable' (fun t => match t with UNSET => 0%nat | READ => 1%nat | WRITE => 2%nat end)
    (fun n => match n with 0%nat => UNSET | 1%nat => READ | _ => WRITE end) _).
  abstract by intros [].
Defined.

(** lib/WatchpointManager.h:16-37 Watchpoint: type, first and last address; the orderings of the struct are those of [std::set], which the model does not depend on *)
Definition Watchpoint : Type := WatchpointType * Z * Z.

#[export] Instance Watchpoint_eq_dec : EqDecision Watchpoint.
Proof. unfold Watchpoint. apply _. Defined.
#[export] Instance Watchpoint_countable : Countable Watchpoint.
Proof. unfold Watchpoint. apply prod_countable. Defined.

(** lib/WatchpointManager.h:39-50 WatchpointManager *)
Definition WatchpointManager : Type := gset Watchpoint.

(** lib/WatchpointManager.cpp:7-11 setWatchpoint *)
Definition wm_setWatchpoint (type : WatchpointType) (low high : Z) (w : WatchpointManager)
    : WatchpointManager := {[ (type, low, high) ]} ∪ w.

(** lib/WatchpointManager.cpp:13-16 unsetWatchpoint *)
Definition wm_unsetWatchpoint (type : WatchpointType) (low high : Z) (w : WatchpointManager)
    : WatchpointManager := w ∖ {[ (type, low, high) ]}.

(** lib/WatchpointManager.h:46-46 clearWatchpoints *)
Definition wm_clearWatchpoints (w : WatchpointManager) : WatchpointManager := ∅.

(** lib/WatchpointManager.cpp:18-26 isWatchpointAddress *)
Definition isWatchpointAddress (w : WatchpointManager) (t : WatchpointType)
    (address ldst_size : Z) : bool :=
  existsb (fun '(type, begin, end_) =>
    bool_decide (t = type) && ((begin <? u32 (address + ldst_size)) && (address <=? end_)))
    (elements w).

(** Every range has its ends in order. *)
Definition ranges_ok (w : WatchpointManager) : Prop := forall t b e, (t, b, e) ∈ w -> b <= e.

Lemma ranges_ok_empty : ranges_ok ∅.
Proof. intros t b e H. by apply not_elem_of_empty in H. Qed.

Lemma ranges_ok_set w t b e : b <= e -> ranges_ok w -> ranges_ok (wm_setWatchpoint t b e w).
Proof.
  unfold wm_setWatchpoint. intros Hbe H t' b' e' [[= -> -> ->]%elem_of_singleton | Hin]%elem_of_union;
    [done | by apply (H t')].
Qed.

(** An access of [size] bytes at [address] hits a watchpoint exactly when one of its bytes
    lies in a range that was set for accesses of its kind and not unset since. *)
Theorem watchpoint_hit w t address size :
  0 <= address -> 0 < size -> address + size < 2 ^ 32 ->
  ranges_ok w ->
  isWatchpointAddress w t address size = true <->
  exists b e, (t, b, e) ∈ w /\ exists a, address <= a < address + size /\ b <= a <= e.
Proof.
  intros Ha Hs Hsum Hr. unfold isWatchpointAddress. rewrite existsb_exists. split.
  - intros ([[ty b] e] & Hin & Ht). apply list_elem_of_In, elem_of_elements in Hin.
    rewrite (wrap_small 32) in Ht by (unfold fits; lia).
    apply andb_true_iff in Ht as [->%bool_decide_eq_true Ht].
    apply andb_true_iff in Ht as [Hb%Z.ltb_lt He%Z.leb_le].
    exists b, e. split; [done |]. specialize (Hr _ _ _ Hin). exists (Z.max address b). lia.
  - intros (b & e & Hin & a & Ha1 & Ha2). exists (t, b, e).
    split; [by apply list_elem_of_In, elem_of_elements |].
    rewrite (wrap_small 32) by (unfold fits; lia).
    rewrite bool_decide_eq_true_2 by done.
    rewrite (proj2 (Z.ltb_lt b (address + size))), (proj2 (Z.leb_le address e)) by lia. done.
Qed.

Lemma watchpoint_hit_witness :
  isWatchpointAddress (wm_setWatchpoint WRITE 0x10004 0x10006 ∅) WRITE 0x10003 4 = true /\
  exists b e, (WRITE, b, e) ∈ wm_setWatchpoint WRITE 0x10004 0x10006 ∅.
Proof.
  assert (isWatchpointAddress (wm_setWatchpoint WRITE 0x10004 0x10006 ∅) WRITE 0x10003 4 = true)
    as E by (vm_compute; reflexivity).
  split; [exact E |].
  destruct (watchpoint_hit (wm_setWatchpoint WRITE 0x10004 0x10006 ∅) WRITE 0x10003 4)
    as [H _]; [lia | lia | lia | apply ranges_ok_set, ranges_ok_empty; lia |].
  destruct (H E) as (b & e & Hin & _). exists b, e. exact Hin.
Defined.
