(* ===== verification/Core.v ===== *)
(** * A core: memory, decode cache and processor state (lib/Core.h, lib/Core.cpp)

    The memory of an xCORE tile with its decode cache.  [memoryOffset] and
    [invalidationInfoOffset] are pointers displaced by the base of the RAM:
    the fields hold the displacement, and an access through them subtracts
    it.  [functionMap] and [unreachableFunctions] are what the JIT keeps for
    the core ([JITCoreInfo] of lib/JIT.cpp): from the pc of a compiled
    fragment to the pc recorded in its [JITFunctionInfo].  Operations run in
    the option monad: [None] is an access outside an array. *)

From stdpp Require Import base list numbers option gmap.
From Stdlib Require Import ZArith Lia.
From S2P Require Import Prelude BitManip Opcode InstrDecode DecodeCache InstrTransform Watchpoint.

#[local] Open Scope Z_scope.
#[local] Open Scope cbits_scope.

(** The decode cache a thread holds a copy of: its arrays are those of the RAM or of the ROM
    cache ([ref_ram]); the base and the size are copied. *)
Record CacheRef := mkCacheRef { ref_ram : bool; ref_base : Z; ref_size : Z; ref_tracing : bool }.

(** lib/Core.h:47-90 Core *)
Record Core := mkCore {
  memory : list Z;
  ramDecodeCache : State;
  memoryOffset : Z;
  invalidationInfoOffset : Z;
  ramSizeLog2 : Z;
  ramBaseMultiple : Z;
  rom : list Z;
  romBase : Z;
  romSize : Z;
  functionMap : gmap Z Z;
  unreachableFunctions : list Z;
  breakpoints : gset Z;
  watchpoints : gset Watchpoint;
  threadCaches : list CacheRef;
  coreNumber : Z;
  bootModePins : Z;
  bootStatus : Z;
  vector_base : Z;
  jitEnabled : bool
}.

Definition set_memory (v : list Z) (c : Core) : Core :=
  mkCore v (ramDecodeCache c) (memoryOffset c) (invalidationInfoOffset c) (ramSizeLog2 c)
    (ramBaseMultiple c) (rom c) (romBase c) (romSize c) (functionMap c) (unreachableFunctions c)
    (breakpoints c) (watchpoints c) (threadCaches c) (coreNumber c) (bootModePins c)
    (bootStatus c) (vector_base c) (jitEnabled c).
Definition set_ramDecodeCache (v : State) (c : Core) : Core :=
  mkCore (memory c) v (memoryOffset c) (invalidationInfoOffset c) (ramSizeLog2 c)
    (ramBaseMultiple c) (rom c) (romBase c) (romSize c) (functionMap c) (unreachableFunctions c)
    (breakpoints c) (watchpoints c) (threadCaches c) (coreNumber c) (bootModePins c)
    (bootStatus c) (vector_base c) (jitEnabled c).
Definition set_memoryOffset (v : Z) (c : Core) : Core :=
  mkCore (memory c) (ramDecodeCache c) v (invalidationInfoOffset c) (ramSizeLog2 c)
    (ramBaseMultiple c) (rom c) (romBase c) (romSize c) (functionMap c) (unreachableFunctions c)
    (breakpoints c) (watchpoints c) (threadCaches c) (coreNumber c) (bootModePins c)
    (bootStatus c) (vector_base c) (jitEnabled c).
Definition set_invalidationInfoOffset (v : Z) (c : Core) : Core :=
  mkCore (memory c) (ramDecodeCache c) (memoryOffset c) v (ramSizeLog2 c) (ramBaseMultiple c)
    (rom c) (romBase c) (romSize c) (functionMap c) (unreachableFunctions c) (breakpoints c)
    (watchpoints c) (threadCaches c) (coreNumber c) (bootModePins c) (bootStatus c)
    (vector_base c) (jitEnabled c).
Definition set_ramBaseMultiple (v : Z) (c : Core) : Core :=
  mkCore (memory c) (ramDecodeCache c) (memoryOffset c) (invalidationInfoOffset c)
    (ramSizeLog2 c) v (rom c) (romBase c) (romSize c) (functionMap c) (unreachableFunctions c)
    (breakpoints c) (watchpoints c) (threadCaches c) (coreNumber c) (bootModePins c)
    (bootStatus c) (vector_base c) (jitEnabled c).
Definition set_functionMap (v : gmap Z Z) (c : Core) : Core :=
  mkCore (memory c) (ramDecodeCache c) (memoryOffset c) (invalidationInfoOffset c)
    (ramSizeLog2 c) (ramBaseMultiple c) (rom c) (romBase c) (romSize c) v (unreachableFunctions c)
    (breakpoints c) (watchpoints c) (threadCaches c) (coreNumber c) (bootModePins c)
    (bootStatus c) (vector_base c) (jitEnabled c).
Definition set_unreachableFunctions (v : list Z) (c : Core) : Core :=
  mkCore (memory c) (ramDecodeCache c) (memoryOffset c) (invalidationInfoOffset c)
    (ramSizeLog2 c) (ramBaseMultiple c) (rom c) (romBase c) (romSize c) (functionMap c) v
    (breakpoints c) (watchpoints c) (threadCaches c) (coreNumber c) (bootModePins c)
    (bootStatus c) (vector_base c) (jitEnabled c).
Definition set_breakpoints (v : gset Z) (c : Core) : Core :=
  mkCore (memory c) (ramDecodeCache c) (memoryOffset c) (invalidationInfoOffset c)
    (ramSizeLog2 c) (ramBaseMultiple c) (rom c) (romBase c) (romSize c) (functionMap c)
    (unreachableFunctions c) v (watchpoints c) (threadCaches c) (coreNumber c) (bootModePins c)
    (bootStatus c) (vector_base c) (jitEnabled c).
Definition set_watchpoints (v : gset Watchpoint) (c : Core) : Core :=
  mkCore (memory c) (ramDecodeCache c) (memoryOffset c) (invalidationInfoOffset c)
    (ramSizeLog2 c) (ramBaseMultiple c) (rom c) (romBase c) (romSize c) (functionMap c)
    (unreachableFunctions c) (breakpoints c) v (threadCaches c) (coreNumber c) (bootModePins c)
    (bootStatus c) (vector_base c) (jitEnabled c).
Definition set_threadCaches (v : list CacheRef) (c : Core) : Core :=
  mkCore (memory c) (ramDecodeCache c) (memoryOffset c) (invalidationInfoOffset c)
    (ramSizeLog2 c) (ramBaseMultiple c) (rom c) (romBase c) (romSize c) (functionMap c)
    (unreachableFunctions c) (breakpoints c) (watchpoints c) v (coreNumber c) (bootModePins c)
    (bootStatus c) (vector_base c) (jitEnabled c).
Definition set_bootStatus (v : Z) (c : Core) : Core :=
  mkCore (memory c) (ramDecodeCache c) (memoryOffset c) (invalidationInfoOffset c)
    (ramSizeLog2 c) (ramBaseMultiple c) (rom c) (romBase c) (romSize c) (functionMap c)
    (unreachableFunctions c) (breakpoints c) (watchpoints c) (threadCaches c) (coreNumber c)
    (bootModePins c) v (vector_base c) (jitEnabled c).
Definition set_vector_base (v : Z) (c : Core) : Core :=
  mkCore (memory c) (ramDecodeCache c) (memoryOffset c) (invalidationInfoOffset c)
    (ramSizeLog2 c) (ramBaseMultiple c) (rom c) (romBase c) (romSize c) (functionMap c)
    (unreachableFunctions c) (breakpoints c) (watchpoints c) (threadCaches c) (coreNumber c)
    (bootModePins c) (bootStatus c) v (jitEnabled c).
Definition set_jitEnabled (v : bool) (c : Core) : Core :=
  mkCore (memory c) (ramDecodeCache c) (memoryOffset c) (invalidationInfoOffset c)
    (ramSizeLog2 c) (ramBaseMultiple c) (rom c) (romBase c) (romSize c) (functionMap c)
    (unreachableFunctions c) (breakpoints c) (watchpoints c) (threadCaches c) (coreNumber c)
    (bootModePins c) (bootStatus c) (vector_base c) v.

(** ** Addresses *)

(** lib/Core.h:128-128 getRamSize *)
Definition getRamSize (c : Core) : Z := 2 ^ ramSizeLog2 c.
(** lib/Core.h:130-130 getRamBase *)
Definition getRamBase (c : Core) : Z := u32 (getRamSize c * ramBaseMultiple c).
(** lib/Core.h:86-86 getRamSizeShorts *)
Definition getRamSizeShorts (c : Core) : Z := 2 ^ (ramSizeLog2 c - 1).

(** lib/Core.h:135-137 isValidRamAddress *)
Definition isValidRamAddress (c : Core) (address : Z) : bool :=
  (address .>> ramSizeLog2 c) =? ramBaseMultiple c.
(** lib/Core.h:139-141 isValidRomAddress *)
Definition isValidRomAddress (c : Core) (address : Z) : bool :=
  u32 (address - romBase c) <? romSize c.
(** lib/Core.h:143-145 isValidAddress *)
Definition isValidAddress (c : Core) (address : Z) : bool :=
  isValidRamAddress c address || isValidRomAddress c address.
(** lib/Core.h:147-149 isValidRamPc *)
Definition isValidRamPc (c : Core) (pc : Z) : bool := isValidPc (ramDecodeCache c) pc.

(** ** Loads and stores *)

(** lib/Endianness.h:33-40 read16le *)
Definition read16le (bytes : list Z) (p : Z) : option Z :=
  b0 ← array_get bytes p; b1 ← array_get bytes (p + 1);
  Some (b0 .| Z.shiftl b1 8).

(** lib/Endianness.h:25-31 read32le *)
Definition read32le (bytes : list Z) (p : Z) : option Z :=
  b0 ← array_get bytes p; b1 ← array_get bytes (p + 1);
  b2 ← array_get bytes (p + 2); b3 ← array_get bytes (p + 3);
  Some (b0 .| Z.shiftl b1 8 .| Z.shiftl b2 16 .| Z.shiftl b3 24).

(** lib/Endianness.h:48-55 write16le *)
Definition write16le (bytes : list Z) (p val : Z) : option (list Z) :=
  bytes ← array_set bytes p (u8 val);
  array_set bytes (p + 1) (u8 (val .>> 8)).

(** lib/Endianness.h:42-46 write32le *)
Definition write32le (bytes : list Z) (p val : Z) : option (list Z) :=
  bytes ← array_set bytes p (u8 val);
  bytes ← array_set bytes (p + 1) (u8 (val .>> 8));
  bytes ← array_set bytes (p + 2) (u8 (val .>> 16));
  array_set bytes (p + 3) (u8 (val .>> 24)).

(** lib/Core.h:177-179 loadRomWord *)
Definition loadRomWord (c : Core) (address : Z) : option Z := read32le (rom c) (u32 (address - romBase c)).
(** lib/Core.h:181-183 loadRomShort *)
Definition loadRomShort (c : Core) (address : Z) : option Z := read16le (rom c) (u32 (address - romBase c)).
(** lib/Core.h:185-187 loadRomByte *)
Definition loadRomByte (c : Core) (address : Z) : option Z := array_get (rom c) (u32 (address - romBase c)).
(** lib/Core.h:189-191 loadRamWord *)
Definition loadRamWord (c : Core) (address : Z) : option Z := read32le (memory c) (address - memoryOffset c).
(** lib/Core.h:193-195 loadRamShort *)
Definition loadRamShort (c : Core) (address : Z) : option Z := read16le (memory c) (address - memoryOffset c).
(** lib/Core.h:197-199 loadRamByte *)
Definition loadRamByte (c : Core) (address : Z) : option Z := array_get (memory c) (address - memoryOffset c).
(** lib/Core.h:201-205 loadByte *)
Definition loadByte (c : Core) (address : Z) : option Z :=
  if isValidRamAddress c address then loadRamByte c address else loadRomByte c address.
(** lib/Core.h:207-211 loadShort *)
Definition loadShort (c : Core) (address : Z) : option Z :=
  if isValidRamAddress c address then loadRamShort c address else loadRomShort c address.

(** lib/Core.h:277-280 storeWord *)
Definition storeWord (value address : Z) (c : Core) : option Core :=
  m ← write32le (memory c) (address - memoryOffset c) value; Some (set_memory m c).
(** lib/Core.h:282-285 storeShort *)
Definition storeShort (value address : Z) (c : Core) : option Core :=
  m ← write16le (memory c) (address - memoryOffset c) (u16 value); Some (set_memory m c).
(** lib/Core.h:287-290 storeByte *)
Definition storeByte (value address : Z) (c : Core) : option Core :=
  m ← array_set (memory c) (address - memoryOffset c) (u8 value); Some (set_memory m c).

(** ** Invalidation of cached instructions *)

(** [invalidationInfoOffset[shifted]] *)
Definition infoGet (c : Core) (shifted : Z) : option InvalidateInfo :=
  info ← invalidationInfo (ramDecodeCache c);
  array_get info (shifted - invalidationInfoOffset c).

(** [invalidationInfoOffset[shifted] = v] *)
Definition infoSet (shifted : Z) (v : InvalidateInfo) (c : Core) : option Core :=
  info ← invalidationInfo (ramDecodeCache c);
  info ← array_set info (shifted - invalidationInfoOffset c) v;
  let k := ramDecodeCache c in
  Some (set_ramDecodeCache (mkState (opcode k) (operands k) (executionFrequency k) (Some info)
          (sizeShorts k) (base k) (tracingEnabled k)) c).

(** [executionFrequency[pc] = v] *)
Definition setExecutionFrequency (pc v : Z) (c : Core) : option Core :=
  let k := ramDecodeCache c in
  f ← array_set (executionFrequency k) pc v;
  Some (set_ramDecodeCache (mkState (opcode k) (operands k) f (invalidationInfo k)
          (sizeShorts k) (base k) (tracingEnabled k)) c).

(** lib/Core.cpp:497-500 Core::clearOpcode *)
Definition core_clearOpcode (pc : Z) (c : Core) : option Core :=
  k ← clearOpcode pc (ramDecodeCache c); Some (set_ramDecodeCache k c).

(** lib/Core.cpp:502-505 Core::setOpcode *)
Definition core_setOpcode (pc : Z) (opc : OPCODE_TYPE) (size : Z) (c : Core) : option Core :=
  k ← setOpcode pc opc size (ramDecodeCache c); Some (set_ramDecodeCache k c).

(** lib/Core.cpp:507-510 Core::setOpcode with operands *)
Definition core_setOpcodeOperands (pc : Z) (opc : OPCODE_TYPE) (ops : Operands) (size : Z) (c : Core)
    : option Core :=
  k ← setOpcodeOperands pc opc ops size (ramDecodeCache c); Some (set_ramDecodeCache k c).

(** lib/JIT.cpp:858-874 JITImpl::invalidate *)
Definition jitInvalidate (pc : Z) (c : Core) : option (Core * bool) :=
  match functionMap c !! pc with
  | None => Some (c, false)
  | Some functionPc =>
      c ← core_clearOpcode functionPc c;
      Some (set_unreachableFunctions (unreachableFunctions c ++ [functionPc]) c, true)
  end.

(** One round of the loop of [invalidateSlowPath]; also returns the mark it has read. *)
Definition invalidateOne (shifted : Z) (c : Core) : option (Core * InvalidateInfo) :=
  info ← infoGet c shifted;
  let pc := u32 (shifted - getRamBase c / 2) in
  '(c, done) ← jitInvalidate pc c;
  c ← (if (done : bool) then Some c else core_clearOpcode pc c);
  c ← setExecutionFrequency pc 0 c;
  c ← infoSet shifted INVALIDATE_NONE c;
  Some (c, info).

(** The [do]-[while] loop of [invalidateSlowPath]. *)
Fixpoint invalidateLoop (fuel : nat) (shifted : Z) (c : Core) : option Core :=
  match fuel with
  | O => None
  | S fuel =>
      '(c, info) ← invalidateOne shifted c;
      if bool_decide (info = INVALIDATE_CURRENT_AND_PREVIOUS)
      then invalidateLoop fuel (u32 (shifted - 1)) c
      else Some c
  end.

(** lib/Core.cpp:458-470 Core::invalidateSlowPath: the loop visits each half-word at most once *)
Definition invalidateSlowPath (shifted : Z) (c : Core) : option Core :=
  invalidateLoop (Z.to_nat (sizeShorts (ramDecodeCache c))) shifted c.

(** lib/Core.cpp:448-456 Core::invalidateWordSlowPath *)
Definition invalidateWordSlowPath (shifted : Z) (c : Core) : option Core :=
  next ← infoGet c (u32 (shifted + 1));
  if bool_decide (next = INVALIDATE_NONE) then invalidateSlowPath shifted c
  else
    c ← infoSet (u32 (shifted + 1)) INVALIDATE_CURRENT_AND_PREVIOUS c;
    invalidateSlowPath (u32 (shifted + 1)) c.

(** lib/Core.h:213-219 invalidateWordCheck *)
Definition invalidateWordCheck (c : Core) (address : Z) : option bool :=
  i0 ← infoGet c (address .>> 1);
  i1 ← infoGet c ((address .>> 1) + 1);
  Some (negb (bool_decide (i0 = INVALIDATE_NONE) && bool_decide (i1 = INVALIDATE_NONE))).

(** lib/Core.h:221-227 invalidateDoubleCheck *)
Definition invalidateDoubleCheck (c : Core) (address : Z) : option bool :=
  i0 ← infoGet c (address .>> 1);
  i1 ← infoGet c ((address .>> 1) + 1);
  Some (negb (bool_decide (i0 = INVALIDATE_NONE) && bool_decide (i1 = INVALIDATE_NONE))).

(** lib/Core.h:229-234 invalidateWord *)
Definition invalidateWord (address : Z) (c : Core) : option (Core * bool) :=
  check ← invalidateWordCheck c address;
  if (check : bool) then c ← invalidateWordSlowPath (address .>> 1) c; Some (c, true)
  else Some (c, false).

(** lib/Core.h:236-240 invalidateShortCheck *)
Definition invalidateShortCheck (c : Core) (address : Z) : option bool :=
  i ← infoGet c (address .>> 1); Some (negb (bool_decide (i = INVALIDATE_NONE))).

(** lib/Core.h:242-247 invalidateShort *)
Definition invalidateShort (address : Z) (c : Core) : option (Core * bool) :=
  check ← invalidateShortCheck c address;
  if (check : bool) then c ← invalidateSlowPath (address .>> 1) c; Some (c, true)
  else Some (c, false).

(** lib/Core.h:249-253 invalidateByteCheck *)
Definition invalidateByteCheck (c : Core) (address : Z) : option bool :=
  i ← infoGet c (address .>> 1); Some (negb (bool_decide (i = INVALIDATE_NONE))).

(** lib/Core.h:255-260 invalidateByte *)
Definition invalidateByte (address : Z) (c : Core) : option (Core * bool) :=
  check ← invalidateByteCheck c address;
  if (check : bool) then c ← invalidateSlowPath (address .>> 1) c; Some (c, true)
  else Some (c, false).

(** A [for] loop over addresses that invalidates at each and accumulates the results. *)
Fixpoint invalidateFor (fuel : nat) (cond : Z -> bool) (step : Z)
    (body : Z -> Core -> option (Core * bool)) (address : Z) (invalidated : bool) (c : Core)
    : option (Core * Z * bool) :=
  if cond address then
    match fuel with
    | O => None
    | S fuel =>
        '(c, b) ← body address c;
        invalidateFor fuel cond step body (u32 (address + step)) (invalidated || b) c
    end
  else Some (c, address, invalidated).

(** lib/Core.cpp:472-486 Core::invalidateRange *)
Definition invalidateRange (begin end_ : Z) (c : Core) : option (Core * bool) :=
  let fuel := Z.to_nat (end_ - begin) in
  '(c, address, inv) ← invalidateFor fuel
     (fun a => negb (a mod 4 =? 0) && (a <? end_)) 1 invalidateByte begin false c;
  '(c, address, inv) ← invalidateFor fuel
     (fun a => u32 (a + 3) <? end_) 4 invalidateWord address inv c;
  '(c, address, inv) ← invalidateFor fuel
     (fun a => a <? end_) 1 invalidateByte address inv c;
  Some (c, inv).

(** lib/Core.cpp:328-334 Core::resetCaches *)
Definition resetCaches (c : Core) : option Core :=
  let ramEnd := u32 (getRamBase c + 2 ^ ramSizeLog2 c) in
  '(c, _, _) ← invalidateFor (Z.to_nat (getRamSize c))
     (fun a => a <? ramEnd) 4 invalidateWord (getRamBase c) false c;
  Some c.

(** ** Memory access by the debugger and the loader *)

(** [memcpy] of [length src] bytes into an array. *)
Definition blit (src : list Z) (p : Z) (bytes : list Z) : option (list Z) :=
  _ ← assert ((0 <=? p) && (p + zlength src <=? zlength bytes));
  Some (take (Z.to_nat p) bytes ++ src ++ drop (Z.to_nat p + length src) bytes).

(** The test shared by [readMemory] and [writeMemory]; [address + size] is computed in 64 bits. *)
Definition memoryRangeRefused (c : Core) (address size : Z) : bool :=
  let ramEnd := u32 (getRamBase c + getRamSize c) in
  (address <? getRamBase c) || (ramEnd <=? u64 (address + size)).

(** lib/Core.cpp:205-214 Core::readMemory: [Some None] is the result [false] *)
Definition readMemory (address size : Z) (c : Core) : option (option (list Z)) :=
  if size =? 0 then Some (Some [])
  else if memoryRangeRefused c address size then Some None
  else
    let p := address - memoryOffset c in
    _ ← assert ((0 <=? p) && (p + size <=? zlength (memory c)));
    Some (Some (take (Z.to_nat size) (drop (Z.to_nat p) (memory c)))).

(** lib/Core.cpp:216-226 Core::writeMemory *)
Definition writeMemory (address : Z) (src : list Z) (c : Core) : option (Core * bool) :=
  if zlength src =? 0 then Some (c, true)
  else if memoryRangeRefused c address (zlength src) then Some (c, false)
  else
    m ← blit src (address - memoryOffset c) (memory c);
    '(c, _) ← invalidateRange address (u32 (address + zlength src)) (set_memory m c);
    Some (c, true).

(** ** Breakpoints, watchpoints, and switching the JIT off and on *)

(** lib/Core.cpp:273-280 Core::setBreakpoint *)
Definition setBreakpoint (value : Z) (c : Core) : option (Core * bool) :=
  if negb (value .& 1 =? 0) || negb (isValidAddress c value) then Some (c, false)
  else if bool_decide (value ∈ breakpoints c) then Some (c, true)
  else
    '(c, _) ← invalidateShort value (set_breakpoints ({[ value ]} ∪ breakpoints c) c);
    Some (c, true).

(** lib/Core.cpp:282-286 Core::unsetBreakpoint *)
Definition unsetBreakpoint (value : Z) (c : Core) : option Core :=
  if bool_decide (value ∈ breakpoints c) then
    '(c, _) ← invalidateShort value (set_breakpoints (breakpoints c ∖ {[ value ]}) c);
    Some c
  else Some c.

(** lib/Core.h:111-111 clearBreakpoints *)
Definition clearBreakpoints (c : Core) : Core := set_breakpoints ∅ c.

(** lib/Core.cpp:309-314 Core::disableJIT *)
Definition disableJIT (c : Core) : option Core :=
  let c := set_jitEnabled false c in
  resetCaches (set_ramDecodeCache (setTracing true (ramDecodeCache c)) c).

(** lib/Core.cpp:316-321 Core::enableJIT *)
Definition enableJIT (c : Core) : option Core :=
  let c := set_jitEnabled true c in
  resetCaches (set_ramDecodeCache (setTracing false (ramDecodeCache c)) c).

(** lib/Core.cpp:288-299 Core::setWatchpoint *)
Definition setWatchpoint (type : WatchpointType) (low high : Z) (c : Core) : option (Core * bool) :=
  if (negb (low .& 1 =? 0) || negb (isValidAddress c low))
     || (negb (high .& 1 =? 0) || negb (isValidAddress c high)) then Some (c, false)
  else
    c ← (if jitEnabled c then disableJIT c else Some c);
    Some (set_watchpoints (wm_setWatchpoint type low high (watchpoints c)) c, true).

(** lib/Core.cpp:301-307 Core::unsetWatchpoint: [tracer] says whether the system has a tracer *)
Definition unsetWatchpoint (tracer : bool) (type : WatchpointType) (low high : Z) (c : Core)
    : option Core :=
  let c := set_watchpoints (wm_unsetWatchpoint type low high (watchpoints c)) c in
  if bool_decide (watchpoints c = ∅) && negb tracer then enableJIT c else Some c.

(** lib/Core.cpp:323-326 Core::hitWatchpoint *)
Definition hitWatchpoint (t : WatchpointType) (address ldst_size : Z) (c : Core) : bool :=
  isWatchpointAddress (watchpoints c) t address ldst_size.

(** ** Moving the RAM, and the processor state registers *)

(** lib/Thread.cpp:106-112 Thread::seeRamDecodeCacheChange *)
Definition seeRamDecodeCacheChange (romCacheBase : Z) (k : State) (r : CacheRef) : CacheRef :=
  if ref_base r =? romCacheBase then r
  else mkCacheRef true (base k) (sizeShorts k) (tracingEnabled k).

(** lib/Core.cpp:141-158 Core::setRamBaseMultiple: [romCacheBase] is the base of the system's ROM cache *)
Definition setRamBaseMultiple (romCacheBase multiple : Z) (c : Core) : option Core :=
  c ← resetCaches c;
  let c := set_ramBaseMultiple multiple c in
  let ramBase := getRamBase c in
  let c := set_ramDecodeCache (setBase ramBase (ramDecodeCache c)) c in
  let c := set_memoryOffset ramBase c in
  let c := set_invalidationInfoOffset (ramBase / 2) c in
  Some (set_threadCaches
    (seeRamDecodeCacheChange romCacheBase (ramDecodeCache c) <$> threadCaches c) c).

(** lib/Core.h:39-45 ProcessorState *)
Definition PS_RAM_BASE : Z := 0x00b.
Definition PS_VECTOR_BASE : Z := 0x10b.
Definition PS_BOOT_CONFIG : Z := 0x30b.
Definition PS_BOOT_STATUS : Z := 0x40b.
Definition PS_RING_OSC_CONTROL : Z := 0x60b.

(** lib/Core.cpp:376-392 Core::setProcessorState *)
Definition core_setProcessorState (romCacheBase reg value : Z) (c : Core) : option (Core * bool) :=
  if reg =? PS_VECTOR_BASE then Some (set_vector_base value c, true)
  else if reg =? PS_RAM_BASE then
    c ← setRamBaseMultiple romCacheBase (value / getRamSize c) c; Some (c, true)
  else if reg =? PS_BOOT_STATUS then Some (set_bootStatus value c, true)
  else if reg =? PS_RING_OSC_CONTROL then Some (c, true)
  else Some (c, false).

(** lib/Core.cpp:394-411 Core::getProcessorState: [None] is the result [false] *)
Definition getProcessorState (reg : Z) (c : Core) : option Z :=
  if reg =? PS_VECTOR_BASE then Some (vector_base c)
  else if reg =? PS_RAM_BASE then Some (getRamBase c)
  else if reg =? PS_BOOT_CONFIG then Some (bootModePins c .| (coreNumber c .<< 16))
  else if reg =? PS_BOOT_STATUS then Some (bootStatus c)
  else None.

(** ** Decoding from memory *)

(** lib/Instruction.cpp:356-376 instructionDecode: the overload that reads a core's memory; [s] holds its reference parameters, [type] is the type of the core's node *)
Definition decodeFromCore (type : NodeType) (c : Core) (address : Z) (s : DecodeState)
    (ignoreBreakpoints : bool) : option DecodeState :=
  _ ← assert ((address .& 1 =? 0) && isValidAddress c address);
  if negb ignoreBreakpoints && bool_decide (address ∈ breakpoints c)
  then Some (set_opcode BREAKPOINT s)
  else
    low ← loadShort c address;
    if isValidAddress c (u32 (address + 2)) then
      high ← loadShort c (u32 (address + 2));
      Some (instructionDecode low high true type s)
    else Some (instructionDecode low 0 false type s).

(** lib/Core.cpp:263-271 getDecodeCacheContaining: [romCache] is the decode cache of the system's ROM *)
Definition getDecodeCacheContaining (romCache : State) (c : Core) (address : Z) : option State :=
  if isValidRamAddress c address then Some (ramDecodeCache c)
  else if isValidRomAddress c address then Some romCache
  else None.

(** lib/Thread.cpp:555-564 Instruction_DECODE: for a thread that executes from RAM ([ram]) or from ROM; [None] also stands for the use of an opcode the decoder has not assigned *)
Definition Instruction_DECODE (tracing dualIssue ram : bool) (type : NodeType) (junk : Operands)
    (pc : Z) (c : Core) (romCache : State) : option (Core * State) :=
  let k := if ram then ramDecodeCache c else romCache in
  let address := fromPc k pc in
  s ← decodeFromCore type c address (fresh_state junk) false;
  opc ← d_opcode s;
  kc ← getDecodeCacheContaining romCache c address;
  let '(opc, ops) := instructionTransform opc (d_operands s) kc address dualIssue in
  k' ← setOpcodeOperands pc (Inst opc tracing) ops (instruction_size opc) k;
  Some (if ram then (set_ramDecodeCache k' c, romCache) else (c, k')).

(** ** Construction *)

(** lib/Core.cpp:23-49 Core::Core: the memory, the decode cache, the state registers and the decode caches of the threads ([numThreads] of them); [junk] stands for the uninitialised contents of the memory *)
Definition newCore (RamSize RamBase : Z) (tracing : bool) (junk : Z -> Z) (numThreads : nat)
    : option Core :=
  k ← newDecodeCache (Inst DECODE tracing) [] (RamBase .>> 1) RamBase true tracing;
  Some (mkCore (junk <$> (Z.of_nat <$> seq 0 (Z.to_nat RamSize))) k RamBase (RamBase / 2)
    (31 - countLeadingZeros RamSize) (RamBase / RamSize) [] 0 0 ∅ [] ∅ ∅
    (replicate numThreads (mkCacheRef true (base k) (sizeShorts k) (tracingEnabled k)))
    0 0 0 0 (negb tracing)).
