(* ===== verification/CoreFacts.v ===== *)
(** * Invalidation of the decode cache

    Self-modifying code: a store must discard every cached instruction (and
    every compiled fragment) that covers a byte it changes.  The invariant
    [covered] ties the marks of [invalidationInfo] to the extents of the
    live entries; the lemmas follow the loops of [Core::invalidate*] under it,
    and the theorems say that no stale entry survives a store. *)

From stdpp Require Import base list numbers option gmap.
From Stdlib Require Import ZArith Lia.
From S2P Require Import Prelude BitManip Opcode InstrDecode InstrDecodeFacts DecodeCache InstrTransform.
From S2P Require Import Watchpoint Core.

#[local] Open Scope Z_scope.
#[local] Open Scope cbits_scope.

(** ** Views of the cache *)

Abbreviation cache c := (ramDecodeCache c).
Abbreviation size c := (sizeShorts (ramDecodeCache c)).
Definition entry (c : Core) (pc : Z) : option OPCODE_TYPE := array_get (opcode (cache c)) pc.
Definition mark (c : Core) (pc : Z) : option InvalidateInfo :=
  info ← invalidationInfo (cache c); array_get info pc.

(** The shape of a core. *)
Record core_wf (c : Core) : Prop := {
  cw_cache : cache_wf (cache c);
  cw_info : exists info, invalidationInfo (cache c) = Some info;
  cw_log : 2 <= ramSizeLog2 c <= 31;
  cw_size : size c = 2 ^ (ramSizeLog2 c - 1);
  cw_multiple : 0 <= ramBaseMultiple c;
  cw_end : getRamSize c * (ramBaseMultiple c + 1) < 2 ^ 32;
  cw_base : base (cache c) = getRamBase c;
  cw_memoryOffset : memoryOffset c = getRamBase c;
  cw_infoOffset : invalidationInfoOffset c = getRamBase c / 2;
  cw_memory : zlength (memory c) = getRamSize c;
  cw_jit : forall pc f, functionMap c !! pc = Some f -> f = pc
}.

(** Nothing but cache entries, marks, execution frequencies and the list of dead compiled
    functions differs. *)
Record same (c c' : Core) : Prop := {
  same_rest : c' = set_unreachableFunctions (unreachableFunctions c')
                (set_ramDecodeCache (cache c') c);
  same_operands : operands (cache c') = operands (cache c);
  same_size : size c' = size c;
  same_base : base (cache c') = base (cache c);
  same_tracing : tracingEnabled (cache c') = tracingEnabled (cache c);
  same_opcode_length : length (opcode (cache c')) = length (opcode (cache c));
  same_freq_length : length (executionFrequency (cache c')) = length (executionFrequency (cache c));
  same_info_length : forall info, invalidationInfo (cache c) = Some info ->
    exists info', invalidationInfo (cache c') = Some info' /\ length info' = length info
}.

#[export] Instance same_refl : Reflexive same.
Proof. intros c. split; try done; [by destruct c | eauto]. Qed.

#[export] Instance same_trans : Transitive same.
Proof.
  intros c1 c2 c3 H12 H23. destruct H12 as [E12 ? ? ? ? ? ? I12], H23 as [E23 ? ? ? ? ? ? I23].
  split; try congruence.
  - rewrite E23, E12. by destruct c1.
  - intros info Hi. destruct (I12 info Hi) as (info2 & H2 & L2).
    destruct (I23 info2 H2) as (info3 & H3 & L3). exists info3. split; [done | congruence].
Qed.

(** The projections of a core that [same] preserves. *)
Lemma same_fields c c' : same c c' ->
  memory c' = memory c /\ memoryOffset c' = memoryOffset c /\
  invalidationInfoOffset c' = invalidationInfoOffset c /\ ramSizeLog2 c' = ramSizeLog2 c /\
  ramBaseMultiple c' = ramBaseMultiple c /\ rom c' = rom c /\ romBase c' = romBase c /\
  romSize c' = romSize c /\ functionMap c' = functionMap c /\ breakpoints c' = breakpoints c /\
  getRamBase c' = getRamBase c /\ getRamSize c' = getRamSize c.
Proof. intros [E]. rewrite E. by destruct c. Qed.

(** What [same] preserves of the shape, given that the pseudo instructions past the end are
    untouched. *)
Lemma same_wf c c' : core_wf c -> same c c' ->
  (forall j, size c <= j -> entry c' j = entry c j) -> core_wf c'.
Proof.
  intros W S Hj. pose proof (same_fields _ _ S) as F. destruct_and!.
  pose proof (cw_cache _ W) as K. pose proof (wf_size _ K) as Hs.
  destruct (cw_info _ W) as [info Hi].
  destruct (same_info_length _ _ S info Hi) as (info' & Hi' & Hl).
  destruct (pseudo_addresses _ Hs) as (P1 & P2 & P3).
  assert (0 < size c' <= 2 ^ 31) as Hs' by (rewrite (same_size _ _ S); lia).
  destruct (pseudo_addresses _ Hs') as (P1' & P2' & P3').
  split; repeat match goal with H : _ c' = _ c |- _ => rewrite H; clear H end;
    rewrite ?(same_size _ _ S), ?(same_base _ _ S); try by apply W.
  - split; [done | | | | |].
    + rewrite (same_opcode_length _ _ S), (same_size _ _ S). apply K.
    + rewrite (same_operands _ _ S), (same_size _ _ S). apply K.
    + rewrite (same_freq_length _ _ S), (same_size _ _ S). apply K.
    + intros i E. simplify_eq. rewrite (same_size _ _ S), Hl. by apply K.
    + destruct (wf_pseudo _ K) as (t & Q). exists t.
      rewrite P1, P2, P3 in Q. rewrite P1', P2', P3', (same_size _ _ S).
      unfold entry in Hj. rewrite !Hj by lia. exact Q.
  - by exists info'.
Qed.

(** ** The primitive steps *)

(** The half-word number of pc [j]: what the code calls a shifted address. *)
Definition shifted (c : Core) (j : Z) : Z := getRamBase c / 2 + j.

(** Entries [l .. h] and their marks are cleared, and nothing else. *)
Record cleared (l h : Z) (c c' : Core) : Prop := {
  cl_same : same c c';
  cl_entry : forall j, entry c' j =
    if decide (l <= j <= h) then Some (Inst DECODE (tracingEnabled (cache c))) else entry c j;
  cl_mark : forall j, mark c' j =
    if decide (l <= j <= h) then Some INVALIDATE_NONE else mark c j
}.

Section steps.
Context (c : Core) (W : core_wf c).

Lemma ram_base_eq : getRamBase c = getRamSize c * ramBaseMultiple c.
Proof.
  pose proof (cw_end _ W). pose proof (cw_multiple _ W). pose proof (cw_log _ W).
  assert (0 < getRamSize c) by (apply pow2_pos; lia).
  unfold getRamBase. apply wrap_small. unfold fits. nia.
Qed.

Lemma ram_size_shorts : getRamSize c = 2 * size c /\ 0 < size c.
Proof.
  pose proof (cw_log _ W). rewrite (cw_size _ W). unfold getRamSize.
  replace (ramSizeLog2 c) with (1 + (ramSizeLog2 c - 1)) at 1 by lia.
  rewrite Z.pow_add_r by lia. split; [lia | apply pow2_pos; lia].
Qed.

Lemma ram_size_mod4 : getRamSize c mod 4 = 0.
Proof.
  pose proof (cw_log _ W). unfold getRamSize.
  replace (ramSizeLog2 c) with (ramSizeLog2 c - 2 + 2) by lia.
  rewrite Z.pow_add_r by lia. apply Z.mod_mul. lia.
Qed.

Lemma ram_base_half : getRamBase c = 2 * (getRamBase c / 2) /\ 0 <= getRamBase c /\
  getRamBase c + 2 * size c < 2 ^ 32.
Proof.
  destruct ram_size_shorts as [Hs ?]. pose proof ram_size_mod4. pose proof ram_base_eq as Hb.
  pose proof (cw_end _ W). pose proof (cw_multiple _ W).
  assert (getRamBase c = 2 * (size c * ramBaseMultiple c)) as E by lia.
  split; [| split; [nia | lia]]. rewrite E at 2.
  rewrite (Z.mul_comm 2 (_ * _)), Z.div_mul by lia. exact E.
Qed.

Lemma infoGet_mark pc : infoGet c (shifted c pc) = mark c pc.
Proof.
  unfold infoGet, mark, shifted. rewrite (cw_infoOffset _ W).
  by replace (getRamBase c / 2 + pc - getRamBase c / 2) with pc by lia.
Qed.

Lemma mark_is_Some pc : 0 <= pc < size c -> exists m, mark c pc = Some m.
Proof.
  intros Hpc. unfold mark. destruct (cw_info _ W) as [info Hi]. rewrite Hi. cbn.
  apply array_get_is_Some. by rewrite (wf_info _ (cw_cache _ W) _ Hi).
Qed.

Lemma core_clearOpcode_spec pc : 0 <= pc < size c ->
  exists c', core_clearOpcode pc c = Some c' /\ same c c' /\
    (forall j, entry c' j =
      if decide (j = pc) then Some (Inst DECODE (tracingEnabled (cache c))) else entry c j) /\
    forall j, mark c' j = mark c j.
Proof.
  intros Hpc. unfold core_clearOpcode, clearOpcode.
  pose proof (wf_opcode _ (cw_cache _ W)). unfold ILLEGAL_PC_THREAD_ADDR_OFFSET in *.
  array_write (opcode (cache c)) pc (Inst DECODE (tracingEnabled (cache c))) ops E; [lia |].
  apply array_set_spec in E as (_ & L & G).
  eexists. split; [done |]. split; [| split; [exact G | done]].
  split; cbn; try done; first [by destruct c | eauto].
Qed.

Lemma setExecutionFrequency_spec pc v : 0 <= pc < size c ->
  exists c', setExecutionFrequency pc v c = Some c' /\ same c c' /\
    (forall j, entry c' j = entry c j) /\ forall j, mark c' j = mark c j.
Proof.
  intros Hpc. unfold setExecutionFrequency.
  pose proof (wf_frequency _ (cw_cache _ W)).
  array_write (executionFrequency (cache c)) pc v f E; [lia |].
  apply array_set_spec in E as (_ & L & G).
  eexists. split; [done |]. split; [| done].
  split; cbn; try done; first [by destruct c | eauto].
Qed.

Lemma infoSet_spec pc v : 0 <= pc < size c ->
  exists c', infoSet (shifted c pc) v c = Some c' /\ same c c' /\
    (forall j, entry c' j = entry c j) /\
    forall j, mark c' j = if decide (j = pc) then Some v else mark c j.
Proof.
  intros Hpc. unfold infoSet, mark, shifted. rewrite (cw_infoOffset _ W).
  replace (getRamBase c / 2 + pc - getRamBase c / 2) with pc by lia.
  destruct (cw_info _ W) as [info Hi]. pose proof (wf_info _ (cw_cache _ W) _ Hi).
  rewrite Hi. cbn [mbind option_bind].
  array_write info pc v info' E; [lia |].
  apply array_set_spec in E as (_ & L & G).
  eexists. split; [done |]. split; [| split; [done | exact G]].
  split; cbn; try done; try (by destruct c). intros i E. simplify_eq. by exists info'.
Qed.

(** Whether or not a compiled fragment starts at [pc], its entry is cleared. *)
Lemma clear_or_jit pc : 0 <= pc < size c ->
  exists c1 b c', jitInvalidate pc c = Some (c1, b) /\
    (if (b : bool) then Some c1 else core_clearOpcode pc c1) = Some c' /\ same c c' /\
    (forall j, entry c' j =
      if decide (j = pc) then Some (Inst DECODE (tracingEnabled (cache c))) else entry c j) /\
    forall j, mark c' j = mark c j.
Proof.
  intros Hpc. unfold jitInvalidate.
  destruct (core_clearOpcode_spec pc Hpc) as (c1 & E1 & S1 & G1 & M1).
  destruct (functionMap c !! pc) as [f|] eqn:Ef.
  - apply (cw_jit _ W) in Ef as ->. rewrite E1. cbn [mbind option_bind].
    eexists _, true, _. split; [done |]. split; [done |]. split; [| by split].
    destruct S1 as [Er ? ? ? ? ? ? ?]. split; try done. cbn. rewrite Er. by destruct c.
  - exists c, false, c1. auto.
Qed.
End steps.

Lemma invalidateOne_spec c pc : core_wf c -> 0 <= pc < size c ->
  exists c' m, mark c pc = Some m /\ invalidateOne (shifted c pc) c = Some (c', m) /\
    cleared pc pc c c'.
Proof.
  intros W Hpc. unfold invalidateOne. rewrite infoGet_mark by done.
  destruct (mark_is_Some c W pc Hpc) as [m ->]. cbn [mbind option_bind].
  destruct (ram_base_half c W) as (? & ? & ?).
  assert (u32 (shifted c pc - getRamBase c / 2) = pc) as ->
    by (unfold shifted; rewrite wrap_small; [lia | unfold fits; lia]).
  destruct (clear_or_jit c W pc Hpc) as (c0 & b & c1 & E0 & E1 & S1 & G1 & M1).
  rewrite E0. cbn [mbind option_bind]. rewrite E1. cbn [mbind option_bind].
  assert (core_wf c1) as W1.
  { apply (same_wf c); [done.. |]. intros j Hj. rewrite G1, decide_False by lia. done. }
  destruct (setExecutionFrequency_spec c1 W1 pc 0) as (c2 & -> & S2 & G2 & M2);
    [by rewrite (same_size _ _ S1) |]. cbn [mbind option_bind].
  assert (core_wf c2) as W2 by (apply (same_wf c1); [done.. | intros; apply G2]).
  assert (shifted c pc = shifted c2 pc) as ->.
  { unfold shifted. apply same_fields in S1, S2. destruct_and!. congruence. }
  destruct (infoSet_spec c2 W2 pc INVALIDATE_NONE) as (c3 & -> & S3 & G3 & M3);
    [by rewrite (same_size _ _ S2), (same_size _ _ S1) |]. cbn [mbind option_bind].
  exists c3, m. split; [done |]. split; [done |]. split.
  - by do 2 (etrans; [done |]).
  - intros j. rewrite G3, G2, G1. repeat case_decide; try done; lia.
  - intros j. rewrite M3, M2, M1. repeat case_decide; try done; lia.
Qed.

Lemma cleared_wf l h c c' : core_wf c -> cleared l h c c' -> h < size c -> core_wf c'.
Proof.
  intros W [S G _] Hh. apply (same_wf c); [done.. |].
  intros j Hj. rewrite G, decide_False by lia. done.
Qed.

Lemma cleared_app l m h c c1 c' :
  l <= m -> m - 1 <= h -> cleared m h c c1 -> cleared l (m - 1) c1 c' -> cleared l h c c'.
Proof.
  intros ? ? [S1 G1 M1] [S2 G2 M2]. split.
  - by etrans.
  - intros j. rewrite G2, G1, (same_tracing _ _ S1). repeat case_decide; try done; lia.
  - intros j. rewrite M2, M1. repeat case_decide; try done; lia.
Qed.

(** ** The loop of [invalidateSlowPath] *)

Lemma shifted_same c c' j : same c c' -> shifted c' j = shifted c j.
Proof. intros S%same_fields. destruct_and!. unfold shifted. congruence. Qed.

Lemma shifted_pred c j : core_wf c -> 0 < j < size c -> u32 (shifted c j - 1) = shifted c (j - 1).
Proof.
  intros W ?. destruct (ram_base_half c W) as (? & ? & ?). unfold shifted.
  rewrite wrap_small; [lia | unfold fits; lia].
Qed.

(** The loop clears a run of half-words that ends at [h] and starts at the first one that is
    not marked as continuing an instruction; it stays in the array. *)
Lemma invalidateLoop_spec fuel c h :
  core_wf c -> mark c 0 <> Some INVALIDATE_CURRENT_AND_PREVIOUS ->
  0 <= h < size c -> h < Z.of_nat fuel ->
  exists c' l, invalidateLoop fuel (shifted c h) c = Some c' /\ 0 <= l <= h /\ cleared l h c c' /\
    mark c l <> Some INVALIDATE_CURRENT_AND_PREVIOUS /\
    forall j, l < j <= h -> mark c j = Some INVALIDATE_CURRENT_AND_PREVIOUS.
Proof.
  revert c h. induction fuel as [|fuel IH]; intros c h W H0 Hh Hf; [lia |]. cbn [invalidateLoop].
  destruct (invalidateOne_spec c h W Hh) as (c1 & m & Hm & -> & C1). cbn [mbind option_bind].
  case_bool_decide as Em.
  - subst m. assert (h <> 0) by (intros ->; congruence).
    rewrite shifted_pred, <- (shifted_same _ _ _ (cl_same _ _ _ _ C1)) by (done || lia).
    assert (forall j, j < h -> mark c1 j = mark c j) as M1
      by (intros; rewrite (cl_mark _ _ _ _ C1), decide_False by lia; done).
    destruct (IH c1 (h - 1)) as (c' & l & -> & Hl & C' & Hst & Hcap).
    + apply (cleared_wf h h c); (done || lia).
    + by rewrite M1 by lia.
    + rewrite (same_size _ _ (cl_same _ _ _ _ C1)). lia.
    + lia.
    + exists c', l. split; [done |]. split; [lia |].
      split; [by apply (cleared_app l h h c c1); [lia.. | |] |].
      rewrite <- M1 by lia. split; [done |]. intros j Hj.
      destruct (decide (j = h)) as [->|]; [done |]. rewrite <- M1 by lia. apply Hcap. lia.
  - exists c1, h. split; [done |]. split; [lia |]. split; [done |].
    split; [congruence | lia].
Qed.

(** ** Extents of the live entries *)

Definition is_decode (e : OPCODE_TYPE) : bool :=
  match e with Inst DECODE _ => true | _ => false end.

(** The entry at [pc] holds something other than the decode stub. *)
Definition live (c : Core) (pc : Z) (e : OPCODE_TYPE) : Prop :=
  0 <= pc < size c /\ entry c pc = Some e /\ is_decode e = false.

(** [ext pc] is the number of half-words covered by the entry at [pc].  The half-words a live
    entry covers are marked: the first one, and the others as continuing an instruction. *)
Definition covered (ext : Z -> Z) (c : Core) : Prop :=
  mark c 0 <> Some INVALIDATE_CURRENT_AND_PREVIOUS /\
  forall pc e, live c pc e ->
    1 <= ext pc /\ pc + ext pc <= size c /\ mark c pc <> Some INVALIDATE_NONE /\
    forall j, pc < j < pc + ext pc -> mark c j = Some INVALIDATE_CURRENT_AND_PREVIOUS.

(** The outcome of an invalidation of half-words [a .. b]: no live entry covers them, and the
    entries that are still live are unchanged. *)
Record discards (ext : Z -> Z) (a b : Z) (c c' : Core) : Prop := {
  di_wf : core_wf c';
  di_same : same c c';
  di_covered : covered ext c';
  di_live : forall pc e, live c' pc e -> live c pc e;
  di_gone : forall pc e, live c' pc e -> ~ (pc <= b /\ a < pc + ext pc)
}.

Lemma discards_trans ext a b b' c c1 c' :
  discards ext a b c c1 -> discards ext (b + 1) b' c1 c' -> discards ext a b' c c'.
Proof.
  intros [W1 S1 K1 L1 G1] [W2 S2 K2 L2 G2]. split; [done | by etrans | done | auto |].
  intros pc e Hl Hc. pose proof (G1 pc e (L2 _ _ Hl)) as N1. pose proof (G2 pc e Hl) as N2.
  destruct K2 as [_ K2]. specialize (K2 pc e Hl). lia.
Qed.

Lemma discards_none ext a b c : a <= b -> core_wf c -> covered ext c ->
  (forall j, a <= j <= b -> mark c j = Some INVALIDATE_NONE) -> discards ext a b c c.
Proof.
  intros Hab W K Hn. split; try done. intros pc e Hl [Hb Ha]. destruct K as [_ K].
  destruct (K pc e Hl) as (? & ? & Hm & Hc).
  destruct (Z.le_gt_cases a pc).
  - apply Hm, Hn. lia.
  - assert (mark c a = Some INVALIDATE_CURRENT_AND_PREVIOUS) by (apply Hc; lia).
    assert (mark c a = Some INVALIDATE_NONE) by (apply Hn; lia). congruence.
Qed.

(** Clearing a maximal run keeps the invariant and discards what covers its end. *)
Lemma cleared_discards ext l h c c' : core_wf c -> covered ext c -> 0 <= l <= h -> h < size c ->
  cleared l h c c' -> mark c l <> Some INVALIDATE_CURRENT_AND_PREVIOUS ->
  discards ext l h c c'.
Proof.
  intros W [H0 K] Hl Hh C Hst. pose proof (cl_same _ _ _ _ C) as S.
  assert (forall pc e, live c' pc e -> live c pc e /\ ~ (l <= pc <= h)) as L.
  { intros pc e (Hpc & He & Hd). rewrite (cl_entry _ _ _ _ C) in He.
    rewrite (same_size _ _ S) in Hpc. case_decide; [by simplify_eq | done]. }
  assert (forall pc e, live c' pc e -> ~ (pc <= h /\ l < pc + ext pc)) as G.
  { intros pc e Hlv [? ?]. destruct (L pc e Hlv) as [Hlc ?].
    destruct (K pc e Hlc) as (_ & _ & _ & Hc). apply Hst, Hc. lia. }
  split; [by apply (cleared_wf l h c) | done | | intros; by apply L | done].
  split.
  - rewrite (cl_mark _ _ _ _ C). by case_decide.
  - intros pc e Hlv. specialize (G pc e Hlv). destruct (L pc e Hlv) as [Hlc ?].
    destruct (K pc e Hlc) as (? & ? & ? & Hc). rewrite (same_size _ _ S).
    split; [done |]. split; [done |]. rewrite (cl_mark _ _ _ _ C). rewrite decide_False by lia.
    split; [done |]. intros j Hj. rewrite (cl_mark _ _ _ _ C), decide_False by lia. by apply Hc.
Qed.

Lemma discards_sub ext a b a' b' c c' : a <= a' -> b' <= b ->
  discards ext a b c c' -> discards ext a' b' c c'.
Proof.
  intros ? ? [? ? ? ? G]. split; try done. intros pc e Hl ?. apply (G pc e Hl). lia.
Qed.

(** ** The invalidation operations *)

Section invalidate.
Context (ext : Z -> Z) (c : Core) (W : core_wf c) (K : covered ext c).

Lemma invalidateSlowPath_spec h : 0 <= h < size c ->
  exists c' l, invalidateSlowPath (shifted c h) c = Some c' /\ 0 <= l <= h /\
    cleared l h c c' /\ discards ext l h c c'.
Proof.
  intros Hh. unfold invalidateSlowPath.
  destruct (invalidateLoop_spec (Z.to_nat (size c)) c h) as (c' & l & -> & Hl & C & Hst & _);
    [done | apply K | done | lia |].
  exists c', l. split; [done |]. split; [done |]. split; [done |].
  apply cleared_discards; done || lia.
Qed.

Lemma invalidateByte_spec address h : 0 <= h < size c -> address .>> 1 = shifted c h ->
  exists c' b, invalidateByte address c = Some (c', b) /\ discards ext h h c c'.
Proof.
  intros Hh Ha. unfold invalidateByte, invalidateByteCheck. rewrite Ha, infoGet_mark by done.
  destruct (mark_is_Some c W h Hh) as [m Hm]. rewrite Hm. cbn [mbind option_bind].
  case_bool_decide; cbn [negb].
  - exists c, false. split; [done |]. subst m.
    apply discards_none; try done. intros j Hj. by replace j with h by lia.
  - destruct (invalidateSlowPath_spec h Hh) as (c' & l & -> & Hl & _ & D).
    exists c', true. split; [done |]. apply (discards_sub ext l h); done || lia.
Qed.

Lemma invalidateShort_eq address : invalidateShort address c = invalidateByte address c.
Proof. done. Qed.
End invalidate.

(** Marking a marked half-word as continuing an instruction keeps the invariant. *)
Lemma infoSet_covered ext c h c' : core_wf c -> covered ext c -> 0 < h < size c ->
  mark c h <> Some INVALIDATE_NONE ->
  infoSet (shifted c h) INVALIDATE_CURRENT_AND_PREVIOUS c = Some c' ->
  core_wf c' /\ covered ext c' /\ same c c' /\
  (forall j, entry c' j = entry c j) /\
  mark c' h = Some INVALIDATE_CURRENT_AND_PREVIOUS.
Proof.
  intros W [H0 K] Hh Hm E.
  destruct (infoSet_spec c W h INVALIDATE_CURRENT_AND_PREVIOUS) as (c1 & E1 & S & G & M); [lia |].
  simplify_eq. split; [| split; [| split; [done |]]].
  - apply (same_wf c); [done.. | intros; apply G].
  - split; [rewrite M, decide_False by lia; done |].
    intros pc e (Hpc & He & Hd). rewrite G in He. rewrite (same_size _ _ S) in Hpc |- *.
    destruct (K pc e) as (? & ? & Hp & Hc); [done |].
    split; [done |]. split; [done |]. rewrite M. split; [by case_decide |].
    intros j Hj. rewrite M. case_decide; [done | by apply Hc].
  - split; [done |]. by rewrite M, decide_True.
Qed.

Lemma live_same_entries c c' pc e : same c c' -> (forall j, entry c' j = entry c j) ->
  live c' pc e <-> live c pc e.
Proof. intros S G. unfold live. by rewrite (same_size _ _ S), G. Qed.

(** [invalidateWord] at the half-words [h] and [h + 1]. *)
Lemma invalidateWord_spec ext c address h : core_wf c -> covered ext c ->
  0 <= h -> h + 1 < size c -> address .>> 1 = shifted c h ->
  exists c' b, invalidateWord address c = Some (c', b) /\ discards ext h (h + 1) c c'.
Proof.
  intros W K Hh Hs Ha. unfold invalidateWord, invalidateWordCheck. rewrite Ha.
  destruct (ram_base_half c W) as (? & ? & ?).
  replace (shifted c h + 1) with (shifted c (h + 1)) by (unfold shifted; lia).
  rewrite !infoGet_mark by done.
  destruct (mark_is_Some c W h) as [m0 M0]; [lia |].
  destruct (mark_is_Some c W (h + 1)) as [m1 M1]; [lia |].
  rewrite M0, M1. cbn [mbind option_bind].
  assert (u32 (shifted c h + 1) = shifted c (h + 1)) as E1
    by (unfold shifted; rewrite wrap_small; [lia | unfold fits; lia]).
  destruct (negb _) eqn:Eb.
  - unfold invalidateWordSlowPath. rewrite E1, infoGet_mark, M1 by done. cbn [mbind option_bind].
    destruct (decide (m1 = INVALIDATE_NONE)) as [En|En];
      [rewrite bool_decide_eq_true_2 by done | rewrite bool_decide_eq_false_2 by done].
    + destruct (invalidateSlowPath_spec ext c W K h) as (c' & l & -> & Hl & C & D); [lia |].
      exists c', true. split; [done |]. apply (discards_sub ext l (h + 1)); [lia.. |].
      apply (discards_trans ext l h _ c c'); [done |]. apply discards_none; [lia | apply D.. |].
      intros j Hj. replace j with (h + 1) by lia.
      by rewrite (cl_mark _ _ _ _ C), decide_False, M1, En by lia.
    + destruct (infoSet_spec c W (h + 1) INVALIDATE_CURRENT_AND_PREVIOUS) as (c1 & Ei & _); [lia |].
      rewrite Ei. cbn [mbind option_bind].
      destruct (infoSet_covered ext c (h + 1) c1) as (W1 & K1 & S1 & G1 & Mc);
        [done.. | lia | congruence | done |].
      rewrite <- (shifted_same c c1) by done. unfold invalidateSlowPath.
      destruct (invalidateLoop_spec (Z.to_nat (size c1)) c1 (h + 1))
        as (c' & l & -> & Hl & C & Hst & Hc);
        [done | apply K1 | rewrite (same_size _ _ S1); lia.. |].
      assert (l <> h + 1) by (intros ->; by apply Hst).
      exists c', true. split; [done |]. apply (discards_sub ext l (h + 1)); [lia.. |].
      destruct (cleared_discards ext l (h + 1) c1 c') as [? Sd ? Ld ?];
        [done | done | lia | rewrite (same_size _ _ S1); lia | done.. |].
      split; [done | by etrans | done | | done].
      intros pc e Hl'. by apply (live_same_entries c c1), Ld.
  - exists c, false. split; [done |]. apply negb_false_iff, andb_true_iff in Eb as [E0 E2].
    apply bool_decide_eq_true in E0, E2. subst.
    apply discards_none; [lia | done.. |]. intros j Hj.
    destruct (decide (j = h)) as [->|]; [done | by replace j with (h + 1) by lia].
Qed.

(** ** Ranges of bytes *)

(** After the bytes [a .. b - 1] have been invalidated, no live entry covers any of them. *)
Record flushed (ext : Z -> Z) (a b : Z) (c c' : Core) : Prop := {
  fl_wf : core_wf c';
  fl_same : same c c';
  fl_covered : covered ext c';
  fl_live : forall pc e, live c' pc e -> live c pc e;
  fl_gone : forall pc e x, live c' pc e -> a <= x < b ->
    ~ (2 * pc <= x - getRamBase c < 2 * (pc + ext pc))
}.

Lemma flushed_refl ext a c : core_wf c -> covered ext c -> flushed ext a a c c.
Proof. intros. split; try done. lia. Qed.

Lemma flushed_trans ext a b b' c c1 c' :
  flushed ext a b c c1 -> flushed ext b b' c1 c' -> flushed ext a b' c c'.
Proof.
  intros [W1 S1 K1 L1 G1] [W2 S2 K2 L2 G2]. split; [done | by etrans | done | auto |].
  intros pc e x Hl Hx. apply same_fields in S1. destruct_and!.
  assert (getRamBase c1 = getRamBase c) as E by done.
  destruct (Z.lt_ge_cases x b); [apply (G1 pc e); [auto | lia] |].
  rewrite <- E. apply (G2 pc e); [done | lia].
Qed.

Lemma discards_flushed ext h1 h2 a b c c' :
  getRamBase c + 2 * h1 <= a -> b <= getRamBase c + 2 * (h2 + 1) ->
  discards ext h1 h2 c c' -> flushed ext a b c c'.
Proof.
  intros Ha Hb [W S K L G]. split; try done.
  intros pc e x Hl Hx Hc. apply (G pc e Hl). lia.
Qed.

(** The half-word of a byte of the RAM. *)
Lemma shift_address c a : core_wf c -> 0 <= a - getRamBase c < 2 * size c ->
  a .>> 1 = shifted c ((a - getRamBase c) / 2) /\
  0 <= (a - getRamBase c) / 2 < size c /\
  getRamBase c + 2 * ((a - getRamBase c) / 2) <= a < getRamBase c + 2 * ((a - getRamBase c) / 2) + 2.
Proof.
  intros W Ha. destruct (ram_base_half c W) as (? & ? & ?). unfold shifted.
  rewrite Z.shiftr_div_pow2 by lia. change (2 ^ 1) with 2.
  Z.div_mod_to_equations. lia.
Qed.

Lemma invalidateByte_flushed ext c a : core_wf c -> covered ext c ->
  getRamBase c <= a < getRamBase c + 2 * size c ->
  exists c' b, invalidateByte a c = Some (c', b) /\ flushed ext a (a + 1) c c'.
Proof.
  intros W K Ha. destruct (shift_address c a) as (E & ? & ?); [done | lia |].
  destruct (invalidateByte_spec ext c W K a ((a - getRamBase c) / 2)) as (c' & b & -> & D);
    [done.. |].
  exists c', b. split; [done |]. by eapply discards_flushed; [| | done]; lia.
Qed.

(** An even address: the two bytes of one half-word. *)
Lemma invalidateShort_flushed ext c a : core_wf c -> covered ext c -> Z.even a = true ->
  getRamBase c <= a < getRamBase c + 2 * size c ->
  exists c' b, invalidateShort a c = Some (c', b) /\ flushed ext a (a + 2) c c'.
Proof.
  intros W K [m Hm]%Z.even_spec Ha. rewrite invalidateShort_eq.
  destruct (shift_address c a) as (E & ? & ?); [done | lia |].
  destruct (ram_base_half c W) as (? & _).
  destruct (invalidateByte_spec ext c W K a ((a - getRamBase c) / 2)) as (c' & b & -> & D);
    [done.. |].
  exists c', b. split; [done |]. by eapply discards_flushed; [| | done]; lia.
Qed.

Lemma invalidateWord_flushed ext c a : core_wf c -> covered ext c -> Z.even a = true ->
  getRamBase c <= a -> a + 4 <= getRamBase c + 2 * size c ->
  exists c' b, invalidateWord a c = Some (c', b) /\ flushed ext a (a + 4) c c'.
Proof.
  intros W K [m Hm]%Z.even_spec Ha Hb.
  destruct (shift_address c a) as (E & ? & ?); [done | lia |].
  destruct (ram_base_half c W) as (? & _).
  destruct (invalidateWord_spec ext c a ((a - getRamBase c) / 2)) as (c' & b & -> & D);
    [done | done | lia | lia | done |].
  exists c', b. split; [done |]. by eapply discards_flushed; [| | done]; lia.
Qed.

(** The loops of [invalidateRange]: as long as the body flushes the bytes it steps over. *)
Section loop.
Context (ext : Z -> Z) (cond : Z -> bool) (step B R end_ : Z) (I : Z -> Prop).
Context (body : Z -> Core -> option (Core * bool)).
Context (Hstep : 0 < step) (Hend : end_ < 2 ^ 32).
Context (Hcond : forall a, 0 <= a < 2 ^ 32 -> I a -> cond a = true -> a + step <= end_ /\ I (a + step)).
Context (Hbody : forall a c, core_wf c -> covered ext c -> size c = B /\ getRamBase c = R -> I a -> cond a = true ->
  0 <= a < 2 ^ 32 -> exists c' b, body a c = Some (c', b) /\ flushed ext a (a + step) c c').

Lemma invalidateFor_spec fuel a inv c :
  core_wf c -> covered ext c -> size c = B /\ getRamBase c = R -> I a -> 0 <= a < 2 ^ 32 -> end_ - a <= Z.of_nat fuel ->
  exists c' a' inv', invalidateFor fuel cond step body a inv c = Some (c', a', inv') /\
    a <= a' < 2 ^ 32 /\ (a' = a \/ a' <= end_) /\ I a' /\ cond a' = false /\ flushed ext a a' c c'.
Proof.
  revert a inv c. induction fuel as [|fuel IH]; intros a inv c W K Hs HI Ha Hf;
    cbn [invalidateFor]; destruct (cond a) eqn:Ec.
  - destruct (Hcond a Ha HI Ec). lia.
  - eexists _, a, _. split; [done |]. split; [lia |]. split; [by left |].
    split; [done |]. split; [done |]. by apply flushed_refl.
  - destruct (Hcond a Ha HI Ec) as [Hle HI'].
    destruct (Hbody a c W K Hs HI Ec Ha) as (c1 & b & -> & F1). cbn [mbind option_bind].
    rewrite wrap_small by (unfold fits; lia).
    destruct (IH (a + step) (inv || b) c1) as (c' & a' & inv' & -> & ? & ? & ? & ? & F2);
      [apply F1 | apply F1 | | done | lia | lia |].
    { pose proof (fl_same _ _ _ _ _ F1) as S. rewrite (same_size _ _ S).
      apply same_fields in S. destruct_and!. split; congruence. }
    eexists _, a', _. split; [done |]. split; [lia |]. split; [right; lia |].
    split; [done |]. split; [done |]. by apply (flushed_trans ext a (a + step) a' c c1).
  - eexists _, a, _. split; [done |]. split; [lia |]. split; [by left |].
    split; [done |]. split; [done |]. by apply flushed_refl.
Qed.
End loop.

Lemma flushed_sub ext a b a' b' c c' : a <= a' -> b' <= b ->
  flushed ext a b c c' -> flushed ext a' b' c c'.
Proof.
  intros ? ? [? ? ? ? G]. split; try done. intros pc e x Hl ?. apply (G pc e x Hl). lia.
Qed.

Lemma same_place c c' B R : same c c' -> size c = B /\ getRamBase c = R ->
  size c' = B /\ getRamBase c' = R.
Proof.
  intros S [<- <-]. rewrite (same_size _ _ S). apply same_fields in S. destruct_and!. done.
Qed.

Lemma ram_end_bound c : core_wf c -> getRamBase c + 2 * size c <= 2 ^ 32 - 4.
Proof.
  intros W. destruct (ram_size_shorts c W) as [Hs ?]. pose proof (ram_size_mod4 c W).
  pose proof (cw_end c W). rewrite (ram_base_eq c W), <- Hs.
  assert ((getRamSize c * ramBaseMultiple c + getRamSize c) mod 4 = 0).
  { replace (getRamSize c * ramBaseMultiple c + getRamSize c)
      with ((ramBaseMultiple c + 1) * getRamSize c) by lia.
    rewrite Z.mul_mod by lia. rewrite H0. by rewrite Z.mul_0_r. }
  Z.div_mod_to_equations. lia.
Qed.

Section ranges.
Context (ext : Z -> Z) (c : Core) (W : core_wf c) (K : covered ext c).

Lemma invalidateRange_flushed begin end_ :
  getRamBase c <= begin -> begin <= end_ -> end_ <= getRamBase c + 2 * size c ->
  exists c' b, invalidateRange begin end_ c = Some (c', b) /\ flushed ext begin end_ c c'.
Proof.
  intros Hb Hbe He. unfold invalidateRange. cbv zeta.
  destruct (ram_base_half c W) as (_ & ? & _). pose proof (ram_end_bound c W).
  set (B := size c) in *. set (R := getRamBase c) in *.
  assert (size c = B /\ getRamBase c = R) as P by done.
  destruct (invalidateFor_spec ext (fun a => negb (a mod 4 =? 0) && (a <? end_)) 1 B R end_
    (fun a => begin <= a) invalidateByte) with (fuel := Z.to_nat (end_ - begin)) (a := begin)
    (inv := false) (c := c) as (c1 & a1 & i1 & -> & ? & ? & ? & C1 & F1); try done; try lia.
  { intros a c0 W0 K0 [? ?] ? [_ ?%Z.ltb_lt]%andb_true_iff _.
    apply invalidateByte_flushed; done || lia. }
  cbn [mbind option_bind].
  assert (a1 mod 4 = 0 \/ end_ <= a1) as Ha1.
  { apply andb_false_iff in C1 as [?%negb_false_iff%Z.eqb_eq | ?%Z.ltb_ge]; lia. }
  destruct (invalidateFor_spec ext (fun a => u32 (a + 3) <? end_) 4 B R end_
    (fun a => begin <= a <= end_ /\ (a mod 4 = 0 \/ end_ <= a)) invalidateWord)
    with (fuel := Z.to_nat (end_ - begin)) (a := a1) (inv := i1) (c := c1)
    as (c2 & a2 & i2 & -> & ? & ? & ? & C2 & F2); try done; try lia.
  { intros a ? ? ?%Z.ltb_lt. rewrite wrap_small in * by (unfold fits; lia).
    split; [lia |]. split; [lia |]. left. Z.div_mod_to_equations. lia. }
  { intros a c0 W0 K0 [? ?] ? Hc ?. apply Z.ltb_lt in Hc.
    rewrite wrap_small in Hc by (unfold fits; lia).
    apply invalidateWord_flushed; try done; try lia.
    apply Z.even_spec. exists (2 * (a / 4)). Z.div_mod_to_equations. lia. }
  { apply F1. } { apply F1. } { apply (same_place c); [apply F1 | done]. }
  cbn [mbind option_bind].
  destruct (invalidateFor_spec ext (fun a => a <? end_) 1 B R end_
    (fun a => begin <= a) invalidateByte) with (fuel := Z.to_nat (end_ - begin)) (a := a2)
    (inv := i2) (c := c2) as (c3 & a3 & i3 & -> & ? & ? & ? & C3 & F3); try done; try lia.
  { intros a c0 W0 K0 [? ?] ? ?%Z.ltb_lt _. apply invalidateByte_flushed; done || lia. }
  { apply F2. } { apply F2. }
  { apply (same_place c1); [apply F2 |]. apply (same_place c); [apply F1 | done]. }
  cbn [mbind option_bind]. apply Z.ltb_ge in C3.
  exists c3, i3. split; [done |]. apply (flushed_sub ext begin a3); [lia.. |].
  apply (flushed_trans ext begin a2 a3 c c2); [| done].
  by apply (flushed_trans ext begin a1 a2 c c1).
Qed.

Lemma resetCaches_flushed :
  exists c', resetCaches c = Some c' /\
    flushed ext (getRamBase c) (getRamBase c + 2 * size c) c c'.
Proof.
  unfold resetCaches. cbv zeta. fold (getRamSize c).
  destruct (ram_size_shorts c W) as [Hs ?]. destruct (ram_base_half c W) as (_ & ? & ?).
  pose proof (ram_end_bound c W). pose proof (ram_size_mod4 c W).
  rewrite Hs in *. rewrite wrap_small by (unfold fits; lia).
  set (B := size c) in *. set (R := getRamBase c) in *.
  destruct (invalidateFor_spec ext (fun a => a <? R + 2 * B) 4 B R (R + 2 * B)
    (fun a => R <= a /\ exists m, a = R + 4 * m) invalidateWord)
    with (fuel := Z.to_nat (2 * B)) (a := R) (inv := false) (c := c)
    as (c1 & a1 & i1 & -> & ? & ? & [? [m Hm]] & C1 & F1); try done; try lia.
  { intros a ? [? [m Hm]] ?%Z.ltb_lt. split.
    - Z.div_mod_to_equations. lia.
    - split; [lia |]. exists (m + 1). lia. }
  { intros a c0 W0 K0 [? ER] [? [m Hm]] ?%Z.ltb_lt ?.
    destruct (ram_base_half c0 W0) as (Hh & _). pose proof (ram_size_mod4 c0 W0).
    apply invalidateWord_flushed; try done; try lia.
    - apply Z.even_spec. exists (getRamBase c0 / 2 + 2 * m). lia.
    - Z.div_mod_to_equations. lia. }
  { split; [lia |]. exists 0. lia. }
  cbn [mbind option_bind]. apply Z.ltb_ge in C1.
  exists c1. split; [done |]. by apply (flushed_sub ext R a1); [lia.. |].
Qed.
End ranges.

(** ** A new core *)

(** With the RAM placed at an address equal to its size, a new core is well formed and has
    nothing to invalidate. *)
Lemma newCore_wf log tracing junk n : 2 <= log <= 30 ->
  exists c, newCore (2 ^ log) (2 ^ log) tracing junk n = Some c /\ core_wf c /\
    ramSizeLog2 c = log /\ ramBaseMultiple c = 1 /\
    (forall ext, covered ext c) /\ (forall pc e, ~ live c pc e) /\
    memory c = junk <$> (Z.of_nat <$> seq 0 (Z.to_nat (2 ^ log))) /\
    breakpoints c = ∅ /\
    forall pc, 0 <= pc < size c ->
      entry c pc = Some (Inst DECODE tracing) /\ mark c pc = Some INVALIDATE_NONE.
Proof.
  intros Hl. assert (0 < 2 ^ log) by (apply pow2_pos; lia).
  assert (2 ^ log = 2 * 2 ^ (log - 1)) as E2.
  { replace log with (1 + (log - 1)) at 1 by lia. rewrite Z.pow_add_r; lia. }
  assert (2 ^ log <= 2 ^ 30) by (apply Z.pow_le_mono_r; lia).
  assert (2 ^ log .>> 1 = 2 ^ (log - 1)) as Hs
    by (rewrite Z.shiftr_div_pow2, E2, Z.mul_comm by lia; apply Z.div_mul; lia).
  assert (31 - countLeadingZeros (2 ^ log) = log) as Hlog
    by (rewrite countLeadingZeros_pos, Z.log2_pow2 by lia; lia).
  unfold newCore, newDecodeCache. rewrite Hs, Hlog, Z.div_same by lia.
  match goal with |- context [initCache ?k0] => set (k := k0) end.
  destruct (initCache_spec k) as (ops & -> & L & Hdec & Hp);
    [cbn; lia | cbn; rewrite length_replicate; unfold ILLEGAL_PC_THREAD_ADDR_OFFSET; lia |].
  cbn [mbind option_bind]. eexists. split; [done |].
  split; [| split; [done |]].
  - split; cbn; try lia.
    + split; cbn; try lia; rewrite ?length_replicate; try lia.
      * rewrite L. cbn. rewrite length_replicate. unfold ILLEGAL_PC_THREAD_ADDR_OFFSET. lia.
      * intros info [= <-]. rewrite length_replicate. lia.
      * by exists tracing.
    + by eexists.
    + unfold getRamSize. cbn. lia.
    + unfold getRamBase, getRamSize. cbn [ramSizeLog2 ramBaseMultiple].
      rewrite wrap_small; [lia | unfold fits; lia].
    + unfold getRamBase, getRamSize. cbn [ramSizeLog2 ramBaseMultiple].
      rewrite wrap_small; [lia | unfold fits; lia].
    + unfold getRamBase, getRamSize. cbn [ramSizeLog2 ramBaseMultiple].
      rewrite wrap_small; [f_equal; lia | unfold fits; lia].
    + unfold getRamSize. cbn. rewrite !length_fmap, length_seq. lia.
    + intros pc f Hf. by rewrite lookup_empty in Hf.
  - split; [done |].
    match goal with |- (forall ext, covered ext ?c0) /\ _ => set (c1 := c0) end.
    assert (forall pc, 0 <= pc < size c1 ->
      entry c1 pc = Some (Inst DECODE tracing) /\ mark c1 pc = Some INVALIDATE_NONE) as EM.
    { intros pc Hpc. split; [by apply Hdec |].
      change (array_get (replicate (Z.to_nat (2 ^ (log - 1))) INVALIDATE_NONE) pc
        = Some INVALIDATE_NONE). apply array_get_replicate. cbn in Hpc. lia. }
    assert (forall pc e, ~ live c1 pc e) as NL.
    { intros pc e (Hpc & He & Hd). destruct (EM pc Hpc). by simplify_eq. }
    split; [| done]. intros ext. split; [| intros pc e Hlv; by destruct (NL pc e)].
    destruct (EM 0) as [_ ->]; [cbn; lia | done].
Qed.
