(* ===== verification/MemoryAccess.v ===== *)
(** * Loads and stores of the interpreter

    The code that the generator emits for [%load_*] and [%store_*] in an
    instruction ([FunctionCodeEmitter::emitStore] and
    [emitLoad]), outside the JIT: address checks, the access itself, the
    invalidation of cached instructions, and the watchpoint test. *)

From stdpp Require Import base list numbers option gmap.
From Stdlib Require Import ZArith Lia.
From S2P Require Import Prelude BitManip Opcode InstrDecode DecodeCache Watchpoint Core CoreFacts.

#[local] Open Scope Z_scope.
#[local] Open Scope cbits_scope.

(** utils/instgen/InstructionGen.cpp:519-523 LoadStoreType *)
Inductive LoadStoreType := WORD | SHORT | BYTE.

(** utils/instgen/InstructionGen.cpp:928-942 getLoadStoreSize *)
Definition getLoadStoreSize (type : LoadStoreType) : Z :=
  match type with WORD => 4 | SHORT => 2 | BYTE => 1 end.

(** lib/InstructionMacrosCommon.h:21-23 CHECK_ADDR_RAM_BYTE *)
Definition CHECK_ADDR_RAM (type : LoadStoreType) (c : Core) (addr : Z) : bool :=
  match type with
  | BYTE => isValidRamAddress c addr
  | SHORT => (addr .& 1 =? 0) && isValidRamAddress c addr
  | WORD => (addr .& 3 =? 0) && isValidRamAddress c addr
  end.

(** lib/InstructionMacrosCommon.h:24-28 CHECK_ADDR_ROM *)
Definition CHECK_ADDR_ROM (type : LoadStoreType) (c : Core) (addr : Z) : bool :=
  let inRom := u32 (addr - romBase c) <? romSize c in
  match type with
  | BYTE => inRom
  | SHORT => (addr .& 1 =? 0) && inRom
  | WORD => (addr .& 3 =? 0) && inRom
  end.

(** lib/InstructionMacrosCommon.h:18-20 STORE_WORD *)
Definition STORE (type : LoadStoreType) (value addr : Z) (c : Core) : option Core :=
  match type with
  | WORD => storeWord value addr c
  | SHORT => storeShort value addr c
  | BYTE => storeByte value addr c
  end.

(** lib/InstructionMacrosCommon.h:15-17 INVALIDATE_WORD *)
Definition INVALIDATE (type : LoadStoreType) (addr : Z) (c : Core) : option (Core * bool) :=
  match type with
  | WORD => invalidateWord addr c
  | SHORT => invalidateShort addr c
  | BYTE => invalidateByte addr c
  end.

(** lib/InstructionMacrosCommon.h:9-11 LOAD_RAM_WORD *)
Definition LOAD_RAM (type : LoadStoreType) (c : Core) (addr : Z) : option Z :=
  match type with
  | WORD => loadRamWord c addr
  | SHORT => loadRamShort c addr
  | BYTE => loadRamByte c addr
  end.

(** lib/InstructionMacrosCommon.h:12-14 LOAD_ROM_WORD *)
Definition LOAD_ROM (type : LoadStoreType) (c : Core) (addr : Z) : option Z :=
  match type with
  | WORD => loadRomWord c addr
  | SHORT => loadRomShort c addr
  | BYTE => loadRomByte c addr
  end.

(** The outcome of a store: the exception [ET_LOAD_STORE], or the new core, whether the
    trace ends because instructions were discarded, and whether a watchpoint was hit. *)
Inductive StoreResult :=
  | StoreException
  | Stored (c : Core) (endTrace watchpointHit : bool).

(** utils/instgen/InstructionGen.cpp:944-986 emitStore *)
Definition exec_store (type : LoadStoreType) (value addr : Z) (c : Core) : option StoreResult :=
  if negb (CHECK_ADDR_RAM type c addr) then Some StoreException
  else
    c ← STORE type value addr c;
    '(c, endTrace) ← INVALIDATE type addr c;
    Some (Stored c endTrace (hitWatchpoint WRITE addr (getLoadStoreSize type) c)).

Inductive LoadResult :=
  | LoadException
  | Loaded (value : Z) (watchpointHit : bool).

(** utils/instgen/InstructionGen.cpp:988-1034 emitLoad *)
Definition exec_load (type : LoadStoreType) (addr : Z) (c : Core) : option LoadResult :=
  let hit := hitWatchpoint READ addr (getLoadStoreSize type) c in
  if CHECK_ADDR_RAM type c addr then v ← LOAD_RAM type c addr; Some (Loaded v hit)
  else if CHECK_ADDR_ROM type c addr then v ← LOAD_ROM type c addr; Some (Loaded v hit)
  else Some LoadException.

(** ** Addresses *)

Lemma valid_ram_address c a : core_wf c -> 0 <= a ->
  isValidRamAddress c a = true <-> getRamBase c <= a < getRamBase c + 2 * size c.
Proof.
  intros W Ha. unfold isValidRamAddress. pose proof (cw_log c W).
  destruct (ram_size_shorts c W) as [Hs ?]. rewrite (ram_base_eq c W), <- Hs, Z.eqb_eq.
  rewrite Z.shiftr_div_pow2 by lia. fold (getRamSize c).
  split; intros; Z.div_mod_to_equations; nia.
Qed.

Lemma land_ones_mod a n : 0 <= n -> a .& Z.ones n = a mod 2 ^ n.
Proof. apply Z.land_ones. Qed.

(** An address that passes the check lies in the RAM with all the bytes of the access. *)
Lemma check_ram_range type c a : core_wf c -> 0 <= a -> CHECK_ADDR_RAM type c a = true ->
  getRamBase c <= a /\ a + getLoadStoreSize type <= getRamBase c + 2 * size c /\
  a mod getLoadStoreSize type = 0.
Proof.
  intros W Ha H. destruct (ram_base_half c W) as (Hh & ? & _). pose proof (ram_size_mod4 c W) as H4.
  destruct (ram_size_shorts c W) as [Hs _]. pose proof (ram_base_eq c W) as Hb.
  assert (getRamBase c mod 4 = 0) as Hb4
    by (rewrite Hb, Z.mul_mod, H4, Z.mul_0_l by lia; done).
  destruct type; cbn [CHECK_ADDR_RAM getLoadStoreSize] in *.
  - apply andb_true_iff in H as [Hal%Z.eqb_eq Hv]. change 3 with (Z.ones 2) in Hal.
    rewrite land_ones_mod in Hal by lia. change (2 ^ 2) with 4 in Hal.
    apply valid_ram_address in Hv; [| done..]. rewrite Hs in H4. Z.div_mod_to_equations. lia.
  - apply andb_true_iff in H as [Hal%Z.eqb_eq Hv]. change 1 with (Z.ones 1) in Hal.
    rewrite land_ones_mod in Hal by lia. change (2 ^ 1) with 2 in Hal.
    apply valid_ram_address in Hv; [| done..]. Z.div_mod_to_equations. lia.
  - apply valid_ram_address in H; [| done..]. rewrite Z.mod_1_r. lia.
Qed.

(** ** Little endian bytes *)

(** Byte [i] of [v]. *)
Definition byte_of (v i : Z) : Z := u8 (v .>> (8 * i)).

Lemma byte_of_u16 v i : 0 <= i < 2 -> byte_of (u16 v) i = byte_of v i.
Proof.
  intros. unfold byte_of. zbitwise.
  destruct (Z.ltb_spec i0 8); [| done]. destruct (Z.ltb_spec (i0 + 8 * i) 16); [done | lia].
Qed.

(** The effect of a store on the bytes. *)
Definition stored (type : LoadStoreType) (p v : Z) (m m' : list Z) : Prop :=
  length m' = length m /\
  forall j, array_get m' j =
    if decide (p <= j < p + getLoadStoreSize type) then Some (byte_of v (j - p)) else array_get m j.

Lemma byte_of_0 v : byte_of v 0 = u8 v.
Proof. unfold byte_of. by rewrite Z.shiftr_0_r. Qed.

Ltac byte_cases :=
  repeat case_decide; try lia; try done; subst;
  match goal with
  | |- context [byte_of _ ?x] =>
      first [ replace x with 0 by lia; by rewrite byte_of_0
            | replace x with 1 by lia; done
            | replace x with 2 by lia; done
            | replace x with 3 by lia; done ]
  end.

Lemma STORE_spec type v a c : core_wf c ->
  getRamBase c <= a -> a + getLoadStoreSize type <= getRamBase c + 2 * size c ->
  exists m', STORE type v a c = Some (set_memory m' c) /\
    stored type (a - getRamBase c) v (memory c) m'.
Proof.
  intros W Ha Hb. pose proof (cw_memory c W) as Hm. destruct (ram_size_shorts c W) as [Hs _].
  unfold STORE, storeWord, storeShort, storeByte, write32le, write16le.
  rewrite (cw_memoryOffset c W). set (p := a - getRamBase c).
  destruct type; cbn [getLoadStoreSize] in *.
  - array_write (memory c) p (u8 v) m1 E1; [lia |]. apply array_set_spec in E1 as (_ & L1 & G1).
    array_write m1 (p + 1) (u8 (v .>> 8)) m2 E2; [lia |]. apply array_set_spec in E2 as (_ & L2 & G2).
    array_write m2 (p + 2) (u8 (v .>> 16)) m3 E3; [lia |]. apply array_set_spec in E3 as (_ & L3 & G3).
    array_write m3 (p + 3) (u8 (v .>> 24)) m4 E4; [lia |]. apply array_set_spec in E4 as (_ & L4 & G4).
    exists m4. split; [done |]. split; [congruence |]. intros j. rewrite G4, G3, G2, G1.
    cbn [getLoadStoreSize].
    destruct (decide (p <= j < p + 4)); [| rewrite !decide_False by lia; done].
    assert (j = p \/ j = p + 1 \/ j = p + 2 \/ j = p + 3) as [-> | [-> | [-> | ->]]] by lia;
      byte_cases.
  - array_write (memory c) p (u8 (u16 v)) m1 E1; [lia |]. apply array_set_spec in E1 as (_ & L1 & G1).
    array_write m1 (p + 1) (u8 (u16 v .>> 8)) m2 E2; [lia |]. apply array_set_spec in E2 as (_ & L2 & G2).
    exists m2. split; [done |]. split; [congruence |]. intros j. rewrite G2, G1.
    cbn [getLoadStoreSize].
    destruct (decide (p <= j < p + 2)); [| rewrite !decide_False by lia; done].
    rewrite <- byte_of_u16 by lia.
    assert (j = p \/ j = p + 1) as [-> | ->] by lia; byte_cases.
  - array_write (memory c) p (u8 v) m1 E1; [lia |]. apply array_set_spec in E1 as (_ & L1 & G1).
    exists m1. split; [done |]. split; [congruence |]. intros j. rewrite G1.
    cbn [getLoadStoreSize]. byte_cases.
Qed.

Lemma set_memory_wf m' c : core_wf c -> length m' = length (memory c) -> core_wf (set_memory m' c).
Proof.
  intros [] L. split; try done. cbn. rewrite L. done.
Qed.

Lemma INVALIDATE_flushed ext type a c : core_wf c -> covered ext c ->
  getRamBase c <= a -> a + getLoadStoreSize type <= getRamBase c + 2 * size c ->
  a mod getLoadStoreSize type = 0 ->
  exists c' b, INVALIDATE type a c = Some (c', b) /\
    flushed ext a (a + getLoadStoreSize type) c c'.
Proof.
  intros W K Ha Hb Hm. destruct type; cbn [getLoadStoreSize INVALIDATE] in *.
  - apply invalidateWord_flushed; try done. apply Z.even_spec. exists (2 * (a / 4)).
    Z.div_mod_to_equations. lia.
  - apply invalidateShort_flushed; try done; [| lia]. apply Z.even_spec. exists (a / 2).
    Z.div_mod_to_equations. lia.
  - apply invalidateByte_flushed; done || lia.
Qed.

(** A store that passes the check writes its bytes and flushes what covered them. *)
Lemma exec_store_spec ext type v a c :
  core_wf c -> covered ext c -> 0 <= a -> CHECK_ADDR_RAM type c a = true ->
  exists m' c' endTrace hit,
    exec_store type v a c = Some (Stored c' endTrace hit) /\
    stored type (a - getRamBase c) v (memory c) m' /\ memory c' = m' /\
    core_wf (set_memory m' c) /\
    flushed ext a (a + getLoadStoreSize type) (set_memory m' c) c'.
Proof.
  intros W K Ha H. destruct (check_ram_range type c a W Ha H) as (Hb & He & Hm).
  unfold exec_store. rewrite H. cbn [negb].
  destruct (STORE_spec type v a c W Hb He) as (m' & -> & S). cbn [mbind option_bind].
  assert (core_wf (set_memory m' c)) as W' by (apply set_memory_wf; [done | apply S]).
  destruct (INVALIDATE_flushed ext type a (set_memory m' c)) as (c' & b & -> & F); try done.
  cbn [mbind option_bind]. exists m', c', b. eexists. split; [done |]. split; [done |].
  split; [| done]. pose proof (same_fields _ _ (fl_same _ _ _ _ _ F)). destruct_and!. done.
Qed.

Lemma byte_testbit v k i : 0 <= k -> 0 <= i ->
  Z.testbit (Z.shiftl (byte_of v k) (8 * k)) i = (8 * k <=? i) && (i <? 8 * k + 8) && Z.testbit v i.
Proof.
  intros Hk Hi. unfold byte_of. rewrite Z.shiftl_spec by lia.
  destruct (Z.leb_spec (8 * k) i); [| by rewrite Z.testbit_neg_r by lia].
  rewrite wrap_testbit, Z.shiftr_spec by lia. replace (i - 8 * k + 8 * k) with i by lia.
  destruct (Z.ltb_spec (i - 8 * k) 8), (Z.ltb_spec i (8 * k + 8)); done || lia.
Qed.

(** Bytes put together in little endian order. *)
Ltac byte_bits :=
  apply Z.bits_inj'; intros i Hi;
  rewrite !Z.lor_spec, !byte_testbit, wrap_testbit by lia;
  repeat match goal with
    | |- context [?a <=? ?b] => destruct (Z.leb_spec a b)
    | |- context [?a <? ?b] => destruct (Z.ltb_spec a b)
    end; try lia; by destruct (Z.testbit _ _).

Lemma bytes_roundtrip1 v : Z.shiftl (byte_of v 0) (8 * 0) = u8 v.
Proof. apply byte_of_0. Qed.
Lemma bytes_roundtrip2 v :
  Z.shiftl (byte_of v 0) (8 * 0) .| Z.shiftl (byte_of v 1) (8 * 1) = u16 v.
Proof. byte_bits. Qed.
Lemma bytes_roundtrip4 v :
  Z.shiftl (byte_of v 0) (8 * 0) .| Z.shiftl (byte_of v 1) (8 * 1) .|
  Z.shiftl (byte_of v 2) (8 * 2) .| Z.shiftl (byte_of v 3) (8 * 3) = u32 v.
Proof. byte_bits. Qed.

Lemma LOAD_RAM_spec type v a c m : core_wf c -> stored type (a - getRamBase c) v m (memory c) ->
  LOAD_RAM type c a = Some (wrap (8 * getLoadStoreSize type) v).
Proof.
  intros W [_ G]. unfold LOAD_RAM, loadRamWord, loadRamShort, loadRamByte, read32le, read16le.
  rewrite (cw_memoryOffset c W). set (p := a - getRamBase c) in *.
  destruct type; cbn [getLoadStoreSize] in *; rewrite !G, !decide_True by lia;
    cbn [mbind option_bind]; rewrite ?Z.sub_diag.
  - rewrite <- bytes_roundtrip4. change (8 * 0) with 0. rewrite (Z.shiftl_0_r (byte_of v 0)).
    by replace (p + 1 - p) with 1 by lia; replace (p + 2 - p) with 2 by lia;
      replace (p + 3 - p) with 3 by lia.
  - rewrite <- bytes_roundtrip2. change (8 * 0) with 0. rewrite (Z.shiftl_0_r (byte_of v 0)).
    by replace (p + 1 - p) with 1 by lia.
  - by rewrite byte_of_0.
Qed.

Lemma CHECK_ADDR_RAM_same type c c' a : same c c' -> CHECK_ADDR_RAM type c' a = CHECK_ADDR_RAM type c a.
Proof.
  intros S%same_fields. destruct_and!. unfold CHECK_ADDR_RAM, isValidRamAddress.
  by repeat match goal with H : _ c' = _ c |- _ => rewrite H; clear H end.
Qed.

(** C3: A store to an aligned address of the RAM succeeds, changes exactly the bytes it
    addresses and discards the cached instructions that cover them; loading from the same
    address returns the value truncated to the width of the access.  A store to any other
    address raises the exception and changes nothing. *)
Theorem store_load_roundtrip ext type v a c :
  core_wf c -> covered ext c -> is_u32 a ->
  (CHECK_ADDR_RAM type c a = true ->
    exists c' endTrace hit, exec_store type v a c = Some (Stored c' endTrace hit) /\
      core_wf c' /\ covered ext c' /\
      (forall j, array_get (memory c') j =
        if decide (a - getRamBase c <= j < a - getRamBase c + getLoadStoreSize type)
        then Some (byte_of v (j - (a - getRamBase c))) else array_get (memory c) j) /\
      (forall pc e x, live c' pc e -> a <= x < a + getLoadStoreSize type ->
        ~ (2 * pc <= x - getRamBase c < 2 * (pc + ext pc))) /\
      exists hit', exec_load type a c' = Some (Loaded (wrap (8 * getLoadStoreSize type) v) hit')) /\
  (CHECK_ADDR_RAM type c a = false -> exec_store type v a c = Some StoreException).
Proof.
  intros W K Ha. split; intros H; [| unfold exec_store; by rewrite H].
  destruct (exec_store_spec ext type v a c W K) as (m' & c' & et & hit & E & [L G] & M & _ & F);
    [apply Ha | done |].
  exists c', et, hit. split; [done |]. split; [apply F |]. split; [apply F |].
  split; [by rewrite M |]. split; [apply F |].
  pose proof (fl_same _ _ _ _ _ F) as S. eexists. unfold exec_load.
  rewrite (CHECK_ADDR_RAM_same type (set_memory m' c) c' a S).
  change (CHECK_ADDR_RAM type (set_memory m' c) a) with (CHECK_ADDR_RAM type c a). rewrite H.
  erewrite (LOAD_RAM_spec type v a c' (memory c)); [done | apply F |].
  apply same_fields in S. destruct_and!. rewrite M.
  assert (getRamBase c' = getRamBase c) as -> by done. by split.
Qed.

Lemma store_load_roundtrip_witness : exists c,
  newCore (2 ^ 16) (2 ^ 16) false (fun _ => 0) 8 = Some c /\
  exists c' endTrace hit hit', exec_store SHORT 0x12345 0x10006 c = Some (Stored c' endTrace hit) /\
    exec_load SHORT 0x10006 c' = Some (Loaded 0x2345 hit').
Proof.
  destruct (newCore_wf 16 false (fun _ => 0) 8) as (c & E & W & Hl & Hm & K & _); [lia |].
  exists c. split; [exact E |].
  destruct (store_load_roundtrip (fun _ => 1) SHORT 0x12345 0x10006 c W (K _)) as [H _];
    [split; vm_compute; [discriminate | reflexivity] |].
  destruct H as (c' & et & hit & E1 & _ & _ & _ & _ & hit' & E2).
  { unfold CHECK_ADDR_RAM, isValidRamAddress. rewrite Hl, Hm. reflexivity. }
  exists c', et, hit, hit'. split; [exact E1 | exact E2].
Defined.
