(* ===== verification/Coherence.v ===== *)
(** * Coherence of the decode cache with memory

    What the cache holds for a half-word is what decoding the current memory
    there gives.  Every operation of a core that changes memory, breakpoints
    or the cache preserves this: no sequence of stores, decodes, compilations,
    debugger writes and breakpoint changes leaves a stale instruction. *)

From stdpp Require Import base list numbers option gmap relations.
From Stdlib Require Import ZArith Lia.
From S2P Require Import Prelude BitManip Opcode InstrDecode InstrDecodeFacts DecodeCache InstrTransform.
From S2P Require Import Watchpoint Core CoreFacts MemoryAccess.

#[local] Open Scope Z_scope.
#[local] Open Scope cbits_scope.

(** ** Coherent entries *)

(** The interpreted entry [o] with operands [ops] at [pc] is what [Instruction_DECODE] computes
    from the memory of [c] (with some contents of its uninitialised operand variable, and for
    a thread in one of the two issue modes). *)
Definition decodes (type : NodeType) (c : Core) (pc : Z) (o : InstructionOpcode) (ops : Operands)
    : Prop :=
  exists junk dual s o0, length junk = 6%nat /\
    decodeFromCore type c (fromPc (cache c) pc) (fresh_state junk) false = Some s /\
    d_opcode s = Some o0 /\
    instructionTransform o0 (d_operands s) (cache c) (fromPc (cache c) pc) dual = (o, ops).

Definition valid_entry (type : NodeType) (ext : Z -> Z) (c : Core) (pc : Z) (e : OPCODE_TYPE) : Prop :=
  match e with
  | Inst o _ => exists ops, array_get (operands (cache c)) pc = Some ops /\
      decodes type c pc o ops /\ ext pc = instruction_size o / 2
  | JitFunction _ => True
  end.

(** The ROM does not start where the RAM ends. *)
Definition rom_apart (c : Core) : Prop :=
  isValidRomAddress c (u32 (getRamBase c + 2 * size c)) = false.

Record coherent (type : NodeType) (ext : Z -> Z) (c : Core) : Prop := {
  co_wf : core_wf c;
  co_rom : rom_apart c;
  co_covered : covered ext c;
  co_valid : forall pc e, live c pc e -> valid_entry type ext c pc e
}.

(** ** Decoding depends only on the instruction's own half-words *)

Lemma decode_high_irrelevant low high high' hv type s : encoded_size low = 2 ->
  instructionDecode low high hv type s = instructionDecode low high' hv type s.
Proof.
  unfold encoded_size, instructionDecode. cbv zeta. intros H.
  repeat (match goal with |- context [?a =? ?b] => destruct (Z.eqb_spec a b) end; [try done |]);
    try done; exfalso; unfold PFIX, EOPR in *; destruct (Z.ltb_spec (bitRange low 15 11) 30); lia.
Qed.

(** The places of memory agree, and the bytes from [x] to [y] of the RAM, and the breakpoint
    at [a]. *)
Record agree (a x y : Z) (c c' : Core) : Prop := {
  ag_place : ramSizeLog2 c' = ramSizeLog2 c /\ ramBaseMultiple c' = ramBaseMultiple c /\
    memoryOffset c' = memoryOffset c /\ rom c' = rom c /\ romBase c' = romBase c /\
    romSize c' = romSize c;
  ag_length : length (memory c') = length (memory c);
  ag_bytes : forall j, x <= j < y -> array_get (memory c') j = array_get (memory c) j;
  ag_break : a ∈ breakpoints c' <-> a ∈ breakpoints c
}.

Lemma agree_valid a x y c c' b : agree a x y c c' -> isValidAddress c' b = isValidAddress c b /\
  isValidRamAddress c' b = isValidRamAddress c b.
Proof.
  intros A. destruct (ag_place _ _ _ _ _ A) as (E1 & E2 & E3 & E4 & E5 & E6).
  unfold isValidAddress, isValidRomAddress, isValidRamAddress. by rewrite E1, E2, E5, E6.
Qed.

(** A half-word load inside the agreed range, or from ROM. *)
Lemma agree_loadShort a x y c c' b : agree a x y c c' ->
  (isValidRamAddress c b = true -> x <= b - memoryOffset c /\ b - memoryOffset c + 2 <= y) ->
  loadShort c' b = loadShort c b.
Proof.
  intros A Hb. destruct (ag_place _ _ _ _ _ A) as (E1 & E2 & E3 & E4 & E5 & E6).
  unfold loadShort, loadRamShort, loadRomShort, read16le.
  rewrite (proj2 (agree_valid _ _ _ _ _ b A)), E3, E4, E5.
  destruct (isValidRamAddress c b); [| done]. specialize (Hb eq_refl).
  by rewrite !(ag_bytes _ _ _ _ _ A) by lia.
Qed.

Lemma loadShort_is_Some a x y c c' b v : agree a x y c c' -> loadShort c b = Some v ->
  exists v', loadShort c' b = Some v'.
Proof.
  intros A. destruct (ag_place _ _ _ _ _ A) as (E1 & E2 & E3 & E4 & E5 & E6).
  pose proof (ag_length _ _ _ _ _ A) as L.
  unfold loadShort, loadRamShort, loadRomShort, read16le.
  rewrite (proj2 (agree_valid _ _ _ _ _ b A)), E3, E4, E5.
  destruct (isValidRamAddress c b); [| eauto].
  intros H. destruct (array_get (memory c) (b - memoryOffset c)) eqn:B0; [| done].
  cbn [mbind option_bind] in H. destruct (array_get (memory c) (b - memoryOffset c + 1)) eqn:B1; [| done].
  apply array_get_bound in B0, B1. rewrite <- L in B0, B1.
  apply array_get_is_Some in B0 as [? ->], B1 as [? ->]. cbn. eauto.
Qed.

Lemma decodeFromCore_agree type c c' a n junk s o :
  length junk = 6%nat -> 0 <= a -> a + 2 < 2 ^ 32 -> 1 <= n ->
  agree a (a - memoryOffset c) (a - memoryOffset c + 2 * n) c c' ->
  decodeFromCore type c a (fresh_state junk) false = Some s ->
  d_opcode s = Some o -> instruction_size o = 2 * n ->
  decodeFromCore type c' a (fresh_state junk) false = Some s.
Proof.
  intros Hj Ha Ha2 Hn A. unfold decodeFromCore.
  rewrite (proj1 (agree_valid _ _ _ _ _ a A)), (proj1 (agree_valid _ _ _ _ _ (u32 (a + 2)) A)).
  rewrite (bool_decide_ext _ _ (ag_break _ _ _ _ _ A)).
  rewrite (agree_loadShort _ _ _ _ _ a A) by (intros; lia).
  destruct (assert _); [| done]. cbn [mbind option_bind].
  destruct (_ && _); [done |].
  destruct (loadShort c a) as [low|]; [| done]. cbn [mbind option_bind].
  destruct (isValidAddress c (u32 (a + 2))); [| done].
  destruct (loadShort c (u32 (a + 2))) as [high|] eqn:Eh; [| done]. cbn [mbind option_bind].
  intros [= <-] Ho Hs.
  destruct (instructionDecode_post low high true type (fresh_state junk)) as (_ & _ & P);
    [by apply pre_fresh | done |].
  rewrite Ho in P. destruct P as [(_ & ? & _) | (_ & Hsz & _)]; [done |].
  assert (encoded_size low = 2 \/ encoded_size low = 4) as [E|E]
    by (unfold encoded_size; destruct (_ <? _); auto).
  - destruct (loadShort_is_Some _ _ _ _ _ _ _ A Eh) as [high' ->]. cbn.
    by rewrite (decode_high_irrelevant low high' high).
  - rewrite (agree_loadShort _ _ _ _ _ _ A), Eh; [done |].
    intros _. rewrite wrap_small by (unfold fits; lia). lia.
Qed.

Lemma fromPc_eq c pc : core_wf c -> 0 <= pc < size c ->
  fromPc (cache c) pc = getRamBase c + 2 * pc /\ 0 <= getRamBase c + 2 * pc /\
  getRamBase c + 2 * pc + 2 < 2 ^ 32.
Proof.
  intros W Hpc. destruct (ram_base_half c W) as (? & ? & ?). pose proof (ram_end_bound c W).
  unfold fromPc. rewrite (cw_base _ W), Z.shiftl_mul_pow2 by lia. change (2 ^ 1) with 2.
  rewrite (wrap_small 32 (pc * 2)) by (unfold fits; lia).
  rewrite wrap_small by (unfold fits; lia). lia.
Qed.

(** An entry that decodes correctly in [c] decodes correctly in a core that agrees with it on
    the half-words of the instruction. *)
Lemma decodes_agree type c c' pc n o ops : core_wf c -> 0 <= pc < size c -> 1 <= n ->
  base (cache c') = base (cache c) -> size c' = size c ->
  agree (getRamBase c + 2 * pc) (2 * pc) (2 * (pc + n)) c c' ->
  instruction_size o = 2 * n -> decodes type c pc o ops -> decodes type c' pc o ops.
Proof.
  intros W Hpc Hn Hb Hs A Ho (junk & dual & s & o0 & Hj & Hd & Ho0 & Ht).
  pose proof (fromPc_eq c pc W Hpc) as (Hf & ? & ?).
  assert (fromPc (cache c') pc = fromPc (cache c) pc) as Hf' by (unfold fromPc; by rewrite Hb).
  exists junk, dual, s, o0. rewrite Hf', (transform_ext _ _ (cache c) (cache c')) by done.
  split; [done |]. split; [| done]. rewrite Hf in *.
  apply (decodeFromCore_agree type c c' _ n junk s o0); try done.
  - rewrite (cw_memoryOffset _ W).
    replace (getRamBase c + 2 * pc - getRamBase c) with (2 * pc) by lia.
    by replace (2 * pc + 2 * n) with (2 * (pc + n)) by lia.
  - pose proof (transform_keeps o0 (d_operands s) (cache c) (getRamBase c + 2 * pc) dual) as Hk.
    rewrite Ht in Hk. destruct Hk as [Hk _]. congruence.
Qed.

(** ** Changing memory or breakpoints, then flushing *)

(** [c1] is [c] with other contents in the bytes [a .. b - 1], or other breakpoints there. *)
Record touched (a b : Z) (c c1 : Core) : Prop := {
  to_cache : cache c1 = cache c;
  to_place : ramSizeLog2 c1 = ramSizeLog2 c /\ ramBaseMultiple c1 = ramBaseMultiple c /\
    memoryOffset c1 = memoryOffset c /\ rom c1 = rom c /\ romBase c1 = romBase c /\
    romSize c1 = romSize c;
  to_length : length (memory c1) = length (memory c);
  to_bytes : forall j, ~ (a <= getRamBase c + j < b) ->
    array_get (memory c1) j = array_get (memory c) j;
  to_break : forall x, ~ (a <= x < b) -> x ∈ breakpoints c1 <-> x ∈ breakpoints c
}.

Lemma touched_base a b c c1 : touched a b c c1 ->
  getRamBase c1 = getRamBase c /\ (forall x, isValidRomAddress c1 x = isValidRomAddress c x).
Proof.
  intros T. destruct (to_place _ _ _ _ T) as (E1 & E2 & _ & _ & E5 & E6).
  unfold getRamBase, getRamSize, isValidRomAddress. by rewrite E1, E2, E5, E6.
Qed.

Lemma flushed_agree ext a b c c1 c' pc e : touched a b c c1 -> flushed ext a b c1 c' ->
  live c' pc e -> 1 <= ext pc ->
  agree (getRamBase c + 2 * pc) (2 * pc) (2 * (pc + ext pc)) c c'.
Proof.
  intros T F Hl Hx. destruct (to_place _ _ _ _ T) as (? & ? & ? & ? & ? & ?).
  pose proof (same_fields _ _ (fl_same _ _ _ _ _ F)) as Sf. destruct_and! Sf.
  destruct (touched_base _ _ _ _ T) as [Hb _].
  assert (forall x, 2 * pc <= x - getRamBase c < 2 * (pc + ext pc) -> ~ (a <= x < b)) as N.
  { intros x Hc Hx'. apply (fl_gone _ _ _ _ _ F pc e x Hl Hx'). by rewrite Hb. }
  split.
  - repeat split; congruence.
  - rewrite <- (to_length _ _ _ _ T). congruence.
  - intros j Hj. rewrite <- (to_bytes _ _ _ _ T j) by (apply N; lia). congruence.
  - rewrite <- (to_break _ _ _ _ T) by (apply N; lia).
    by replace (breakpoints c') with (breakpoints c1) by congruence.
Qed.

(** [c'] is coherent, and what is still cached in it was cached in [c]. *)
Definition kept (type : NodeType) (ext : Z -> Z) (c c' : Core) : Prop :=
  coherent type ext c' /\ forall pc e, live c' pc e -> live c pc e.

(** The key lemma: a change of bytes followed by their invalidation keeps the cache coherent. *)
Lemma coherent_flush type ext a b c c1 c' :
  coherent type ext c -> touched a b c c1 -> flushed ext a b c1 c' -> kept type ext c c'.
Proof.
  intros [W R K V] T F.
  assert (forall pc e, live c' pc e -> live c pc e) as Lv.
  { intros pc e Hl%(fl_live _ _ _ _ _ F). unfold live, entry in *. by rewrite (to_cache _ _ _ _ T) in Hl. }
  split; [| done]. pose proof (fl_same _ _ _ _ _ F) as S.
  pose proof (same_fields _ _ S) as Sf. destruct_and! Sf.
  destruct (touched_base _ _ _ _ T) as [Hb Hr].
  assert (size c' = size c) as Hs by (rewrite (same_size _ _ S); by rewrite (to_cache _ _ _ _ T)).
  split; [apply F | | apply F |].
  - unfold rom_apart in *. rewrite Hs. rewrite <- R, <- (Hr (u32 _)).
    unfold isValidRomAddress. congruence.
  - intros pc e Hl. pose proof (Lv pc e Hl) as Hlc.
    specialize (V pc e Hlc). destruct K as [_ K]. destruct (K pc e Hlc) as (Hx & _).
    destruct e as [o t|]; [| done]. destruct V as (ops & Hops & Hd & He). exists ops.
    rewrite (same_operands _ _ S), (to_cache _ _ _ _ T). split; [done |]. split; [| done].
    apply (decodes_agree type c c' pc (ext pc)); try done; [apply Hlc | | |].
    + rewrite (same_base _ _ S). by rewrite (to_cache _ _ _ _ T).
    + by apply (flushed_agree ext a b c c1 c' pc (Inst o t)).
    + rewrite He. destruct (instruction_size_cases o) as [-> | ->]; done.
Qed.

Lemma touched_refl a b c : touched a b c c.
Proof. by split. Qed.

(** ** The operations *)

Section operations.
Context (type : NodeType) (ext : Z -> Z) (c : Core) (C : coherent type ext c).

Lemma exec_store_flushes ty v a c' endTrace hit : 0 <= a ->
  exec_store ty v a c = Some (Stored c' endTrace hit) ->
  exists m', flushed ext a (a + getLoadStoreSize ty) (set_memory m' c) c'.
Proof.
  intros Ha E. destruct C as [W _ K _].
  destruct (CHECK_ADDR_RAM ty c a) eqn:H; [| unfold exec_store in E; by rewrite H in E].
  destruct (exec_store_spec ext ty v a c W K Ha H) as (m' & c1 & et & h & E1 & _ & _ & _ & F).
  rewrite E in E1. injection E1 as <- _ _. by exists m'.
Qed.

Lemma exec_store_kept ty v a c' endTrace hit : 0 <= a ->
  exec_store ty v a c = Some (Stored c' endTrace hit) -> kept type ext c c'.
Proof.
  intros Ha E. destruct C as [W _ K _].
  destruct (CHECK_ADDR_RAM ty c a) eqn:H; [| unfold exec_store in E; by rewrite H in E].
  destruct (exec_store_spec ext ty v a c W K Ha H) as (m' & c1 & et & h & E1 & [L G] & _ & _ & F).
  rewrite E in E1. injection E1 as <- _ _.
  apply (coherent_flush type ext a (a + getLoadStoreSize ty) c (set_memory m' c)); [done | | done].
  split; try done. intros j Hj. cbn. rewrite G, decide_False; [done | lia].
Qed.

Lemma blit_spec src p bytes m : blit src p bytes = Some m ->
  0 <= p /\ p + zlength src <= zlength bytes /\ length m = length bytes /\
  forall j, array_get m j =
    if decide (p <= j < p + zlength src) then array_get src (j - p) else array_get bytes j.
Proof.
  unfold blit, assert. destruct (Z.leb_spec 0 p), (Z.leb_spec (p + zlength src) (zlength bytes));
    try done. cbn. intros [= <-]. split; [done |]. split; [done |].
  rewrite !length_app, length_take, length_drop. split; [lia |].
  intros j. unfold array_get. destruct (Z.leb_spec 0 j); cycle 1.
  { case_decide; [| done]. lia. }
  destruct (decide (j < p)).
  { rewrite lookup_app_l by (rewrite length_take; lia). rewrite lookup_take_lt by lia.
    by rewrite decide_False by lia. }
  rewrite lookup_app_r by (rewrite length_take; lia). rewrite length_take.
  replace (Z.to_nat p `min` length bytes)%nat with (Z.to_nat p) by lia.
  destruct (decide (j < p + zlength src)).
  - rewrite decide_True by lia. rewrite lookup_app_l by lia.
    rewrite (proj2 (Z.leb_le 0 (j - p))) by lia. f_equal. lia.
  - rewrite decide_False by lia. rewrite lookup_app_r by lia. rewrite lookup_drop. f_equal. lia.
Qed.

Lemma writeMemory_kept a src c' b : 0 <= a < 2 ^ 32 -> zlength src < 2 ^ 32 ->
  writeMemory a src c = Some (c', b) -> kept type ext c c'.
Proof.
  intros Ha Hl. destruct C as [W _ K _]. pose proof (ram_end_bound c W).
  destruct (ram_size_shorts c W) as [Hs ?]. destruct (ram_base_half c W) as (_ & ? & _).
  unfold writeMemory, memoryRangeRefused. rewrite Hs.
  rewrite (wrap_small 32 (getRamBase c + _)), (wrap_small 64 (a + _)) by (unfold fits; lia).
  case_match; [by intros; simplify_eq |]. destruct (_ || _) eqn:Eo; [by intros; simplify_eq |].
  apply orb_false_iff in Eo as [?%Z.ltb_ge ?%Z.leb_gt].
  destruct (blit src (a - memoryOffset c) (memory c)) as [m|] eqn:Em; [| done].
  cbn [mbind option_bind]. apply blit_spec in Em as (_ & _ & L & G).
  rewrite (wrap_small 32) by (unfold fits; lia).
  destruct (invalidateRange_flushed ext (set_memory m c)) with (begin := a) (end_ := a + zlength src)
    as (c1 & b1 & -> & F); [by apply set_memory_wf | done | done | lia |
      change (a + zlength src <= getRamBase c + 2 * size c); lia |].
  cbn [mbind option_bind]. intros; simplify_eq.
  apply (coherent_flush type ext a (a + zlength src) c (set_memory m c)); [done | | done].
  split; try done. intros j Hj. cbn. rewrite G, (cw_memoryOffset _ W), decide_False; [done | lia].
Qed.

(** Setting or clearing a breakpoint at an even address of the RAM. *)
Lemma set_breakpoints_kept v bs c' b :
  isValidRamAddress c v = true -> 0 <= v -> Z.even v = true ->
  (forall x, x <> v -> x ∈ bs <-> x ∈ breakpoints c) ->
  invalidateShort v (set_breakpoints bs c) = Some (c', b) -> kept type ext c c'.
Proof.
  intros Hv Hv0 He Hbs E. destruct C as [W _ K _].
  apply valid_ram_address in Hv; [| done..].
  destruct (invalidateShort_flushed ext (set_breakpoints bs c) v) as (c1 & b1 & E1 & F);
    [by destruct W | done.. |].
  rewrite E in E1. injection E1 as <- _.
  apply (coherent_flush type ext v (v + 2) c (set_breakpoints bs c)); [done | | done].
  split; try done. intros x Hx. apply Hbs. intros ->. lia.
Qed.

Lemma setBreakpoint_kept v c' b : isValidRamAddress c v = true -> 0 <= v ->
  setBreakpoint v c = Some (c', b) -> kept type ext c c'.
Proof.
  intros Hv Hv0. unfold setBreakpoint. destruct (_ || _) eqn:Eo; [by intros; simplify_eq |].
  case_bool_decide; [by intros; simplify_eq |].
  destruct (invalidateShort _ _) as [[c1 b1]|] eqn:E; [| done].
  cbn. intros; simplify_eq. apply orb_false_iff in Eo as [Eo _].
  apply negb_false_iff, Z.eqb_eq in Eo.
  eapply set_breakpoints_kept; [done | done | | | done].
  - change 1 with (Z.ones 1) in Eo. rewrite land_ones_mod in Eo by lia.
    rewrite Zeven_mod. by apply Z.eqb_eq.
  - intros x Hx. rewrite elem_of_union, elem_of_singleton. tauto.
Qed.

Lemma unsetBreakpoint_kept v c' : isValidRamAddress c v = true -> 0 <= v -> Z.even v = true ->
  unsetBreakpoint v c = Some c' -> kept type ext c c'.
Proof.
  intros Hv Hv0 He. unfold unsetBreakpoint. case_bool_decide; [| by intros; simplify_eq].
  destruct (invalidateShort _ _) as [[c1 b1]|] eqn:E; [| done]. cbn. intros; simplify_eq.
  eapply set_breakpoints_kept; [done | done | done | | done].
  intros x Hx. rewrite elem_of_difference, elem_of_singleton. tauto.
Qed.
End operations.

(** ** Filling the cache *)

(** A four-byte instruction whose second half is missing. *)
Lemma decode_missing_high low high type s : encoded_size low = 4 ->
  instructionDecode low high false type s = set_opcode ILLEGAL_PC s.
Proof.
  unfold encoded_size, instructionDecode. cbv zeta. intros H.
  assert (0 <= bitRange low 15 11 < 32) as Hr by (apply (bitRange_bound low 15 11); lia).
  repeat (match goal with |- context [?a =? ?b] => destruct (Z.eqb_spec a b) as [E|] end;
    [try (exfalso; rewrite E in H; discriminate H) |]).
  all: try (destruct (_ =? 0); reflexivity). all: try reflexivity.
  exfalso. unfold PFIX, EOPR in *. destruct (Z.ltb_spec (bitRange low 15 11) 30); lia.
Qed.

Definition extend (ext : Z -> Z) (pc n : Z) : Z -> Z := fun j => if decide (j = pc) then n else ext j.

Section filling.
Context (type : NodeType) (ext : Z -> Z) (c : Core) (C : coherent type ext c).

(** The instruction decoded at [pc] lies in the RAM. *)
Lemma decoded_fits pc junk s o : 0 <= pc < size c -> length junk = 6%nat ->
  decodeFromCore type c (fromPc (cache c) pc) (fresh_state junk) false = Some s ->
  d_opcode s = Some o -> pc + instruction_size o / 2 <= size c.
Proof.
  intros Hpc Hj Hd Ho. destruct C as [W R _ _].
  destruct (instruction_size_cases o) as [-> | Hsz]; [change (2 / 2) with 1; lia |].
  rewrite Hsz. change (4 / 2) with 2. destruct (decide (pc + 2 <= size c)); [done |]. exfalso.
  destruct (fromPc_eq c pc W Hpc) as (Hf & ? & ?). pose proof (ram_end_bound c W).
  revert Hd. unfold decodeFromCore. rewrite Hf.
  destruct (assert _); [| done]. cbn [mbind option_bind].
  destruct (_ && _); [intros [= <-]; cbn in Ho; by simplify_eq |].
  destruct (loadShort c (getRamBase c + 2 * pc)) as [low|]; [| done]. cbn [mbind option_bind].
  assert (u32 (getRamBase c + 2 * pc + 2) = u32 (getRamBase c + 2 * size c)) as Ea
    by (f_equal; lia).
  assert (isValidAddress c (u32 (getRamBase c + 2 * pc + 2)) = false) as ->.
  { unfold isValidAddress. rewrite Ea, R, orb_false_r.
    rewrite wrap_small by (unfold fits; lia).
    apply not_true_iff_false. rewrite valid_ram_address by (done || lia). lia. }
  intros [= <-].
  destruct (instructionDecode_post low 0 false type (fresh_state junk)) as (_ & _ & P);
    [by apply pre_fresh | done |].
  rewrite Ho in P. destruct P as [[-> _] | (Hp & Hs & _)]; [done |].
  rewrite decode_missing_high in Ho by congruence. cbn in Ho. by simplify_eq.
Qed.

(** The cache after an entry of [n] half-words has been set at [pc]. *)
Lemma core_setOpcode_marks pc opc n : 0 <= pc -> 1 <= n -> pc + n <= size c ->
  exists c', core_setOpcode pc opc (2 * n) c = Some c' /\ core_wf c' /\ same c c' /\
    (forall j, entry c' j = if decide (j = pc) then Some opc else entry c j) /\
    forall j, mark c' j = marked pc (2 * n) j <$> mark c j.
Proof.
  intros Hpc Hn Hfit. destruct C as [W _ _ _]. destruct (cw_info c W) as [info Hi].
  unfold core_setOpcode.
  destruct (setOpcode_spec pc opc (2 * n) (cache c) info) as (ops & info' & -> & Lo & Li & Go & Gi);
    [apply W | done | done | lia | rewrite Z.mul_comm; by apply Z.mod_mul | |].
  { rewrite Z.mul_comm, Z.div_mul by lia. done. }
  cbn [mbind option_bind].
  match goal with |- exists _, Some ?c0 = _ /\ _ => assert (same c c0) as S end.
  { split; cbn; try done; try (by destruct c). intros i E. simplify_eq. by exists info'. }
  eexists. split; [done |]. split; [| split; [done | split; [exact Go |]]].
  - apply (same_wf c); [done.. |]. intros j Hj. unfold entry. cbn.
    rewrite Go, decide_False by lia. done.
  - intros j. unfold mark. cbn. rewrite Hi. apply Gi.
Qed.

Lemma marks_covered pc opc n c' : 0 <= pc -> 1 <= n -> pc + n <= size c -> size c' = size c ->
  (forall j, entry c' j = if decide (j = pc) then Some opc else entry c j) ->
  (forall j, mark c' j = marked pc (2 * n) j <$> mark c j) ->
  covered (extend ext pc n) c'.
Proof.
  intros Hpc Hn Hfit Hs Go M. destruct C as [W _ [K0 K] _].
  assert (2 * n / 2 = n) as E2 by (rewrite Z.mul_comm; apply Z.div_mul; lia).
  unfold marked in M. rewrite E2 in M. split.
  - rewrite M. destruct (mark c 0) as [m|]; [| done]. cbn [fmap option_fmap option_map].
    repeat case_decide; try done; try lia.
  - intros q e (Hq & He & Hd). rewrite Hs in *. rewrite Go in He. unfold extend.
    destruct (decide (q = pc)) as [->|Hne].
    + split; [done |]. split; [done |]. split; [| intros j Hj]; rewrite M.
      * destruct (mark_is_Some c W pc) as [m ->]; [lia |]. cbn [fmap option_fmap option_map].
        rewrite decide_True by done. case_bool_decide; congruence.
      * destruct (mark_is_Some c W j) as [mj ->]; [lia |]. cbn [fmap option_fmap option_map].
        by rewrite decide_False, decide_True by lia.
    + destruct (K q e) as (? & ? & Hm & Hc); [done |]. split; [done |]. split; [done |].
      split; [| intros j Hj]; rewrite M.
      * destruct (mark c q) as [m|]; [| done]. cbn [fmap option_fmap option_map].
        rewrite decide_False by done. case_decide; congruence.
      * rewrite (Hc j Hj). cbn [fmap option_fmap option_map]. by repeat case_decide.
Qed.

(** A compiled fragment of [n] half-words is installed at [pc]: its entry of the map of functions and
    the last statement of [JITImpl::compileOneFragment], which [JitDriver.compileOneFragment_marks]
    relates to the whole function. *)
Definition jit_install (pc n id : Z) (c : Core) : option Core :=
  core_setOpcode pc (JitFunction id) (2 * n)
    (set_functionMap (<[pc := pc]> (functionMap c)) c).

(** Entries other than the one that is set stay valid. *)
Lemma other_entry_valid pc n c' q e : q <> pc -> (forall a x y, agree a x y c c') ->
  base (cache c') = base (cache c) -> size c' = size c ->
  array_get (operands (cache c')) q = array_get (operands (cache c)) q ->
  live c q e -> valid_entry type (extend ext pc n) c' q e.
Proof.
  intros Hne A Hb Hs Hops' Hl. destruct C as [W _ [_ K] V]. specialize (V q e Hl).
  destruct e as [o t|]; [| done].
  destruct V as (ops & Hops & Hd & He). exists ops. rewrite Hops'.
  unfold extend. rewrite decide_False by done. split; [done |]. split; [| done].
  destruct (K q _ Hl) as (Hx & _).
  apply (decodes_agree type c c' q (ext q)); try done; [apply Hl |].
  rewrite He. destruct (instruction_size_cases o) as [-> | ->]; done.
Qed.

Lemma same_agree c' a x y : same c c' -> agree a x y c c'.
Proof.
  intros S%same_fields. destruct_and!. split; [done | congruence | congruence |].
  by replace (breakpoints c') with (breakpoints c).
Qed.

(** [c'] is [c] with a new entry at [pc], which is itself valid. *)
Lemma coherent_install pc opc n c' :
  0 <= pc -> 1 <= n -> pc + n <= size c -> core_wf c' ->
  (forall a x y, agree a x y c c') -> base (cache c') = base (cache c) -> size c' = size c ->
  (forall j, entry c' j = if decide (j = pc) then Some opc else entry c j) ->
  (forall j, mark c' j = marked pc (2 * n) j <$> mark c j) ->
  (forall q, q <> pc -> array_get (operands (cache c')) q = array_get (operands (cache c)) q) ->
  valid_entry type (extend ext pc n) c' pc opc ->
  coherent type (extend ext pc n) c'.
Proof.
  intros Hpc Hn Hfit W' A Hb Hs Ge Gm Go V'. split; [done | | by apply (marks_covered pc opc) |].
  - destruct C as [_ R _ _]. unfold rom_apart in *. rewrite Hs.
    destruct (ag_place _ _ _ _ _ (A 0 0 0)) as (E1 & E2 & _ & _ & E5 & E6).
    unfold isValidRomAddress, getRamBase, getRamSize in *. by rewrite E1, E2, E5, E6.
  - intros q e (Hq & He & Hd). rewrite Ge in He. rewrite Hs in Hq. case_decide as Eq.
    + by simplify_eq.
    + apply other_entry_valid; auto. done.
Qed.
End filling.

Lemma jit_install_coherent type ext c pc n id c' : coherent type ext c ->
  0 <= pc -> 1 <= n -> pc + n <= size c -> jit_install pc n id c = Some c' ->
  coherent type (extend ext pc n) c' /\ size c' = size c /\
  forall j, entry c' j = if decide (j = pc) then Some (JitFunction id) else entry c j.
Proof.
  intros C Hpc Hn Hfit E. unfold jit_install in E.
  set (c1 := set_functionMap (<[pc:=pc]> (functionMap c)) c) in E.
  assert (coherent type ext c1) as C1.
  { destruct C as [[] R K V]. split; try done. split; try done.
    cbn. intros q f [[<- <-] | [_ ?]]%lookup_insert_Some; auto. }
  destruct (core_setOpcode_marks type ext c1 C1 pc (JitFunction id) n) as (c2 & E2 & W2 & S2 & G2 & M2);
    [done.. |].
  rewrite E2 in E. simplify_eq. split; [| split; [apply S2 | exact G2]].
  apply (coherent_install type ext c1 C1 pc (JitFunction id) n); try done.
  - intros. by apply same_agree.
  - apply S2.
  - apply S2.
  - intros. by rewrite (same_operands _ _ S2).
Qed.

Lemma loadShort_ram c a : core_wf c -> getRamBase c <= a -> a + 2 <= getRamBase c + 2 * size c ->
  isValidRamAddress c a = true /\ exists v, loadShort c a = Some v.
Proof.
  intros W Ha Hb. destruct (ram_base_half c W) as (_ & ? & _).
  assert (isValidRamAddress c a = true) as V by (apply valid_ram_address; done || lia).
  split; [done |]. unfold loadShort. rewrite V. unfold loadRamShort, read16le.
  rewrite (cw_memoryOffset _ W). pose proof (cw_memory _ W).
  destruct (ram_size_shorts c W) as [Hs _].
  destruct (array_get_is_Some (memory c) (a - getRamBase c)) as [? ->]; [lia |].
  destruct (array_get_is_Some (memory c) (a - getRamBase c + 1)) as [? ->]; [lia |].
  cbn. eauto.
Qed.

(** Fetching from any pc of the RAM reads inside the memory. *)
Lemma decodeFromCore_total type c pc junk : core_wf c -> rom_apart c -> 0 <= pc < size c ->
  exists s, decodeFromCore type c (fromPc (cache c) pc) (fresh_state junk) false = Some s.
Proof.
  intros W R Hpc. destruct (fromPc_eq c pc W Hpc) as (-> & ? & ?).
  pose proof (ram_end_bound c W). destruct (ram_base_half c W) as (Hh & _).
  destruct (loadShort_ram c (getRamBase c + 2 * pc)) as [V [low Hlow]]; [done | lia | lia |].
  assert (isValidAddress c (getRamBase c + 2 * pc) = true) as VA
    by (unfold isValidAddress; by rewrite V).
  unfold decodeFromCore. rewrite VA, Hlow.
  assert ((getRamBase c + 2 * pc) .& 1 = 0) as ->.
  { change 1 with (Z.ones 1). rewrite land_ones_mod by lia. change (2 ^ 1) with 2.
    rewrite Hh. Z.div_mod_to_equations. lia. }
  cbn [Z.eqb andb assert mbind option_bind]. destruct (_ && _); [eauto |].
  destruct (isValidAddress c (u32 (getRamBase c + 2 * pc + 2))) eqn:Eh; [| eauto].
  assert (pc + 1 < size c) as Hlt.
  { destruct (decide (pc + 1 < size c)); [done |]. exfalso.
    unfold isValidAddress in Eh.
    replace (getRamBase c + 2 * pc + 2) with (getRamBase c + 2 * size c) in Eh by lia.
    rewrite R, orb_false_r, wrap_small in Eh by (unfold fits; lia).
    apply valid_ram_address in Eh; [lia | done | lia]. }
  rewrite wrap_small by (unfold fits; lia).
  destruct (loadShort_ram c (getRamBase c + 2 * pc + 2)) as [_ [high ->]]; [done | lia | lia |].
  cbn. eauto.
Qed.

(** Decoding at a pc of the RAM: unless the encoding stands for no instruction, the entry is
    filled with what the memory holds. *)
Lemma Instruction_DECODE_installs type ext c tracing dual junk pc romCache s o0 :
  coherent type ext c -> 0 <= pc < size c -> length junk = 6%nat ->
  decodeFromCore type c (fromPc (cache c) pc) (fresh_state junk) false = Some s ->
  d_opcode s = Some o0 ->
  exists c' o, Instruction_DECODE tracing dual true type junk pc c romCache = Some (c', romCache) /\
    coherent type (extend ext pc (instruction_size o / 2)) c' /\ size c' = size c /\
    forall j, entry c' j = if decide (j = pc) then Some (Inst o tracing) else entry c j.
Proof.
  intros C Hpc Hj Hd Ho. pose proof (co_wf _ _ _ C) as W.
  pose proof (decoded_fits type ext c C pc junk s o0 Hpc Hj Hd Ho) as Hfit.
  destruct (fromPc_eq c pc W Hpc) as (Hf & ? & ?).
  unfold Instruction_DECODE. rewrite Hd. cbn [mbind option_bind]. rewrite Ho.
  cbn [mbind option_bind]. unfold getDecodeCacheContaining.
  assert (isValidRamAddress c (fromPc (cache c) pc) = true) as ->
    by (rewrite Hf; apply valid_ram_address; done || lia).
  cbn [mbind option_bind].
  destruct (instructionTransform _ _ _ _ _) as [o ops] eqn:Et.
  pose proof (transform_keeps o0 (d_operands s) (cache c) (fromPc (cache c) pc) dual) as Hk.
  rewrite Et in Hk. destruct Hk as [Hk _]. set (n := instruction_size o / 2).
  assert (instruction_size o = 2 * n /\ 1 <= n) as [Hsz Hn]
    by (unfold n; destruct (instruction_size_cases o) as [-> | ->]; done).
  destruct (core_setOpcode_marks type ext c C pc (Inst o tracing) n) as (c1 & E1 & W1 & S1 & G1 & M1);
    [lia | lia | unfold n; rewrite Hk; done |].
  unfold core_setOpcode in E1. unfold setOpcodeOperands. rewrite Hsz.
  destruct (setOpcode _ _ _ _) as [k1|] eqn:Ek; [| done]. cbn [mbind option_bind] in *.
  assert (zlength (operands k1) = size c) as Hlo.
  { injection E1 as E1. pose proof (wf_operands _ (cw_cache _ W1)) as Hl. rewrite <- E1 in Hl.
    cbn in Hl. rewrite Hl. pose proof (same_size _ _ S1) as Hs. by rewrite <- E1 in Hs. }
  array_write (operands k1) pc ops operands' Eo; [lia |].
  apply array_set_spec in Eo as (_ & Lo & Go). injection E1 as <-. cbn in S1.
  eexists _, o. split; [done |]. split; [| split; [apply S1 | exact G1]].
  apply (coherent_install type ext c C pc (Inst o tracing) n); try done.
  - lia.
  - unfold n. by rewrite Hk.
  - destruct W1 as [[] ? ? ? ? ? ? ? ? ? ?]. split; try done. split; try done.
    cbn. rewrite Lo. done.
  - apply S1.
  - apply S1.
  - intros q Hq. cbn. rewrite Go, decide_False by done. by rewrite <- (same_operands _ _ S1).
  - exists ops. cbn. rewrite Go, decide_True by done. split; [done |].
    unfold extend. rewrite decide_True by done. split; [| done].
    apply (decodes_agree type c _ pc n); try done; [apply S1 | apply S1 |].
    by exists junk, dual, s, o0.
Qed.

(** ** Resetting the caches *)

(** After [resetCaches] no entry is live. *)
Lemma resetCaches_dead ext c : core_wf c -> covered ext c ->
  exists c', resetCaches c = Some c' /\ core_wf c' /\ same c c' /\ covered ext c' /\
    forall pc e, ~ live c' pc e.
Proof.
  intros W K. destruct (resetCaches_flushed ext c W K) as (c' & E & F).
  exists c'. split; [done |]. split; [apply F |]. split; [apply F |]. split; [apply F |].
  intros pc e Hl. destruct (fl_covered _ _ _ _ _ F) as [_ K']. destruct (K' pc e Hl) as (? & _).
  pose proof (proj1 Hl) as Hpc. rewrite (same_size _ _ (fl_same _ _ _ _ _ F)) in Hpc.
  apply (fl_gone _ _ _ _ _ F pc e (getRamBase c + 2 * pc) Hl); lia.
Qed.

(** Switching tracing leaves the entries and marks alone. *)
Lemma retrace_coherent type ext c t j :
  coherent type ext c ->
  coherent type ext (set_ramDecodeCache (setTracing t (cache c)) (set_jitEnabled j c)).
Proof.
  intros [W R K V]. split; try done. destruct W as [[] ? ? ? ? ? ? ? ? ? ?]. by split.
Qed.

Lemma resetCaches_kept type ext c c' :
  coherent type ext c -> resetCaches c = Some c' -> kept type ext c c'.
Proof.
  intros C E. pose proof (co_wf _ _ _ C) as W. pose proof (co_covered _ _ _ C) as K.
  destruct (resetCaches_flushed ext c W K) as (c1 & E1 & F). rewrite E in E1. simplify_eq.
  by eapply (coherent_flush type ext _ _ c c); [| apply touched_refl |].
Qed.

Lemma setRamBaseMultiple_kept type ext c romCacheBase m c' :
  coherent type ext c -> 0 <= m -> getRamSize c * (m + 1) < 2 ^ 32 ->
  setRamBaseMultiple romCacheBase m c = Some c' -> rom_apart c' -> kept type ext c c'.
Proof.
  intros C Hm Hb E R. pose proof (co_wf _ _ _ C) as W. pose proof (co_covered _ _ _ C) as K.
  destruct (resetCaches_dead ext c W K) as (c1 & E1 & W1 & S1 & K1 & D1).
  unfold setRamBaseMultiple in E. rewrite E1 in E. cbn [mbind option_bind] in E.
  injection E as E. pose proof (same_fields _ _ S1) as Sf. destruct_and! Sf.
  assert (forall pc e, ~ live c' pc e) as D by (rewrite <- E; exact D1).
  split; [| intros pc e Hl; by destruct (D pc e)]. split; [| done | |].
  - rewrite <- E. destruct W1 as [[] ? ? ? ? ? ? ? ? ? ?]. split; try done.
    change (getRamSize c1 * (m + 1) < 2 ^ 32).
    by replace (getRamSize c1) with (getRamSize c).
  - rewrite <- E. split; [apply K1 |]. intros pc e Hl. by destruct (D1 pc e).
  - intros pc e Hl. by destruct (D pc e).
Qed.

(** ** Every sequence of operations *)

Section reachable.
Context (type : NodeType).

(** The half-words of a fragment, added up as the pc advances in the loop of
    [JITImpl::compileOneFragment]. *)
Definition halfwords (fragment : list InstructionOpcode) : Z :=
  foldr (fun o n => instruction_size o / 2 + n) 0 fragment.

(** The fragment compiled last at each pc. *)
Notation Fragments := (gmap Z (list InstructionOpcode)).

(** One operation on a core: a store of the interpreter, the decoding of an entry, the
    installation of a compiled fragment, a write by the debugger, a breakpoint set or
    cleared in RAM, the JIT switched off or on, the RAM moved.  The fragments that have been
    compiled are recorded beside the core. *)
Inductive step : Core * Fragments -> Core * Fragments -> Prop :=
| step_store ty v a c c' endTrace hit fs :
    is_u32 a -> exec_store ty v a c = Some (Stored c' endTrace hit) -> step (c, fs) (c', fs)
| step_decode tracing dual junk pc romCache c c' romCache' fs :
    0 <= pc < size c -> length junk = 6%nat ->
    Instruction_DECODE tracing dual true type junk pc c romCache = Some (c', romCache') ->
    step (c, fs) (c', fs)
| step_compile pc fragment id c c' fs :
    0 <= pc -> fragment <> [] -> pc + halfwords fragment <= size c ->
    jit_install pc (halfwords fragment) id c = Some c' -> step (c, fs) (c', <[pc := fragment]> fs)
| step_write a src c c' b fs :
    is_u32 a -> zlength src < 2 ^ 32 -> writeMemory a src c = Some (c', b) -> step (c, fs) (c', fs)
| step_break v c c' b fs :
    0 <= v -> isValidRamAddress c v = true -> setBreakpoint v c = Some (c', b) ->
    step (c, fs) (c', fs)
| step_unbreak v c c' fs :
    0 <= v -> isValidRamAddress c v = true -> Z.even v = true ->
    unsetBreakpoint v c = Some c' -> step (c, fs) (c', fs)
| step_jit_off c c' fs : disableJIT c = Some c' -> step (c, fs) (c', fs)
| step_jit_on c c' fs : enableJIT c = Some c' -> step (c, fs) (c', fs)
| step_move romCacheBase m c c' fs :
    0 <= m -> getRamSize c * (m + 1) < 2 ^ 32 -> setRamBaseMultiple romCacheBase m c = Some c' ->
    rom_apart c' -> step (c, fs) (c', fs).

(** The half-words of memory that the entry at [pc] stands for: those of the instruction, or those
    of the fragment compiled there. *)
Definition extent (c : Core) (fs : Fragments) (pc : Z) : Z :=
  match entry c pc with
  | Some (Inst o _) => instruction_size o / 2
  | Some (JitFunction _) => halfwords (fs !!! pc)
  | None => 0
  end.

(** The invariant of the runs: [ext] is the extent of every entry. *)
Record good (ext : Z -> Z) (st : Core * Fragments) : Prop := {
  go_coherent : coherent type ext st.1;
  go_fragment : forall pc id, live st.1 pc (JitFunction id) ->
    exists fragment, st.2 !! pc = Some fragment /\ ext pc = halfwords fragment
}.

Lemma kept_good ext c c' fs : good ext (c, fs) -> kept type ext c c' -> good ext (c', fs).
Proof. intros [_ F] [C' L]. split; [done |]. intros pc id Hl. apply (F pc id), L, Hl. Qed.

Lemma instruction_halfwords o : 1 <= instruction_size o / 2.
Proof. by destruct (instruction_size_cases o) as [-> | ->]. Qed.

Lemma halfwords_nonneg fragment : 0 <= halfwords fragment.
Proof.
  induction fragment as [|o l IH]; [done |]. pose proof (instruction_halfwords o).
  change (0 <= instruction_size o / 2 + halfwords l). lia.
Qed.

Lemma halfwords_pos fragment : fragment <> [] -> 1 <= halfwords fragment.
Proof.
  destruct fragment as [|o l]; [done |]. intros _. pose proof (instruction_halfwords o).
  pose proof (halfwords_nonneg l). change (1 <= instruction_size o / 2 + halfwords l). lia.
Qed.

(** An entry is set at [pc] and the others are left alone. *)
Lemma install_good ext c c' fs fs' pc n e : good ext (c, fs) -> coherent type (extend ext pc n) c' ->
  size c' = size c -> (forall q, entry c' q = if decide (q = pc) then Some e else entry c q) ->
  (forall q, q <> pc -> fs' !! q = fs !! q) ->
  match e with JitFunction _ => exists l, fs' !! pc = Some l /\ n = halfwords l | Inst _ _ => True end ->
  good (extend ext pc n) (c', fs').
Proof.
  intros [_ F] C' Hs Ge Gf He. split; [done |]. intros q id (Hq & Eq & Hd). cbn in *.
  rewrite Ge in Eq. rewrite Hs in Hq. unfold extend. case_decide as Dq.
  - simplify_eq. done.
  - rewrite Gf by done. by apply (F q id).
Qed.

Lemma step_good ext st st' : good ext st -> step st st' -> exists ext', good ext' st'.
Proof.
  intros G H. pose proof (go_coherent _ _ G) as C.
  destruct H as [ty v a c c' et hit fs Ha E | tr dual junk pc rc c c' rc' fs Hpc Hj E
    | pc l id c c' fs ? Hl ? E | a src c c' b fs Ha Hs E | v c c' b fs ? ? E | v c c' fs ? ? ? E
    | c c' fs E | c c' fs E | rcb m c c' fs ? ? E R]; cbn in C.
  - exists ext. apply (kept_good ext c); [done |]. eapply exec_store_kept; [done | apply Ha | done].
  - destruct (decodeFromCore_total type c pc junk (co_wf _ _ _ C) (co_rom _ _ _ C) Hpc) as [s Hd].
    destruct (d_opcode s) as [o0|] eqn:Ho; cycle 1.
    { unfold Instruction_DECODE in E. rewrite Hd in E. cbn [mbind option_bind] in E. by rewrite Ho in E. }
    destruct (Instruction_DECODE_installs type ext c tr dual junk pc rc s o0)
      as (c1 & o & E1 & C1 & Hs & Ge); try done.
    rewrite E in E1. simplify_eq. eexists. by eapply (install_good ext c).
  - pose proof (halfwords_pos l Hl). exists (extend ext pc (halfwords l)).
    destruct (jit_install_coherent type ext c pc (halfwords l) id c') as (C' & Hs & Ge); try done.
    eapply (install_good ext c); try done.
    + intros q Hq. by rewrite lookup_insert_ne by done.
    + exists l. by rewrite lookup_insert_eq.
  - exists ext. apply (kept_good ext c); [done |]. by eapply writeMemory_kept.
  - exists ext. apply (kept_good ext c); [done |]. by eapply setBreakpoint_kept.
  - exists ext. apply (kept_good ext c); [done |]. by eapply unsetBreakpoint_kept.
  - exists ext. apply (kept_good ext c); [done |].
    exact (resetCaches_kept type ext _ c' (retrace_coherent type ext c true false C) E).
  - exists ext. apply (kept_good ext c); [done |].
    exact (resetCaches_kept type ext _ c' (retrace_coherent type ext c false true C) E).
  - exists ext. apply (kept_good ext c); [done |]. by eapply setRamBaseMultiple_kept.
Qed.

Lemma steps_good ext st st' : good ext st -> rtc step st st' -> exists ext', good ext' st'.
Proof.
  intros G H. revert ext G. induction H as [st | st st1 st' Hs _ IH]; intros ext G; [eauto |].
  destruct (step_good ext st st1 G Hs) as [ext1 G1]. eauto.
Qed.

Lemma good_extent ext c fs pc e : good ext (c, fs) -> live c pc e -> extent c fs pc = ext pc.
Proof.
  intros [C F] Hl. unfold extent. rewrite (proj1 (proj2 Hl)). destruct e as [o t|id].
  - destruct (co_valid _ _ _ C pc _ Hl) as (_ & _ & _ & E). done.
  - destruct (F pc id Hl) as (l & El & ->). cbn in El. by rewrite (lookup_total_correct _ _ _ El).
Qed.

(** [covered] is about the extents of live entries only. *)
Lemma covered_ext ext ext' c : (forall pc e, live c pc e -> ext' pc = ext pc) ->
  covered ext c -> covered ext' c.
Proof. intros H [K0 K]. split; [done |]. intros pc e Hl. rewrite (H pc e Hl). by apply (K pc e). Qed.

Lemma newCore_dead log tracing junk n c : 2 <= log <= 30 ->
  newCore (2 ^ log) (2 ^ log) tracing junk n = Some c -> forall pc e, ~ live c pc e.
Proof.
  intros Hl E. destruct (newCore_wf log tracing junk n Hl) as (c1 & E1 & _ & _ & _ & _ & D & _).
  rewrite E in E1. by simplify_eq.
Qed.

Lemma newCore_coherent log tracing junk n c : 2 <= log <= 30 ->
  newCore (2 ^ log) (2 ^ log) tracing junk n = Some c -> coherent type (fun _ => 1) c.
Proof.
  intros Hl E. destruct (newCore_wf log tracing junk n Hl) as (c1 & E1 & W & _ & _ & K & D & _).
  rewrite E in E1. simplify_eq. split; [done | | apply K | intros pc e Hlv; by destruct (D pc e)].
  unfold rom_apart, isValidRomAddress. unfold newCore in E.
  destruct (newDecodeCache _ _ _ _ _ _); [| done]. cbn in E. simplify_eq. cbn.
  apply Z.ltb_ge. apply Z.mod_pos_bound. done.
Qed.
End reachable.

(** ** The claims *)

(** C1: From a new core, whatever sequence of stores, decodes, compilations, debugger writes,
    breakpoint changes, JIT switches and moves of the RAM is performed, each interpreted
    entry of the decode cache is the instruction, with its operands, that decoding the
    current memory at that half-word gives; all the half-words that an entry stands for (the
    size of the instruction, or the total size of the instructions of the fragment compiled
    there) are marked; and the next store discards every entry of which it writes a byte,
    however far into the instruction or fragment that byte is. *)
Theorem decode_cache_coherent type log tracing junk n c0 c fs :
  2 <= log <= 30 -> newCore (2 ^ log) (2 ^ log) tracing junk n = Some c0 ->
  rtc (step type) (c0, ∅) (c, fs) ->
  (forall pc o t, live c pc (Inst o t) ->
     exists ops, array_get (operands (cache c)) pc = Some ops /\ decodes type c pc o ops) /\
  (forall pc id, live c pc (JitFunction id) -> is_Some (fs !! pc)) /\
  covered (extent c fs) c /\
  forall ty v a c' endTrace hit, is_u32 a -> exec_store ty v a c = Some (Stored c' endTrace hit) ->
    forall pc e, live c' pc e -> live c pc e /\
      forall x, a <= x < a + getLoadStoreSize ty ->
        ~ (2 * pc <= x - getRamBase c < 2 * (pc + extent c fs pc)).
Proof.
  intros Hl E Hs.
  destruct (steps_good type (fun _ => 1) (c0, ∅) (c, fs)) with (2 := Hs) as [ext G].
  { split; [by apply (newCore_coherent type log tracing junk n) |].
    intros pc id Hlv. by destruct (newCore_dead log tracing junk n c0 Hl E pc (JitFunction id)). }
  pose proof (go_coherent _ _ _ G) as C. cbn in C. pose proof (good_extent type ext c fs) as X.
  split; [| split; [| split]].
  - intros pc o t Hlv. destruct (co_valid _ _ _ C pc _ Hlv) as (ops & ? & ? & _). eauto.
  - intros pc id Hlv. destruct (go_fragment _ _ _ G pc id Hlv) as (l & ? & _). by exists l.
  - apply (covered_ext ext); [| apply C]. intros pc e Hlv. by apply (X pc e).
  - intros ty v a c' et hit Ha Es pc e Hlv.
    destruct (exec_store_flushes type ext c C ty v a c' et hit (proj1 Ha) Es) as (m' & F).
    pose proof (fl_live _ _ _ _ _ F pc e Hlv) as Hlc. split; [done |].
    intros x Hx. rewrite (X pc e G Hlc). by apply (fl_gone _ _ _ _ _ F pc e x).
Qed.

Lemma decode_cache_coherent_witness : exists c0 c c',
  newCore (2 ^ 4) (2 ^ 4) false (fun _ => 0) 1 = Some c0 /\
  rtc (step XS1_L) (c0, ∅) (c, {[ 1 := [ASHR_l3r; ADD_3r] ]}) /\
  entry c 0 = Some (Inst ADD_3r false) /\ entry c 1 = Some (JitFunction 7) /\
  exec_store BYTE 5 23 c = Some (Stored c' true false) /\ ~ live c' 1 (JitFunction 7).
Proof.
  pose (c0 := match newCore (2 ^ 4) (2 ^ 4) false (fun _ => 0) 1 with
              | Some c => c | None => mkCore [] (mkState [] [] [] None 0 0 false) 0 0 0 0 [] 0 0
                                        ∅ [] ∅ ∅ [] 0 0 0 0 false end).
  assert (newCore (2 ^ 4) (2 ^ 4) false (fun _ => 0) 1 = Some c0) as E0 by reflexivity.
  pose (c1 := match exec_store SHORT 0x1001 16 c0 with Some (Stored c _ _) => c | _ => c0 end).
  pose (c2 := match Instruction_DECODE false false true XS1_L (replicate 6 0) 0 c1 (cache c1) with
              | Some (c, _) => c | None => c1 end).
  pose (c3 := default c2 (jit_install 1 3 7 c2)).
  pose (c4 := match exec_store BYTE 5 23 c3 with Some (Stored c _ _) => c | _ => c3 end).
  assert (rtc (step XS1_L) (c0, ∅) (c3, {[ 1 := [ASHR_l3r; ADD_3r] ]})) as R.
  { eapply rtc_l; [apply (step_store XS1_L SHORT 0x1001 16 c0 c1 false false) |].
    - split; vm_compute; [discriminate | reflexivity].
    - vm_compute. reflexivity.
    - eapply rtc_l; [apply (step_decode XS1_L false false (replicate 6 0) 0 (cache c1) c1 c2 (cache c1)) |].
      + split; vm_compute; [discriminate | reflexivity].
      + reflexivity.
      + vm_compute. reflexivity.
      + apply rtc_once. apply (step_compile XS1_L 1 [ASHR_l3r; ADD_3r] 7 c2 c3);
          [lia | discriminate | vm_compute; discriminate | vm_compute; reflexivity]. }
  assert (exec_store BYTE 5 23 c3 = Some (Stored c4 true false)) as E4 by (vm_compute; reflexivity).
  exists c0, c3, c4. split; [exact E0 |]. split; [exact R |]. split; [vm_compute; reflexivity |].
  split; [vm_compute; reflexivity |]. split; [exact E4 |]. intros L.
  destruct (decode_cache_coherent XS1_L 4 false (fun _ => 0) 1 c0 c3 _ ltac:(lia) E0 R)
    as (_ & _ & _ & H).
  destruct (H BYTE 5 23 c4 true false) with (pc := 1) (e := JitFunction 7) as [_ N];
    [vm_compute; by split | exact E4 | exact L |].
  apply (N 23); [vm_compute; by split |]. vm_compute. by split.
Defined.

(** C4: Fetching and decoding at any half-word of the RAM stays inside the memory and the
    caches: the fetch always succeeds, and if the encoding stands for an instruction the
    entry is filled (the marks of both half-words of a four-byte instruction included) and
    the cache stays coherent; otherwise the code goes on with an opcode nobody has assigned. *)
Theorem decode_in_bounds type ext c tracing dual junk pc romCache :
  coherent type ext c -> 0 <= pc < size c -> length junk = 6%nat ->
  exists s, decodeFromCore type c (fromPc (cache c) pc) (fresh_state junk) false = Some s /\
    match d_opcode s with
    | Some _ => exists c' o,
        Instruction_DECODE tracing dual true type junk pc c romCache = Some (c', romCache) /\
        coherent type (extend ext pc (instruction_size o / 2)) c' /\
        entry c' pc = Some (Inst o tracing)
    | None => Instruction_DECODE tracing dual true type junk pc c romCache = None
    end.
Proof.
  intros C Hpc Hj.
  destruct (decodeFromCore_total type c pc junk (co_wf _ _ _ C) (co_rom _ _ _ C) Hpc) as [s Hd].
  exists s. split; [done |]. destruct (d_opcode s) as [o0|] eqn:Ho.
  - destruct (Instruction_DECODE_installs type ext c tracing dual junk pc romCache s o0)
      as (c' & o & E & C' & _ & Ge); try done.
    exists c', o. split; [done |]. split; [done |]. by rewrite Ge, decide_True.
  - unfold Instruction_DECODE. rewrite Hd. cbn [mbind option_bind]. by rewrite Ho.
Qed.

Lemma decode_in_bounds_witness : exists c s,
  newCore (2 ^ 4) (2 ^ 4) false (fun _ => 0) 1 = Some c /\
  decodeFromCore XS1_L c (fromPc (cache c) 7) (fresh_state (replicate 6 0)) false = Some s.
Proof.
  destruct (newCore_wf 4 false (fun _ => 0) 1) as (c & E & W & Hl & _); [lia |].
  pose proof (newCore_coherent XS1_L 4 false (fun _ => 0) 1 c ltac:(lia) E) as C.
  destruct (decode_in_bounds XS1_L _ c false false (replicate 6 0) 7 (cache c) C) as (s & H & _);
    [rewrite (cw_size c W), Hl; lia | reflexivity |].
  exists c, s. split; [exact E | exact H].
Defined.

(** C2: Invalidating a range of RAM terminates inside the arrays, touches nothing but the cache,
    and afterwards no live entry covers a byte of the range, however far before the range
    the instruction or the compiled fragment started. *)
Theorem invalidateRange_complete ext c begin end_ :
  core_wf c -> covered ext c ->
  getRamBase c <= begin -> begin <= end_ -> end_ <= getRamBase c + getRamSize c ->
  exists c' b, invalidateRange begin end_ c = Some (c', b) /\ same c c' /\ covered ext c' /\
    (forall pc e, live c' pc e -> live c pc e) /\
    forall pc e x, live c' pc e -> begin <= x < end_ ->
      ~ (2 * pc <= x - getRamBase c < 2 * (pc + ext pc)).
Proof.
  intros W K Hb Hbe He. destruct (ram_size_shorts c W) as [Hs _]. rewrite Hs in He.
  destruct (invalidateRange_flushed ext c W K begin end_ Hb Hbe He) as (c' & b & E & F).
  exists c', b. split; [done |]. destruct F. auto.
Qed.

Lemma invalidateRange_complete_witness : exists c c' b,
  newCore (2 ^ 4) (2 ^ 4) false (fun _ => 0) 1 = Some c /\
  invalidateRange 17 31 c = Some (c', b) /\ same c c'.
Proof.
  destruct (newCore_wf 4 false (fun _ => 0) 1) as (c & E & W & Hl & Hm & K & _); [lia |].
  assert (getRamBase c = 16 /\ getRamSize c = 16) as [Hb Hs]
    by (unfold getRamBase, getRamSize; rewrite Hl, Hm; split; reflexivity).
  destruct (invalidateRange_complete (fun _ => 1) c 17 31 W (K _)) as (c' & b & H & S & _);
    [lia | lia | lia |].
  exists c, c', b. split; [exact E |]. split; [exact H | exact S].
Defined.
