(* ===== verification/CoreLimits.v ===== *)
(** * Edges of the core's memory operations

    Debugger access to memory, and behaviours of [Core] that differ from
    what the surrounding code or its comments intend: the last byte of the
    RAM is out of reach of [readMemory] and [writeMemory], switching the JIT
    off leaves non-tracing stubs, the check for doubleword stores looks at
    one word, a breakpoint in ROM indexes the RAM's marks, and the decode
    cache is sized by the base of the RAM. *)

From stdpp Require Import base list numbers option gmap.
From Stdlib Require Import ZArith Lia.
From S2P Require Import Prelude BitManip Opcode InstrDecode DecodeCache Watchpoint Core.
From S2P Require Import CoreFacts MemoryAccess Coherence.

#[local] Open Scope Z_scope.
#[local] Open Scope cbits_scope.

(** ** Nothing marked, nothing cleared *)

Lemma invalidateFor_idle fuel cond step body (I : Z -> Prop) a inv c c' a' inv' :
  (forall a, I a -> cond a = true -> body a c = Some (c, false) /\ I (u32 (a + step))) ->
  I a -> invalidateFor fuel cond step body a inv c = Some (c', a', inv') -> c' = c.
Proof.
  intros Hb. revert a inv. induction fuel as [|fuel IH]; intros a inv HI; cbn [invalidateFor];
    destruct (cond a) eqn:Ec; intros E; simplify_eq; try done.
  destruct (Hb a HI Ec) as [Eb HI']. rewrite Eb in E. cbn in E. by apply (IH _ _ HI') in E.
Qed.

Lemma invalidateWord_idle c h a : core_wf c -> 0 <= h -> h + 1 < size c -> a .>> 1 = shifted c h ->
  mark c h = Some INVALIDATE_NONE -> mark c (h + 1) = Some INVALIDATE_NONE ->
  invalidateWord a c = Some (c, false).
Proof.
  intros W Hh Hs Ha M0 M1. unfold invalidateWord, invalidateWordCheck. rewrite Ha.
  replace (shifted c h + 1) with (shifted c (h + 1)) by (unfold shifted; lia).
  by rewrite !infoGet_mark, M0, M1.
Qed.

Lemma resetCaches_idle ext c : core_wf c -> covered ext c ->
  (forall pc, 0 <= pc < size c -> mark c pc = Some INVALIDATE_NONE) -> resetCaches c = Some c.
Proof.
  intros W K M. destruct (resetCaches_flushed ext c W K) as (c' & E & _). rewrite E. f_equal.
  unfold resetCaches in E. cbv zeta in E.
  destruct (invalidateFor _ _ _ _ _ _ _) as [[[c1 a1] i1]|] eqn:Ef; [| done]. cbn in E. simplify_eq.
  destruct (ram_base_half c W) as (Hh & ? & ?). pose proof (ram_end_bound c W).
  destruct (ram_size_shorts c W) as [Hs ?]. pose proof (ram_size_mod4 c W) as H4. rewrite Hs in H4.
  fold (getRamSize c) in Ef. rewrite Hs, wrap_small in Ef by (unfold fits; lia).
  refine (invalidateFor_idle _ _ _ _ (fun a => exists m, 0 <= m /\ a = getRamBase c + 4 * m)
    _ _ _ _ _ _ _ _ Ef); [| exists 0; lia].
  intros a [m [Hm ->]] Hlt%Z.ltb_lt.
  assert (2 * m + 1 < size c) by (Z.div_mod_to_equations; lia). split.
  - apply (invalidateWord_idle c (2 * m)); [done | lia | lia | | apply M; lia..].
    unfold shifted. rewrite Z.shiftr_div_pow2 by lia. change (2 ^ 1) with 2.
    rewrite Hh at 1. Z.div_mod_to_equations. lia.
  - exists (m + 1). split; [lia |]. rewrite wrap_small by (unfold fits; lia). lia.
Qed.

(** Switching the JIT off on a core that has decoded nothing yet (as setting a watchpoint
    before the program runs does) changes no entry: every half-word keeps the stub that
    decodes into non-tracing instructions, although the cache is now marked as tracing, so
    these instructions go on counting executions and being compiled. *)
Theorem disableJIT_keeps_fast_stubs log junk n c :
  2 <= log <= 30 -> newCore (2 ^ log) (2 ^ log) false junk n = Some c ->
  exists c', disableJIT c = Some c' /\ jitEnabled c' = false /\ tracingEnabled (cache c') = true /\
    forall pc, 0 <= pc < size c' -> entry c' pc = Some (Inst DECODE false).
Proof.
  intros Hl E.
  pose proof (newCore_coherent XS1_L log false junk n c Hl E) as C0.
  pose proof (retrace_coherent XS1_L _ c true false C0) as C.
  destruct (newCore_wf log false junk n Hl) as (c0 & E0 & _ & _ & _ & _ & _ & _ & _ & EM).
  rewrite E in E0. simplify_eq.
  set (c1 := set_ramDecodeCache (setTracing true (cache c0)) (set_jitEnabled false c0)) in C.
  assert (disableJIT c0 = Some c1) as Ed.
  { change (resetCaches c1 = Some c1).
    apply (resetCaches_idle (fun _ => 1)); [apply C | apply C |].
    intros pc Hpc. by apply EM. }
  exists c1. split; [done |]. split; [done |]. split; [done |].
  intros pc Hpc. by apply EM.
Qed.

Lemma disableJIT_keeps_fast_stubs_witness : exists c c',
  newCore (2 ^ 16) (2 ^ 16) false (fun _ => 0) 8 = Some c /\
  disableJIT c = Some c' /\ tracingEnabled (cache c') = true.
Proof.
  destruct (newCore_wf 16 false (fun _ => 0) 8) as (c & E & _); [lia |].
  destruct (disableJIT_keeps_fast_stubs 16 (fun _ => 0) 8 c ltac:(lia) E) as (c' & H & _ & Ht & _).
  exists c, c'. split; [exact E |]. split; [exact H | exact Ht].
Defined.

(** ** Debugger access *)

Lemma memoryRange_spec c a s : core_wf c -> is_u32 a -> 0 < s < 2 ^ 32 ->
  memoryRangeRefused c a s = true <-> a < getRamBase c \/ getRamBase c + getRamSize c <= a + s.
Proof.
  intros W [Ha Ha'] Hs. destruct (ram_size_shorts c W) as [Hz ?].
  destruct (ram_base_half c W) as (_ & ? & ?).
  unfold memoryRangeRefused. rewrite Hz.
  rewrite (wrap_small 32 (getRamBase c + _)), (wrap_small 64 (a + s)) by (unfold fits in *; lia).
  rewrite orb_true_iff, Z.ltb_lt, Z.leb_le. done.
Qed.

Lemma blit_read src p bytes : 0 <= p -> p + zlength src <= zlength bytes ->
  exists m, blit src p bytes = Some m /\ length m = length bytes /\
    take (length src) (drop (Z.to_nat p) m) = src.
Proof.
  intros Hp Hl. unfold blit, assert.
  rewrite (proj2 (Z.leb_le 0 p)), (proj2 (Z.leb_le (p + _) _)) by lia. cbn [andb mbind option_bind].
  eexists. split; [done |]. split.
  - rewrite !length_app, length_take, length_drop. lia.
  - rewrite drop_app_length', take_app_length; [done |]. rewrite length_take. lia.
Qed.

(** Away from the last byte, a write is read back and flushes the cache. *)
Lemma write_read ext c a src : core_wf c -> covered ext c -> 0 < zlength src ->
  getRamBase c <= a -> a + zlength src <= getRamBase c + 2 * size c ->
  memoryRangeRefused c a (zlength src) = false ->
  exists c', writeMemory a src c = Some (c', true) /\
    readMemory a (zlength src) c' = Some (Some src) /\
    forall pc e x, live c' pc e -> a <= x < a + zlength src ->
      ~ (2 * pc <= x - getRamBase c < 2 * (pc + ext pc)).
Proof.
  intros W K Hl Hb He Er. destruct (ram_size_shorts c W) as [Hz ?].
  destruct (ram_base_half c W) as (_ & ? & ?). pose proof (cw_memory c W) as Hm.
  assert ((zlength src =? 0) = false) as Hnz by (apply Z.eqb_neq; lia).
  unfold writeMemory. rewrite Hnz, Er, (cw_memoryOffset c W).
  destruct (blit_read src (a - getRamBase c) (memory c)) as (m & -> & Lm & Hr); [lia.. |].
  cbn [mbind option_bind]. rewrite (wrap_small 32 (a + zlength src)) by (unfold fits; lia).
  destruct (invalidateRange_flushed ext (set_memory m c)) with (begin := a) (end_ := a + zlength src)
    as (c' & b & -> & F); [by apply set_memory_wf | done | done | lia |
      change (a + zlength src <= getRamBase c + 2 * size c); lia |].
  cbn [mbind option_bind]. exists c'. split; [done |]. split; [| apply F].
  pose proof (same_fields _ _ (fl_same _ _ _ _ _ F)) as Sf. destruct_and! Sf.
  unfold readMemory. rewrite Hnz.
  assert (getRamBase c' = getRamBase c) as Eb by done.
  assert (getRamSize c' = getRamSize c) as Es by done.
  assert (memoryRangeRefused c' a (zlength src) = false) as ->
    by (rewrite <- Er; unfold memoryRangeRefused; by rewrite Eb, Es).
  replace (memory c') with m by (symmetry; done).
  replace (memoryOffset c') with (getRamBase c) by (rewrite <- (cw_memoryOffset c W); symmetry; done).
  unfold assert. rewrite (proj2 (Z.leb_le 0 _)), (proj2 (Z.leb_le (_ - _ + _) _)) by lia.
  cbn [andb mbind option_bind]. by rewrite Nat2Z.id, Hr.
Qed.

(** What the debugger writes to RAM it reads back, and cached instructions over the written
    bytes are gone, for every range that ends before the last byte of the RAM; a range that
    contains the last byte is refused by both operations, although the core itself can
    access it. *)
Theorem debugger_memory_access ext c a src :
  core_wf c -> covered ext c -> is_u32 a -> 0 < zlength src < 2 ^ 32 ->
  getRamBase c <= a -> a + zlength src <= getRamBase c + getRamSize c ->
  if decide (a + zlength src < getRamBase c + getRamSize c) then
    exists c', writeMemory a src c = Some (c', true) /\
      readMemory a (zlength src) c' = Some (Some src) /\
      forall pc e x, live c' pc e -> a <= x < a + zlength src ->
        ~ (2 * pc <= x - getRamBase c < 2 * (pc + ext pc))
  else
    writeMemory a src c = Some (c, false) /\ readMemory a (zlength src) c = Some None /\
    exists v, loadByte c (getRamBase c + getRamSize c - 1) = Some v.
Proof.
  intros W K Ha Hl Hb He. pose proof (memoryRange_spec c a (zlength src) W Ha Hl) as Hr.
  destruct (ram_size_shorts c W) as [Hz ?]. destruct (ram_base_half c W) as (_ & ? & ?).
  case_decide as Hd.
  - apply (write_read ext c a src W K); [lia | done | lia |].
    apply not_true_iff_false. rewrite Hr. lia.
  - assert ((zlength src =? 0) = false) as Hnz by (apply Z.eqb_neq; lia).
    unfold writeMemory, readMemory. rewrite Hnz, (proj2 Hr) by lia.
    split; [done |]. split; [done |]. unfold loadByte.
    assert (isValidRamAddress c (getRamBase c + getRamSize c - 1) = true) as ->
      by (apply valid_ram_address; (done || lia)).
    unfold loadRamByte. rewrite (cw_memoryOffset c W). apply array_get_is_Some.
    rewrite (cw_memory c W). lia.
Qed.

Lemma debugger_memory_access_witness : exists c,
  newCore (2 ^ 4) (2 ^ 4) false (fun _ => 0) 1 = Some c /\
  (exists c', writeMemory 20 [1; 2; 3] c = Some (c', true) /\ readMemory 20 3 c' = Some (Some [1; 2; 3])) /\
  writeMemory 29 [1; 2; 3] c = Some (c, false).
Proof.
  destruct (newCore_wf 4 false (fun _ => 0) 1) as (c & E & W & Hl & Hm & K & _); [lia |].
  assert (getRamBase c = 16 /\ getRamSize c = 16) as [Hb Hs]
    by (unfold getRamBase, getRamSize; rewrite Hl, Hm; split; reflexivity).
  exists c. split; [exact E |]. split.
  - pose proof (debugger_memory_access (fun _ => 1) c 20 [1; 2; 3] W (K _)) as H.
    rewrite decide_True in H by (cbn; lia).
    destruct H as (c' & H1 & H2 & _); [unfold fits; lia | cbn; lia | lia | cbn; lia |].
    exists c'. split; [exact H1 | exact H2].
  - pose proof (debugger_memory_access (fun _ => 1) c 29 [1; 2; 3] W (K _)) as H.
    rewrite decide_False in H by (cbn; lia).
    destruct H as (H1 & _); [unfold fits; lia | cbn; lia | lia | cbn; lia |]. exact H1.
Defined.

(** ** The doubleword check, breakpoints in ROM, and the size of the cache *)

(** The check that compiled code makes before an eight-byte store looks at the first word
    only: whatever is cached in the second word, it reports nothing to invalidate when the
    first word is unmarked.  An entry at the sixth byte of the doubleword shows it: the
    check passes although the entry covers a byte about to be overwritten. *)
Theorem double_check_misses_second_word : exists c ext,
  coherent XS1_L ext c /\ live c 3 (JitFunction 1) /\
  invalidateDoubleCheck c (getRamBase c) = Some false /\
  invalidateWordCheck c (getRamBase c + 4) = Some true.
Proof.
  destruct (newCore_wf 4 false (fun _ => 0) 1) as (c & E & W & Hl & Hm & K & _); [lia |].
  pose proof (newCore_coherent XS1_L 4 false (fun _ => 0) 1 c ltac:(lia) E) as C.
  assert (size c = 8) as Hs by (rewrite (cw_size c W), Hl; reflexivity).
  destruct (jit_install 3 1 1 c) as [c'|] eqn:Ej; cycle 1.
  { exfalso. assert (jit_install 3 1 1 c <> None); [| done].
    clear -E. vm_compute in E. injection E as <-. vm_compute. discriminate. }
  exists c', (extend (fun _ => 1) 3 1). split.
  - apply (jit_install_coherent XS1_L (fun _ => 1) c 3 1 1 c' C); try lia; done.
  - clear -E Ej. vm_compute in E. injection E as <-. vm_compute in Ej. injection Ej as <-.
    repeat split; vm_compute; done.
Qed.

(** Setting a breakpoint on an (even) address of the ROM succeeds the address test but then
    reads the invalidation marks of the RAM at the ROM's half-word, outside the array. *)
Theorem rom_breakpoint_out_of_bounds c v :
  core_wf c -> is_u32 v -> Z.even v = true -> isValidRomAddress c v = true ->
  isValidRamAddress c v = false -> (v ∉ breakpoints c) -> setBreakpoint v c = None.
Proof.
  intros W [Hv Hv'] He Hr Hram Hb. unfold setBreakpoint.
  assert (v .& 1 = 0) as ->.
  { change 1 with (Z.ones 1). rewrite land_ones_mod by lia. change (2 ^ 1) with 2.
    apply Z.even_spec in He as [m ->]. Z.div_mod_to_equations. lia. }
  unfold isValidAddress. rewrite Hr, orb_true_r. cbn [Z.eqb negb orb].
  rewrite bool_decide_eq_false_2 by done.
  unfold invalidateShort, invalidateShortCheck, infoGet.
  change (invalidationInfoOffset (set_breakpoints _ c)) with (invalidationInfoOffset c).
  rewrite (cw_infoOffset c W). destruct (cw_info c W) as [info Hi].
  change (ramDecodeCache (set_breakpoints _ c)) with (cache c). rewrite Hi.
  cbn [mbind option_bind]. destruct (array_get info _) eqn:Eg; [| done]. exfalso.
  apply array_get_bound in Eg. rewrite (wf_info _ (cw_cache c W) _ Hi) in Eg.
  assert (isValidRamAddress c v = true); [| congruence].
  apply valid_ram_address; [done.. |]. destruct (ram_base_half c W) as (Hh & ? & ?).
  rewrite Z.shiftr_div_pow2 in Eg by lia. change (2 ^ 1) with 2 in Eg.
  Z.div_mod_to_equations. lia.
Qed.

(** A core with a ROM of 16 bytes at address 64. *)
Definition core_with_rom (c : Core) : Core :=
  mkCore (memory c) (ramDecodeCache c) (memoryOffset c) (invalidationInfoOffset c)
    (ramSizeLog2 c) (ramBaseMultiple c) (replicate 16 0) 64 16 (functionMap c)
    (unreachableFunctions c) (breakpoints c) (watchpoints c) (threadCaches c) (coreNumber c)
    (bootModePins c) (bootStatus c) (vector_base c) (jitEnabled c).

Lemma rom_breakpoint_out_of_bounds_witness : exists c,
  newCore (2 ^ 4) (2 ^ 4) false (fun _ => 0) 1 = Some c /\ setBreakpoint 66 (core_with_rom c) = None.
Proof.
  destruct (newCore_wf 4 false (fun _ => 0) 1) as (c & E & W & Hl & Hm & _ & _ & _ & Hb & _); [lia |].
  exists c. split; [exact E |].
  apply (rom_breakpoint_out_of_bounds (core_with_rom c) 66).
  - destruct W. split; assumption.
  - unfold fits. lia.
  - reflexivity.
  - reflexivity.
  - unfold isValidRamAddress. cbn [ramSizeLog2 ramBaseMultiple core_with_rom].
    rewrite Hl, Hm. reflexivity.
  - cbn [breakpoints core_with_rom]. rewrite Hb. apply not_elem_of_empty.
Defined.

(** The constructor sizes the cache by the base of the RAM: with the RAM of [2 ^ log] bytes at
    twice that address, a pc past the end of the memory is valid. *)
Lemma newCore_cache_size log tracing junk n c : 2 <= log <= 29 ->
  newCore (2 ^ log) (2 * 2 ^ log) tracing junk n = Some c ->
  zlength (memory c) = 2 ^ log /\ isValidRamPc c (2 ^ log - 1) = true.
Proof.
  intros Hl E. unfold newCore in E.
  destruct (newDecodeCache _ _ _ _ _ _) as [k|] eqn:Ek; [| done].
  cbn [mbind option_bind] in E. injection E as <-.
  assert (0 < 2 ^ log) by (apply pow2_pos; lia).
  assert (sizeShorts k = 2 ^ log) as Hs.
  { unfold newDecodeCache, initCache in Ek. repeat (case_match || (cbn [mbind option_bind] in Ek)); try done.
    repeat match type of Ek with context [array_set ?l ?i ?v] =>
      destruct (array_set l i v); cbn [mbind option_bind] in Ek; [| discriminate Ek] end.
    injection Ek as <-. cbn. rewrite Z.shiftr_div_pow2, Z.mul_comm by lia. apply Z.div_mul. lia. }
  cbn [memory]. rewrite !length_fmap, length_seq. split; [lia |]. unfold isValidRamPc, isValidPc.
  cbn [ramDecodeCache]. rewrite Hs. apply Z.ltb_lt. lia.
Qed.
