(* ===== verification/Refs.v ===== *)
(** * Names of the objects of a system

    The program points to threads, resources and runnables; here a pointer is a name.  A
    resource of a core is named by the position of its node in the system, the position of its
    core in the node, and its number. *)

From stdpp Require Import base numbers countable.
From S2P Require Import Prelude.

(** A core: its node and its position in the node. *)
Abbreviation CoreRef := (nat * nat)%type.
(** A thread, timer, lock, synchroniser, channel end or clock block. *)
Abbreviation Ref := (CoreRef * nat)%type.

(** A resource that can raise events. *)
Inductive EventableRef :=
  | TimerRef (r : Ref)
  | ChanendRef (r : Ref)
  | EvPortRef (c : CoreRef) (width num : Z).

#[export] Instance EventableRef_eq_dec : EqDecision EventableRef.
Proof. solve_decision. Defined.

Definition eventable_code (e : EventableRef) : Ref + Ref + CoreRef * Z * Z :=
  match e with
  | TimerRef r => inl (inl r)
  | ChanendRef r => inl (inr r)
  | EvPortRef c w n => inr (c, w, n)
  end.
Definition eventable_decode (x : Ref + Ref + CoreRef * Z * Z) : EventableRef :=
  match x with
  | inl (inl r) => TimerRef r
  | inl (inr r) => ChanendRef r
  | inr (c, w, n) => EvPortRef c w n
  end.

#[export] Instance EventableRef_countable : Countable EventableRef.
Proof. refine (inj_countable' eventable_code eventable_decode _). by intros []. Defined.

(** An object the scheduler can run: a thread, an eventable resource, or another one (the
    timeout, a peripheral). *)
Inductive RunnableRef :=
  | RThread (r : Ref)
  | REventable (e : EventableRef)
  | ROther (n : nat).

#[export] Instance RunnableRef_eq_dec : EqDecision RunnableRef.
Proof. solve_decision. Defined.

#[export] Instance RunnableRef_countable : Countable RunnableRef.
Proof.
  refine (inj_countable'
    (fun r => match r with RThread t => inl (inl t) | REventable e => inl (inr e) | ROther n => inr n end)
    (fun x => match x with inl (inl t) => RThread t | inl (inr e) => REventable e | inr n => ROther n end) _).
  by intros [].
Defined.
