(* ===== verification/RingBuffer.v ===== *)
(** * Ring buffers and tokens (lib/ring_buffer.h, lib/Token.h)

    A fixed array with a read and a write index, used as a first-in
    first-out queue.  [contents] is the abstract queue; the operations
    refine those on lists. *)

From Stdlib Require Import ZArith Lia.
From stdpp Require Import base list numbers option.
From S2P Require Import Prelude.

#[local] Open Scope Z_scope.

(** lib/ring_buffer.h:12-17 ring_buffer: [BufSize] is the template parameter *)
Record ring_buffer (A : Type) := mkRing {
  buf : list A;
  writeIdx : Z;
  readIdx : Z;
  numEntries : Z
}.
Arguments mkRing {A}. Arguments buf {A}. Arguments writeIdx {A}.
Arguments readIdx {A}. Arguments numEntries {A}.

Section ring.
Context {A : Type} (BufSize : Z).
Implicit Types r : ring_buffer A.

(** lib/ring_buffer.h:19-22 ring_buffer: [junk] is what the array holds *)
Definition new_ring (junk : A) : ring_buffer A := mkRing (replicate (Z.to_nat BufSize) junk) 0 0 0.

(** lib/ring_buffer.h:24-27 empty *)
Definition rb_empty r : bool := numEntries r =? 0.

(** lib/ring_buffer.h:29-32 full *)
Definition rb_full r : bool := numEntries r =? BufSize.

(** lib/ring_buffer.h:34-39 push_back *)
Definition push_back (t : A) r : option (ring_buffer A) :=
  b ← array_set (buf r) (writeIdx r) t;
  Some (mkRing b (u32 (writeIdx r + 1) mod BufSize) (readIdx r) (u32 (numEntries r + 1))).

(** lib/ring_buffer.h:41-45 pop_front *)
Definition pop_front r : ring_buffer A :=
  mkRing (buf r) (writeIdx r) (u32 (readIdx r + 1) mod BufSize) (u32 (numEntries r - 1)).

(** lib/ring_buffer.h:47-51 pop_front: several entries *)
Definition pop_front_n (num : Z) r : ring_buffer A :=
  mkRing (buf r) (writeIdx r) (u32 (readIdx r + num) mod BufSize) (u32 (numEntries r - num)).

(** lib/ring_buffer.h:53-56 size *)
Definition rb_size r : Z := numEntries r.

(** lib/ring_buffer.h:63-66 remaining *)
Definition remaining r : Z := u32 (BufSize - numEntries r).

(** lib/ring_buffer.h:68-71 front *)
Definition front r : option A := array_get (buf r) (readIdx r).

(** lib/ring_buffer.h:84-87 back *)
Definition back r : option A := array_get (buf r) (u32 (writeIdx r - 1) mod BufSize).

(** lib/ring_buffer.h:94-97 operator[] *)
Definition rb_get r (idx : Z) : option A := array_get (buf r) (u32 (readIdx r + idx) mod BufSize).

(** lib/ring_buffer.h:100-104 clear *)
Definition clear r : ring_buffer A := mkRing (buf r) (writeIdx r) (writeIdx r) 0.

(** ** The abstract queue *)

(** The indices are in range and consistent. *)
Record ring_wf r : Prop := {
  rw_length : zlength (buf r) = BufSize;
  rw_size : 0 < BufSize < 2 ^ 31;
  rw_read : 0 <= readIdx r < BufSize;
  rw_entries : 0 <= numEntries r <= BufSize;
  rw_write : writeIdx r = (readIdx r + numEntries r) mod BufSize
}.

(** The buffer stands for the queue [l]. *)
Record ring_repr r (l : list A) : Prop := {
  rr_wf : ring_wf r;
  rr_length : zlength l = numEntries r;
  rr_get : forall i, 0 <= i < numEntries r ->
    array_get l i = array_get (buf r) ((readIdx r + i) mod BufSize)
}.

Lemma ring_idx r i : ring_wf r -> 0 <= i <= BufSize -> u32 (readIdx r + i) = readIdx r + i.
Proof. intros W Hi. destruct W. apply wrap_small. unfold fits. lia. Qed.

Lemma ring_write_slot r : ring_wf r -> 0 <= writeIdx r < BufSize.
Proof. intros W. destruct W as [? ? ? ? ->]. apply Z.mod_pos_bound. lia. Qed.

(** Positions less than [BufSize] apart are different slots. *)
Lemma mod_slot_inj B a i j : 0 < B -> 0 <= i -> i < j -> j < i + B ->
  (a + i) mod B <> (a + j) mod B.
Proof.
  intros HB Hi Hij Hj E.
  assert ((j - i) mod B = 0) as E0.
  { replace (j - i) with ((a + j) - (a + i)) by lia.
    by rewrite Zminus_mod, E, Z.sub_diag, Z.mod_0_l by lia. }
  rewrite Z.mod_small in E0 by lia. lia.
Qed.

Lemma push_back_repr t r l : ring_repr r l -> rb_full r = false ->
  exists r', push_back t r = Some r' /\ ring_repr r' (l ++ [t]).
Proof.
  intros [W L G] Hf%Z.eqb_neq. pose proof (ring_write_slot r W) as Hw.
  destruct W as [Wl Ws Wr We Ww]. unfold push_back.
  array_write (buf r) (writeIdx r) t b E; [lia |]. apply array_set_spec in E as (_ & Lb & Gb).
  eexists. split; [done |].
  rewrite (wrap_small 32 (writeIdx r + 1)), (wrap_small 32 (numEntries r + 1)) by (unfold fits; lia).
  split; cbn.
  - split; cbn; try lia.
    rewrite Ww, Zplus_mod_idemp_l. f_equal. lia.
  - rewrite length_app. cbn. lia.
  - intros i Hi. destruct (decide (i = numEntries r)) as [->|Hne].
    + rewrite array_get_app_r by lia. rewrite L, Z.sub_diag. cbn.
      rewrite Gb, decide_True; [done | by rewrite Ww].
    + rewrite array_get_app_l by lia. rewrite G by lia. rewrite Gb, decide_False; [done |].
      rewrite Ww. apply mod_slot_inj; lia.
Qed.

Lemma pop_front_n_repr n r l : ring_repr r l -> 0 <= n <= numEntries r ->
  ring_repr (pop_front_n n r) (drop (Z.to_nat n) l).
Proof.
  intros [W L G] Hn. pose proof W as W0. destruct W as [Wl Ws Wr We Ww]. unfold pop_front_n.
  rewrite (ring_idx r n) by (done || lia). rewrite wrap_small by (unfold fits; lia).
  split; cbn.
  - split; cbn; try lia; [apply Z.mod_pos_bound; lia |].
    rewrite Zplus_mod_idemp_l, Ww. f_equal. lia.
  - rewrite length_drop. lia.
  - intros i Hi. rewrite array_get_drop, G by lia. rewrite Zplus_mod_idemp_l. do 2 f_equal. lia.
Qed.

Lemma rb_get_repr r l i : ring_repr r l -> 0 <= i < numEntries r -> rb_get r i = array_get l i.
Proof.
  intros [W L G] Hi. unfold rb_get. rewrite G by done.
  rewrite (ring_idx r i); [done | done |]. destruct W. lia.
Qed.

Lemma remaining_repr r l : ring_repr r l -> remaining r = BufSize - zlength l.
Proof.
  intros [W L G]. unfold remaining. rewrite L. destruct W. apply wrap_small. unfold fits. lia.
Qed.

Lemma new_ring_repr junk : 0 < BufSize < 2 ^ 31 -> ring_repr (new_ring junk) [].
Proof.
  intros. split; cbn; try lia. split; cbn; try lia; [rewrite length_replicate; lia |].
  by rewrite Z.mod_0_l by lia.
Qed.
End ring.

(** A ring buffer is a queue: if it represents the list [l], then it is empty or full
    exactly when [l] has no or [BufSize] elements; pushing on a buffer that is not full
    represents [l] with the element added at the end; dropping the first entries, reading
    the front, the back or the [i]-th entry, and clearing do the same to [l].  (Reading the
    back relies on the size being a divisor of 2^32, as the index is decremented modulo
    2^32.) *)
Theorem ring_buffer_is_queue {A} (BufSize : Z) (r : ring_buffer A) (l : list A) (t : A) (n i : Z) :
  ring_repr BufSize r l ->
  rb_empty r = bool_decide (l = []) /\ rb_full BufSize r = bool_decide (zlength l = BufSize) /\
  (rb_full BufSize r = false ->
    exists r', push_back BufSize t r = Some r' /\ ring_repr BufSize r' (l ++ [t])) /\
  (l <> [] -> pop_front BufSize r = pop_front_n BufSize 1 r /\
    front r = list.head l /\ (2 ^ 32 mod BufSize = 0 -> back BufSize r = list.last l)) /\
  (0 <= n <= zlength l -> ring_repr BufSize (pop_front_n BufSize n r) (drop (Z.to_nat n) l)) /\
  (0 <= i < zlength l -> rb_get BufSize r i = array_get l i) /\
  ring_repr BufSize (clear r) [].
Proof.
  intros R. pose proof R as [W L G]. pose proof (ring_write_slot _ _ W) as Hw.
  destruct W as [Wl Ws Wr We Ww]. split; [| split; [| split; [| split; [| split; [| split]]]]].
  - unfold rb_empty. destruct l; cbn in L.
    + by rewrite <- L.
    + rewrite bool_decide_eq_false_2 by done. apply Z.eqb_neq. lia.
  - unfold rb_full. rewrite L. case_bool_decide; [by apply Z.eqb_eq | by apply Z.eqb_neq].
  - intros Hf. by apply push_back_repr.
  - intros Hne. assert (0 < numEntries r) by (destruct l; [done | cbn in L; lia]).
    split; [done |]. split.
    + unfold front. rewrite <- (Z.mod_small (readIdx r) BufSize) by lia.
      rewrite <- (Z.add_0_r (readIdx r)), <- G by lia. by destruct l.
    + intros Hd. unfold back, wrap.
      assert ((writeIdx r - 1) mod 2 ^ 32 mod BufSize = (readIdx r + (numEntries r - 1)) mod BufSize) as ->.
      { apply Z.mod_divide in Hd; [| lia]. rewrite Z.mod_mod_divide by done.
        rewrite Ww, Zminus_mod_idemp_l. f_equal. lia. }
      rewrite <- G by lia. rewrite last_lookup. unfold array_get.
      rewrite (proj2 (Z.leb_le 0 _)) by lia. f_equal. lia.
  - intros Hn. by apply pop_front_n_repr; [| lia].
  - intros Hi. by apply rb_get_repr; [| lia].
  - split; cbn; try lia. split; cbn; try lia. by rewrite Z.add_0_r, Z.mod_small by lia.
Qed.

Lemma ring_buffer_is_queue_witness :
  ring_repr 8 (mkRing [5; 6; 7; 0; 0; 0; 3; 4] 3 6 5) [3; 4; 5; 6; 7] /\
  back 8 (mkRing [5; 6; 7; 0; 0; 0; 3; 4] 3 6 5) = Some 7.
Proof.
  assert (ring_repr 8 (mkRing [5; 6; 7; 0; 0; 0; 3; 4] 3 6 5) [3; 4; 5; 6; 7]) as R.
  { split; [split; vm_compute; intuition discriminate | reflexivity |]. intros i Hi. cbn in Hi. enum_Z i Hi; reflexivity. }
  split; [exact R |].
  destruct (ring_buffer_is_queue 8 _ _ 0 0 0 R) as (_ & _ & _ & H & _).
  destruct H as (_ & _ & H); [discriminate |]. rewrite H by reflexivity. reflexivity.
Defined.

(** ** Tokens *)

(** lib/Token.h:13-20 ControlTokenValue *)
Definition CT_END : Z := 1.
Definition CT_PAUSE : Z := 2.
Definition CT_ACK : Z := 3.
Definition CT_NACK : Z := 4.
Definition CT_WRITEC : Z := 0xc0.
Definition CT_READC : Z := 0xc1.

(** lib/Token.h:22-29 Token *)
Record Token := mkToken { tokenValue : Z; isControl : bool }.

#[export] Instance Token_eq_dec : EqDecision Token.
Proof. solve_decision. Defined.

(** lib/Token.h:39-41 isCtEnd *)
Definition isCtEnd (t : Token) : bool := isControl t && (tokenValue t =? CT_END).
(** lib/Token.h:43-45 isCtPause *)
Definition isCtPause (t : Token) : bool := isControl t && (tokenValue t =? CT_PAUSE).
