(* ===== verification/Resource.v ===== *)
(** * Resource identifiers and resource tables (lib/Resource.h, lib/Core.cpp)

    A resource identifier is a 32-bit word with a type, a number and, for
    channel ends and ports, a node or a width.  A core finds a resource by
    its identifier in tables of fixed size, and allocates the first free one
    of a type. *)

From stdpp Require Import base list numbers option.
From Stdlib Require Import ZArith Lia Btauto.
From S2P Require Import Prelude BitManip.

#[local] Open Scope Z_scope.
#[local] Open Scope cbits_scope.

(** lib/Resource.h:16-26 ResourceType *)
Definition RES_TYPE_PORT : Z := 0.
Definition RES_TYPE_TIMER : Z := 1.
Definition RES_TYPE_CHANEND : Z := 2.
Definition RES_TYPE_SYNC : Z := 3.
Definition RES_TYPE_THREAD : Z := 4.
Definition RES_TYPE_LOCK : Z := 5.
Definition RES_TYPE_CLKBLK : Z := 6.
Definition RES_TYPE_PS : Z := 11.
Definition RES_TYPE_CONFIG : Z := 12.

(** lib/Resource.h:28-31 ResConfigType *)
Definition RES_CONFIG_PSCTRL : Z := 0xc2.
Definition RES_CONFIG_SSCTRL : Z := 0xc3.

(** lib/Resource.h:33-33 LAST_STD_RES_TYPE *)
Definition LAST_STD_RES_TYPE : Z := RES_TYPE_CLKBLK.

(** lib/Resource.h:37-51 RES_TYPE_SHIFT: the shifts and masks; the mask of the width is computed from the shift *)
Definition RES_TYPE_MASK : Z := 2 ^ 8 - 1.
Definition RES_NUM_SHIFT : Z := 8.
Definition RES_NUM_MASK : Z := 2 ^ 8 - 1.
Definition RES_CHANEND_NODE_SHIFT : Z := 16.
Definition RES_CHANEND_NODE_MASK : Z := 2 ^ 16 - 1.
Definition RES_PORT_WIDTH_SHIFT : Z := 16.
Definition RES_PORT_WIDTH_MASK : Z := 2 ^ RES_PORT_WIDTH_SHIFT - 1.

(** lib/Resource.h:57-60 type *)
Definition rid_type (id : Z) : Z := id .& RES_TYPE_MASK.
(** lib/Resource.h:62-62 isChanend *)
Definition isChanend (id : Z) : bool := rid_type id =? RES_TYPE_CHANEND.
(** lib/Resource.h:63-63 isConfig *)
Definition isConfig (id : Z) : bool := rid_type id =? RES_TYPE_CONFIG.
(** lib/Resource.h:64-66 isChanendOrConfig *)
Definition isChanendOrConfig (id : Z) : bool :=
  (rid_type id =? RES_TYPE_CHANEND) || (rid_type id =? RES_TYPE_CONFIG).
(** lib/Resource.h:68-71 num *)
Definition rid_num (id : Z) : Z := (id .>> RES_NUM_SHIFT) .& RES_NUM_MASK.
(** lib/Resource.h:73-78 setNum *)
Definition rid_setNum (value id : Z) : Z :=
  let value := value .& RES_NUM_MASK in
  let id := id .& u32 (Z.lnot (RES_NUM_MASK .<< RES_NUM_SHIFT)) in
  id .| (value .<< RES_NUM_SHIFT).
(** lib/Resource.h:80-86 setNode *)
Definition rid_setNode (value id : Z) : option Z :=
  _ ← assert (isChanendOrConfig id);
  let value := value .& RES_CHANEND_NODE_MASK in
  let id := id .& u32 (Z.lnot (RES_CHANEND_NODE_MASK .<< RES_CHANEND_NODE_SHIFT)) in
  Some (id .| (value .<< RES_CHANEND_NODE_SHIFT)).
(** lib/Resource.h:88-92 node *)
Definition rid_node (id : Z) : option Z :=
  _ ← assert (isChanendOrConfig id);
  Some ((id .>> RES_CHANEND_NODE_SHIFT) .& RES_CHANEND_NODE_MASK).
(** lib/Resource.h:94-100 setWidth *)
Definition rid_setWidth (value id : Z) : option Z :=
  _ ← assert (rid_type id =? RES_TYPE_PORT);
  let value := value .& RES_PORT_WIDTH_MASK in
  let id := id .& u32 (Z.lnot (RES_PORT_WIDTH_MASK .<< RES_PORT_WIDTH_SHIFT)) in
  Some (id .| (value .<< RES_PORT_WIDTH_SHIFT)).
(** lib/Resource.h:102-106 width *)
Definition rid_width (id : Z) : option Z :=
  _ ← assert (rid_type id =? RES_TYPE_PORT);
  Some ((id .>> RES_PORT_WIDTH_SHIFT) .& RES_PORT_WIDTH_MASK).

(** lib/Resource.h:110-114 chanendID *)
Definition chanendID (num node : Z) : Z :=
  RES_TYPE_CHANEND .| (num .<< RES_NUM_SHIFT) .| (node .<< RES_CHANEND_NODE_SHIFT).
(** lib/Resource.h:116-119 timerID *)
Definition timerID (num : Z) : Z := RES_TYPE_TIMER .| (num .<< RES_NUM_SHIFT).
(** lib/Resource.h:121-124 syncID *)
Definition syncID (num : Z) : Z := RES_TYPE_SYNC .| (num .<< RES_NUM_SHIFT).
(** lib/Resource.h:126-129 threadID *)
Definition threadID (num : Z) : Z := RES_TYPE_THREAD .| (num .<< RES_NUM_SHIFT).
(** lib/Resource.h:131-134 lockID *)
Definition lockID (num : Z) : Z := RES_TYPE_LOCK .| (num .<< RES_NUM_SHIFT).
(** lib/Resource.h:136-139 clockBlockID *)
Definition clockBlockID (num : Z) : Z := RES_TYPE_CLKBLK .| (num .<< RES_NUM_SHIFT).

(** lib/Resource.h:239-243 ResOpResult *)
Inductive ResOpResult := CONTINUE | DESCHEDULE | ILLEGAL.

(** lib/Resource.h:198-203 Condition *)
Inductive Condition := COND_FULL | COND_AFTER | COND_EQ | COND_NEQ.

(** ** Resources *)

(** lib/Resource.h:147-150 Resource: the part every resource has *)
Record Resource := mkResource { inUse : bool; ID : Z }.

(** lib/Resource.h:255-255 Resource::Resource *)
Definition newResource (t : Z) : Resource := mkResource false t.
(** lib/Resource.h:257-260 Resource::setInUse *)
Definition setInUse (val : bool) (r : Resource) : Resource := mkResource val (ID r).
(** lib/Resource.h:173-176 Resource::setNum *)
Definition setNum (value : Z) (r : Resource) : Resource := mkResource (inUse r) (rid_setNum value (ID r)).
(** lib/Resource.h:178-181 Resource::setNode *)
Definition setNode (value : Z) (r : Resource) : option Resource :=
  id ← rid_setNode value (ID r); Some (mkResource (inUse r) id).
(** lib/Resource.h:183-186 Resource::setWidth *)
Definition setWidth (value : Z) (r : Resource) : option Resource :=
  id ← rid_setWidth value (ID r); Some (mkResource (inUse r) id).

(** What the allocator needs of a resource: the in-use flag and [alloc], a virtual function,
    which succeeds on a resource that is not in use. *)
Class AllocatableResource (R : Type) := {
  isInUse : R -> bool;
  alloc : R -> option R;
  alloc_spec : forall r, isInUse r = false -> exists r', alloc r = Some r' /\ isInUse r' = true
}.

(** What the [alloc] of every class does to the common part: it asserts that the resource is
    free and marks it (Chanend.h, Timer.h, Lock.h, Synchroniser.h, Thread.h). *)
#[export, refine] Instance Resource_allocatable : AllocatableResource Resource := {
  isInUse := inUse;
  alloc r := _ ← assert (negb (inUse r)); Some (setInUse true r)
}.
Proof. intros r ->. eexists. split; reflexivity. Defined.

(** ** The tables of a core *)

(** lib/Core.h:66-69 port: the ports by width, and the other resources by type; the counts
    [portNum] and [resourceNum] are the lengths of the rows *)
Record Tables (R : Type) := mkTables { port : list (list R); resource : list (list R) }.
Arguments mkTables {R}. Arguments port {R}. Arguments resource {R}.

(** lib/Config.h.in:15-38 NUM_THREADS: the numbers of resources of a core *)
Definition NUM_THREADS : nat := 8.
Definition NUM_SYNCS : nat := 8.
Definition NUM_LOCKS : nat := 4.
Definition NUM_TIMERS : nat := 10.
Definition NUM_CHANENDS : nat := 32.
Definition NUM_CLKBLKS : nat := 6.
Definition NUM_1BIT_PORTS : nat := 16.
Definition NUM_4BIT_PORTS : nat := 6.
Definition NUM_8BIT_PORTS : nat := 4.
Definition NUM_16BIT_PORTS : nat := 4.
Definition NUM_32BIT_PORTS : nat := 2.

(** lib/Core.cpp:92-96 Core::Core: number the resources of a row *)
Definition number (row : list Resource) : list Resource :=
  imap (fun j r => setNum (Z.of_nat j) r) row.

(** lib/Core.cpp:100-106 portSpec *)
Definition portSpec : list (nat * nat) :=
  [(1, NUM_1BIT_PORTS); (4, NUM_4BIT_PORTS); (8, NUM_8BIT_PORTS); (16, NUM_16BIT_PORTS);
   (32, NUM_32BIT_PORTS)]%nat.

(** lib/Core.cpp:107-118 Core::Core: the ports of one width *)
Definition newPorts (width num : nat) : option (list Resource) :=
  mapM (setWidth (Z.of_nat width)) (number (replicate num (newResource RES_TYPE_PORT))).

(** lib/Core.cpp:51-118 Core::Core: the tables *)
Definition newTables : option (Tables Resource) :=
  let row n type := number (replicate n (newResource type)) in
  ports ← foldr (fun '(w, n) acc => l ← acc; ps ← newPorts w n; Some (<[w := ps]> l))
    (Some (replicate 33 [])) portSpec;
  Some (mkTables ports
    [[]; row NUM_TIMERS RES_TYPE_TIMER; row NUM_CHANENDS RES_TYPE_CHANEND;
     row NUM_SYNCS RES_TYPE_SYNC; row NUM_THREADS RES_TYPE_THREAD; row NUM_LOCKS RES_TYPE_LOCK;
     row NUM_CLKBLKS RES_TYPE_CLKBLK]).

(** lib/Core.cpp:426-432 Core::updateIDs *)
Definition updateIDs (coreID : Z) (t : Tables Resource) : option (Tables Resource) :=
  row ← array_get (resource t) RES_TYPE_CHANEND;
  row ← mapM (setNode coreID) row;
  rows ← array_set (resource t) RES_TYPE_CHANEND row;
  Some (mkTables (port t) rows).

(** Where a resource is found. *)
Inductive ResourceRef := PortRef (width num : Z) | StdRef (type num : Z).

#[export] Instance ResourceRef_eq_dec : EqDecision ResourceRef.
Proof. solve_decision. Defined.

Section tables.
Context {R : Type} `{AllocatableResource R}.

(** lib/Core.cpp:131-139 allocatable *)
Definition allocatable : list bool := [false; true; true; true; true; true; false].

(** lib/Core.cpp:194-202 Core::allocResource: the loop *)
Fixpoint alloc_first (i : Z) (l : list R) : option (list R * option Z) :=
  match l with
  | [] => Some ([], None)
  | r :: l =>
      if negb (isInUse r) then r' ← alloc r; Some (r' :: l, Some i)
      else '(l, res) ← alloc_first (i + 1) l; Some (r :: l, res)
  end.

(** lib/Core.cpp:190-203 Core::allocResource: returns the number of the resource, if any *)
Definition allocResource (t : Tables R) (type : Z) : option (Tables R * option Z) :=
  if (LAST_STD_RES_TYPE <? type) then Some (t, None)
  else
    can ← array_get allocatable type;
    if negb can then Some (t, None)
    else
      row ← array_get (resource t) type;
      '(row, res) ← alloc_first 0 row;
      rows ← array_set (resource t) type row;
      Some (mkTables (port t) rows, res).

(** lib/Core.cpp:228-238 Core::getPortByID *)
Definition getPortByID (t : Tables R) (id : Z) : option (option ResourceRef) :=
  width ← rid_width id;
  if 32 <? width then Some None
  else
    row ← array_get (port t) width;
    Some (if zlength row <=? rid_num id then None else Some (PortRef width (rid_num id))).

(** lib/Core.cpp:240-254 Core::getResourceByID *)
Definition getResourceByID (t : Tables R) (id : Z) : option (option ResourceRef) :=
  let type := rid_type id in
  if LAST_STD_RES_TYPE <? type then Some None
  else if type =? RES_TYPE_PORT then getPortByID t id
  else
    row ← array_get (resource t) type;
    Some (if zlength row <=? rid_num id then None else Some (StdRef type (rid_num id))).

(** The resource a reference stands for. *)
Definition deref (t : Tables R) (ref : ResourceRef) : option R :=
  match ref with
  | PortRef w n => row ← array_get (port t) w; array_get row n
  | StdRef ty n => row ← array_get (resource t) ty; array_get row n
  end.

Lemma alloc_first_spec l i :
  (Forall (fun r => isInUse r = true) l /\ alloc_first i l = Some (l, None)) \/
  exists l1 r r' l2, l = l1 ++ r :: l2 /\ Forall (fun r => isInUse r = true) l1 /\
    isInUse r = false /\ alloc r = Some r' /\ isInUse r' = true /\
    alloc_first i l = Some (l1 ++ r' :: l2, Some (i + zlength l1)).
Proof.
  revert i. induction l as [|r l IH]; intros i; cbn; [by left |].
  destruct (isInUse r) eqn:Er; cbn.
  - destruct (IH (i + 1)) as [[HF ->] | (l1 & r1 & r' & l2 & -> & HF & E1 & E2 & E3 & ->)].
    + left. by split; [constructor |].
    + right. exists (r :: l1), r1, r', l2. cbn. split; [done |]. split; [by constructor |].
      repeat split; try done. do 3 f_equal. cbn. lia.
  - right. destruct (alloc_spec r Er) as (r' & E & E'). exists [], r, r', l.
    rewrite E. cbn. repeat split; try done. do 3 f_equal. lia.
Qed.
End tables.

(** ** Fields of an identifier *)

(** The field of [w] bits at bit [s] of a 32-bit word. *)
Definition get_field (s w id : Z) : Z := (id .>> s) .& (2 ^ w - 1).
Definition set_field (s w v id : Z) : Z :=
  (id .& u32 (Z.lnot ((2 ^ w - 1) .<< s))) .| ((v .& (2 ^ w - 1)) .<< s).

Lemma ones_testbit w i : 0 <= w -> 0 <= i -> Z.testbit (2 ^ w - 1) i = (i <? w).
Proof.
  intros. replace (2 ^ w - 1) with (Z.ones w) by (rewrite Z.ones_equiv; lia).
  destruct (Z.ltb_spec i w); [apply Z.ones_spec_low; lia | apply Z.ones_spec_high; lia].
Qed.

Lemma set_field_testbit s w v id i : is_u32 id -> 0 <= s -> 0 <= w -> s + w <= 32 -> 0 <= i ->
  Z.testbit (set_field s w v id) i =
  if (s <=? i) && (i <? s + w) then Z.testbit v (i - s) else Z.testbit id i.
Proof.
  intros Hid Hs Hw Hsw Hi. unfold set_field. autorewrite with zbits.
  destruct (Z.leb_spec s i); cbn [andb].
  - autorewrite with zbits. rewrite !ones_testbit by lia.
    destruct (Z.ltb_spec i (s + w)).
    + rewrite (proj2 (Z.ltb_lt (i - s) w)), (proj2 (Z.ltb_lt i 32)) by lia. cbn. btauto.
    + rewrite (proj2 (Z.ltb_ge (i - s) w)) by lia.
      destruct (Z.ltb_spec i 32); cbn; [btauto |].
      rewrite (fits_testbit_high 32 id) by (done || lia). done.
  - rewrite (Z.testbit_neg_r _ (i - s)) by lia. rewrite (proj2 (Z.ltb_lt i 32)) by lia.
    rewrite (Z.testbit_neg_r _ (i - s)) by lia. cbn. btauto.
Qed.

Lemma get_field_testbit s w id i : 0 <= s -> 0 <= w -> 0 <= i ->
  Z.testbit (get_field s w id) i = (i <? w) && Z.testbit id (i + s).
Proof.
  intros. unfold get_field. autorewrite with zbits. rewrite ones_testbit by lia. btauto.
Qed.

(** A field reads back as written, and a field that does not overlap is unchanged. *)
Lemma get_set_field s w v id : is_u32 id -> 0 <= s -> 0 <= w -> s + w <= 32 ->
  get_field s w (set_field s w v id) = v .& (2 ^ w - 1).
Proof.
  intros. zbitwise. rewrite get_field_testbit, set_field_testbit, ones_testbit by (done || lia).
  destruct (Z.ltb_spec i w); [| btauto].
  rewrite (proj2 (Z.leb_le s (i + s))), (proj2 (Z.ltb_lt (i + s) (s + w))) by lia. cbn.
  rewrite andb_true_r. f_equal. lia.
Qed.

Lemma get_set_field_ne s w s' w' v id : is_u32 id -> 0 <= s -> 0 <= w -> s + w <= 32 ->
  0 <= s' -> 0 <= w' -> s' + w' <= s \/ s + w <= s' ->
  get_field s' w' (set_field s w v id) = get_field s' w' id.
Proof.
  intros. apply Z.bits_inj'. intros i Hi. rewrite !get_field_testbit, set_field_testbit by (done || lia).
  destruct (Z.ltb_spec i w'); [cbn | done].
  destruct (Z.leb_spec s (i + s')), (Z.ltb_spec (i + s') (s + w)); try done; lia.
Qed.

Lemma rid_type_field id : rid_type id = get_field 0 8 id.
Proof. unfold rid_type, get_field. by rewrite Z.shiftr_0_r. Qed.
Lemma rid_num_field id : rid_num id = get_field 8 8 id.
Proof. done. Qed.
Lemma rid_node_field id : rid_node id = if isChanendOrConfig id then Some (get_field 16 16 id) else None.
Proof. unfold rid_node. by destruct (isChanendOrConfig id). Qed.
Lemma rid_width_field id : rid_width id = if rid_type id =? 0 then Some (get_field 16 16 id) else None.
Proof. unfold rid_width. by destruct (rid_type id =? _). Qed.

Lemma land_mask_mod w x : 0 <= w -> x .& (2 ^ w - 1) = x mod 2 ^ w.
Proof.
  intros. replace (2 ^ w - 1) with (Z.ones w) by (rewrite Z.ones_equiv; lia). by apply Z.land_ones.
Qed.

(** The fields of a resource identifier are independent: [setNum] and [setNode] (or
    [setWidth] for a port) read back as written, truncated to their size, and leave the type
    and the other field as they were; [setNode] and [setWidth] fail exactly on the wrong type. *)
Theorem resource_id_fields (id v : Z) : is_u32 id ->
  rid_num (rid_setNum v id) = v mod 256 /\ rid_type (rid_setNum v id) = rid_type id /\
  rid_node (rid_setNum v id) = rid_node id /\ rid_width (rid_setNum v id) = rid_width id /\
  (isChanendOrConfig id = true -> exists id', rid_setNode v id = Some id' /\
    rid_node id' = Some (v mod 65536) /\ rid_num id' = rid_num id /\ rid_type id' = rid_type id) /\
  (isChanendOrConfig id = false -> rid_setNode v id = None) /\
  (rid_type id = RES_TYPE_PORT -> exists id', rid_setWidth v id = Some id' /\
    rid_width id' = Some (v mod 65536) /\ rid_num id' = rid_num id /\ rid_type id' = rid_type id) /\
  (rid_type id <> RES_TYPE_PORT -> rid_setWidth v id = None).
Proof.
  intros Hid. change (rid_setNum v id) with (set_field 8 8 v id).
  assert (rid_type (set_field 8 8 v id) = rid_type id) as T8.
  { rewrite !rid_type_field. apply get_set_field_ne; (done || lia). }
  assert (rid_type (set_field 16 16 v id) = rid_type id) as T16.
  { rewrite !rid_type_field. apply get_set_field_ne; (done || lia). }
  assert (rid_num (set_field 16 16 v id) = rid_num id) as N16.
  { apply (get_set_field_ne 16 16 8 8); (done || lia). }
  assert (get_field 16 16 (set_field 8 8 v id) = get_field 16 16 id) as F8.
  { apply get_set_field_ne; (done || lia). }
  assert (get_field 16 16 (set_field 16 16 v id) = v mod 65536) as F16.
  { rewrite get_set_field by (done || lia). by apply (land_mask_mod 16). }
  rewrite !rid_node_field, !rid_width_field, F8. unfold rid_setNode, rid_setWidth.
  unfold isChanendOrConfig at 1. rewrite T8.
  split_and!; try done.
  - rewrite rid_num_field, get_set_field by (done || lia). by apply (land_mask_mod 8).
  - intros H. rewrite H. exists (set_field 16 16 v id). rewrite rid_node_field, F16.
    unfold isChanendOrConfig in *. rewrite T16, H. done.
  - by intros ->.
  - intros H. rewrite H. exists (set_field 16 16 v id). rewrite rid_width_field, T16, H, F16. done.
  - intros H%Z.eqb_neq. unfold RES_TYPE_PORT in *. by rewrite H.
Qed.

Lemma resource_id_fields_witness :
  rid_num (rid_setNum 5 0x12340002) = 5 /\ exists id', rid_setNode 7 0x12340002 = Some id'.
Proof.
  destruct (resource_id_fields 0x12340002 5) as (H & _); [unfold fits; lia |].
  destruct (resource_id_fields 0x12340002 7) as (_ & _ & _ & _ & H' & _); [unfold fits; lia |].
  split; [exact H |]. destruct H' as (id' & E & _); [reflexivity |]. exists id'. exact E.
Defined.

(** [allocResource] allocates the first free resource of a type: on tables with a row for
    every type it gives nothing, and changes nothing, for a type that cannot be allocated
    (ports, clock blocks and the types above) and when all resources are in use; otherwise it
    gives the number of the first one that is not in use, which is then in use, and no other
    resource changes. *)
Theorem allocResource_first_free {R} `{AllocatableResource R} (t : Tables R) (type : Z) :
  0 <= type -> zlength (resource t) = LAST_STD_RES_TYPE + 1 ->
  exists t' res, allocResource t type = Some (t', res) /\ port t' = port t /\
  match res with
  | None => t' = t /\
      (type = RES_TYPE_PORT \/ RES_TYPE_CLKBLK <= type \/
       forall n r, deref t (StdRef type n) = Some r -> isInUse r = true)
  | Some n => (exists r r', deref t (StdRef type n) = Some r /\ isInUse r = false /\
        deref t' (StdRef type n) = Some r' /\ alloc r = Some r' /\ isInUse r' = true) /\
      (forall m r, m < n -> deref t (StdRef type m) = Some r -> isInUse r = true) /\
      forall ty m, ~ (ty = type /\ m = n) -> deref t' (StdRef ty m) = deref t (StdRef ty m)
  end.
Proof.
  intros Ht Hl. unfold allocResource, LAST_STD_RES_TYPE, RES_TYPE_CLKBLK, RES_TYPE_PORT in *.
  destruct (Z.ltb_spec 6 type); [exists t, None; cbn; auto with lia |].
  destruct (decide (1 <= type < 6)) as [Hty|Hty]; last first.
  { exists t, None. assert (type = 0 \/ type = 6) as [-> | ->] by lia; cbn; auto with lia. }
  assert (array_get allocatable type = Some true) as -> by (enum_Z type Hty; reflexivity).
  cbn [mbind option_bind negb].
  array_read (resource t) type row Er; [lia |].
  destruct (alloc_first_spec row 0) as [[HF ->] | (l1 & r & r' & l2 & -> & HF & E1 & E2 & E3 & ->)];
    cbn [mbind option_bind].
  - array_write (resource t) type row rows Es; [lia |].
    exists (mkTables (port t) rows), None. split; [done |]. split; [done |].
    rewrite (array_set_same _ _ _ _ Er Es). split; [by destruct t |]. right. right.
    intros n r. cbn. rewrite Er. cbn. intros Hr. exact (array_get_Forall _ _ _ _ HF Hr).
  - array_write (resource t) type (l1 ++ r' :: l2) rows Es; [lia |].
    exists (mkTables (port t) rows), (Some (zlength l1)). split; [done |]. split; [done |].
    pose proof (array_set_get _ _ _ _ Es) as Eg. cbn. split; [| split].
    + exists r, r'. rewrite Er, Eg. cbn.
      rewrite !array_get_app_r, !Z.sub_diag by lia. done.
    + intros m r0 Hm. rewrite Er. cbn. rewrite array_get_app_l by lia.
      intros Hr. exact (array_get_Forall _ _ _ _ HF Hr).
    + intros ty m Hne. destruct (decide (ty = type)) as [->|]; last first.
      { by rewrite (array_set_get_ne _ _ _ _ _ Es) by done. }
      rewrite Er, Eg. cbn. destruct (decide (m = zlength l1)); [naive_solver |].
      destruct (decide (m < zlength l1)); [by rewrite !array_get_app_l by lia |].
      rewrite !array_get_app_r by lia. unfold array_get.
      destruct (Z.leb_spec 0 (m - zlength l1)); [| lia].
      by replace (Z.to_nat (m - zlength l1)) with (S (Z.to_nat (m - zlength l1 - 1))) by lia.
Qed.

(** Two timers of four in use. *)
#[local] Definition exampleTables : Tables Resource :=
  mkTables [] [[]; [mkResource true 0x1; mkResource true 0x101; mkResource false 0x201; mkResource false 0x301];
    []; []; []; []; []].
Lemma allocResource_first_free_witness :
  exists t', allocResource exampleTables RES_TYPE_TIMER = Some (t', Some 2) /\
  deref t' (StdRef RES_TYPE_TIMER 3) = deref exampleTables (StdRef RES_TYPE_TIMER 3).
Proof.
  destruct (allocResource_first_free exampleTables RES_TYPE_TIMER) as (t' & res & E & _ & H);
    [discriminate | reflexivity |].
  injection E as <- <-. eexists. split; [reflexivity |]. apply H. intros [_ H']. discriminate H'.
Defined.

(** The lookup depends on the lengths of the rows only. *)
Lemma getResourceByID_shape {R R'} (t : Tables R) (t' : Tables R') id :
  length <$> port t = length <$> port t' -> length <$> resource t = length <$> resource t' ->
  getResourceByID t id = getResourceByID t' id.
Proof.
  intros Hp Hr.
  assert (forall (f : option nat -> option (option ResourceRef)) w,
    f (length <$> array_get (port t) w) = f (length <$> array_get (port t') w)) as Hp'.
  { intros f w. unfold array_get. destruct (0 <=? w); [| done]. by rewrite <- !list_lookup_fmap, Hp. }
  assert (forall (f : option nat -> option (option ResourceRef)) w,
    f (length <$> array_get (resource t) w) = f (length <$> array_get (resource t') w)) as Hr'.
  { intros f w. unfold array_get. destruct (0 <=? w); [| done]. by rewrite <- !list_lookup_fmap, Hr. }
  set (g (mk : Z -> ResourceRef) (x : option nat) := n ← x;
    Some (if Z.of_nat n <=? rid_num id then None else Some (mk (rid_num id)))).
  unfold getResourceByID, getPortByID. destruct (_ <? _); [done |]. destruct (_ =? _).
  - destruct (rid_width id) as [w|]; cbn; [| done]. destruct (32 <? w); [done |].
    specialize (Hp' (g (PortRef w)) w). by destruct (array_get (port t) w), (array_get (port t') w).
  - specialize (Hr' (g (StdRef (rid_type id))) (rid_type id)).
    by destruct (array_get (resource t) _), (array_get (resource t') _).
Qed.

(** A test on every entry of concrete tables. *)
Definition check_rows {R} (P : Z -> Z -> R -> bool) (rows : list (list R)) : bool :=
  forallb id (concat (imap (fun w row => imap (fun n r => P (Z.of_nat w) (Z.of_nat n) r) row) rows)).

Lemma check_rows_spec {R} (P : Z -> Z -> R -> bool) rows w row n r : check_rows P rows = true ->
  array_get rows w = Some row -> array_get row n = Some r -> P w n r = true.
Proof.
  unfold check_rows, array_get. intros HP.
  destruct (Z.leb_spec 0 w), (Z.leb_spec 0 n); try done. intros Hw Hn.
  rewrite forallb_forall in HP. specialize (HP (P w n r)). apply HP, in_concat.
  exists (imap (fun n r => P (Z.of_nat (Z.to_nat w)) (Z.of_nat n) r) row).
  split; apply list_elem_of_In, elem_of_lookup_imap; [by exists (Z.to_nat w), row |].
  exists (Z.to_nat n), r. by rewrite !Z2Nat.id.
Qed.

Lemma chanendID_field n node i : is_u8 n -> is_u16 node -> 0 <= i ->
  Z.testbit (chanendID n node) i =
    if i <? 8 then Z.testbit RES_TYPE_CHANEND i
    else if i <? 16 then Z.testbit n (i - 8) else Z.testbit node (i - 16).
Proof.
  intros Hn Hd Hi. unfold chanendID. autorewrite with zbits. unfold RES_NUM_SHIFT, RES_CHANEND_NODE_SHIFT.
  destruct (Z.ltb_spec i 8).
  { rewrite (Z.testbit_neg_r n), (Z.testbit_neg_r node) by lia. btauto. }
  rewrite (fits_testbit_high 8 RES_TYPE_CHANEND) by (lia || done).
  destruct (Z.ltb_spec i 16).
  { rewrite (proj2 (Z.ltb_lt i 32)), (Z.testbit_neg_r node) by lia. cbn. btauto. }
  rewrite (fits_testbit_high 8 n) by (lia || done).
  destruct (Z.ltb_spec i 32); [cbn; btauto |]. rewrite (fits_testbit_high 16 node) by (lia || done). btauto.
Qed.

Lemma chanendID_type n node : is_u8 n -> is_u16 node -> rid_type (chanendID n node) = RES_TYPE_CHANEND.
Proof.
  intros. rewrite rid_type_field. apply Z.bits_inj'. intros i Hi.
  rewrite get_field_testbit, Z.add_0_r, chanendID_field by (done || lia).
  destruct (Z.ltb_spec i 8); [done |]. symmetry. by apply (fits_testbit_high 8).
Qed.

Lemma chanendID_num n node : is_u8 n -> is_u16 node -> rid_num (chanendID n node) = n.
Proof.
  intros. rewrite rid_num_field. apply Z.bits_inj'. intros i Hi.
  rewrite get_field_testbit, chanendID_field by (done || lia).
  rewrite (proj2 (Z.ltb_ge (i + 8) 8)) by lia.
  destruct (Z.ltb_spec i 8); cbn; [| symmetry; by apply (fits_testbit_high 8)].
  rewrite (proj2 (Z.ltb_lt (i + 8) 16)) by lia. f_equal. lia.
Qed.

Lemma chanendID_node n node : is_u8 n -> is_u16 node -> rid_node (chanendID n node) = Some node.
Proof.
  intros. rewrite rid_node_field. unfold isChanendOrConfig. rewrite chanendID_type by done.
  replace (_ || _) with true by reflexivity. f_equal. apply Z.bits_inj'. intros i Hi.
  rewrite get_field_testbit, chanendID_field by (done || lia).
  rewrite (proj2 (Z.ltb_ge (i + 16) 8)), (proj2 (Z.ltb_ge (i + 16) 16)) by lia.
  destruct (Z.ltb_spec i 16); cbn; [| symmetry; by apply (fits_testbit_high 16)]. f_equal. lia.
Qed.

Lemma getResourceByID_chanend {R} (t : Tables R) n node row : is_u8 n -> is_u16 node ->
  array_get (resource t) RES_TYPE_CHANEND = Some row -> n < zlength row ->
  getResourceByID t (chanendID n node) = Some (Some (StdRef RES_TYPE_CHANEND n)).
Proof.
  intros Hn Hd Hrow Hlt. unfold getResourceByID. rewrite chanendID_type, chanendID_num by done.
  replace (LAST_STD_RES_TYPE <? RES_TYPE_CHANEND) with false by done.
  replace (RES_TYPE_CHANEND =? RES_TYPE_PORT) with false by done.
  rewrite Hrow. cbn [mbind option_bind]. by destruct (Z.leb_spec (zlength row) n); [lia |].
Qed.

(** The identifier of channel end [n] once [setNode] has been applied to it. *)
Lemma chanend_setNode n node b : is_u8 n -> is_u16 node ->
  setNode node (setNum n (mkResource b RES_TYPE_CHANEND)) = Some (mkResource b (chanendID n node)).
Proof.
  intros Hn Hd. unfold setNode, setNum. cbn.
  assert (rid_setNum n RES_TYPE_CHANEND = set_field 8 8 n RES_TYPE_CHANEND) as -> by done.
  assert (is_u32 RES_TYPE_CHANEND) as H2 by done.
  assert (is_u32 (set_field 8 8 n RES_TYPE_CHANEND)) as Hs by (unfold set_field; auto with axe).
  unfold rid_setNode, isChanendOrConfig.
  assert (rid_type (set_field 8 8 n RES_TYPE_CHANEND) = RES_TYPE_CHANEND) as ->.
  { rewrite !rid_type_field. rewrite get_set_field_ne by (done || lia). done. }
  replace (assert _) with (Some tt) by reflexivity. cbn [mbind option_bind]. do 2 f_equal.
  apply Z.bits_inj'. intros i Hi. rewrite chanendID_field by done.
  change (Z.testbit (set_field 16 16 node (set_field 8 8 n RES_TYPE_CHANEND)) i = 
    if i <? 8 then Z.testbit RES_TYPE_CHANEND i
    else if i <? 16 then Z.testbit n (i - 8) else Z.testbit node (i - 16)).
  rewrite !set_field_testbit by (done || lia).
  destruct (Z.leb_spec 16 i), (Z.ltb_spec i (16 + 16)), (Z.leb_spec 8 i), (Z.ltb_spec i (8 + 8)),
    (Z.ltb_spec i 8), (Z.ltb_spec i 16); cbn; try done; try lia.
  rewrite (fits_testbit_high 16 node), (fits_testbit_high 8 RES_TYPE_CHANEND) by (done || lia). done.
Qed.

(** Identifiers and tables agree in a new core: looking up the identifier of any resource
    of the tables, once [updateIDs] has written the core's number in the channel ends, finds
    exactly that resource; and a channel end's identifier is [chanendID] of its number and
    the core's. *)
Theorem resource_lookup_by_id (coreID : Z) : is_u16 coreID ->
  exists t0 t, newTables = Some t0 /\ updateIDs coreID t0 = Some t /\
  (forall ref r, deref t ref = Some r -> getResourceByID t (ID r) = Some (Some ref)) /\
  forall n r, deref t (StdRef RES_TYPE_CHANEND n) = Some r -> ID r = chanendID n coreID.
Proof.
  intros Hc.
  assert (exists t0, newTables = Some t0 /\
    check_rows (fun w n r => bool_decide (getResourceByID t0 (ID r) = Some (Some (PortRef w n)))) (port t0) = true /\
    check_rows (fun ty n r => bool_decide (getResourceByID t0 (ID r) = Some (Some (StdRef ty n)))) (resource t0) = true /\
    array_get (resource t0) RES_TYPE_CHANEND =
      Some ((fun j => setNum j (newResource RES_TYPE_CHANEND)) <$> seqZ 0 32))
    as (t0 & E0 & Cp & Cr & E2).
  { eexists. split; [vm_compute; reflexivity |]. split_and!; vm_compute; reflexivity. }
  set (row := _ <$> seqZ 0 32) in E2.
  set (row' := (fun j => mkResource false (chanendID j coreID)) <$> seqZ 0 32).
  assert (mapM (setNode coreID) row = Some row') as Em.
  { apply mapM_Some_2, Forall2_fmap_l, Forall2_fmap_r, Forall_Forall2_diag, Forall_forall.
    intros n Hn%list_elem_of_In%elem_of_seqZ. apply chanend_setNode; [unfold fits; lia | done]. }
  exists t0. unfold updateIDs. rewrite E2. cbn [mbind option_bind]. rewrite Em. cbn [mbind option_bind].
  array_write (resource t0) RES_TYPE_CHANEND row' rows Es; [by apply array_get_bound in E2 |].
  exists (mkTables (port t0) rows). split; [done |]. split; [done |].
  assert (forall n r, array_get row' n = Some r -> 0 <= n < 32 /\ ID r = chanendID n coreID) as Hrow.
  { intros n r Hr. unfold row', array_get in Hr. destruct (Z.leb_spec 0 n); [| done].
    rewrite list_lookup_fmap in Hr. apply fmap_Some in Hr as (k & [Hk ?]%lookup_seqZ & ->). cbn.
    split; [lia |]. f_equal. lia. }
  split; last first.
  { intros n r. unfold deref. cbn [resource]. rewrite (array_set_get _ _ _ _ Es). apply Hrow. }
  assert (length <$> rows = length <$> resource t0) as Hlen.
  { apply array_ext; [by rewrite !length_fmap, (array_set_length _ _ _ _ Es) |]. intros i _.
    apply array_set_spec in Es as (_ & _ & Es). rewrite !array_get_fmap, Es.
    by destruct (decide (i = RES_TYPE_CHANEND)) as [->|]; [rewrite E2 |]. }
  intros ref r Hr. rewrite (getResourceByID_shape _ t0) by done.
  destruct ref as [w n|ty n]; unfold deref in Hr; cbn [resource port] in Hr.
  - destruct (array_get (port t0) w) as [pr|] eqn:Ew; [cbn in Hr | done].
    eapply bool_decide_eq_true_1, (check_rows_spec _ _ _ _ _ _ Cp); eauto.
  - destruct (decide (ty = RES_TYPE_CHANEND)) as [->|Hne].
    + rewrite (array_set_get _ _ _ _ Es) in Hr. cbn in Hr. apply Hrow in Hr as [Hn ->].
      apply (getResourceByID_chanend _ _ _ row); [unfold fits; lia | done | done |].
      replace (zlength row) with 32 by done. lia.
    + rewrite (array_set_get_ne _ _ _ _ _ Es) in Hr by done.
      destruct (array_get (resource t0) ty) as [pr|] eqn:Ew; [cbn in Hr | done].
      eapply bool_decide_eq_true_1, (check_rows_spec _ _ _ _ _ _ Cr); eauto.
Qed.

Lemma resource_lookup_by_id_witness : exists t0 t, newTables = Some t0 /\ updateIDs 0x100 t0 = Some t /\
  getResourceByID t 0x01000502 = Some (Some (StdRef RES_TYPE_CHANEND 5)).
Proof.
  destruct (resource_lookup_by_id 0x100) as (t0 & t & E0 & E & H & _); [unfold fits; lia |].
  exists t0, t. split; [exact E0 |]. split; [exact E |].
  refine (H (StdRef RES_TYPE_CHANEND 5) (mkResource false 0x01000502) _).
  injection E0 as <-. injection E as <-. reflexivity.
Defined.
