(* ===== verification/Node.v ===== *)
(** * Nodes, links and routing (lib/Node.cpp, lib/ProcessorNode.cpp, lib/PeripheralNode.cpp)

    A system is a set of nodes joined by links.  A node finds the destination of a packet by
    following the directions of its routing table from node to node; the walk is stopped by a
    cycle detector.  Pointers to nodes are positions in the list of nodes. *)

From Stdlib Require Import ZArith Lia.
From stdpp Require Import base list numbers option countable.
From S2P Require Import Prelude BitManip.
From S2P Require Import InstrDecode Resource.

#[local] Open Scope Z_scope.
#[local] Open Scope cbits_scope.

(** ** Data *)

(** lib/Node.h:22-31 XLink *)
Record XLink := mkXLink {
  destNode : option nat;
  destXLinkNum : Z;
  enabled : bool;
  fiveWire : bool;
  network : Z;
  direction : Z;
  interTokenDelay : Z;
  interSymbolDelay : Z
}.

(** lib/Node.cpp:12-24 XLink::XLink *)
Definition newXLink : XLink := mkXLink None 0 false false 0 0 0 0.

(** lib/Node.h:36-36 setEnabled *)
Definition setEnabled (v : bool) (x : XLink) : XLink :=
  mkXLink (destNode x) (destXLinkNum x) v (fiveWire x) (network x) (direction x) (interTokenDelay x) (interSymbolDelay x).
(** lib/Node.h:38-38 setFiveWire *)
Definition setFiveWire (v : bool) (x : XLink) : XLink :=
  mkXLink (destNode x) (destXLinkNum x) (enabled x) v (network x) (direction x) (interTokenDelay x) (interSymbolDelay x).
(** lib/Node.h:40-40 setNetwork *)
Definition setNetwork (v : Z) (x : XLink) : XLink :=
  mkXLink (destNode x) (destXLinkNum x) (enabled x) (fiveWire x) (u8 v) (direction x) (interTokenDelay x) (interSymbolDelay x).
(** lib/Node.h:42-42 setDirection *)
Definition xlink_setDirection (v : Z) (x : XLink) : XLink :=
  mkXLink (destNode x) (destXLinkNum x) (enabled x) (fiveWire x) (network x) (u8 v) (interTokenDelay x) (interSymbolDelay x).
(** lib/Node.h:44-44 setInterTokenDelay *)
Definition setInterTokenDelay (v : Z) (x : XLink) : XLink :=
  mkXLink (destNode x) (destXLinkNum x) (enabled x) (fiveWire x) (network x) (direction x) (u16 v) (interSymbolDelay x).
(** lib/Node.h:46-46 setInterSymbolDelay *)
Definition setInterSymbolDelay (v : Z) (x : XLink) : XLink :=
  mkXLink (destNode x) (destXLinkNum x) (enabled x) (fiveWire x) (network x) (direction x) (interTokenDelay x) (u16 v).

(** The part of a core that routing reads: its number and its resource tables. *)
Record RCore := mkRCore { coreNumber : Z; tables : Tables Resource }.

(** lib/ProcessorNode.h:16-20 ProcessorNode: the subclasses of Node and what they add *)
Inductive NodeKind :=
  | ProcessorNode (cores : list RCore) (processorMhz referenceMhz : Z)
  | PeripheralNode.

(** lib/Node.h:58-65 Node *)
Record Node := mkNode {
  type : NodeType;
  kind : NodeKind;
  xLinks : list XLink;
  directions : list Z;
  jtagIndex : Z;
  nodeID : Z;
  nodeNumberBits : Z
}.

(** A channel endpoint: a channel end of a core, or the switch of a node. *)
Inductive EndpointRef := ChanendOf (node core : nat) (num : Z) | SSwitchOf (node : nat).

#[export] Instance EndpointRef_eq_dec : EqDecision EndpointRef.
Proof. solve_decision. Defined.

#[export] Instance EndpointRef_countable : Countable EndpointRef.
Proof.
  refine (inj_countable'
    (fun e => match e with ChanendOf n c k => inl (n, c, k) | SSwitchOf n => inr n end)
    (fun x => match x with inl (n, c, k) => ChanendOf n c k | inr n => SSwitchOf n end) _).
  by intros [].
Defined.

(** The nodes of the system. *)
Abbreviation Net := (list Node).

(** ** Operations of a node *)

(** lib/Node.cpp:90-93 Node::setNodeID *)
Definition with_nodeID (v : Z) (n : Node) : Node :=
  mkNode (type n) (kind n) (xLinks n) (directions n) (jtagIndex n) v (nodeNumberBits n).
Definition with_xLinks (l : list XLink) (n : Node) : Node :=
  mkNode (type n) (kind n) l (directions n) (jtagIndex n) (nodeID n) (nodeNumberBits n).
Definition with_directions (l : list Z) (n : Node) : Node :=
  mkNode (type n) (kind n) (xLinks n) l (jtagIndex n) (nodeID n) (nodeNumberBits n).
Definition with_kind (k : NodeKind) (n : Node) : Node :=
  mkNode (type n) k (xLinks n) (directions n) (jtagIndex n) (nodeID n) (nodeNumberBits n).

(** [std::vector::resize]: truncate, or extend with zeros. *)
Definition resize (n : Z) (l : list Z) : list Z := list.resize (Z.to_nat n) 0 l.

(** lib/Node.cpp:43-52 Node::Node *)
Definition newNode (t : NodeType) (k : NodeKind) (numXLinks : nat) : Node :=
  mkNode t k (replicate numXLinks newXLink) [] 0 0 16.

(** lib/Node.cpp:59-63 Node::connectXLink *)
Definition connectXLink (num : Z) (dest : nat) (destNum : Z) (n : Node) : option Node :=
  x ← array_get (xLinks n) num;
  l ← array_set (xLinks n) num
    (mkXLink (Some dest) destNum (enabled x) (fiveWire x) (network x) (direction x) (interTokenDelay x) (interSymbolDelay x));
  Some (with_xLinks l n).

(** lib/Node.cpp:26-31 XLink::getDestXLink *)
Definition getDestXLink (net : Net) (x : XLink) : option (option XLink) :=
  match destNode x with
  | None => Some None
  | Some d => n ← net !! d; y ← array_get (xLinks n) (destXLinkNum x); Some (Some y)
  end.

(** lib/Node.cpp:33-41 XLink::isConnected *)
Definition isConnected (net : Net) (x : XLink) : option bool :=
  if negb (enabled x) then Some false
  else
    otherEnd ← getDestXLink net x;
    match otherEnd with
    | None => Some false
    | Some y => Some (if negb (enabled y) then false else bool_decide (fiveWire x = fiveWire y))
    end.

(** lib/Node.cpp:65-72 Node::getXLinkForDirection *)
Definition getXLinkForDirection (n : Node) (d : Z) : option XLink :=
  snd <$> list_find (fun x => enabled x && (direction x =? d)) (xLinks n).

(** lib/Node.cpp:74-78 Node::setNodeNumberBits *)
Definition setNodeNumberBits (v : Z) (n : Node) : Node :=
  mkNode (type n) (kind n) (xLinks n) (resize v (directions n)) (jtagIndex n) (nodeID n) v.

(** lib/Node.cpp:85-88 Node::getNonNodeNumberBits *)
Definition getNonNodeNumberBits (n : Node) : Z := u32 (16 - nodeNumberBits n).

(** lib/Node.h:98-98 Node::setDirection *)
Definition setDirection (num value : Z) (n : Node) : option Node :=
  l ← array_set (directions n) num (u8 value); Some (with_directions l n).

(** lib/Node.cpp:142-145 Node::hasMatchingNodeID *)
Definition hasMatchingNodeID (n : Node) (id : Z) : option bool :=
  d ← rid_node id; Some ((d .>> getNonNodeNumberBits n) =? nodeID n).

(** ** Processor and peripheral nodes *)

Definition cores (n : Node) : list RCore :=
  match kind n with ProcessorNode cs _ _ => cs | PeripheralNode => [] end.

(** lib/ProcessorNode.cpp:58-63 getMinimumBits *)
Definition getMinimumBits (values : Z) : Z :=
  if values =? 0 then 0 else 32 - countLeadingZeros (u32 (values - 1)).

(** lib/ProcessorNode.cpp:65-71 ProcessorNode::computeCoreNumberBits *)
Definition computeCoreNumberBits (n : Node) : Node :=
  let coreNumberBits := getMinimumBits (zlength (cores n)) in
  let coreNumberBits :=
    if bool_decide (type n = XS1_G) && (coreNumberBits <? 8) then 8 else coreNumberBits in
  setNodeNumberBits (16 - coreNumberBits) n.

(** lib/ProcessorNode.cpp:73-80 ProcessorNode::getCoreID *)
Definition getCoreID (n : Node) (coreNum : Z) : option Z :=
  _ ← assert (coreNum <=? makeMask (getNonNodeNumberBits n));
  Some (nodeID n .| coreNum).

(** lib/ProcessorNode.cpp:82-97 ProcessorNode::getTypeFromJtagID *)
Definition getTypeFromJtagID (jtagID : Z) : option NodeType :=
  if jtagID =? 0x2731 then Some XS1_G
  else if jtagID =? 0x2633 then Some XS1_L
  else if jtagID =? 0x5633 then Some XS2_A
  else None.

(** [core->updateIDs()] for a core of the node. *)
Definition updateCore (n : Node) (c : RCore) : option RCore :=
  id ← getCoreID n (coreNumber c); t ← updateIDs id (tables c); Some (mkRCore (coreNumber c) t).

(** [core->updateIDs()] for every core of a node. *)
Definition updateCoreIDs (n : Node) : option Node :=
  match kind n with
  | ProcessorNode cs p r =>
      cs ← mapM (updateCore n) cs;
      Some (with_kind (ProcessorNode cs p r) n)
  | PeripheralNode => Some n
  end.

(** lib/ProcessorNode.cpp:26-32 ProcessorNode::setNodeID: for a peripheral node, Node::setNodeID *)
Definition setNodeID (v : Z) (n : Node) : option Node := updateCoreIDs (with_nodeID v n).

(** lib/ProcessorNode.cpp:34-47 ProcessorNode::finalize: the register initialisation of the
    switch and of the threads is done elsewhere *)
Definition finalizeProcessor (n : Node) : option Node :=
  let n := computeCoreNumberBits n in
  n ← (if bool_decide (type n = XS1_G)
       then foldl (fun acc i => n ← acc; setDirection i i n) (Some n) (seqZ 0 (nodeNumberBits n))
       else Some n);
  updateCoreIDs n.

(** lib/PeripheralNode.cpp:10-14 PeripheralNode::PeripheralNode *)
Definition newPeripheralNode : Node := setNodeNumberBits 0 (newNode XS1_L PeripheralNode 1).

(** lib/PeripheralNode.cpp:16-26 PeripheralNode::finalize *)
Definition finalizePeripheral (n : Node) : option Node :=
  x ← array_get (xLinks n) 0;
  l ← array_set (xLinks n) 0 (setEnabled true (setFiveWire true x));
  Some (with_xLinks l n).

(** ** Destinations *)

(** lib/Core.cpp:336-362 Core::getLocalChanendDest: [None] inside when it returns false and
    leaves the result unset *)
Definition Core_getLocalChanendDest (n : Node) (ni ci : nat) (c : RCore) (id : Z)
    : option (option (option EndpointRef)) :=
  _ ← assert (isChanendOrConfig id);
  if isConfig id then
    if rid_num id =? RES_CONFIG_SSCTRL then Some None
    else if rid_num id =? RES_CONFIG_PSCTRL then None
    else Some None
  else
    d ← rid_node id; cid ← getCoreID n (coreNumber c);
    if d =? cid then
      res ← getResourceByID (tables c) id;
      match res with
      | Some (StdRef ty num) =>
          _ ← assert (ty =? RES_TYPE_CHANEND); Some (Some (Some (ChanendOf ni ci num)))
      | Some (PortRef _ _) => None
      | None => Some (Some None)
      end
    else Some None.

(** lib/ProcessorNode.cpp:99-108 ProcessorNode::getLocalChanendDest: and that of a peripheral
    node, which has none *)
Definition getLocalChanendDest (n : Node) (ni : nat) (id : Z) : option (option EndpointRef) :=
  match kind n with
  | PeripheralNode => Some None
  | ProcessorNode cs _ _ =>
      d ← rid_node id;
      let destCore := d .& makeMask (getNonNodeNumberBits n) in
      if zlength cs <=? destCore then Some None
      else
        c ← array_get cs destCore;
        r ← Core_getLocalChanendDest n ni (Z.to_nat destCore) c id;
        Some (default None r)
  end.

(** The decision of one turn of the routing loop. *)
Inductive hop := Here | Junk | Go (next : nat).

(** lib/Node.cpp:108-121 Node::getIncomingChanendDest: where node [ni] sends a packet *)
Definition next_hop (net : Net) (id : Z) (ni : nat) : option hop :=
  n ← net !! ni;
  idnode ← rid_node id;
  let nn := getNonNodeNumberBits n in
  let destNode' := idnode .>> nn in
  let nodeId := nodeID n .>> nn in
  let diff := (destNode' .^ nodeId) .<< nn in
  if diff =? 0 then Some Here
  else
    let bit := u32 (31 - countLeadingZeros diff) in
    dir ← array_get (directions n) bit;
    match getXLinkForDirection n dir with
    | None => Some Junk
    | Some xLink =>
        conn ← isConnected net xLink;
        if negb conn then Some Junk else d ← destNode xLink; Some (Go d)
    end.

(** lib/Node.cpp:107-130 Node::getIncomingChanendDest: the loop, with Brent's cycle detection;
    the result is the node reached, if any *)
Fixpoint route_loop (fuel : nat) (net : Net) (id : Z) (node tortoise : nat) (hops leapCount : Z)
    : option (option nat) :=
  match fuel with
  | O => None
  | S fuel =>
      h ← next_hop net id node;
      match h with
      | Here => Some (Some node)
      | Junk => Some None
      | Go node =>
          let hops := u32 (hops + 1) in
          if bool_decide (node = tortoise) then Some None
          else if hops =? leapCount then route_loop fuel net id node node hops (leapCount .<< 1)
          else route_loop fuel net id node tortoise hops leapCount
      end
  end.

(** The number of turns that is always enough. *)
Definition route_fuel (net : Net) : nat := S (16 + 4 * length net).

(** lib/Node.cpp:100-135 Node::getIncomingChanendDest *)
Definition getIncomingChanendDest (net : Net) (ni : nat) (id : Z) : option (option EndpointRef) :=
  r ← route_loop (route_fuel net) net id ni ni 0 8;
  match r with
  | None => Some None
  | Some d =>
      if isConfig id && (rid_num id =? RES_CONFIG_SSCTRL) then Some (Some (SSwitchOf d))
      else n ← net !! d; getLocalChanendDest n d id
  end.

(** lib/PeripheralNode.cpp:28-35 PeripheralNode::getOutgoingChanendDest: and Node::getOutgoingChanendDest
    for a processor node; [fuel] bounds the chain of peripheral nodes *)
Fixpoint getOutgoingChanendDest (fuel : nat) (net : Net) (ni : nat) (id : Z) : option (option EndpointRef) :=
  match fuel with
  | O => None
  | S fuel =>
      n ← net !! ni;
      match kind n with
      | ProcessorNode _ _ _ => getIncomingChanendDest net ni id
      | PeripheralNode =>
          x ← array_get (xLinks n) 0;
          conn ← isConnected net x;
          if negb conn then Some None
          else d ← destNode x; getOutgoingChanendDest fuel net d id
      end
  end.

(** lib/Core.cpp:364-374 Core::getChanendDest: for core [ci] of node [ni] *)
Definition getChanendDest (net : Net) (ni ci : nat) (id : Z) : option (option EndpointRef) :=
  if negb (isChanendOrConfig id) then Some None
  else
    n ← net !! ni; c ← cores n !! ci;
    r ← Core_getLocalChanendDest n ni ci c id;
    match r with
    | Some result => Some result
    | None => getOutgoingChanendDest (S (length net)) net ni id
    end.
