(* ===== verification/Routing.v ===== *)
(** * Correctness of routing

    The routing loop follows a function from nodes to nodes; Brent's cycle detection stops it
    exactly when the walk would never arrive.  The walk is compared with the relation [routes],
    which says what arriving means. *)

From Stdlib Require Import ZArith Lia.
From stdpp Require Import base list numbers option.
From S2P Require Import Prelude BitManip.
From S2P Require Import InstrDecode Resource Node.

#[local] Open Scope Z_scope.
#[local] Open Scope cbits_scope.

(** A packet for [id] at node [n] arrives at node [d]. *)
Inductive routes (net : Net) (id : Z) : nat -> nat -> Prop :=
  | routes_here n : next_hop net id n = Some Here -> routes net id n n
  | routes_go n m d : next_hop net id n = Some (Go m) -> routes net id m d -> routes net id n d.

Section walk.
Context (net : Net) (id : Z).
Abbreviation N := (length net).

(** Every node knows what to do with the packet. *)
Definition hop_total : Prop := forall n, (n < N)%nat ->
  exists h, next_hop net id n = Some h /\ (forall m, h = Go m -> (m < N)%nat).

(** [k] hops from [n]. *)
Fixpoint walk (k : nat) (n : nat) : option nat :=
  match k with
  | O => Some n
  | S k => match next_hop net id n with Some (Go m) => walk k m | _ => None end
  end.

Lemma walk_add i j n : walk (i + j) n = m ← walk i n; walk j m.
Proof.
  revert n. induction i as [|i IH]; intros n; cbn; [done |].
  by destruct (next_hop net id n) as [[]|]; [..| apply IH |].
Qed.

Lemma walk_snoc k n : walk (S k) n = m ← walk k n; walk 1 m.
Proof. rewrite <- Nat.add_1_r. apply walk_add. Qed.

Lemma walk_le i j n m : (i <= j)%nat -> walk j n = Some m -> is_Some (walk i n).
Proof.
  intros Hij Hj. replace j with (i + (j - i))%nat in Hj by lia. rewrite walk_add in Hj.
  destruct (walk i n); [done | discriminate].
Qed.

Lemma walk_lt k n m : hop_total -> (n < N)%nat -> walk k n = Some m -> (m < N)%nat.
Proof.
  intros HT. revert n. induction k as [|k IH]; intros n Hn; cbn; [naive_solver |].
  destruct (HT n Hn) as (h & -> & Hh). destruct h; naive_solver.
Qed.

(** Once two positions of the walk coincide, it is periodic from there on. *)
Lemma walk_periodic n i p k x : walk i n = Some x -> walk (i + p) n = Some x ->
  walk (i + k + p) n = walk (i + k) n.
Proof.
  intros Hi Hp. replace (i + k + p)%nat with (i + p + k)%nat by lia.
  by rewrite !(walk_add _ k), Hi, Hp.
Qed.

(** A walk that arrives has no repetition. *)
Lemma routes_walk n d : routes net id n d ->
  exists k, walk k n = Some d /\ next_hop net id d = Some Here.
Proof.
  induction 1 as [n H|n m d H _ (k & IH & E)]; [by exists O |].
  exists (S k). cbn. by rewrite H.
Qed.

Lemma walk_routes k n d : walk k n = Some d -> next_hop net id d = Some Here -> routes net id n d.
Proof.
  revert n. induction k as [|k IH]; cbn; intros n; [by intros [= <-]; constructor |].
  destruct (next_hop net id n) as [[]|] eqn:E; try done. intros. eapply routes_go; eauto.
Qed.

Lemma walk_stop k j n d : walk k n = Some d -> walk 1 d = None -> (k < j)%nat -> walk j n = None.
Proof.
  intros Hk Hd Hj. replace j with (k + S (j - k - 1))%nat by lia. rewrite walk_add, Hk. cbn in *.
  by destruct (next_hop net id d) as [[]|].
Qed.

Lemma routes_no_cycle n d i p x : routes net id n d -> (0 < p)%nat ->
  walk i n = Some x -> walk (i + p) n = Some x -> False.
Proof.
  intros (k & Hk & Hd)%routes_walk Hp Hi Hip.
  assert (walk 1 d = None) as H1 by (cbn; by rewrite Hd).
  (* the walk goes on for ever *)
  assert (forall c, walk (i + c * p) n = Some x) as Hc.
  { induction c as [|c IH]; [by rewrite Nat.mul_0_l, Nat.add_0_r |].
    replace (i + S c * p)%nat with (i + c * p + p)%nat by lia.
    by rewrite (walk_periodic n i p (c * p) x). }
  specialize (Hc (S k)). rewrite (walk_stop k _ n d) in Hc; [done | done | done | nia].
Qed.

(** A walk stuck in a node without an answer does not arrive. *)
Lemma routes_det n d m k : routes net id n d -> walk k n = Some m ->
  next_hop net id m = Some Junk -> False.
Proof.
  intros (j & Hj & Hd)%routes_walk Hk Hm.
  destruct (Nat.lt_trichotomy j k) as [H|[->|H]].
  - rewrite (walk_stop j k n d) in Hk; [done | done | cbn; by rewrite Hd | done].
  - congruence.
  - rewrite (walk_stop k j n m) in Hj; [done | done | cbn; by rewrite Hm | done].
Qed.

Lemma routes_unique n d d' : routes net id n d -> routes net id n d' -> d = d'.
Proof.
  intros H. revert d'. induction H as [n H|n m d H _ IH]; inversion 1; subst; try congruence.
  apply IH. congruence.
Qed.

(** Pigeonhole: [N] hops that never come back to a node at position at least [N] have
    not been made. *)
Lemma walk_returns n ht x : hop_total -> (n < N)%nat -> (N <= ht)%nat ->
  walk ht n = Some x -> is_Some (walk (ht + N) n) ->
  ~ forall i, (ht < i <= ht + N)%nat -> walk i n <> Some x.
Proof.
  intros HT Hn Hht Hx [y Hy] Hno.
  assert (forall i, (i <= N)%nat -> exists z, walk i n = Some z /\ (z < N)%nat) as Hdef.
  { intros i Hi. destruct (walk_le i ht n x) as [z Hz]; [lia | done |].
    exists z. split; [done |]. by eapply walk_lt. }
  set (f i := default O (walk i n)).
  assert (NoDup (f <$> seq 0 (S N))) as HND.
  { apply NoDup_fmap_2_strong; [| apply NoDup_seq].
    assert (forall i j, (i < j <= N)%nat -> f i <> f j) as Hij.
    { intros i j Hij E. destruct (Hdef i) as (zi & Ei & _), (Hdef j) as (zj & Ej & _); [lia.. |].
      unfold f in E. rewrite Ei, Ej in E. cbn in E. subst zj.
      apply (Hno (ht + (j - i))%nat); [lia |]. rewrite <- Hx.
      replace ht with (i + (ht - i))%nat by lia.
      apply (walk_periodic n i (j - i) (ht - i) zi); [done |].
      by replace (i + (j - i))%nat with j by lia. }
    intros i j Hi%elem_of_seq Hj%elem_of_seq E.
    destruct (Nat.lt_trichotomy i j) as [H|[->|H]]; [| done |]; exfalso.
    - apply (Hij i j); [lia | done].
    - apply (Hij j i); [lia | done]. }
  assert (f <$> seq 0 (S N) ⊆ seq 0 N) as Hsub.
  { intros z (i & -> & Hi%elem_of_seq)%list_elem_of_fmap. apply elem_of_seq.
    destruct (Hdef i) as (zi & Ei & ?); [lia |]. unfold f. rewrite Ei. cbn. lia. }
  pose proof (submseteq_length _ _ (NoDup_submseteq _ _ HND Hsub)) as HL.
  rewrite length_fmap, !length_seq in HL. lia.
Qed.

(** ** The loop *)

(** What holds at the head of the loop after [h] hops, the tortoise being at position [ht]. *)
Record brent (start node tortoise h ht lp : nat) : Prop := {
  br_node : walk h start = Some node;
  br_tortoise : walk ht start = Some tortoise;
  br_order : (ht <= h < lp)%nat;
  br_leap : (lp = 8 /\ ht = 0 \/ lp = 2 * ht)%nat;
  br_bound : (lp <= Nat.max 16 (4 * N))%nat;
  br_new : forall i, (ht < i <= h)%nat -> walk i start <> Some tortoise
}.

(** The tortoise moves up before the walk has run more than [4 * N] hops. *)
Lemma brent_leap start node tortoise h ht lp m : hop_total -> (start < N)%nat ->
  brent start node tortoise h ht lp -> walk (S h) start = Some m -> m <> tortoise -> S h = lp ->
  brent start m m (S h) (S h) (2 * lp).
Proof.
  intros HT Hs [Bn Bt Bo Bl Bb Bw] Hm Hne HS.
  assert (2 * lp <= Nat.max 16 (4 * length net))%nat as Hb.
  { destruct Bl as [[-> _]| ->]; [lia |].
    destruct (Nat.lt_ge_cases ht N) as [?|HN]; [lia |]. exfalso.
    eapply (walk_returns start ht tortoise); eauto.
    - apply (walk_le _ (S h) start m); [lia | done].
    - intros i Hi. destruct (decide (i = S h)) as [->|]; [congruence | apply Bw; lia]. }
  split; try done; lia.
Qed.

Lemma route_loop_spec start fuel : hop_total -> (start < N)%nat -> Z.of_nat N < 2 ^ 30 ->
  forall node tortoise h ht lp, brent start node tortoise h ht lp ->
  (16 + 4 * N < fuel + h)%nat ->
  exists r, route_loop fuel net id node tortoise (Z.of_nat h) (Z.of_nat lp) = Some r /\
  match r with Some d => routes net id start d | None => forall d, ~ routes net id start d end.
Proof.
  intros HT Hs HN. induction fuel as [|fuel IH]; intros node tortoise h ht lp B Hf.
  { destruct B. lia. }
  pose proof B as [Bn Bt Bo Bl Bb Bw].
  destruct (HT node) as (hp & E & Hlt); [by eapply walk_lt |].
  cbn [route_loop]. rewrite E. cbn [mbind option_bind]. destruct hp as [| |m].
  - eexists. split; [done |]. exact (walk_routes _ _ _ Bn E).
  - eexists. split; [done |]. intros d Hd. exact (routes_det _ _ _ _ Hd Bn E).
  - assert (walk (S h) start = Some m) as Hm by (rewrite walk_snoc, Bn; cbn; by rewrite E).
    assert (u32 (Z.of_nat h + 1) = Z.of_nat (S h)) as ->.
    { rewrite wrap_small; [lia |]. unfold fits. lia. }
    case_bool_decide as Hmt.
    + eexists. split; [done |]. intros d Hd. subst m.
      apply (routes_no_cycle start d ht (S h - ht) tortoise); [done | lia | done |].
      by replace (ht + (S h - ht))%nat with (S h) by lia.
    + destruct (Z.eqb_spec (Z.of_nat (S h)) (Z.of_nat lp)) as [Heq|Heq].
      * assert (brent start m m (S h) (S h) (2 * lp)) as B' by (eapply brent_leap; eauto; lia).
        assert (Z.of_nat lp .<< 1 = Z.of_nat (2 * lp)) as ->.
        { rewrite Z.shiftl_mul_pow2, wrap_small; [lia | | lia]. destruct B'. unfold fits. lia. }
        apply (IH m m (S h) (S h) (2 * lp)%nat B'). lia.
      * apply (IH m tortoise (S h) ht lp); [| lia].
        split; try done; try lia. intros i Hi.
        destruct (decide (i = S h)) as [->|]; [congruence | apply Bw; lia].
Qed.
End walk.

(** ** Networks whose tables are filled in *)

(** A link leads to a link of a node. *)
Definition link_ok (net : Net) (x : XLink) : Prop :=
  forall d, destNode x = Some d ->
  exists n, net !! d = Some n /\ 0 <= destXLinkNum x < zlength (xLinks n).

(** A node with one core, whose table has an entry for each of the 16 bits, or a peripheral
    node, whose table is empty. *)
Record node_ok (net : Net) (n : Node) : Prop := {
  no_id : is_u16 (nodeID n);
  no_bits : nodeNumberBits n = 16 /\ zlength (directions n) = 16 \/ nodeNumberBits n = 0;
  no_links : Forall (link_ok net) (xLinks n)
}.
Definition net_ok (net : Net) : Prop := Forall (node_ok net) net /\ zlength net < 2 ^ 30.

Lemma isConnected_ok net x : link_ok net x ->
  exists b, isConnected net x = Some b /\ (b = true -> exists d, destNode x = Some d /\ (d < length net)%nat).
Proof.
  intros Hx. unfold isConnected, getDestXLink. destruct (enabled x); cbn; [| by eexists].
  destruct (destNode x) as [d|] eqn:Ed; cbn; [| by eexists].
  destruct (Hx d Ed) as (n & En & Hn). rewrite En. cbn.
  array_read (xLinks n) (destXLinkNum x) y Ey; [done |].
  eexists. split; [done |]. intros _. exists d. split; [done |]. by eapply lookup_lt_Some.
Qed.

(** The index in the table of directions is below 16. *)
Lemma diff_bit a b : is_u16 a -> is_u16 b -> a .^ b <> 0 ->
  0 <= u32 (31 - countLeadingZeros (a .^ b)) < 16.
Proof.
  intros Ha Hb Hne. assert (is_u16 (a .^ b)) as Hf by auto with axe.
  rewrite countLeadingZeros_pos by (unfold fits in Hf; lia).
  assert (Z.log2 (a .^ b) < 16) by (apply Z.log2_lt_pow2; unfold fits in Hf; lia).
  pose proof (Z.log2_nonneg (a .^ b)). rewrite wrap_small by (unfold fits; lia). lia.
Qed.

Lemma hop_total_ok net id v : net_ok net -> rid_node id = Some v -> hop_total net id.
Proof.
  intros [HF _] Hid n Hn. destruct (lookup_lt_is_Some_2 net n Hn) as [nd En].
  pose proof (proj1 (Forall_lookup _ _) HF n nd En) as [Hi Hb Hl].
  assert (is_u16 v) as Hv.
  { rewrite rid_node_field in Hid. destruct (isChanendOrConfig id); [| done].
    injection Hid as <-. unfold get_field. rewrite land_mask_mod by lia. by apply (wrap_fits 16). }
  unfold next_hop. rewrite En, Hid. cbn [mbind option_bind]. unfold getNonNodeNumberBits.
  destruct Hb as [[-> Hd]| ->]; cbn [Z.sub].
  - replace (u32 (16 - 16)) with 0 by done. rewrite !Z.shiftr_0_r, Z.shiftl_0_r.
    rewrite (wrap_small 32) by (apply (fits_mono 16); [lia | auto with axe]).
    destruct (Z.eqb_spec (v .^ nodeID nd) 0); [by eexists |].
    array_read (directions nd) (u32 (31 - countLeadingZeros (v .^ nodeID nd))) dir Edir.
    { rewrite Hd. by apply diff_bit. }
    destruct (getXLinkForDirection nd dir) as [x|] eqn:Ex; [| by eexists].
    unfold getXLinkForDirection in Ex. apply fmap_Some in Ex as ([i y] & Ey & ->). cbn [snd].
    apply list_find_Some in Ey as (Ey & _).
    destruct (isConnected_ok net y) as (b & Eb & Hb); [by eapply (proj1 (Forall_lookup _ _) Hl) |].
    rewrite Eb. cbn [mbind option_bind]. destruct b; cbn [negb]; [| by eexists].
    destruct (Hb eq_refl) as (d & -> & Hd'). cbn. eexists. split; [done |]. by intros m [= ->].
  - replace (u32 (16 - 0)) with 16 by done.
    rewrite !Z.shiftr_div_pow2, !Z.div_small by (unfold fits in *; lia).
    by eexists.
Qed.

(** C39: Routing is correct on every network of nodes without core bits (single-core nodes of 16 node bits, not those
    of XS1-G, and peripheral nodes), cyclic or not:
    the loop with Brent's cycle detection ends, within [route_fuel] turns, at the node where
    the packet arrives when there is one, and junks the packet exactly when no sequence of hops
    arrives anywhere. *)
Theorem route_loop_correct (net : Net) (start : nat) (id v : Z) :
  net_ok net -> (start < length net)%nat -> rid_node id = Some v ->
  exists r, route_loop (route_fuel net) net id start start 0 8 = Some r /\
  match r with
  | Some d => routes net id start d
  | None => forall d, ~ routes net id start d
  end.
Proof.
  intros Hok Hs Hid.
  apply (route_loop_spec net id start _ (hop_total_ok _ _ _ Hok Hid) Hs (proj2 Hok) start start 0 0 8).
  - split; (done || lia).
  - unfold route_fuel. lia.
Qed.

(** Two nodes, 0 and 0x8000, that send everything they do not hold to each other. *)
#[local] Definition exampleCore : RCore := mkRCore 0 (default (mkTables [] []) newTables).
#[local] Definition exampleNode (nid : Z) (other : nat) : Node :=
  mkNode XS1_L (ProcessorNode [exampleCore] 400 100) [mkXLink (Some other) 0 true true 0 0 0 0]
    (replicate 16 0) 0 nid 16.
#[local] Definition exampleNet : Net := [exampleNode 0 1; exampleNode 0x8000 0].

#[local] Lemma exampleNet_ok : net_ok exampleNet.
Proof.
  assert (forall nid other, is_u16 nid -> (other < 2)%nat -> node_ok exampleNet (exampleNode nid other)) as H.
  { intros nid other Hn Ho. split; [done | by left |]. apply Forall_singleton. intros d [= <-].
    assert (other = 0 \/ other = 1)%nat as [-> | ->] by lia; eexists; by split. }
  split; [| done]. apply Forall_cons; [| apply Forall_singleton]; apply H; (done || lia).
Qed.

Lemma route_loop_correct_witness :
  route_loop (route_fuel exampleNet) exampleNet (chanendID 3 0x8000) 0 0 0 8 = Some (Some 1%nat) /\
  (forall d, ~ routes exampleNet (chanendID 3 0x4000) 0 d).
Proof.
  split; [reflexivity |].
  destruct (route_loop_correct exampleNet 0 (chanendID 3 0x4000) 0x4000) as (r & E & H);
    [exact exampleNet_ok | cbn; lia | reflexivity |].
  vm_compute in E. injection E as <-. exact H.
Defined.

(** A packet that arrives is for the node it arrives at. *)
Lemma routes_here_id net id v n d nd : routes net id n d -> net !! d = Some nd ->
  nodeNumberBits nd = 16 -> is_u16 (nodeID nd) -> rid_node id = Some v -> is_u16 v -> v = nodeID nd.
Proof.
  intros (k & _ & H)%routes_walk Hd Hb Hn Hid Hv. unfold next_hop in H. rewrite Hd, Hid in H.
  cbn [mbind option_bind] in H. unfold getNonNodeNumberBits in H. rewrite Hb in H.
  replace (u32 (16 - 16)) with 0 in H by done. rewrite !Z.shiftr_0_r, Z.shiftl_0_r in H.
  rewrite (wrap_small 32) in H by (apply (fits_mono 16); [lia | auto with axe]).
  destruct (Z.eqb_spec (v .^ nodeID nd) 0) as [E|]; [by apply Z.lxor_eq in E |].
  destruct (array_get _ _) as [dir|]; [cbn [mbind option_bind] in H | done].
  destruct (getXLinkForDirection nd dir) as [x|]; [| done].
  destruct (isConnected net x) as [[]|]; cbn in H; try done. by destruct (destNode x).
Qed.

(** A core finds its own channel ends. *)
Lemma Core_getLocalChanendDest_own n ni ci c num v row : is_u8 num -> is_u16 v ->
  getCoreID n (coreNumber c) = Some v ->
  array_get (resource (tables c)) RES_TYPE_CHANEND = Some row -> num < zlength row ->
  Core_getLocalChanendDest n ni ci c (chanendID num v) = Some (Some (Some (ChanendOf ni ci num))).
Proof.
  intros Hn Hv Hc Hrow Hlt. unfold Core_getLocalChanendDest, isChanendOrConfig, isConfig.
  rewrite chanendID_type, chanendID_node, Hc by done.
  replace (assert _) with (Some tt) by done.
  replace (RES_TYPE_CHANEND =? RES_TYPE_CONFIG) with false by done.
  cbn [mbind option_bind]. rewrite Z.eqb_refl.
  rewrite (getResourceByID_chanend _ _ _ row) by done. done.
Qed.

(** C40: A packet is delivered to the channel end it names: sent from any node of a
    network of nodes without core bits, it reaches channel end [num] of the (only) core of the node [d] it is routed to,
    whose identifier it carries; when it is routed nowhere, it is junked. *)
Theorem packet_delivered (net : Net) (start : nat) (num v : Z) :
  net_ok net -> (start < length net)%nat -> is_u16 v -> 0 <= num < Z.of_nat NUM_CHANENDS ->
  (forall d n c p r row, routes net (chanendID num v) start d -> net !! d = Some n ->
    nodeNumberBits n = 16 -> kind n = ProcessorNode [c] p r -> coreNumber c = 0 ->
    array_get (resource (tables c)) RES_TYPE_CHANEND = Some row -> length row = NUM_CHANENDS ->
    nodeID n = v /\
    getIncomingChanendDest net start (chanendID num v) = Some (Some (ChanendOf d 0 num))) /\
  ((forall d, ~ routes net (chanendID num v) start d) ->
    getIncomingChanendDest net start (chanendID num v) = Some None).
Proof.
  intros Hok Hs Hv Hnum. unfold NUM_CHANENDS in *.
  assert (is_u8 num) as Hn8 by (unfold fits; lia).
  assert (rid_node (chanendID num v) = Some v) as Hid by (by apply chanendID_node).
  destruct (route_loop_spec net (chanendID num v) start (route_fuel net) (hop_total_ok _ _ _ Hok Hid) Hs
    (proj2 Hok) start start 0 0 8) as (res & E & Hres);
    [split; (done || lia) | unfold route_fuel; lia |].
  unfold getIncomingChanendDest. change (Z.of_nat 0) with 0 in E. change (Z.of_nat 8) with 8 in E.
  rewrite E. cbn [mbind option_bind]. split.
  - intros d n c p r row Hr Hd Hb Hk Hc Hrow Hlen.
    assert (res = Some d) as ->.
    { destruct res as [d'|]; [| by apply Hres in Hr]. f_equal. by eapply routes_unique. }
    assert (is_u16 (nodeID n)) as Hni by (eapply no_id, (proj1 (Forall_lookup _ _) (proj1 Hok)); eauto).
    assert (v = nodeID n) as Hvn by (eapply routes_here_id; eauto). split; [done |].
    unfold isConfig. rewrite chanendID_type by done.
    replace (RES_TYPE_CHANEND =? RES_TYPE_CONFIG) with false by done. cbn [andb].
    rewrite Hd. cbn [mbind option_bind]. unfold getLocalChanendDest. rewrite Hk, Hid.
    cbn [mbind option_bind]. unfold getNonNodeNumberBits. rewrite Hb.
    replace (makeMask _) with 0 by done. rewrite Z.land_0_r.
    replace (zlength [c] <=? 0) with false by done. replace (array_get [c] 0) with (Some c) by done.
    cbn [mbind option_bind]. rewrite (Core_getLocalChanendDest_own _ _ _ _ _ _ row); try done; [| lia].
    unfold getCoreID, getNonNodeNumberBits. rewrite Hb, Hc, Hvn. cbn. by rewrite Z.lor_0_r.
  - intros Hno. destruct res as [d|]; [by apply Hno in Hres | done].
Qed.

Lemma packet_delivered_witness :
  getIncomingChanendDest exampleNet 0 (chanendID 3 0x8000) = Some (Some (ChanendOf 1 0 3)) /\
  getIncomingChanendDest exampleNet 0 (chanendID 3 0x4000) = Some None.
Proof.
  split.
  - refine (proj2 (proj1 (packet_delivered exampleNet 0 3 0x8000 exampleNet_ok _ _ _)
      1%nat (exampleNode 0x8000 0) exampleCore 400 100 _ _ eq_refl eq_refl eq_refl eq_refl eq_refl eq_refl));
      [cbn; lia | unfold fits; lia | unfold NUM_CHANENDS; lia |].
    eapply routes_go; [reflexivity |]. apply routes_here. reflexivity.
  - reflexivity.
Defined.

Lemma getMinimumBits_le values k : 0 <= values <= 2 ^ k -> 0 <= k < 32 -> getMinimumBits values <= k.
Proof.
  intros Hv Hk. unfold getMinimumBits. destruct (Z.eqb_spec values 0); [lia |].
  assert (2 ^ k < 2 ^ 32) by (apply Z.pow_lt_mono_r; lia).
  rewrite wrap_small by (unfold fits; lia).
  destruct (decide (values = 1)) as [->|]; [change (32 - countLeadingZeros (1 - 1)) with 0; lia |].
  rewrite countLeadingZeros_pos by lia.
  assert (Z.log2 (values - 1) < k) by (apply Z.log2_lt_pow2; lia). lia.
Qed.

Lemma setDirection_shape i v n n' : setDirection i v n = Some n' ->
  nodeNumberBits n' = nodeNumberBits n /\ length (directions n') = length (directions n).
Proof.
  unfold setDirection. destruct (array_set (directions n) i (u8 v)) as [l|] eqn:E; cbn; [| done].
  intros [= <-]. cbn. split; [done |]. by eapply array_set_length.
Qed.

Lemma setDirections_shape l n n' :
  foldl (fun acc i => n ← acc; setDirection i i n) (Some n) l = Some n' ->
  nodeNumberBits n' = nodeNumberBits n /\ length (directions n') = length (directions n).
Proof.
  revert n. induction l as [|i l IH]; cbn; intros n; [by intros [= ->] |].
  destruct (setDirection i i n) as [n1|] eqn:E.
  - intros [-> ->]%IH. by eapply setDirection_shape.
  - clear. intros H. exfalso. induction l; cbn in H; [done | auto].
Qed.

Lemma updateCoreIDs_shape n n' : updateCoreIDs n = Some n' ->
  nodeNumberBits n' = nodeNumberBits n /\ directions n' = directions n.
Proof.
  unfold updateCoreIDs. destruct (kind n) as [cs p r|]; [| by intros [= ->]].
  destruct (mapM _ cs); cbn; [| done]. by intros [= <-].
Qed.

Lemma finalize_xs1g_shape n n' : type n = XS1_G -> zlength (cores n) <= 256 ->
  finalizeProcessor n = Some n' -> nodeNumberBits n' = 8 /\ length (directions n') = 8%nat.
Proof.
  intros Ht Hc. unfold finalizeProcessor.
  pose proof (getMinimumBits_le (zlength (cores n)) 8 ltac:(lia) ltac:(lia)) as Hb.
  assert (computeCoreNumberBits n = setNodeNumberBits 8 n) as ->.
  { unfold computeCoreNumberBits. rewrite Ht. cbn.
    destruct (Z.ltb_spec (getMinimumBits (zlength (cores n))) 8); [done |].
    by replace (getMinimumBits (zlength (cores n))) with 8 by lia. }
  set (n1 := setNodeNumberBits 8 n).
  replace (bool_decide (type n1 = XS1_G)) with true by (symmetry; by apply bool_decide_eq_true_2).
  destruct (foldl _ _ _) as [n2|] eqn:E; cbn [mbind option_bind]; [| done].
  intros [-> ->]%updateCoreIDs_shape. apply setDirections_shape in E as [-> ->]. split; [done |].
  apply length_resize.
Qed.

(** On a node of type XS1-G the routing table is indexed out of bounds: [finalize] gives the
    table eight entries, but the index of the differing bit counts from the bottom of the
    16-bit identifier, eight bits of which name the core; so the first hop of every packet
    for another node reads past the end of the table. *)
Theorem xs1g_route_out_of_bounds (net : Net) (ni : nat) (n n' : Node) (id v : Z) :
  type n = XS1_G -> zlength (cores n) <= 256 -> finalizeProcessor n = Some n' ->
  net !! ni = Some n' -> rid_node id = Some v -> is_u16 v -> is_u16 (nodeID n') ->
  v .>> 8 <> nodeID n' .>> 8 -> next_hop net id ni = None.
Proof.
  intros Ht Hc Hf Hn Hid Hv Hi Hne.
  destruct (finalize_xs1g_shape n n' Ht Hc Hf) as [Hb Hl].
  unfold next_hop. rewrite Hn, Hid. cbn [mbind option_bind]. unfold getNonNodeNumberBits. rewrite Hb.
  replace (u32 (16 - 8)) with 8 by done.
  set (x := (v .>> 8) .^ (nodeID n' .>> 8)).
  assert (fits 8 x) as Hx.
  { apply fits_lxor; [lia |..]; (apply (fits_shiftr_sub 16 8); [lia | done]). }
  assert (x <> 0) as Hx0 by (intros ?%Z.lxor_eq; done).
  assert (x .<< 8 = x * 256) as ->.
  { rewrite Z.shiftl_mul_pow2 by lia. apply wrap_small. unfold fits in *. lia. }
  destruct (Z.eqb_spec (x * 256) 0); [lia |].
  rewrite countLeadingZeros_pos by (unfold fits in Hx; lia).
  assert (8 <= Z.log2 (x * 256)) by (apply Z.log2_le_pow2; unfold fits in Hx; lia).
  assert (Z.log2 (x * 256) < 32) by (apply Z.log2_lt_pow2; unfold fits in Hx; lia).
  rewrite wrap_small by (unfold fits; lia).
  destruct (array_get (directions n') _) eqn:E; [| done]. apply array_get_bound in E. lia.
Qed.

#[local] Definition xs1gNode (nid : Z) : Node :=
  mkNode XS1_G (ProcessorNode [] 400 100) [] [] 0 nid 16.
#[local] Definition xs1gFinal : Node :=
  mkNode XS1_G (ProcessorNode [] 400 100) [] [0; 1; 2; 3; 4; 5; 6; 7] 0 0x100 8.
Lemma xs1g_route_out_of_bounds_witness :
  finalizeProcessor (xs1gNode 0x100) = Some xs1gFinal /\ next_hop [xs1gFinal] (chanendID 0 0x200) 0 = None.
Proof.
  split; [reflexivity |].
  refine (xs1g_route_out_of_bounds [xs1gFinal] 0 (xs1gNode 0x100) xs1gFinal (chanendID 0 0x200) 0x200
    eq_refl _ eq_refl eq_refl eq_refl _ _ _);
    [discriminate | unfold fits; lia | unfold fits; cbn; lia | discriminate].
Defined.
