(* ===== verification/SSwitchRegs.v ===== *)
(** * Control registers of the switch (lib/SSwitchCtrlRegs.cpp)

    The registers through which a program configures its node: the node identifier, the routing
    directions and the links.  A failed [assert] or an access out of bounds is [None]; an access
    the code refuses (it returns false) is [Some None]. *)

From Stdlib Require Import ZArith Lia Btauto.
From stdpp Require Import base list numbers option.
From S2P Require Import Prelude BitManip.
From S2P Require Import InstrDecode Resource Node.

#[local] Open Scope Z_scope.
#[local] Open Scope cbits_scope.

(** lib/SSwitchCtrlRegs.cpp:14-34 SSwitchReg *)
Definition DEVICE_ID3 : Z := 0x3.
Definition NODE_ID : Z := 0x5.
Definition CLK_DIVIDER : Z := 0x7.
Definition DIMENSION_DIRECTION_0 : Z := 0xc.
Definition DIMENSION_DIRECTION_1 : Z := 0xd.
Definition SLINK_0 : Z := 0x20.
Definition PLINK_0 : Z := 0x40.
Definition XLINK_0 : Z := 0x80.
Definition XSTATIC_0 : Z := 0xa0.

(** lib/SSwitchCtrlRegs.h:22-26 RegisterFlags *)
Definition REG_READ : Z := 1.
Definition REG_WRITE : Z := 2.
Definition REG_RW : Z := REG_READ .| REG_WRITE.

(** lib/SSwitchCtrlRegs.h:17-21 SSwitchCtrlRegs *)
Record SSwitchCtrlRegs := mkRegs { scratchReg : Z; clkDividerReg : Z; regFlags : list Z }.

(** lib/SSwitchCtrlRegs.cpp:36-40 SSwitchCtrlRegs::SSwitchCtrlRegs: [junk] is in the register that is not initialised *)
Definition newSSwitchCtrlRegs (junk : Z) : SSwitchCtrlRegs := mkRegs 0 junk [].

(** lib/SSwitchCtrlRegs.cpp:42-45 SSwitchCtrlRegs::initReg *)
Definition initReg (flags : list Z) (num f : Z) : option (list Z) := array_set flags num f.

(** lib/SSwitchCtrlRegs.cpp:47-73 SSwitchCtrlRegs::initRegisters *)
Definition initRegisters (node : Node) (r : SSwitchCtrlRegs) : option SSwitchCtrlRegs :=
  let numXLinks := Z.min (zlength (xLinks node)) (PLINK_0 - SLINK_0) in
  let numRegs := XSTATIC_0 + zlength (xLinks node) in
  let flags := resize numRegs (regFlags r) in
  flags ← initReg flags NODE_ID REG_RW;
  flags ← (if bool_decide (type node = XS1_G) then initReg flags DEVICE_ID3 REG_RW else Some flags);
  let numDirectionRegisters := (nodeNumberBits node + 7) / 8 in
  flags ← (if negb (bool_decide (type node = XS1_G))
           then foldl (fun acc i => fl ← acc; initReg fl (DIMENSION_DIRECTION_0 + i) REG_RW)
                  (Some flags) (seqZ 0 numDirectionRegisters)
           else Some flags);
  flags ← foldl (fun acc i => fl ← acc; fl ← initReg fl (SLINK_0 + i) REG_RW;
                              initReg fl (XLINK_0 + i) REG_RW)
            (Some flags) (seqZ 0 numXLinks);
  flags ← initReg flags CLK_DIVIDER REG_RW;
  Some (mkRegs (scratchReg r) (clkDividerReg r) flags).

(** ** Bit fields *)

(** lib/SSwitchCtrlRegs.cpp:75-83 setBitRange *)
Definition setBitRange (x value high low : Z) : option Z :=
  _ ← assert ((low <=? high) && (high <? 32));
  let shift := low in
  let mask := makeMask (high - low + 1) in
  Some ((x .& u32 (Z.lnot mask)) .| ((value .& mask) .<< shift)).

(** lib/SSwitchCtrlRegs.cpp:85-88 setBit *)
Definition setBit (x value bit : Z) : option Z := setBitRange x value bit bit.

(** lib/SSwitchCtrlRegs.cpp:90-93 getBits *)
Definition getBits (value shift size : Z) : Z := (value .>> shift) .& u32 (Z.shiftl 1 size - 1).

(** lib/SSwitchCtrlRegs.cpp:95-98 getBitRange *)
Definition getBitRange (value high low : Z) : Z := getBits value low (1 + high - low).

(** lib/SSwitchCtrlRegs.cpp:100-103 getBit *)
Definition getBit (value shift : Z) : Z := getBits value shift 1.

(** ** Links *)

(** lib/SSwitchCtrlRegs.cpp:105-123 readXLinkStateReg *)
Definition readXLinkStateReg (net : Net) (node : Node) (x : XLink) : option Z :=
  let g := bool_decide (type node = XS1_G) in
  v ← setBitRange 0 (interTokenDelay x) (if g then 3 else 10) 0;
  v ← setBitRange v (interSymbolDelay x) (if g then 11 else 21) (if g then 8 else 11);
  conn ← isConnected net x;
  v ← (if negb g then v ← setBit v (Z.b2z conn) 25; setBit v (Z.b2z conn) 26 else Some v);
  v ← setBit v (Z.b2z (fiveWire x)) 30;
  setBit v (Z.b2z (enabled x)) 31.

(** lib/SSwitchCtrlRegs.cpp:125-137 writeXLinkStateReg *)
Definition writeXLinkStateReg (node : Node) (x : XLink) (value : Z) : XLink :=
  let x :=
    if bool_decide (type node = XS1_G)
    then setInterSymbolDelay (getBitRange value 11 8) (setInterTokenDelay (getBitRange value 3 0) x)
    else setInterSymbolDelay (getBitRange value 21 11) (setInterTokenDelay (getBitRange value 10 0) x) in
  let x := setFiveWire (negb (getBit value 30 =? 0)) x in
  setEnabled (negb (getBit value 31 =? 0)) x.

(** lib/SSwitchCtrlRegs.cpp:139-144 getDirectionBits *)
Definition getDirectionBits (node : Node) : Z :=
  if nodeNumberBits node =? 0 then 0 else 32 - countLeadingZeros (nodeNumberBits node - 1).

(** lib/SSwitchCtrlRegs.cpp:146-154 readXLinkDirectionAndNetworkReg *)
Definition readXLinkDirectionAndNetworkReg (node : Node) (x : XLink) : option Z :=
  let directionBits := getDirectionBits node in
  v ← setBitRange 0 (network x) 5 4;
  setBitRange v (direction x) (8 + directionBits + 1) 8.

(** lib/SSwitchCtrlRegs.cpp:156-162 writeXLinkDirectionAndNetworkReg *)
Definition writeXLinkDirectionAndNetworkReg (node : Node) (x : XLink) (value : Z) : XLink :=
  let directionBits := getDirectionBits node in
  xlink_setDirection (getBitRange value (8 + directionBits + 1) 8) (setNetwork (getBitRange value 5 4) x).

(** ** Directions *)

(** lib/SSwitchCtrlRegs.cpp:164-172 readDirectionReg *)
Definition readDirectionReg (node : Node) (offset : Z) : option Z :=
  let end' := Z.min (offset + 8) (nodeNumberBits node) in
  foldl (fun acc i => v ← acc; d ← array_get (directions node) i; Some (v .| (d .<< ((i - offset) * 4))))
    (Some 0) (seqZ offset (end' - offset)).

(** lib/SSwitchCtrlRegs.cpp:174-181 writeDirectionReg *)
Definition writeDirectionReg (node : Node) (offset value : Z) : option Node :=
  let end' := Z.min (offset + 8) (nodeNumberBits node) in
  foldl (fun acc i => n ← acc; setDirection i ((value .>> ((i - offset) * 4)) .& 0xf) n)
    (Some node) (seqZ offset (end' - offset)).

(** lib/SSwitchCtrlRegs.cpp:214-220 writeNodeId *)
Definition writeNodeId (node : Node) (value : Z) : option Node :=
  let n := getNonNodeNumberBits node in
  let value := value .>> n in
  let value := value .<< n in
  setNodeID value node.

(** ** Accesses *)

(** Replace link [i] of a node. *)
Definition set_xLink (node : Node) (i : Z) (x : XLink) : option Node :=
  l ← array_set (xLinks node) i x; Some (with_xLinks l node).

(** lib/SSwitchCtrlRegs.cpp:183-212 SSwitchCtrlRegs::read: the value read; for a link's direction
    register the code goes on to the switch, which does not know it *)
Definition read (net : Net) (node : Node) (r : SSwitchCtrlRegs) (num : Z) : option (option Z) :=
  if zlength (regFlags r) <? num then Some None
  else
    flags ← array_get (regFlags r) num;
    if (flags .& REG_READ) =? 0 then Some None
    else
      _ ← (if (SLINK_0 <=? num) && (num <? PLINK_0)
           then x ← array_get (xLinks node) (num - SLINK_0); readXLinkDirectionAndNetworkReg node x
           else Some 0);
      if (XLINK_0 <=? num) && (num <? XSTATIC_0)
      then x ← array_get (xLinks node) (num - XLINK_0); v ← readXLinkStateReg net node x; Some (Some v)
      else if (num =? DIMENSION_DIRECTION_0) || (num =? DIMENSION_DIRECTION_1)
      then v ← readDirectionReg node ((num - DIMENSION_DIRECTION_0) * 8); Some (Some v)
      else if num =? NODE_ID then Some (Some (nodeID node))
      else if num =? DEVICE_ID3 then Some (Some (scratchReg r))
      else None.

(** lib/SSwitchCtrlRegs.cpp:222-256 SSwitchCtrlRegs::write: the node and the registers afterwards *)
Definition write (node : Node) (r : SSwitchCtrlRegs) (num value : Z)
    : option (option (Node * SSwitchCtrlRegs)) :=
  if zlength (regFlags r) <? num then Some None
  else
    flags ← array_get (regFlags r) num;
    if (flags .& REG_WRITE) =? 0 then Some None
    else if (SLINK_0 <=? num) && (num <? PLINK_0)
    then
      x ← array_get (xLinks node) (num - SLINK_0);
      n ← set_xLink node (num - SLINK_0) (writeXLinkDirectionAndNetworkReg node x value);
      Some (Some (n, r))
    else if (XLINK_0 <=? num) && (num <? XSTATIC_0)
    then
      x ← array_get (xLinks node) (num - XLINK_0);
      n ← set_xLink node (num - XLINK_0) (writeXLinkStateReg node x value);
      Some (Some (n, r))
    else if (num =? DIMENSION_DIRECTION_0) || (num =? DIMENSION_DIRECTION_1)
    then n ← writeDirectionReg node ((num - DIMENSION_DIRECTION_0) * 8) value; Some (Some (n, r))
    else if num =? NODE_ID then n ← writeNodeId node value; Some (Some (n, r))
    else if num =? DEVICE_ID3 then Some (Some (node, mkRegs value (clkDividerReg r) (regFlags r)))
    else if num =? CLK_DIVIDER then Some (Some (node, mkRegs (scratchReg r) value (regFlags r)))
    else None.

(** ** Bit fields of a register *)

(** The mask is not shifted: writing a field also clears the lowest bits of the word. *)
Lemma setBitRange_spec x value high low : 0 <= low <= high -> high < 32 -> is_u32 x ->
  exists r, setBitRange x value high low = Some r /\ is_u32 r /\
  forall i, 0 <= i ->
    Z.testbit r i = Z.testbit x i && negb (i <? high - low + 1) ||
                    ((low <=? i) && (i <=? high) && Z.testbit value (i - low)).
Proof.
  intros Hl Hh Hx. unfold setBitRange. rewrite (proj2 (Z.leb_le low high)), (proj2 (Z.ltb_lt high 32)) by lia.
  cbn [andb assert mbind option_bind]. eexists. split; [done |]. split; [auto with axe |].
  intros i Hi. autorewrite with zbits. rewrite makeMask_ones, Z.min_l by lia.
  rewrite !Z.testbit_ones by lia.
  destruct (Z.leb_spec low i); cbn [andb]; last first.
  { rewrite (Z.testbit_neg_r value (i - low)) by lia. rewrite (proj2 (Z.leb_le 0 i)) by lia.
    rewrite (proj2 (Z.ltb_lt i 32)) by lia. cbn. btauto. }
  rewrite (proj2 (Z.leb_le 0 i)), (proj2 (Z.leb_le 0 (i - low))) by lia. cbn [andb].
  destruct (Z.leb_spec i high), (Z.ltb_spec (i - low) (high - low + 1)), (Z.ltb_spec i 32); try lia; cbn [andb];
    rewrite ?andb_true_r, ?andb_false_r, ?orb_false_r; try done.
  rewrite (fits_testbit_high 32 x) by (done || lia). done.
Qed.

Lemma getBits_testbit v shift size i : 0 <= shift -> 0 <= size <= 32 -> 0 <= i ->
  Z.testbit (getBits v shift size) i = (i <? size) && Z.testbit v (i + shift).
Proof.
  intros. unfold getBits. rewrite Z.shiftl_1_l, wrap_small; last first.
  { assert (2 ^ size <= 2 ^ 32) by (apply Z.pow_le_mono_r; lia). pose proof (pow2_pos size).
    unfold fits. lia. }
  autorewrite with zbits. rewrite ones_testbit by lia. btauto.
Qed.

Lemma getBit_b2z v i : 0 <= i -> negb (getBit v i =? 0) = Z.testbit v i.
Proof.
  intros. assert (getBit v i = Z.b2z (Z.testbit v i)) as ->.
  { apply Z.bits_inj'. intros j Hj. unfold getBit. rewrite getBits_testbit by lia.
    destruct (decide (j = 0)) as [->|]; [by rewrite Z.b2z_bit0 |].
    rewrite (proj2 (Z.ltb_ge j 1)) by lia. cbn. symmetry.
    destruct (Z.testbit v i); [apply (fits_testbit_high 1 1) | apply Z.testbit_0_l]; (done || lia). }
  by destruct (Z.testbit v i).
Qed.

(** The bits of a field of at most 16 bits stored in a 16-bit member. *)
Lemma u16_getBitRange v high low i : 0 <= low <= high -> high < low + 16 -> 0 <= i <= high - low ->
  Z.testbit (u16 (getBitRange v high low)) i = Z.testbit v (i + low).
Proof.
  intros. unfold getBitRange. rewrite wrap_testbit, getBits_testbit by lia.
  by rewrite (proj2 (Z.ltb_lt i 16)), (proj2 (Z.ltb_lt i _)) by lia.
Qed.

Lemma b2z_testbit b i : 0 <= i -> Z.testbit (Z.b2z b) i = (i =? 0) && b.
Proof.
  intros. destruct (Z.eqb_spec i 0) as [->|]; [apply Z.b2z_bit0 |].
  destruct b; [apply (fits_testbit_high 1 1) | apply Z.testbit_0_l]; (done || lia).
Qed.

(** The first two fields of the state register: the second clears the first. *)
Lemma delay_fields td v th hi lo : 0 <= th < 16 -> th < lo -> hi = lo + th -> hi < 30 ->
  exists w r, setBitRange 0 td th 0 = Some w /\
  setBitRange w (u16 (getBitRange v hi lo)) hi lo = Some r /\ is_u32 r /\
  forall i, 0 <= i -> Z.testbit r i = (lo <=? i) && (i <=? hi) && Z.testbit v i.
Proof.
  intros Ht Hlo Hhi Hb.
  destruct (setBitRange_spec 0 td th 0) as (r1 & E1 & H1 & B1); [lia | lia | done |].
  destruct (setBitRange_spec r1 (u16 (getBitRange v hi lo)) hi lo) as (r2 & E & H2 & B2);
    [lia | lia | done |].
  exists r1, r2. split_and!; try done. intros i Hi. rewrite B2, B1, Z.testbit_0_l by done.
  destruct (Z.leb_spec lo i), (Z.leb_spec i hi); cbn [andb orb].
  - rewrite (u16_getBitRange v hi lo) by lia. replace (i - lo + lo) with i by lia.
    destruct (Z.leb_spec i th); [lia |]. by rewrite andb_false_r.
  - destruct (Z.leb_spec i th); [lia |]. by rewrite andb_false_r.
  - destruct (Z.leb_spec i th), (Z.ltb_spec i (hi - lo + 1)); try lia; cbn; btauto.
  - lia.
Qed.

Lemma setBit_spec w b n : is_u32 w -> 0 <= n < 32 ->
  exists r, setBit w (Z.b2z b) n = Some r /\ is_u32 r /\
  forall i, 0 <= i -> Z.testbit r i = Z.testbit w i && negb (i =? 0) || ((i =? n) && b).
Proof.
  intros Hw Hn. destruct (setBitRange_spec w (Z.b2z b) n n) as (r & E & Hr & B); [lia | lia | done |].
  exists r. split; [done |]. split; [done |]. intros i Hi. rewrite B by done.
  replace (n - n + 1) with 1 by lia. f_equal.
  - do 2 f_equal. destruct (Z.ltb_spec i 1), (Z.eqb_spec i 0); lia.
  - destruct (Z.eqb_spec i n) as [->|]; [by rewrite Z.leb_refl, Z.sub_diag, b2z_testbit |].
    by destruct (Z.leb_spec n i), (Z.leb_spec i n); try lia.
Qed.

(** What the state register of a link reads back after a write: the fields for the delay
    between symbols, the five-wire mode and the enable bit, and the two bits that say whether
    the link is connected, but never the delay between tokens: its field is at the bottom of
    the word, and [setBitRange] clears the mask unshifted when the later fields are added. *)
Theorem xlink_state_readback (net : Net) (node : Node) (x : XLink) (v : Z) (conn : bool) :
  isConnected net (writeXLinkStateReg node x v) = Some conn ->
  exists r, readXLinkStateReg net node (writeXLinkStateReg node x v) = Some r /\
  forall i, 0 <= i < 32 -> Z.testbit r i =
    if i =? 31 then Z.testbit v 31 else if i =? 30 then Z.testbit v 30
    else match type node with
         | XS1_G => (8 <=? i) && (i <=? 11) && Z.testbit v i
         | _ => (11 <=? i) && (i <=? 21) && Z.testbit v i || ((i =? 25) || (i =? 26)) && conn
         end.
Proof.
  intros Hc. unfold readXLinkStateReg. rewrite Hc.
  assert (fiveWire (writeXLinkStateReg node x v) = Z.testbit v 30) as -> by (by apply getBit_b2z).
  assert (enabled (writeXLinkStateReg node x v) = Z.testbit v 31) as -> by (by apply getBit_b2z).
  assert (interSymbolDelay (writeXLinkStateReg node x v) =
    u16 (if bool_decide (type node = XS1_G) then getBitRange v 11 8 else getBitRange v 21 11)) as ->.
  { unfold writeXLinkStateReg. by destruct (bool_decide (type node = XS1_G)). }
  set (td := interTokenDelay _). clearbody td. clear Hc x.
  destruct (decide (type node = XS1_G)) as [Ht|Ht].
  - rewrite (bool_decide_eq_true_2 _ Ht). cbn [negb]. rewrite Ht.
    destruct (delay_fields td v 3 11 8) as (w & r2 & -> & E & H2 & B2); [lia.. |].
    cbn [mbind option_bind]. rewrite E. cbn [mbind option_bind].
    destruct (setBit_spec r2 (Z.testbit v 30) 30) as (r3 & -> & H3 & B3); [done | lia |]. cbn [mbind option_bind].
    destruct (setBit_spec r3 (Z.testbit v 31) 31) as (r4 & -> & H4 & B4); [done | lia |].
    eexists. split; [done |]. intros i Hi. rewrite B4, B3, B2 by lia. clear.
    destruct (Z.eqb_spec i 31) as [->|]; [cbn; btauto |]. destruct (Z.eqb_spec i 30) as [->|]; [cbn; btauto |].
    destruct (Z.eqb_spec i 0) as [->|]; [cbn; btauto |]. cbn. btauto.
  - rewrite (bool_decide_eq_false_2 _ Ht). cbn [negb].
    destruct (delay_fields td v 10 21 11) as (w & r2 & -> & E & H2 & B2); [lia.. |].
    cbn [mbind option_bind]. rewrite E. cbn [mbind option_bind].
    destruct (setBit_spec r2 conn 25) as (r3 & -> & H3 & B3); [done | lia |]. cbn [mbind option_bind].
    destruct (setBit_spec r3 conn 26) as (r4 & -> & H4 & B4); [done | lia |]. cbn [mbind option_bind].
    destruct (setBit_spec r4 (Z.testbit v 30) 30) as (r5 & -> & H5 & B5); [done | lia |]. cbn [mbind option_bind].
    destruct (setBit_spec r5 (Z.testbit v 31) 31) as (r6 & -> & H6 & B6); [done | lia |].
    eexists. split; [done |]. intros i Hi. rewrite B6, B5, B4, B3, B2 by lia.
    transitivity (if i =? 31 then Z.testbit v 31 else if i =? 30 then Z.testbit v 30
      else (11 <=? i) && (i <=? 21) && Z.testbit v i || ((i =? 25) || (i =? 26)) && conn);
      [| by destruct (type node)]. clear.
    destruct (Z.eqb_spec i 31) as [->|]; [cbn; btauto |]. destruct (Z.eqb_spec i 30) as [->|]; [cbn; btauto |].
    destruct (Z.eqb_spec i 0) as [->|]; [cbn; btauto |]. cbn. btauto.
Qed.

#[local] Definition exLink : XLink := mkXLink None 0 false false 0 0 7 9.
#[local] Definition exNode : Node :=
  mkNode XS1_L (ProcessorNode [] 400 100) [exLink] (replicate 16 0) 0 0 16.
Lemma xlink_state_readback_witness :
  exists r, readXLinkStateReg [exNode] exNode (writeXLinkStateReg exNode exLink 0xc0004805) = Some r /\
  Z.testbit r 0 = false /\ Z.testbit r 31 = true.
Proof.
  destruct (xlink_state_readback [exNode] exNode exLink 0xc0004805 false) as (r & E & H); [reflexivity |].
  exists r. split; [exact E |]. rewrite !H by lia. split; reflexivity.
Defined.

(** ** Directions *)

Lemma setDirection_ok i v n : 0 <= i < zlength (directions n) ->
  exists n', setDirection i v n = Some n' /\ nodeNumberBits n' = nodeNumberBits n /\
  length (directions n') = length (directions n) /\
  forall j, array_get (directions n') j = if decide (j = i) then Some (u8 v) else array_get (directions n) j.
Proof.
  intros Hi. unfold setDirection. array_write (directions n) i (u8 v) l E; [done |].
  apply array_set_spec in E as (_ & L & G). eexists. split; [done |]. by split_and!.
Qed.

(** The entries written by [k] turns of the loop of [writeDirectionReg]. *)
Lemma writeDirections_spec (k : nat) offset value n : 0 <= offset ->
  offset + Z.of_nat k <= zlength (directions n) ->
  exists n', foldl (fun acc i => n ← acc; setDirection i ((value .>> ((i - offset) * 4)) .& 0xf) n)
      (Some n) (seqZ offset (Z.of_nat k)) = Some n' /\
  nodeNumberBits n' = nodeNumberBits n /\ length (directions n') = length (directions n) /\
  forall j, array_get (directions n') j =
    if decide (offset <= j < offset + Z.of_nat k) then Some ((value .>> ((j - offset) * 4)) .& 0xf)
    else array_get (directions n) j.
Proof.
  intros Ho. induction k as [|k IH]; intros Hk.
  { exists n. split_and!; try done. intros j. by rewrite decide_False by lia. }
  destruct IH as (n1 & E1 & Hb & Hl & G1); [lia |].
  rewrite seqZ_S, foldl_app, E1. cbn [foldl mbind option_bind].
  destruct (setDirection_ok (offset + Z.of_nat k)
    ((value .>> ((offset + Z.of_nat k - offset) * 4)) .& 0xf) n1) as (n2 & E2 & Hb2 & Hl2 & G2); [lia |].
  exists n2. split_and!; [done | congruence | congruence |]. intros j. rewrite G2.
  destruct (decide (j = offset + Z.of_nat k)) as [->|].
  - rewrite decide_True by lia. f_equal. apply wrap_small.
    apply (fits_mono 4); [lia |]. apply fits_land_r; [lia |]. unfold fits. lia.
  - rewrite G1. by destruct (decide _), (decide _); try lia.
Qed.

(** Reading [k] entries of four bits that hold the digits of [value]. *)
Lemma readDirections_spec (k : nat) offset value n : (k <= 8)%nat ->
  (forall j, offset <= j < offset + Z.of_nat k ->
    array_get (directions n) j = Some ((value .>> ((j - offset) * 4)) .& 0xf)) ->
  foldl (fun acc i => v ← acc; d ← array_get (directions n) i; Some (v .| (d .<< ((i - offset) * 4))))
    (Some 0) (seqZ offset (Z.of_nat k)) = Some (value mod 2 ^ (4 * Z.of_nat k)).
Proof.
  intros Hk8 H. induction k as [|k IH]; [by rewrite Z.mod_1_r |].
  rewrite seqZ_S, foldl_app, IH by (lia || (intros; apply H; lia)).
  cbn [foldl mbind option_bind]. rewrite H by lia. cbn [mbind option_bind].
  replace (offset + Z.of_nat k - offset) with (Z.of_nat k) by lia. rewrite Nat2Z.inj_succ. f_equal.
  apply Z.bits_inj'. intros i Hi. autorewrite with zbits.
  fold (wrap (4 * Z.of_nat k) value) (wrap (4 * Z.succ (Z.of_nat k)) value).
  rewrite !wrap_testbit by lia.
  destruct (Z.ltb_spec i (Z.of_nat k * 4)).
  - rewrite (Z.testbit_neg_r _ (i - Z.of_nat k * 4)) by lia.
    rewrite (proj2 (Z.ltb_lt i (4 * _))), (proj2 (Z.ltb_lt i (4 * Z.succ _))) by lia. cbn. btauto.
  - rewrite (proj2 (Z.ltb_ge i (4 * Z.of_nat k))) by lia. autorewrite with zbits.
    replace (i - Z.of_nat k * 4 + Z.of_nat k * 4) with i by lia.
    change 0xf with (2 ^ 4 - 1). rewrite ones_testbit by lia.
    destruct (Z.ltb_spec i 32), (Z.ltb_spec (i - Z.of_nat k * 4) 4), (Z.ltb_spec i (4 * Z.succ (Z.of_nat k)));
      try lia; cbn; btauto.
Qed.

(** A direction register reads back as written: the register at [offset] holds the directions
    of the bits [offset], [offset + 1], ... in four bits each, as far as the node has bits
    (all eight of them for an offset of 0 or 8 on a node with 16 bits); the directions of the
    other bits do not change. *)
Theorem direction_register_roundtrip (node : Node) (offset value : Z) :
  0 <= offset <= nodeNumberBits node -> zlength (directions node) = nodeNumberBits node ->
  exists n', writeDirectionReg node offset value = Some n' /\
  readDirectionReg n' offset = Some (value mod 2 ^ (4 * Z.min 8 (nodeNumberBits node - offset))) /\
  forall j, ~ (offset <= j < offset + 8) -> array_get (directions n') j = array_get (directions node) j.
Proof.
  intros Ho Hl. unfold writeDirectionReg, readDirectionReg.
  set (k := Z.to_nat (Z.min 8 (nodeNumberBits node - offset))).
  replace (Z.min (offset + 8) (nodeNumberBits node) - offset) with (Z.of_nat k) by lia.
  replace (Z.min 8 (nodeNumberBits node - offset)) with (Z.of_nat k) by lia.
  destruct (writeDirections_spec k offset value node) as (n' & E & Hb & Hl' & G); [lia.. |].
  exists n'. split; [done |]. rewrite Hb.
  replace (Z.min (offset + 8) (nodeNumberBits node) - offset) with (Z.of_nat k) by lia.
  split; [| intros j Hj; rewrite G; by rewrite decide_False by lia].
  apply readDirections_spec; [lia |]. intros j Hj. rewrite G. by rewrite decide_True by lia.
Qed.

Lemma direction_register_roundtrip_witness :
  exists n', writeDirectionReg exNode 8 0x76543210 = Some n' /\ readDirectionReg n' 8 = Some 0x76543210.
Proof.
  destruct (direction_register_roundtrip exNode 8 0x76543210) as (n' & E & H & _);
    [cbn; lia | reflexivity |].
  exists n'. split; [exact E |]. rewrite H. reflexivity.
Defined.

(** ** Which registers exist *)

(** The registers a program may access. *)
Definition accessible (node : Node) (num : Z) : bool :=
  let numXLinks := Z.min (zlength (xLinks node)) 32 in
  (num =? NODE_ID) || (num =? CLK_DIVIDER) ||
  (bool_decide (type node = XS1_G) && (num =? DEVICE_ID3)) ||
  (negb (bool_decide (type node = XS1_G)) && (DIMENSION_DIRECTION_0 <=? num) &&
    (num <? DIMENSION_DIRECTION_0 + (nodeNumberBits node + 7) / 8)) ||
  ((SLINK_0 <=? num) && (num <? SLINK_0 + numXLinks)) ||
  ((XLINK_0 <=? num) && (num <? XLINK_0 + numXLinks)).

(** The flags of [size] registers are those of the set [P]. *)
Definition flagged (P : Z -> bool) (size : Z) (l : list Z) : Prop :=
  zlength l = size /\ forall i, 0 <= i < size -> array_get l i = Some (if P i then REG_RW else 0).

Lemma flagged_ext P Q size l : (forall i, P i = Q i) -> flagged P size l -> flagged Q size l.
Proof. intros HPQ [L H]. split; [done |]. intros i Hi. by rewrite <- HPQ, H. Qed.

Lemma initReg_flagged P size l num : flagged P size l -> 0 <= num < size ->
  exists l', initReg l num REG_RW = Some l' /\ flagged (fun i => (i =? num) || P i) size l'.
Proof.
  intros [L H] Hn. unfold initReg. array_write l num REG_RW l' E; [lia |].
  exists l'. split; [done |]. apply array_set_spec in E as (_ & L' & G). split; [congruence |].
  intros i Hi. rewrite G. destruct (Z.eqb_spec i num) as [->|]; [by rewrite decide_True |].
  rewrite decide_False by done. by apply H.
Qed.

(** A loop that sets a register at each of some bases. *)
Lemma initRegs_flagged (bases : list Z) (k : nat) P size l : flagged P size l ->
  Forall (fun b => 0 <= b /\ b + Z.of_nat k <= size) bases ->
  exists l', foldl (fun acc i => fl ← acc; foldl (fun acc b => fl ← acc; initReg fl (b + i) REG_RW) (Some fl) bases)
    (Some l) (seqZ 0 (Z.of_nat k)) = Some l' /\
  flagged (fun i => existsb (fun b => (b <=? i) && (i <? b + Z.of_nat k)) bases || P i) size l'.
Proof.
  intros Hl. induction k as [|k IH]; intros Hb.
  { exists l. split; [done |]. revert Hl. apply flagged_ext. intros i.
    assert (existsb (fun b => (b <=? i) && (i <? b + Z.of_nat 0)) bases = false) as ->; [| done].
    clear. induction bases as [|b bs IH]; cbn [existsb]; [done |]. rewrite IH, orb_false_r.
    destruct (Z.leb_spec b i), (Z.ltb_spec i (b + Z.of_nat 0)); try done; lia. }
  destruct IH as (l1 & E1 & F1).
  { eapply Forall_impl; [| exact Hb]. cbn. lia. }
  rewrite seqZ_S, foldl_app, E1. cbn [foldl mbind option_bind]. rewrite Z.add_0_l.
  assert (forall bs Q l1, flagged Q size l1 -> Forall (fun b => 0 <= b /\ b + Z.of_nat (S k) <= size) bs ->
    exists l', foldl (fun acc b => fl ← acc; initReg fl (b + Z.of_nat k) REG_RW) (Some l1) bs = Some l' /\
    flagged (fun i => existsb (fun b => i =? b + Z.of_nat k) bs || Q i) size l') as Hin.
  { clear. induction bs as [|b bs IH]; intros Q l1 F Hb; cbn; [by exists l1 |].
    inversion_clear Hb as [|? ? Hb1 Hb2].
    destruct (initReg_flagged Q size l1 (b + Z.of_nat k) F) as (l2 & -> & F2); [lia |].
    destruct (IH _ l2 F2 Hb2) as (l3 & E3 & F3). exists l3. split; [done |]. revert F3.
    apply flagged_ext. intros i. by rewrite orb_assoc, (orb_comm (existsb _ _) (_ =? _)). }
  destruct (Hin bases _ l1 F1 Hb) as (l2 & E2 & F2). exists l2. split; [done |]. revert F2.
  apply flagged_ext. intros i. rewrite orb_assoc. f_equal. clear.
  induction bases as [|b bs IH]; cbn [existsb]; [done |]. rewrite <- IH.
  assert ((b <=? i) && (i <? b + Z.of_nat (S k)) =
    (i =? b + Z.of_nat k) || ((b <=? i) && (i <? b + Z.of_nat k))) as ->.
  { destruct (Z.leb_spec b i), (Z.ltb_spec i (b + Z.of_nat (S k))), (Z.eqb_spec i (b + Z.of_nat k)),
      (Z.ltb_spec i (b + Z.of_nat k)); try done; lia. }
  btauto.
Qed.

Lemma resize_nil_flagged size : 0 <= size -> flagged (fun _ => false) size (resize size []).
Proof.
  intros Hs. unfold resize. rewrite list.resize_nil. split; [rewrite length_replicate; lia |].
  intros i Hi. apply array_get_replicate. lia.
Qed.

Lemma initRegisters_flagged node junk : 0 <= nodeNumberBits node <= 16 ->
  exists r, initRegisters node (newSSwitchCtrlRegs junk) = Some r /\
  flagged (accessible node) (XSTATIC_0 + zlength (xLinks node)) (regFlags r).
Proof.
  intros Hb. unfold initRegisters. cbn [regFlags newSSwitchCtrlRegs].
  set (size := XSTATIC_0 + zlength (xLinks node)).
  assert (160 <= size) by (unfold size, XSTATIC_0; lia).
  destruct (initReg_flagged _ size _ NODE_ID (resize_nil_flagged size ltac:(lia)))
    as (l1 & -> & F1); [unfold NODE_ID; lia |]. cbn [mbind option_bind].
  set (g := bool_decide (type node = XS1_G)) in *.
  assert (exists l2, (if g then initReg l1 DEVICE_ID3 REG_RW else Some l1) = Some l2 /\
    flagged (fun i => (g && (i =? DEVICE_ID3)) || (i =? NODE_ID)) size l2) as (l2 & -> & F2).
  { destruct g.
    - destruct (initReg_flagged _ size l1 DEVICE_ID3 F1) as (l2 & -> & F2); [unfold DEVICE_ID3; lia |].
      eexists. split; [done |]. revert F2. apply flagged_ext. intros i. cbn. btauto.
    - eexists. split; [done |]. revert F1. apply flagged_ext. intros i. cbn. btauto. }
  cbn [mbind option_bind].
  set (k := (nodeNumberBits node + 7) / 8).
  assert (0 <= k <= 2) as Hk.
  { split; [apply Z.div_pos; lia | assert (k < 3) by (apply Z.div_lt_upper_bound; lia); lia]. }
  assert (exists l3, (if negb g then foldl (fun acc i => fl ← acc; initReg fl (DIMENSION_DIRECTION_0 + i) REG_RW)
      (Some l2) (seqZ 0 k) else Some l2) = Some l3 /\
    flagged (fun i => (negb g && (DIMENSION_DIRECTION_0 <=? i) && (i <? DIMENSION_DIRECTION_0 + k)) ||
                      ((g && (i =? DEVICE_ID3)) || (i =? NODE_ID))) size l3) as (l3 & -> & F3).
  { destruct g; cbn [negb].
    - eexists. split; [done |]. revert F2. by apply flagged_ext.
    - destruct (initRegs_flagged [DIMENSION_DIRECTION_0] (Z.to_nat k) _ size l2 F2) as (l3 & E3 & F3).
      { apply Forall_singleton. unfold DIMENSION_DIRECTION_0. lia. }
      rewrite Z2Nat.id in * by lia. exists l3. split; [exact E3 |]. revert F3.
      apply flagged_ext. intros i. cbn [existsb]. btauto. }
  cbn [mbind option_bind].
  set (n := Z.min (zlength (xLinks node)) (PLINK_0 - SLINK_0)).
  assert (0 <= n <= 32) as Hn by (unfold n, PLINK_0, SLINK_0; lia).
  destruct (initRegs_flagged [SLINK_0; XLINK_0] (Z.to_nat n) _ size l3 F3) as (l4 & E4 & F4).
  { repeat constructor; unfold SLINK_0, XLINK_0; lia. }
  rewrite Z2Nat.id in E4 by lia. cbn [foldl mbind option_bind] in E4. rewrite E4.
  cbn [mbind option_bind].
  destruct (initReg_flagged _ size l4 CLK_DIVIDER F4) as (l5 & -> & F5); [unfold CLK_DIVIDER; lia |].
  eexists. split; [done |]. revert F5. apply flagged_ext. intros i. unfold accessible.
  cbn [existsb]. rewrite Z2Nat.id by lia. fold g k. unfold n.
  replace (PLINK_0 - SLINK_0) with 32 by done. btauto.
Qed.

(** What the accesses rely on: a table of directions with one entry per bit, and cores whose
    numbers and channel ends are as the constructors make them. *)
Record regs_ready (node : Node) : Prop := {
  rr_bits : 0 <= nodeNumberBits node <= 16;
  rr_dirs : zlength (directions node) = nodeNumberBits node;
  rr_cores : Forall (fun c => coreNumber c <= makeMask (getNonNodeNumberBits node) /\
    exists row, array_get (resource (tables c)) RES_TYPE_CHANEND = Some row /\
    Forall (fun r => isChanendOrConfig (ID r) = true) row) (cores node)
}.

Lemma mapM_ok {A B} (f : A -> option B) l : Forall (fun a => is_Some (f a)) l -> is_Some (mapM f l).
Proof.
  induction 1 as [|a l [b Hb] _ [k IH]]; [by eexists |]. cbn. rewrite Hb. cbn. rewrite IH. by eexists.
Qed.

Lemma updateIDs_ok id t row : array_get (resource t) RES_TYPE_CHANEND = Some row ->
  Forall (fun r => isChanendOrConfig (ID r) = true) row -> is_Some (updateIDs id t).
Proof.
  intros Hr HF. unfold updateIDs. rewrite Hr. cbn [mbind option_bind].
  destruct (mapM_ok (setNode id) row) as [row' ->].
  { eapply Forall_impl; [| exact HF]. intros r H. unfold setNode, rid_setNode. rewrite H. by eexists. }
  cbn [mbind option_bind].
  array_write (resource t) RES_TYPE_CHANEND row' rows E; [by eapply array_get_bound | by eexists].
Qed.

Lemma setNodeID_ok v node : regs_ready node -> is_Some (setNodeID v node).
Proof.
  intros [_ _ HF]. unfold setNodeID, updateCoreIDs, cores in *. cbn [kind with_nodeID].
  destruct (kind node) as [cs p r|]; [| by eexists].
  destruct (mapM_ok (updateCore (with_nodeID v node)) cs) as [cs' ->]; [| by eexists].
  eapply Forall_impl; [| exact HF]. intros c [Hc (row & Hr & Hf)]. unfold updateCore, getCoreID.
  change (getNonNodeNumberBits (with_nodeID v node)) with (getNonNodeNumberBits node).
  rewrite (proj2 (Z.leb_le _ _) Hc). cbn [assert mbind option_bind nodeID with_nodeID].
  destruct (updateIDs_ok (v .| coreNumber c) (tables c) row Hr Hf) as [t ->]. by eexists.
Qed.

(** The registers that [read] knows. *)
Definition readable (node : Node) (num : Z) : bool :=
  accessible node num && negb ((SLINK_0 <=? num) && (num <? PLINK_0)) && negb (num =? CLK_DIVIDER).

(** The kinds of accessible registers. *)
Inductive reg_kind (node : Node) : Z -> Prop :=
  | rk_node : reg_kind node NODE_ID
  | rk_clock : reg_kind node CLK_DIVIDER
  | rk_scratch : reg_kind node DEVICE_ID3
  | rk_dir k : k = 0 \/ k = 1 -> k * 8 <= nodeNumberBits node -> reg_kind node (DIMENSION_DIRECTION_0 + k)
  | rk_slink k : 0 <= k < 32 -> k < zlength (xLinks node) -> reg_kind node (SLINK_0 + k)
  | rk_xlink k : 0 <= k < 32 -> k < zlength (xLinks node) -> reg_kind node (XLINK_0 + k).

Lemma accessible_kind node num : 0 <= nodeNumberBits node <= 16 -> accessible node num = true ->
  reg_kind node num.
Proof.
  intros Hb. unfold accessible. rewrite !orb_true_iff, !andb_true_iff, !Z.eqb_eq, !Z.leb_le, !Z.ltb_lt.
  intros [[[[[-> | ->] | [_ ->]] | [[_ H1] H2]] | [H1 H2]] | [H1 H2]].
  - constructor.
  - constructor.
  - constructor.
  - assert ((nodeNumberBits node + 7) / 8 < 3) by (apply Z.div_lt_upper_bound; lia).
    pose proof (Z.mul_div_le (nodeNumberBits node + 7) 8 ltac:(lia)).
    replace num with (DIMENSION_DIRECTION_0 + (num - DIMENSION_DIRECTION_0)) by lia. constructor; lia.
  - replace num with (SLINK_0 + (num - SLINK_0)) by lia. constructor; lia.
  - replace num with (XLINK_0 + (num - XLINK_0)) by lia. constructor; lia.
Qed.

Lemma writeDirectionReg_ok node k value : regs_ready node -> 0 <= k -> k * 8 <= nodeNumberBits node ->
  is_Some (writeDirectionReg node (k * 8) value).
Proof.
  intros [Hb Hd _] Hk0 Hk. unfold writeDirectionReg.
  destruct (writeDirections_spec (Z.to_nat (Z.min (k * 8 + 8) (nodeNumberBits node) - k * 8)) (k * 8) value node)
    as (n' & E & _); [lia.. |]. rewrite Z2Nat.id in E by lia. rewrite E. by eexists.
Qed.

Lemma readDirectionReg_ok node k : regs_ready node -> 0 <= k -> k * 8 <= nodeNumberBits node ->
  is_Some (readDirectionReg node (k * 8)).
Proof.
  intros [Hb Hd _] Hk0 Hk. unfold readDirectionReg.
  set (m := Z.min (k * 8 + 8) (nodeNumberBits node) - k * 8).
  assert (forall l v, Forall (fun i => 0 <= i < nodeNumberBits node) l ->
    is_Some (foldl (fun acc i => v ← acc; d ← array_get (directions node) i; Some (v .| (d .<< ((i - k * 8) * 4))))
      (Some v) l)) as H.
  { induction l as [|i l IH]; intros v HF; cbn; [by eexists |]. inversion_clear HF.
    array_read (directions node) i d E; [lia |]. by apply IH. }
  apply H, Forall_forall. intros i Hi%list_elem_of_In%elem_of_seqZ. lia.
Qed.

Lemma readXLinkStateReg_ok net node x : is_Some (isConnected net x) -> is_Some (readXLinkStateReg net node x).
Proof.
  intros [c Hc]. unfold readXLinkStateReg. rewrite Hc.
  destruct (bool_decide (type node = XS1_G)); cbn; by eexists.
Qed.

Lemma slink_range k : 0 <= k < 32 -> (SLINK_0 <=? SLINK_0 + k) && (SLINK_0 + k <? PLINK_0) = true.
Proof. unfold SLINK_0, PLINK_0. lia. Qed.
Lemma slink_not_xlink k : 0 <= k < 32 -> (XLINK_0 <=? SLINK_0 + k) && (SLINK_0 + k <? XSTATIC_0) = false.
Proof. unfold SLINK_0, XLINK_0. lia. Qed.
Lemma xlink_range k : 0 <= k < 32 -> (XLINK_0 <=? XLINK_0 + k) && (XLINK_0 + k <? XSTATIC_0) = true.
Proof. unfold XLINK_0, XSTATIC_0. lia. Qed.
Lemma xlink_not_slink k : 0 <= k < 32 -> (SLINK_0 <=? XLINK_0 + k) && (XLINK_0 + k <? PLINK_0) = false.
Proof. unfold XLINK_0, PLINK_0. lia. Qed.
Lemma slink_not_switch k A (a b c d : A) : 0 <= k < 32 ->
  (if (SLINK_0 + k =? DIMENSION_DIRECTION_0) || (SLINK_0 + k =? DIMENSION_DIRECTION_1) then a
   else if SLINK_0 + k =? NODE_ID then b else if SLINK_0 + k =? DEVICE_ID3 then c else d) = d.
Proof.
  intros. unfold SLINK_0, DIMENSION_DIRECTION_0, DIMENSION_DIRECTION_1, NODE_ID, DEVICE_ID3.
  by rewrite !(proj2 (Z.eqb_neq _ _)) by lia.
Qed.

(** ** Accesses to an initialised register file *)

Section access.
Context (net : Net) (node : Node) (r : SSwitchCtrlRegs) (num value : Z).
Abbreviation size := (XSTATIC_0 + zlength (xLinks node)).
Context (HR : regs_ready node) (HC : Forall (fun x => is_Some (isConnected net x)) (xLinks node)).
Context (F : flagged (accessible node) size (regFlags r)) (Hn : 0 <= num < size).

Lemma access_flag : array_get (regFlags r) num = Some (if accessible node num then REG_RW else 0).
Proof. destruct F as [_ H]. rewrite H by done. done. Qed.
Lemma access_bound : (size <? num) = false.
Proof. apply Z.ltb_ge. lia. Qed.

Lemma refuse_inaccessible : accessible node num = false -> write node r num value = Some None /\ read net node r num = Some None.
Proof.
  intros Ha. unfold write, read. destruct F as [-> _]. by rewrite access_bound, access_flag, Ha.
Qed.

Lemma write_accessible : accessible node num = true -> exists nr, write node r num value = Some (Some nr).
Proof.
  intros Ha.
  unfold write. destruct F as [-> _]. rewrite access_bound, access_flag, Ha. cbn [mbind option_bind].
  change ((REG_RW .& REG_WRITE) =? 0) with false. cbn match.
  destruct (accessible_kind _ _ (rr_bits _ HR) Ha) as [| | |k Hk Hk'|k Hk Hk'|k Hk Hk'].
  - destruct (setNodeID_ok (value .>> getNonNodeNumberBits node .<< getNonNodeNumberBits node) node HR) as [n' En].
    unfold writeNodeId. cbn. rewrite En. by eexists.
  - by eexists.
  - by eexists.
  - destruct (writeDirectionReg_ok node k value HR) as [n' En]; [lia | done |].
    replace (DIMENSION_DIRECTION_0 + k - DIMENSION_DIRECTION_0) with k by lia. rewrite En.
    destruct Hk as [-> | ->]; by eexists.
  - rewrite slink_range by done. replace (SLINK_0 + k - SLINK_0) with k by lia.
    array_read (xLinks node) k x Ex; [lia |]. unfold set_xLink.
    array_write (xLinks node) k (writeXLinkDirectionAndNetworkReg node x value) l El; [lia |]. by eexists.
  - rewrite xlink_not_slink, xlink_range by done. replace (XLINK_0 + k - XLINK_0) with k by lia.
    array_read (xLinks node) k x Ex; [lia |]. unfold set_xLink.
    array_write (xLinks node) k (writeXLinkStateReg node x value) l El; [lia |]. by eexists.
Qed.

Lemma read_readable : readable node num = true -> exists v, read net node r num = Some (Some v).
Proof.
  intros [[Ha Hs]%andb_true_iff Hc]%andb_true_iff.
  unfold read. destruct F as [-> _]. rewrite access_bound, access_flag, Ha. cbn [mbind option_bind].
  change ((REG_RW .& REG_READ) =? 0) with false. cbn match.
  destruct (accessible_kind _ _ (rr_bits _ HR) Ha) as [| | |k Hk Hk'|k Hk Hk'|k Hk Hk'].
  - by eexists.
  - done.
  - by eexists.
  - destruct (readDirectionReg_ok node k HR) as [v Ev]; [lia | done |].
    replace (DIMENSION_DIRECTION_0 + k - DIMENSION_DIRECTION_0) with k by lia. rewrite Ev.
    destruct Hk as [-> | ->]; by eexists.
  - by rewrite slink_range in Hs.
  - rewrite xlink_not_slink, xlink_range by done. replace (XLINK_0 + k - XLINK_0) with k by lia.
    cbn [mbind option_bind]. array_read (xLinks node) k x Ex; [lia |].
    destruct (readXLinkStateReg_ok net node x) as [v ->]; [| by eexists].
    exact (array_get_Forall _ _ _ _ HC Ex).
Qed.

Lemma read_stuck : accessible node num = true -> readable node num = false -> read net node r num = None.
Proof.
  intros Ha. unfold readable. rewrite Ha. cbn [andb]. intros Hr.
  unfold read. destruct F as [-> _]. rewrite access_bound, access_flag, Ha. cbn [mbind option_bind].
  change ((REG_RW .& REG_READ) =? 0) with false. cbn match.
  destruct (accessible_kind _ _ (rr_bits _ HR) Ha) as [| | |k Hk Hk'|k Hk Hk'|k Hk Hk'].
  - done.
  - done.
  - done.
  - by destruct Hk as [-> | ->].
  - rewrite slink_range by done. rewrite slink_not_xlink by done. replace (SLINK_0 + k - SLINK_0) with k by lia.
    array_read (xLinks node) k x Ex; [lia |].
    destruct (readXLinkDirectionAndNetworkReg node x); [cbn [mbind option_bind] | done].
    by rewrite slink_not_switch by done.
  - rewrite xlink_not_slink in Hr by done. unfold XLINK_0, CLK_DIVIDER in Hr.
    destruct (Z.eqb_spec (128 + k) 7); [lia | done].
Qed.
End access.

(** Accesses to the control registers of an initialised switch, for every register number
    below the number of registers: a write is refused exactly when the register is not an
    accessible one, and otherwise done without fault; a read likewise, except that reading a
    link's direction register or the clock divider, which are accessible, runs into the
    [assert] at the end of [read].  A number above the number of registers is refused, but the
    number of registers itself passes the bound check and indexes out of bounds. *)
Theorem ctrl_regs_access (net : Net) (node : Node) (junk num value : Z) :
  regs_ready node -> Forall (fun x => is_Some (isConnected net x)) (xLinks node) -> 0 <= num ->
  exists r, initRegisters node (newSSwitchCtrlRegs junk) = Some r /\
  let size := XSTATIC_0 + zlength (xLinks node) in
  (num < size -> accessible node num = false ->
    write node r num value = Some None /\ read net node r num = Some None) /\
  (num < size -> accessible node num = true -> exists nr, write node r num value = Some (Some nr)) /\
  (num < size -> readable node num = true -> exists v, read net node r num = Some (Some v)) /\
  (num < size -> accessible node num = true -> readable node num = false -> read net node r num = None) /\
  (size < num -> write node r num value = Some None /\ read net node r num = Some None) /\
  (num = size -> write node r num value = None /\ read net node r num = None).
Proof.
  intros HR HC Hn. destruct (initRegisters_flagged node junk (rr_bits _ HR)) as (r & E & F). exists r. split; [done |]. cbv zeta.
  split_and!; [intros; apply refuse_inaccessible | intros; by apply write_accessible | intros; by apply read_readable
    | intros; by apply read_stuck | |]; try done.
  all: unfold write, read; destruct F as [L F]; rewrite L.
  - intros Hlt. by rewrite (proj2 (Z.ltb_lt _ _) Hlt).
  - intros ->. rewrite Z.ltb_irrefl. destruct (array_get (regFlags r) _) eqn:Eg; [apply array_get_bound in Eg; lia | done].
Qed.

Lemma ctrl_regs_access_witness : exists r, initRegisters exNode (newSSwitchCtrlRegs 0) = Some r /\
  write exNode r 6 1 = Some None /\ read [exNode] exNode r 0x20 = None /\ write exNode r 161 0 = None.
Proof.
  assert (regs_ready exNode) as HR.
  { split; [cbn; lia | reflexivity | constructor]. }
  assert (Forall (fun x => is_Some (isConnected [exNode] x)) (xLinks exNode)) as HF.
  { constructor; [exists false; reflexivity | constructor]. }
  destruct (ctrl_regs_access [exNode] exNode 0 6 1 HR HF) as (r & E & H6 & _); [lia |].
  destruct (ctrl_regs_access [exNode] exNode 0 0x20 1 HR HF) as (r' & E' & _ & _ & _ & H20 & _); [lia |].
  destruct (ctrl_regs_access [exNode] exNode 0 161 0 HR HF) as (r'' & E'' & _ & _ & _ & _ & _ & H161); [lia |].
  rewrite E in E', E''. injection E' as <-. injection E'' as <-.
  exists r. split; [exact E |]. split; [apply H6; reflexivity |].
  split; [apply H20; reflexivity | apply H161; reflexivity].
Defined.
