(* ===== verification/RunnableQueue.v ===== *)
(** * The scheduler's queue (lib/RunnableQueue.h, lib/RunnableQueue.cpp)

    Runnables waiting for a time are kept in a doubly linked list ordered by that time; the
    links are members of the runnables.  Pointers are keys of a heap; following a null pointer
    is [None].  [queue_repr] relates the heap to the list of waiting runnables. *)

From Stdlib Require Import ZArith Lia Sorting.Sorted.
From stdpp Require Import base list numbers option gmap.
From S2P Require Import Prelude Refs.

#[local] Open Scope Z_scope.
#[local] Set Warnings "-clear-no-such-hyp".

(** lib/Runnable.h:14-23 Runnable *)
Record Runnable := mkRunnable { prev : option RunnableRef; next : option RunnableRef; wakeUpTime : Z }.

Definition set_prev (p : option RunnableRef) (r : Runnable) : Runnable := mkRunnable p (next r) (wakeUpTime r).
Definition set_next (p : option RunnableRef) (r : Runnable) : Runnable := mkRunnable (prev r) p (wakeUpTime r).
Definition set_time (t : Z) (r : Runnable) : Runnable := mkRunnable (prev r) (next r) t.

Abbreviation Heap := (gmap RunnableRef Runnable).

(** Write to a member of the object at [p]. *)
Definition upd (p : RunnableRef) (f : Runnable -> Runnable) (h : Heap) : option Heap :=
  r ← h !! p; Some (<[p := f r]> h).

(** lib/RunnableQueue.h:14-16 RunnableQueue: the queue and the heap it lives in *)
Record RunnableQueue := mkQueue { head : option RunnableRef; heap : Heap }.

(** lib/RunnableQueue.h:20-23 contains *)
Definition contains (q : RunnableQueue) (t : RunnableRef) : option bool :=
  r ← heap q !! t;
  Some (negb (bool_decide (prev r = None)) || bool_decide (head q = Some t)).

(** lib/RunnableQueue.h:30-33 empty *)
Definition empty (q : RunnableQueue) : bool := bool_decide (head q = None).

(** lib/RunnableQueue.h:25-28 front *)
Definition front (q : RunnableQueue) : option RunnableRef := head q.

(** lib/RunnableQueue.h:35-46 remove *)
Definition remove (q : RunnableQueue) (t : RunnableRef) : option RunnableQueue :=
  c ← contains q t; _ ← assert c;
  r ← heap q !! t;
  q ← (if bool_decide (head q = Some t) then Some (mkQueue (next r) (heap q))
       else p ← prev r; h ← upd p (set_next (next r)) (heap q); Some (mkQueue (head q) h));
  h ← match next r with
      | Some n => upd n (set_prev (prev r)) (heap q)
      | None => Some (heap q)
      end;
  h ← upd t (set_prev None) h;
  Some (mkQueue (head q) h).

(** lib/RunnableQueue.cpp:25-27 RunnableQueue::push: the walk to the place of the new element *)
Fixpoint push_walk (fuel : nat) (h : Heap) (time : Z) (p : RunnableRef) : option RunnableRef :=
  match fuel with
  | O => None
  | S fuel =>
      r ← h !! p;
      match next r with
      | None => Some p
      | Some n => rn ← h !! n; if wakeUpTime rn <=? time then push_walk fuel h time n else Some p
      end
  end.

(** lib/RunnableQueue.cpp:10-33 RunnableQueue::push *)
Definition push (q : RunnableQueue) (t : RunnableRef) (time : Z) : option RunnableQueue :=
  c ← contains q t;
  q ← (if c : bool then remove q t else Some q);
  h ← upd t (set_time time) (heap q);
  match head q with
  | None => h ← upd t (set_next None) h; Some (mkQueue (Some t) h)
  | Some hd =>
      rh ← h !! hd;
      if time <? wakeUpTime rh then
        h ← upd hd (set_prev (Some t)) h;
        h ← upd t (set_next (Some hd)) h;
        Some (mkQueue (Some t) h)
      else
        p ← push_walk (size h) h time hd;
        rp ← h !! p;
        h ← upd t (set_prev (Some p)) h;
        h ← upd t (set_next (next rp)) h;
        h ← match next rp with Some n => upd n (set_prev (Some t)) h | None => Some h end;
        h ← upd p (set_next (Some t)) h;
        Some (mkQueue (head q) h)
  end.

(** lib/RunnableQueue.h:51-58 pop *)
Definition pop (q : RunnableQueue) : option RunnableQueue :=
  _ ← assert (negb (empty q));
  hd ← head q;
  r ← heap q !! hd;
  h ← match next r with Some n => upd n (set_prev None) (heap q) | None => Some (heap q) end;
  Some (mkQueue (next r) h).

(** ** Doubly linked lists *)

(** [l] is linked in [h]: its first element points back to [p], its last one on to [q]. *)
Fixpoint chain (h : Heap) (p : option RunnableRef) (l : list RunnableRef) (q : option RunnableRef) : Prop :=
  match l with
  | [] => True
  | x :: l' =>
      (exists r, h !! x = Some r /\ prev r = p /\ next r = default q (Some <$> list.head l')) /\
      chain h (Some x) l' q
  end.

(** The waiting runnables are [l]; every other runnable has a null [prev]. *)
Record queue_repr (q : RunnableQueue) (l : list RunnableRef) : Prop := {
  qr_head : head q = list.head l;
  qr_nodup : NoDup l;
  qr_chain : chain (heap q) None l None;
  qr_out : forall x r, heap q !! x = Some r -> x ∉ l -> prev r = None
}.

Lemma upd_Some p f h r : h !! p = Some r -> upd p f h = Some (<[p := f r]> h).
Proof. unfold upd. by intros ->. Qed.

Lemma upd_dom p f h h' : upd p f h = Some h' -> dom h' = dom h.
Proof.
  unfold upd. destruct (h !! p) as [r|] eqn:E; cbn; [| done]. intros [= <-].
  apply dom_insert_lookup_L. by eexists.
Qed.

(** Membership in concrete lists. *)
Ltac list_in :=
  unfold subseteq, list_subseteq in *;
  repeat (setoid_rewrite elem_of_app || setoid_rewrite elem_of_cons || setoid_rewrite elem_of_nil);
  rewrite ?elem_of_app, ?elem_of_cons in *; naive_solver.

Section chains.
Implicit Types (h : Heap) (l : list RunnableRef).

(** Links depend on the linked objects only. *)
Lemma chain_ext h h' p l q : (forall x, x ∈ l -> h' !! x = h !! x) -> chain h p l q -> chain h' p l q.
Proof.
  revert p. induction l as [|y l IH]; intros p Hx; cbn; [done |].
  intros [(ry & Ey & H) Hc]. split; [exists ry; by rewrite Hx by apply list_elem_of_here |].
  apply IH; [| done]. intros x Hxl. apply Hx. by apply list_elem_of_further.
Qed.

Lemma chain_frame h p l q x r : x ∉ l -> chain h p l q -> chain (<[x := r]> h) p l q.
Proof. intros Hx. apply chain_ext. intros y Hy. rewrite lookup_insert_ne; [done | congruence]. Qed.

(** A change to a time is not seen by the links. *)
Lemma chain_set_time h p l q x t r : h !! x = Some r -> chain h p l q ->
  chain (<[x := set_time t r]> h) p l q.
Proof.
  intros Hx. revert p. induction l as [|y l IH]; intros p; cbn; [done |]. intros [(ry & Ey & Hp & Hn) Hc].
  split; [| by apply IH]. destruct (decide (x = y)) as [->|].
  - exists (set_time t r). rewrite lookup_insert_eq. by simplify_eq.
  - exists ry. by rewrite lookup_insert_ne.
Qed.

Lemma chain_app h p l1 l2 q : chain h p (l1 ++ l2) q <->
  chain h p l1 (default q (Some <$> list.head l2)) /\ chain h (default p (Some <$> list.last l1)) l2 q.
Proof.
  revert p. induction l1 as [|x l1 IH]; intros p; [cbn; tauto |].
  cbn [chain app]. rewrite IH, list.last_cons.
  assert (list.head (l1 ++ l2) = match l1 with [] => list.head l2 | y :: _ => Some y end) as ->
    by (by destruct l1).
  destruct l1 as [|y l1]; cbn; [tauto |].
  replace (default (Some x) (Some <$> list.last (y :: l1))) with (default p (Some <$> match list.last (y :: l1) with Some z => Some z | None => Some x end)).
  - tauto.
  - by destruct (list.last (y :: l1)) eqn:E; [| apply list.last_None in E].
Qed.

(** Changing where a list points on to, or back to. *)
Lemma chain_set_last h p l x q q' r : x ∉ l -> chain h p (l ++ [x]) q -> h !! x = Some r ->
  chain (<[x := set_next q' r]> h) p (l ++ [x]) q'.
Proof.
  intros Hx. rewrite !chain_app. cbn. intros [H1 [(r' & E & Hp & Hn) _]] Hr. simplify_eq.
  split; [by apply chain_frame |]. split; [| done].
  exists (set_next q' r'). by rewrite lookup_insert_eq.
Qed.

Lemma chain_set_first h p p' l x q r : x ∉ l -> chain h p (x :: l) q -> h !! x = Some r ->
  chain (<[x := set_prev p' r]> h) p' (x :: l) q.
Proof.
  intros Hx. cbn. intros [(r' & E & Hp & Hn) Hc] Hr. simplify_eq. split; [| by apply chain_frame].
  exists (set_prev p' r'). by rewrite lookup_insert_eq.
Qed.

Lemma chain_lookup h p l q x : chain h p l q -> x ∈ l -> is_Some (h !! x).
Proof.
  revert p. induction l as [|y l IH]; intros p; cbn; [by intros _ ?%not_elem_of_nil |].
  intros [(r & E & _) Hc] [->|Hx]%elem_of_cons; [by rewrite E | by eapply IH].
Qed.

(** [h'] differs from [h] only in the objects [l], and not in their times. *)
Definition relinked l h h' : Prop :=
  (forall x, x ∉ l -> h' !! x = h !! x) /\
  forall x, wakeUpTime <$> h' !! x = wakeUpTime <$> h !! x.

Lemma relinked_refl l h : relinked l h h.
Proof. done. Qed.
Lemma relinked_trans l h1 h2 h3 : relinked l h1 h2 -> relinked l h2 h3 -> relinked l h1 h3.
Proof. intros [A B] [C D]. split; intros x; [intros Hx; by rewrite C, A | by rewrite D, B]. Qed.
Lemma relinked_sub l l' h h' : l ⊆ l' -> relinked l h h' -> relinked l' h h'.
Proof. intros Hs [A B]. split; [| done]. intros x Hx. apply A. intros ?. by apply Hx, Hs. Qed.
Lemma relinked_upd x f h r : h !! x = Some r -> wakeUpTime (f r) = wakeUpTime r ->
  relinked [x] h (<[x := f r]> h).
Proof.
  intros Hr Hf. split; intros y.
  - intros Hy%not_elem_of_cons. by rewrite lookup_insert_ne by naive_solver.
  - destruct (decide (x = y)) as [->|]; [rewrite lookup_insert_eq, Hr; cbn; congruence | by rewrite lookup_insert_ne].
Qed.

(** Redirect the end of a list. *)
Lemma relink_next h p l q v : NoDup l -> chain h p l q ->
  exists h', match list.last l with Some x => upd x (set_next v) h | None => Some h end = Some h' /\
  chain h' p l v /\ relinked l h h'.
Proof.
  intros HN Hc. destruct l as [|x l _] using rev_ind; [exists h; cbn; split_and!; [done | done | apply relinked_refl] |].
  rewrite list.last_snoc. apply NoDup_app in HN as (_ & Hx & _).
  destruct (chain_lookup _ _ _ _ x Hc) as [r Hr]; [list_in |]. rewrite (upd_Some _ _ _ _ Hr).
  eexists. split; [done |]. split.
  - eapply chain_set_last; [| done | done]. intros H. apply (Hx x H). list_in.
  - eapply relinked_sub; [| by apply relinked_upd]. list_in.
Qed.

(** Redirect the start of a list. *)
Lemma relink_prev h p l q v : NoDup l -> chain h p l q ->
  exists h', match list.head l with Some x => upd x (set_prev v) h | None => Some h end = Some h' /\
  chain h' v l q /\ relinked l h h'.
Proof.
  intros HN Hc. destruct l as [|x l]; [exists h; cbn; split_and!; [done | done | apply relinked_refl] |].
  cbn [list.head]. apply NoDup_cons in HN as [Hx _].
  destruct (chain_lookup _ _ _ _ x Hc) as [r Hr]; [list_in |]. rewrite (upd_Some _ _ _ _ Hr).
  eexists. split; [done |]. split; [by eapply chain_set_first |].
  eapply relinked_sub; [| by apply relinked_upd]. list_in.
Qed.
End chains.

(** ** The operations on the represented list *)

Lemma contains_repr q l t : queue_repr q l -> is_Some (heap q !! t) ->
  contains q t = Some (bool_decide (t ∈ l)).
Proof.
  intros [Hh HN Hc Ho] [r Hr]. unfold contains. rewrite Hr. cbn. f_equal.
  destruct (decide (t ∈ l)) as [Hin|Hout].
  - rewrite (bool_decide_eq_true_2 (t ∈ l)) by done. apply list_elem_of_split in Hin as (l1 & l2 & ->).
    rewrite chain_app in Hc. destruct Hc as [_ [(r' & Hr' & Hp & _) _]]. simplify_eq.
    destruct l1 as [|x l1 _] using rev_ind.
    + rewrite (bool_decide_eq_true_2 (head q = Some t)) by done. apply orb_true_r.
    + rewrite list.last_snoc in Hp. cbn in Hp. rewrite Hp. done.
  - rewrite (bool_decide_eq_false_2 (t ∈ l)) by done. rewrite (Ho t r Hr Hout). cbn.
    apply bool_decide_eq_false_2. rewrite Hh. intros E. apply Hout. destruct l; [done | cbn in E; list_in].
Qed.

(** Taking the element before [t] out of the way: the head of the queue or a link. *)
Lemma unlink_before q l1 t l2 : head q = list.head (l1 ++ t :: l2) -> t ∉ l1 -> NoDup l1 -> chain (heap q) None l1 (Some t) ->
  exists h1, (if bool_decide (head q = Some t) then Some (mkQueue (list.head l2) (heap q))
    else p ← list.last l1; h ← upd p (set_next (list.head l2)) (heap q); Some (mkQueue (head q) h)) =
    Some (mkQueue (list.head (l1 ++ l2)) h1) /\ chain h1 None l1 (list.head l2) /\ relinked l1 (heap q) h1.
Proof.
  intros Hh Ht1 HN1 Hc1.
  destruct (relink_next (heap q) None l1 (Some t) (list.head l2) HN1 Hc1) as (h1 & E1 & C1 & R1). exists h1. split; [| done].
  rewrite Hh. destruct l1 as [|x l1 _] using rev_ind.
  - cbn in *. rewrite bool_decide_eq_true_2 by done. by injection E1 as <-.
  - rewrite list.last_snoc in *. rewrite bool_decide_eq_false_2; last first.
    { intros E. apply Ht1. destruct l1; cbn in *; list_in. }
    cbn [mbind option_bind]. rewrite E1. cbn. do 2 f_equal. by destruct l1.
Qed.

Lemma remove_repr q l1 t l2 : queue_repr q (l1 ++ t :: l2) ->
  exists q', remove q t = Some q' /\ queue_repr q' (l1 ++ l2) /\ relinked (l1 ++ t :: l2) (heap q) (heap q').
Proof.
  intros R. pose proof R as [Hh HN Hc Ho].
  assert (is_Some (heap q !! t)) as Hs by (eapply chain_lookup; [done | list_in]).
  unfold remove. rewrite (contains_repr _ _ _ R Hs). rewrite (bool_decide_eq_true_2 (t ∈ _)) by list_in.
  cbn [mbind option_bind assert].
  apply NoDup_app in HN as (HN1 & Hd & HN2). apply NoDup_cons in HN2 as [Ht2 HN2].
  assert (t ∉ l1) as Ht1 by (intros H; apply (Hd t H); list_in).
  apply chain_app in Hc as [Hc1 Hc2]. cbn [chain] in Hc2.
  destruct Hc2 as [(r & Hr & Hp & Hn) Hc2]. rewrite Hr. cbn [mbind option_bind].
  assert (prev r = list.last l1) as Hp' by (rewrite Hp; by destruct (list.last l1)).
  assert (next r = list.head l2) as Hn' by (rewrite Hn; by destruct l2).
  rewrite Hp', Hn' in *. clear Hp Hn.
  destruct (unlink_before q l1 t l2 Hh Ht1 HN1 Hc1) as (h1 & -> & C1 & R1).
  cbn [mbind option_bind heap head].
  (* the element after *)
  assert (forall x, x ∈ t :: l2 -> x ∉ l1) as Hdis by (intros x ? ?; by eapply Hd).
  assert (chain h1 (Some t) l2 None) as Hc2'.
  { eapply chain_ext; [| exact Hc2]. intros x Hx. apply R1, Hdis. by right. }
  destruct (relink_prev h1 (Some t) l2 None (list.last l1) HN2 Hc2') as (h2 & E2 & C2 & R2).
  assert (match list.head l2 with Some n => upd n (set_prev (list.last l1)) h1 | None => Some h1 end = Some h2) as -> by done.
  cbn [mbind option_bind].
  assert (h2 !! t = Some r) as Hr2.
  { rewrite (proj1 R2), (proj1 R1) by (done || (apply Hdis; by left)). done. }
  rewrite (upd_Some _ _ _ _ Hr2). cbn [mbind option_bind]. eexists. split; [done |]. cbn [heap].
  assert (relinked (l1 ++ t :: l2) (heap q) (<[t := set_prev None r]> h2)) as RR.
  { eapply relinked_trans; [eapply relinked_sub; [| exact R1]; list_in |].
    eapply relinked_trans; [eapply relinked_sub; [| exact R2]; list_in |].
    eapply relinked_sub; [| by apply relinked_upd]. list_in. }
  split; [| done]. split; cbn [head heap].
  - done.
  - apply NoDup_app. split_and!; [done | | done]. intros x Hx Hx2. apply (Hd x Hx). by right.
  - apply chain_frame; [list_in |]. apply chain_app. split.
    + replace (default None (Some <$> list.head l2)) with (list.head l2) by (by destruct l2).
      eapply chain_ext; [| exact C1]. intros x Hx. apply R2. intros H. by apply (Hdis x); [right |].
    + by replace (default None (Some <$> list.last l1)) with (list.last l1) by (by destruct (list.last l1)).
  - intros x rx Hx Hout. destruct (decide (x = t)) as [->|Hne].
    + rewrite lookup_insert_eq in Hx. by injection Hx as <-.
    + rewrite (proj1 RR) in Hx by list_in. eapply Ho; [done | list_in].
Qed.

Lemma pop_repr q t l : queue_repr q (t :: l) ->
  exists q', pop q = Some q' /\ queue_repr q' l /\ relinked l (heap q) (heap q').
Proof.
  intros [Hh HN Hc Ho]. unfold pop, empty. cbn [list.head] in Hh. rewrite Hh. cbn [bool_decide negb assert mbind option_bind].
  cbn [chain] in Hc. destruct Hc as [(r & Hr & Hp & Hn) Hc]. rewrite bool_decide_eq_false_2 by done. cbn [negb assert mbind option_bind].
  rewrite Hr. cbn [mbind option_bind].
  assert (next r = list.head l) as -> by (rewrite Hn; by destruct l).
  apply NoDup_cons in HN as [Ht HN].
  destruct (relink_prev (heap q) (Some t) l None None HN Hc) as (h1 & E1 & C1 & R1).
  assert (match list.head l with Some n => upd n (set_prev None) (heap q) | None => Some (heap q) end = Some h1) as -> by done.
  cbn [mbind option_bind]. eexists. split; [done |]. split; [| done]. split; cbn [head heap]; try done.
  intros x rx Hx Hout. rewrite (proj1 R1) in Hx by done.
  destruct (decide (x = t)) as [->|]; [congruence |]. eapply Ho; [done | list_in].
Qed.


(** The time a runnable waits for. *)
Definition time_of (h : Heap) (x : RunnableRef) : Z := default 0 (wakeUpTime <$> h !! x).

(** Insertion behind every element whose time is not later: the order of arrival decides
    between equal times. *)
Fixpoint insert_by (tm : RunnableRef -> Z) (time : Z) (t : RunnableRef) (l : list RunnableRef) : list RunnableRef :=
  match l with
  | [] => [t]
  | x :: l' => if time <? tm x then t :: l else x :: insert_by tm time t l'
  end.

Lemma insert_by_ext tm tm' time t l : (forall x, x ∈ l -> tm x = tm' x) ->
  insert_by tm time t l = insert_by tm' time t l.
Proof.
  induction l as [|x l IH]; intros H; cbn; [done |].
  rewrite (H x) by apply list_elem_of_here. rewrite IH; [done |]. intros y Hy. apply H. by apply list_elem_of_further.
Qed.

Lemma time_of_lookup h x r : h !! x = Some r -> time_of h x = wakeUpTime r.
Proof. unfold time_of. by intros ->. Qed.

Lemma relinked_time l h h' x : relinked l h h' -> time_of h' x = time_of h x.
Proof. intros [_ H]. unfold time_of. by rewrite H. Qed.

Lemma push_walk_spec t fuel h p x l time : chain h p (x :: l) None -> (length l < fuel)%nat ->
  exists m1 y m2, x :: l = m1 ++ y :: m2 /\ push_walk fuel h time x = Some y /\
  x :: insert_by (time_of h) time t l = m1 ++ y :: t :: m2.
Proof.
  revert p x fuel. induction l as [|z l IH]; intros p x fuel [(r & Hr & _ & Hn) Hc] Hf;
    (destruct fuel as [|fuel]; [lia |]); cbn [push_walk]; rewrite Hr; cbn [mbind option_bind];
    cbn in Hn; rewrite Hn.
  - by exists [], x, [].
  - pose proof Hc as [(rz & Hz & _) _]. rewrite Hz. cbn [mbind option_bind insert_by].
    rewrite (time_of_lookup _ _ _ Hz). rewrite Z.leb_antisym. destruct (Z.ltb_spec time (wakeUpTime rz)); cbn [negb].
    + by exists [], x, (z :: l).
    + destruct (IH (Some x) z fuel Hc) as (m1 & y & m2 & E & Hw & Ei); [cbn in Hf; lia |].
      exists (x :: m1), y, m2. cbn. rewrite <- E, <- Ei. done.
Qed.

Lemma chain_length h p l q : NoDup l -> chain h p l q -> (length l <= size h)%nat.
Proof.
  intros HN Hc. rewrite <- (size_list_to_set (C := gset RunnableRef) l HN), <- (size_dom h).
  apply subseteq_size. intros x Hx%elem_of_list_to_set. apply elem_of_dom. by eapply chain_lookup.
Qed.

(** Linking an element that is not in the queue between two parts of it. *)
Lemma insert_between h m1 y t m2 r : NoDup (m1 ++ y :: m2) -> t ∉ m1 ++ y :: m2 ->
  chain h None (m1 ++ y :: m2) None -> h !! t = Some r ->
  exists h', (h ← upd t (set_prev (Some y)) h; h ← upd t (set_next (list.head m2)) h;
    h ← match list.head m2 with Some n => upd n (set_prev (Some t)) h | None => Some h end;
    upd y (set_next (Some t)) h) = Some h' /\
  chain h' None (m1 ++ y :: t :: m2) None /\ relinked (m1 ++ y :: t :: m2) h h'.
Proof.
  intros HN Ht Hc Hr. rewrite (upd_Some _ _ _ _ Hr). cbn [mbind option_bind].
  rewrite (upd_Some t _ _ (set_prev (Some y) r)) by apply lookup_insert_eq. cbn [mbind option_bind].
  rewrite insert_insert_eq. set (rt := set_next _ _).
  replace (m1 ++ y :: m2) with ((m1 ++ [y]) ++ m2) in * by (by rewrite <- app_assoc).
  replace (m1 ++ y :: t :: m2) with ((m1 ++ [y]) ++ t :: m2) by (by rewrite <- app_assoc).
  rewrite elem_of_app in Ht. apply NoDup_app in HN as (HN1 & Hd & HN2).
  apply (chain_frame _ _ _ _ t rt) in Hc; [| rewrite elem_of_app; tauto].
  apply chain_app in Hc as [Hc1 Hc2]. rewrite list.last_snoc in Hc2. cbn in Hc2.
  set (h0 := <[t := rt]> h) in *.
  destruct (relink_prev h0 (Some y) m2 None (Some t) HN2 Hc2) as (h1 & E1 & C1 & R1).
  assert (match list.head m2 with Some n => upd n (set_prev (Some t)) h0 | None => Some h0 end = Some h1) as -> by done.
  cbn [mbind option_bind].
  assert (chain h1 None (m1 ++ [y]) (default None (Some <$> list.head m2))) as Hc1'.
  { eapply chain_ext; [| exact Hc1]. intros x Hx. apply R1. by apply Hd. }
  destruct (relink_next h1 None (m1 ++ [y]) _ (Some t) HN1 Hc1') as (h2 & E2 & C2 & R2).
  rewrite list.last_snoc in E2. exists h2. split; [done |].
  assert (relinked [t] h h0) as R0.
  { apply (relinked_upd t (fun _ => rt) h r Hr). done. }
  split.
  - apply chain_app. split; [done |]. rewrite list.last_snoc. cbn [chain default fmap option_fmap option_map].
    split.
    + exists rt. rewrite (proj1 R2), (proj1 R1) by tauto. split; [apply lookup_insert_eq |].
      split; [done |]. cbn. by destruct m2.
    + eapply chain_ext; [| exact C1]. intros x Hx. apply R2. intros H. by apply (Hd x H).
  - eapply relinked_trans; [eapply relinked_sub; [| exact R0]; list_in |].
    eapply relinked_trans; [eapply relinked_sub; [| exact R1]; list_in |].
    eapply relinked_sub; [| exact R2]; list_in.
Qed.

Lemma filter_ne_id (t : RunnableRef) (l : list RunnableRef) : t ∉ l -> filter (.≠ t) l = l.
Proof.
  induction l as [|x l IH]; intros Hl; [done |]. apply not_elem_of_cons in Hl as [? ?].
  rewrite filter_cons_True by congruence. by rewrite IH.
Qed.

(** Removing an element that may be in the queue. *)
Lemma remove_if_repr q l t : queue_repr q l -> is_Some (heap q !! t) ->
  exists q', (c ← contains q t; if c : bool then remove q t else Some q) = Some q' /\
  queue_repr q' (filter (.≠ t) l) /\ relinked l (heap q) (heap q').
Proof.
  intros R Hs. rewrite (contains_repr _ _ _ R Hs). cbn [mbind option_bind].
  destruct (decide (t ∈ l)) as [Hin|Hout].
  - rewrite bool_decide_eq_true_2 by done. pose proof (qr_nodup _ _ R) as HN.
    apply list_elem_of_split in Hin as (l1 & l2 & ->).
    destruct (remove_repr q l1 t l2 R) as (q' & E & R' & RR). exists q'. split; [done |]. split; [| done].
    apply NoDup_app in HN as (_ & Hd & [Ht2 _]%NoDup_cons).
    assert (t ∉ l1) as Ht1 by (intros H; apply (Hd t H); list_in).
    rewrite filter_app, filter_cons_False by naive_solver. by rewrite !filter_ne_id.
  - rewrite bool_decide_eq_false_2 by done. exists q. split; [done |]. split; [| apply relinked_refl].
    by rewrite filter_ne_id.
Qed.

Lemma NoDup_insert_between (m1 m2 : list RunnableRef) y t : NoDup (m1 ++ y :: m2) -> t ∉ m1 ++ y :: m2 ->
  NoDup (m1 ++ y :: t :: m2).
Proof.
  intros HN Ht. apply (NoDup_Permutation_proper _ (t :: m1 ++ y :: m2)); [| by apply NoDup_cons].
  change (m1 ++ y :: t :: m2) with (m1 ++ [y] ++ t :: m2). change (m1 ++ y :: m2) with (m1 ++ [y] ++ m2).
  rewrite !app_assoc. symmetry. apply Permutation_middle.
Qed.

(** Linking the element [t], whose time is set already, into the list [l]. *)
Section linking.
Context (h : Heap) (t : RunnableRef) (rt : Runnable) (l : list RunnableRef).
Context (HN : NoDup l) (Ht : t ∉ l) (Hc : chain h None l None) (Hrt : h !! t = Some rt).
Context (Hout : forall x rx, h !! x = Some rx -> x ∉ t :: l -> prev rx = None) (Hpr : prev rt = None).

Lemma outside_linked h' l' : relinked l' h h' -> l' ⊆ t :: l -> forall x rx, h' !! x = Some rx -> x ∉ t :: l -> prev rx = None.
Proof. intros RR Hsub x rx Hx Hn. rewrite (proj1 RR) in Hx by (intros Hl; by apply Hn, Hsub). by eapply Hout. Qed.

Lemma link_front :
  exists h', (h ← match list.head l with Some x => upd x (set_prev (Some t)) h | None => Some h end;
    upd t (set_next (list.head l)) h) = Some h' /\ queue_repr (mkQueue (Some t) h') (t :: l) /\ relinked (t :: l) h h'.
Proof.
  destruct (relink_prev h None l None (Some t) HN Hc) as (h2 & E2 & C2 & RR2). rewrite E2. cbn [mbind option_bind].
  assert (h2 !! t = Some rt) as Hr2 by (rewrite (proj1 RR2); done). rewrite (upd_Some _ _ _ _ Hr2). eexists. split; [done |].
  pose proof (relinked_upd t (set_next (list.head l)) h2 _ Hr2 eq_refl) as RR3.
  assert (relinked (t :: l) h (<[t := set_next (list.head l) rt]> h2)) as RR.
  { eapply relinked_trans; [eapply relinked_sub; [| exact RR2] | eapply relinked_sub; [| exact RR3]]; list_in. }
  split; [| done]. split; cbn [head heap]; [done | by apply NoDup_cons | | by apply (outside_linked _ _ RR)].
  split; [| by apply chain_frame]. eexists. rewrite lookup_insert_eq. split; [done |]. split; [done |]. cbn. by destruct l.
Qed.

Lemma link_after m1 y m2 : l = m1 ++ y :: m2 ->
  exists h', (h ← upd t (set_prev (Some y)) h; h ← upd t (set_next (list.head m2)) h;
    h ← match list.head m2 with Some n => upd n (set_prev (Some t)) h | None => Some h end;
    upd y (set_next (Some t)) h) = Some h' /\ queue_repr (mkQueue (list.head l) h') (m1 ++ y :: t :: m2) /\ relinked (t :: l) h h'.
Proof.
  intros El. destruct (insert_between h m1 y t m2 rt) as (h' & E & C & RR); [by rewrite <- ?El.. |]. exists h'. split; [done |].
  assert (relinked (t :: l) h h') as RR' by (eapply relinked_sub; [| exact RR]; rewrite El; list_in).
  split; [| done]. split; cbn [head heap].
  - rewrite El. by destruct m1.
  - apply NoDup_insert_between; by rewrite <- El.
  - done.
  - intros x rx Hx Hn. apply (outside_linked _ _ RR' ltac:(done) x rx Hx). rewrite El. list_in.
Qed.
End linking.

(** The state in which [push] links the element. *)
Lemma push_start q l t time : queue_repr q l -> is_Some (heap q !! t) ->
  exists q1 r, (c ← contains q t; if c : bool then remove q t else Some q) = Some q1 /\ queue_repr q1 (filter (.≠ t) l) /\
    heap q1 !! t = Some r /\ prev r = None /\
    forall x, time_of (<[t := set_time time r]> (heap q1)) x = if decide (x = t) then time else time_of (heap q) x.
Proof.
  intros R0 Hs. destruct (remove_if_repr q l t R0 Hs) as (q1 & E1 & R1 & RR1).
  assert (exists r, heap q1 !! t = Some r) as [r Hr].
  { destruct Hs as [r0 Hr0]. pose proof (proj2 RR1 t) as H. rewrite Hr0 in H. destruct (heap q1 !! t); [by eexists | done]. }
  exists q1, r. split; [done |]. split; [done |]. split; [done |]. split.
  - eapply (qr_out _ _ R1); [done |]. by intros [? _]%list_elem_of_filter.
  - intros x. destruct (decide (x = t)) as [->|]; [by rewrite (time_of_lookup _ _ _ (lookup_insert_eq _ _ _)) |].
    rewrite <- (relinked_time _ _ _ x RR1). unfold time_of. by rewrite lookup_insert_ne.
Qed.

Lemma push_repr q l t time : queue_repr q l -> is_Some (heap q !! t) ->
  exists q', push q t time = Some q' /\
  queue_repr q' (insert_by (time_of (heap q)) time t (filter (.≠ t) l)) /\
  forall x, time_of (heap q') x = if decide (x = t) then time else time_of (heap q) x.
Proof.
  intros R0 Hs. unfold push. destruct (push_start q l t time R0 Hs) as (q1 & r & E1 & [Hh HN Hc Ho] & Hr & Hpr & Htm).
  destruct (contains q t) as [c|]; [cbn [mbind option_bind] in * | done]. rewrite E1. cbn [mbind option_bind].
  set (l0 := filter (.≠ t) l) in *. assert (t ∉ l0) as Ht by (unfold l0; by intros [? _]%list_elem_of_filter).
  rewrite (upd_Some _ _ _ _ Hr). cbn [mbind option_bind]. set (h := <[t := set_time time r]> (heap q1)) in *.
  assert (chain h None l0 None) as Hc' by (by apply chain_frame).
  assert (h !! t = Some (set_time time r)) as Hrt by apply lookup_insert_eq.
  assert (forall x rx, h !! x = Some rx -> x ∉ t :: l0 -> prev rx = None) as Hout.
  { intros x rx Hx [Hn1 Hn2]%not_elem_of_cons. unfold h in Hx. rewrite lookup_insert_ne in Hx by done. by eapply Ho. }
  assert (forall x, x ∈ l0 -> time_of h x = time_of (heap q) x) as Htx by (intros x Hx; rewrite Htm, decide_False; [done | by intros ->]).
  destruct (link_front h t _ l0 HN Ht Hc' Hrt Hout Hpr) as (hf & Ef & Rf & RRf).
  rewrite Hh. destruct l0 as [|x l0'] eqn:El0; cbn [list.head] in *.
  - cbn [mbind option_bind] in Ef. rewrite Ef. eexists. split; [done |]. split; [done |]. intros y. cbn [heap]. by rewrite (relinked_time _ _ _ y RRf), Htm.
  - destruct (chain_lookup _ _ _ _ x Hc') as [rx Hrx]; [apply list_elem_of_here |]. rewrite Hrx. cbn [mbind option_bind insert_by].
    rewrite <- (Htx x (list_elem_of_here _ _)), (time_of_lookup _ _ _ Hrx). destruct (Z.ltb_spec time (wakeUpTime rx)).
    + destruct (upd x (set_prev (Some t)) h) as [h1|]; [cbn [mbind option_bind] in * | done]. rewrite Ef. eexists. split; [done |].
      split; [done |]. intros y. cbn [heap]. by rewrite (relinked_time _ _ _ y RRf), Htm.
    + destruct (push_walk_spec t (size h) h None x l0' time Hc') as (m1 & y & m2 & El & Ew & Ei).
      { pose proof (chain_length h None (x :: l0') None HN Hc') as HL. cbn in HL. lia. }
      rewrite Ew. cbn [mbind option_bind]. rewrite <- (insert_by_ext (time_of h)) by (intros z Hz; apply Htx; by right). rewrite Ei.
      destruct (link_after h t _ _ HN Ht Hc' Hrt Hout m1 y m2 El) as (h' & E & R & RR).
      rewrite El in Hc'. pose proof Hc' as [_ [(ry & Hry & _ & Hnx) _]]%chain_app. rewrite Hry. cbn [mbind option_bind].
      assert (next ry = list.head m2) as -> by (rewrite Hnx; by destruct m2).
      exists (mkQueue (Some x) h'). split; [| split; [done |]]; [| intros z; cbn [heap]; by rewrite (relinked_time _ _ _ z RR), Htm].
      by repeat (match type of E with (?m ≫= _) = _ => destruct m; [cbn [mbind option_bind] in * | done] end); rewrite E.
Qed.

(** ** The order of the queue *)

(** Earlier runnables first. *)
Abbreviation in_order tm := (StronglySorted (fun x y : RunnableRef => tm x <= tm y)).

Lemma insert_by_split (tm : RunnableRef -> Z) time t l : in_order tm l ->
  exists l1 l2, l = l1 ++ l2 /\ insert_by tm time t l = l1 ++ t :: l2 /\
  Forall (fun x => tm x <= time) l1 /\ Forall (fun x => time < tm x) l2.
Proof.
  induction 1 as [|x l HS (l1 & l2 & -> & E & H1 & H2) HF]; [by exists [], [] |]. cbn.
  destruct (Z.ltb_spec time (tm x)).
  - exists [], (x :: l1 ++ l2). split_and!; try done. constructor; [done |].
    eapply Forall_impl; [exact HF |]. cbn. lia.
  - exists (x :: l1), l2. rewrite E. split_and!; try done. by constructor.
Qed.

Lemma in_order_app (tm : RunnableRef -> Z) l1 l2 : in_order tm (l1 ++ l2) <->
  in_order tm l1 /\ in_order tm l2 /\ Forall (fun x => Forall (fun y => tm x <= tm y) l2) l1.
Proof.
  induction l1 as [|x l1 IH]; cbn.
  - split; [intros H; split_and!; [constructor | done | constructor] | tauto].
  - split.
    + inversion_clear 1 as [|? ? H1 H2]. apply IH in H1 as (A & B & C). apply Forall_app in H2 as [D E].
      split_and!; [by constructor | done | by constructor].
    + intros (A & B & C). inversion_clear A as [|? ? A1 A2]. inversion_clear C as [|? ? C1 C2].
      constructor; [apply IH; tauto | by apply Forall_app].
Qed.

Lemma in_order_ext (tm tm' : RunnableRef -> Z) l : (forall x, x ∈ l -> tm x = tm' x) -> in_order tm l -> in_order tm' l.
Proof.
  intros He. induction 1 as [|x l HS IH HF]; constructor.
  - apply IH. intros y Hy. apply He. by apply list_elem_of_further.
  - apply Forall_forall. intros y Hy. rewrite Forall_forall in HF. rewrite <- !He;
      [by apply HF | by apply list_elem_of_further | apply list_elem_of_here].
Qed.

Lemma in_order_filter (tm : RunnableRef -> Z) (P : RunnableRef -> Prop) `{forall x, Decision (P x)} l :
  in_order tm l -> in_order tm (filter P l).
Proof.
  induction 1 as [|x l HS IH HF]; [constructor |].
  destruct (decide (P x)); [rewrite filter_cons_True | rewrite filter_cons_False]; try done.
  constructor; [done |]. apply Forall_forall. intros y [_ Hy]%list_elem_of_filter.
  rewrite Forall_forall in HF. by apply HF.
Qed.

Lemma insert_by_in_order tm time t l : in_order tm l -> t ∉ l -> tm t = time ->
  in_order tm (insert_by tm time t l).
Proof.
  intros HS Ht Htm. destruct (insert_by_split tm time t l HS) as (l1 & l2 & -> & -> & H1 & H2).
  apply in_order_app in HS as (A & B & C). apply in_order_app. split_and!; [done | |].
  - constructor; [done |]. eapply Forall_impl; [exact H2 |]. cbn. lia.
  - apply Forall_forall. intros x Hx. rewrite Forall_forall in C, H1. constructor; [rewrite Htm; by apply H1 | by apply C].
Qed.

(** C34: The scheduler's linked list is a priority queue.  If it holds the runnables [l], in the
    order of their times, then [empty], [front] and [contains] answer for [l]; [remove] takes
    out the element it is given and [pop] the first; [push] with a time, of a runnable that
    may already wait for another time, leaves it once in the queue, behind those whose time is
    not later and before those whose time is later, the others in the order they had; and
    the order of times is kept. *)
Theorem scheduler_queue_refines (q : RunnableQueue) (l : list RunnableRef) (t : RunnableRef) (time : Z) :
  queue_repr q l -> in_order (time_of (heap q)) l -> is_Some (heap q !! t) ->
  empty q = bool_decide (l = []) /\ front q = list.head l /\ contains q t = Some (bool_decide (t ∈ l)) /\
  (exists q' l1 l2, push q t time = Some q' /\ queue_repr q' (l1 ++ t :: l2) /\
    filter (.≠ t) l = l1 ++ l2 /\ time_of (heap q') t = time /\
    (forall x, x <> t -> time_of (heap q') x = time_of (heap q) x) /\
    Forall (fun x => time_of (heap q) x <= time) l1 /\ Forall (fun x => time < time_of (heap q) x) l2 /\
    in_order (time_of (heap q')) (l1 ++ t :: l2)) /\
  (t ∈ l -> exists q', remove q t = Some q' /\ queue_repr q' (filter (.≠ t) l) /\
    (forall x, time_of (heap q') x = time_of (heap q) x) /\ in_order (time_of (heap q')) (filter (.≠ t) l)) /\
  (l <> [] -> exists q', pop q = Some q' /\ queue_repr q' (tail l) /\
    (forall x, time_of (heap q') x = time_of (heap q) x) /\ in_order (time_of (heap q')) (tail l)).
Proof.
  intros R HS Hs. split_and!.
  - unfold empty. rewrite (qr_head _ _ R). by destruct l.
  - apply (qr_head _ _ R).
  - by apply contains_repr.
  - destruct (push_repr q l t time R Hs) as (q' & E & R' & Htm).
    assert (t ∉ filter (.≠ t) l) as Ht by (intros [? _]%list_elem_of_filter; done).
    pose proof (in_order_filter _ (.≠ t) l HS) as HS0.
    assert (forall x, x <> t -> time_of (heap q') x = time_of (heap q) x) as Hne.
    { intros x Hx. by rewrite Htm, decide_False. }
    assert (in_order (time_of (heap q')) (insert_by (time_of (heap q)) time t (filter (.≠ t) l))) as Ho.
    { rewrite <- (insert_by_ext (time_of (heap q'))) by (intros x Hx; apply Hne; congruence).
      apply insert_by_in_order; [| done | by rewrite Htm, decide_True].
      eapply in_order_ext; [| exact HS0]. intros x Hx. rewrite Hne; [done | congruence]. }
    destruct (insert_by_split _ time t _ HS0) as (l1 & l2 & E0 & Ei & H1 & H2). rewrite Ei in *.
    exists q', l1, l2. split_and!; try done. by rewrite Htm, decide_True.
  - intros Hin. pose proof (remove_if_repr q l t R Hs) as (q' & E & R' & RR).
    rewrite (contains_repr _ _ _ R Hs), bool_decide_eq_true_2 in E by done. exists q'.
    split_and!; try done; [intros x; by eapply relinked_time |].
    eapply in_order_ext; [| by apply in_order_filter]. intros x _. symmetry. by eapply relinked_time.
  - intros Hne. destruct l as [|x l]; [done |]. destruct (pop_repr q x l R) as (q' & E & R' & RR).
    exists q'. split_and!; try done; [intros y; by eapply relinked_time |].
    inversion_clear HS. eapply in_order_ext; [| done]. intros y _. symmetry. by eapply relinked_time.
Qed.

(** Runnables 1 and 2 wait for the times 5 and 9; 3 does not wait. *)
#[local] Definition exampleHeap : Heap :=
  list_to_map [(ROther 1, mkRunnable None (Some (ROther 2)) 5); (ROther 2, mkRunnable (Some (ROther 1)) None 9);
               (ROther 3, mkRunnable None None 0)].
Lemma scheduler_queue_refines_witness :
  exists q', push (mkQueue (Some (ROther 1)) exampleHeap) (ROther 3) 5 = Some q' /\ queue_repr q' [ROther 1; ROther 3; ROther 2].
Proof.
  assert (queue_repr (mkQueue (Some (ROther 1)) exampleHeap) [ROther 1; ROther 2]) as R.
  { split.
    - reflexivity.
    - apply (bool_decide_unpack _). reflexivity.
    - split; [eexists; split_and!; reflexivity |]. split; [eexists; split_and!; reflexivity | exact I].
    - intros x r Hx Hn. unfold exampleHeap in Hx. cbn in Hx.
      rewrite !not_elem_of_cons in Hn. destruct Hn as (H1 & H2 & _).
      rewrite !lookup_insert_ne in Hx by congruence.
      destruct (decide (x = (ROther 3))) as [->|]; [by injection Hx as <- |].
      rewrite lookup_insert_ne in Hx by congruence. discriminate Hx. }
  destruct (scheduler_queue_refines (mkQueue (Some (ROther 1)) exampleHeap) [ROther 1; ROther 2] (ROther 3) 5 R)
    as (_ & _ & _ & (q' & l1 & l2 & E & R' & El & _ & _ & H1 & H2 & _) & _).
  { repeat constructor; vm_compute; discriminate. }
  { exists (mkRunnable None None 0). reflexivity. }
  exists q'. split; [exact E |].
  assert (l1 = [(ROther 1)] /\ l2 = [(ROther 2)]) as [-> ->]; [| exact R'].
  change (filter (.≠ (ROther 3)) [ROther 1; ROther 2]) with [ROther 1; ROther 2] in El.
  destruct l1 as [|a l1]; [cbn in El; subst l2; exfalso; inversion H2 as [|? ? H _]; vm_compute in H; discriminate H |].
  injection El as <- El. destruct l1 as [|b l1]; [by cbn in El |].
  injection El as <- El. exfalso. inversion H1 as [|? ? _ H]. inversion H as [|? ? H' _]. vm_compute in H'.
  apply H'. reflexivity.
Defined.
