(* ===== verification/SchedulerMap.v ===== *)
(** * The scheduler's queue as a map

    What the rest of the system relies on: the queue maps each waiting runnable to the time it
    waits for, and its first element is one with the earliest time. *)

From Stdlib Require Import ZArith Lia Sorting.Sorted.
From stdpp Require Import base list numbers option gmap.
From S2P Require Import Prelude Refs RunnableQueue.

#[local] Open Scope Z_scope.

(** The queue [q] holds the runnables of [w], each with its time. *)
Definition schedules (q : RunnableQueue) (w : gmap RunnableRef Z) : Prop :=
  exists l, queue_repr q l /\ in_order (time_of (heap q)) l /\
  forall x, w !! x = if decide (x ∈ l) then Some (time_of (heap q) x) else None.

Lemma opt_upd_dom o f h h' :
  match o with Some n => upd n f h | None => Some h end = Some h' -> dom h' = dom h.
Proof. destruct o; [apply upd_dom | by intros [= <-]]. Qed.

Lemma remove_dom q t q' : remove q t = Some q' -> dom (heap q') = dom (heap q).
Proof.
  unfold remove. intros E. repeat (case_match || simplify_option_eq); cbn;
    repeat match goal with H : upd _ _ _ = Some _ |- _ => apply upd_dom in H end; congruence.
Qed.

Lemma push_dom q t time q' : push q t time = Some q' -> dom (heap q') = dom (heap q).
Proof.
  unfold push. intros E.
  repeat match goal with
    | H : context [if ?b then remove _ _ else _] |- _ => destruct b
    | _ => case_match || simplify_option_eq
    end; cbn;
    repeat match goal with
      | H : upd _ _ _ = Some _ |- _ => apply upd_dom in H
      | H : remove _ _ = Some _ |- _ => apply remove_dom in H
      end; congruence.
Qed.

Lemma pop_dom q q' : pop q = Some q' -> dom (heap q') = dom (heap q).
Proof.
  unfold pop. intros E. repeat (case_match || simplify_option_eq); cbn;
    repeat match goal with H : upd _ _ _ = Some _ |- _ => apply upd_dom in H end; congruence.
Qed.

Lemma insert_by_elem tm time t l x : x ∈ insert_by tm time t l <-> x = t \/ x ∈ l.
Proof.
  induction l as [|y l IH]; cbn; [rewrite list_elem_of_singleton, elem_of_nil; tauto |].
  case_match; rewrite !elem_of_cons, ?IH; tauto.
Qed.

Lemma schedules_push q w t time : schedules q w -> t ∈ dom (heap q) ->
  exists q', push q t time = Some q' /\ schedules q' (<[t := time]> w) /\ dom (heap q') = dom (heap q).
Proof.
  intros (l & R & HS & Hw) Hs%elem_of_dom. destruct (push_repr q l t time R Hs) as (q' & E & R' & Htm).
  exists q'. split; [done |]. split; [| by eapply push_dom].
  assert (t ∉ filter (.≠ t) l) as Ht by (intros [? _]%list_elem_of_filter; done).
  eexists. split; [exact R' |]. split.
  - rewrite <- (insert_by_ext (time_of (heap q'))) by
      (intros x Hx; rewrite Htm, decide_False; [done | congruence]).
    apply insert_by_in_order; [| done | by rewrite Htm, decide_True].
    eapply in_order_ext; [| by apply in_order_filter].
    intros x Hx. rewrite Htm, decide_False; [done | congruence].
  - intros x. rewrite Htm. destruct (decide (x = t)) as [->|].
    + rewrite lookup_insert_eq, decide_True; [done |]. apply insert_by_elem. by left.
    + rewrite lookup_insert_ne, Hw by done.
      destruct (decide (x ∈ l)), (decide (x ∈ insert_by _ _ _ _)) as [Hi|Hi];
        rewrite insert_by_elem, list_elem_of_filter in Hi; tauto.
Qed.

Lemma schedules_remove q w t : schedules q w -> is_Some (w !! t) ->
  exists q', remove q t = Some q' /\ schedules q' (delete t w) /\ dom (heap q') = dom (heap q).
Proof.
  intros (l & R & HS & Hw) Ht. rewrite Hw in Ht. destruct (decide (t ∈ l)) as [Hin|]; [| by destruct Ht].
  assert (is_Some (heap q !! t)) as Hs by (eapply chain_lookup; [apply (qr_chain _ _ R) | done]).
  destruct (remove_if_repr q l t R Hs) as (q' & E & R' & RR).
  rewrite (contains_repr _ _ _ R Hs), bool_decide_eq_true_2 in E by done.
  exists q'. split; [done |]. split; [| by eapply remove_dom].
  exists (filter (.≠ t) l). split; [done |]. split.
  - eapply in_order_ext; [| by apply in_order_filter]. intros x _. symmetry. by eapply relinked_time.
  - intros x. rewrite (relinked_time _ _ _ x RR). destruct (decide (x = t)) as [->|].
    + rewrite lookup_delete_eq, decide_False; [done |]. by intros [? _]%list_elem_of_filter.
    + rewrite lookup_delete_ne, Hw by done.
      destruct (decide (x ∈ l)), (decide (x ∈ filter _ _)) as [Hi|Hi];
        rewrite list_elem_of_filter in Hi; tauto.
Qed.

Lemma schedules_contains q w t : schedules q w -> t ∈ dom (heap q) ->
  contains q t = Some (bool_decide (is_Some (w !! t))).
Proof.
  intros (l & R & HS & Hw) Hs%elem_of_dom. rewrite (contains_repr _ _ _ R Hs). f_equal.
  apply bool_decide_ext. rewrite Hw. destruct (decide (t ∈ l)); split; try done.
Qed.

Lemma schedules_empty q w : schedules q w -> empty q = bool_decide (w = ∅).
Proof.
  intros (l & R & HS & Hw). unfold empty. rewrite (qr_head _ _ R). apply bool_decide_ext.
  destruct l as [|x l]; cbn; split; try done.
  - intros _. apply map_empty. intros x. by rewrite Hw.
  - intros ->. specialize (Hw x). rewrite lookup_empty, decide_True in Hw; [done | list_in].
Qed.

(** The first element is the earliest. *)
Lemma schedules_front q w : schedules q w -> w <> ∅ ->
  exists x time q', front q = Some x /\ wakeUpTime <$> heap q !! x = Some time /\ w !! x = Some time /\
  (forall y t, w !! y = Some t -> time <= t) /\
  pop q = Some q' /\ schedules q' (delete x w) /\ dom (heap q') = dom (heap q).
Proof.
  intros (l & R & HS & Hw) Hne. destruct l as [|x l].
  { exfalso. apply Hne, map_empty. intros y. by rewrite Hw. }
  destruct (pop_repr q x l R) as (q' & E & R' & RR).
  pose proof (qr_nodup _ _ R) as [Hx _]%NoDup_cons. inversion_clear HS as [|? ? HS' HF].
  assert (is_Some (heap q !! x)) as [rx Hrx]
    by (eapply chain_lookup; [apply (qr_chain _ _ R) | list_in]).
  exists x, (time_of (heap q) x), q'. split_and!.
  - apply (qr_head _ _ R).
  - unfold time_of. by rewrite Hrx.
  - rewrite Hw, decide_True; [done | list_in].
  - intros y t Hy. rewrite Hw in Hy. destruct (decide (y ∈ x :: l)) as [[->|Hin]%elem_of_cons|]; [| | done].
    + injection Hy as <-. done.
    + injection Hy as <-. rewrite Forall_forall in HF. by apply HF.
  - done.
  - exists l. split; [done |]. split.
    + eapply in_order_ext; [| done]. intros y _. symmetry. by eapply relinked_time.
    + intros y. rewrite (relinked_time _ _ _ y RR). destruct (decide (y = x)) as [->|].
      * by rewrite lookup_delete_eq, decide_False.
      * rewrite lookup_delete_ne, Hw by done.
        destruct (decide (y ∈ x :: l)) as [Hi|Hi], (decide (y ∈ l)); rewrite elem_of_cons in Hi; tauto.
  - by eapply pop_dom.
Qed.
