(* ===== verification/StateMonad.v ===== *)
(** * Stateful computations

    A computation on a state that may run into undefined behaviour (a null or dangling pointer,
    an index out of bounds, a failed [assert], [std::abort]) and its two predicate transformers:
    [wp], it is defined and its result satisfies the postcondition; [wlp], if it is defined
    its result does. *)

From stdpp Require Import base list option.
From S2P Require Import Prelude.

Definition M (S A : Type) : Type := S -> option (S * A).

#[export] Instance M_ret S : MRet (M S) := fun A a s => Some (s, a).
#[export] Instance M_bind S : MBind (M S) := fun A B f m s => '(s', a) ← m s; f a s'.

Section ops.
Context {S : Type}.

Definition undef {A} : M S A := fun _ => None.
Definition get : M S S := fun s => Some (s, s).
Definition gets {A} (f : S -> A) : M S A := fun s => Some (s, f s).
Definition modify (f : S -> S) : M S unit := fun s => Some (f s, tt).
Definition lift {A} (x : option A) : M S A := fun s => a ← x; Some (s, a).
(** [assert(b)] *)
Definition require (b : bool) : M S unit := if b then mret tt else undef.
Definition when (b : bool) (m : M S unit) : M S unit := if b then m else mret tt.

(** A loop over a list that cannot be left early. *)
Fixpoint forEach {X} (l : list X) (f : X -> M S unit) : M S unit :=
  match l with
  | [] => mret tt
  | x :: l => f x ≫= fun _ => forEach l f
  end.

Definition wp {A} (m : M S A) (Q : A -> S -> Prop) (s : S) : Prop :=
  match m s with Some (s', a) => Q a s' | None => False end.
Definition wlp {A} (m : M S A) (Q : A -> S -> Prop) (s : S) : Prop :=
  match m s with Some (s', a) => Q a s' | None => True end.

(** Running the computation from a state that satisfies [I] reaches one that does. *)
Definition keeps (I : S -> Prop) {A} (m : M S A) : Prop := forall s, I s -> wlp m (fun _ => I) s.
(** The same, and the computation is defined. *)
Definition safe (I : S -> Prop) {A} (m : M S A) : Prop := forall s, I s -> wp m (fun _ => I) s.

Lemma wp_intro {A} (m : M S A) Q s s' a : m s = Some (s', a) -> Q a s' -> wp m Q s.
Proof. unfold wp. by intros ->. Qed.
Lemma wp_elim {A} (m : M S A) Q s : wp m Q s -> exists s' a, m s = Some (s', a) /\ Q a s'.
Proof. unfold wp. destruct (m s) as [[]|]; [eauto | done]. Qed.
Lemma wp_ret {A} (a : A) Q s : wp (mret a) Q s <-> Q a s.
Proof. done. Qed.
Lemma wp_bind {A B} (m : M S A) (f : A -> M S B) Q s :
  wp (m ≫= f) Q s <-> wp m (fun a => wp (f a) Q) s.
Proof. unfold wp, mbind at 1, M_bind. by destruct (m s) as [[]|]. Qed.
Lemma wp_mono {A} (m : M S A) (Q Q' : A -> S -> Prop) s :
  wp m Q s -> (forall a s', Q a s' -> Q' a s') -> wp m Q' s.
Proof. unfold wp. destruct (m s) as [[]|]; auto. Qed.
Lemma wp_and {A} (m : M S A) (Q Q' : A -> S -> Prop) s :
  wp m Q s -> wlp m Q' s -> wp m (fun a s => Q a s /\ Q' a s) s.
Proof. unfold wp, wlp. by destruct (m s) as [[]|]. Qed.

Lemma wlp_elim {A} (m : M S A) Q s s' a : wlp m Q s -> m s = Some (s', a) -> Q a s'.
Proof. unfold wlp. by intros ? E; rewrite E in *. Qed.
Lemma wlp_bind {A B} (m : M S A) (f : A -> M S B) Q s :
  wlp (m ≫= f) Q s <-> wlp m (fun a => wlp (f a) Q) s.
Proof. unfold wlp, mbind at 1, M_bind. by destruct (m s) as [[]|]. Qed.
Lemma wlp_mono {A} (m : M S A) (Q Q' : A -> S -> Prop) s :
  wlp m Q s -> (forall a s', Q a s' -> Q' a s') -> wlp m Q' s.
Proof. unfold wlp. destruct (m s) as [[]|]; auto. Qed.
Lemma wp_wlp {A} (m : M S A) Q s : wp m Q s -> wlp m Q s.
Proof. unfold wp, wlp. by destruct (m s) as [[]|]. Qed.

Section keeps.
Context (I : S -> Prop).

Lemma keeps_ret {A} (a : A) : keeps I (mret a).
Proof. by intros s Hs. Qed.
Lemma keeps_bind {A B} (m : M S A) (f : A -> M S B) :
  keeps I m -> (forall a, keeps I (f a)) -> keeps I (m ≫= f).
Proof.
  intros Hm Hf s Hs. apply wlp_bind. eapply wlp_mono; [by apply Hm |]. intros a s' Hs'. by apply Hf.
Qed.
Lemma keeps_undef {A} : keeps I (undef (A := A)).
Proof. by intros s Hs. Qed.
Lemma keeps_get : keeps I get.
Proof. by intros s Hs. Qed.
Lemma keeps_gets {A} (f : S -> A) : keeps I (gets f).
Proof. by intros s Hs. Qed.
Lemma keeps_lift {A} (x : option A) : keeps I (lift x).
Proof. intros s Hs. unfold wlp, lift. by destruct x. Qed.
Lemma keeps_require b : keeps I (require b).
Proof. by destruct b; intros s Hs. Qed.
Lemma keeps_when b m : keeps I m -> keeps I (when b m).
Proof. intros. destruct b; [done | apply keeps_ret]. Qed.
Lemma keeps_if {A} (b : bool) (m m' : M S A) : keeps I m -> keeps I m' -> keeps I (if b then m else m').
Proof. by destruct b. Qed.
Lemma keeps_forEach {X} (l : list X) f : (forall x, keeps I (f x)) -> keeps I (forEach l f).
Proof. intros Hf. induction l; cbn; [apply keeps_ret | by apply keeps_bind]. Qed.
Lemma keeps_modify f : (forall s, I s -> I (f s)) -> keeps I (modify f).
Proof. intros Hf s Hs. by apply Hf. Qed.

Lemma safe_keeps {A} (m : M S A) : safe I m -> keeps I m.
Proof. intros Hm s Hs. by apply wp_wlp, Hm. Qed.
Lemma safe_ret {A} (a : A) : safe I (mret a).
Proof. by intros s Hs. Qed.
Lemma safe_bind {A B} (m : M S A) (f : A -> M S B) :
  safe I m -> (forall a, safe I (f a)) -> safe I (m ≫= f).
Proof.
  intros Hm Hf s Hs. apply wp_bind. eapply wp_mono; [by apply Hm |]. intros a s' Hs'. by apply Hf.
Qed.
Lemma safe_when b m : safe I m -> safe I (when b m).
Proof. intros. destruct b; [done | apply safe_ret]. Qed.
Lemma safe_forEach {X} (l : list X) f : (forall x, x ∈ l -> safe I (f x)) -> safe I (forEach l f).
Proof.
  intros Hf. induction l; cbn; [apply safe_ret |]. apply safe_bind.
  - apply Hf. by constructor.
  - intros _. apply IHl. intros. apply Hf. by constructor.
Qed.
End keeps.
End ops.

Create HintDb keeps.
#[export] Hint Resolve keeps_ret keeps_undef keeps_get keeps_gets keeps_lift keeps_require
  keeps_when keeps_if keeps_forEach : keeps.

(** Split a computation into its primitive steps and look each of them up. *)
Ltac keeps_step :=
  match goal with
  | |- forall _, _ => intros ?
  | |- keeps _ (_ ≫= _) => apply keeps_bind
  | |- keeps _ (match ?x with _ => _ end) => destruct x
  | |- keeps _ (when _ _) => apply keeps_when
  | |- keeps _ (forEach _ _) => apply keeps_forEach
  | |- keeps _ _ => solve [eauto with keeps nocore]
  end.
Ltac keeps_auto := repeat keeps_step.
