(* ===== verification/Thread.v ===== *)
(** * Threads (lib/Thread.h, lib/Thread.cpp)

    The state of a hardware thread and the operations that touch nothing else: its registers,
    with the buffer that delays the writes of a dual-issue bundle, its status register, its
    time and its program counter.  The decode cache a thread points to is kept with its core
    ([threadCaches]); the event lists of a thread, linked through the resources, are lists of
    names. *)

From Stdlib Require Import ZArith Lia.
From stdpp Require Import base list numbers option.
From S2P Require Import Prelude Opcode Refs Resource.

#[local] Open Scope Z_scope.
#[local] Open Scope cbits_scope.

(** The enumeration SRBit: positions of the bits of the status register. *)
Definition EEBLE : Z := 0.
Definition IEBLE : Z := 1.
Definition INENB : Z := 2.
Definition ININT : Z := 3.
Definition INK : Z := 4.
Definition SINK : Z := 5.
Definition WAITING : Z := 6.
Definition FAST : Z := 7.
Definition DI : Z := 8.
Definition KEDI : Z := 9.
Definition HIPRI : Z := 10.

(** lib/Thread.h:93-107 SRBit: write of a bit of the [std::bitset<11>] *)
Definition sr_set (bit : Z) (b : bool) (sr : Z) : Z := if b then Z.setbit sr bit else Z.clearbit sr bit.

(** lib/InstFunction.h:13-20 InstReturn *)
Inductive InstReturn := INST_CONTINUE | END_TRACE | END_THREAD_EXECUTION.

#[export] Instance InstReturn_eq_dec : EqDecision InstReturn.
Proof. solve_decision. Defined.

(** A resource a thread waits for. *)
Inductive PausedOn := OnSync (r : Ref) | OnLock (r : Ref) | OnEventable (e : EventableRef).

#[export] Instance PausedOn_eq_dec : EqDecision PausedOn.
Proof. solve_decision. Defined.

(** lib/Thread.h:77-126 Thread *)
Record Thread := mkThread {
  res : Resource;
  ssync : bool;
  sync : option Ref;
  eventEnabledResources : list EventableRef;
  interruptEnabledResources : list EventableRef;
  dualIssue : bool;
  regs : list Z;
  regsBuffer : list Z;
  bufferInitialized : bool;
  pc : Z;
  time : Z;
  sr : Z;
  pendingPc : Z;
  pausedOn : option PausedOn;
  instructionCycles : Z
}.

Definition set_res (v : Resource) (t : Thread) : Thread :=
  mkThread v (ssync t) (sync t) (eventEnabledResources t) (interruptEnabledResources t)
    (dualIssue t) (regs t) (regsBuffer t) (bufferInitialized t) (pc t) (time t) (sr t)
    (pendingPc t) (pausedOn t) (instructionCycles t).
Definition set_ssync (v : bool) (t : Thread) : Thread :=
  mkThread (res t) v (sync t) (eventEnabledResources t) (interruptEnabledResources t) (dualIssue
    t) (regs t) (regsBuffer t) (bufferInitialized t) (pc t) (time t) (sr t) (pendingPc t)
    (pausedOn t) (instructionCycles t).
Definition set_sync (v : option Ref) (t : Thread) : Thread :=
  mkThread (res t) (ssync t) v (eventEnabledResources t) (interruptEnabledResources t)
    (dualIssue t) (regs t) (regsBuffer t) (bufferInitialized t) (pc t) (time t) (sr t)
    (pendingPc t) (pausedOn t) (instructionCycles t).
Definition set_eventEnabledResources (v : list EventableRef) (t : Thread) : Thread :=
  mkThread (res t) (ssync t) (sync t) v (interruptEnabledResources t) (dualIssue t) (regs t)
    (regsBuffer t) (bufferInitialized t) (pc t) (time t) (sr t) (pendingPc t) (pausedOn t)
    (instructionCycles t).
Definition set_interruptEnabledResources (v : list EventableRef) (t : Thread) : Thread :=
  mkThread (res t) (ssync t) (sync t) (eventEnabledResources t) v (dualIssue t) (regs t)
    (regsBuffer t) (bufferInitialized t) (pc t) (time t) (sr t) (pendingPc t) (pausedOn t)
    (instructionCycles t).
Definition set_dualIssue (v : bool) (t : Thread) : Thread :=
  mkThread (res t) (ssync t) (sync t) (eventEnabledResources t) (interruptEnabledResources t) v
    (regs t) (regsBuffer t) (bufferInitialized t) (pc t) (time t) (sr t) (pendingPc t) (pausedOn
    t) (instructionCycles t).
Definition set_regs (v : list Z) (t : Thread) : Thread :=
  mkThread (res t) (ssync t) (sync t) (eventEnabledResources t) (interruptEnabledResources t)
    (dualIssue t) v (regsBuffer t) (bufferInitialized t) (pc t) (time t) (sr t) (pendingPc t)
    (pausedOn t) (instructionCycles t).
Definition set_regsBuffer (v : list Z) (t : Thread) : Thread :=
  mkThread (res t) (ssync t) (sync t) (eventEnabledResources t) (interruptEnabledResources t)
    (dualIssue t) (regs t) v (bufferInitialized t) (pc t) (time t) (sr t) (pendingPc t)
    (pausedOn t) (instructionCycles t).
Definition set_bufferInitialized (v : bool) (t : Thread) : Thread :=
  mkThread (res t) (ssync t) (sync t) (eventEnabledResources t) (interruptEnabledResources t)
    (dualIssue t) (regs t) (regsBuffer t) v (pc t) (time t) (sr t) (pendingPc t) (pausedOn t)
    (instructionCycles t).
Definition set_pc (v : Z) (t : Thread) : Thread :=
  mkThread (res t) (ssync t) (sync t) (eventEnabledResources t) (interruptEnabledResources t)
    (dualIssue t) (regs t) (regsBuffer t) (bufferInitialized t) v (time t) (sr t) (pendingPc t)
    (pausedOn t) (instructionCycles t).
Definition set_time (v : Z) (t : Thread) : Thread :=
  mkThread (res t) (ssync t) (sync t) (eventEnabledResources t) (interruptEnabledResources t)
    (dualIssue t) (regs t) (regsBuffer t) (bufferInitialized t) (pc t) v (sr t) (pendingPc t)
    (pausedOn t) (instructionCycles t).
Definition set_sr (v : Z) (t : Thread) : Thread :=
  mkThread (res t) (ssync t) (sync t) (eventEnabledResources t) (interruptEnabledResources t)
    (dualIssue t) (regs t) (regsBuffer t) (bufferInitialized t) (pc t) (time t) v (pendingPc t)
    (pausedOn t) (instructionCycles t).
Definition set_pendingPc (v : Z) (t : Thread) : Thread :=
  mkThread (res t) (ssync t) (sync t) (eventEnabledResources t) (interruptEnabledResources t)
    (dualIssue t) (regs t) (regsBuffer t) (bufferInitialized t) (pc t) (time t) (sr t) v
    (pausedOn t) (instructionCycles t).
Definition set_pausedOn (v : option PausedOn) (t : Thread) : Thread :=
  mkThread (res t) (ssync t) (sync t) (eventEnabledResources t) (interruptEnabledResources t)
    (dualIssue t) (regs t) (regsBuffer t) (bufferInitialized t) (pc t) (time t) (sr t)
    (pendingPc t) v (instructionCycles t).
Definition set_instructionCycles (v : Z) (t : Thread) : Thread :=
  mkThread (res t) (ssync t) (sync t) (eventEnabledResources t) (interruptEnabledResources t)
    (dualIssue t) (regs t) (regsBuffer t) (bufferInitialized t) (pc t) (time t) (sr t)
    (pendingPc t) (pausedOn t) v.

Definition setInUseT (b : bool) (t : Thread) : Thread := set_res (setInUse b (res t)) t.

(** lib/Thread.h:254-256 waiting *)
Definition waiting (t : Thread) : bool := Z.testbit (sr t) WAITING.
Definition set_waiting (b : bool) (t : Thread) : Thread := set_sr (sr_set WAITING b (sr t)) t.

(** lib/Thread.cpp:28-50 Thread::Thread: [junk] stands for the members that are not initialised *)
Definition newThread (junk : Thread) : Thread :=
  mkThread (newResource RES_TYPE_THREAD) (ssync junk) (sync junk) [] [] false (replicate 23 0)
    (replicate 23 0) true 0 0 0 (pendingPc junk) (pausedOn junk) (instructionCycles junk).

(** lib/Thread.h:190-198 alloc *)
Definition thread_alloc (t0 : Z) (t : Thread) : option Thread :=
  _ ← assert (negb (inUse (res t)));
  Some (set_pausedOn None (set_time t0 (set_ssync true (set_sync None (setInUseT true t))))).

(** lib/Thread.h:156-160 free *)
Definition thread_free (t : Thread) : Thread := setInUseT false t.

(** lib/Thread.h:200-204 setSync *)
Definition setSync (s : Ref) (t : Thread) : option Thread :=
  _ ← assert (bool_decide (sync t = None)); Some (set_sync (Some s) t).

(** [regs.swap(regsBuffer)] *)
Definition swap_regs (t : Thread) : Thread := set_regs (regsBuffer t) (set_regsBuffer (regs t) t).

(** lib/Thread.cpp:614-619 Thread::doPendingRegWrites *)
Definition doPendingRegWrites (t : Thread) : Thread :=
  if bufferInitialized t then set_bufferInitialized false (swap_regs t) else t.

(** lib/Thread.cpp:52-67 Thread::setDualIssue *)
Definition setDualIssue (di : bool) (t : Thread) : Thread :=
  let t := if dualIssue t && negb di
           then (if bufferInitialized t then set_bufferInitialized false (swap_regs t) else t)
           else t in
  set_dualIssue di t.

(** lib/Thread.cpp:74-85 Thread::writeRegister *)
Definition writeRegister (index value : Z) (t : Thread) : option Thread :=
  if negb (dualIssue t) then l ← array_set (regs t) index value; Some (set_regs l t)
  else
    let t := if negb (bufferInitialized t)
             then set_bufferInitialized true (set_regsBuffer (regs t) t) else t in
    l ← array_set (regsBuffer t) index value; Some (set_regsBuffer l t).

(** lib/Thread.cpp:87-93 Thread::readRegisterForTrace *)
Definition readRegisterForTrace (index : Z) (t : Thread) : option Z :=
  if bufferInitialized t then array_get (regsBuffer t) index else array_get (regs t) index.

(** lib/Thread.cpp:130-135 Thread::addTime *)
Definition addTime (value : Z) (t : Thread) : Thread :=
  let value := u64 (value * instructionCycles t) in
  if negb (dualIssue t) || (pc t mod 2 =? 0) then set_time (u64 (time t + value)) t else t.

(** lib/Thread.cpp:607-612 Thread::getNextPC: [interpretOneAddr] and [runJitAddr] are those of the core *)
Definition getNextPC (interpretOneAddr runJitAddr : Z) (t : Thread) : Thread :=
  if (pc t =? interpretOneAddr) || (pc t =? runJitAddr) then set_pc (u32 (pendingPc t + 1)) t
  else set_pc (u32 (pc t + 1)) t.

(** lib/Thread.h:333-336 setStatusDualIssue *)
Definition setStatusDualIssue (v : bool) (t : Thread) : Thread := set_sr (sr_set DI v (sr t)) t.
