(* ===== verification/SysState.v ===== *)
(** * The state of a system

    The threads, the resources and the scheduler of a system, and the elementary reads and
    writes the other files are made of.  Objects are kept in maps under their names ([Refs]);
    a subobject of a class hierarchy has a map of its own, so that the members of
    [EventableResource] are found in the same way for timers, channel ends and ports.  [P] is the
    state of the ports and clock blocks, which is left abstract. *)

From Stdlib Require Import ZArith Lia.
From stdpp Require Import base list numbers option gmap.
From S2P Require Import Prelude Opcode InstrDecode DecodeCache Core.
From S2P Require Import Refs RingBuffer Resource Node SSwitchRegs RunnableQueue StateMonad Thread.

#[local] Open Scope Z_scope.

(** ** Resources *)

(** lib/Resource.h:263-276 EventableResource *)
Record EventableResource := mkEventable {
  ev_res : Resource;
  vector : Z;
  EV : Z;
  eventsEnabled : bool;
  interruptMode : bool;
  owner : option Ref
}.

Definition set_ev_res (v : Resource) (r : EventableResource) : EventableResource :=
  mkEventable v (vector r) (EV r) (eventsEnabled r) (interruptMode r) (owner r).
Definition set_vector (v : Z) (r : EventableResource) : EventableResource :=
  mkEventable (ev_res r) v (EV r) (eventsEnabled r) (interruptMode r) (owner r).
Definition set_EV (v : Z) (r : EventableResource) : EventableResource :=
  mkEventable (ev_res r) (vector r) v (eventsEnabled r) (interruptMode r) (owner r).
Definition set_eventsEnabled (v : bool) (r : EventableResource) : EventableResource :=
  mkEventable (ev_res r) (vector r) (EV r) v (interruptMode r) (owner r).
Definition set_interruptMode (v : bool) (r : EventableResource) : EventableResource :=
  mkEventable (ev_res r) (vector r) (EV r) (eventsEnabled r) v (owner r).
Definition set_owner (v : option Ref) (r : EventableResource) : EventableResource :=
  mkEventable (ev_res r) (vector r) (EV r) (eventsEnabled r) (interruptMode r) v.

(** lib/Timer.h:13-19 Timer *)
Record Timer := mkTimer {
  after : bool;
  data : Z;
  timer_pausedIn : option Ref
}.

Definition set_after (v : bool) (r : Timer) : Timer :=
  mkTimer v (data r) (timer_pausedIn r).
Definition set_data (v : Z) (r : Timer) : Timer :=
  mkTimer (after r) v (timer_pausedIn r).
Definition set_timer_pausedIn (v : option Ref) (r : Timer) : Timer :=
  mkTimer (after r) (data r) v.

(** lib/Lock.h:14-19 Lock *)
Record Lock := mkLock {
  lock_res : Resource;
  held : bool;
  lock_threads : list Ref
}.

Definition set_lock_res (v : Resource) (r : Lock) : Lock :=
  mkLock v (held r) (lock_threads r).
Definition set_held (v : bool) (r : Lock) : Lock :=
  mkLock (lock_res r) v (lock_threads r).
Definition set_lock_threads (v : list Ref) (r : Lock) : Lock :=
  mkLock (lock_res r) (held r) v.

(** lib/Synchroniser.h:17-21 SyncResult *)
Inductive SyncResult := SYNC_CONTINUE | SYNC_DESCHEDULE | SYNC_KILL.

(** lib/Synchroniser.h:22-29 Synchroniser: [sync_threads] is the array of [NUM_THREADS] pointers *)
Record Synchroniser := mkSynchroniser {
  sync_res : Resource;
  NumThreads : Z;
  sync_threads : list Ref;
  NumPaused : Z;
  join : bool
}.

Definition set_sync_res (v : Resource) (r : Synchroniser) : Synchroniser :=
  mkSynchroniser v (NumThreads r) (sync_threads r) (NumPaused r) (join r).
Definition set_NumThreads (v : Z) (r : Synchroniser) : Synchroniser :=
  mkSynchroniser (sync_res r) v (sync_threads r) (NumPaused r) (join r).
Definition set_sync_threads (v : list Ref) (r : Synchroniser) : Synchroniser :=
  mkSynchroniser (sync_res r) (NumThreads r) v (NumPaused r) (join r).
Definition set_NumPaused (v : Z) (r : Synchroniser) : Synchroniser :=
  mkSynchroniser (sync_res r) (NumThreads r) (sync_threads r) v (join r).
Definition set_join (v : bool) (r : Synchroniser) : Synchroniser :=
  mkSynchroniser (sync_res r) (NumThreads r) (sync_threads r) (NumPaused r) v.

(** lib/ChanEndpoint.h:15-21 ChanEndpoint *)
Record ChanEndpoint := mkChanEndpoint {
  junkIncoming : bool;
  queue : list EndpointRef;
  source : option EndpointRef
}.

Definition set_junkIncoming (v : bool) (r : ChanEndpoint) : ChanEndpoint :=
  mkChanEndpoint v (queue r) (source r).
Definition set_queue (v : list EndpointRef) (r : ChanEndpoint) : ChanEndpoint :=
  mkChanEndpoint (junkIncoming r) v (source r).
Definition set_source (v : option EndpointRef) (r : ChanEndpoint) : ChanEndpoint :=
  mkChanEndpoint (junkIncoming r) (queue r) v.

(** lib/Chanend.h:17-36 Chanend *)
Record Chanend := mkChanend {
  destID : Z;
  dest : option EndpointRef;
  buf : ring_buffer Token;
  pausedOut : option Ref;
  pausedIn : option Ref;
  waitForWord : bool;
  inPacket : bool;
  junkPacket : bool
}.

Definition set_destID (v : Z) (r : Chanend) : Chanend :=
  mkChanend v (dest r) (buf r) (pausedOut r) (pausedIn r) (waitForWord r) (inPacket r)
    (junkPacket r).
Definition set_dest (v : option EndpointRef) (r : Chanend) : Chanend :=
  mkChanend (destID r) v (buf r) (pausedOut r) (pausedIn r) (waitForWord r) (inPacket r)
    (junkPacket r).
Definition set_buf (v : ring_buffer Token) (r : Chanend) : Chanend :=
  mkChanend (destID r) (dest r) v (pausedOut r) (pausedIn r) (waitForWord r) (inPacket r)
    (junkPacket r).
Definition set_pausedOut (v : option Ref) (r : Chanend) : Chanend :=
  mkChanend (destID r) (dest r) (buf r) v (pausedIn r) (waitForWord r) (inPacket r) (junkPacket
    r).
Definition set_pausedIn (v : option Ref) (r : Chanend) : Chanend :=
  mkChanend (destID r) (dest r) (buf r) (pausedOut r) v (waitForWord r) (inPacket r) (junkPacket
    r).
Definition set_waitForWord (v : bool) (r : Chanend) : Chanend :=
  mkChanend (destID r) (dest r) (buf r) (pausedOut r) (pausedIn r) v (inPacket r) (junkPacket
    r).
Definition set_inPacket (v : bool) (r : Chanend) : Chanend :=
  mkChanend (destID r) (dest r) (buf r) (pausedOut r) (pausedIn r) (waitForWord r) v (junkPacket
    r).
Definition set_junkPacket (v : bool) (r : Chanend) : Chanend :=
  mkChanend (destID r) (dest r) (buf r) (pausedOut r) (pausedIn r) (waitForWord r) (inPacket r)
    v.

(** lib/SSwitch.h:17-40 SSwitch *)
Record SSwitch := mkSSwitch {
  ctrlRegs : SSwitchCtrlRegs;
  recievedTokens : Z;
  ss_buf : list Token;
  junkIncomingTokens : bool;
  sendingResponse : bool;
  sentTokens : Z;
  responseLength : Z
}.

Definition set_ctrlRegs (v : SSwitchCtrlRegs) (r : SSwitch) : SSwitch :=
  mkSSwitch v (recievedTokens r) (ss_buf r) (junkIncomingTokens r) (sendingResponse r)
    (sentTokens r) (responseLength r).
Definition set_recievedTokens (v : Z) (r : SSwitch) : SSwitch :=
  mkSSwitch (ctrlRegs r) v (ss_buf r) (junkIncomingTokens r) (sendingResponse r) (sentTokens r)
    (responseLength r).
Definition set_ss_buf (v : list Token) (r : SSwitch) : SSwitch :=
  mkSSwitch (ctrlRegs r) (recievedTokens r) v (junkIncomingTokens r) (sendingResponse r)
    (sentTokens r) (responseLength r).
Definition set_junkIncomingTokens (v : bool) (r : SSwitch) : SSwitch :=
  mkSSwitch (ctrlRegs r) (recievedTokens r) (ss_buf r) v (sendingResponse r) (sentTokens r)
    (responseLength r).
Definition set_sendingResponse (v : bool) (r : SSwitch) : SSwitch :=
  mkSSwitch (ctrlRegs r) (recievedTokens r) (ss_buf r) (junkIncomingTokens r) v (sentTokens r)
    (responseLength r).
Definition set_sentTokens (v : Z) (r : SSwitch) : SSwitch :=
  mkSSwitch (ctrlRegs r) (recievedTokens r) (ss_buf r) (junkIncomingTokens r) (sendingResponse
    r) v (responseLength r).
Definition set_responseLength (v : Z) (r : SSwitch) : SSwitch :=
  mkSSwitch (ctrlRegs r) (recievedTokens r) (ss_buf r) (junkIncomingTokens r) (sendingResponse
    r) (sentTokens r) v.

(** lib/Thread.h:358-363 PendingEvent: [set] is whether there is one *)
Record PendingEvent := mkPending { pe_res : EventableRef; pe_interrupt : bool; pe_time : Z }.

(** ** The system *)

(** lib/SystemState.h:57-62 SystemState *)
Record Sys (P : Type) := mkSys {
  net : Net;
  sys_cores : gmap CoreRef Core;
  romDecodeCache : State;
  threads : gmap Ref Thread;
  eventables : gmap EventableRef EventableResource;
  timers : gmap Ref Timer;
  locks : gmap Ref Lock;
  syncs : gmap Ref Synchroniser;
  endpoints : gmap EndpointRef ChanEndpoint;
  chanends : gmap Ref Chanend;
  switches : gmap nat SSwitch;
  scheduler : RunnableQueue;
  currentRunnable : option RunnableRef;
  pendingEvent : option PendingEvent;
  ports : P
}.

Arguments mkSys {P}. Arguments net {P}. Arguments sys_cores {P}. Arguments romDecodeCache {P}. Arguments threads {P}. Arguments eventables {P}. Arguments timers {P}. Arguments locks {P}. Arguments syncs {P}. Arguments endpoints {P}. Arguments chanends {P}. Arguments switches {P}. Arguments scheduler {P}. Arguments currentRunnable {P}. Arguments pendingEvent {P}. Arguments ports {P}.

Section setters.
Context {P : Type}.
Definition set_net (v : Net) (s : Sys P) : Sys P :=
  mkSys v (sys_cores s) (romDecodeCache s) (threads s) (eventables s) (timers s) (locks s)
    (syncs s) (endpoints s) (chanends s) (switches s) (scheduler s) (currentRunnable s)
    (pendingEvent s) (ports s).
Definition set_sys_cores (v : gmap CoreRef Core) (s : Sys P) : Sys P :=
  mkSys (net s) v (romDecodeCache s) (threads s) (eventables s) (timers s) (locks s) (syncs s)
    (endpoints s) (chanends s) (switches s) (scheduler s) (currentRunnable s) (pendingEvent s)
    (ports s).
Definition set_romDecodeCache (v : State) (s : Sys P) : Sys P :=
  mkSys (net s) (sys_cores s) v (threads s) (eventables s) (timers s) (locks s) (syncs s)
    (endpoints s) (chanends s) (switches s) (scheduler s) (currentRunnable s) (pendingEvent s)
    (ports s).
Definition set_threads (v : gmap Ref Thread) (s : Sys P) : Sys P :=
  mkSys (net s) (sys_cores s) (romDecodeCache s) v (eventables s) (timers s) (locks s) (syncs s)
    (endpoints s) (chanends s) (switches s) (scheduler s) (currentRunnable s) (pendingEvent s)
    (ports s).
Definition set_eventables (v : gmap EventableRef EventableResource) (s : Sys P) : Sys P :=
  mkSys (net s) (sys_cores s) (romDecodeCache s) (threads s) v (timers s) (locks s) (syncs s)
    (endpoints s) (chanends s) (switches s) (scheduler s) (currentRunnable s) (pendingEvent s)
    (ports s).
Definition set_timers (v : gmap Ref Timer) (s : Sys P) : Sys P :=
  mkSys (net s) (sys_cores s) (romDecodeCache s) (threads s) (eventables s) v (locks s) (syncs
    s) (endpoints s) (chanends s) (switches s) (scheduler s) (currentRunnable s) (pendingEvent
    s) (ports s).
Definition set_locks (v : gmap Ref Lock) (s : Sys P) : Sys P :=
  mkSys (net s) (sys_cores s) (romDecodeCache s) (threads s) (eventables s) (timers s) v (syncs
    s) (endpoints s) (chanends s) (switches s) (scheduler s) (currentRunnable s) (pendingEvent
    s) (ports s).
Definition set_syncs (v : gmap Ref Synchroniser) (s : Sys P) : Sys P :=
  mkSys (net s) (sys_cores s) (romDecodeCache s) (threads s) (eventables s) (timers s) (locks s)
    v (endpoints s) (chanends s) (switches s) (scheduler s) (currentRunnable s) (pendingEvent s)
    (ports s).
Definition set_endpoints (v : gmap EndpointRef ChanEndpoint) (s : Sys P) : Sys P :=
  mkSys (net s) (sys_cores s) (romDecodeCache s) (threads s) (eventables s) (timers s) (locks s)
    (syncs s) v (chanends s) (switches s) (scheduler s) (currentRunnable s) (pendingEvent s)
    (ports s).
Definition set_chanends (v : gmap Ref Chanend) (s : Sys P) : Sys P :=
  mkSys (net s) (sys_cores s) (romDecodeCache s) (threads s) (eventables s) (timers s) (locks s)
    (syncs s) (endpoints s) v (switches s) (scheduler s) (currentRunnable s) (pendingEvent s)
    (ports s).
Definition set_switches (v : gmap nat SSwitch) (s : Sys P) : Sys P :=
  mkSys (net s) (sys_cores s) (romDecodeCache s) (threads s) (eventables s) (timers s) (locks s)
    (syncs s) (endpoints s) (chanends s) v (scheduler s) (currentRunnable s) (pendingEvent s)
    (ports s).
Definition set_scheduler (v : RunnableQueue) (s : Sys P) : Sys P :=
  mkSys (net s) (sys_cores s) (romDecodeCache s) (threads s) (eventables s) (timers s) (locks s)
    (syncs s) (endpoints s) (chanends s) (switches s) v (currentRunnable s) (pendingEvent s)
    (ports s).
Definition set_currentRunnable (v : option RunnableRef) (s : Sys P) : Sys P :=
  mkSys (net s) (sys_cores s) (romDecodeCache s) (threads s) (eventables s) (timers s) (locks s)
    (syncs s) (endpoints s) (chanends s) (switches s) (scheduler s) v (pendingEvent s) (ports
    s).
Definition set_pendingEvent (v : option PendingEvent) (s : Sys P) : Sys P :=
  mkSys (net s) (sys_cores s) (romDecodeCache s) (threads s) (eventables s) (timers s) (locks s)
    (syncs s) (endpoints s) (chanends s) (switches s) (scheduler s) (currentRunnable s) v (ports
    s).
Definition set_ports (v : P) (s : Sys P) : Sys P :=
  mkSys (net s) (sys_cores s) (romDecodeCache s) (threads s) (eventables s) (timers s) (locks s)
    (syncs s) (endpoints s) (chanends s) (switches s) (scheduler s) (currentRunnable s)
    (pendingEvent s) v.
End setters.

(** ** Elementary reads and writes *)

Section access.
Context {P : Type}.
Abbreviation MS := (M (Sys P)).

Definition thread (t : Ref) : MS Thread := s ← get; lift (threads s !! t).
Definition putThread (t : Ref) (v : Thread) : MS unit := modify (fun s => set_threads (<[t := v]> (threads s)) s).
Definition modThread (t : Ref) (f : Thread -> Thread) : MS unit := v ← thread t; putThread t (f v).

Definition eventable (e : EventableRef) : MS EventableResource := s ← get; lift (eventables s !! e).
Definition putEventable (e : EventableRef) (v : EventableResource) : MS unit :=
  modify (fun s => set_eventables (<[e := v]> (eventables s)) s).
Definition modEventable (e : EventableRef) (f : EventableResource -> EventableResource) : MS unit :=
  v ← eventable e; putEventable e (f v).

Definition timer (r : Ref) : MS Timer := s ← get; lift (timers s !! r).
Definition modTimer (r : Ref) (f : Timer -> Timer) : MS unit :=
  v ← timer r; modify (fun s => set_timers (<[r := f v]> (timers s)) s).

Definition lock (r : Ref) : MS Lock := s ← get; lift (locks s !! r).
Definition modLock (r : Ref) (f : Lock -> Lock) : MS unit :=
  v ← lock r; modify (fun s => set_locks (<[r := f v]> (locks s)) s).

Definition synchroniser (r : Ref) : MS Synchroniser := s ← get; lift (syncs s !! r).
Definition putSync (r : Ref) (v : Synchroniser) : MS unit := modify (fun s => set_syncs (<[r := v]> (syncs s)) s).
Definition modSync (r : Ref) (f : Synchroniser -> Synchroniser) : MS unit :=
  v ← synchroniser r; putSync r (f v).

Definition endpoint (e : EndpointRef) : MS ChanEndpoint := s ← get; lift (endpoints s !! e).
Definition modEndpoint (e : EndpointRef) (f : ChanEndpoint -> ChanEndpoint) : MS unit :=
  v ← endpoint e; modify (fun s => set_endpoints (<[e := f v]> (endpoints s)) s).

Definition chanend (r : Ref) : MS Chanend := s ← get; lift (chanends s !! r).
Definition putChanend (r : Ref) (v : Chanend) : MS unit := modify (fun s => set_chanends (<[r := v]> (chanends s)) s).
Definition modChanend (r : Ref) (f : Chanend -> Chanend) : MS unit := v ← chanend r; putChanend r (f v).

Definition switch (n : nat) : MS SSwitch := s ← get; lift (switches s !! n).
Definition putSwitch (n : nat) (v : SSwitch) : MS unit := modify (fun s => set_switches (<[n := v]> (switches s)) s).

Definition core (c : CoreRef) : MS Core := s ← get; lift (sys_cores s !! c).
Definition putCore (c : CoreRef) (v : Core) : MS unit := modify (fun s => set_sys_cores (<[c := v]> (sys_cores s)) s).

(** The type of the node of a core. *)
Definition nodeType (c : CoreRef) : MS NodeType := s ← get; n ← lift (net s !! c.1); mret (type n).
End access.
