(* ===== verification/Events.v ===== *)
(** * Scheduling and events (lib/SystemState.h, lib/SystemState.cpp, lib/Resource.cpp)

    How the system schedules threads, how a resource that can raise events keeps track of the
    thread that owns it, and how an event is taken.  The operations that ask a resource whether
    its condition already holds are in [EventEnable]. *)

From Stdlib Require Import ZArith Lia.
From stdpp Require Import base list numbers option gmap.
From S2P Require Import Prelude Opcode InstrDecode DecodeCache Core.
From S2P Require Import Refs Resource Node RunnableQueue StateMonad Thread SysState.

#[local] Open Scope Z_scope.
#[local] Open Scope cbits_scope.

(** What the ports add to the handling of events: the part of [Port::completeEvent] that comes
    before that of the base class, and [Port::seeEventEnable], which itself raises events. *)
Class PortComplete (P : Type) := {
  port_completeEvent : EventableRef -> M (Sys P) unit
}.
Class PortEvents (P : Type) := {
  port_complete :: PortComplete P;
  port_seeEventEnable : EventableRef -> Z -> M (Sys P) bool
}.

Section events.
Context {P : Type} `{PortComplete P}.
Abbreviation MS := (M (Sys P)).

(** ** Threads in the system *)

(** [regs[r] = v] *)
Definition setReg (t : Ref) (r : Reg) (v : Z) : MS unit :=
  th ← thread t; l ← lift (array_set (Thread.regs th) (reg_index r) v);
  putThread t (Thread.set_regs l th).

Definition getReg (t : Ref) (r : Reg) : MS Z :=
  th ← thread t; lift (array_get (Thread.regs th) (reg_index r)).

Definition setSRBit (t : Ref) (bit : Z) (b : bool) : MS unit :=
  modThread t (fun th => set_sr (sr_set bit b (sr th)) th).

(** The decode cache of a thread. *)
Definition decodeCache (t : Ref) : MS CacheRef :=
  c ← core t.1; lift (array_get (threadCaches c) (Z.of_nat t.2)).

(** lib/Thread.h:270-272 Thread::fromPc *)
Definition thread_fromPc (t : Ref) (pc : Z) : MS Z :=
  k ← decodeCache t; mret (u32 ((pc .<< 1) + ref_base k)).

(** lib/Thread.h:274-276 Thread::toPc *)
Definition thread_toPc (t : Ref) (a : Z) : MS Z :=
  k ← decodeCache t; mret (u32 (a - ref_base k) .>> 1).

(** [t.writeRegister(r, v)] *)
Definition writeReg (t : Ref) (r : Z) (v : Z) : MS unit :=
  th ← thread t; th ← lift (writeRegister r v th); putThread t th.

(** lib/Thread.cpp:179-182 Thread::isExecuting *)
Definition isExecuting (t : Ref) : MS bool :=
  gets (fun s => bool_decide (currentRunnable s = Some (RThread t))).

(** ** SystemState *)

(** lib/SystemState.h:121-123 SystemState::scheduleOther *)
Definition scheduleOther (r : RunnableRef) (time : Z) : MS unit :=
  q ← gets scheduler; q ← lift (push q r time); modify (set_scheduler q).

(** lib/SystemState.h:106-110 SystemState::schedule *)
Definition schedule (t : Ref) : MS unit :=
  _ ← modThread t (fun th => set_pausedOn None (set_waiting false th));
  th ← thread t;
  scheduleOther (RThread t) (Thread.time th).

(** lib/SystemState.h:112-115 SystemState::deschedule *)
Definition deschedule (t : Ref) : MS unit :=
  q ← gets scheduler;
  c ← lift (RunnableQueue.contains q (RThread t));
  when c (q ← lift (RunnableQueue.remove q (RThread t)); modify (set_scheduler q)).

(** lib/SystemState.h:151-159 SystemState::setPendingEvent *)
Definition setPendingEvent (e : EventableRef) (time : Z) (interrupt : bool) : MS unit :=
  p ← gets pendingEvent;
  match p with
  | Some p => when (negb (pe_time p <=? time)) (modify (set_pendingEvent (Some (mkPending e interrupt time))))
  | None => modify (set_pendingEvent (Some (mkPending e interrupt time)))
  end.

(** lib/SystemState.h:161-163 SystemState::hasPendingEvent *)
Definition hasPendingEvent : MS bool := gets (fun s => bool_decide (is_Some (pendingEvent s))).

(** lib/Synchroniser.cpp:74-77 Synchroniser::cancel: the other resources inherit [Resource::cancel], which does nothing *)
Definition cancel (r : PausedOn) : MS unit :=
  match r with
  | OnSync r => modSync r (fun y => set_NumPaused (u32 (NumPaused y - 1)) y)
  | _ => mret tt
  end.

(** lib/Resource.cpp:140-149 EventableResource::getTruncatedEV *)
Definition getTruncatedEV (t : Ref) (e : EventableRef) : MS Z :=
  ev ← eventable e;
  if EV ev =? ID (ev_res ev) then mret (EV ev)
  else
    ty ← nodeType t.1;
    if bool_decide (ty = XS2_A) then mret (EV ev)
    else c ← core t.1; mret ((EV ev .& 0xffff) .| getRamBase c).

(** lib/Resource.cpp:106-110 EventableResource::completeEvent *)
Definition base_completeEvent (e : EventableRef) : MS unit :=
  ev ← eventable e; t ← lift (owner ev);
  v ← getTruncatedEV t e;
  _ ← writeReg t (reg_index ED) v;
  modThread t (set_pc (vector ev)).

Definition res_completeEvent (e : EventableRef) : MS unit :=
  match e with
  | EvPortRef _ _ _ => _ ← port_completeEvent e; base_completeEvent e
  | _ => base_completeEvent e
  end.

(** lib/SystemState.cpp:60-83 SystemState::completeEvent *)
Definition completeEvent (t : Ref) (e : EventableRef) (interrupt : bool) : MS unit :=
  _ ← (if interrupt then
         th ← thread t;
         _ ← setReg t SSR (sr th);
         spc ← thread_fromPc t (Thread.pc th);
         _ ← setReg t SPC spc;
         ed ← getReg t ED;
         _ ← setReg t SED ed;
         _ ← setSRBit t IEBLE false;
         _ ← setSRBit t ININT true;
         setSRBit t INK true
       else setSRBit t INENB false);
  _ ← setSRBit t EEBLE false;
  res_completeEvent e.

(** lib/SystemState.h:126-135 SystemState::takeEvent *)
Definition takeEvent (t : Ref) (e : EventableRef) (interrupt : bool) : MS unit :=
  th ← thread t;
  _ ← when (waiting th)
        (_ ← match pausedOn th with Some r => cancel r | None => mret tt end; schedule t);
  completeEvent t e interrupt.

(** lib/SystemState.h:141-148 SystemState::takeEvent: on the current thread *)
Definition takeEventCurrent (t : Ref) : MS unit :=
  p ← gets pendingEvent; p ← lift p;
  _ ← modThread t (fun th => Thread.set_time (Z.max (Thread.time th) (pe_time p)) th);
  _ ← setSRBit t WAITING false;
  _ ← completeEvent t (pe_res p) (pe_interrupt p);
  modify (set_pendingEvent None).

(** ** Owners of resources *)

(** lib/Thread.h:170-183 Thread::addEventEnabledResource: and addInterruptEnabledResource *)
Definition addEnabled (interrupt : bool) (t : Ref) (e : EventableRef) : MS unit :=
  modThread t (fun th =>
    if interrupt then set_interruptEnabledResources (e :: interruptEnabledResources th) th
    else set_eventEnabledResources (e :: eventEnabledResources th) th).

Definition enabledOf (interrupt : bool) (th : Thread) : list EventableRef :=
  if interrupt then interruptEnabledResources th else eventEnabledResources th.

(** lib/Thread.h:55-65 EventableResourceList::remove: unlinking a resource that is not in the list would corrupt it *)
Definition removeEnabled (interrupt : bool) (t : Ref) (e : EventableRef) : MS unit :=
  th ← thread t;
  _ ← require (bool_decide (e ∈ enabledOf interrupt th));
  putThread t
    (if interrupt then set_interruptEnabledResources (filter (.≠ e) (interruptEnabledResources th)) th
     else set_eventEnabledResources (filter (.≠ e) (eventEnabledResources th)) th).

(** lib/Resource.cpp:29-41 EventableResource::updateOwnerAux *)
Definition updateOwnerAux (e : EventableRef) (t : Ref) : MS unit :=
  ev ← eventable e;
  _ ← when (eventsEnabled ev)
        (o ← lift (owner ev);
         _ ← removeEnabled (interruptMode ev) o e; addEnabled (interruptMode ev) t e);
  modEventable e (set_owner (Some t)).

(** lib/Resource.h:290-295 EventableResource::updateOwner *)
Definition updateOwner (e : EventableRef) (t : Ref) : MS unit :=
  ev ← eventable e;
  if bool_decide (owner ev = Some t) then mret tt else updateOwnerAux e t.

(** lib/Resource.cpp:43-53 EventableResource::clearOwner *)
Definition clearOwner (e : EventableRef) : MS unit :=
  ev ← eventable e;
  _ ← when (eventsEnabled ev) (o ← lift (owner ev); removeEnabled (interruptMode ev) o e);
  modEventable e (set_owner None).

(** lib/Resource.cpp:55-59 EventableResource::setVector *)
Definition setVector (e : EventableRef) (t : Ref) (v : Z) : MS unit :=
  _ ← updateOwner e t; modEventable e (set_vector v).

(** lib/Resource.cpp:61-65 EventableResource::setEV *)
Definition setEV (e : EventableRef) (t : Ref) (v : Z) : MS unit :=
  _ ← updateOwner e t; modEventable e (set_EV v).

(** lib/Resource.cpp:87-92 EventableResource::eventsPermitted *)
Definition eventsPermitted (e : EventableRef) : MS bool :=
  ev ← eventable e;
  match owner ev with
  | None => mret false
  | Some t =>
      if negb (eventsEnabled ev) then mret false
      else th ← thread t; mret (Z.testbit (sr th) (if interruptMode ev then IEBLE else EEBLE))
  end.

(** lib/Resource.cpp:94-104 EventableResource::event *)
Definition event (e : EventableRef) (time : Z) : MS unit :=
  ok ← eventsPermitted e; _ ← require ok;
  ev ← eventable e; t ← lift (owner ev);
  exec ← isExecuting t;
  if exec : bool then setPendingEvent e time (interruptMode ev)
  else
    _ ← modThread t (Thread.set_time time);
    takeEvent t e (interruptMode ev).

(** lib/Resource.cpp:112-122 EventableResource::eventableSetInUseOn *)
Definition eventableSetInUseOn (e : EventableRef) (t : Ref) : MS unit :=
  ev ← eventable e;
  _ ← when (inUse (ev_res ev)) (clearOwner e);
  modEventable e (fun ev =>
    mkEventable (setInUse true (ev_res ev)) 0 (ID (ev_res ev)) false false (Some t)).

(** lib/Resource.cpp:124-130 EventableResource::eventableSetInUseOff *)
Definition eventableSetInUseOff (e : EventableRef) : MS unit :=
  ev ← eventable e;
  if negb (inUse (ev_res ev)) then mret tt
  else _ ← clearOwner e; modEventable e (fun ev => set_ev_res (setInUse false (ev_res ev)) ev).

(** lib/Resource.cpp:151-162 EventableResource::eventDisable *)
Definition eventDisable (e : EventableRef) (t : Ref) : MS unit :=
  ev ← eventable e;
  _ ← when (eventsEnabled ev) (o ← lift (owner ev); removeEnabled (interruptMode ev) o e);
  _ ← modEventable e (set_eventsEnabled false);
  updateOwner e t.

(** lib/Resource.cpp:189-192 EventableResource::scheduleUpdate *)
Definition scheduleUpdate (e : EventableRef) (time : Z) : MS unit :=
  ev ← eventable e; _ ← lift (owner ev); scheduleOther (REventable e) time.
End events.

(** What the rest relies on: what a port does before an event is completed is a change of the
    port itself. *)
Class PortEventsOk (P : Type) `{PortEvents P} := {
  port_completeEvent_local : forall e s, wlp (port_completeEvent e) (fun _ s' => s' = set_ports (ports s') s) s
}.
