(* ===== verification/SysFacts.v ===== *)
(** * Reasoning about the system state

    Rules for the elementary operations and for scheduling a thread. *)

From Stdlib Require Import ZArith Lia.
From stdpp Require Import base list numbers option gmap.
From S2P Require Import Prelude Opcode InstrDecode DecodeCache Core.
From S2P Require Import Refs Resource Node RunnableQueue SchedulerMap StateMonad Thread SysState Events.

#[local] Open Scope Z_scope.

Section facts.
Context {P : Type} `{PortEvents P}.
Implicit Types (s : Sys P) (w : gmap RunnableRef Z).

(** The scheduler of [s] holds the runnables of [w]; every thread and every eventable resource
    has its links. *)
Record scheduler_ok s w : Prop := {
  so_queue : schedules (scheduler s) w;
  so_thread : forall t, is_Some (threads s !! t) -> RThread t ∈ dom (heap (scheduler s));
  so_eventable : forall e, is_Some (eventables s !! e) -> REventable e ∈ dom (heap (scheduler s))
}.

Lemma wp_thread t th Q s : threads s !! t = Some th -> Q th s -> wp (thread t) Q s.
Proof. intros E HQ. unfold wp, thread, get, lift, mbind, M_bind. cbn. by rewrite E. Qed.
Lemma wp_putThread t th Q s : Q tt (set_threads (<[t := th]> (threads s)) s) -> wp (putThread t th) Q s.
Proof. done. Qed.
Lemma wp_modThread t f th Q s : threads s !! t = Some th ->
  Q tt (set_threads (<[t := f th]> (threads s)) s) -> wp (modThread t f) Q s.
Proof. intros E HQ. apply wp_bind. by apply (wp_thread t th). Qed.
Lemma wp_eventable e ev Q s : eventables s !! e = Some ev -> Q ev s -> wp (eventable e) Q s.
Proof. intros E HQ. unfold wp, eventable, get, lift, mbind, M_bind. cbn. by rewrite E. Qed.
Lemma wp_modEventable e f ev Q s : eventables s !! e = Some ev ->
  Q tt (set_eventables (<[e := f ev]> (eventables s)) s) -> wp (modEventable e f) Q s.
Proof. intros E HQ. apply wp_bind. by apply (wp_eventable e ev). Qed.
Lemma wp_timer r x Q s : timers s !! r = Some x -> Q x s -> wp (timer r) Q s.
Proof. intros E HQ. unfold wp, timer, get, lift, mbind, M_bind. cbn. by rewrite E. Qed.
Lemma wp_modTimer r f x Q s : timers s !! r = Some x ->
  Q tt (set_timers (<[r := f x]> (timers s)) s) -> wp (modTimer r f) Q s.
Proof. intros E HQ. apply wp_bind. by apply (wp_timer r x). Qed.
Lemma wp_lock r x Q s : locks s !! r = Some x -> Q x s -> wp (lock r) Q s.
Proof. intros E HQ. unfold wp, lock, get, lift, mbind, M_bind. cbn. by rewrite E. Qed.
Lemma wp_modLock r f x Q s : locks s !! r = Some x ->
  Q tt (set_locks (<[r := f x]> (locks s)) s) -> wp (modLock r f) Q s.
Proof. intros E HQ. apply wp_bind. by apply (wp_lock r x). Qed.
Lemma wp_synchroniser r x Q s : syncs s !! r = Some x -> Q x s -> wp (synchroniser r) Q s.
Proof. intros E HQ. unfold wp, synchroniser, get, lift, mbind, M_bind. cbn. by rewrite E. Qed.
Lemma wp_modSync r f x Q s : syncs s !! r = Some x ->
  Q tt (set_syncs (<[r := f x]> (syncs s)) s) -> wp (modSync r f) Q s.
Proof. intros E HQ. apply wp_bind. by apply (wp_synchroniser r x). Qed.
Lemma wp_chanend r x Q s : chanends s !! r = Some x -> Q x s -> wp (chanend r) Q s.
Proof. intros E HQ. unfold wp, chanend, get, lift, mbind, M_bind. cbn. by rewrite E. Qed.
Lemma wp_modChanend r f x Q s : chanends s !! r = Some x ->
  Q tt (set_chanends (<[r := f x]> (chanends s)) s) -> wp (modChanend r f) Q s.
Proof. intros E HQ. apply wp_bind. by apply (wp_chanend r x). Qed.
Lemma wp_endpoint e x Q s : endpoints s !! e = Some x -> Q x s -> wp (endpoint e) Q s.
Proof. intros E HQ. unfold wp, endpoint, get, lift, mbind, M_bind. cbn. by rewrite E. Qed.
Lemma wp_modEndpoint e f x Q s : endpoints s !! e = Some x ->
  Q tt (set_endpoints (<[e := f x]> (endpoints s)) s) -> wp (modEndpoint e f) Q s.
Proof. intros E HQ. apply wp_bind. by apply (wp_endpoint e x). Qed.
Lemma wp_core c x Q s : sys_cores s !! c = Some x -> Q x s -> wp (core c) Q s.
Proof. intros E HQ. unfold wp, core, get, lift, mbind, M_bind. cbn. by rewrite E. Qed.
Lemma wp_lift {A} (o : option A) a (Q : A -> Sys P -> Prop) s : o = Some a -> Q a s -> wp (lift o) Q s.
Proof. intros -> HQ. done. Qed.
Lemma wp_gets {A} (f : Sys P -> A) (Q : A -> Sys P -> Prop) s : Q (f s) s -> wp (gets f) Q s.
Proof. done. Qed.
Lemma wp_require b (Q : unit -> Sys P -> Prop) s : b = true -> Q tt s -> wp (require b) Q s.
Proof. by intros ->. Qed.

(** *** If the operation is defined *)

Lemma wlp_ret {A} (a : A) (Q : A -> Sys P -> Prop) s : Q a s -> wlp (mret a) Q s.
Proof. done. Qed.
Lemma wlp_undef {A} (Q : A -> Sys P -> Prop) s : wlp undef Q s.
Proof. done. Qed.
Lemma wlp_get (Q : Sys P -> Sys P -> Prop) s : Q s s -> wlp get Q s.
Proof. done. Qed.
Lemma wlp_gets {A} (f : Sys P -> A) (Q : A -> Sys P -> Prop) s : Q (f s) s -> wlp (gets f) Q s.
Proof. done. Qed.
Lemma wlp_modify f (Q : unit -> Sys P -> Prop) s : Q tt (f s) -> wlp (modify f) Q s.
Proof. done. Qed.
Lemma wlp_lift {A} (o : option A) (Q : A -> Sys P -> Prop) s : (forall a, o = Some a -> Q a s) -> wlp (lift o) Q s.
Proof. intros HQ. unfold wlp, lift. destruct o; [by apply HQ | done]. Qed.
Lemma wlp_require b (Q : unit -> Sys P -> Prop) s : (b = true -> Q tt s) -> wlp (require b) Q s.
Proof. intros HQ. destruct b; [by apply HQ | done]. Qed.
Lemma wlp_when b m (Q : unit -> Sys P -> Prop) s : (b = true -> wlp m Q s) -> (b = false -> Q tt s) -> wlp (when b m) Q s.
Proof. destruct b; cbn; intros H1 H2; [by apply H1 | by apply H2]. Qed.
Lemma wlp_thread t Q s : (forall th, threads s !! t = Some th -> Q th s) -> wlp (thread t) Q s.
Proof. intros HQ. apply wlp_bind, wlp_get, wlp_lift. done. Qed.
Lemma wlp_modThread t f Q s : (forall th, threads s !! t = Some th -> Q tt (set_threads (<[t := f th]> (threads s)) s)) ->
  wlp (modThread t f) Q s.
Proof. intros HQ. apply wlp_bind, wlp_thread. done. Qed.
Lemma wlp_eventable e Q s : (forall ev, eventables s !! e = Some ev -> Q ev s) -> wlp (eventable e) Q s.
Proof. intros HQ. apply wlp_bind, wlp_get, wlp_lift. done. Qed.
Lemma wlp_modEventable e f Q s : (forall ev, eventables s !! e = Some ev -> Q tt (set_eventables (<[e := f ev]> (eventables s)) s)) ->
  wlp (modEventable e f) Q s.
Proof. intros HQ. apply wlp_bind, wlp_eventable. done. Qed.
Lemma wlp_chanend r Q s : (forall c, chanends s !! r = Some c -> Q c s) -> wlp (chanend r) Q s.
Proof. intros HQ. apply wlp_bind, wlp_get, wlp_lift. done. Qed.
Lemma wlp_modChanend r f Q s : (forall c, chanends s !! r = Some c -> Q tt (set_chanends (<[r := f c]> (chanends s)) s)) ->
  wlp (modChanend r f) Q s.
Proof. intros HQ. apply wlp_bind, wlp_chanend. done. Qed.
Lemma wlp_endpoint e Q s : (forall x, endpoints s !! e = Some x -> Q x s) -> wlp (endpoint e) Q s.
Proof. intros HQ. apply wlp_bind, wlp_get, wlp_lift. done. Qed.
Lemma wlp_modEndpoint e f Q s : (forall x, endpoints s !! e = Some x -> Q tt (set_endpoints (<[e := f x]> (endpoints s)) s)) ->
  wlp (modEndpoint e f) Q s.
Proof. intros HQ. apply wlp_bind, wlp_endpoint. done. Qed.
Lemma wlp_switch n Q s : (forall x, switches s !! n = Some x -> Q x s) -> wlp (switch n) Q s.
Proof. intros HQ. apply wlp_bind, wlp_get, wlp_lift. done. Qed.

(** *** Fields that an operation does not touch *)

(** The projections [f] of the state keep their values. *)
Definition frames {B} (f : Sys P -> B) {A} (m : M (Sys P) A) : Prop := forall s, wlp m (fun _ s' => f s' = f s) s.

Lemma frames_keeps {B} (f : Sys P -> B) {A} (m : M (Sys P) A) v : frames f m -> keeps (fun s => f s = v) m.
Proof. intros Hf s <-. apply Hf. Qed.
Lemma keeps_frames {B} (f : Sys P -> B) {A} (m : M (Sys P) A) : (forall v, keeps (fun s => f s = v) m) -> frames f m.
Proof. intros Hf s. by apply Hf. Qed.

(** What [schedule] does to the thread itself. *)
Definition awake (th : Thread) : Thread := set_pausedOn None (set_waiting false th).

Lemma wp_scheduleOther x time w Q s : scheduler_ok s w -> x ∈ dom (heap (scheduler s)) ->
  (forall q, scheduler_ok (set_scheduler q s) (<[x := time]> w) -> Q tt (set_scheduler q s)) ->
  wp (scheduleOther x time) Q s.
Proof.
  intros [Hq Ht He] Hx HQ. destruct (schedules_push _ _ x time Hq Hx) as (q & E & Hq' & Hd).
  unfold scheduleOther. apply wp_bind, wp_gets, wp_bind, (wp_lift _ q); [done |].
  apply (HQ q). by split; cbn; rewrite ?Hd.
Qed.

Lemma wp_schedule t th w Q s : scheduler_ok s w -> threads s !! t = Some th ->
  (forall q, let s' := set_scheduler q (set_threads (<[t := awake th]> (threads s)) s) in
     scheduler_ok s' (<[RThread t := Thread.time th]> w) -> Q tt s') ->
  wp (schedule t) Q s.
Proof.
  intros O Et HQ. unfold schedule. apply wp_bind, (wp_modThread _ _ th); [done |].
  apply wp_bind, (wp_thread _ (awake th)); [apply lookup_insert_eq |].
  apply (wp_scheduleOther _ _ w); cbn.
  - destruct O as [Hq Ht He]. split; cbn; [done | | done]. intros t' Ht'. apply Ht.
    destruct (decide (t = t')) as [<-|]; [by rewrite Et | by rewrite lookup_insert_ne in Ht'].
  - apply O. by rewrite Et.
  - intros q Hq. by apply HQ.
Qed.

(** Only the threads and the scheduler change. *)
Definition rest_same s s' : Prop := s' = set_scheduler (scheduler s') (set_threads (threads s') s).

Lemma rest_same_refl s : rest_same s s.
Proof. by destruct s. Qed.
Lemma rest_same_trans s1 s2 s3 : rest_same s1 s2 -> rest_same s2 s3 -> rest_same s1 s3.
Proof. unfold rest_same. intros -> ->. done. Qed.
Lemma rest_same_threads s m : rest_same s (set_threads m s).
Proof. by destruct s. Qed.
Lemma rest_same_both s m q : rest_same s (set_scheduler q (set_threads m s)).
Proof. by destruct s. Qed.

Lemma scheduler_ok_threads s m w : dom m = dom (threads s) -> scheduler_ok s w -> scheduler_ok (set_threads m s) w.
Proof.
  intros Hd [Hq Ht He]. split; [done | | done]. cbn. intros t Hi%elem_of_dom.
  apply Ht, elem_of_dom. by rewrite <- Hd.
Qed.
End facts.

#[export] Hint Resolve rest_same_refl rest_same_threads rest_same_both : axe.

(** ** Small systems for examples *)

(** A system without ports. *)
#[export] Instance noPorts : PortEvents unit :=
  {| port_complete := {| port_completeEvent _ := undef |}; port_seeEventEnable _ _ := undef |}.

#[export] Instance noPortsOk : PortEventsOk unit.
Proof. split. done. Qed.

Definition idleQueue (l : list RunnableRef) : RunnableQueue :=
  mkQueue None (gset_to_gmap (mkRunnable None None 0) (list_to_set l)).

Lemma idleQueue_schedules l : schedules (idleQueue l) ∅.
Proof.
  exists []. split; [split; cbn; [done | constructor | done |] |].
  - intros x r E _. apply lookup_gset_to_gmap_Some in E as [_ <-]. done.
  - split; [constructor |]. intros x. rewrite decide_False; [apply lookup_empty | apply not_elem_of_nil].
Qed.

Lemma idleQueue_dom l x : x ∈ l -> x ∈ dom (heap (idleQueue l)).
Proof. intros Hx. cbn. rewrite dom_gset_to_gmap. by apply elem_of_list_to_set. Qed.

Definition exampleThread (num time pc : Z) : Thread :=
  mkThread (mkResource true (threadID num)) false None [] [] false (replicate 23 0)
    (replicate 23 0) false pc time 0 0 None 1.

Definition exampleSys (ts : list (Ref * Thread)) (es : list (EventableRef * EventableResource))
    (tms : list (Ref * Timer)) (lks : list (Ref * Lock)) (sys : list (Ref * Synchroniser)) : Sys unit :=
  mkSys [] ∅ (mkState [] [] [] None 0 0 false) (list_to_map ts) (list_to_map es) (list_to_map tms)
    (list_to_map lks) (list_to_map sys) ∅ ∅ ∅
    (idleQueue (((fun x => RThread x.1) <$> ts) ++ ((fun x => REventable x.1) <$> es))) None None tt.

Lemma exampleSys_ok ts es tms lks sys : scheduler_ok (exampleSys ts es tms lks sys) ∅.
Proof.
  split; [apply idleQueue_schedules | |]; cbn [scheduler threads eventables exampleSys].
  - intros t [th Ht]. apply idleQueue_dom, elem_of_app. left. apply list_elem_of_fmap.
    exists (t, th). split; [done |]. by apply elem_of_list_to_map_2.
  - intros e [ev He]. apply idleQueue_dom, elem_of_app. right. apply list_elem_of_fmap.
    exists (e, ev). split; [done |]. by apply elem_of_list_to_map_2.
Qed.
