(* ===== verification/Timer.v ===== *)
(** * Timers (lib/Timer.h, lib/Timer.cpp)

    A timer counts ticks of four processor cycles.  A thread that inputs from a timer whose
    condition is not met waits until the system runs the timer at the time the condition
    becomes true, then executes its input again. *)

From Stdlib Require Import ZArith Lia.
From stdpp Require Import base list numbers option gmap.
From S2P Require Import Prelude Signed Opcode.
From S2P Require Import Refs Resource RunnableQueue SchedulerMap StateMonad Thread SysState Events SysFacts.

#[local] Open Scope Z_scope.

(** lib/Config.h.in:55-55 CYCLES_PER_TICK *)
Definition CYCLES_PER_TICK : Z := 4.

(** The value of an [int] expression: a result out of range is undefined. *)
Definition int_result (x : Z) : option Z := if (- 2 ^ 31 <=? x) && (x <? 2 ^ 31) then Some x else None.

(** lib/Timer.cpp:11-16 Timer::conditionMet *)
Definition conditionMet (r : Timer) (time : Z) : option bool :=
  if negb (after r) then Some true
  else d ← int_result (s32 (time / CYCLES_PER_TICK) - s32 (data r)); Some (0 <? d).

(** lib/Timer.cpp:62-68 Timer::getEarliestReadyTime *)
Definition getEarliestReadyTime (r : Timer) (time : Z) : option Z :=
  met ← conditionMet r time;
  if met : bool then Some time
  else
    wait ← int_result (s32 (u32 (data r + 1)) - s32 (time / CYCLES_PER_TICK));
    w ← int_result (wait * CYCLES_PER_TICK);
    Some (u64 (time + w)).

Section timers.
Context {P : Type} `{PortEvents P}.
Abbreviation MS := (M (Sys P)).

(** lib/Timer.h:27-34 Timer::alloc *)
Definition timer_alloc (r : Ref) (t : Ref) : MS unit :=
  ev ← eventable (TimerRef r); _ ← require (negb (inUse (ev_res ev)));
  _ ← modTimer r (fun x => set_data 0 (set_after false x));
  eventableSetInUseOn (TimerRef r) t.

(** lib/Timer.h:36-40 Timer::free *)
Definition timer_free (r : Ref) : MS bool := _ ← eventableSetInUseOff (TimerRef r); mret true.

(** lib/Timer.cpp:18-32 Timer::setCondition *)
Definition timer_setCondition (r t : Ref) (c : Condition) : MS bool :=
  _ ← updateOwner (TimerRef r) t;
  match c with
  | COND_FULL => _ ← modTimer r (set_after false); mret true
  | COND_AFTER => _ ← modTimer r (set_after true); mret true
  | _ => mret false
  end.

(** lib/Timer.cpp:34-40 Timer::setData *)
Definition timer_setData (r t : Ref) (d : Z) : MS bool :=
  _ ← updateOwner (TimerRef r) t; _ ← modTimer r (set_data d); mret true.

(** lib/Timer.cpp:42-47 Timer::getData *)
Definition timer_getData (r t : Ref) : MS Z :=
  _ ← updateOwner (TimerRef r) t; x ← timer r; mret (data x).

(** lib/Timer.cpp:50-60 Timer::in: [None] when the thread is descheduled *)
Definition timer_in (r t : Ref) (time : Z) : MS (option Z) :=
  _ ← updateOwner (TimerRef r) t;
  x ← timer r;
  met ← lift (conditionMet x time);
  if negb met then
    _ ← modTimer r (set_timer_pausedIn (Some t));
    ready ← lift (getEarliestReadyTime x time);
    _ ← scheduleUpdate (TimerRef r) ready;
    mret None
  else mret (Some (u32 (time / CYCLES_PER_TICK))).

(** lib/Timer.cpp:70-82 Timer::run *)
Definition timer_run (r : Ref) (time : Z) : MS unit :=
  x ← timer r;
  met ← lift (conditionMet x time);
  if negb met then mret tt
  else
    ok ← eventsPermitted (TimerRef r);
    _ ← when ok (event (TimerRef r) time);
    match timer_pausedIn x with
    | Some t =>
        _ ← modThread t (Thread.set_time time);
        _ ← schedule t;
        modTimer r (set_timer_pausedIn None)
    | None => mret tt
    end.

(** lib/Timer.cpp:84-92 Timer::seeEventEnable *)
Definition timer_seeEventEnable (r : Ref) (time : Z) : MS bool :=
  x ← timer r;
  met ← lift (conditionMet x time);
  if met : bool then _ ← event (TimerRef r) time; mret true
  else
    ready ← lift (getEarliestReadyTime x time);
    _ ← scheduleUpdate (TimerRef r) ready; mret false.
End timers.

(** ** When a timer becomes ready *)

Lemma int_result_Some x : - 2 ^ 31 <= x < 2 ^ 31 -> int_result x = Some x.
Proof. intros [H1%Z.leb_le H2%Z.ltb_lt]. unfold int_result. by rewrite H1, H2. Qed.
Lemma int_result_None x : 2 ^ 31 <= x \/ x < - 2 ^ 31 -> int_result x = None.
Proof.
  intros Hx. unfold int_result. destruct (Z.leb_spec (- 2 ^ 31) x), (Z.ltb_spec x (2 ^ 31)); try done; lia.
Qed.

(** The number of whole ticks until the timer's count is its data. *)
Definition ticks_left (r : Timer) (time : Z) : Z := s32 (data r) - s32 (time / CYCLES_PER_TICK).

Lemma conditionMet_later r time n : after r = true -> 0 <= time -> 0 <= n <= 2 ^ 31 - 1 ->
  0 <= ticks_left r time -> n <= ticks_left r time + 1 -> ticks_left r time < 2 ^ 31 ->
  s32 (data r) <> 2 ^ 31 - 1 \/ n <= ticks_left r time -> forall t,
  t / CYCLES_PER_TICK = time / CYCLES_PER_TICK + n ->
  conditionMet r t = Some (ticks_left r time <? n).
Proof.
  unfold ticks_left. intros Ha Ht Hn Hk Hle Hlt Hd t Et. unfold conditionMet. rewrite Ha, Et. cbn [negb].
  pose proof (signed_range 32 (data r) ltac:(lia)) as Rd.
  pose proof (signed_range 32 (time / CYCLES_PER_TICK) ltac:(lia)) as Rt.
  change (2 ^ (32 - 1)) with (2 ^ 31) in *.
  rewrite (signed_add 32) by (change (2 ^ (32 - 1)) with (2 ^ 31); lia).
  rewrite int_result_Some by lia. cbn. f_equal.
  destruct (Z.ltb_spec 0 (s32 (time / CYCLES_PER_TICK) + n - s32 (data r))),
    (Z.ltb_spec (s32 (data r) - s32 (time / CYCLES_PER_TICK)) n); lia.
Qed.

Lemma ticks_div time n : (time + 4 * n) / CYCLES_PER_TICK = time / CYCLES_PER_TICK + n.
Proof. unfold CYCLES_PER_TICK. replace (time + 4 * n) with (time + n * 4) by lia. apply Z.div_add. lia. Qed.

Lemma getEarliestReadyTime_Some r time : after r = true -> is_u32 (data r) -> data r <> 2 ^ 31 - 1 ->
  0 <= time < 2 ^ 64 - 2 ^ 31 -> 0 <= ticks_left r time -> ticks_left r time + 1 < 2 ^ 29 ->
  getEarliestReadyTime r time = Some (time + 4 * (ticks_left r time + 1)).
Proof.
  intros Ha Hd Hne Ht H0 H1. unfold getEarliestReadyTime.
  pose proof (signed_range 32 (data r) ltac:(lia)) as Rd. change (2 ^ (32 - 1)) with (2 ^ 31) in *.
  assert (s32 (data r) <> 2 ^ 31 - 1) as Hs.
  { destruct (signed_cases 32 (data r) ltac:(lia) Hd) as [[? ->]|[? ->]]; [done |]. unfold fits in Hd. lia. }
  rewrite (conditionMet_later r time 0 Ha) by (lia || (rewrite Z.add_0_r; done)).
  rewrite (proj2 (Z.ltb_ge _ _)) by lia. cbn [mbind option_bind].
  rewrite (signed_wrap 32), (signed_add 32) by (change (2 ^ (32 - 1)) with (2 ^ 31); lia).
  replace (s32 (data r) + 1 - s32 (time / CYCLES_PER_TICK)) with (ticks_left r time + 1) by (unfold ticks_left; lia).
  rewrite int_result_Some by lia. cbn [mbind option_bind].
  rewrite int_result_Some by (unfold CYCLES_PER_TICK; lia). cbn [mbind option_bind].
  f_equal. unfold CYCLES_PER_TICK. rewrite (wrap_small 64) by (unfold fits; lia). lia.
Qed.

Lemma getEarliestReadyTime_None r time : after r = true -> is_u32 (data r) -> 0 <= time ->
  0 <= ticks_left r time < 2 ^ 31 -> 2 ^ 29 <= ticks_left r time + 1 \/ data r = 2 ^ 31 - 1 ->
  getEarliestReadyTime r time = None.
Proof.
  intros Ha Hd Ht [H0 H1] Hc. unfold getEarliestReadyTime.
  pose proof (signed_range 32 (time / CYCLES_PER_TICK) ltac:(lia)) as Rt.
  pose proof (signed_range 32 (data r) ltac:(lia)) as Rd. change (2 ^ (32 - 1)) with (2 ^ 31) in *.
  rewrite (conditionMet_later r time 0 Ha) by (lia || (rewrite Z.add_0_r; done)).
  rewrite (proj2 (Z.ltb_ge _ _)) by lia. cbn [mbind option_bind].
  rewrite (signed_wrap 32) by lia. unfold ticks_left in *.
  destruct (decide (data r = 2 ^ 31 - 1)) as [Ed|Ed].
  - rewrite Ed in *. change (s32 (2 ^ 31 - 1 + 1)) with (- 2 ^ 31). change (s32 (2 ^ 31 - 1)) with (2 ^ 31 - 1) in *.
    destruct (decide (s32 (time / CYCLES_PER_TICK) = 0)) as [->|]; [done |].
    rewrite int_result_None by lia. done.
  - assert (s32 (data r) <> 2 ^ 31 - 1) as Hs.
    { destruct (signed_cases 32 (data r) ltac:(lia) Hd) as [[? ->]|[? ->]]; [done |]. unfold fits in Hd. lia. }
    rewrite (signed_add 32) by (change (2 ^ (32 - 1)) with (2 ^ 31); lia).
    destruct (decide (s32 (data r) + 1 - s32 (time / CYCLES_PER_TICK) < 2 ^ 31)).
    + rewrite int_result_Some by lia. cbn [mbind option_bind].
      rewrite int_result_None by (unfold CYCLES_PER_TICK in *; lia). done.
    + rewrite int_result_None by lia. done.
Qed.

Section wait.
Context {P : Type} `{PortEvents P}.
Implicit Types (s : Sys P) (w : gmap RunnableRef Z).

(** With events off on the timer, changing its owner is only that. *)
Lemma wp_updateOwner_off e t ev Q s : eventables s !! e = Some ev -> eventsEnabled ev = false ->
  (forall ev' s', s' = set_eventables (<[e := ev']> (eventables s)) s -> owner ev' = Some t ->
     eventsEnabled ev' = false -> Q tt s') ->
  wp (updateOwner e t) Q s.
Proof.
  intros He Hoff HQ. unfold updateOwner. apply wp_bind, (wp_eventable _ ev); [done |].
  destruct (bool_decide_reflect (owner ev = Some t)) as [Ho|Ho].
  - apply wp_ret. apply (HQ ev); [rewrite insert_id by done; by destruct s | done | done].
  - unfold updateOwnerAux. apply wp_bind, (wp_eventable _ ev); [done |]. rewrite Hoff. apply wp_bind, wp_ret.
    apply (wp_modEventable _ _ ev); [done |]. by eapply HQ.
Qed.

Lemma scheduler_ok_eventable s w e ev : is_Some (eventables s !! e) -> scheduler_ok s w ->
  scheduler_ok (set_eventables (<[e := ev]> (eventables s)) s) w.
Proof.
  intros Hs [Hq Ht He]. split; [done | done |]. cbn. intros e' Hi. apply He.
  destruct (decide (e = e')) as [<-|]; [done | by rewrite lookup_insert_ne in Hi].
Qed.

(** A thread starts to wait for the timer. *)
Lemma timer_in_waits r t time x ev s w : timers s !! r = Some x -> eventables s !! TimerRef r = Some ev ->
  eventsEnabled ev = false -> scheduler_ok s w -> after x = true -> is_u32 (data x) -> data x <> 2 ^ 31 - 1 ->
  0 <= time < 2 ^ 64 - 2 ^ 31 -> 0 <= ticks_left x time -> ticks_left x time + 1 < 2 ^ 29 ->
  let ready := time + 4 * (ticks_left x time + 1) in
  wp (timer_in r t time) (fun v s1 => v = None /\
    timers s1 !! r = Some (set_timer_pausedIn (Some t) x) /\ threads s1 = threads s /\
    (exists ev1, eventables s1 !! TimerRef r = Some ev1 /\ owner ev1 = Some t /\ eventsEnabled ev1 = false) /\
    scheduler_ok s1 (<[REventable (TimerRef r) := ready]> w)) s.
Proof.
  intros Hx He Hoff O Ha Hd Hne Ht H0 H1 ready. unfold timer_in. apply wp_bind.
  eapply wp_updateOwner_off; [done | done |]. intros ev' s' -> Ho Hoff'.
  apply wp_bind, (wp_timer _ x); [done |]. apply wp_bind.
  apply (wp_lift _ false).
  { rewrite (conditionMet_later x time 0 Ha) by (lia || (rewrite Z.add_0_r; done)).
    by rewrite (proj2 (Z.ltb_ge _ _)) by lia. }
  cbn [negb]. apply wp_bind, (wp_modTimer _ _ x); [done |].
  apply wp_bind. eapply wp_lift; [by apply getEarliestReadyTime_Some |]. fold ready.
  apply wp_bind. unfold scheduleUpdate. apply wp_bind, (wp_eventable _ ev'); [apply lookup_insert_eq |].
  apply wp_bind. rewrite Ho. eapply wp_lift; [done |].
  assert (scheduler_ok (set_eventables (<[TimerRef r := ev']> (eventables s)) s) w) as O1
    by (apply scheduler_ok_eventable; [by rewrite He | done]).
  eapply wp_scheduleOther with (w := w).
  - destruct O1 as [A B C]. by split.
  - cbn. apply O. by rewrite He.
  - intros q Oq. apply wp_ret. cbn. rewrite !lookup_insert_eq. split_and!; try done. eauto.
Qed.

(** The system runs the timer: the waiting thread is scheduled. *)
Lemma timer_run_wakes r t time x ev th s w : timers s !! r = Some x -> eventables s !! TimerRef r = Some ev ->
  eventsEnabled ev = false -> scheduler_ok s w -> timer_pausedIn x = Some t -> threads s !! t = Some th ->
  conditionMet x time = Some true ->
  wp (timer_run r time) (fun _ s1 => timers s1 !! r = Some (set_timer_pausedIn None x) /\
    threads s1 = <[t := awake (Thread.set_time time th)]> (threads s) /\ eventables s1 = eventables s /\
    scheduler_ok s1 (<[RThread t := time]> w)) s.
Proof.
  intros Hx He Hoff O Hp Hth Hc. unfold timer_run. apply wp_bind, (wp_timer _ x); [done |].
  apply wp_bind, (wp_lift _ true); [done |]. cbn [negb].
  apply wp_bind. unfold eventsPermitted. apply wp_bind, (wp_eventable _ ev); [done |].
  rewrite Hoff. cbn [negb].
  assert (forall Q : bool -> Sys P -> Prop, Q false s ->
    wp match owner ev with None => mret false | Some _ => mret false end Q s) as Hw by (by intros; destruct (owner ev)).
  apply Hw. clear Hw. cbn [when]. apply wp_bind, wp_ret. rewrite Hp.
  apply wp_bind, (wp_modThread _ _ th); [done |].
  apply wp_bind. eapply wp_schedule with (w := w).
  - apply scheduler_ok_threads; [apply dom_insert_lookup_L; by eexists | done].
  - apply lookup_insert_eq.
  - intros q s1 O1. unfold s1 in *. clear s1. cbn in *. rewrite insert_insert_eq in *.
    apply (wp_modTimer _ _ x); [done |]. cbn. rewrite lookup_insert_eq. split_and!; try done.
    destruct O1 as [A B C]. by split.
Qed.

Lemma timer_in_ready r t time x ev s : timers s !! r = Some x -> eventables s !! TimerRef r = Some ev ->
  eventsEnabled ev = false -> conditionMet x time = Some true ->
  wp (timer_in r t time) (fun v _ => v = Some (u32 (time / CYCLES_PER_TICK))) s.
Proof.
  intros Hx He Hoff Hc. unfold timer_in. apply wp_bind. eapply wp_updateOwner_off; [done | done |].
  intros ev' s' -> _ _. apply wp_bind, (wp_timer _ x); [done |]. apply wp_bind, (wp_lift _ true); [done |].
  by apply wp_ret.
Qed.

(** C14: Waiting for a timer.  A thread inputs from a timer set to a count at most 2^29 - 2 ticks
    ahead (and not [0x7fffffff]), with events off.  It is descheduled and the timer put in the
    scheduler's queue for a time at which the count is just past the data, and before whose tick
    it is not; when the timer runs at that time the thread is scheduled at that time, and its
    input, executed again, gives the data plus one.  For a count further ahead, or for the data
    [0x7fffffff], the computation of that time overflows an [int]. *)
Theorem timer_wait (r t : Ref) (time : Z) (x : Timer) ev th s w :
  timers s !! r = Some x -> eventables s !! TimerRef r = Some ev -> eventsEnabled ev = false ->
  scheduler_ok s w -> threads s !! t = Some th -> after x = true -> is_u32 (data x) ->
  0 <= time < 2 ^ 64 - 2 ^ 31 -> 0 <= ticks_left x time < 2 ^ 31 ->
  let ready := time + 4 * (ticks_left x time + 1) in
  (ticks_left x time + 1 < 2 ^ 29 -> data x <> 2 ^ 31 - 1 ->
    (forall u, time <= u -> u / CYCLES_PER_TICK < ready / CYCLES_PER_TICK -> conditionMet x u = Some false) /\
    wp (timer_in r t time) (fun v s1 => v = None /\
      scheduler_ok s1 (<[REventable (TimerRef r) := ready]> w) /\
      wp (timer_run r ready) (fun _ s2 =>
        threads s2 !! t = Some (awake (Thread.set_time ready th)) /\
        scheduler_ok s2 (<[RThread t := ready]> (<[REventable (TimerRef r) := ready]> w)) /\
        wp (timer_in r t ready) (fun v _ => v = Some (u32 (data x + 1))) s2) s1) s) /\
  (2 ^ 29 <= ticks_left x time + 1 \/ data x = 2 ^ 31 - 1 -> wp (timer_in r t time) (fun _ _ => True) s -> False).
Proof.
  intros Hx He Hoff O Hth Ha Hd Ht [H0 H2] ready.
  assert (forall n, (time + 4 * n) / CYCLES_PER_TICK = time / CYCLES_PER_TICK + n) as Hdiv by apply ticks_div.
  split.
  - intros H1 Hne.
    assert (s32 (data x) <> 2 ^ 31 - 1) as Hs.
    { destruct (signed_cases 32 (data x) ltac:(lia) Hd) as [[? ->]|[? ->]]; [done |]. unfold fits in Hd. lia. }
    assert (conditionMet x ready = Some true) as Hready.
    { rewrite (conditionMet_later x time (ticks_left x time + 1) Ha) by (lia || apply Hdiv || by left).
      by rewrite (proj2 (Z.ltb_lt _ _)) by lia. }
    split.
    { intros u Hu1 Hu2. unfold ready in Hu2. rewrite Hdiv in Hu2.
      assert (time / CYCLES_PER_TICK <= u / CYCLES_PER_TICK) by (apply Z.div_le_mono; [done | lia]).
      rewrite (conditionMet_later x time (u / CYCLES_PER_TICK - time / CYCLES_PER_TICK) Ha) by lia.
      by rewrite (proj2 (Z.ltb_ge _ _)) by lia. }
    eapply wp_mono; [by apply (timer_in_waits r t time x ev s w) |]. cbn.
    intros v s1 (-> & Hx1 & Et1 & (ev1 & He1 & _ & Hoff1) & O1). split; [done |]. split; [done |].
    eapply wp_mono; [eapply (timer_run_wakes r t ready _ ev1 th); try done; by rewrite ?Et1 |]. cbn.
    intros _ s2 (Hx2 & Et2 & Ee2 & O2). rewrite Et2, lookup_insert_eq. split; [done |]. split; [done |].
    eapply wp_mono; [eapply (timer_in_ready r t ready _ ev1); try done; by rewrite Ee2 |]. cbn.
    intros v _ ->. f_equal. unfold ready. rewrite Hdiv.
    transitivity (u32 (s32 (data x) + 1)).
    + unfold ticks_left. replace (time / CYCLES_PER_TICK + (s32 (data x) - s32 (time / CYCLES_PER_TICK) + 1))
        with (s32 (data x) + 1 + (time / CYCLES_PER_TICK - s32 (time / CYCLES_PER_TICK))) by lia.
      unfold wrap. rewrite Zplus_mod, (Zminus_mod (time / _)), signed_mod, Z.sub_diag, Z.add_0_r, Z.mod_mod by lia. done.
    + unfold wrap. rewrite Zplus_mod, signed_mod, <- Zplus_mod by lia. done.
  - intros Hc Hw. unfold timer_in in Hw. apply wp_bind, wp_elim in Hw as (s1 & [] & E & Hw).
    assert (timers s1 = timers s) as Et.
    { assert (wp (updateOwner (TimerRef r) t) (fun _ s' => timers s' = timers s) s) as Hu
        by (eapply wp_updateOwner_off; [done | done |]; by intros ? ? -> _ _).
      unfold wp in Hu. by rewrite E in Hu. }
    unfold wp, timer, get, lift, mbind, M_bind in Hw. cbn in Hw. rewrite Et, Hx in Hw. cbn in Hw.
    rewrite (conditionMet_later x time 0 Ha) in Hw by (lia || (rewrite Z.add_0_r; done)).
    rewrite (proj2 (Z.ltb_ge _ _)) in Hw by lia. cbn in Hw. rewrite ?Et, ?Hx in Hw. cbn in Hw.
    rewrite (getEarliestReadyTime_None x time) in Hw by (done || lia).
    by destruct (modTimer _ _ s1) as [[? ?]|].
Qed.
End wait.

(** A timer set for the count 10, read at the time 8. *)
#[local] Definition exampleTimer : Timer := mkTimer true 10 None.
#[local] Definition exampleTimerSys : Sys unit :=
  exampleSys [((0, 0, 0)%nat, exampleThread 0 8 10)]
    [(TimerRef (0, 0, 0)%nat, mkEventable (mkResource true (timerID 0)) 0 0 false false (Some (0, 0, 0)%nat))]
    [((0, 0, 0)%nat, exampleTimer)] [] [].
Lemma timer_wait_witness :
  wp (timer_in (0, 0, 0)%nat (0, 0, 0)%nat 8) (fun v s1 => v = None /\
    wp (timer_run (0, 0, 0)%nat 44) (fun _ s2 =>
      wp (timer_in (0, 0, 0)%nat (0, 0, 0)%nat 44) (fun v _ => v = Some 11) s2) s1) exampleTimerSys.
Proof.
  edestruct (timer_wait (0, 0, 0)%nat (0, 0, 0)%nat 8 exampleTimer
    (mkEventable (mkResource true (timerID 0)) 0 0 false false (Some (0, 0, 0)%nat)) (exampleThread 0 8 10)
    exampleTimerSys ∅) as [Hin _]; try reflexivity.
  - apply exampleSys_ok.
  - split; [discriminate | reflexivity].
  - split; [discriminate | reflexivity].
  - split; [discriminate | reflexivity].
  - destruct Hin as [_ Hin]; [reflexivity | discriminate |].
    eapply wp_mono; [exact Hin |]. cbn beta. intros v s1 (-> & _ & Hr). split; [reflexivity |].
    eapply wp_mono; [exact Hr |]. cbn beta. intros _ s2 (_ & _ & Hi). exact Hi.
Defined.
