(* ===== verification/Sync.v ===== *)
(** * Synchronisers and locks (lib/Synchroniser.h, lib/Synchroniser.cpp, lib/Lock.h, lib/Lock.cpp)

    A synchroniser is a barrier for a master thread and the threads it has created; a lock is
    held by one thread, the threads that wait for it are served in order. *)

From Stdlib Require Import ZArith Lia.
From stdpp Require Import base list numbers option gmap.
From S2P Require Import Prelude Opcode DecodeCache Core.
From S2P Require Import Refs Resource RunnableQueue SchedulerMap StateMonad Thread SysState Events SysFacts.

#[local] Open Scope Z_scope.

Section sync.
Context {P : Type} `{PortEvents P}.
Abbreviation MS := (M (Sys P)).

(** ** Synchronisers *)

(** lib/Synchroniser.h:36-45 Synchroniser::alloc *)
Definition sync_alloc (r master : Ref) : MS unit :=
  y ← synchroniser r; _ ← require (negb (inUse (sync_res y)));
  l ← lift (array_set (sync_threads y) 0 master);
  putSync r (mkSynchroniser (setInUse true (sync_res y)) 1 l 0 false).

(** lib/Synchroniser.h:47-52 Synchroniser::addChild *)
Definition addChild (r t : Ref) : MS unit :=
  y ← synchroniser r;
  _ ← require (NumThreads y + 1 <=? Z.of_nat NUM_THREADS);
  l ← lift (array_set (sync_threads y) (NumThreads y) t);
  putSync r (mkSynchroniser (sync_res y) (u32 (NumThreads y + 1)) l (u32 (NumPaused y + 1)) (join y)).

(** lib/Synchroniser.h:54-58 Synchroniser::free *)
Definition sync_free (r : Ref) : MS bool :=
  _ ← modSync r (fun y => set_sync_res (setInUse false (sync_res y)) y); mret true.

(** The threads of a synchroniser, the master first. *)
Definition members (y : Synchroniser) : option (list Ref) :=
  mapM (array_get (sync_threads y)) (seqZ 0 (NumThreads y)).

(** lib/Synchroniser.h:70-73 Synchroniser::master *)
Definition master (y : Synchroniser) : option Ref := array_get (sync_threads y) 0.

(** The loop of MaxThreadTime. *)
Fixpoint maxTime (time : Z) (l : list Ref) : MS Z :=
  match l with
  | [] => mret time
  | t :: l =>
      th ← thread t;
      maxTime (if time <? Thread.time th then Thread.time th else time) l
  end.

(** lib/Synchroniser.cpp:11-19 Synchroniser::MaxThreadTime *)
Definition MaxThreadTime (y : Synchroniser) : MS Z :=
  l ← lift (members y); m ← lift (master y);
  th ← thread m;
  maxTime (Thread.time th) (tail l).

(** lib/Synchroniser.cpp:35-42 Synchroniser::sync: what a thread that wakes up goes through; [child] is whether its index is positive *)
Definition wakeUp (newTime : Z) (current : Ref) (child : bool) (t : Ref) : MS unit :=
  _ ← modThread t (Thread.set_time newTime);
  if bool_decide (t = current) then mret tt
  else
    _ ← when child (modThread t (set_ssync false));
    _ ← modThread t (fun th => set_pc (u32 (Thread.pc th + 1)) th);
    schedule t.

(** lib/Synchroniser.cpp:21-65 Synchroniser::sync *)
Definition sync (r t : Ref) (isMaster : bool) : MS SyncResult :=
  y ← synchroniser r;
  if u32 (NumPaused y + 1) <? NumThreads y then
    _ ← putSync r (set_NumPaused (u32 (NumPaused y + 1)) y);
    _ ← when (negb isMaster) (modThread t (set_ssync true));
    mret SYNC_DESCHEDULE
  else
    newTime ← MaxThreadTime y;
    _ ← modSync r (set_NumPaused 0);
    l ← lift (members y);
    m ← lift (master y);
    if negb (join y) then
      _ ← wakeUp newTime t false m;
      _ ← forEach (tail l) (wakeUp newTime t true);
      mret SYNC_CONTINUE
    else
      _ ← modThread m (Thread.set_time newTime);
      res ← (if isMaster then
               _ ← forEach (tail l) (fun c => modThread c thread_free);
               mret SYNC_CONTINUE
             else
               _ ← schedule m;
               _ ← forEach (tail l)
                     (fun c => when (negb (bool_decide (c = t))) (modThread c thread_free));
               mret SYNC_KILL);
      _ ← modSync r (fun y => set_NumThreads 1 (set_join false y));
      mret res.

(** lib/Synchroniser.h:75-75 Synchroniser::ssync *)
Definition ssync (r t : Ref) : MS SyncResult := sync r t false.
(** lib/Synchroniser.h:76-76 Synchroniser::msync *)
Definition msync (r t : Ref) : MS SyncResult := sync r t true.
(** lib/Synchroniser.cpp:67-72 Synchroniser::mjoin *)
Definition mjoin (r t : Ref) : MS SyncResult := _ ← modSync r (set_join true); sync r t true.

(** ** Locks *)

(** lib/Lock.h:23-32 Lock::alloc *)
Definition lock_alloc (r : Ref) : MS unit :=
  l ← lock r; _ ← require (negb (inUse (lock_res l)));
  modLock r (fun l => mkLock (setInUse true (lock_res l)) false []).

(** lib/Lock.h:34-39 Lock::free *)
Definition lock_free (r : Ref) : MS bool :=
  _ ← modLock r (fun l => set_lock_res (setInUse false (lock_res l)) l); mret true.

(** [thread.getNextPC()] *)
Definition nextPC (t : Ref) : MS unit :=
  c ← core t.1;
  modThread t (getNextPC (getInterpretOneAddr (ramDecodeCache c)) (getRunJitAddr (ramDecodeCache c))).

(** lib/Lock.cpp:11-26 Lock::out *)
Definition lock_out (r : Ref) (time : Z) : MS unit :=
  l ← lock r;
  match lock_threads l with
  | next :: rest =>
      _ ← modLock r (set_lock_threads rest);
      th ← thread next;
      _ ← when (Thread.time th <? time) (modThread next (Thread.set_time time));
      _ ← nextPC next;
      schedule next
  | [] => modLock r (set_held false)
  end.

(** lib/Lock.cpp:28-38 Lock::in: [None] when the thread is descheduled *)
Definition lock_in (r t : Ref) : MS (option Z) :=
  l ← lock r;
  if negb (held l) then _ ← modLock r (set_held true); mret (Some (ID (lock_res l)))
  else _ ← modLock r (set_lock_threads (lock_threads l ++ [t])); mret None.
End sync.

(** ** The barrier *)

Section barrier.
Context {P : Type} `{PortEvents P}.
Implicit Types (s : Sys P) (w : gmap RunnableRef Z).

Definition time_at s (t : Ref) : Z := default 0 (Thread.time <$> threads s !! t).

Lemma maxTime_spec l s t0 : (forall x, x ∈ l -> is_Some (threads s !! x)) ->
  wp (maxTime t0 l) (fun v s' => s' = s /\ t0 <= v /\ (forall x, x ∈ l -> time_at s x <= v) /\
    (v = t0 \/ exists x, x ∈ l /\ time_at s x = v)) s.
Proof.
  revert t0. induction l as [|x l IH]; intros t0 Hl; cbn [maxTime].
  { apply wp_ret. split_and!; [done | lia | | by left]. by intros ? ?%elem_of_nil. }
  destruct (Hl x) as [th Hth]; [by constructor |].
  apply wp_bind, (wp_thread x th); [done |].
  assert (time_at s x = Thread.time th) as Hx by (unfold time_at; by rewrite Hth).
  eapply wp_mono; [apply IH; intros; apply Hl; by constructor |]. cbn.
  intros v s' (-> & H1 & H2 & H3). split; [done |].
  destruct (Z.ltb_spec t0 (Thread.time th)); (split_and!; [lia | |]).
  - intros y [->|Hy]%elem_of_cons; [lia | by apply H2].
  - right. destruct H3 as [->|(y & Hy & <-)]; [exists x | exists y]; rewrite elem_of_cons; auto.
  - intros y [->|Hy]%elem_of_cons; [lia | by apply H2].
  - destruct H3 as [->|(y & Hy & <-)]; [by left | right; exists y; rewrite elem_of_cons; auto].
Qed.

(** The time at which a barrier is left: that of its latest thread. *)
Definition latest s (l : list Ref) (v : Z) : Prop :=
  (forall x, x ∈ l -> time_at s x <= v) /\ exists x, x ∈ l /\ time_at s x = v.

(** The threads of a synchroniser: an array prefix with the master first, threads that exist. *)
Record sync_wf s (y : Synchroniser) (m : Ref) (cs : list Ref) : Prop := {
  sy_members : members y = Some (m :: cs);
  sy_master : master y = Some m;
  sy_nodup : NoDup (m :: cs);
  sy_count : NumThreads y = 1 + zlength cs;
  sy_small : NumThreads y <= Z.of_nat NUM_THREADS;
  sy_exist : forall x, x ∈ m :: cs -> is_Some (threads s !! x)
}.

Lemma MaxThreadTime_spec s y m cs : sync_wf s y m cs ->
  wp (MaxThreadTime y) (fun v s' => s' = s /\ latest s (m :: cs) v) s.
Proof.
  intros W. unfold MaxThreadTime. destruct (sy_exist _ _ _ _ W m) as [th Hth]; [by constructor |].
  assert (time_at s m = Thread.time th) as Hm by (unfold time_at; by rewrite Hth).
  apply wp_bind, (wp_lift _ _ _ _ (sy_members _ _ _ _ W)), wp_bind, (wp_lift _ _ _ _ (sy_master _ _ _ _ W)).
  apply wp_bind, (wp_thread m th); [done |]. cbn [tail].
  eapply wp_mono; [apply maxTime_spec; intros; apply (sy_exist _ _ _ _ W); by constructor |]. cbn.
  intros v s' (-> & H1 & H2 & H3). split; [done |]. split.
  - intros x [->|Hx]%elem_of_cons; [lia | by apply H2].
  - destruct H3 as [->|(x & Hx & <-)]; [exists m | exists x]; rewrite elem_of_cons; auto.
Qed.

(** What happens to a thread that leaves the barrier. *)
Definition woken (newTime : Z) (child : bool) (th : Thread) : Thread :=
  let th := Thread.set_time newTime th in
  let th := if child then set_ssync false th else th in
  awake (set_pc (u32 (Thread.pc th + 1)) th).

(** [s'] is [s] with the threads [l] other than [t] woken up at [newTime]. *)
Record wakes (newTime : Z) (t : Ref) (child : Ref -> bool) (l : list Ref) s w s' w' : Prop := {
  wa_rest : rest_same s s';
  wa_sched : scheduler_ok s' w';
  wa_current : t ∈ l -> threads s' !! t = Thread.set_time newTime <$> threads s !! t;
  wa_woken : forall x, x ∈ l -> x <> t ->
    threads s' !! x = woken newTime (child x) <$> threads s !! x /\ w' !! RThread x = Some newTime;
  wa_others : forall x, x ∉ l -> threads s' !! x = threads s !! x;
  wa_queue : forall x, (forall u, u ∈ l -> u <> t -> x <> RThread u) -> w' !! x = w !! x
}.

Lemma wakeUp_spec newTime t child x s w : scheduler_ok s w -> is_Some (threads s !! x) ->
  wp (wakeUp newTime t child x)
    (fun _ s' => exists w', wakes newTime t (fun _ => child) [x] s w s' w') s.
Proof.
  intros O [th Hth]. unfold wakeUp. apply wp_bind, (wp_modThread _ _ th); [done |].
  assert (forall f, dom (<[x := f th]> (threads s)) = dom (threads s)) as Hd.
  { intros f. rewrite dom_insert_lookup_L; [done | by eexists]. }
  destruct (bool_decide_reflect (x = t)) as [->|Hne].
  - apply wp_ret. exists w. split; cbn; auto with axe.
    + apply scheduler_ok_threads; [by apply Hd | done].
    + intros _. by rewrite lookup_insert_eq, Hth.
    + by intros x ->%list_elem_of_singleton.
    + intros x Hx. rewrite lookup_insert_ne; [done |]. intros ->. apply Hx. by constructor.
  - apply wp_bind. set (s1 := set_threads _ s).
    assert (wp (when child (modThread x (set_ssync false)))
      (fun _ s2 => s2 = set_threads (<[x := (if child then set_ssync false else id) (Thread.set_time newTime th)]> (threads s)) s) s1) as H1.
    { destruct child; cbn [when]; [| by apply wp_ret].
      apply (wp_modThread _ _ (Thread.set_time newTime th)); [apply lookup_insert_eq |].
      unfold s1. cbn. by rewrite insert_insert_eq. }
    eapply wp_mono; [exact H1 |]. intros _ s2 ->. clear H1 s1. set (th1 := _ (Thread.set_time newTime th)).
    apply wp_bind, (wp_modThread _ _ th1); [apply lookup_insert_eq |]. cbn. rewrite insert_insert_eq.
    eapply wp_schedule with (w := w).
    + apply scheduler_ok_threads; [cbn; by rewrite (Hd (fun _ => th1)), (Hd (fun _ => _)) |].
      apply scheduler_ok_threads; [apply (Hd (fun _ => _)) | done].
    + apply lookup_insert_eq.
    + intros q s' O'. unfold s' in *. clear s'. cbn in *. rewrite insert_insert_eq in *.
      exists (<[RThread x := newTime]> w). split; cbn; auto with axe.
      * by destruct s.
      * subst th1. by destruct child.
      * by intros ->%list_elem_of_singleton.
      * intros u ->%list_elem_of_singleton _. rewrite !lookup_insert_eq, Hth. split; [| done].
        cbn. unfold woken, th1. by destruct child.
      * intros u Hu. rewrite lookup_insert_ne; [done |]. intros ->. apply Hu. by constructor.
      * intros u Hu. rewrite lookup_insert_ne; [done |]. intros <-. eapply Hu; [by constructor | done | done].
Qed.

Lemma wakes_trans newTime t child l1 l2 s1 w1 s2 w2 s3 w3 : NoDup (l1 ++ l2) ->
  wakes newTime t child l1 s1 w1 s2 w2 -> wakes newTime t child l2 s2 w2 s3 w3 ->
  wakes newTime t child (l1 ++ l2) s1 w1 s3 w3.
Proof.
  intros (_ & Hd & _)%NoDup_app [R1 S1 C1 W1 O1 Q1] [R2 S2 C2 W2 O2 Q2]. split.
  - by eapply rest_same_trans.
  - done.
  - intros [Ht|Ht]%elem_of_app; [rewrite O2 by (by apply Hd); by apply C1 |].
    rewrite C2 by done. rewrite O1; [done |]. intros ?. by eapply Hd.
  - intros x [Hx|Hx]%elem_of_app Hne.
    + destruct (W1 x Hx Hne) as [E1 E2]. rewrite O2 by (by apply Hd). split; [done |].
      rewrite Q2; [done |]. intros u Hu _ [= ->]. by eapply Hd.
    + destruct (W2 x Hx Hne) as [E1 E2]. rewrite E1. split; [| done]. rewrite O1; [done |].
      intros ?. by eapply Hd.
  - intros x [Hx1 Hx2]%not_elem_of_app. by rewrite O2, O1.
  - intros x Hx. rewrite Q2, Q1; [done | |]; intros u Hu; apply Hx; apply elem_of_app; auto.
Qed.

Lemma wakes_child newTime t (c c' : Ref -> bool) l s w s' w' : (forall x, x ∈ l -> c x = c' x) ->
  wakes newTime t c l s w s' w' -> wakes newTime t c' l s w s' w'.
Proof. intros Hc [R S C W O Q]. split; try done. intros x Hx. rewrite <- Hc by done. by apply W. Qed.

Lemma forEach_wakeUp newTime t l s w : NoDup l -> scheduler_ok s w ->
  (forall x, x ∈ l -> is_Some (threads s !! x)) ->
  wp (forEach l (wakeUp newTime t true))
    (fun _ s' => exists w', wakes newTime t (fun _ => true) l s w s' w') s.
Proof.
  revert s w. induction l as [|x l IH]; intros s w HN O Hl; cbn [forEach].
  { apply wp_ret. exists w. split; auto with axe; [by intros ?%elem_of_nil | by intros ? ?%elem_of_nil]. }
  pose proof HN as [Hx HN']%NoDup_cons.
  apply wp_bind. eapply wp_mono; [apply (wakeUp_spec _ _ _ _ _ w); [done | apply Hl; by constructor] |].
  intros _ s1 (w1 & W1). eapply wp_mono; [apply (IH s1 w1); [done | apply W1 |] |].
  - intros u Hu. rewrite (wa_others _ _ _ _ _ _ _ _ W1); [apply Hl; by constructor |].
    intros ->%list_elem_of_singleton. done.
  - intros _ s2 (w2 & W2). exists w2. by apply (wakes_trans _ _ _ [x] l _ _ _ _ _ _ HN W1).
Qed.

(** Freeing the children that are not [t]. *)
Lemma forEach_free (skip : Ref -> bool) l s : NoDup l -> (forall x, x ∈ l -> is_Some (threads s !! x)) ->
  wp (forEach l (fun c => when (negb (skip c)) (modThread c thread_free)))
    (fun _ s' => s' = set_threads (threads s') s /\ dom (threads s') = dom (threads s) /\
      forall x, threads s' !! x =
        (if bool_decide (x ∈ l) && negb (skip x) then thread_free else id) <$> threads s !! x) s.
Proof.
  revert s. induction l as [|x l IH]; intros s HN Hl; cbn [forEach].
  { apply wp_ret. split; [by destruct s |]. split; [done |]. intros x.
    rewrite bool_decide_eq_false_2 by apply not_elem_of_nil. cbn. by rewrite option_fmap_id. }
  apply NoDup_cons in HN as [Hx HN]. destruct (Hl x) as [th Hth]; [by constructor |].
  apply wp_bind.
  apply wp_mono with (Q := fun _ s1 => s1 = set_threads (<[x := (if skip x then id else thread_free) th]> (threads s)) s).
  { destruct (skip x); cbn [negb when].
    - apply wp_ret. rewrite insert_id by done. by destruct s.
    - by apply (wp_modThread _ _ th). }
  intros _ s1 ->. eapply wp_mono; [apply IH; [done |] |].
  - intros u Hu. cbn. rewrite lookup_insert_ne by congruence. apply Hl. by constructor.
  - cbn. intros _ s2 (Es & Hd & Ht). split; [by rewrite Es; destruct s |]. split.
    { rewrite Hd. apply dom_insert_lookup_L. by eexists. }
    intros u. rewrite Ht. destruct (decide (u = x)) as [->|Hne].
    + rewrite lookup_insert_eq, Hth, (bool_decide_eq_false_2 (x ∈ l)), bool_decide_eq_true_2 by (done || by constructor).
      cbn. by destruct (skip x).
    + rewrite lookup_insert_ne by done. do 2 f_equal.
      rewrite (bool_decide_ext (u ∈ l) (u ∈ x :: l)); [done |]. rewrite elem_of_cons. clear -Hne. naive_solver.
Qed.

Section one.
Context (r t : Ref) (y : Synchroniser) (m : Ref) (cs : list Ref) (s : Sys P) (w : gmap RunnableRef Z).
Context (Hr : syncs s !! r = Some y) (W : sync_wf s y m cs) (Ht : t ∈ m :: cs) (O : scheduler_ok s w).

(** Not the last thread: it waits. *)
Lemma sync_pause (isMaster : bool) : 0 <= NumPaused y -> NumPaused y + 1 < NumThreads y ->
  wp (sync r t isMaster) (fun res s' => res = SYNC_DESCHEDULE /\
    syncs s' !! r = Some (set_NumPaused (NumPaused y + 1) y) /\ scheduler s' = scheduler s /\
    threads s' = if isMaster then threads s else alter (set_ssync true) t (threads s)) s.
Proof.
  intros H0 H1. unfold sync. apply wp_bind, (wp_synchroniser _ y); [done |].
  pose proof (sy_small _ _ _ _ W) as Hs. change (Z.of_nat NUM_THREADS) with 8 in Hs.
  rewrite (wrap_small 32) by (unfold fits; lia). rewrite (proj2 (Z.ltb_lt _ _)) by done.
  destruct (sy_exist _ _ _ _ W t Ht) as [th Hth].
  apply wp_bind. unfold putSync. cbn. apply wp_bind. destruct isMaster; cbn [negb when].
  - apply wp_ret. cbn. by rewrite lookup_insert_eq.
  - apply (wp_modThread _ _ th); [done |]. cbn. rewrite lookup_insert_eq. split_and!; try done.
    apply map_eq. intros x. destruct (decide (x = t)) as [->|].
    + by rewrite lookup_insert_eq, lookup_alter_eq, Hth.
    + by rewrite lookup_insert_ne, lookup_alter_ne.
Qed.

(** The state when the last thread has been counted. *)
Definition released : Sys P := set_syncs (<[r := set_NumPaused 0 y]> (syncs s)) s.

Lemma sync_last (isMaster : bool) (Q : SyncResult -> Sys P -> Prop) :
  NumPaused y + 1 = NumThreads y ->
  (forall newTime, latest s (m :: cs) newTime -> wp
    ((if negb (join y) then
      _ ← wakeUp newTime t false m;
      _ ← forEach cs (wakeUp newTime t true);
      mret SYNC_CONTINUE
    else
      _ ← modThread m (Thread.set_time newTime);
      res ← (if isMaster then
               _ ← forEach cs (fun c => modThread c thread_free);
               mret SYNC_CONTINUE
             else
               _ ← schedule m;
               _ ← forEach cs
                     (fun c => when (negb (bool_decide (c = t))) (modThread c thread_free));
               mret SYNC_KILL);
      _ ← modSync r (fun y => set_NumThreads 1 (set_join false y));
      mret res) : M (Sys P) SyncResult) Q released) ->
  wp (sync r t isMaster) Q s.
Proof.
  intros Hl Hk. unfold sync. apply wp_bind, (wp_synchroniser _ y); [done |].
  pose proof (sy_small _ _ _ _ W) as Hs. change (Z.of_nat NUM_THREADS) with 8 in Hs. pose proof (sy_count _ _ _ _ W).
  rewrite (wrap_small 32) by (unfold fits; lia). rewrite (proj2 (Z.ltb_ge _ _)) by lia.
  apply wp_bind. eapply wp_mono; [by eapply MaxThreadTime_spec |]. intros newTime s0 [-> HL].
  apply wp_bind, (wp_modSync _ _ y); [done |]. fold released.
  apply wp_bind, (wp_lift _ _ _ _ (sy_members _ _ _ _ W)), wp_bind, (wp_lift _ _ _ _ (sy_master _ _ _ _ W)).
  by apply Hk.
Qed.

Lemma released_ok : scheduler_ok released w.
Proof. by destruct O. Qed.

(** The last thread, and no join: every thread goes on at the time of the latest. *)
Lemma sync_release isMaster : NumPaused y + 1 = NumThreads y -> join y = false ->
  wp (sync r t isMaster) (fun res s' => res = SYNC_CONTINUE /\
    exists newTime w', latest s (m :: cs) newTime /\
      wakes newTime t (fun x => negb (bool_decide (x = m))) (m :: cs) released w s' w') s.
Proof.
  intros Hl Hj. apply sync_last; [done |]. intros newTime HL.
  rewrite Hj. cbn [negb]. pose proof (sy_nodup _ _ _ _ W) as HN. pose proof HN as [Hm HNc]%NoDup_cons.
  apply wp_bind. eapply wp_mono;
    [apply (wakeUp_spec _ _ _ _ _ w); [apply released_ok | apply (sy_exist _ _ _ _ W); by constructor] |].
  intros _ s1 (w1 & W1). apply wp_bind.
  eapply wp_mono; [apply (forEach_wakeUp _ _ _ _ w1); [done | apply W1 |] |].
  { intros x Hx. rewrite (wa_others _ _ _ _ _ _ _ _ W1) by (intros ->%list_elem_of_singleton; done).
    apply (sy_exist _ _ _ _ W). by constructor. }
  intros _ s2 (w2 & W2). apply wp_ret. split; [done |]. exists newTime, w2. split; [done |].
  eapply (wakes_trans _ _ _ [m] cs); [done | eapply wakes_child; [| exact W1] | eapply wakes_child; [| exact W2]].
  - intros x ->%list_elem_of_singleton. by rewrite bool_decide_eq_true_2.
  - intros x Hx. rewrite bool_decide_eq_false_2; [done | congruence].
Qed.

Lemma time_dom newTime th : threads s !! m = Some th ->
  dom (<[m := Thread.set_time newTime th]> (threads s)) = dom (threads s).
Proof. intros E. apply dom_insert_lookup_L. by eexists. Qed.

(** The synchroniser after a join. *)
Definition joined : Synchroniser := set_NumThreads 1 (set_join false (set_NumPaused 0 y)).

(** The master joins last: its children are freed. *)
Lemma sync_join_master : NumPaused y + 1 = NumThreads y -> join y = true ->
  wp (sync r t true) (fun res s' => res = SYNC_CONTINUE /\
    syncs s' !! r = Some joined /\ scheduler s' = scheduler s /\ dom (threads s') = dom (threads s) /\
    exists newTime, latest s (m :: cs) newTime /\
    threads s' !! m = Thread.set_time newTime <$> threads s !! m /\
    (forall x, x ∈ cs -> threads s' !! x = thread_free <$> threads s !! x) /\
    (forall x, x ∉ m :: cs -> threads s' !! x = threads s !! x)) s.
Proof.
  intros Hl Hj. apply sync_last; [done |]. intros newTime HL.
  rewrite Hj. cbn [negb]. pose proof (sy_nodup _ _ _ _ W) as [Hm HNc]%NoDup_cons.
  destruct (sy_exist _ _ _ _ W m) as [th Hth]; [by constructor |].
  apply wp_bind, (wp_modThread _ _ th); [done |]. apply wp_bind, wp_bind.
  eapply wp_mono; [apply (forEach_free (fun _ => false)); [done |] |].
  { intros x Hx. cbn. rewrite lookup_insert_ne by congruence. apply (sy_exist _ _ _ _ W). by constructor. }
  cbn. intros _ s1 (Es & Hd & Hth1). apply wp_ret, wp_bind, (wp_modSync _ _ (set_NumPaused 0 y)).
  { rewrite Es. cbn. apply lookup_insert_eq. }
  apply wp_ret. rewrite Es. cbn. rewrite Es in Hd, Hth1. cbn in Hd, Hth1. rewrite lookup_insert_eq. split_and!; try done.
  { rewrite Hd. by apply time_dom. }
  exists newTime. split; [done |]. split_and!.
  - rewrite Hth1, lookup_insert_eq, bool_decide_eq_false_2, Hth by done. done.
  - intros x Hx. rewrite Hth1, lookup_insert_ne, bool_decide_eq_true_2 by congruence. done.
  - intros x [Hx1 Hx2]%not_elem_of_cons. rewrite Hth1, lookup_insert_ne, bool_decide_eq_false_2 by congruence.
    cbn. by rewrite option_fmap_id.
Qed.

(** A child is the last to arrive at a join: the other children are freed, the master is
    scheduled to execute its instruction again. *)
Lemma sync_join_child : t <> m -> NumPaused y + 1 = NumThreads y -> join y = true ->
  wp (sync r t false) (fun res s' => res = SYNC_KILL /\
    syncs s' !! r = Some joined /\ dom (threads s') = dom (threads s) /\
    exists newTime, latest s (m :: cs) newTime /\
    scheduler_ok s' (<[RThread m := newTime]> w) /\
    threads s' !! m = (fun th => awake (Thread.set_time newTime th)) <$> threads s !! m /\
    (forall x, x ∈ cs -> x <> t -> threads s' !! x = thread_free <$> threads s !! x) /\
    (forall x, x ∉ m :: cs \/ x = t -> threads s' !! x = threads s !! x)) s.
Proof.
  intros Hne Hl Hj. apply sync_last; [done |]. intros newTime HL.
  rewrite Hj. cbn [negb]. pose proof (sy_nodup _ _ _ _ W) as [Hm HNc]%NoDup_cons.
  destruct (sy_exist _ _ _ _ W m) as [th Hth]; [by constructor |].
  apply wp_bind, (wp_modThread _ _ th); [done |]. apply wp_bind, wp_bind.
  eapply wp_schedule with (w := w).
  { apply scheduler_ok_threads; [by apply time_dom | apply released_ok]. }
  { apply lookup_insert_eq. }
  intros q s1 O1. unfold s1 in *. clear s1. cbn in *. rewrite insert_insert_eq in *.
  apply wp_bind. eapply wp_mono; [apply (forEach_free (fun c => bool_decide (c = t))); [done |] |].
  { intros x Hx. cbn. rewrite lookup_insert_ne by congruence. apply (sy_exist _ _ _ _ W). by constructor. }
  cbn. intros _ s1 (Es & Hd & Hth1). apply wp_ret, wp_bind, (wp_modSync _ _ (set_NumPaused 0 y)).
  { rewrite Es. cbn. apply lookup_insert_eq. }
  apply wp_ret. rewrite Es. cbn. rewrite Es in Hd, Hth1. cbn in Hd, Hth1. rewrite lookup_insert_eq.
  split_and!; try done.
  { rewrite Hd. apply dom_insert_lookup_L. by eexists. }
  exists newTime. split; [done |]. split_and!.
  - destruct O1 as [Oq Ot Oe]. split; cbn in *; [done | | done].
    intros x Hx. apply Ot, elem_of_dom. rewrite <- Hd. by apply elem_of_dom.
  - rewrite Hth1, lookup_insert_eq, bool_decide_eq_false_2, Hth by done. done.
  - intros x Hx Hxt. rewrite Hth1, lookup_insert_ne, !bool_decide_decide, decide_True, decide_False by congruence. done.
  - intros x Hx. assert (x <> m) by (destruct Hx as [Hx| ->]; [intros ->; apply Hx; by constructor | done]).
    rewrite Hth1, lookup_insert_ne by congruence.
    replace (bool_decide (x ∈ cs) && negb (bool_decide (x = t))) with false; [by rewrite option_fmap_id |].
    symmetry. apply andb_false_iff. destruct Hx as [[_ Hx]%not_elem_of_cons| ->].
    + left. by apply bool_decide_eq_false_2.
    + right. by rewrite bool_decide_eq_true_2.
Qed.
End one.

Lemma joined_wf s y m cs s' : sync_wf s y m cs -> dom (threads s') = dom (threads s) ->
  sync_wf s' (set_join true (joined y)) m [].
Proof.
  intros W Hd. pose proof (sy_master _ _ _ _ W) as Hm. split.
  - transitivity (mapM (array_get (sync_threads y)) [0]); [done |]. cbn [mapM]. unfold master in Hm. by rewrite Hm.
  - done.
  - apply NoDup_singleton.
  - done.
  - done.
  - intros x ->%list_elem_of_singleton. apply elem_of_dom. rewrite Hd. apply elem_of_dom.
    apply (sy_exist _ _ _ _ W). by constructor.
Qed.

(** C11: A synchroniser is a barrier.  Let [t] be one of its threads.  While not all the others
    are paused, [sync] counts [t] and makes it wait, nothing else.  When [t] is the last one
    and the master has not asked for a join, every thread takes the time of the latest one, all
    the others are put in the scheduler's queue at that time past their own instruction, and [t]
    goes on; threads that do not belong to the synchroniser and the other entries of the
    queue are left alone.  When the master has asked for a join: if it comes last, its children
    are freed and it goes on; if a child comes last, the other children are freed, the child is
    told to die, and the master is scheduled at the time of the latest thread to execute its
    join again, which then succeeds. *)
Theorem synchroniser_barrier (r t : Ref) (y : Synchroniser) (m : Ref) (cs : list Ref) s w :
  syncs s !! r = Some y -> sync_wf s y m cs -> t ∈ m :: cs -> 0 <= NumPaused y -> scheduler_ok s w ->
  (NumPaused y + 1 < NumThreads y -> forall isMaster : bool,
    wp (sync r t isMaster) (fun res s' => res = SYNC_DESCHEDULE /\
      syncs s' !! r = Some (set_NumPaused (NumPaused y + 1) y) /\ scheduler s' = scheduler s /\
      threads s' = if isMaster then threads s else alter (set_ssync true) t (threads s)) s) /\
  (NumPaused y + 1 = NumThreads y -> join y = false -> forall isMaster : bool,
    wp (sync r t isMaster) (fun res s' => res = SYNC_CONTINUE /\
      exists newTime w', latest s (m :: cs) newTime /\
        wakes newTime t (fun x => negb (bool_decide (x = m))) (m :: cs) (released r y s) w s' w') s) /\
  (NumPaused y + 1 = NumThreads y -> join y = true ->
    wp (sync r t true) (fun res s' => res = SYNC_CONTINUE /\
      syncs s' !! r = Some (joined y) /\ scheduler s' = scheduler s /\ dom (threads s') = dom (threads s) /\
      exists newTime, latest s (m :: cs) newTime /\
      threads s' !! m = Thread.set_time newTime <$> threads s !! m /\
      (forall x, x ∈ cs -> threads s' !! x = thread_free <$> threads s !! x) /\
      (forall x, x ∉ m :: cs -> threads s' !! x = threads s !! x)) s) /\
  (NumPaused y + 1 = NumThreads y -> join y = true -> t <> m ->
    wp (sync r t false) (fun res s' => res = SYNC_KILL /\
      wp (mjoin r m) (fun res _ => res = SYNC_CONTINUE) s' /\
      exists newTime, latest s (m :: cs) newTime /\
      scheduler_ok s' (<[RThread m := newTime]> w) /\
      threads s' !! m = (fun th => awake (Thread.set_time newTime th)) <$> threads s !! m /\
      (forall x, x ∈ cs -> x <> t -> threads s' !! x = thread_free <$> threads s !! x) /\
      (forall x, x ∉ m :: cs \/ x = t -> threads s' !! x = threads s !! x)) s).
Proof.
  intros Hr W Ht H0 O. split_and!.
  - intros Hl b. by eapply sync_pause.
  - intros Hl Hj b. by eapply sync_release.
  - intros Hl Hj. by eapply sync_join_master.
  - intros Hl Hj Hne. eapply wp_mono; [by eapply sync_join_child |]. cbn.
    intros res s' (-> & Hy & Hd & HT). split; [done |]. split; [| exact HT].
    unfold mjoin. apply wp_bind, (wp_modSync _ _ (joined y)); [done |].
    eapply wp_mono; [eapply (sync_join_master r m (set_join true (joined y)) m []) |].
    + apply lookup_insert_eq.
    + by eapply joined_wf.
    + done.
    + done.
    + by intros res s2 [-> _].
Qed.
End barrier.

(** Threads 0 (the master) and 1 meet; 1 arrives at the time 9, 0 has waited since 5. *)
#[local] Definition exampleBarrier : Sys unit :=
  exampleSys [((0, 0, 0)%nat, exampleThread 0 5 10); ((0, 0, 1)%nat, exampleThread 1 9 20)] [] [] []
    [((0, 0, 0)%nat, mkSynchroniser (mkResource true (syncID 0)) 2
        [(0, 0, 0)%nat; (0, 0, 1)%nat; (0, 0, 0)%nat; (0, 0, 0)%nat; (0, 0, 0)%nat; (0, 0, 0)%nat; (0, 0, 0)%nat; (0, 0, 0)%nat] 1 false)].
Lemma synchroniser_barrier_witness :
  wp (sync (0, 0, 0)%nat (0, 0, 1)%nat false) (fun res _ => res = SYNC_CONTINUE) exampleBarrier.
Proof.
  edestruct (synchroniser_barrier (0, 0, 0)%nat (0, 0, 1)%nat
    (mkSynchroniser (mkResource true (syncID 0)) 2
        [(0, 0, 0)%nat; (0, 0, 1)%nat; (0, 0, 0)%nat; (0, 0, 0)%nat; (0, 0, 0)%nat; (0, 0, 0)%nat; (0, 0, 0)%nat; (0, 0, 0)%nat] 1 false)
    (0, 0, 0)%nat [(0, 0, 1)%nat] exampleBarrier ∅) as (_ & Hlast & _).
  - reflexivity.
  - split; [reflexivity | reflexivity | apply (bool_decide_unpack _); reflexivity | reflexivity | vm_compute; discriminate |].
    intros x [->|[->|[]%elem_of_nil]%elem_of_cons]%elem_of_cons; eexists; reflexivity.
  - apply (bool_decide_unpack _). reflexivity.
  - vm_compute. discriminate.
  - apply exampleSys_ok.
  - eapply wp_mono; [apply Hlast; reflexivity |]. by intros res s' [-> _].
Defined.

(** ** Handing over a lock *)

Section handover.
Context {P : Type} `{PortEvents P}.
Implicit Types (s : Sys P) (w : gmap RunnableRef Z).

(** The lock is held by [holder], and the threads [q] wait for it in this order. *)
Definition lock_state (l : Lock) (holder : option Ref) (q : list Ref) : Prop :=
  held l = bool_decide (is_Some holder) /\ lock_threads l = q /\ (holder = None -> q = []).

(** What happens to a waiting thread [n] to which the lock is given at [time]. *)
Definition handed (c : Core) (time : Z) (th : Thread) : Thread :=
  let k := ramDecodeCache c in
  awake (getNextPC (getInterpretOneAddr k) (getRunJitAddr k)
    (if Thread.time th <? time then Thread.set_time time th else th)).

Lemma handed_time c time th : Thread.time (handed c time th) = Z.max (Thread.time th) time.
Proof.
  unfold handed, awake, getNextPC, set_waiting. cbn.
  destruct (Z.ltb_spec (Thread.time th) time); case_match; cbn; lia.
Qed.

Lemma handed_regs c time th : Thread.regs (handed c time th) = Thread.regs th /\
  Thread.regsBuffer (handed c time th) = Thread.regsBuffer th.
Proof.
  unfold handed, awake, getNextPC, set_waiting. cbn.
  destruct (Z.ltb_spec (Thread.time th) time); case_match; done.
Qed.

(** The program counter of the input at which a thread waits: the pending one when the thread was to
    interpret one instruction or to run the compiler. *)
Definition waitingPc (c : Core) (th : Thread) : Z :=
  let k := ramDecodeCache c in
  if (Thread.pc th =? getInterpretOneAddr k) || (Thread.pc th =? getRunJitAddr k) then pendingPc th else Thread.pc th.

Lemma handed_eq c time th : handed c time th =
  awake (set_pc (u32 (waitingPc c th + 1)) (Thread.set_time (Z.max (Thread.time th) time) th)).
Proof.
  unfold handed, getNextPC, waitingPc. destruct (Z.ltb_spec (Thread.time th) time).
  - rewrite Z.max_r by lia. cbn. by case_match.
  - rewrite Z.max_l by lia. assert (Thread.set_time (Thread.time th) th = th) as -> by (by destruct th). by case_match.
Qed.

Lemma lock_out_handover r time l n q s w th c : locks s !! r = Some l -> lock_threads l = n :: q ->
  scheduler_ok s w -> threads s !! n = Some th -> sys_cores s !! n.1 = Some c ->
  wp (lock_out r time) (fun _ s' => locks s' = <[r := set_lock_threads q l]> (locks s) /\
    threads s' = <[n := handed c time th]> (threads s) /\
    scheduler_ok s' (<[RThread n := Z.max (Thread.time th) time]> w)) s.
Proof.
  intros Hl Hq O Hth Hc. unfold lock_out. apply wp_bind, (wp_lock _ l); [done |]. rewrite Hq.
  apply wp_bind, (wp_modLock _ _ l); [done |]. apply wp_bind, (wp_thread _ th); [done |].
  set (th1 := if Thread.time th <? time then Thread.set_time time th else th).
  set (s1 := set_locks _ s).
  apply wp_bind, (wp_mono _ (fun _ s2 => s2 = set_threads (<[n := th1]> (threads s)) s1)).
  { subst th1. destruct (Thread.time th <? time); cbn [when].
    - by apply (wp_modThread _ _ th).
    - apply wp_ret. rewrite insert_id by done. by destruct s. }
  intros _ s2 ->. unfold nextPC. apply wp_bind, wp_bind, (wp_core _ c); [done |].
  apply (wp_modThread _ _ th1); [apply lookup_insert_eq |]. cbn. rewrite insert_insert_eq.
  assert (forall v, dom (<[n := v]> (threads s)) = dom (threads s)) as Hd
    by (intros v; apply dom_insert_lookup_L; by eexists).
  eapply wp_schedule with (w := w).
  - apply scheduler_ok_threads; [cbn; by rewrite !Hd |]. apply scheduler_ok_threads; [apply Hd |]. by destruct O.
  - apply lookup_insert_eq.
  - intros q' s2 O2. unfold s2 in *. clear s2. cbn in *. rewrite insert_insert_eq in *.
    split; [done |]. split; [done |].
    rewrite <- (handed_time c time th). exact O2.
Qed.

(** C12: A lock is held by at most one thread, and the threads that ask for it while it is held
    get it in the order they asked.  An input takes a free lock and gives its identifier;
    otherwise the thread is put at the end of the waiting threads.  An output by the holder frees
    the lock when no thread waits; otherwise the first waiting thread becomes the holder: it
    is scheduled, not earlier than the output, with its program counter one half-word past its
    input instruction, and waits no more.  Nothing else of it changes, so that the register the
    input names does not receive the identifier of the lock. *)
Theorem lock_handover (r : Ref) (l : Lock) (holder : option Ref) (q : list Ref) s w :
  locks s !! r = Some l -> lock_state l holder q -> scheduler_ok s w ->
  (forall x, x ∈ q -> is_Some (threads s !! x) /\ is_Some (sys_cores s !! x.1)) ->
  (forall t, wp (lock_in r t) (fun v s' => exists l', s' = set_locks (<[r := l']> (locks s)) s /\
     match holder with
     | None => v = Some (ID (lock_res l)) /\ lock_state l' (Some t) []
     | Some _ => v = None /\ lock_state l' holder (q ++ [t])
     end) s) /\
  (forall time, is_Some holder ->
     wp (lock_out r time) (fun _ s' => exists l', locks s' = <[r := l']> (locks s) /\
       match q with
       | [] => lock_state l' None [] /\ threads s' = threads s /\ scheduler s' = scheduler s
       | n :: q => lock_state l' (Some n) q /\
           exists th th' c, threads s !! n = Some th /\ threads s' = <[n := th']> (threads s) /\
           sys_cores s !! n.1 = Some c /\ Thread.pc th' = u32 (waitingPc c th + 1) /\
           th' = set_pausedOn None (set_waiting false (set_pc (Thread.pc th') (Thread.set_time (Thread.time th') th))) /\
           Thread.regs th' = Thread.regs th /\ Thread.regsBuffer th' = Thread.regsBuffer th /\
           Thread.time th' = Z.max (Thread.time th) time /\
           scheduler_ok s' (<[RThread n := Z.max (Thread.time th) time]> w)
       end) s).
Proof.
  intros Hl (Hh & Hq & Hn) O Hx. split.
  - intros t. unfold lock_in. apply wp_bind, (wp_lock _ l); [done |]. rewrite Hh.
    destruct holder; cbn; apply wp_bind, (wp_modLock _ _ l); try done; apply wp_ret; eexists; (split; [done |]).
    + unfold lock_state. cbn. rewrite Hq. by split_and!.
    + split; [done |]. unfold lock_state. cbn. rewrite Hq, Hn by done. by split_and!.
  - intros time [x ->]. destruct q as [|n q].
    + unfold lock_out. apply wp_bind, (wp_lock _ l); [done |]. rewrite Hq.
      apply (wp_modLock _ _ l); [done |]. eexists. split; [done |]. unfold lock_state. by cbn; rewrite Hq.
    + destruct (Hx n) as [[th Hth] [c Hc]]; [by constructor |].
      eapply wp_mono; [by eapply lock_out_handover |]. cbn. intros _ s' (El & Et & O').
      eexists. split; [exact El |]. split; [by unfold lock_state; cbn; rewrite Hh |].
      exists th, (handed c time th), c. destruct (handed_regs c time th).
      split_and!; try done; [by rewrite handed_eq | by rewrite handed_eq | apply handed_time].
Qed.
End handover.

(** Thread 1 waits for the lock held by thread 0. *)
#[local] Definition exampleLock : Lock :=
  mkLock (mkResource true (lockID 0)) true [(0, 0, 1)%nat].
#[local] Definition exampleLockSys (c : Core) : Sys unit :=
  set_sys_cores {[(0, 0)%nat := c]}
    (exampleSys [((0, 0, 0)%nat, exampleThread 0 5 10); ((0, 0, 1)%nat, exampleThread 1 9 20)] [] []
       [((0, 0, 0)%nat, exampleLock)] []).
Lemma lock_handover_witness : exists c : Core,
  wp (lock_out (0, 0, 0)%nat 12) (fun _ s' => time_at s' (0, 0, 1)%nat = 12 /\
    (Thread.pc <$> threads s' !! (0, 0, 1)%nat) = Some 21) (exampleLockSys c).
Proof.
  destruct (newCore 16 16 false (fun _ => 0) 2) as [c|] eqn:Ec; [| vm_compute in Ec; discriminate Ec].
  exists c.
  edestruct (lock_handover (0, 0, 0)%nat exampleLock (Some (0, 0, 0)%nat) [(0, 0, 1)%nat] (exampleLockSys c) ∅)
    as [_ Hout].
  - reflexivity.
  - split; [reflexivity |]. split; [reflexivity | discriminate].
  - destruct (exampleSys_ok [((0, 0, 0)%nat, exampleThread 0 5 10); ((0, 0, 1)%nat, exampleThread 1 9 20)] [] []
       [((0, 0, 0)%nat, exampleLock)] []) as [A B C]. by split.
  - intros x ->%list_elem_of_singleton. split; eexists; reflexivity.
  - eapply wp_mono; [apply (Hout 12); by eexists |]. cbn beta iota.
    intros _ s' (l' & _ & _ & th & th' & c' & Eth & Et & Ec' & Hpc & _ & _ & _ & Htime & _).
    unfold time_at. rewrite Et, lookup_insert_eq. cbn. rewrite Htime, Hpc. injection Eth as <-.
    injection Ec' as <-. vm_compute in Ec. injection Ec as <-. split; vm_compute; reflexivity.
Defined.
