(* ===== verification/Chanend.v ===== *)
(** * Channel ends and switches (lib/ChanEndpoint.cpp, lib/Chanend.h, lib/Chanend.cpp, lib/SSwitch.cpp)

    A channel end sends the tokens of a packet to another endpoint, which it holds from the
    first token of the packet to the control token that ends it; other senders wait for it in a
    queue.  The switch of a node is an endpoint too: the packets it receives are requests to
    read or write its control registers. *)

From Stdlib Require Import ZArith Lia.
From stdpp Require Import base list numbers option gmap.
From S2P Require Import Prelude Opcode.
From S2P Require Import Refs RingBuffer Resource Node SSwitchRegs RunnableQueue SchedulerMap.
From S2P Require Import StateMonad Thread SysState Events SysFacts.

#[local] Open Scope Z_scope.
#[local] Open Scope cbits_scope.

(** lib/Config.h.in:52-52 CHANEND_BUFFER_SIZE *)
Definition CHANEND_BUFFER_SIZE : Z := 8.

(** A channel end as an endpoint, and back. *)
Definition endpointOf (r : Ref) : EndpointRef := ChanendOf r.1.1 r.1.2 (Z.of_nat r.2).
Definition chanendOf (node core : nat) (num : Z) : Ref := ((node, core), Z.to_nat num).

(** lib/ChanEndpoint.cpp:10-14 ChanEndpoint::ChanEndpoint *)
Definition newChanEndpoint : ChanEndpoint := mkChanEndpoint true [] None.

Section chanends.
Context {P : Type} `{PortEvents P}.
Abbreviation MS := (M (Sys P)).

(** ** Endpoints *)

(** lib/ChanEndpoint.cpp:16-34 ChanEndpoint::claim: whether the route is open, and the new value of [junkPacket] *)
Definition claim (e newSource : EndpointRef) (junk : bool) : MS (bool * bool) :=
  x ← endpoint e;
  if junkIncoming x then mret (true, true)
  else if bool_decide (source x = Some newSource) then mret (true, junk)
  else match source x with
       | Some _ => _ ← modEndpoint e (set_queue (queue x ++ [newSource])); mret (false, junk)
       | None => _ ← modEndpoint e (set_source (Some newSource)); mret (true, junk)
       end.

(** lib/Chanend.cpp:54-61 Chanend::notifyDestClaimed: and notifyDestCanAcceptTokens, which does the same *)
Definition chanend_notify (r : Ref) (time : Z) : MS unit :=
  c ← chanend r;
  match pausedOut c with
  | Some t =>
      _ ← modThread t (Thread.set_time time);
      _ ← schedule t;
      modChanend r (set_pausedOut None)
  | None => mret tt
  end.

(** lib/SSwitch.cpp:152-156 SSwitch::notifyDestClaimed: and that of a channel end *)
Definition notifyDest (e : EndpointRef) (time : Z) : MS unit :=
  match e with
  | ChanendOf n c k => chanend_notify (chanendOf n c k) time
  | SSwitchOf _ => undef
  end.

(** lib/ChanEndpoint.cpp:36-45 ChanEndpoint::release *)
Definition release (e : EndpointRef) (time : Z) : MS unit :=
  x ← endpoint e;
  match queue x with
  | [] => modEndpoint e (set_source None)
  | next :: rest =>
      _ ← modEndpoint e (fun x => set_queue rest (set_source (Some next) x));
      notifyDest next time
  end.

(** ** Receiving *)

(** lib/Chanend.cpp:276-290 Chanend::update *)
Definition update (r : Ref) (time : Z) : MS unit :=
  c ← chanend r;
  _ ← require (negb (rb_empty (buf c)));
  permitted ← eventsPermitted (ChanendRef r);
  if permitted : bool then event (ChanendRef r) time
  else
    match pausedIn c with
    | None => mret tt
    | Some t =>
        if waitForWord c && (rb_size (buf c) <? 4) then mret tt
        else
          _ ← modThread t (Thread.set_time time);
          _ ← schedule t;
          modChanend r (set_pausedIn None)
    end.

Definition pushToken (r : Ref) (tk : Token) : MS unit :=
  c ← chanend r; b ← lift (push_back CHANEND_BUFFER_SIZE tk (buf c)); putChanend r (set_buf b c).

(** lib/Chanend.cpp:12-15 Chanend::canAcceptToken *)
Definition chanend_canAcceptToken (r : Ref) : MS bool :=
  c ← chanend r; mret (negb (rb_full CHANEND_BUFFER_SIZE (buf c))).

(** lib/Chanend.cpp:17-20 Chanend::canAcceptTokens *)
Definition chanend_canAcceptTokens (r : Ref) (tokens : Z) : MS bool :=
  c ← chanend r; mret (tokens <=? remaining CHANEND_BUFFER_SIZE (buf c)).

(** lib/Chanend.cpp:22-26 Chanend::receiveDataToken *)
Definition chanend_receiveDataToken (r : Ref) (time value : Z) : MS unit :=
  _ ← pushToken r (mkToken value false); update r time.

(** lib/Chanend.cpp:28-34 Chanend::receiveDataTokens *)
Definition chanend_receiveDataTokens (r : Ref) (time : Z) (values : list Z) : MS unit :=
  _ ← forEach values (fun v => pushToken r (mkToken v false)); update r time.

(** lib/Chanend.cpp:36-52 Chanend::receiveCtrlToken *)
Definition chanend_receiveCtrlToken (r : Ref) (time value : Z) : MS unit :=
  if value =? CT_END then
    _ ← pushToken r (mkToken value true);
    _ ← release (endpointOf r) time;
    update r time
  else if value =? CT_PAUSE then release (endpointOf r) time
  else _ ← pushToken r (mkToken value true); update r time.

(** ** Inputs *)

(** lib/Chanend.cpp:215-219 Chanend::setPausedIn *)
Definition setPausedIn (r t : Ref) (wordInput : bool) : MS unit :=
  modChanend r (fun c => set_waitForWord wordInput (set_pausedIn (Some t) c)).

(** lib/Chanend.cpp:174-183 Chanend::testct: [None] when there is no token *)
Definition testct (r t : Ref) : MS (option bool) :=
  _ ← updateOwner (ChanendRef r) t;
  c ← chanend r;
  if rb_empty (buf c) then _ ← setPausedIn r t false; mret None
  else tk ← lift (RingBuffer.front (buf c)); mret (Some (isControl tk)).

(** The position of the first control token among the first [n] tokens, from 1, or 0. *)
Fixpoint controlPosition (b : ring_buffer Token) (i : Z) (n : nat) : option Z :=
  match n with
  | O => Some 0
  | S n =>
      tk ← rb_get CHANEND_BUFFER_SIZE b i;
      if isControl tk then Some (i + 1) else controlPosition b (i + 1) n
  end.

(** lib/Chanend.cpp:186-202 Chanend::testwct: [None] when the word is not complete *)
Definition testwct (r t : Ref) : MS (option Z) :=
  _ ← updateOwner (ChanendRef r) t;
  c ← chanend r;
  let numTokens := Z.min (rb_size (buf c)) 4 in
  position ← lift (controlPosition (buf c) 0 (Z.to_nat numTokens));
  if negb (position =? 0) then mret (Some position)
  else if rb_size (buf c) <? 4 then _ ← setPausedIn r t true; mret None
  else mret (Some 0).

(** [getSource()->notifyDestCanAcceptTokens(time, buf.remaining())] *)
Definition notifySource (r : Ref) (time : Z) : MS unit :=
  x ← endpoint (endpointOf r);
  match source x with Some e => notifyDest e time | None => mret tt end.

(** lib/Chanend.cpp:204-213 Chanend::poptoken: the assert, the value and the notification of the source *)
Definition poptoken (r : Ref) (time : Z) : MS Z :=
  c ← chanend r;
  _ ← require (negb (rb_empty (buf c)));
  tk ← lift (RingBuffer.front (buf c));
  _ ← putChanend r (set_buf (pop_front CHANEND_BUFFER_SIZE (buf c)) c);
  _ ← notifySource r time;
  mret (tokenValue tk).

(** lib/Chanend.cpp:222-232 Chanend::intoken *)
Definition intoken (r t : Ref) (time : Z) : MS (ResOpResult * Z) :=
  isCt ← testct r t;
  match isCt with
  | None => mret (DESCHEDULE, 0)
  | Some true => mret (ILLEGAL, 0)
  | Some false => v ← poptoken r time; mret (CONTINUE, v)
  end.

(** lib/Chanend.cpp:235-245 Chanend::inct *)
Definition inct (r t : Ref) (time : Z) : MS (ResOpResult * Z) :=
  isCt ← testct r t;
  match isCt with
  | None => mret (DESCHEDULE, 0)
  | Some false => mret (ILLEGAL, 0)
  | Some true => v ← poptoken r time; mret (CONTINUE, v)
  end.

(** lib/Chanend.cpp:248-258 Chanend::chkct *)
Definition chkct (r t : Ref) (time value : Z) : MS ResOpResult :=
  isCt ← testct r t;
  match isCt with
  | None => mret DESCHEDULE
  | Some false => mret ILLEGAL
  | Some true =>
      c ← chanend r; tk ← lift (RingBuffer.front (buf c));
      if negb (tokenValue tk =? value) then mret ILLEGAL
      else _ ← poptoken r time; mret CONTINUE
  end.

(** lib/Chanend.cpp:261-274 Chanend::in *)
Definition chanend_in (r t : Ref) (time : Z) : MS (ResOpResult * Z) :=
  position ← testwct r t;
  match position with
  | None => mret (DESCHEDULE, 0)
  | Some p =>
      if negb (p =? 0) then mret (ILLEGAL, 0)
      else
        c ← chanend r;
        let get i := rb_get CHANEND_BUFFER_SIZE (buf c) i in
        a ← lift (get 0); b ← lift (get 1); d ← lift (get 2); e ← lift (get 3);
        let value := (tokenValue a .<< 24) .| (tokenValue b .<< 16) .| (tokenValue d .<< 8) .| tokenValue e in
        _ ← putChanend r (set_buf (pop_front_n CHANEND_BUFFER_SIZE 4 (buf c)) c);
        _ ← notifySource r time;
        mret (CONTINUE, value)
  end.

(** ** Allocation and configuration *)

(** lib/Chanend.h:82-93 Chanend::alloc *)
Definition chanend_alloc (r t : Ref) : MS unit :=
  ev ← eventable (ChanendRef r); _ ← require (negb (inUse (ev_res ev)));
  _ ← modChanend r (fun c => set_junkPacket false (set_inPacket false
        (set_pausedIn None (set_pausedOut None (set_dest None c)))));
  _ ← eventableSetInUseOn (ChanendRef r) t;
  modEndpoint (endpointOf r) (set_junkIncoming false).

(** lib/Chanend.h:95-103 Chanend::free *)
Definition chanend_free (r : Ref) : MS bool :=
  c ← chanend r; x ← endpoint (endpointOf r);
  if negb (rb_empty (buf c)) || bool_decide (is_Some (source x)) || inPacket c then mret false
  else
    _ ← eventableSetInUseOff (ChanendRef r);
    _ ← modEndpoint (endpointOf r) (set_junkIncoming true);
    mret true.

(** lib/Chanend.cpp:88-98 Chanend::setData *)
Definition chanend_setData (r : Ref) (value : Z) : MS bool :=
  c ← chanend r;
  if inPacket c then mret false
  else if negb (rid_type value =? RES_TYPE_CHANEND) && negb (rid_type value =? RES_TYPE_CONFIG) then mret false
  else _ ← putChanend r (set_destID value c); mret true.

(** lib/Chanend.cpp:100-104 Chanend::getData *)
Definition chanend_getData (r : Ref) : MS Z := c ← chanend r; mret (destID c).

(** lib/Chanend.cpp:297-303 Chanend::seeEventEnable *)
Definition chanend_seeEventEnable (r : Ref) (time : Z) : MS bool :=
  c ← chanend r;
  if rb_empty (buf c) then mret false else _ ← event (ChanendRef r) time; mret true.

(** ** The switch as an endpoint *)

(** lib/SSwitch.h:28-29 writeRequestLength *)
Definition writeRequestLength : Z := 1 + 3 + 2 + 4.
(** lib/SSwitch.h:30-31 readRequestLength *)
Definition readRequestLength : Z := 1 + 3 + 2.

(** lib/SSwitch.h:19-25 SSwitch::Request *)
Record Request := mkRequest { isWrite : bool; returnNode : Z; returnNum : Z; regNum : Z; reqData : Z }.

Definition tokenAt (b : list Token) (i : Z) : option Z := tk ← array_get b i; Some (tokenValue tk).

(** lib/SSwitch.cpp:27-30 read16_be *)
Definition read16_be (b : list Token) (p : Z) : option Z :=
  x ← tokenAt b p; y ← tokenAt b (p + 1); Some ((x .<< 8) .| y).

(** lib/SSwitch.cpp:32-36 read32_be *)
Definition read32_be (b : list Token) (p : Z) : option Z :=
  w ← tokenAt b p; x ← tokenAt b (p + 1); y ← tokenAt b (p + 2); z ← tokenAt b (p + 3);
  Some ((w .<< 24) .| (x .<< 16) .| (y .<< 8) .| z).

(** lib/SSwitch.cpp:38-44 write32_be *)
Definition write32_be (b : list Token) (p value : Z) : option (list Token) :=
  b ← array_set b p (mkToken (u8 (value .>> 24)) false);
  b ← array_set b (p + 1) (mkToken ((value .>> 16) .& 0xff) false);
  b ← array_set b (p + 2) (mkToken ((value .>> 8) .& 0xff) false);
  array_set b (p + 3) (mkToken (value .& 0xff) false).

(** lib/SSwitch.cpp:46-53 containsControlToken: of [size] tokens from [p] *)
Definition containsControlToken (b : list Token) (p size : Z) : bool :=
  existsb isControl (take (Z.to_nat size) (drop (Z.to_nat p) b)).

(** lib/SSwitch.cpp:55-87 SSwitch::parseRequest *)
Definition parseRequest (w : SSwitch) : option (option Request) :=
  if recievedTokens w =? 0 then Some None
  else
    t0 ← array_get (ss_buf w) 0;
    if negb (isControl t0) then Some None
    else
      let v := tokenValue t0 in
      if negb ((v =? CT_READC) || (v =? CT_WRITEC)) then Some None
      else
        let isW := v =? CT_WRITEC in
        let expectedLength := if isW then writeRequestLength else readRequestLength in
        if negb (recievedTokens w =? expectedLength) then Some None
        else if containsControlToken (ss_buf w) 1 (expectedLength - 1) then Some None
        else
          node ← read16_be (ss_buf w) 1; num ← tokenAt (ss_buf w) 3; reg ← read16_be (ss_buf w) 4;
          d ← (if isW then read32_be (ss_buf w) 6 else Some 0);
          Some (Some (mkRequest isW node num reg d)).

(** The access to the register a request asks for: whether it succeeded, and the value read. *)
Definition accessRegister (n : nat) (request : Request) : MS (bool * Z) :=
  s ← get; node ← lift (net s !! n); w ← switch n;
  if negb (nodeID node =? returnNode request) then mret (true, 0)
  else if isWrite request then
    r ← lift (SSwitchRegs.write node (ctrlRegs w) (regNum request) (reqData request));
    match r with
    | Some (node', regs') =>
        _ ← modify (fun s => set_net (<[n := node']> (net s)) s);
        _ ← putSwitch n (set_ctrlRegs regs' w);
        mret (true, 0)
    | None => mret (false, 0)
    end
  else
    r ← lift (SSwitchRegs.read (net s) node (ctrlRegs w) (regNum request));
    match r with Some v => mret (true, v) | None => mret (false, 0) end.

(** The tokens of a response. *)
Definition responseTokens (ack : bool) (request : Request) (value : Z) (b : list Token) : option (list Token * Z) :=
  '(b, len) ← (if ack : bool then
                 b ← array_set b 0 (mkToken CT_ACK true);
                 if negb (isWrite request) then b ← write32_be b 1 value; Some (b, 5) else Some (b, 1)
               else b ← array_set b 0 (mkToken CT_NACK true); Some (b, 1));
  b ← array_set b len (mkToken CT_END true); Some (b, len + 1).

Definition sendToken (r : Ref) (time : Z) (tk : Token) : MS unit :=
  if isControl tk then chanend_receiveCtrlToken r time (tokenValue tk)
  else chanend_receiveDataToken r time (tokenValue tk).

(** lib/SSwitch.cpp:89-150 SSwitch::handleRequest: a response goes to a channel end *)
Definition handleRequest (n : nat) (time : Z) (request : Request) : MS unit :=
  let destID := chanendID (returnNum request) (returnNode request) in
  '(ack, value) ← accessRegister n request;
  s ← get;
  dest ← lift (getOutgoingChanendDest (S (length (net s))) (net s) n destID);
  match dest with
  | None => mret tt
  | Some (SSwitchOf _) => undef
  | Some (ChanendOf n' c' k' as d) =>
      '(open, junk) ← claim d (SSwitchOf n) false;
      _ ← require open;
      if junk : bool then mret tt
      else
        w ← switch n;
        '(b, len) ← lift (responseTokens ack request value (ss_buf w));
        _ ← putSwitch n (set_responseLength len (set_sentTokens 0 (set_sendingResponse true (set_ss_buf b w))));
        let r := chanendOf n' c' k' in
        ok ← chanend_canAcceptTokens r len;
        _ ← require ok;
        _ ← forEach (take (Z.to_nat len) b) (sendToken r time);
        w ← switch n;
        putSwitch n (set_sendingResponse false w)
  end.

(** lib/SSwitch.cpp:174-184 SSwitch::receiveDataToken *)
Definition switch_receiveToken (n : nat) (tk : Token) : MS unit :=
  w ← switch n;
  if junkIncomingTokens w then mret tt
  else if recievedTokens w =? writeRequestLength then putSwitch n (set_junkIncomingTokens true w)
  else
    b ← lift (array_set (ss_buf w) (recievedTokens w) tk);
    putSwitch n (set_ss_buf b (set_recievedTokens (recievedTokens w + 1) w)).

(** lib/SSwitch.cpp:186-198 SSwitch::receiveDataTokens *)
Definition switch_receiveDataTokens (n : nat) (values : list Z) : MS unit :=
  w ← switch n;
  if junkIncomingTokens w then mret tt
  else if writeRequestLength <? recievedTokens w + zlength values then putSwitch n (set_junkIncomingTokens true w)
  else forEach values (fun v =>
    w ← switch n;
    b ← lift (array_set (ss_buf w) (recievedTokens w) (mkToken v false));
    putSwitch n (set_ss_buf b (set_recievedTokens (recievedTokens w + 1) w))).

(** lib/SSwitch.cpp:200-224 SSwitch::receiveCtrlToken *)
Definition switch_receiveCtrlToken (n : nat) (time value : Z) : MS unit :=
  if value =? CT_END then
    w ← switch n;
    req ← (if negb (junkIncomingTokens w) then lift (parseRequest w) else mret None);
    _ ← match req with Some request => handleRequest n time request | None => mret tt end;
    w ← switch n;
    _ ← putSwitch n (set_junkIncomingTokens false (set_recievedTokens 0 w));
    release (SSwitchOf n) time
  else if value =? CT_PAUSE then release (SSwitchOf n) time
  else switch_receiveToken n (mkToken value true).

(** ** Outputs *)

(** lib/SSwitch.cpp:164-167 SSwitch::canAcceptToken: and that of a channel end *)
Definition canAcceptTokens (e : EndpointRef) (tokens : Z) : MS bool :=
  match e with
  | ChanendOf n c k => chanend_canAcceptTokens (chanendOf n c k) tokens
  | SSwitchOf n => w ← switch n; mret (negb (sendingResponse w))
  end.

Definition canAcceptToken (e : EndpointRef) : MS bool :=
  match e with
  | ChanendOf n c k => chanend_canAcceptToken (chanendOf n c k)
  | SSwitchOf n => w ← switch n; mret (negb (sendingResponse w))
  end.

Definition receiveDataToken (e : EndpointRef) (time value : Z) : MS unit :=
  match e with
  | ChanendOf n c k => chanend_receiveDataToken (chanendOf n c k) time value
  | SSwitchOf n => switch_receiveToken n (mkToken value false)
  end.

Definition receiveDataTokens (e : EndpointRef) (time : Z) (values : list Z) : MS unit :=
  match e with
  | ChanendOf n c k => chanend_receiveDataTokens (chanendOf n c k) time values
  | SSwitchOf n => switch_receiveDataTokens n values
  end.

Definition receiveCtrlToken (e : EndpointRef) (time value : Z) : MS unit :=
  match e with
  | ChanendOf n c k => chanend_receiveCtrlToken (chanendOf n c k) time value
  | SSwitchOf n => switch_receiveCtrlToken n time value
  end.

(** lib/Chanend.cpp:73-86 Chanend::openRoute *)
Definition openRoute (r : Ref) : MS bool :=
  c ← chanend r;
  if inPacket c then mret true
  else
    ev ← eventable (ChanendRef r); o ← lift (owner ev);
    s ← get;
    d ← lift (getChanendDest (net s) o.1.1 o.1.2 (destID c));
    _ ← putChanend r (set_dest d c);
    match d with
    | None =>
        _ ← modChanend r (fun c => set_inPacket true (set_junkPacket true c)); mret true
    | Some e =>
        '(open, junk) ← claim e (endpointOf r) (junkPacket c);
        _ ← modChanend r (set_junkPacket junk);
        if negb open then mret false else _ ← modChanend r (set_inPacket true); mret true
    end.

Definition pauseOut (r t : Ref) : MS ResOpResult := _ ← modChanend r (set_pausedOut (Some t)); mret DESCHEDULE.

(** lib/Chanend.cpp:107-121 Chanend::outt *)
Definition outt (r t : Ref) (value time : Z) : MS ResOpResult :=
  ok ← openRoute r;
  if negb ok then pauseOut r t
  else
    c ← chanend r;
    if junkPacket c then mret CONTINUE
    else
      e ← lift (dest c);
      ok ← canAcceptToken e;
      if negb ok then pauseOut r t else _ ← receiveDataToken e time value; mret CONTINUE.

(** lib/Chanend.cpp:124-145 Chanend::out *)
Definition chanend_out (r t : Ref) (value time : Z) : MS ResOpResult :=
  ok ← openRoute r;
  if negb ok then pauseOut r t
  else
    c ← chanend r;
    if junkPacket c then mret CONTINUE
    else
      e ← lift (dest c);
      ok ← canAcceptTokens e 4;
      if negb ok then pauseOut r t
      else
        _ ← receiveDataTokens e time
              [u8 (value .>> 24); u8 (value .>> 16); u8 (value .>> 8); u8 value];
        mret CONTINUE.

(** lib/Chanend.cpp:148-171 Chanend::outct *)
Definition outct (r t : Ref) (value time : Z) : MS ResOpResult :=
  ok ← openRoute r;
  if negb ok then pauseOut r t
  else
    c ← chanend r;
    let ends := (value =? CT_END) || (value =? CT_PAUSE) in
    if junkPacket c then
      _ ← when ends (modChanend r (fun c => set_junkPacket false (set_inPacket false c)));
      mret CONTINUE
    else
      e ← lift (dest c);
      ok ← canAcceptToken e;
      if negb ok then pauseOut r t
      else
        _ ← receiveCtrlToken e time value;
        _ ← when ends (modChanend r (fun c => set_dest None (set_inPacket false c)));
        mret CONTINUE.
End chanends.
