(* ===== verification/ChanendFacts.v ===== *)
(** * Packets on channels

    Every operation on channel ends keeps the routes exclusive and the buffers within bounds;
    a word sent is the word received; a request to a switch is parsed as it was sent. *)

From Stdlib Require Import ZArith Lia.
From stdpp Require Import base list numbers option gmap.
From S2P Require Import Prelude Opcode.
From S2P Require Import Refs RingBuffer Resource Node SSwitchRegs RunnableQueue SchedulerMap.
From S2P Require Import StateMonad Thread SysState Events SysFacts Chanend.

#[local] Open Scope Z_scope.
#[local] Open Scope cbits_scope.

#[local] Hint Extern 1 (keeps _ (modify _)) => (apply keeps_modify; done) : keeps.

Section frame.
Context {P : Type} `{PortEventsOk P}.
Implicit Types s : Sys P.

(** The state of the channels. *)
Definition comm s := (net s, chanends s, endpoints s, switches s).

Section one.
Context (v : Net * gmap Ref Chanend * gmap EndpointRef ChanEndpoint * gmap nat SSwitch).
Abbreviation same := (fun s => comm s = v).

Lemma comm_thread t : keeps same (thread t).
Proof. unfold thread. keeps_auto. Qed.
Lemma comm_putThread t x : keeps same (putThread t x).
Proof. unfold putThread. keeps_auto. Qed.
Lemma comm_eventable t : keeps same (eventable t).
Proof. unfold eventable. keeps_auto. Qed.
Lemma comm_putEventable t x : keeps same (putEventable t x).
Proof. unfold putEventable. keeps_auto. Qed.
#[local] Hint Resolve comm_thread comm_putThread comm_eventable comm_putEventable : keeps.
Lemma comm_modThread t f : keeps same (modThread t f).
Proof. unfold modThread. keeps_auto. Qed.
Lemma comm_modEventable t f : keeps same (modEventable t f).
Proof. unfold modEventable. keeps_auto. Qed.
#[local] Hint Resolve comm_modThread comm_modEventable : keeps.
Lemma comm_scheduleOther x time : keeps same (scheduleOther x time).
Proof. unfold scheduleOther. keeps_auto. Qed.
#[local] Hint Resolve comm_scheduleOther : keeps.
Lemma comm_schedule t : keeps same (schedule t).
Proof. unfold schedule. keeps_auto. Qed.
#[local] Hint Resolve comm_schedule : keeps.
Lemma comm_cancel p : keeps same (cancel p).
Proof. unfold cancel, modSync, synchroniser, putSync. keeps_auto. Qed.
Lemma comm_setPendingEvent e time i : keeps same (setPendingEvent e time i).
Proof. unfold setPendingEvent. keeps_auto. Qed.
Lemma comm_setReg t r x : keeps same (setReg t r x).
Proof. unfold setReg. keeps_auto. Qed.
Lemma comm_setSRBit t b x : keeps same (setSRBit t b x).
Proof. unfold setSRBit. keeps_auto. Qed.
Lemma comm_base_completeEvent e : keeps same (base_completeEvent e).
Proof. unfold base_completeEvent, getTruncatedEV, writeReg, nodeType, core. keeps_auto. Qed.
Lemma comm_port e : keeps same (port_completeEvent e).
Proof.
  intros s Hs. eapply wlp_mono; [apply port_completeEvent_local |]. cbn. intros _ s' ->. done.
Qed.
#[local] Hint Resolve comm_cancel comm_setPendingEvent comm_setReg comm_setSRBit comm_base_completeEvent
  comm_port : keeps.
Lemma comm_completeEvent t e i : keeps same (completeEvent t e i).
Proof. unfold completeEvent, res_completeEvent, thread_fromPc, decodeCache, core, getReg. keeps_auto. Qed.
#[local] Hint Resolve comm_completeEvent : keeps.
Lemma comm_eventsPermitted e : keeps same (eventsPermitted e).
Proof. unfold eventsPermitted. keeps_auto. Qed.
#[local] Hint Resolve comm_eventsPermitted : keeps.
Lemma comm_event e time : keeps same (event e time).
Proof. unfold event, isExecuting, takeEvent. keeps_auto. Qed.
Lemma comm_addEnabled i t e : keeps same (addEnabled i t e).
Proof. unfold addEnabled. keeps_auto. Qed.
Lemma comm_removeEnabled i t e : keeps same (removeEnabled i t e).
Proof. unfold removeEnabled. keeps_auto. Qed.
#[local] Hint Resolve comm_event comm_addEnabled comm_removeEnabled : keeps.
Lemma comm_updateOwner e t : keeps same (updateOwner e t).
Proof. unfold updateOwner, updateOwnerAux. keeps_auto. Qed.
Lemma comm_clearOwner e : keeps same (clearOwner e).
Proof. unfold clearOwner. keeps_auto. Qed.
#[local] Hint Resolve comm_clearOwner : keeps.
Lemma comm_setInUseOn e t : keeps same (eventableSetInUseOn e t).
Proof. unfold eventableSetInUseOn. keeps_auto. Qed.
Lemma comm_setInUseOff e : keeps same (eventableSetInUseOff e).
Proof. unfold eventableSetInUseOff. keeps_auto. Qed.
End one.
End frame.

(** ** The invariant *)

Abbreviation buf_wf c := (ring_wf CHANEND_BUFFER_SIZE (SysState.buf c)).

Lemma push_back_wf {A} B (t : A) r r' : ring_wf B r -> push_back B t r = Some r' -> numEntries r < B ->
  ring_wf B r' /\ numEntries r' = numEntries r + 1.
Proof.
  intros [Wl Ws Wr We Ww] E Hn. apply bind_Some in E as (b & (Hi & Lb & _)%array_set_spec & [= <-]).
  assert (0 <= writeIdx r < B) by lia.
  rewrite (wrap_small 32 (writeIdx r + 1)), (wrap_small 32 (numEntries r + 1)) by (unfold fits; lia).
  split; [| done]. split; cbn; try lia. rewrite Ww, Zplus_mod_idemp_l. f_equal. lia.
Qed.

Lemma pop_front_n_wf {A} B n (r : ring_buffer A) : ring_wf B r -> 0 <= n <= numEntries r ->
  ring_wf B (pop_front_n B n r) /\ numEntries (pop_front_n B n r) = numEntries r - n.
Proof.
  intros W Hn. pose proof W as [Wl Ws Wr We Ww]. unfold pop_front_n.
  rewrite (ring_idx B r n) by (done || lia). rewrite (wrap_small 32 (numEntries r - n)) by (unfold fits; lia).
  split; [| done]. split; cbn; try lia; [apply Z.mod_pos_bound; lia |].
  rewrite Zplus_mod_idemp_l, Ww. f_equal. lia.
Qed.

Lemma endpointOf_inj r r' : endpointOf r = endpointOf r' -> r = r'.
Proof. destruct r as [[n c] k], r' as [[n' c'] k']. unfold endpointOf. cbn. intros [= -> -> ->%Nat2Z.inj]. done. Qed.

Lemma chanendOf_endpointOf r : chanendOf r.1.1 r.1.2 (Z.of_nat r.2) = r.
Proof. destruct r as [[n c] k]. unfold chanendOf. cbn. by rewrite Nat2Z.id. Qed.

(** A destination found by routing is a channel end with a number. *)
Lemma rid_num_nonneg id : 0 <= rid_num id.
Proof. unfold rid_num. apply land_nonneg_r. done. Qed.

Lemma core_local_num n ni ci c id e : Core_getLocalChanendDest n ni ci c id = Some (Some (Some e)) ->
  exists n' c', e = ChanendOf n' c' (rid_num id).
Proof.
  unfold Core_getLocalChanendDest. intros E. repeat (case_match || simplify_option_eq).
  match goal with H : getResourceByID _ _ = Some _ |- _ =>
    unfold getResourceByID in H; repeat (case_match || simplify_option_eq); eauto end.
  match goal with H : getPortByID _ _ = Some _ |- _ =>
    unfold getPortByID in H; repeat (case_match || simplify_option_eq) end.
Qed.

Lemma local_num n ni id e : getLocalChanendDest n ni id = Some (Some e) ->
  exists n' c', e = ChanendOf n' c' (rid_num id).
Proof.
  unfold getLocalChanendDest. intros E. case_match; [| done]. apply bind_Some in E as (d & _ & E).
  case_match; [done |]. apply bind_Some in E as (c & _ & E). apply bind_Some in E as (r & Er & [= E]).
  destruct r as [[e'|]|]; simplify_eq/=. by eapply core_local_num.
Qed.

Lemma incoming_num net n id e : getIncomingChanendDest net n id = Some (Some e) ->
  (exists n' c', e = ChanendOf n' c' (rid_num id)) \/ exists m, e = SSwitchOf m /\ isConfig id = true.
Proof.
  unfold getIncomingChanendDest. intros E. apply bind_Some in E as (r & _ & E). destruct r as [d|]; [| done].
  destruct (isConfig id && (rid_num id =? RES_CONFIG_SSCTRL)) eqn:Hc.
  - apply andb_true_iff in Hc as [Hc _]. simplify_eq. right. eauto.
  - left. apply bind_Some in E as (nd & _ & E). by eapply local_num.
Qed.

Lemma outgoing_num fuel net n id e : getOutgoingChanendDest fuel net n id = Some (Some e) ->
  (exists n' c', e = ChanendOf n' c' (rid_num id)) \/ exists m, e = SSwitchOf m /\ isConfig id = true.
Proof.
  revert n. induction fuel as [|fuel IH]; intros n E; [done |]. cbn [getOutgoingChanendDest] in E.
  apply bind_Some in E as (nd & _ & E). destruct (kind nd); [by eapply incoming_num |].
  apply bind_Some in E as (x & _ & E). apply bind_Some in E as (conn & _ & E).
  destruct conn; [| done]. apply bind_Some in E as (d & _ & E). by eapply IH.
Qed.

Lemma endpointOf_dest n c k id :
  (exists n' c', ChanendOf n c k = ChanendOf n' c' (rid_num id)) \/
  (exists m, ChanendOf n c k = SSwitchOf m /\ isConfig id = true) ->
  ChanendOf n c k = endpointOf (chanendOf n c k).
Proof.
  intros [(? & ? & [= -> -> ->])|(? & ? & _)]; [| done]. unfold endpointOf, chanendOf. cbn.
  by rewrite Z2Nat.id by apply rid_num_nonneg.
Qed.

Section invariant.
Context {P : Type} `{PortEventsOk P}.
Implicit Types s : Sys P.

(** A switch, or a channel end with a number. *)
Definition proper (e : EndpointRef) : Prop :=
  forall n c k, e = ChanendOf n c k -> e = endpointOf (chanendOf n c k).

(** A channel end in the middle of a packet that is not thrown away is the source its
    destination receives from. *)
Definition route_open s (r : Ref) (c : Chanend) : Prop :=
  inPacket c = true -> junkPacket c = false ->
  exists e x, dest c = Some e /\ endpoints s !! e = Some x /\ source x = Some (endpointOf r).

(** The invariant, for all channel ends but [but]: buffers are well formed, destinations are
    endpoints, routes are open, and nobody waits for an endpoint that has no source. *)
Record chan_inv (but : option Ref) s : Prop := {
  ci_buf : forall r c, chanends s !! r = Some c -> buf_wf c;
  ci_dest : forall r c e, chanends s !! r = Some c -> dest c = Some e -> proper e;
  ci_route : forall r c, chanends s !! r = Some c -> but <> Some r -> route_open s r c;
  ci_idle : forall e x, endpoints s !! e = Some x -> source x = None -> queue x = []
}.

Lemma comm_fields s s' : comm s' = comm s ->
  net s' = net s /\ chanends s' = chanends s /\ endpoints s' = endpoints s /\ switches s' = switches s.
Proof. unfold comm. by intros [= -> -> -> ->]. Qed.

Lemma chan_inv_ext b s s' : chanends s' = chanends s -> endpoints s' = endpoints s -> chan_inv b s -> chan_inv b s'.
Proof.
  intros Ec Ee [B D R I]. split; unfold route_open; rewrite ?Ec, ?Ee; [done | done | exact R | done].
Qed.

Lemma wlp_frame {A} (m : M (Sys P) A) Q s : (forall v, keeps (fun s => comm s = v) m) ->
  (forall a s', comm s' = comm s -> Q a s') -> wlp m Q s.
Proof. intros Hf HQ. eapply wlp_mono; [by apply Hf |]. intros a s' Hs'. by apply HQ. Qed.

(** Changing a channel end. *)
Lemma chan_inv_put b s r c c' : chan_inv b s -> chanends s !! r = Some c -> buf_wf c' ->
  (forall e, dest c' = Some e -> proper e) ->
  (b <> Some r -> route_open s r c') -> chan_inv b (set_chanends (<[r := c']> (chanends s)) s).
Proof.
  intros [B D R I] Hc Hb Hd Hr. split; cbn.
  - intros r1 c1 [[<- <-]|[? ?]]%lookup_insert_Some; eauto.
  - intros r1 c1 e1 [[<- <-]|[? ?]]%lookup_insert_Some; eauto.
  - intros r1 c1 [[<- <-]|[? ?]]%lookup_insert_Some Hne; [by apply Hr | by apply R].
  - done.
Qed.

Lemma chan_inv_same b s r c c' : chan_inv b s -> chanends s !! r = Some c ->
  SysState.buf c' = SysState.buf c -> inPacket c' = inPacket c -> junkPacket c' = junkPacket c -> dest c' = dest c ->
  chan_inv b (set_chanends (<[r := c']> (chanends s)) s).
Proof.
  intros I Hc Eb Ei Ej Ed. eapply chan_inv_put; [done | done | | |].
  - rewrite Eb. by eapply ci_buf.
  - rewrite Ed. intros e. by eapply ci_dest.
  - intros Hne. unfold route_open. rewrite Ei, Ej, Ed. by eapply ci_route.
Qed.

(** The buffer of [r] has room for [n] more tokens. *)
Definition room s (r : Ref) (n : Z) : Prop := forall c, chanends s !! r = Some c ->
  numEntries (SysState.buf c) + n <= CHANEND_BUFFER_SIZE.

(** What the small steps of sending keep: the invariant, the room in every buffer, and the
    endpoints. *)
Definition steady b s0 s : Prop := chan_inv b s /\ endpoints s = endpoints s0 /\
  forall r n, room s0 r n -> room s r n.

Lemma steady_refl b s : chan_inv b s -> steady b s s.
Proof. done. Qed.

Lemma steady_frame b s0 s s' : comm s' = comm s -> steady b s0 s -> steady b s0 s'.
Proof.
  intros (_ & Ec & Ee & _)%comm_fields (I & E & R). split; [by eapply chan_inv_ext |]. split; [congruence |].
  intros r n Hr. unfold room. rewrite Ec. by apply R.
Qed.

Lemma steady_same b s0 s r c c' : steady b s0 s -> chanends s !! r = Some c ->
  SysState.buf c' = SysState.buf c -> inPacket c' = inPacket c -> junkPacket c' = junkPacket c -> dest c' = dest c ->
  steady b s0 (set_chanends (<[r := c']> (chanends s)) s).
Proof.
  intros (I & E & R) Hc Eb Ei Ej Ed. split; [by eapply chan_inv_same |]. split; [done |].
  intros r1 n Hr c1. cbn. intros [[<- <-]|[? ?]]%lookup_insert_Some; [rewrite Eb |]; eapply R; eauto.
Qed.

Lemma steady_chanend_notify b s0 s r time : steady b s0 s -> wlp (chanend_notify r time) (fun _ => steady b s0) s.
Proof.
  intros S. unfold chanend_notify. apply wlp_bind, wlp_chanend. intros c Hc.
  destruct (pausedOut c); [| by apply wlp_ret].
  apply wlp_bind, wlp_frame; [intros; apply comm_modThread |]. cbn beta. intros _ s1 E1.
  apply wlp_bind, wlp_frame; [intros; apply comm_schedule |]. cbn beta. intros _ s2 E2.
  apply wlp_modChanend. intros c2 Hc2. eapply steady_same; try done.
  eapply steady_frame; [| exact S]. congruence.
Qed.

Lemma steady_notifyDest b s0 s e time : steady b s0 s -> wlp (notifyDest e time) (fun _ => steady b s0) s.
Proof. intros S. destruct e; [by apply steady_chanend_notify | done]. Qed.

Lemma steady_update b s0 s r time : steady b s0 s -> wlp (update r time) (fun _ => steady b s0) s.
Proof.
  intros S. unfold update. apply wlp_bind, wlp_chanend. intros c Hc.
  apply wlp_bind, wlp_require. intros _.
  apply wlp_bind, wlp_frame; [intros; apply comm_eventsPermitted |]. intros p s1 E1.
  assert (steady b s0 s1) as S1 by (by eapply steady_frame). destruct p.
  - apply wlp_frame; [intros; apply comm_event |]. cbn beta. intros _ s2 E2. by eapply steady_frame.
  - destruct (pausedIn c); [| by apply wlp_ret]. case_match; [by apply wlp_ret |].
    apply wlp_bind, wlp_frame; [intros; apply comm_modThread |]. cbn beta. intros _ s2 E2.
    apply wlp_bind, wlp_frame; [intros; apply comm_schedule |]. cbn beta. intros _ s3 E3.
    apply wlp_modChanend. intros c3 Hc3. eapply steady_same; try done.
    eapply steady_frame; [| exact S1]. congruence.
Qed.

(** Ending the packet that the endpoint [e] receives: only the route of its source closes. *)
Lemma release_spec b s e time : chan_inv b s ->
  (forall x r, endpoints s !! e = Some x -> source x = Some (endpointOf r) -> b = Some r) ->
  wlp (release e time) (fun _ s' => chan_inv b s' /\
    (forall e', e' <> e -> endpoints s' !! e' = endpoints s !! e') /\
    (forall r n, room s r n -> room s' r n)) s.
Proof.
  intros I Hb. unfold release. apply wlp_bind, wlp_endpoint. intros x Hx.
  assert (forall f : ChanEndpoint -> ChanEndpoint, (source (f x) = None -> queue (f x) = []) ->
    chan_inv b (set_endpoints (<[e := f x]> (endpoints s)) s)) as Hf.
  { intros f Hfi. destruct I as [B D R Id]. split; cbn.
    - done.
    - done.
    - intros r c Hc Hne Hp Hj. destruct (R r c Hc Hne Hp Hj) as (e' & x' & Ed & Ex & Es).
      exists e', x'. split; [done |]. cbn. rewrite lookup_insert_ne; [done |]. intros <-.
      apply Hne. eapply Hb; [done |]. congruence.
    - intros e' x' [[<- <-]|[? ?]]%lookup_insert_Some; eauto. }
  destruct (queue x) as [|next rest] eqn:Eq.
  - apply wlp_modEndpoint. intros x' Hx'. assert (x' = x) as -> by congruence. split; [| split].
    + apply Hf. done.
    + intros e' Hne. cbn. by rewrite lookup_insert_ne.
    + done.
  - apply wlp_bind, wlp_modEndpoint. intros x' Hx'. assert (x' = x) as -> by congruence.
    set (s1 := set_endpoints _ s). assert (chan_inv b s1) as I1 by (by apply (Hf (fun x => _ (_ x)))).
    eapply wlp_mono; [apply (steady_notifyDest b s1); by apply steady_refl |].
    cbn. intros _ s2 (I2 & E2 & R2). split; [done |]. split; [| done].
    intros e' Hne. rewrite E2. cbn. by rewrite lookup_insert_ne.
Qed.

(** [s] results from [s0] by filling the buffer of [r] with [n] tokens. *)
Definition filled b s0 s (r : Ref) (n : Z) : Prop :=
  chan_inv b s /\ endpoints s = endpoints s0 /\ forall k, room s0 r (k + n) -> room s r k.

Lemma filled_steady b s0 s s' r n : filled b s0 s r n -> steady b s s' -> filled b s0 s' r n.
Proof.
  intros (I & E & R) (I' & E' & R'). split; [done |]. split; [congruence |].
  intros k Hk. by apply R', R.
Qed.

Lemma pushToken_spec b s r tk : chan_inv b s -> room s r 1 ->
  wlp (pushToken r tk) (fun _ s' => filled b s s' r 1) s.
Proof.
  intros I Hr. unfold pushToken. apply wlp_bind, wlp_chanend. intros c Hc.
  apply wlp_bind, wlp_lift. intros b' E. apply wlp_modify.
  pose proof (Hr c Hc) as Hroom. pose proof (ci_buf _ _ I _ _ Hc) as W.
  destruct (push_back_wf _ _ _ _ W E ltac:(lia)) as [W' Hn].
  split; [eapply chan_inv_put; [done | done | done | intros e; by apply (ci_dest _ _ I r c) |] |].
  - intros Hne. by eapply ci_route in Hc.
  - split; [done |]. intros k Hk c1. cbn. rewrite lookup_insert_eq. intros [= <-]. cbn.
    specialize (Hk c Hc). lia.
Qed.

Lemma forEach_pushToken b s0 s r l n : filled b s0 s r n -> room s0 r (n + zlength l) ->
  wlp (forEach l (fun v => pushToken r (mkToken v false))) (fun _ s' => filled b s0 s' r (n + zlength l)) s.
Proof.
  revert s n. induction l as [|v l IH]; intros s n F Hr; cbn [forEach length].
  { apply wlp_ret. cbn. by rewrite Z.add_0_r. }
  cbn [length] in Hr. destruct F as (I & E & R). apply wlp_bind.
  eapply wlp_mono; [apply (pushToken_spec b); [done | apply R; intros c Hc; specialize (Hr c Hc); lia] |].
  intros _ s1 (I1 & E1 & R1). eapply wlp_mono; [apply (IH s1 (n + 1)) |].
  - split; [done |]. split; [congruence |]. intros k Hk. apply R1, R.
    intros c Hc. specialize (Hk c Hc). lia.
  - intros c Hc. specialize (Hr c Hc). lia.
  - cbn beta. intros _ s2 F2. by replace (n + Z.of_nat (S (length l))) with (n + 1 + zlength l) by lia.
Qed.

Lemma receiveData_spec b s r time v : chan_inv b s -> room s r 1 ->
  wlp (chanend_receiveDataToken r time v) (fun _ s' => filled b s s' r 1) s.
Proof.
  intros I Hr. unfold chanend_receiveDataToken. apply wlp_bind.
  eapply wlp_mono; [by apply pushToken_spec |]. cbn beta. intros _ s1 F1.
  eapply wlp_mono; [apply (steady_update b s1); apply steady_refl, F1 |]. cbn beta. intros _ s2 S2.
  by eapply filled_steady.
Qed.

Lemma receiveDatas_spec b s r time l : chan_inv b s -> room s r (zlength l) ->
  wlp (chanend_receiveDataTokens r time l) (fun _ s' => filled b s s' r (zlength l)) s.
Proof.
  intros I Hr. unfold chanend_receiveDataTokens. apply wlp_bind.
  eapply wlp_mono; [apply (forEach_pushToken b s s r l 0); [split; [done |] | done] |].
  { split; [done |]. intros k. by rewrite Z.add_0_r. }
  cbn beta. intros _ s1 F1. rewrite Z.add_0_l in F1.
  eapply wlp_mono; [apply (steady_update b s1); apply steady_refl, F1 |]. cbn beta. intros _ s2 S2.
  by eapply filled_steady.
Qed.

(** Whether a control token ends a packet. *)
Definition ends (v : Z) : bool := (v =? CT_END) || (v =? CT_PAUSE).

(** A control token that does not end the packet. *)
Lemma receiveCtrl_spec b s r time v : chan_inv b s -> room s r 1 -> ends v = false ->
  wlp (chanend_receiveCtrlToken r time v) (fun _ s' => filled b s s' r 1) s.
Proof.
  intros I Hr [Hv1 Hv2]%orb_false_iff. unfold chanend_receiveCtrlToken. rewrite Hv1, Hv2.
  apply wlp_bind. eapply wlp_mono; [by apply pushToken_spec |]. cbn beta. intros _ s1 F1.
  eapply wlp_mono; [apply (steady_update b s1); apply steady_refl, F1 |]. cbn beta. intros _ s2 S2.
  by eapply filled_steady.
Qed.

(** The control token that ends the packet of [e]'s source. *)
Lemma receiveEnd_spec b s r time v : chan_inv b s -> room s r 1 -> ends v = true ->
  (forall x r', endpoints s !! endpointOf r = Some x -> source x = Some (endpointOf r') -> b = Some r') ->
  wlp (chanend_receiveCtrlToken r time v) (fun _ s' => chan_inv b s' /\
    forall e, e <> endpointOf r -> endpoints s' !! e = endpoints s !! e) s.
Proof.
  intros I Hr He Hb. unfold chanend_receiveCtrlToken. destruct (v =? CT_END) eqn:Ev.
  - apply wlp_bind. eapply wlp_mono; [by apply (pushToken_spec b) |]. cbn beta. intros _ s1 (I1 & E1 & _).
    apply wlp_bind. eapply wlp_mono; [apply (release_spec b); [done | by rewrite E1] |].
    cbn beta. intros _ s2 (I2 & E2 & _).
    eapply wlp_mono; [apply (steady_update b s2); by apply steady_refl |]. cbn beta. intros _ s3 (I3 & E3 & _).
    split; [done |]. intros e Hne. rewrite E3, E2, E1 by done. done.
  - unfold ends in He. rewrite Ev in He. cbn in He. rewrite He.
    eapply wlp_mono; [by apply (release_spec b) |]. cbn beta. intros _ s2 (I2 & E2 & _). done.
Qed.

(** Trying to open a route. *)
Lemma claim_spec b s e src junk : chan_inv b s ->
  wlp (claim e src junk) (fun res s' => chan_inv b s' /\ chanends s' = chanends s /\
    (forall e', e' <> e -> endpoints s' !! e' = endpoints s !! e') /\
    (res.1 = true -> res.2 = false -> exists x, endpoints s' !! e = Some x /\ source x = Some src)) s.
Proof.
  intros I. unfold claim. apply wlp_bind, wlp_endpoint. intros x Hx.
  assert (forall x', (forall r, source x = Some (endpointOf r) -> source x' = source x) -> source x' <> None ->
    chan_inv b (set_endpoints (<[e := x']> (endpoints s)) s)) as Hf.
  { intros x' Hsame Hn. destruct I as [B D R Id]. split; cbn.
    - done.
    - done.
    - intros r c Hc Hne Hp Hj. destruct (R r c Hc Hne Hp Hj) as (e1 & x1 & Ed & Ex & Es). cbn.
      destruct (decide (e = e1)) as [<-|Hne1].
      + exists e, x'. rewrite lookup_insert_eq. split_and!; try done. assert (x1 = x) as -> by congruence.
        by rewrite (Hsame r).
      + exists e1, x1. by rewrite lookup_insert_ne.
    - intros e1 x1 [[<- <-]|[? ?]]%lookup_insert_Some; [done | eauto]. }
  destruct (junkIncoming x); [by apply wlp_ret |].
  destruct (bool_decide_reflect (source x = Some src)) as [Hs|Hs]; [by apply wlp_ret; eauto 6 |].
  destruct (source x) as [src0|] eqn:Es.
  - apply wlp_bind, wlp_modEndpoint. intros x' Hx'. assert (x' = x) as -> by congruence. apply wlp_ret.
    cbn. split; [apply Hf; [done | cbn; by rewrite Es] |]. split_and!; try done.
    intros e' Hne. by rewrite lookup_insert_ne.
  - apply wlp_bind, wlp_modEndpoint. intros x' Hx'. assert (x' = x) as -> by congruence. apply wlp_ret.
    cbn. split; [by apply Hf |]. split_and!; try done.
    + intros e' Hne. by rewrite lookup_insert_ne.
    + intros _ _. rewrite lookup_insert_eq. eauto.
Qed.

(** ** The switch *)

(** A token that does not end a packet. *)
Definition inner (tk : Token) : Prop := isControl tk = true -> ends (tokenValue tk) = false.

Lemma array_set_len {A} (l l' : list A) i v : array_set l i v = Some l' -> length l' = length l /\ 0 <= i < zlength l.
Proof. intros (? & ? & _)%array_set_spec. done. Qed.

Lemma responseTokens_spec ack req value b b' len : responseTokens ack req value b = Some (b', len) ->
  exists mid, take (Z.to_nat len) b' = mid ++ [mkToken CT_END true] /\ Forall inner mid /\ len = zlength mid + 1.
Proof.
  unfold responseTokens, write32_be. intros E.
  repeat (case_match || simplify_option_eq);
    repeat match goal with
      | H : array_set _ _ _ = Some _ |- _ => pose proof (array_set_len _ _ _ _ H);
          unfold array_set in H; case_match; [injection H as <- | done]
      end;
    cbn [length] in *; rewrite ?length_insert in *.
  all: destruct b as [|t0 b]; [cbn in *; lia |]; destruct b as [|t1 b]; [cbn in *; lia |].
  - destruct b as [|t2 b]; [cbn in *; lia |]; destruct b as [|t3 b]; [cbn in *; lia |];
      destruct b as [|t4 b]; [cbn in *; lia |]; destruct b as [|t5 b]; [cbn in *; lia |].
    eexists [_; _; _; _; _]. split; [reflexivity |]. split; [| done]. repeat constructor; by intros ?.
  - eexists [_]. split; [reflexivity |]. split; [| done]. constructor; [| constructor]. by intros _.
  - eexists [_]. split; [reflexivity |]. split; [| done]. constructor; [| constructor]. by intros _.
Qed.

(** The endpoints of switches. *)
Definition switches_same s s' : Prop := forall n, endpoints s' !! SSwitchOf n = endpoints s !! SSwitchOf n.

Lemma sendTokens_spec b s r time src mid : chan_inv b s -> room s r (zlength mid + 1) ->
  Forall inner mid -> (forall r', src <> endpointOf r') ->
  (exists x, endpoints s !! endpointOf r = Some x /\ source x = Some src) ->
  wlp (forEach (mid ++ [mkToken CT_END true]) (sendToken r time)) (fun _ s' => chan_inv b s' /\ switches_same s s') s.
Proof.
  intros I Hr HF Hsrc. revert s I Hr. induction HF as [|tk mid Htk HF IH]; intros s I Hr (x & Hx & Hs); cbn [app forEach].
  - apply wlp_bind. unfold sendToken. cbn [isControl tokenValue].
    eapply wlp_mono; [apply (receiveEnd_spec b s); [done | done | done |] |].
    + intros x' r' Hx' Hs'. exfalso. assert (x' = x) as -> by congruence. apply (Hsrc r'). congruence.
    + cbn beta. intros _ s1 (I1 & E1). apply wlp_ret. split; [done |]. intros n. by apply E1.
  - cbn [length] in Hr. apply wlp_bind.
    assert (room s r 1) as Hr1 by (intros c Hc; specialize (Hr c Hc); lia).
    apply (wlp_mono _ (fun _ s' => filled b s s' r 1)).
    { unfold sendToken. destruct (isControl tk) eqn:Ec; [| by apply receiveData_spec].
      apply receiveCtrl_spec; [done | done | by apply Htk]. }
    intros _ s1 (I1 & E1 & R1). eapply wlp_mono; [apply (IH s1 I1) |].
    + apply R1. intros c Hc. specialize (Hr c Hc). lia.
    + rewrite E1. eauto.
    + cbn beta. intros _ s2 (I2 & E2). split; [done |]. intros n. by rewrite E2, E1.
Qed.

Lemma accessRegister_spec b s n req : chan_inv b s ->
  wlp (accessRegister n req) (fun _ s' => chan_inv b s' /\ chanends s' = chanends s /\ endpoints s' = endpoints s) s.
Proof.
  intros I. unfold accessRegister. apply wlp_bind, wlp_get. apply wlp_bind, wlp_lift. intros node Hn.
  apply wlp_bind, wlp_switch. intros w Hw.
  case_match; [by apply wlp_ret |]. case_match.
  - apply wlp_bind, wlp_lift. intros [[node' regs']|] _; [| by apply wlp_ret].
    apply wlp_bind, wlp_modify, wlp_bind, wlp_modify, wlp_ret. split_and!; try done. by apply (chan_inv_ext b s).
  - apply wlp_bind, wlp_lift. intros [v|] _; by apply wlp_ret.
Qed.

Lemma handleRequest_spec b s n time req : chan_inv b s ->
  wlp (handleRequest n time req) (fun _ s' => chan_inv b s' /\ switches_same s s') s.
Proof.
  intros I. unfold handleRequest. apply wlp_bind.
  eapply wlp_mono; [by apply accessRegister_spec |]. cbn beta. intros [ack value] s1 (I1 & Ec1 & Ee1).
  apply wlp_bind, wlp_get. apply wlp_bind, wlp_lift. intros d Hd.
  destruct d as [[n' c' k'|]|]; [| done | apply wlp_ret; split; [done |]; intros m; by rewrite Ee1].
  apply wlp_bind. eapply wlp_mono; [by apply (claim_spec b) |]. cbn beta.
  intros [open junk] s2 (I2 & Ec2 & Ee2 & Hopen). cbn [fst snd] in Hopen.
  apply wlp_bind, wlp_require. intros ->.
  assert (switches_same s s2) as HS2 by (intros m; rewrite Ee2, Ee1 by done; done).
  destruct junk; [by apply wlp_ret |].
  apply wlp_bind, wlp_switch. intros w Hw.
  apply wlp_bind, wlp_lift. intros [b' len] Er.
  destruct (responseTokens_spec _ _ _ _ _ _ Er) as (mid & Et & HF & Hlen).
  apply wlp_bind, wlp_modify. set (s3 := set_switches _ s2).
  assert (chan_inv b s3) as I3 by (by eapply (chan_inv_ext b s2)).
  apply wlp_bind. unfold chanend_canAcceptTokens. apply wlp_bind, wlp_chanend. intros c Hc. apply wlp_ret.
  apply wlp_bind, wlp_require. intros Hok%Z.leb_le. rewrite Et.
  set (r := chanendOf n' c' k').
  assert (ChanendOf n' c' k' = endpointOf r) as Ed by (eapply endpointOf_dest, outgoing_num, Hd).
  apply wlp_bind. eapply wlp_mono; [apply (sendTokens_spec b s3 r time (SSwitchOf n)) |]; try done.
  - intros c1 Hc1. assert (c1 = c) as -> by (change (chanends s2 !! r = Some c) in Hc; change (chanends s2 !! r = Some c1) in Hc1; congruence).
    pose proof (ci_buf _ _ I3 _ _ Hc) as [_ ? _ ? _]. unfold remaining in Hok.
    rewrite wrap_small in Hok by (unfold fits; lia). lia.
  - rewrite <- Ed. by apply Hopen.
  - cbn beta. intros _ s4 (I4 & E4). apply wlp_bind, wlp_switch. intros w4 Hw4. apply wlp_modify.
    split; [by apply (chan_inv_ext b s4) |]. intros m. cbn. by rewrite E4, <- HS2.
Qed.

Lemma switch_receive_spec b s n tk : chan_inv b s -> wlp (switch_receiveToken n tk) (fun _ s' => chan_inv b s' /\ endpoints s' = endpoints s) s.
Proof.
  intros I. unfold switch_receiveToken. apply wlp_bind, wlp_switch. intros w Hw. repeat case_match.
  - by apply wlp_ret.
  - apply wlp_modify. split; [by apply (chan_inv_ext b s) | done].
  - apply wlp_bind, wlp_lift. intros bf _. apply wlp_modify. split; [by apply (chan_inv_ext b s) | done].
Qed.

Lemma switch_receives_spec s n l : chan_inv None s -> wlp (switch_receiveDataTokens n l) (fun _ s' => chan_inv None s') s.
Proof.
  intros I. unfold switch_receiveDataTokens. apply wlp_bind, wlp_switch. intros w Hw. repeat case_match.
  - by apply wlp_ret.
  - apply wlp_modify. by apply (chan_inv_ext None s).
  - match goal with |- wlp ?m _ _ => cut (keeps (chan_inv None) m) end; [intros HK; by apply HK |].
    apply keeps_forEach. intros v s1 I1. apply wlp_bind, wlp_switch. intros w1 Hw1. apply wlp_bind, wlp_lift.
    intros bf _. apply wlp_modify. by apply (chan_inv_ext None s1).
Qed.

Lemma switch_ctrl_spec b s n time v : chan_inv b s ->
  (ends v = true -> forall x r, endpoints s !! SSwitchOf n = Some x -> source x = Some (endpointOf r) -> b = Some r) ->
  wlp (switch_receiveCtrlToken n time v) (fun _ s' => chan_inv b s') s.
Proof.
  intros I Hb. unfold switch_receiveCtrlToken, ends in *. destruct (v =? CT_END) eqn:Ev.
  - apply wlp_bind, wlp_switch. intros w Hw. apply wlp_bind.
    apply (wlp_mono _ (fun _ s' => s' = s)); [case_match; [by apply wlp_lift | by apply wlp_ret] |].
    intros req s1 ->. apply wlp_bind.
    apply (wlp_mono _ (fun _ s' => chan_inv b s' /\ switches_same s s')).
    { destruct req; [by apply handleRequest_spec | by apply wlp_ret]. }
    intros _ s1 (I1 & E1). apply wlp_bind, wlp_switch. intros w1 Hw1. apply wlp_bind, wlp_modify.
    eapply wlp_mono; [apply (release_spec b); [by apply (chan_inv_ext b s1) |] |].
    + intros x r. cbn. rewrite E1. by apply Hb.
    + by intros _ s2 (I2 & _).
  - destruct (v =? CT_PAUSE) eqn:Ep.
    + eapply wlp_mono; [apply (release_spec b); [done | by apply Hb] |]. by intros _ s2 (I2 & _).
    + eapply wlp_mono; [by apply switch_receive_spec |]. by intros _ s2 (I2 & _).
Qed.

(** ** Outputs *)

Lemma getChanendDest_proper net n c id e : getChanendDest net n c id = Some (Some e) -> proper e.
Proof.
  intros E n' c' k ->. eapply (endpointOf_dest _ _ _ id). unfold getChanendDest in E.
  case_match; [done |]. apply bind_Some in E as (nd & _ & E). apply bind_Some in E as (rc & _ & E).
  apply bind_Some in E as (o & Eo & E). destruct o as [o|].
  - simplify_eq. left. by eapply core_local_num.
  - by eapply outgoing_num.
Qed.

Lemma openRoute_spec s r : chan_inv None s ->
  wlp (openRoute r) (fun ok s' => chan_inv None s' /\
    (ok = true -> exists c, chanends s' !! r = Some c /\ inPacket c = true)) s.
Proof.
  intros I. unfold openRoute. apply wlp_bind, wlp_chanend. intros c Hc.
  destruct (inPacket c) eqn:Ep; [apply wlp_ret; eauto |].
  apply wlp_bind, wlp_eventable. intros ev _. apply wlp_bind, wlp_lift. intros o _.
  apply wlp_bind, wlp_get. apply wlp_bind, wlp_lift. intros d Hd. apply wlp_bind, wlp_modify.
  set (s1 := set_chanends _ s).
  assert (chan_inv None s1) as I1.
  { eapply chan_inv_put; [done | done | by apply (ci_buf _ _ I r c) | | ].
    - cbn. intros e ->. by eapply getChanendDest_proper.
    - unfold route_open. cbn. congruence. }
  assert (chanends s1 !! r = Some (set_dest d c)) as Hc1 by apply lookup_insert_eq.
  destruct d as [e|].
  - apply wlp_bind. eapply wlp_mono; [by apply (claim_spec None) |]. cbn beta.
    intros [open junk] s2 (I2 & Ec2 & _ & Hopen). cbn [fst snd] in Hopen. rewrite <- Ec2 in Hc1.
    apply wlp_bind, wlp_modChanend. intros c2 Hc2. assert (c2 = set_dest (Some e) c) as -> by congruence.
    set (s3 := set_chanends _ s2).
    assert (chan_inv None s3) as I3.
    { eapply chan_inv_put; [done | done | by apply (ci_buf _ _ I r c) | intros e1; by apply (ci_dest _ _ I2 r _ e1 Hc2) |].
      unfold route_open. cbn. congruence. }
    destruct open; cbn [negb]; [| by apply wlp_ret].
    apply wlp_bind, wlp_modChanend. intros c3 Hc3. apply wlp_ret.
    assert (c3 = set_junkPacket junk (set_dest (Some e) c)) as ->.
    { unfold s3 in Hc3. cbn in Hc3. rewrite lookup_insert_eq in Hc3. congruence. }
    split.
    + eapply chan_inv_put; [done | done | by apply (ci_buf _ _ I r c) | intros e1; by apply (ci_dest _ _ I3 r _ e1 Hc3) |].
      intros _ _ Hj. cbn in Hj. destruct (Hopen eq_refl Hj) as (x & Hx & Hs). exists e, x. done.
    + intros _. cbn. rewrite lookup_insert_eq. eauto.
  - apply wlp_bind, wlp_modChanend. intros c2 Hc2. apply wlp_ret.
    assert (c2 = set_dest None c) as -> by congruence. split.
    + eapply chan_inv_put; [done | done | by apply (ci_buf _ _ I r c) | done |]. unfold route_open. done.
    + intros _. cbn. rewrite lookup_insert_eq. eauto.
Qed.

Lemma pauseOut_spec s r t : chan_inv None s -> wlp (pauseOut r t) (fun _ => chan_inv None) s.
Proof.
  intros I. unfold pauseOut. apply wlp_bind, wlp_modChanend. intros c Hc. apply wlp_ret.
  by eapply chan_inv_same.
Qed.

(** The destination of a packet that is being sent. *)
Lemma sending s r c : chan_inv None s -> chanends s !! r = Some c -> inPacket c = true -> junkPacket c = false ->
  exists e x, dest c = Some e /\ endpoints s !! e = Some x /\ source x = Some (endpointOf r).
Proof. intros I Hc Hp Hj. by eapply (ci_route _ _ I r c). Qed.

Lemma canAcceptTokens_room s e n : chan_inv None s ->
  wlp (canAcceptTokens e n) (fun ok s' => s' = s /\
    forall a c k, e = ChanendOf a c k -> ok = true -> room s (chanendOf a c k) n) s.
Proof.
  intros I. unfold canAcceptTokens, chanend_canAcceptTokens. destruct e as [a c k|m].
  - apply wlp_bind, wlp_chanend. intros x Hx. apply wlp_ret. split; [done |].
    intros ? ? ? [= <- <- <-] Hok%Z.leb_le x' Hx'. assert (x' = x) as -> by congruence.
    pose proof (ci_buf _ _ I _ _ Hx) as [_ ? _ ? _]. unfold remaining in Hok.
    rewrite wrap_small in Hok by (unfold fits; lia). lia.
  - apply wlp_bind, wlp_switch. intros x Hx. by apply wlp_ret.
Qed.

Lemma canAcceptToken_room s e : chan_inv None s ->
  wlp (canAcceptToken e) (fun ok s' => s' = s /\
    forall a c k, e = ChanendOf a c k -> ok = true -> room s (chanendOf a c k) 1) s.
Proof.
  intros I. unfold canAcceptToken, chanend_canAcceptToken. destruct e as [a c k|m].
  - apply wlp_bind, wlp_chanend. intros x Hx. apply wlp_ret. split; [done |].
    intros ? ? ? [= <- <- <-] Hok x' Hx'. assert (x' = x) as -> by congruence.
    pose proof (ci_buf _ _ I _ _ Hx) as [_ ? _ ? _].
    apply negb_true_iff, Z.eqb_neq in Hok. lia.
  - apply wlp_bind, wlp_switch. intros x Hx. by apply wlp_ret.
Qed.

Lemma outt_keeps r t v time : keeps (chan_inv None) (outt r t v time).
Proof.
  intros s I. unfold outt. apply wlp_bind. eapply wlp_mono; [by apply openRoute_spec |]. cbn beta.
  intros ok s1 (I1 & _). destruct ok; cbn [negb]; [| by apply pauseOut_spec].
  apply wlp_bind, wlp_chanend. intros c Hc. destruct (junkPacket c); [by apply wlp_ret |].
  apply wlp_bind, wlp_lift. intros e He. apply wlp_bind.
  eapply wlp_mono; [by apply canAcceptToken_room |]. cbn beta. intros ok s2 (-> & Hr).
  destruct ok; cbn [negb]; [| by apply pauseOut_spec]. apply wlp_bind.
  apply (wlp_mono _ (fun _ => chan_inv None)); [| intros _ s3 I3; by apply wlp_ret].
  destruct e as [a b k|m]; cbn [receiveDataToken].
  - eapply wlp_mono; [apply (receiveData_spec None); [done | by eapply Hr] |]. by intros _ s3 (I3 & _).
  - eapply wlp_mono; [by apply (switch_receive_spec None) |]. by intros _ s3 (I3 & _).
Qed.

Lemma out_keeps r t v time : keeps (chan_inv None) (chanend_out r t v time).
Proof.
  intros s I. unfold chanend_out. apply wlp_bind. eapply wlp_mono; [by apply openRoute_spec |]. cbn beta.
  intros ok s1 (I1 & _). destruct ok; cbn [negb]; [| by apply pauseOut_spec].
  apply wlp_bind, wlp_chanend. intros c Hc. destruct (junkPacket c); [by apply wlp_ret |].
  apply wlp_bind, wlp_lift. intros e He. apply wlp_bind.
  eapply wlp_mono; [by apply canAcceptTokens_room |]. cbn beta. intros ok s2 (-> & Hr).
  destruct ok; cbn [negb]; [| by apply pauseOut_spec]. apply wlp_bind.
  apply (wlp_mono _ (fun _ => chan_inv None)); [| intros _ s3 I3; by apply wlp_ret].
  destruct e as [a b k|m]; cbn [receiveDataTokens].
  - eapply wlp_mono; [apply (receiveDatas_spec None); [done | by eapply Hr] |]. by intros _ s3 (I3 & _).
  - by apply switch_receives_spec.
Qed.

Lemma chan_inv_weaken b s : chan_inv None s -> chan_inv b s.
Proof. intros [B D R I]. split; try done. intros r c Hc _. by apply R. Qed.

(** The token that ends a packet gives the destination to the next sender. *)
Lemma receiveCtrl_any s r c e time v : chan_inv None s -> chanends s !! r = Some c -> inPacket c = true ->
  junkPacket c = false -> dest c = Some e ->
  (forall a b k, e = ChanendOf a b k -> room s (chanendOf a b k) 1) ->
  wlp (receiveCtrlToken e time v) (fun _ => chan_inv (if ends v then Some r else None)) s.
Proof.
  intros I Hc Hp Hj Hd Hr. destruct (sending s r c I Hc Hp Hj) as (e' & x & Hd' & Hx & Hs).
  assert (e' = e) as -> by congruence.
  assert (forall x' r', endpoints s !! e = Some x' -> source x' = Some (endpointOf r') -> Some r = Some r') as Hb.
  { intros x' r' Hx' Hs'. assert (x' = x) as -> by congruence. f_equal. apply endpointOf_inj. congruence. }
  pose proof (ci_dest _ _ I r c e Hc Hd) as Hprop.
  destruct e as [a b k|m]; cbn [receiveCtrlToken].
  - specialize (Hprop a b k eq_refl). destruct (ends v) eqn:Ev.
    + eapply wlp_mono; [apply (receiveEnd_spec (Some r)); [by apply chan_inv_weaken | by eapply Hr | done |] |].
      * by rewrite <- Hprop.
      * by intros _ s1 (I1 & _).
    + eapply wlp_mono; [apply (receiveCtrl_spec None); [done | by eapply Hr | done] |]. by intros _ s1 (I1 & _).
  - destruct (ends v) eqn:Ev.
    + apply switch_ctrl_spec; [by apply chan_inv_weaken | done].
    + apply switch_ctrl_spec; [done | by rewrite Ev].
Qed.

Lemma outct_keeps r t v time : keeps (chan_inv None) (outct r t v time).
Proof.
  intros s I. unfold outct. apply wlp_bind. eapply wlp_mono; [by apply openRoute_spec |]. cbn beta.
  intros ok s1 (I1 & Hopen). destruct ok; cbn [negb]; [| by apply pauseOut_spec].
  apply wlp_bind, wlp_chanend. intros c Hc. destruct (Hopen eq_refl) as (c' & Hc' & Hp).
  assert (c' = c) as -> by congruence. fold (ends v). destruct (junkPacket c) eqn:Hj.
  - apply wlp_bind, wlp_when; [| intros _; by apply wlp_ret]. intros _.
    apply wlp_modChanend. intros c1 Hc1. apply wlp_ret.
    eapply chan_inv_put; [done | done | by apply (ci_buf _ _ I1 r c1) | intros e1; by apply (ci_dest _ _ I1 r _ e1 Hc1) |].
    unfold route_open. done.
  - apply wlp_bind, wlp_lift. intros e He. apply wlp_bind.
    eapply wlp_mono; [by apply canAcceptToken_room |]. cbn beta. intros ok s2 (-> & Hr).
    destruct ok; cbn [negb]; [| by apply pauseOut_spec]. apply wlp_bind.
    eapply wlp_mono; [eapply (receiveCtrl_any s1 r c e); try done; intros; by eapply Hr |].
    cbn beta. intros _ s2 I2. destruct (ends v).
    + apply wlp_bind, wlp_modChanend. intros c2 Hc2. apply wlp_ret.
      destruct I2 as [B D R Id]. split; cbn.
      * intros r1 c1 [[<- <-]|[? ?]]%lookup_insert_Some; [by apply (B r c2) | eauto].
      * intros r1 c1 e1 [[<- <-]|[? ?]]%lookup_insert_Some; [done | eauto].
      * intros r1 c1 [[<- <-]|[Hne Hc1]]%lookup_insert_Some _; [by unfold route_open | apply R; congruence].
      * done.
    + by apply wlp_bind, wlp_ret.
Qed.

(** ** Inputs and configuration *)

Lemma inv_frame {A} (m : M (Sys P) A) : (forall v, keeps (fun s => comm s = v) m) -> keeps (chan_inv None) m.
Proof.
  intros Hm s I. apply wlp_frame; [done |]. intros a s' (_ & Ec & Ee & _)%comm_fields. by apply (chan_inv_ext None s).
Qed.

Lemma inv_updateOwner e t : keeps (chan_inv None) (updateOwner e t).
Proof. apply inv_frame. intros. apply comm_updateOwner. Qed.
Lemma inv_chanend r : keeps (chan_inv None) (chanend r).
Proof. intros s I. by apply wlp_chanend. Qed.
Lemma inv_setPausedIn r t w : keeps (chan_inv None) (setPausedIn r t w).
Proof. intros s I. apply wlp_modChanend. intros c Hc. by eapply chan_inv_same. Qed.
Lemma inv_notifySource r time : keeps (chan_inv None) (notifySource r time).
Proof.
  intros s I. unfold notifySource. apply wlp_bind, wlp_endpoint. intros x Hx.
  destruct (source x); [| by apply wlp_ret].
  eapply wlp_mono; [apply (steady_notifyDest None s); by apply steady_refl |]. by intros _ s1 (I1 & _).
Qed.
#[local] Hint Resolve inv_updateOwner inv_chanend inv_setPausedIn inv_notifySource : keeps.

Lemma inv_testct r t : keeps (chan_inv None) (testct r t).
Proof. unfold testct. keeps_auto. Qed.
Lemma inv_testwct r t : keeps (chan_inv None) (testwct r t).
Proof. unfold testwct. keeps_auto. Qed.

(** Taking [n] tokens out of a buffer that has them. *)
Lemma inv_pop s r c n : chan_inv None s -> chanends s !! r = Some c -> 0 <= n <= numEntries (SysState.buf c) ->
  chan_inv None (set_chanends (<[r := set_buf (pop_front_n CHANEND_BUFFER_SIZE n (SysState.buf c)) c]> (chanends s)) s).
Proof.
  intros I Hc Hn. eapply chan_inv_put; [done | done | | intros e; by apply (ci_dest _ _ I r c) |].
  - apply pop_front_n_wf; [by apply (ci_buf _ _ I r) | done].
  - intros _. by apply (ci_route _ _ I r c Hc).
Qed.

Lemma inv_poptoken r time : keeps (chan_inv None) (poptoken r time).
Proof.
  intros s I. unfold poptoken. apply wlp_bind, wlp_chanend. intros c Hc.
  apply wlp_bind, wlp_require. intros He%negb_true_iff%Z.eqb_neq. apply wlp_bind, wlp_lift. intros tk _.
  apply wlp_bind, wlp_modify.
  pose proof (ci_buf _ _ I _ _ Hc) as [_ _ _ ? _]. pose proof (inv_pop s r c 1 I Hc ltac:(lia)) as I1.
  apply wlp_bind. eapply wlp_mono; [apply inv_notifySource, I1 |]. cbn beta. intros _ s2 I2. by apply wlp_ret.
Qed.
#[local] Hint Resolve inv_testct inv_testwct inv_poptoken : keeps.

Lemma inv_intoken r t time : keeps (chan_inv None) (intoken r t time).
Proof. unfold intoken. keeps_auto. Qed.
Lemma inv_inct r t time : keeps (chan_inv None) (inct r t time).
Proof. unfold inct. keeps_auto. Qed.
Lemma inv_chkct r t time v : keeps (chan_inv None) (chkct r t time v).
Proof. unfold chkct. keeps_auto. Qed.

(** The answer of [testwct] and the number of tokens. *)
Lemma testwct_word r t s : chan_inv None s ->
  wlp (testwct r t) (fun p s' => chan_inv None s' /\
    (p = Some 0 -> forall c, chanends s' !! r = Some c -> 4 <= numEntries (SysState.buf c))) s.
Proof.
  intros I. unfold testwct. apply wlp_bind. apply wlp_frame; [intros; apply comm_updateOwner |].
  intros _ s1 (_ & Ec & Ee & _)%comm_fields. assert (chan_inv None s1) as I1 by (by apply (chan_inv_ext None s)).
  apply wlp_bind, wlp_chanend. intros c Hc. apply wlp_bind, wlp_lift. intros p Hp.
  destruct (Z.eqb_spec p 0) as [->|Hne]; cbn [negb]; [| apply wlp_ret; split; [done | congruence]].
  unfold rb_size. destruct (Z.ltb_spec (numEntries (SysState.buf c)) 4).
  - apply wlp_bind, wlp_modChanend. intros c1 Hc1. apply wlp_ret. split; [by eapply chan_inv_same | done].
  - apply wlp_ret. split; [done |]. intros _ c1 Hc1. by assert (c1 = c) as -> by congruence.
Qed.

Lemma inv_in r t time : keeps (chan_inv None) (chanend_in r t time).
Proof.
  intros s I. unfold chanend_in. apply wlp_bind. eapply wlp_mono; [by apply testwct_word |]. cbn beta.
  intros p s1 (I1 & Hn). destruct p as [p|]; [| by apply wlp_ret].
  destruct (Z.eqb_spec p 0) as [->|]; cbn [negb]; [| by apply wlp_ret].
  apply wlp_bind, wlp_chanend. intros c Hc. specialize (Hn eq_refl c Hc).
  do 4 (apply wlp_bind, wlp_lift; intros ? _). apply wlp_bind, wlp_modify.
  pose proof (inv_pop s1 r c 4 I1 Hc ltac:(lia)) as I2.
  apply wlp_bind. eapply wlp_mono; [apply inv_notifySource, I2 |]. cbn beta. intros _ s3 I3. by apply wlp_ret.
Qed.

Lemma inv_modEndpoint_junk e b : keeps (chan_inv None) (modEndpoint e (set_junkIncoming b)).
Proof.
  intros s [B D R I]. apply wlp_modEndpoint. intros x Hx. split; cbn; [done | done | |].
  - intros r c Hc Hne Hp Hj. destruct (R r c Hc Hne Hp Hj) as (e1 & x1 & Ed & Ex & Es). cbn.
    destruct (decide (e = e1)) as [<-|Hne1].
    + eexists e, _. rewrite lookup_insert_eq. split_and!; [done | done |]. cbn. congruence.
    + exists e1, x1. by rewrite lookup_insert_ne.
  - intros e1 x1 [[<- <-]|[? ?]]%lookup_insert_Some; [by apply (I e x) | eauto].
Qed.

Lemma inv_alloc r t : keeps (chan_inv None) (chanend_alloc r t).
Proof.
  intros s I. unfold chanend_alloc. apply wlp_bind, wlp_eventable. intros ev _.
  apply wlp_bind, wlp_require. intros _. apply wlp_bind, wlp_modChanend. intros c Hc.
  set (s1 := set_chanends _ s). assert (chan_inv None s1) as I1.
  { eapply chan_inv_put; [done | done | by apply (ci_buf _ _ I r c) | done |]. by unfold route_open. }
  apply wlp_bind. eapply wlp_mono; [apply (inv_frame (eventableSetInUseOn (ChanendRef r) t)); [intros; apply comm_setInUseOn | exact I1] |].
  cbn beta. intros _ s2 I2. by apply inv_modEndpoint_junk.
Qed.

Lemma inv_free r : keeps (chan_inv None) (chanend_free r).
Proof.
  intros s I. unfold chanend_free. apply wlp_bind, wlp_chanend. intros c Hc.
  apply wlp_bind, wlp_endpoint. intros x Hx. case_match; [by apply wlp_ret |].
  apply wlp_bind. eapply wlp_mono; [apply (inv_frame (eventableSetInUseOff (ChanendRef r))); [intros; apply comm_setInUseOff | exact I] |].
  cbn beta. intros _ s1 I1. apply wlp_bind. eapply wlp_mono; [by apply inv_modEndpoint_junk |].
  cbn beta. intros _ s2 I2. by apply wlp_ret.
Qed.

Lemma inv_setData r v : keeps (chan_inv None) (chanend_setData r v).
Proof.
  intros s I. unfold chanend_setData. apply wlp_bind, wlp_chanend. intros c Hc.
  repeat (case_match; [by apply wlp_ret |]). apply wlp_bind, wlp_modify, wlp_ret. by eapply chan_inv_same.
Qed.

(** ** Every sequence of operations *)

(** One operation of a thread on a channel end. *)
Inductive chan_step : Sys P -> Sys P -> Prop :=
| step_alloc r t s s' : chanend_alloc r t s = Some (s', tt) -> chan_step s s'
| step_free r s s' b : chanend_free r s = Some (s', b) -> chan_step s s'
| step_setData r v s s' b : chanend_setData r v s = Some (s', b) -> chan_step s s'
| step_outt r t v time s s' x : outt r t v time s = Some (s', x) -> chan_step s s'
| step_out r t v time s s' x : chanend_out r t v time s = Some (s', x) -> chan_step s s'
| step_outct r t v time s s' x : outct r t v time s = Some (s', x) -> chan_step s s'
| step_testct r t s s' x : testct r t s = Some (s', x) -> chan_step s s'
| step_testwct r t s s' x : testwct r t s = Some (s', x) -> chan_step s s'
| step_int r t time s s' x : intoken r t time s = Some (s', x) -> chan_step s s'
| step_inct r t time s s' x : inct r t time s = Some (s', x) -> chan_step s s'
| step_chkct r t time v s s' x : chkct r t time v s = Some (s', x) -> chan_step s s'
| step_in r t time s s' x : chanend_in r t time s = Some (s', x) -> chan_step s s'.

Lemma keeps_elim (I : Sys P -> Prop) {A} (m : M (Sys P) A) s s' a : keeps I m -> I s -> m s = Some (s', a) -> I s'.
Proof. intros Hm Hs E. by apply (wlp_elim m (fun _ => I) s s' a (Hm s Hs)). Qed.

Lemma chan_step_inv s s' : chan_inv None s -> chan_step s s' -> chan_inv None s'.
Proof.
  intros I Hs. destruct Hs; (eapply keeps_elim; [| exact I | eassumption]).
  - apply inv_alloc.
  - apply inv_free.
  - apply inv_setData.
  - apply outt_keeps.
  - apply out_keeps.
  - apply outct_keeps.
  - apply inv_testct.
  - apply inv_testwct.
  - apply inv_intoken.
  - apply inv_inct.
  - apply inv_chkct.
  - apply inv_in.
Qed.

(** C10: Packets do not mix and buffers do not overflow.  After any sequence of the operations of
    threads on channel ends, from a state in which no channel end is in the middle of a packet
    (and in which the buffers are well formed and nobody waits): two channel ends that are in
    the middle of packets which are not thrown away send to different endpoints, and each is the
    source its destination has recorded; no buffer holds more than eight tokens, and its indices
    are consistent; and nobody waits for an endpoint that is not receiving a packet.  The ports are any for which
    completing an event changes the port only ([PortEventsOk], which [PortLocal] proves of the ports of this
    development). *)
Theorem channel_routes_exclusive (s s' : Sys P) :
  (forall r c, chanends s !! r = Some c -> buf_wf c /\ inPacket c = false /\ dest c = None) ->
  (forall e x, endpoints s !! e = Some x -> source x = None /\ queue x = []) ->
  rtc chan_step s s' ->
  (forall r r' c c' e, chanends s' !! r = Some c -> chanends s' !! r' = Some c' -> inPacket c = true ->
     inPacket c' = true -> junkPacket c = false -> junkPacket c' = false -> dest c = Some e ->
     dest c' = Some e -> r = r') /\
  (forall r c, chanends s' !! r = Some c -> route_open s' r c) /\
  (forall r c, chanends s' !! r = Some c -> buf_wf c) /\
  (forall e x, endpoints s' !! e = Some x -> source x = None -> queue x = []).
Proof.
  intros Hc He Hs.
  assert (chan_inv None s) as I.
  { split.
    - intros r c E. by apply (Hc r c).
    - intros r c e E. destruct (Hc r c E) as (_ & _ & ->). done.
    - intros r c E _ Hp. destruct (Hc r c E) as (_ & Hp' & _). congruence.
    - intros e x E _. by apply (He e x). }
  assert (chan_inv None s') as [B D R Id].
  { clear Hc He. induction Hs as [|s s1 s2 H1 _ IH]; [done |]. by eapply IH, chan_step_inv. }
  split_and!; [| intros r c E; by apply R | done | done].
  intros r r' c c' e E E' Hp Hp' Hj Hj' Hd Hd'.
  destruct (R r c E ltac:(done) Hp Hj) as (e1 & x1 & Ed & Ex & Es).
  destruct (R r' c' E' ltac:(done) Hp' Hj') as (e2 & x2 & Ed' & Ex' & Es').
  apply endpointOf_inj. congruence.
Qed.
End invariant.

(** Two idle channel ends; the first is given a destination. *)
#[local] Definition idleChanend : Chanend :=
  mkChanend 0 None (new_ring CHANEND_BUFFER_SIZE (mkToken 0 false)) None None false false false.
#[local] Definition idleChannels : Sys unit :=
  set_endpoints (<[ChanendOf 0 0 0 := mkChanEndpoint false [] None]> {[ChanendOf 0 0 1 := mkChanEndpoint false [] None]})
    (set_chanends (<[(0, 0, 0)%nat := idleChanend]> {[(0, 0, 1)%nat := idleChanend]}) (exampleSys [] [] [] [] [])).
Lemma channel_routes_exclusive_witness : exists s', rtc chan_step idleChannels s' /\
  chanends s' !! (0, 0, 0)%nat = Some (set_destID 0x102 idleChanend) /\
  forall r c, chanends s' !! r = Some c -> ring_wf CHANEND_BUFFER_SIZE (SysState.buf c).
Proof.
  set (s' := set_chanends (<[(0, 0, 0)%nat := set_destID 0x102 idleChanend]> (chanends idleChannels)) idleChannels).
  assert (rtc chan_step idleChannels s') as Hs.
  { eapply rtc_l; [| apply rtc_refl]. apply (step_setData (0, 0, 0)%nat 0x102 _ _ true). reflexivity. }
  exists s'. split; [exact Hs |]. split; [reflexivity |].
  apply (channel_routes_exclusive idleChannels _).
  - intros r c. unfold idleChannels. cbn. intros [[<- <-]|[_ [<- <-]%lookup_singleton_Some]]%lookup_insert_Some;
      (split; [apply (new_ring_repr CHANEND_BUFFER_SIZE (mkToken 0 false)); vm_compute; split; reflexivity | by split]).
  - intros e x. unfold idleChannels. cbn. intros [[<- <-]|[_ [<- <-]%lookup_singleton_Some]]%lookup_insert_Some; by split.
  - exact Hs.
Defined.
