(* ===== verification/ChannelWords.v ===== *)
(** * Words and requests on channels

    A word sent through a channel end arrives as it was sent; a request to a switch is parsed
    as it was sent. *)

From Stdlib Require Import ZArith Lia Btauto.
From stdpp Require Import base list numbers option gmap.
From S2P Require Import Prelude Opcode.
From S2P Require Import Refs RingBuffer Resource Node SSwitchRegs RunnableQueue SchedulerMap.
From S2P Require Import StateMonad Thread SysState Events SysFacts Chanend ChanendFacts.

#[local] Open Scope Z_scope.
#[local] Open Scope cbits_scope.

Abbreviation buf_repr c l := (ring_repr CHANEND_BUFFER_SIZE (SysState.buf c) l).

(** The bytes of a word, the most significant first. *)
Definition be_bytes (v : Z) : list Z := [u8 (v .>> 24); u8 (v .>> 16); u8 (v .>> 8); u8 v].

Definition data_tokens (l : list Z) : list Token := (fun v => mkToken v false) <$> l.

Lemma be_word v : is_u32 v ->
  (u8 (v .>> 24) .<< 24) .| (u8 (v .>> 16) .<< 16) .| (u8 (v .>> 8) .<< 8) .| u8 v = v.
Proof.
  intros Hv. apply (fits_bits_inj 32); [lia | | done |].
  - repeat apply fits_lor; try lia; try (apply wrap_fits; lia). split; [apply wrap_fits; lia |].
    pose proof (wrap_fits 8 v ltac:(lia)) as [_ ?]. lia.
  - intros i Hi. enum_Z i Hi; bits_at.
Qed.

Section words.
Context {P : Type} `{PortEvents P}.
Implicit Types s : Sys P.

Lemma wp_pushToken r c l tk Q s : chanends s !! r = Some c -> buf_repr c l -> zlength l < CHANEND_BUFFER_SIZE ->
  (forall b, ring_repr CHANEND_BUFFER_SIZE b (l ++ [tk]) ->
     Q tt (set_chanends (<[r := set_buf b c]> (chanends s)) s)) ->
  wp (pushToken r tk) Q s.
Proof.
  intros Hc R Hl HQ. unfold pushToken. apply wp_bind, (wp_chanend _ c); [done |].
  assert (rb_full CHANEND_BUFFER_SIZE (SysState.buf c) = false) as Hf
    by (apply Z.eqb_neq; rewrite <- (rr_length _ _ _ R); lia).
  destruct (push_back_repr _ tk _ _ R Hf) as (b & E & R').
  apply wp_bind, (wp_lift _ b); [done |]. by apply HQ.
Qed.

Lemma wp_pushTokens r c l vs Q s : chanends s !! r = Some c -> buf_repr c l ->
  zlength l + zlength vs <= CHANEND_BUFFER_SIZE ->
  (forall b, ring_repr CHANEND_BUFFER_SIZE b (l ++ data_tokens vs) ->
     Q tt (set_chanends (<[r := set_buf b c]> (chanends s)) s)) ->
  wp (forEach vs (fun v => pushToken r (mkToken v false))) Q s.
Proof.
  revert c l s. induction vs as [|v vs IH]; intros c l s Hc R Hl HQ; cbn [forEach].
  - apply wp_ret. specialize (HQ (SysState.buf c)). cbn in HQ. rewrite app_nil_r in HQ.
    rewrite insert_id in HQ by (by destruct c). specialize (HQ R). by destruct s.
  - cbn [length] in Hl. apply wp_bind. eapply wp_pushToken; [done | done | lia |]. intros b Rb.
    eapply (IH (set_buf b c) (l ++ [mkToken v false])).
    + apply lookup_insert_eq.
    + done.
    + rewrite length_app. cbn. lia.
    + intros b' Rb'. cbn. rewrite insert_insert_eq. rewrite <- app_assoc in Rb'. specialize (HQ b' Rb').
      by destruct s.
Qed.

(** The channel end [d] raises no events, and a thread that waits for it exists. *)
Definition eventless s (w : gmap RunnableRef Z) (d : Ref) (c : Chanend) : Prop :=
  (exists ev, eventables s !! ChanendRef d = Some ev /\ eventsEnabled ev = false) /\
  match pausedIn c with None => True | Some u => is_Some (threads s !! u) /\ scheduler_ok s w end.

(** The system after the buffer of the channel end [d] has become [b], with four tokens or more: a thread that waits
    for it goes on at [time]. *)
Definition woken s (w : gmap RunnableRef Z) (d : Ref) (c : Chanend) b (time : Z) s' : Prop :=
  match pausedIn c with
  | None => s' = set_chanends (<[d := set_buf b c]> (chanends s)) s
  | Some u => exists th q, threads s !! u = Some th /\
      s' = set_scheduler q (set_threads (<[u := awake (Thread.set_time time th)]> (threads s))
             (set_chanends (<[d := set_pausedIn None (set_buf b c)]> (chanends s)) s)) /\
      scheduler_ok s' (<[RThread u := time]> w)
  end.

Lemma wp_update_eventless d c b l w time Q s : chanends s !! d = Some c -> ring_repr CHANEND_BUFFER_SIZE b l -> 4 <= zlength l ->
  eventless s w d c -> (forall s', woken s w d c b time s' -> Q tt s') ->
  wp (update d time) Q (set_chanends (<[d := set_buf b c]> (chanends s)) s).
Proof.
  intros Hc R Hl [(ev & He & Hoff) Hw] HQ. unfold update. apply wp_bind, (wp_chanend _ (set_buf b c)); [apply lookup_insert_eq |].
  pose proof (rr_length _ _ _ R) as Hn. apply wp_bind, wp_require.
  { apply negb_true_iff, Z.eqb_neq. cbn. lia. }
  apply wp_bind. unfold eventsPermitted. apply wp_bind, (wp_eventable _ ev); [done |]. rewrite Hoff. cbn [negb].
  set (s0 := set_chanends _ s).
  assert (wp (match owner ev with None => mret false | Some _ => mret false end)
    (fun b s' => b = false /\ s' = s0) s0) as Hb by (by destruct (owner ev)).
  eapply wp_mono; [exact Hb |]. intros b' s' [-> ->]. unfold woken in HQ. cbn [pausedIn set_buf].
  destruct (pausedIn c) as [u|]; [| by apply wp_ret, HQ]. destruct Hw as [[th Hth] O].
  cbn [waitForWord set_buf]. assert ((rb_size (SysState.buf (set_buf b c)) <? 4) = false) as -> by (apply Z.ltb_ge; unfold rb_size; cbn; lia).
  rewrite andb_false_r. apply wp_bind, (wp_modThread _ _ th); [done |]. apply wp_bind.
  apply (wp_schedule _ (Thread.set_time time th) w); [| apply lookup_insert_eq |].
  { destruct O as [Hq Ht He']. split; cbn; [done | | done]. intros t' Ht'. apply Ht.
    destruct (decide (u = t')) as [<-|]; [by rewrite Hth | by rewrite lookup_insert_ne in Ht']. }
  cbv zeta. intros q O'. apply (wp_modChanend _ _ (set_buf b c)); [apply lookup_insert_eq |].
  apply HQ. exists th, q. split; [done |]. split.
  - unfold s0. cbn. rewrite !insert_insert_eq. by destruct s.
  - destruct O' as [Hq Ht He']. split; [exact Hq | exact Ht | exact He'].
Qed.

Lemma woken_fields s w d c b time s' : woken s w d c b time s' ->
  chanends s' = <[d := set_pausedIn None (set_buf b c)]> (chanends s) /\ eventables s' = eventables s /\ endpoints s' = endpoints s.
Proof.
  unfold woken. destruct (pausedIn c) as [u|] eqn:E; [by intros (th & q & _ & -> & _) | intros ->; cbn].
  split; [| done]. f_equal. destruct c. cbn in *. by rewrite E.
Qed.

(** Sending a word in the middle of a packet. *)
Lemma out_word r t d c cd l w value time s : r <> d ->
  chanends s !! r = Some c -> inPacket c = true -> junkPacket c = false -> dest c = Some (endpointOf d) ->
  chanends s !! d = Some cd -> buf_repr cd l -> eventless s w d cd ->
  wp (chanend_out r t value time) (fun res s' =>
    if zlength l <=? 4 then
      res = CONTINUE /\ exists b, ring_repr CHANEND_BUFFER_SIZE b (l ++ data_tokens (be_bytes value)) /\
        woken s w d cd b time s'
    else res = DESCHEDULE /\ s' = set_chanends (<[r := set_pausedOut (Some t) c]> (chanends s)) s) s.
Proof.
  intros Hne Hc Hp Hj Hd Hcd R Hq. unfold chanend_out, openRoute.
  apply wp_bind, wp_bind, (wp_chanend _ c); [done |]. rewrite Hp. apply wp_ret. cbn [negb].
  apply wp_bind, (wp_chanend _ c); [done |]. rewrite Hj. apply wp_bind. rewrite Hd. eapply wp_lift; [done |].
  unfold endpointOf. cbn [canAcceptTokens receiveDataTokens]. rewrite chanendOf_endpointOf.
  apply wp_bind. unfold chanend_canAcceptTokens. apply wp_bind, (wp_chanend _ cd); [done |]. apply wp_ret.
  rewrite (remaining_repr _ _ _ R).
  replace (4 <=? CHANEND_BUFFER_SIZE - zlength l) with (zlength l <=? 4)
    by (unfold CHANEND_BUFFER_SIZE; destruct (Z.leb_spec (zlength l) 4), (Z.leb_spec 4 (8 - zlength l)); lia).
  destruct (Z.leb_spec (zlength l) 4); cbn [negb].
  - apply wp_bind. unfold chanend_receiveDataTokens. apply wp_bind.
    eapply wp_pushTokens; [done | done | cbn; unfold CHANEND_BUFFER_SIZE; lia |]. intros b Rb.
    eapply (wp_update_eventless d cd b _ w); [done | exact Rb | | exact Hq |]; [unfold data_tokens; rewrite length_app, length_fmap; cbn [length]; lia |].
    intros s' Hs'. apply wp_ret. eauto.
  - unfold pauseOut. apply wp_bind, (wp_modChanend _ _ c); [done |]. by apply wp_ret.
Qed.

(** The first four tokens are data. *)
Lemma controlPosition_data b l i n : ring_repr CHANEND_BUFFER_SIZE b l -> 0 <= i -> i + Z.of_nat n <= zlength l ->
  (forall tk, tk ∈ l -> isControl tk = false) -> controlPosition b i n = Some 0.
Proof.
  intros R. revert i. induction n as [|n IH]; intros i Hi Hn Hd; cbn [controlPosition]; [done |].
  rewrite (rb_get_repr _ _ _ _ R) by (rewrite <- (rr_length _ _ _ R); lia).
  destruct (array_get l i) as [tk|] eqn:E.
  - cbn. rewrite Hd; [apply IH; [lia | lia | done] |]. unfold array_get in E. case_match; [| done].
    by eapply list_elem_of_lookup_2.
  - destruct (array_get_is_Some l i) as [? E']; [lia | congruence].
Qed.

(** Receiving the only word in the buffer, from a source that is not paused. *)
Lemma in_word d t cd value time s ev x : chanends s !! d = Some cd -> is_u32 value ->
  buf_repr cd (data_tokens (be_bytes value)) ->
  eventables s !! ChanendRef d = Some ev -> eventsEnabled ev = false ->
  endpoints s !! endpointOf d = Some x ->
  (forall e, source x = Some e -> exists r c, e = endpointOf r /\ r <> d /\ chanends s !! r = Some c /\ pausedOut c = None) ->
  wp (chanend_in d t time) (fun res s' => res = (CONTINUE, value) /\
    exists b, ring_repr CHANEND_BUFFER_SIZE b [] /\ chanends s' = <[d := set_buf b cd]> (chanends s)) s.
Proof.
  intros Hc Hv R He Hoff Hx Hsrc. unfold chanend_in, testwct. apply wp_bind, wp_bind.
  apply (wp_mono _ (fun _ s' => chanends s' = chanends s /\ endpoints s' = endpoints s)).
  { unfold updateOwner. apply wp_bind, (wp_eventable _ ev); [done |]. case_match; [by apply wp_ret |].
    unfold updateOwnerAux. apply wp_bind, (wp_eventable _ ev); [done |]. rewrite Hoff.
    apply wp_bind, wp_ret. by apply (wp_modEventable _ _ ev). }
  intros _ s1 [Ec Ee]. pose proof (rr_length _ _ _ R) as Hn. cbn in Hn.
  apply wp_bind, (wp_chanend _ cd); [by rewrite Ec |]. unfold rb_size. rewrite <- Hn.
  apply wp_bind, (wp_lift _ 0).
  { apply (controlPosition_data _ _ _ _ R); [done | cbn; lia |].
    intros tk Htk. apply list_elem_of_fmap in Htk as (v & -> & _). done. }
  cbn [Z.eqb negb]. apply wp_ret. cbn [Z.eqb negb].
  apply wp_bind, (wp_chanend _ cd); [by rewrite Ec |].
  do 4 (apply wp_bind; eapply wp_lift; [rewrite (rb_get_repr _ _ _ _ R) by lia; reflexivity |]).
  cbn [tokenValue]. rewrite be_word by done. apply wp_bind. unfold putChanend. cbn.
  pose proof (pop_front_n_repr _ 4 _ _ R ltac:(lia)) as R'. cbn in R'.
  apply wp_bind. unfold notifySource. apply wp_bind, (wp_endpoint _ x); [cbn; by rewrite Ee |].
  destruct (source x) as [e|] eqn:Es.
  - destruct (Hsrc e eq_refl) as (r & c & -> & Hne & Hcr & Hpo). unfold endpointOf. cbn [notifyDest].
    rewrite chanendOf_endpointOf. unfold chanend_notify. apply wp_bind, (wp_chanend _ c).
    { cbn. rewrite lookup_insert_ne by done. by rewrite Ec. }
    rewrite Hpo. apply wp_ret, wp_ret. split; [done |]. eexists. split; [exact R' | cbn; by rewrite Ec].
  - apply wp_ret, wp_ret. split; [done |]. eexists. split; [exact R' | cbn; by rewrite Ec].
Qed.

(** C13: A word output to a channel end in the middle of a packet, to a destination whose events are
    disabled.  If the destination's buffer holds the tokens [l] and has room for four more, the four
    bytes of the word are added behind them, the most significant first; when a thread waits for input
    there, it goes on at the time of the output and no longer waits, and nothing else changes.  When [l]
    is empty, and the sender does not itself wait to output, an input on the destination then gives the same
    word and leaves the buffer empty.  If there is no room, the sending thread waits and no token is sent. *)
Theorem channel_word_roundtrip (r d t u : Ref) (c cd : Chanend) ev x (l : list Token) w (value time time' : Z) s :
  r <> d -> chanends s !! r = Some c -> inPacket c = true -> junkPacket c = false ->
  dest c = Some (endpointOf d) ->
  chanends s !! d = Some cd -> buf_repr cd l ->
  match pausedIn cd with None => True | Some y => is_Some (threads s !! y) /\ scheduler_ok s w end ->
  eventables s !! ChanendRef d = Some ev -> eventsEnabled ev = false ->
  endpoints s !! endpointOf d = Some x -> source x = Some (endpointOf r) -> is_u32 value ->
  (zlength l <= 4 -> wp (chanend_out r t value time) (fun res s' => res = CONTINUE /\
     (exists b, ring_repr CHANEND_BUFFER_SIZE b (l ++ data_tokens (be_bytes value)) /\
        match pausedIn cd with
        | None => s' = set_chanends (<[d := set_buf b cd]> (chanends s)) s
        | Some y => exists th q, threads s !! y = Some th /\
            s' = set_scheduler q (set_threads (<[y := awake (Thread.set_time time th)]> (threads s))
                   (set_chanends (<[d := set_pausedIn None (set_buf b cd)]> (chanends s)) s)) /\
            scheduler_ok s' (<[RThread y := time]> w)
        end) /\
     (l = [] -> pausedOut c = None -> wp (chanend_in d u time') (fun res s2 => res = (CONTINUE, value) /\
        exists b, ring_repr CHANEND_BUFFER_SIZE b [] /\ chanends s2 !! d = Some (set_pausedIn None (set_buf b cd))) s')) s) /\
  (4 < zlength l -> wp (chanend_out r t value time) (fun res s' => res = DESCHEDULE /\
     s' = set_chanends (<[r := set_pausedOut (Some t) c]> (chanends s)) s) s).
Proof.
  intros Hne Hc Hp Hj Hd Hcd R Hpi He Hoff Hx Hs Hv.
  pose proof (out_word r t d c cd l w value time s Hne Hc Hp Hj Hd Hcd R) as Hout.
  specialize (Hout ltac:(split; eauto)). split; intros Hl.
  - rewrite (proj2 (Z.leb_le _ _)) in Hout by lia. eapply wp_mono; [exact Hout |]. cbn beta.
    intros res s' (-> & b & Rb & Hwk). split; [done |]. split; [eauto |]. intros -> Hpo. cbn in Rb.
    destruct (woken_fields _ _ _ _ _ _ _ Hwk) as (Ec & Ee & En).
    eapply wp_mono; [eapply (in_word d u (set_pausedIn None (set_buf b cd)) value time' _ ev x) |]; try done.
    + rewrite Ec. apply lookup_insert_eq.
    + by rewrite Ee.
    + by rewrite En.
    + intros e He'. exists r, c. split; [congruence |]. split; [done |]. rewrite Ec.
      by rewrite lookup_insert_ne.
    + cbn beta. intros res2 s2 (-> & b2 & Rb2 & ->). split; [done |]. exists b2. split; [done |].
      rewrite lookup_insert_eq. by destruct cd.
  - rewrite (proj2 (Z.leb_gt _ _)) in Hout by lia. exact Hout.
Qed.
End words.

(** Channel ends 0 and 1 of a core: 0 is in the middle of a packet to 1. *)
#[local] Definition emptyBuf : ring_buffer Token := new_ring CHANEND_BUFFER_SIZE (mkToken 0 false).
#[local] Definition sender : Chanend :=
  mkChanend 0 (Some (ChanendOf 0 0 1)) emptyBuf None None false true false.
#[local] Definition receiver : Chanend := mkChanend 0 None emptyBuf None None false false false.
#[local] Definition receiverEv : EventableResource :=
  mkEventable (mkResource true 0x102) 0 0x102 false false (Some (0, 0, 1)%nat).
#[local] Definition exampleChannel : Sys unit :=
  set_endpoints {[ChanendOf 0 0 1 := mkChanEndpoint false [] (Some (ChanendOf 0 0 0))]}
    (set_chanends (<[(0, 0, 0)%nat := sender]> {[(0, 0, 1)%nat := receiver]})
       (exampleSys [] [(ChanendRef (0, 0, 1)%nat, receiverEv)] [] [] [])).
Lemma channel_word_roundtrip_witness :
  wp (chanend_out (0, 0, 0)%nat (0, 0, 0)%nat 0x12345678 7) (fun res s' => res = CONTINUE /\
    wp (chanend_in (0, 0, 1)%nat (0, 0, 1)%nat 8) (fun res _ => res = (CONTINUE, 0x12345678)) s') exampleChannel.
Proof.
  destruct (channel_word_roundtrip (0, 0, 0)%nat (0, 0, 1)%nat (0, 0, 0)%nat (0, 0, 1)%nat sender receiver receiverEv
    (mkChanEndpoint false [] (Some (ChanendOf 0 0 0))) [] ∅ 0x12345678 7 8 exampleChannel) as [Hok _];
    try reflexivity; try discriminate.
  - apply new_ring_repr. vm_compute. split; reflexivity.
  - split; [discriminate | reflexivity].
  - eapply wp_mono; [apply Hok; discriminate |]. cbn beta. intros res s' (-> & _ & Hin). split; [reflexivity |].
    eapply wp_mono; [apply Hin; reflexivity |]. by intros res2 s2 [-> _].
Defined.

(** ** Requests to a switch *)

(** The tokens of a request, without the final [CT_END]. *)
Definition request_tokens (q : Request) : list Token :=
  mkToken (if isWrite q then CT_WRITEC else CT_READC) true ::
  data_tokens ([u8 (returnNode q .>> 8); u8 (returnNode q); returnNum q; u8 (regNum q .>> 8); u8 (regNum q)] ++
    if isWrite q then be_bytes (reqData q) else []).

Definition request_ok (q : Request) : Prop :=
  is_u16 (returnNode q) /\ is_u8 (returnNum q) /\ is_u16 (regNum q) /\
  if isWrite q then is_u32 (reqData q) else reqData q = 0.

Lemma be_half v : is_u16 v -> (u8 (v .>> 8) .<< 8) .| u8 v = v.
Proof.
  intros Hv. apply (fits_bits_inj 32); [lia | | split; [apply Hv | destruct Hv; lia] |].
  - apply fits_lor; [lia | apply wrap_fits; lia |]. pose proof (wrap_fits 8 v ltac:(lia)) as [? ?]. split; lia.
  - intros i Hi. enum_Z i Hi; bits_at.
Qed.

Section requests.
Context {P : Type}.
Implicit Types s : Sys P.

(** Receiving tokens one by one. *)
Lemma receive_tokens n w l s : switches s !! n = Some w -> junkIncomingTokens w = false ->
  0 <= recievedTokens w -> zlength (ss_buf w) = writeRequestLength ->
  recievedTokens w + zlength l <= writeRequestLength ->
  wp (forEach l (switch_receiveToken n)) (fun _ s' => exists w', switches s' !! n = Some w' /\
    junkIncomingTokens w' = false /\ recievedTokens w' = recievedTokens w + zlength l /\
    length (ss_buf w') = length (ss_buf w) /\
    take (Z.to_nat (recievedTokens w')) (ss_buf w') = take (Z.to_nat (recievedTokens w)) (ss_buf w) ++ l) s.
Proof.
  revert w s. induction l as [|tk l IH]; intros w s Hw Hj H0 Hlen Hn; cbn [forEach].
  { apply wp_ret. exists w. split_and!; try done; [cbn; lia |]. by rewrite app_nil_r. }
  cbn [length] in Hn. apply wp_bind. unfold switch_receiveToken at 1.
  assert (forall Q, Q w s -> wp (switch n) Q s) as Hsw.
  { intros Q HQ. unfold wp, switch, get, lift, mbind, M_bind. cbn. by rewrite Hw. }
  apply wp_bind, Hsw. rewrite Hj. rewrite (proj2 (Z.eqb_neq _ _)) by lia.
  destruct (array_set (ss_buf w) (recievedTokens w) tk) as [b|] eqn:Eb.
  2: { destruct (array_set_is_Some (ss_buf w) (recievedTokens w) tk) as [? E]; [lia | congruence]. }
  apply wp_bind, (wp_lift _ b); [done |]. unfold putSwitch. cbn.
  assert (b = <[Z.to_nat (recievedTokens w) := tk]> (ss_buf w)) as ->.
  { unfold array_set in Eb. case_match; congruence. }
  set (w1 := set_ss_buf _ _). set (s1 := set_switches _ s).
  eapply wp_mono; [apply (IH w1 s1) |].
  - apply lookup_insert_eq.
  - done.
  - cbn. lia.
  - cbn. by rewrite length_insert.
  - cbn. lia.
  - cbn beta. intros _ s2 (w2 & Hw2 & Hj2 & Hr2 & Hl2 & Ht2). exists w2. split_and!; try done.
    + rewrite Hr2. cbn. lia.
    + rewrite Hl2. cbn. by rewrite length_insert.
    + rewrite Ht2. cbn [w1 recievedTokens ss_buf set_ss_buf set_recievedTokens].
      rewrite Z2Nat.inj_add, Nat.add_1_r by lia. rewrite take_S_r with (x := tk).
      * rewrite take_insert_ge by lia. by rewrite <- app_assoc.
      * apply list_lookup_insert_eq. lia.
Qed.

Lemma parse_of_prefix w q : request_ok q -> recievedTokens w = zlength (request_tokens q) ->
  take (Z.to_nat (recievedTokens w)) (ss_buf w) = request_tokens q -> parseRequest w = Some (Some q).
Proof.
  destruct q as [isW node num reg dat]. intros (Hnode & Hnum & Hreg & Hdat) Hr Ht. cbn in Hnode, Hnum, Hreg, Hdat.
  assert (exists tl, ss_buf w = request_tokens (mkRequest isW node num reg dat) ++ tl) as [tl Hb].
  { exists (drop (Z.to_nat (recievedTokens w)) (ss_buf w)). rewrite <- Ht. symmetry. apply take_drop. }
  unfold parseRequest. rewrite Hb, Hr. destruct isW.
  - transitivity (Some (Some (mkRequest true ((u8 (node .>> 8) .<< 8) .| u8 node) num
      ((u8 (reg .>> 8) .<< 8) .| u8 reg)
      ((u8 (dat .>> 24) .<< 24) .| (u8 (dat .>> 16) .<< 16) .| (u8 (dat .>> 8) .<< 8) .| u8 dat)))); [reflexivity |].
    by rewrite !be_half, be_word.
  - transitivity (Some (Some (mkRequest false ((u8 (node .>> 8) .<< 8) .| u8 node) num
      ((u8 (reg .>> 8) .<< 8) .| u8 reg) 0))); [reflexivity |].
    by rewrite !be_half, Hdat.
Qed.

(** A switch parses the request it was sent.  The tokens of a request to read or write a
    control register, received one by one by a switch that has received nothing since the
    last packet, are understood as that request. *)
Theorem request_roundtrip (n : nat) (w : SSwitch) (q : Request) s :
  switches s !! n = Some w -> junkIncomingTokens w = false -> recievedTokens w = 0 ->
  zlength (ss_buf w) = writeRequestLength -> request_ok q ->
  wp (forEach (request_tokens q) (switch_receiveToken n))
    (fun _ s' => exists w', switches s' !! n = Some w' /\ junkIncomingTokens w' = false /\
       parseRequest w' = Some (Some q)) s.
Proof.
  intros Hw Hj Hr Hlen Hq. eapply wp_mono; [apply (receive_tokens n w); try done; [lia |] |].
  - rewrite Hr. unfold request_tokens, data_tokens, writeRequestLength. destruct q as [[] ? ? ? ?]; cbn; lia.
  - cbn beta. intros _ s' (w' & Hw' & Hj' & Hr' & _ & Ht'). exists w'. split_and!; try done.
    rewrite Hr in Hr', Ht'. cbn [Z.to_nat take app] in Ht'. by apply parse_of_prefix.
Qed.
End requests.

#[local] Definition exampleSwitch : SSwitch :=
  mkSSwitch (newSSwitchCtrlRegs 0) 0 (replicate 10 (mkToken 0 false)) false false 0 0.
Lemma request_roundtrip_witness :
  wp (forEach (request_tokens (mkRequest true 0x1234 5 0x85 0xdeadbeef)) (switch_receiveToken 0))
    (fun _ s' => exists w', switches s' !! 0%nat = Some w' /\ junkIncomingTokens w' = false /\
       parseRequest w' = Some (Some (mkRequest true 0x1234 5 0x85 0xdeadbeef)))
    (set_switches {[0%nat := exampleSwitch]} (exampleSys [] [] [] [] [])).
Proof.
  apply (request_roundtrip 0 exampleSwitch); try reflexivity.
  repeat split; try discriminate.
Defined.
