(* ===== verification/EventEnable.v ===== *)
(** * Enabling events (lib/Resource.cpp, lib/Thread.h, lib/Thread.cpp)

    The operations that enable events on a resource, or on a thread, and ask the resources
    whether their condition already holds.  The lists of a thread hold exactly the resources
    that are enabled and owned by it, so that a resource is only unlinked from a list it is in. *)

From Stdlib Require Import ZArith Lia.
From stdpp Require Import base list numbers option gmap.
From S2P Require Import Prelude Opcode.
From S2P Require Import Refs Resource RunnableQueue SchedulerMap StateMonad Thread SysState Events SysFacts.
From S2P Require Import Timer Chanend.

#[local] Open Scope Z_scope.
#[local] Set Warnings "-clear-no-such-hyp".
#[local] Open Scope cbits_scope.

Section enable.
Context {P : Type} `{PortEvents P}.
Abbreviation MS := (M (Sys P)).

(** The virtual method [seeEventEnable]. *)
Definition seeEventEnable (e : EventableRef) (time : Z) : MS bool :=
  match e with
  | TimerRef r => timer_seeEventEnable r time
  | ChanendRef r => chanend_seeEventEnable r time
  | EvPortRef _ _ _ => port_seeEventEnable e time
  end.

(** lib/Resource.cpp:180-187 EventableResource::checkEvent *)
Definition checkEvent (e : EventableRef) : MS bool :=
  ok ← eventsPermitted e;
  if negb ok then mret false
  else
    ev ← eventable e; t ← lift (owner ev); th ← thread t;
    ready ← seeEventEnable e (Thread.time th);
    if negb ready then mret false
    else
      ev ← eventable e; t ← lift (owner ev); th ← thread t;
      _ ← event e (Thread.time th); mret true.

(** lib/Resource.cpp:67-85 EventableResource::setInterruptMode *)
Definition setInterruptMode (e : EventableRef) (t : Ref) (Enable : bool) : MS unit :=
  _ ← updateOwner e t;
  ev ← eventable e;
  if eqb Enable (interruptMode ev) then mret tt
  else
    _ ← when (eventsEnabled ev)
          (o ← lift (owner ev);
           _ ← removeEnabled (interruptMode ev) o e;
           addEnabled (negb (interruptMode ev)) o e);
    _ ← modEventable e (set_interruptMode Enable);
    ok ← eventsPermitted e;
    if negb ok then mret tt
    else
      th ← thread t;
      ready ← seeEventEnable e (Thread.time th);
      when ready (th ← thread t; event e (Thread.time th)).

(** lib/Resource.cpp:164-178 EventableResource::eventEnable *)
Definition eventEnable (e : EventableRef) (t : Ref) : MS unit :=
  _ ← updateOwner e t;
  ev ← eventable e;
  _ ← when (negb (eventsEnabled ev)) (o ← lift (owner ev); addEnabled (interruptMode ev) o e);
  _ ← modEventable e (set_eventsEnabled true);
  _ ← checkEvent e; mret tt.

(** The loop over a list of resources that is left at the first that is ready. *)
Fixpoint anyReady (l : list EventableRef) (time : Z) : MS bool :=
  match l with
  | [] => mret false
  | e :: l => ready ← seeEventEnable e time; if ready : bool then mret true else anyReady l time
  end.

(** lib/Thread.cpp:158-177 Thread::setSRSlowPath *)
Definition setSRSlowPath (t : Ref) (enabled : Z) : MS bool :=
  th ← thread t;
  r ← (if Z.testbit enabled EEBLE then anyReady (eventEnabledResources th) (Thread.time th) else mret false);
  if r : bool then mret true
  else if Z.testbit enabled IEBLE then
    th ← thread t; anyReady (interruptEnabledResources th) (Thread.time th)
  else mret false.

(** lib/Thread.h:324-331 Thread::setSR *)
Definition setSR (t : Ref) (value : Z) : MS bool :=
  th ← thread t;
  let enabled := value .& (sr th .^ value) in
  _ ← putThread t (set_sr value th);
  if negb (Z.testbit enabled EEBLE) && negb (Z.testbit enabled IEBLE) then mret false
  else setSRSlowPath t enabled.

(** lib/Thread.h:315-320 Thread::enableEvents *)
Definition enableEvents (t : Ref) : MS bool :=
  th ← thread t; setSR t (sr_set EEBLE true (sr th)).

(** lib/Thread.h:338-346 Thread::clre *)
Definition clre (t : Ref) : MS unit :=
  _ ← setSRBit t EEBLE false;
  _ ← setSRBit t INENB false;
  th ← thread t;
  forEach (eventEnabledResources th) (fun e => eventDisable e t).
End enable.

(** ** The lists of enabled resources *)

Section lists.
Context {P : Type} `{PortEvents P}.
Implicit Types s : Sys P.

(** Where a resource is linked: with its owner, in the list of its mode. *)
Definition link (ev : EventableResource) : option (Ref * bool) :=
  if inUse (ev_res ev) && eventsEnabled ev then (fun t => (t, interruptMode ev)) <$> owner ev else None.

Definition links s (e : EventableRef) : option (Ref * bool) := eventables s !! e ≫= link.

(** The lists of the threads are those given by [L]. *)
Definition linked s (L : EventableRef -> option (Ref * bool)) : Prop :=
  forall t th i, threads s !! t = Some th ->
    NoDup (enabledOf i th) /\ forall e, e ∈ enabledOf i th <-> L e = Some (t, i).

Record events_ok s : Prop := {
  eo_linked : linked s (links s);
  eo_owner : forall e ev, eventables s !! e = Some ev -> inUse (ev_res ev) = true ->
    exists t, owner ev = Some t /\ is_Some (threads s !! t)
}.

Definition relink (L : EventableRef -> option (Ref * bool)) e v : EventableRef -> option (Ref * bool) :=
  fun x => if decide (x = e) then v else L x.

Lemma linked_ext s L L' : (forall e, L e = L' e) -> linked s L -> linked s L'.
Proof. intros HL Hs t th i Ht. destruct (Hs t th i Ht) as [HN He]. split; [done |]. intros e. by rewrite <- HL. Qed.

(** The lists depend on the threads only. *)
Lemma linked_threads s s' L : threads s' = threads s -> linked s L -> linked s' L.
Proof. unfold linked. by intros ->. Qed.

Lemma wp_removeEnabled i t e L Q s : linked s L -> L e = Some (t, i) -> is_Some (threads s !! t) ->
  (forall s', s' = set_threads (threads s') s -> dom (threads s') = dom (threads s) ->
     linked s' (relink L e None) -> Q tt s') ->
  wp (removeEnabled i t e) Q s.
Proof.
  intros HL He [th Hth] HQ. unfold removeEnabled. apply wp_bind, (wp_thread _ th); [done |].
  apply wp_bind, wp_require.
  { apply bool_decide_eq_true_2. by apply (HL t th i Hth). }
  apply wp_putThread. apply HQ; [by destruct s | cbn; apply dom_insert_lookup_L; by eexists |].
  intros t' th' i' Ht'. cbn in Ht'. destruct (decide (t = t')) as [<-|Hne].
  - rewrite lookup_insert_eq in Ht'. injection Ht' as <-.
    destruct (HL t th i' Hth) as [HN Hi']. destruct (eqb i i') eqn:Ei.
    + apply eqb_prop in Ei as <-.
      assert (enabledOf i (if i then set_interruptEnabledResources (filter (.≠ e) (interruptEnabledResources th)) th
        else set_eventEnabledResources (filter (.≠ e) (eventEnabledResources th)) th) = filter (.≠ e) (enabledOf i th)) as ->
        by (by destruct i).
      split; [by apply NoDup_filter |]. intros x. rewrite list_elem_of_filter, Hi'. unfold relink.
      destruct (decide (x = e)) as [->|]; naive_solver.
    + apply eqb_false_iff in Ei.
      assert (enabledOf i' (if i then set_interruptEnabledResources (filter (.≠ e) (interruptEnabledResources th)) th
        else set_eventEnabledResources (filter (.≠ e) (eventEnabledResources th)) th) = enabledOf i' th) as ->
        by (by destruct i, i').
      split; [done |]. intros x. rewrite Hi'. unfold relink. destruct (decide (x = e)) as [->|]; naive_solver.
  - rewrite lookup_insert_ne in Ht' by done. destruct (HL t' th' i' Ht') as [HN Hi']. split; [done |].
    intros x. rewrite Hi'. unfold relink. destruct (decide (x = e)) as [->|]; naive_solver.
Qed.

Lemma wp_addEnabled i t e L Q s : linked s L -> L e = None -> is_Some (threads s !! t) ->
  (forall s', s' = set_threads (threads s') s -> dom (threads s') = dom (threads s) ->
     linked s' (relink L e (Some (t, i))) -> Q tt s') ->
  wp (addEnabled i t e) Q s.
Proof.
  intros HL He [th Hth] HQ. unfold addEnabled. apply (wp_modThread _ _ th); [done |].
  apply HQ; [by destruct s | cbn; apply dom_insert_lookup_L; by eexists |].
  intros t' th' i' Ht'. cbn in Ht'. destruct (decide (t = t')) as [<-|Hne].
  - rewrite lookup_insert_eq in Ht'. injection Ht' as <-.
    destruct (HL t th i' Hth) as [HN Hi']. destruct (eqb i i') eqn:Ei.
    + apply eqb_prop in Ei as <-.
      assert (enabledOf i (if i then set_interruptEnabledResources (e :: interruptEnabledResources th) th
        else set_eventEnabledResources (e :: eventEnabledResources th) th) = e :: enabledOf i th) as ->
        by (by destruct i).
      split; [apply NoDup_cons; split; [rewrite Hi'; congruence | done] |].
      intros x. rewrite elem_of_cons, Hi'. unfold relink. destruct (decide (x = e)) as [->|]; naive_solver.
    + apply eqb_false_iff in Ei.
      assert (enabledOf i' (if i then set_interruptEnabledResources (e :: interruptEnabledResources th) th
        else set_eventEnabledResources (e :: eventEnabledResources th) th) = enabledOf i' th) as ->
        by (by destruct i, i').
      split; [done |]. intros x. rewrite Hi'. unfold relink. destruct (decide (x = e)) as [->|]; naive_solver.
  - rewrite lookup_insert_ne in Ht' by done. destruct (HL t' th' i' Ht') as [HN Hi']. split; [done |].
    intros x. rewrite Hi'. unfold relink. destruct (decide (x = e)) as [->|]; naive_solver.
Qed.

Lemma events_ok_after s s' e ev' : events_ok s -> eventables s' = <[e := ev']> (eventables s) ->
  dom (threads s') = dom (threads s) -> linked s' (relink (links s) e (link ev')) ->
  (inUse (ev_res ev') = true -> exists t, owner ev' = Some t /\ is_Some (threads s !! t)) -> events_ok s'.
Proof.
  intros [HL HO] Ee Hd Hl Ho.
  assert (forall t, is_Some (threads s !! t) -> is_Some (threads s' !! t)) as Hi.
  { intros t Ht%elem_of_dom. apply elem_of_dom. by rewrite Hd. }
  split.
  - eapply linked_ext; [| exact Hl]. intros x. unfold links, relink. rewrite Ee.
    destruct (decide (x = e)) as [->|]; [by rewrite lookup_insert_eq | by rewrite lookup_insert_ne].
  - intros x ev. rewrite Ee. intros [[<- <-]|[_ Hx]]%lookup_insert_Some Hu.
    + destruct (Ho Hu) as (t & ? & ?). eauto.
    + destruct (HO x ev Hx Hu) as (t & ? & ?). eauto.
Qed.

(** The members of [ev] that decide where it is linked do not change. *)
Lemma events_ok_same s e ev ev' : events_ok s -> eventables s !! e = Some ev ->
  link ev' = link ev -> inUse (ev_res ev') = inUse (ev_res ev) -> owner ev' = owner ev ->
  events_ok (set_eventables (<[e := ev']> (eventables s)) s).
Proof.
  intros E He Hl Hu Ho. eapply (events_ok_after s _ e ev'); try done.
  - eapply linked_ext; [| apply (linked_threads s); [done | apply E]]. intros x. unfold relink.
    destruct (decide (x = e)) as [->|]; [| done]. unfold links. by rewrite He.
  - rewrite Hu, Ho. by apply (eo_owner s E e).
Qed.

Lemma linked_relink_same s e L : linked s L -> linked s (relink L e (L e)).
Proof. apply linked_ext. intros x. unfold relink. by destruct (decide (x = e)) as [->|]. Qed.

Lemma relink_relink L e v v' x : relink (relink L e v) e v' x = relink L e v' x.
Proof. unfold relink. by destruct (decide (x = e)). Qed.

Section ops.
Context (s : Sys P) (e : EventableRef) (ev : EventableResource).
Context (E : events_ok s) (He : eventables s !! e = Some ev) (Hu : inUse (ev_res ev) = true).

Lemma owner_thread : exists o, owner ev = Some o /\ is_Some (threads s !! o).
Proof. apply (eo_owner s E e ev He Hu). Qed.

Lemma links_e : links s e = if eventsEnabled ev then (fun t => (t, interruptMode ev)) <$> owner ev else None.
Proof. unfold links. rewrite He. cbn. unfold link. by rewrite Hu. Qed.

(** Unlink the resource if its events are enabled. *)
Lemma wp_unlink Q :
  (forall s', s' = set_threads (threads s') s -> dom (threads s') = dom (threads s) ->
     linked s' (relink (links s) e None) -> Q tt s') ->
  wp (when (eventsEnabled ev) (o ← lift (owner ev); removeEnabled (interruptMode ev) o e)) Q s.
Proof.
  intros HQ. destruct owner_thread as (o & Ho & Hth). pose proof links_e as HL. rewrite Ho in HL.
  destruct (eventsEnabled ev); cbn [when].
  - apply wp_bind. rewrite Ho. eapply wp_lift; [done |].
    eapply wp_removeEnabled; [apply E | exact HL | done | done].
  - apply wp_ret. apply HQ; [by destruct s | done |]. rewrite <- HL. apply linked_relink_same, E.
Qed.

Lemma wp_updateOwner t Q : is_Some (threads s !! t) ->
  (forall s', events_ok s' -> eventables s' = <[e := set_owner (Some t) ev]> (eventables s) ->
     dom (threads s') = dom (threads s) -> Q tt s') ->
  wp (updateOwner e t) Q s.
Proof.
  intros Ht HQ. unfold updateOwner. apply wp_bind, (wp_eventable _ ev); [done |].
  destruct (bool_decide_reflect (owner ev = Some t)) as [Ho|Ho].
  - apply wp_ret. apply HQ; [done | | done]. rewrite insert_id; [done |].
    rewrite He, <- Ho. by destruct ev.
  - unfold updateOwnerAux. apply wp_bind, (wp_eventable _ ev); [done |].
    assert (is_Some (threads s !! t)) as Ht' by done.
    apply wp_bind.
    apply (wp_mono _ (fun _ s' => s' = set_threads (threads s') s /\ dom (threads s') = dom (threads s) /\
      linked s' (relink (links s) e (if eventsEnabled ev then Some (t, interruptMode ev) else None)))).
    { pose proof (wp_unlink) as Hun. destruct owner_thread as (o & Ho' & Hth). pose proof links_e as HL. rewrite Ho' in *.
      destruct (eventsEnabled ev); cbn [when] in *.
      - apply wp_bind. eapply wp_lift; [done |]. apply wp_bind.
        eapply wp_removeEnabled; [apply E | exact HL | done |]. intros s1 E1 D1 L1.
        eapply wp_addEnabled; [exact L1 | unfold relink; by rewrite decide_True | |].
        + apply elem_of_dom. rewrite D1. by apply elem_of_dom.
        + intros s2 E2 D2 L2. split; [rewrite E2, E1; by destruct s |]. split; [congruence |].
          eapply linked_ext; [| exact L2]. intros x. apply relink_relink.
      - apply wp_ret. split; [by destruct s |]. split; [done |]. rewrite <- HL. apply linked_relink_same, E. }
    intros _ s1 (E1 & D1 & L1). apply (wp_modEventable _ _ ev); [by rewrite E1 |].
    apply HQ.
    + eapply (events_ok_after s _ e (set_owner (Some t) ev)); try done.
      * by rewrite E1.
      * apply (linked_threads s1); [by rewrite E1 |]. unfold link. cbn. rewrite Hu. done.
      * intros _. cbn. eauto.
    + by rewrite E1.
    + by rewrite <- D1.
Qed.
Lemma wp_setVector t v Q : is_Some (threads s !! t) -> (forall s', events_ok s' -> Q tt s') -> wp (setVector e t v) Q s.
Proof.
  intros Ht HQ. apply wp_bind, wp_updateOwner; [done |]. intros s1 E1 V1 D1.
  assert (eventables s1 !! e = Some (set_owner (Some t) ev)) as He1 by (by rewrite V1, lookup_insert_eq).
  eapply wp_modEventable; [exact He1 |]. apply HQ. by eapply events_ok_same.
Qed.

Lemma wp_setEV t v Q : is_Some (threads s !! t) -> (forall s', events_ok s' -> Q tt s') -> wp (setEV e t v) Q s.
Proof.
  intros Ht HQ. apply wp_bind, wp_updateOwner; [done |]. intros s1 E1 V1 D1.
  assert (eventables s1 !! e = Some (set_owner (Some t) ev)) as He1 by (by rewrite V1, lookup_insert_eq).
  eapply wp_modEventable; [exact He1 |]. apply HQ. by eapply events_ok_same.
Qed.

(** Unlink the resource and change it into one that is not linked. *)
Lemma wp_unlink_mod f Q : link (f ev) = None ->
  (inUse (ev_res (f ev)) = true -> exists t, owner (f ev) = Some t /\ is_Some (threads s !! t)) ->
  (forall s', events_ok s' -> eventables s' = <[e := f ev]> (eventables s) ->
     dom (threads s') = dom (threads s) -> Q tt s') ->
  wp (when (eventsEnabled ev) (o ← lift (owner ev); removeEnabled (interruptMode ev) o e))
    (fun _ => wp (modEventable e f) Q) s.
Proof.
  intros Hf Ho HQ. apply wp_unlink. intros s1 E1 D1 L1.
  apply (wp_modEventable _ _ ev); [by rewrite E1 |].
  assert (eventables (set_eventables (<[e := f ev]> (eventables s1)) s1) = <[e := f ev]> (eventables s)) as V1
    by (by rewrite E1).
  apply HQ; [| done | by rewrite <- D1].
  eapply (events_ok_after s _ e (f ev)); [done | exact V1 | by rewrite <- D1 | | exact Ho].
  apply (linked_threads s1); [by destruct s1 |]. by rewrite Hf.
Qed.

(** The same after [clearOwner]. *)
Lemma wp_clearOwner_mod f Q : let ev' := f (set_owner None ev) in link ev' = None ->
  (inUse (ev_res ev') = true -> exists t, owner ev' = Some t /\ is_Some (threads s !! t)) ->
  (forall s', events_ok s' -> dom (threads s') = dom (threads s) -> Q tt s') ->
  wp (clearOwner e) (fun _ => wp (modEventable e f) Q) s.
Proof.
  intros ev' Hf Ho HQ. apply wp_bind, (wp_eventable _ ev); [done |]. apply wp_bind, wp_unlink. intros s1 E1 D1 L1.
  apply (wp_modEventable _ _ ev); [by rewrite E1 |].
  eapply wp_modEventable; [apply lookup_insert_eq |]. fold ev'. apply HQ; [| by rewrite <- D1].
  eapply (events_ok_after s _ e ev'); [done | | by rewrite <- D1 | | exact Ho].
  - cbn. by rewrite insert_insert_eq, E1.
  - apply (linked_threads s1); [by destruct s1 |]. by rewrite Hf.
Qed.

End ops.

Lemma wp_eventDisable s e ev t Q : events_ok s -> eventables s !! e = Some ev -> inUse (ev_res ev) = true ->
  is_Some (threads s !! t) ->
  (forall s', events_ok s' ->
     eventables s' = <[e := set_owner (Some t) (set_eventsEnabled false ev)]> (eventables s) ->
     dom (threads s') = dom (threads s) -> Q tt s') ->
  wp (eventDisable e t) Q s.
Proof.
  intros E He Hu Ht HQ. apply wp_bind, (wp_eventable _ ev); [done |]. apply wp_bind.
  eapply wp_mono; [apply (wp_unlink_mod s e ev E He Hu (set_eventsEnabled false)
    (fun _ s1 => wp (updateOwner e t) Q s1)) |].
  - unfold link. cbn. by rewrite andb_false_r.
  - intros _. cbn. by apply (eo_owner s E e).
  - intros s1 E1 V1 D1.
    apply (wp_updateOwner s1 e (set_eventsEnabled false ev)); [done | by rewrite V1, lookup_insert_eq | done | |].
    + apply elem_of_dom. rewrite D1. by apply elem_of_dom.
    + intros s2 E2 V2 D2. apply HQ; [done | by rewrite V2, V1, insert_insert_eq | congruence].
  - intros [] s1 H1. apply wp_bind, H1.
Qed.

Lemma wp_eventableSetInUseOn s e ev t Q : events_ok s -> eventables s !! e = Some ev -> is_Some (threads s !! t) ->
  (forall s', events_ok s' -> dom (threads s') = dom (threads s) -> Q tt s') -> wp (eventableSetInUseOn e t) Q s.
Proof.
  intros E He Ht HQ. apply wp_bind, (wp_eventable _ ev); [done |]. apply wp_bind.
  destruct (inUse (ev_res ev)) eqn:Hu; cbn [when].
  - apply (wp_clearOwner_mod s e ev E He Hu); [done | cbn; eauto | done].
  - apply wp_ret. apply (wp_modEventable _ _ ev); [done |]. apply HQ; [| done].
    eapply (events_ok_after s _ e); [done | done | done | | cbn; eauto].
    eapply linked_ext; [| apply (linked_threads s); [done | apply E]]. intros x. unfold relink.
    destruct (decide (x = e)) as [->|]; [| done]. unfold links, link. rewrite He. cbn. by rewrite Hu.
Qed.

Lemma wp_eventableSetInUseOff s e ev Q : events_ok s -> eventables s !! e = Some ev ->
  (forall s', events_ok s' -> dom (threads s') = dom (threads s) -> Q tt s') -> wp (eventableSetInUseOff e) Q s.
Proof.
  intros E He HQ. apply wp_bind, (wp_eventable _ ev); [done |].
  destruct (inUse (ev_res ev)) eqn:Hu; cbn [negb].
  - apply wp_bind, (wp_clearOwner_mod s e ev E He Hu); done.
  - apply wp_ret. by apply HQ.
Qed.

(** ** The part of the state that the lists depend on *)

Definition evView (ev : EventableResource) := (inUse (ev_res ev), eventsEnabled ev, interruptMode ev, owner ev).
Definition thView (th : Thread) := (eventEnabledResources th, interruptEnabledResources th).
Definition view s := (evView <$> eventables s, thView <$> threads s).

Lemma view_eventable s s' e ev : view s' = view s -> eventables s' !! e = Some ev ->
  exists ev0, eventables s !! e = Some ev0 /\ evView ev0 = evView ev.
Proof.
  intros Hv He. injection Hv as Hv _. apply (f_equal (.!! e)) in Hv. rewrite !lookup_fmap, He in Hv.
  destruct (eventables s !! e) as [ev0|]; [| done]. injection Hv as Hv. exists ev0. split; [done |].
  unfold evView. congruence.
Qed.

Lemma view_thread s s' t th : view s' = view s -> threads s' !! t = Some th ->
  exists th0, threads s !! t = Some th0 /\ thView th0 = thView th.
Proof.
  intros Hv He. injection Hv as _ Hv. apply (f_equal (.!! t)) in Hv. rewrite !lookup_fmap, He in Hv.
  destruct (threads s !! t) as [th0|]; [| done]. injection Hv as Hv. exists th0. split; [done |].
  unfold thView. congruence.
Qed.

Lemma view_links s s' : view s' = view s -> forall e, links s' e = links s e.
Proof.
  intros Hv e. unfold links. destruct (eventables s' !! e) as [ev|] eqn:E.
  - destruct (view_eventable s s' e ev Hv E) as (ev0 & -> & Hv0). injection Hv0 as H1 H2 H3 H4. cbn. unfold link. by rewrite H1, H2, H3, H4.
  - destruct (eventables s !! e) as [ev|] eqn:E0; [| done].
    destruct (view_eventable s' s e ev (eq_sym Hv) E0) as (ev0 & E1 & _). congruence.
Qed.

Lemma events_ok_view s s' : view s' = view s -> events_ok s -> events_ok s'.
Proof.
  intros Hv E. split.
  - intros t th i Ht. destruct (view_thread s s' t th Hv Ht) as (th0 & Ht0 & Hv0). injection Hv0 as H1 H2.
    destruct (eo_linked s E t th0 i Ht0) as [HN HL].
    assert (enabledOf i th = enabledOf i th0) as -> by (destruct i; cbn; congruence).
    split; [done |]. intros e. by rewrite (view_links s s' Hv).
  - intros e ev He Hu. destruct (view_eventable s s' e ev Hv He) as (ev0 & He0 & Hv0). injection Hv0 as H1 H2 H3 H4.
    destruct (eo_owner s E e ev0 He0) as (t & Ho & [th Ht]); [congruence |]. exists t. split; [congruence |].
    destruct (view_thread s' s t th (eq_sym Hv) Ht) as (th1 & -> & _). by eexists.
Qed.
End lists.

(** What the lists rely on of the ports: asking a port whether it is ready neither enables nor
    disables a resource. *)
Class PortEnableOk (P : Type) `{PortEvents P} : Prop :=
  port_seeEventEnable_view : forall e time, frames view (port_seeEventEnable e time).

Section frames.
Context {P : Type} `{PortEventsOk P} `{!PortEnableOk P}.
Context (v : gmap EventableRef (bool * bool * bool * option Ref) * gmap Ref (list EventableRef * list EventableRef)).
Abbreviation K := (keeps (fun s : Sys P => view s = v)).

Lemma view_setThread (s : Sys P) t th th' : threads s !! t = Some th -> thView th' = thView th ->
  view (set_threads (<[t := th']> (threads s)) s) = view s.
Proof.
  intros Ht Hv. unfold view. cbn. f_equal. rewrite fmap_insert, Hv. apply insert_id. by rewrite lookup_fmap, Ht.
Qed.

Lemma keeps_thread_v t : K (thread t).
Proof. intros s Hs. by apply wlp_thread. Qed.
Lemma keeps_eventable_v e : K (eventable e).
Proof. intros s Hs. by apply wlp_eventable. Qed.
Lemma keeps_modThread_v t f : (forall th, thView (f th) = thView th) -> K (modThread t f).
Proof. intros Hf s Hs. apply wlp_modThread. intros th Ht. by rewrite (view_setThread _ _ th). Qed.
Lemma keeps_setReg_v t r x : K (setReg t r x).
Proof.
  intros s Hs. apply wlp_bind, wlp_thread. intros th Ht. apply wlp_bind, wlp_lift. intros l _.
  cbn. by rewrite (view_setThread _ _ th).
Qed.
Lemma keeps_setSRBit_v t b x : K (setSRBit t b x).
Proof. by apply keeps_modThread_v. Qed.
Lemma keeps_writeReg_v t r x : K (writeReg t r x).
Proof.
  intros s Hs. apply wlp_bind, wlp_thread. intros th Ht. apply wlp_bind, wlp_lift. intros th' E.
  assert (thView th' = thView th).
  { unfold writeRegister in E. repeat case_match; simplify_option_eq; done. }
  cbn. by rewrite (view_setThread _ _ th).
Qed.
Lemma keeps_state_v f : (forall s : Sys P, view (f s) = view s) -> K (modify f).
Proof. intros Hf. apply keeps_modify. intros s. by rewrite Hf. Qed.
Lemma keeps_scheduleOther_v r time : K (scheduleOther r time).
Proof. unfold scheduleOther. keeps_auto. Qed.
Hint Resolve keeps_thread_v keeps_eventable_v keeps_setReg_v keeps_setSRBit_v keeps_writeReg_v
  keeps_scheduleOther_v : keeps.

Lemma keeps_schedule_v t : K (schedule t).
Proof. unfold schedule. keeps_auto. by apply keeps_modThread_v. Qed.
Lemma keeps_core_v c : K (core c).
Proof. intros s Hs. by apply wlp_bind, wlp_get, wlp_lift. Qed.
Lemma keeps_nodeType_v c : K (nodeType c).
Proof. unfold nodeType. keeps_auto. Qed.
Hint Resolve keeps_core_v keeps_nodeType_v keeps_schedule_v : keeps.
Lemma keeps_thread_fromPc_v t pc : K (thread_fromPc t pc).
Proof. unfold thread_fromPc, decodeCache. keeps_auto. Qed.
Lemma keeps_getReg_v t r : K (getReg t r).
Proof. unfold getReg. keeps_auto. Qed.
Lemma keeps_port_completeEvent_v e : K (port_completeEvent e).
Proof. intros s <-. eapply wlp_mono; [apply port_completeEvent_local |]. cbn beta. by intros _ s' ->. Qed.
Lemma keeps_port_seeEventEnable_v e time : K (port_seeEventEnable e time).
Proof. apply frames_keeps, port_seeEventEnable_view. Qed.
Lemma keeps_cancel_v r : K (cancel r).
Proof.
  destruct r; try apply keeps_ret. intros s Hs. apply wlp_bind, wlp_bind, wlp_get, wlp_lift. by intros.
Qed.
Hint Resolve keeps_thread_fromPc_v keeps_getReg_v keeps_port_completeEvent_v keeps_port_seeEventEnable_v
  keeps_cancel_v : keeps.
Lemma keeps_completeEvent_v t e i : K (completeEvent t e i).
Proof.
  unfold completeEvent, res_completeEvent, base_completeEvent, getTruncatedEV. keeps_auto.
  all: by apply keeps_modThread_v.
Qed.
Hint Resolve keeps_completeEvent_v : keeps.
Lemma keeps_event_v e time : K (event e time).
Proof.
  unfold event, takeEvent, setPendingEvent, isExecuting, eventsPermitted. keeps_auto.
  all: first [by apply keeps_state_v | by apply keeps_modThread_v].
Qed.
Hint Resolve keeps_event_v : keeps.
Lemma keeps_timer_v r : K (timer r).
Proof. intros s Hs. by apply wlp_bind, wlp_get, wlp_lift. Qed.
Lemma keeps_chanend_v r : K (chanend r).
Proof. intros s Hs. by apply wlp_chanend. Qed.
Hint Resolve keeps_timer_v keeps_chanend_v : keeps.
Lemma keeps_seeEventEnable_v e time : K (seeEventEnable e time).
Proof. unfold seeEventEnable, timer_seeEventEnable, chanend_seeEventEnable, scheduleUpdate. keeps_auto. Qed.
Hint Resolve keeps_seeEventEnable_v : keeps.
Lemma keeps_checkEvent_v e : K (checkEvent e).
Proof. unfold checkEvent, eventsPermitted. keeps_auto. Qed.
Lemma keeps_anyReady_v l time : K (anyReady l time).
Proof. induction l; cbn [anyReady]; keeps_auto. Qed.
Hint Resolve keeps_anyReady_v : keeps.
Lemma keeps_setSR_v t x : K (setSR t x).
Proof.
  intros s Hs. apply wlp_bind, wlp_thread. intros th Ht. apply wlp_bind. cbn.
  assert (keeps (fun s => view s = v) (if negb (Z.testbit (x .& (sr th .^ x)) EEBLE) && negb (Z.testbit (x .& (sr th .^ x)) IEBLE)
    then mret false else setSRSlowPath t (x .& (sr th .^ x)))) as Hk.
  { unfold setSRSlowPath. keeps_auto. }
  apply Hk. by rewrite (view_setThread _ _ th).
Qed.
End frames.

(** ** The invariant *)

Section invariant.
Context {P : Type} `{PortEventsOk P} `{!PortEnableOk P}.
Implicit Types s : Sys P.

Lemma keeps_events_ok {A} (m : M (Sys P) A) : (forall v, keeps (fun s => view s = v) m) -> keeps events_ok m.
Proof.
  intros Hm s E. eapply wlp_mono; [by apply (Hm (view s)) |]. cbn beta. intros _ s' Hv. by apply (events_ok_view s).
Qed.

(** A resource that instructions may be applied to. *)
Definition usable s (e : EventableRef) : Prop := exists ev, eventables s !! e = Some ev /\ inUse (ev_res ev) = true.

Lemma forEach_eventDisable l t Q s : events_ok s -> (forall e, e ∈ l -> usable s e) -> is_Some (threads s !! t) ->
  (forall s', events_ok s' -> Q tt s') -> wp (forEach l (fun e => eventDisable e t)) Q s.
Proof.
  revert s. induction l as [|e l IH]; intros s E Hl Ht HQ; cbn [forEach]; [by apply wp_ret, HQ |].
  destruct (Hl e) as (ev & He & Hu); [by constructor |].
  apply wp_bind, (wp_eventDisable s e ev); [done | done | done | done |]. intros s1 E1 V1 D1.
  apply IH; [done | | by apply elem_of_dom; rewrite D1; apply elem_of_dom | done].
  intros x Hx. destruct (Hl x) as (evx & Hx1 & Hx2); [by constructor |]. unfold usable. rewrite V1.
  destruct (decide (x = e)) as [->|]; [rewrite lookup_insert_eq; eauto | rewrite lookup_insert_ne by done; eauto].
Qed.

Lemma listed_usable s t th e : events_ok s -> threads s !! t = Some th -> e ∈ eventEnabledResources th -> usable s e.
Proof.
  intros E Ht He. destruct (eo_linked s E t th false Ht) as [_ HL]. apply (HL e) in He. unfold links in He.
  destruct (eventables s !! e) as [ev|] eqn:Ev; [| done]. exists ev. split; [done |]. cbn in He. unfold link in He.
  by destruct (inUse (ev_res ev)).
Qed.

Lemma wp_setSRBit t b x Q s : is_Some (threads s !! t) ->
  (forall s', view s' = view s -> Q tt s') -> wp (setSRBit t b x) Q s.
Proof.
  intros [th Ht] HQ. apply (wp_modThread _ _ th); [done |]. apply HQ. by apply (view_setThread _ _ th).
Qed.

Lemma view_threads s s' t : view s' = view s -> is_Some (threads s !! t) -> is_Some (threads s' !! t).
Proof. intros Hv [th Ht]. destruct (view_thread s' s t th (eq_sym Hv) Ht) as (th' & -> & _). by eexists. Qed.

Lemma wp_clre t Q s : events_ok s -> is_Some (threads s !! t) -> (forall s', events_ok s' -> Q tt s') -> wp (clre t) Q s.
Proof.
  intros E Ht HQ. apply wp_bind, wp_setSRBit; [done |]. intros s1 V1.
  apply wp_bind, wp_setSRBit; [by apply (view_threads s) |]. intros s2 V2.
  assert (view s2 = view s) as V by congruence. pose proof (events_ok_view s s2 V E) as E2.
  destruct (view_threads s s2 t V Ht) as [th Hth]. apply wp_bind, (wp_thread _ th); [done |].
  apply forEach_eventDisable; [done | | by eexists | done]. intros e. by apply (listed_usable s2 t th).
Qed.

Lemma eventEnable_ok e t s : events_ok s -> usable s e -> is_Some (threads s !! t) ->
  wlp (eventEnable e t) (fun _ => events_ok) s.
Proof.
  intros E (ev & He & Hu) Ht. unfold eventEnable. apply wlp_bind, wp_wlp, (wp_updateOwner s e ev); [done | done | done | done |].
  intros s1 E1 V1 D1. pose (ev1 := set_owner (Some t) ev).
  assert (eventables s1 !! e = Some ev1) as He1 by (by rewrite V1, lookup_insert_eq).
  assert (is_Some (threads s1 !! t)) as Ht1 by (apply elem_of_dom; rewrite D1; by apply elem_of_dom).
  apply wlp_bind, wp_wlp, (wp_eventable _ ev1); [done |]. apply wlp_bind, wp_wlp.
  apply (wp_mono _ (fun _ s2 => s2 = set_threads (threads s2) s1 /\ dom (threads s2) = dom (threads s1) /\
    linked s2 (relink (links s1) e (Some (t, interruptMode ev))))).
  - pose proof (links_e s1 e ev1 He1 Hu) as HL. cbn in HL. unfold ev1. cbn [eventsEnabled set_owner].
    destruct (eventsEnabled ev); cbn [negb when].
    + apply wp_ret. split; [by destruct s1 |]. split; [done |]. rewrite <- HL. apply linked_relink_same, E1.
    + apply wp_bind. eapply wp_lift; [done |]. eapply wp_addEnabled; [apply E1 | done | done | done].
  - intros [] s2 (E2 & D2 & L2). apply wlp_bind, wp_wlp, (wp_modEventable _ _ ev1); [by rewrite E2 |].
    apply wlp_bind. eapply wlp_mono; [apply (keeps_events_ok (checkEvent e)) |]; [intros v; apply keeps_checkEvent_v | | done].
    eapply (events_ok_after s1 _ e (set_eventsEnabled true ev1)); [done | by rewrite E2 | by rewrite <- D2 | | cbn; eauto].
    apply (linked_threads s2); [by destruct s2 |]. unfold link. cbn. by rewrite Hu.
Qed.

Lemma setInterruptMode_ok e t b s : events_ok s -> usable s e -> is_Some (threads s !! t) ->
  wlp (setInterruptMode e t b) (fun _ => events_ok) s.
Proof.
  intros E (ev & He & Hu) Ht. unfold setInterruptMode.
  apply wlp_bind, wp_wlp, (wp_updateOwner s e ev); [done | done | done | done |].
  intros s1 E1 V1 D1. pose (ev1 := set_owner (Some t) ev).
  assert (eventables s1 !! e = Some ev1) as He1 by (by rewrite V1, lookup_insert_eq).
  assert (is_Some (threads s1 !! t)) as Ht1 by (apply elem_of_dom; rewrite D1; by apply elem_of_dom).
  apply wlp_bind, wp_wlp, (wp_eventable _ ev1); [done |].
  destruct (eqb b (interruptMode ev1)) eqn:Eb; [by apply wlp_ret |]. apply eqb_false_iff in Eb. apply wlp_bind, wp_wlp.
  apply (wp_mono _ (fun _ s2 => s2 = set_threads (threads s2) s1 /\ dom (threads s2) = dom (threads s1) /\
    linked s2 (relink (links s1) e (if eventsEnabled ev then Some (t, b) else None)))).
  - pose proof (links_e s1 e ev1 He1 Hu) as HL. unfold ev1 in *. cbn [eventsEnabled interruptMode owner set_owner] in *.
    destruct (eventsEnabled ev); cbn [when].
    + apply wp_bind. eapply wp_lift; [done |]. apply wp_bind.
      eapply wp_removeEnabled; [apply E1 | exact HL | done |]. intros s2 E2 D2 L2.
      eapply wp_addEnabled; [exact L2 | unfold relink; by rewrite decide_True | apply elem_of_dom; rewrite D2; by apply elem_of_dom |].
      intros s3 E3 D3 L3. split; [rewrite E3, E2; by destruct s1 |]. split; [congruence |].
      eapply linked_ext; [| exact L3]. intros x. rewrite relink_relink.
      destruct b, (interruptMode ev); done.
    + apply wp_ret. split; [by destruct s1 |]. split; [done |]. rewrite <- HL. apply linked_relink_same, E1.
  - intros [] s2 (E2 & D2 & L2). apply wlp_bind, wp_wlp, (wp_modEventable _ _ ev1); [by rewrite E2 |].
    match goal with |- wlp ?m _ _ => apply (keeps_events_ok m) end.
    { intros v. unfold eventsPermitted. keeps_auto; eauto using keeps_eventable_v, keeps_thread_v, keeps_seeEventEnable_v, keeps_event_v. }
    eapply (events_ok_after s1 _ e (set_interruptMode b ev1)); [done | by rewrite E2 | by rewrite <- D2 | | cbn; eauto].
    apply (linked_threads s2); [by destruct s2 |]. unfold link. cbn. rewrite Hu. cbn. by destruct (eventsEnabled ev).
Qed.

(** One operation on the events of the system: of an instruction that has checked its resource,
    of the allocation of resources, or of a resource that has become ready. *)
Inductive event_step : Sys P -> Sys P -> Prop :=
  | step_setVector s s' e t x : usable s e -> is_Some (threads s !! t) -> setVector e t x s = Some (s', tt) -> event_step s s'
  | step_setEV s s' e t x : usable s e -> is_Some (threads s !! t) -> setEV e t x s = Some (s', tt) -> event_step s s'
  | step_setInterruptMode s s' e t b : usable s e -> is_Some (threads s !! t) ->
      setInterruptMode e t b s = Some (s', tt) -> event_step s s'
  | step_eventEnable s s' e t : usable s e -> is_Some (threads s !! t) -> eventEnable e t s = Some (s', tt) -> event_step s s'
  | step_eventDisable s s' e t : usable s e -> is_Some (threads s !! t) -> eventDisable e t s = Some (s', tt) -> event_step s s'
  | step_clre s s' t : is_Some (threads s !! t) -> clre t s = Some (s', tt) -> event_step s s'
  | step_setSR s s' t x b : setSR t x s = Some (s', b) -> event_step s s'
  | step_event s s' e time : event e time s = Some (s', tt) -> event_step s s'
  | step_on s s' e t : is_Some (eventables s !! e) -> is_Some (threads s !! t) ->
      eventableSetInUseOn e t s = Some (s', tt) -> event_step s s'
  | step_off s s' e : is_Some (eventables s !! e) -> eventableSetInUseOff e s = Some (s', tt) -> event_step s s'.

(** Nothing is in use and the lists are empty, as after construction. *)
Definition events_init s : Prop :=
  (forall e ev, eventables s !! e = Some ev -> inUse (ev_res ev) = false) /\
  (forall t th, threads s !! t = Some th -> thView th = ([], [])).

Lemma events_init_ok s : events_init s -> events_ok s.
Proof.
  intros [He Ht]. split.
  - intros t th i Hth. pose proof (Ht t th Hth) as [= E1 E2].
    assert (enabledOf i th = []) as -> by (by destruct i). split; [constructor |].
    intros e. unfold links. split; [by intros ?%elem_of_nil |].
    destruct (eventables s !! e) as [ev|] eqn:E; [| done]. cbn. unfold link. by rewrite (He e ev E).
  - intros e ev E. by rewrite (He e ev E).
Qed.

Lemma step_events_ok s s' : event_step s s' -> events_ok s -> events_ok s'.
Proof.
  intros Hs E. destruct Hs as [s s' e t x (ev & He & Hu) Ht Hm | s s' e t x (ev & He & Hu) Ht Hm
    | s s' e t b He Ht Hm | s s' e t He Ht Hm | s s' e t (ev & He & Hu) Ht Hm | s s' t Ht Hm | s s' t x b Hm
    | s s' e time Hm | s s' e t [ev He] Ht Hm | s s' e [ev He] Hm].
  all: refine (wlp_elim _ (fun _ => events_ok) _ _ _ _ Hm).
  - by apply wp_wlp, (wp_setVector s e ev).
  - by apply wp_wlp, (wp_setEV s e ev).
  - by apply setInterruptMode_ok.
  - by apply eventEnable_ok.
  - by apply wp_wlp, (wp_eventDisable s e ev).
  - by apply wp_wlp, wp_clre.
  - apply keeps_events_ok; [| done]. intros v. apply keeps_setSR_v.
  - apply keeps_events_ok; [| done]. intros v. apply keeps_event_v.
  - by apply wp_wlp, (wp_eventableSetInUseOn s e ev).
  - by apply wp_wlp, (wp_eventableSetInUseOff s e ev).
Qed.

(** C32: whatever sequence of operations enables, disables, frees and raises events, the two lists
    of a thread hold, without duplicates, exactly the resources in use that it owns and whose events
    are enabled, in the list of their mode; so disabling the events of a resource, changing its
    vector or freeing it never unlinks it from a list it is not in.  The ports are any for which completing an event
    changes the port only and asking whether one is ready enables and disables nothing ([PortEventsOk], [PortEnableOk],
    which [PortLocal] proves of the ports of this development). *)
Theorem event_lists_consistent s0 s : events_init s0 -> rtc event_step s0 s ->
  (forall t th i e, threads s !! t = Some th ->
     NoDup (enabledOf i th) /\
     (e ∈ enabledOf i th <-> exists ev, eventables s !! e = Some ev /\ inUse (ev_res ev) = true /\
        eventsEnabled ev = true /\ interruptMode ev = i /\ owner ev = Some t)) /\
  (forall e t, usable s e -> is_Some (threads s !! t) ->
     is_Some (eventDisable e t s) /\ (forall x, is_Some (setVector e t x s)) /\ is_Some (eventableSetInUseOff e s) /\
     is_Some (eventableSetInUseOn e t s) /\ is_Some (clre t s)).
Proof.
  intros Hi Hr. assert (events_ok s) as E.
  { apply events_init_ok in Hi. induction Hr; eauto using step_events_ok. }
  split.
  - intros t th i e Ht. destruct (eo_linked s E t th i Ht) as [HN HL]. split; [done |]. rewrite HL. unfold links.
    destruct (eventables s !! e) as [ev|]; [| split; [done | by intros (? & ? & _)]]. cbn. unfold link.
    destruct (inUse (ev_res ev)) eqn:Hu, (eventsEnabled ev) eqn:Hv, (owner ev) eqn:Ho; cbn.
    all: split; [intros [= <- <-]; by eexists | intros (ev' & [= <-] & ? & ? & <- & ?); congruence].
  - intros e t (ev & He & Hu) Ht.
    assert (forall A (m : M (Sys P) A), wp m (fun _ _ => True) s -> is_Some (m s)) as Hd.
    { intros A m (s' & a & -> & _)%wp_elim. by eexists. }
    repeat split; intros; apply Hd.
    + by apply (wp_eventDisable s e ev).
    + by apply (wp_setVector s e ev).
    + by apply (wp_eventableSetInUseOff s e ev).
    + by apply (wp_eventableSetInUseOn s e ev).
    + by apply wp_clre.
Qed.
End invariant.

(** A timer that is allocated and has its events enabled. *)
#[export] Instance noPortsEnableOk : PortEnableOk unit.
Proof. done. Qed.

#[local] Definition t0 : Ref := (0, 0, 0)%nat.
#[local] Definition exampleEvents : Sys unit :=
  exampleSys [(t0, exampleThread 0 8 10)]
    [(TimerRef t0, mkEventable (mkResource false (timerID 0)) 0 0 false false None)] [(t0, mkTimer true 10 None)] [] [].
#[local] Definition run_or {A} (m : M (Sys unit) A) (s : Sys unit) : Sys unit := match m s with Some (s', _) => s' | None => s end.
#[local] Definition exampleOn : Sys unit := run_or (eventableSetInUseOn (TimerRef t0) t0) exampleEvents.
#[local] Definition exampleEnabled : Sys unit := run_or (eventEnable (TimerRef t0) t0) exampleOn.

Lemma event_lists_consistent_witness :
  rtc event_step exampleEvents exampleEnabled /\
  (forall th, threads exampleEnabled !! t0 = Some th -> TimerRef t0 ∈ enabledOf false th).
Proof.
  assert (rtc event_step exampleEvents exampleEnabled) as Hr.
  { eapply rtc_l; [| eapply rtc_l; [| apply rtc_refl]].
    - apply (step_on _ exampleOn (TimerRef t0) t0); [by eexists | by eexists | vm_compute; reflexivity].
    - apply (step_eventEnable _ _ (TimerRef t0) t0); [by eexists | by eexists | vm_compute; reflexivity]. }
  assert (events_init exampleEvents) as Hi.
  { split.
    - intros e ev E. change (<[TimerRef t0 := mkEventable (mkResource false (timerID 0)) 0 0 false false None]>
        (∅ : gmap EventableRef EventableResource) !! e = Some ev) in E.
      apply lookup_insert_Some in E as [[<- <-]|[_ E]]; [reflexivity | by rewrite lookup_empty in E].
    - intros t th E. change (<[t0 := exampleThread 0 8 10]> (∅ : gmap Ref Thread) !! t = Some th) in E.
      apply lookup_insert_Some in E as [[<- <-]|[_ E]]; [reflexivity | by rewrite lookup_empty in E]. }
  split; [exact Hr |]. intros th Hth.
  apply (proj1 (event_lists_consistent exampleEvents exampleEnabled Hi Hr) t0 th false (TimerRef t0) Hth).
  eexists. repeat split; vm_compute; reflexivity.
Defined.
