(* ===== verification/Exec.v ===== *)
(** * Execution of an instruction (utils/instgen/InstructionGen.cpp, lib/InstructionHelpers.cpp)

    The generator turns the declaration of an instruction into a function: the operands are read
    from the registers and from the decoded fields, the code of the instruction runs, the time
    advances, the registers are written and the program counter moves.  Here a declaration is a
    record [Inst] built with the combinators of the generator, and [instFunction] is the function
    made of it (the interpreter's, not the one given to the JIT compiler).

    The code of an instruction runs in a monad [X] over the system and the local variables of the
    function ([Frame]); it ends by falling through, by jumping to the label [regWriteBack], or by
    returning. *)

From Stdlib Require Import ZArith Lia.
From stdpp Require Import base list numbers option gmap.
From S2P Require Import Prelude Opcode InstrDecode DecodeCache Watchpoint Core MemoryAccess.
From S2P Require Import Refs Resource Node RunnableQueue StateMonad Thread SysState Events EventEnable.

#[local] Open Scope Z_scope.
#[local] Open Scope cbits_scope.

(** lib/Exceptions.h:11-22 ExceptionType *)
Inductive ExceptionType :=
  | ET_LINK_ERROR | ET_ILLEGAL_PC | ET_ILLEGAL_INSTRUCTION | ET_ILLEGAL_RESOURCE | ET_LOAD_STORE
  | ET_ILLEGAL_PS | ET_ARITHMETIC | ET_ECALL | ET_RESOURCE_DEP | ET_KCALL.

#[export] Instance ExceptionType_eq_dec : EqDecision ExceptionType.
Proof. solve_decision. Defined.

Definition et_value (e : ExceptionType) : Z :=
  match e with
  | ET_LINK_ERROR => 1 | ET_ILLEGAL_PC => 2 | ET_ILLEGAL_INSTRUCTION => 3 | ET_ILLEGAL_RESOURCE => 4
  | ET_LOAD_STORE => 5 | ET_ILLEGAL_PS => 6 | ET_ARITHMETIC => 7 | ET_ECALL => 8
  | ET_RESOURCE_DEP => 9 | ET_KCALL => 15
  end.

(** lib/SystemState.h:49-55 BreakpointException: what a function may throw *)
Inductive Thrown := WatchpointException (type : WatchpointType) (addr : Z) | BreakpointException.

(** How a function ends: it returns or it throws. *)
Inductive ExecResult := Returned (r : InstReturn) | Threw (e : Thrown).

(** The function of an instruction: the thread it is called for, the cycles and the event property
    of the instruction, and its local variables: the operands ([None] for one that is not
    initialised), [nextPc], [retval] and the watchpoint that was hit. *)
Record Frame := mkFrame {
  f_self : Ref;
  f_cycles : Z;
  f_canEvent : bool;
  f_ops : list (option Z);
  f_nextPc : Z;
  f_retval : InstReturn;
  f_watchpoint : option (WatchpointType * Z)
}.

Inductive Out (A : Type) := Next (a : A) | RegWriteBack | Return (r : InstReturn).
Arguments Next {A}. Arguments RegWriteBack {A}. Arguments Return {A}.

Definition X (P A : Type) : Type := Frame -> M (Sys P) (Frame * Out A).

#[export] Instance X_ret P : MRet (X P) := fun A a f => mret (f, Next a).
#[export] Instance X_bind P : MBind (X P) := fun A B k m f =>
  m f ≫= fun '(f', o) =>
    match o with Next a => k a f' | RegWriteBack => mret (f', RegWriteBack) | Return r => mret (f', Return r) end.

(** utils/instgen/InstructionGen.cpp:21-46 ImplicitOp *)
Inductive ImplicitOp := Fixed (r : Reg) | SR.

Section exec.
Context {P : Type} `{PortEvents P}.
Abbreviation MS := (M (Sys P)).

Definition sys {A} (m : MS A) : X P A := fun f => m ≫= fun a => mret (f, Next a).
Definition ret (r : InstReturn) : X P unit := fun f => mret (f, Return r).
Definition goto_regWriteBack : X P unit := fun f => mret (f, RegWriteBack).
Definition whenX (b : bool) (m : X P unit) : X P unit := if b then m else mret tt.

Definition setLocals (f : Frame) ops pc retval w : Frame := mkFrame (f_self f) (f_cycles f) (f_canEvent f) ops pc retval w.
Definition self : X P Ref := fun f => mret (f, Next (f_self f)).

(** [%i] in the code of an instruction, read and written *)
Definition op (i : nat) : X P Z := fun f => v ← lift (f_ops f !! i); v ← lift v; mret (f, Next v).
Definition setOp (i : nat) (v : Z) : X P unit := fun f =>
  _ ← require (bool_decide (i < length (f_ops f))%nat);
  mret (setLocals f (<[i := Some v]> (f_ops f)) (f_nextPc f) (f_retval f) (f_watchpoint f), Next tt).

(** utils/instgen/InstructionGen.cpp:849-853 emitNextPc *)
Definition nextPc : X P Z := fun f => mret (f, Next (f_nextPc f)).
(** utils/instgen/InstructionGen.cpp:1062-1067 emitWritePcUnchecked *)
Definition write_pc_unchecked (v : Z) : X P unit := fun f =>
  mret (setLocals f (f_ops f) v (f_retval f) (f_watchpoint f), Next tt).
Definition setRetval (r : InstReturn) : X P unit := fun f =>
  mret (setLocals f (f_ops f) (f_nextPc f) r (f_watchpoint f), Next tt).
Definition setWatchpointHit (w : WatchpointType) (addr : Z) : X P unit := fun f =>
  mret (setLocals f (f_ops f) (f_nextPc f) (f_retval f) (Some (w, addr)), Next tt).

(** ** Parts of the functions *)

(** lib/Thread.h:144-148 Thread::hasTimeSliceExpired *)
Definition hasTimeSliceExpired (t : Ref) : MS bool :=
  s ← get; th ← thread t;
  if RunnableQueue.empty (scheduler s) then mret false
  else
    h ← lift (RunnableQueue.front (scheduler s));
    r ← lift (heap (scheduler s) !! h);
    mret (wakeUpTime r <? Thread.time th).

(** utils/instgen/InstructionGen.cpp:719-725 emitCycles *)
Definition emitCycles (cycles : Z) (th : Thread) : Thread :=
  if negb (dualIssue th) || (Thread.pc th mod 2 =? 0)
  then Thread.set_time (u64 (Thread.time th + u32 (instructionCycles th * cycles))) th
  else th.

(** utils/instgen/InstructionGen.cpp:791-806 emitRegWritePending *)
Definition emitRegWritePending (size : Z) (th : Thread) : Thread :=
  if size =? 2 then (if Thread.pc th mod 2 =? 0 then doPendingRegWrites th else th)
  else doPendingRegWrites th.

(** utils/instgen/InstructionGen.cpp:855-863 emitYieldIfTimeSliceExpired *)
Definition emitYieldIfTimeSliceExpired : X P unit :=
  t ← self;
  e ← sys (hasTimeSliceExpired t);
  whenX e (_ ← sys (schedule t); ret END_THREAD_EXECUTION).

(** utils/instgen/InstructionGen.cpp:808-820 emitCheckEvents *)
Definition emitCheckEvents : X P unit := fun f =>
  (if negb (f_canEvent f) then mret tt
   else
     t ← self;
     p ← sys hasPendingEvent;
     whenX p (_ ← sys (takeEventCurrent t); _ ← sys (schedule t); ret END_THREAD_EXECUTION)) f.

Definition addCycles : X P unit := fun f => sys (modThread (f_self f) (emitCycles (f_cycles f))) f.

(** lib/InstructionHelpers.cpp:20-49 exception *)
Definition exception (t : Ref) (pc : Z) (et : ExceptionType) (ed : Z) : MS Z :=
  sed ← getReg t ED;
  spc ← thread_fromPc t pc;
  _ ← setReg t SSR sed;
  _ ← setReg t SPC spc;
  _ ← setReg t SED sed;
  _ ← setSRBit t INK true;
  _ ← setSRBit t EEBLE false;
  _ ← setSRBit t IEBLE false;
  _ ← setReg t ET (et_value et);
  _ ← setReg t ED ed;
  kep ← getReg t KEP;
  let newPc := if bool_decide (et = ET_KCALL) then u32 (kep + 64) else kep in
  c ← core t.1;
  if negb (newPc .& 1 =? 0) || negb (isValidRamAddress c newPc) then undef
  else thread_toPc t newPc.

(** utils/instgen/InstructionGen.cpp:865-875 emitException *)
Definition raise (et : ExceptionType) (ed : Z) : X P unit :=
  t ← self;
  th ← sys (thread t);
  newPc ← sys (exception t (Thread.pc th) et ed);
  _ ← sys (modThread t (set_pc newPc));
  _ ← addCycles;
  _ ← emitYieldIfTimeSliceExpired;
  ret END_TRACE.

(** utils/instgen/InstructionGen.cpp:877-887 emitKCall *)
Definition kcall (ed : Z) : X P unit := raise ET_KCALL ed.

(** utils/instgen/InstructionGen.cpp:889-900 emitPauseOn *)
Definition pause_on (r : PausedOn) : X P unit :=
  t ← self;
  _ ← addCycles;
  _ ← emitCheckEvents;
  _ ← sys (modThread t (fun th => set_waiting true (set_pausedOn (Some r) th)));
  ret END_THREAD_EXECUTION.

(** utils/instgen/InstructionGen.cpp:902-909 emitYield *)
Definition yield : X P unit :=
  t ← self;
  e ← sys (hasTimeSliceExpired t);
  _ ← whenX e (_ ← sys (schedule t); setRetval END_THREAD_EXECUTION);
  goto_regWriteBack.

(** utils/instgen/InstructionGen.cpp:911-916 emitForceYield *)
Definition forceYield : X P unit :=
  t ← self;
  _ ← sys (schedule t);
  _ ← setRetval END_THREAD_EXECUTION;
  goto_regWriteBack.

(** utils/instgen/InstructionGen.cpp:918-926 emitDeschedule *)
Definition deschedule : X P unit :=
  t ← self;
  _ ← addCycles;
  _ ← emitCheckEvents;
  _ ← sys (modThread t (set_waiting true));
  ret END_THREAD_EXECUTION.

(** utils/instgen/InstructionGen.cpp:944-986 emitStore *)
Definition store (type : LoadStoreType) (value addr : Z) : X P unit :=
  t ← self;
  c ← sys (core t.1);
  r ← sys (lift (exec_store type value addr c));
  match r with
  | StoreException => raise ET_LOAD_STORE addr
  | Stored c' endTrace hit =>
      _ ← sys (putCore t.1 c');
      _ ← whenX endTrace (setRetval END_TRACE);
      whenX hit (setWatchpointHit WRITE addr)
  end.

(** utils/instgen/InstructionGen.cpp:988-1034 emitLoad: the value is assigned to the destination before the watchpoint is tested, which does not depend on it *)
Definition load (type : LoadStoreType) (addr : Z) : X P Z :=
  t ← self;
  c ← sys (core t.1);
  r ← sys (lift (exec_load type addr c));
  match r with
  | LoadException => _ ← raise ET_LOAD_STORE addr; mret 0
  | Loaded v hit => _ ← whenX hit (setWatchpointHit READ addr); mret v
  end.

(** lib/Thread.cpp:184-187 Thread::isInRam *)
Definition isInRam (t : Ref) : MS bool :=
  k ← decodeCache t; c ← core t.1; mret (ref_base k =? base (ramDecodeCache c)).

(** lib/Thread.cpp:473-473 CHECK_PC *)
Definition CHECK_PC (t : Ref) (pc : Z) : MS bool :=
  c ← core t.1; mret (pc .>> (ramSizeLog2 c - 1) =? 0).

Definition cacheRef (ram : bool) (k : State) : CacheRef := mkCacheRef ram (base k) (sizeShorts k) (tracingEnabled k).

(** lib/Thread.cpp:189-200 Thread::tryUpdateDecodeCache *)
Definition tryUpdateDecodeCache (t : Ref) (address : Z) : MS bool :=
  _ ← require (address .& 1 =? 0);
  k ← decodeCache t;
  if (u32 (address - ref_base k) .>> 1) <? ref_size k then mret true
  else
    c ← core t.1; s ← get;
    if isValidRamAddress c address then
      l ← lift (array_set (threadCaches c) (Z.of_nat t.2) (cacheRef true (ramDecodeCache c)));
      _ ← putCore t.1 (set_threadCaches l c); mret true
    else if isValidRomAddress c address then
      l ← lift (array_set (threadCaches c) (Z.of_nat t.2) (cacheRef false (romDecodeCache s)));
      _ ← putCore t.1 (set_threadCaches l c); mret true
    else mret false.

(** utils/instgen/InstructionGen.cpp:1036-1060 emitWritePc *)
Definition write_pc (address : Z) : X P unit :=
  t ← self;
  _ ← whenX (negb (address .& 1 =? 0)) (raise ET_ILLEGAL_PC address);
  pc ← sys (thread_toPc t address);
  ok ← sys (CHECK_PC t pc);
  if ok : bool then write_pc_unchecked pc
  else
    ok ← sys (tryUpdateDecodeCache t address);
    if ok : bool then
      pc ← sys (thread_toPc t address);
      _ ← write_pc_unchecked pc;
      forceYield
    else raise ET_ILLEGAL_PC address.
End exec.

(** ** From the declaration to the function *)

(** What is outside the model: the compiler that turns a block of instructions into machine code
    ([JIT::compileBlock], on LLVM), and the functions it makes. *)
Class Jit (P : Type) := {
  compileBlock : CoreRef -> Z -> M (Sys P) unit;
  runCompiled : Z -> Ref -> M (Sys P) ExecResult
}.

(** utils/instgen/InstructionGen.cpp:143-167 Instruction: what the interpreter's function depends on besides the name; the size and the explicit operands are those of the format of the opcode *)
Record Inst (P : Type) := mkInst {
  implicitOps : list (ImplicitOp * OpType);
  i_cycles : Z;
  yieldBefore : bool;
  canEvent : bool;
  writesPc : bool;
  code : X P unit
}.
Arguments mkInst {P}. Arguments implicitOps {P}. Arguments i_cycles {P}. Arguments yieldBefore {P}.
Arguments canEvent {P}. Arguments writesPc {P}. Arguments code {P}.

Section declare.
Context {P : Type}.
(** utils/instgen/InstructionGen.cpp:1517-1517 INSTRUCTION_CYCLES *)
Definition INSTRUCTION_CYCLES : Z := 1.
(** utils/instgen/InstructionGen.cpp:1521-1521 DIV_CYCLES *)
Definition DIV_CYCLES : Z := 32.
Definition inst (c : X P unit) : Inst P := mkInst [] INSTRUCTION_CYCLES false false false c.
(** utils/instgen/InstructionGen.cpp:229-234 addImplicitOp *)
Definition addImplicitOp (r : ImplicitOp) (k : OpType) (i : Inst P) : Inst P :=
  mkInst (implicitOps i ++ [(r, k)]) (i_cycles i) (yieldBefore i) (canEvent i) (writesPc i) (code i).
(** utils/instgen/InstructionGen.cpp:240-243 setCycles *)
Definition setCycles (v : Z) (i : Inst P) : Inst P :=
  mkInst (implicitOps i) v (yieldBefore i) (canEvent i) (writesPc i) (code i).
(** utils/instgen/InstructionGen.cpp:244-247 setYieldBefore *)
Definition setYieldBefore (i : Inst P) : Inst P :=
  mkInst (implicitOps i) (i_cycles i) true (canEvent i) (writesPc i) (code i).
(** utils/instgen/InstructionGen.cpp:248-251 setCanEvent *)
Definition setCanEvent (i : Inst P) : Inst P :=
  mkInst (implicitOps i) (i_cycles i) (yieldBefore i) true (writesPc i) (code i).
(** Set for every instruction whose code contains one of the forms of [write_pc]. *)
Definition setWritesPc (i : Inst P) : Inst P :=
  mkInst (implicitOps i) (i_cycles i) (yieldBefore i) (canEvent i) true (code i).
End declare.

Section function.
Context {P : Type} `{PortEvents P} `{Jit P}.
Abbreviation MS := (M (Sys P)).

(** The decode cache that the pointers of a thread lead to. *)
Definition cacheState (t : Ref) : MS State :=
  k ← decodeCache t;
  if ref_ram k then c ← core t.1; mret (ramDecodeCache c) else gets romDecodeCache.

(** lib/Thread.cpp:476-476 OP *)
Definition OP_ (t : Ref) (i : nat) : MS Z :=
  th ← thread t; k ← cacheState t;
  l ← lift (array_get (operands k) (Thread.pc th));
  lift (l !! i).

(** utils/instgen/InstructionGen.cpp:472-484 getOperandName: the field of an operand, or [None] for the status register *)
Definition operandField (t : Ref) (implicit : list (ImplicitOp * OpType)) (explicit : nat) (i : nat) : MS (option Z) :=
  if bool_decide (i < explicit)%nat then v ← OP_ t i; mret (Some v)
  else
    r ← lift (implicit !! (i - explicit)%nat);
    mret (match r.1 with Fixed r => Some (reg_index r) | SR => None end).

(** utils/instgen/InstructionGen.cpp:1260-1287 emitInstFunction: the declaration of one operand *)
Definition readOperand (t : Ref) (implicit : list (ImplicitOp * OpType)) (explicit : nat) (i : nat) (k : OpType)
    : MS (option Z) :=
  match k with
  | out => mret None
  | imm => operandField t implicit explicit i
  | in_ | inout =>
      n ← operandField t implicit explicit i;
      th ← thread t;
      match n with
      | None => mret (Some (sr th))
      | Some n => v ← lift (array_get (Thread.regs th) n); mret (Some v)
      end
  end.

Fixpoint readOperands (t : Ref) (implicit : list (ImplicitOp * OpType)) (explicit : nat) (i : nat) (l : list OpType)
    : MS (list (option Z)) :=
  match l with
  | [] => mret []
  | k :: l => v ← readOperand t implicit explicit i k; r ← readOperands t implicit explicit (S i) l; mret (v :: r)
  end.

(** utils/instgen/InstructionGen.cpp:731-766 emitRegWriteBack: one operand; returns the new value of the status register, if it is one *)
Definition writeOperand (t : Ref) (implicit : list (ImplicitOp * OpType)) (explicit : nat) (size : Z)
    (i : nat) (k : OpType) (v : option Z) : MS (option Z) :=
  match k with
  | in_ | imm => mret None
  | out | inout =>
      n ← operandField t implicit explicit i;
      v ← lift v;
      match n with
      | None => mret (Some v)
      | Some n =>
          if size =? 2 then _ ← writeReg t n v; mret None
          else
            th ← thread t; l ← lift (array_set (Thread.regs th) n v);
            _ ← putThread t (Thread.set_regs l th); mret None
      end
  end.

Fixpoint writeOperands (t : Ref) (implicit : list (ImplicitOp * OpType)) (explicit : nat) (size : Z)
    (i : nat) (l : list OpType) (vs : list (option Z)) (sr : option Z) : MS (option Z) :=
  match l, vs with
  | k :: l, v :: vs =>
      r ← writeOperand t implicit explicit size i k v;
      writeOperands t implicit explicit size (S i) l vs (match r with Some x => Some x | None => sr end)
  | _, _ => mret sr
  end.

(** lib/Core.cpp:488-495 Core::runJIT *)
Definition runJIT (c : CoreRef) (jitPc : Z) : MS unit :=
  k ← core c;
  if negb (isValidRamPc k jitPc) then mret tt
  else
    k' ← lift (setExecutionFrequency jitPc (- 2 ^ 31) k);
    _ ← putCore c k';
    compileBlock c jitPc.

(** lib/Thread.h:290-303 Thread::updateExecutionFrequency *)
Definition updateExecutionFrequency (t : Ref) (pc : Z) : MS unit :=
  th ← thread t; r ← decodeCache t; c ← core t.1; s ← get;
  let k := if ref_ram r then ramDecodeCache c else romDecodeCache s in
  n ← lift (array_get (executionFrequency k) pc);
  _ ← require (n <? 2 ^ 31 - 1);
  l ← lift (array_set (executionFrequency k) pc (n + 1));
  let k' := mkState (opcode k) (operands k) l (invalidationInfo k) (sizeShorts k) (base k) (tracingEnabled k) in
  _ ← (if ref_ram r then putCore t.1 (set_ramDecodeCache k' c) else modify (set_romDecodeCache k'));
  when ((128 <? n + 1) && negb (dualIssue th))
    (ram ← isInRam t; when ram (runJIT t.1 pc)).

(** utils/instgen/InstructionGen.cpp:727-778 emitRegWriteBack *)
Definition regWriteBack (size : Z) (kinds : list OpType) (explicit : nat) (implicit : list (ImplicitOp * OpType)) : X P unit := fun f =>
  (t ← self;
   sr ← sys (writeOperands t implicit explicit size 0 kinds (f_ops f) None);
   _ ← sys (modThread t (set_pc (f_nextPc f)));
   match sr with
   | None => mret tt
   | Some v =>
       event ← sys (setSR t v);
       whenX event (_ ← sys (takeEventCurrent t); _ ← sys (schedule t); ret END_THREAD_EXECUTION)
   end) f.

(** utils/instgen/InstructionGen.cpp:1289-1300 emitInstFunction: what follows the label [regWriteBack] *)
Definition epilogue (tracing : bool) (size : Z) (kinds : list OpType) (explicit : nat) (d : Inst P) : X P unit :=
  _ ← addCycles;
  _ ← regWriteBack size kinds explicit (implicitOps d);
  t ← self;
  _ ← sys (th ← thread t; when (negb tracing && writesPc d) (updateExecutionFrequency t (Thread.pc th)));
  mret tt.

(** utils/instgen/InstructionGen.cpp:822-828 emitNormalReturn *)
Definition normalReturn : X P unit := fun f => (_ ← emitCheckEvents; ret (f_retval f)) f.

(** utils/instgen/InstructionGen.cpp:1221-1303 emitInstFunction *)
Definition instFunction (tracing : bool) (t : Ref) (o : InstructionOpcode) (d : Inst P) : MS ExecResult :=
  let size := instruction_size o in
  let explicit := length (explicit_ops o) in
  let kinds := explicit_ops o ++ (implicitOps d).*2 in
  th ← thread t;
  let f := mkFrame t (i_cycles d) (canEvent d) [] (u32 (Thread.pc th + size / 2)) INST_CONTINUE None in
  _ ← putThread t (emitRegWritePending size th);
  '(f, o) ← (if yieldBefore d then emitYieldIfTimeSliceExpired else mret tt) f;
  match o with
  | Return r => mret (Returned r)
  | _ =>
      ops ← readOperands t (implicitOps d) explicit 0 kinds;
      '(f, o) ← code d (setLocals f ops (f_nextPc f) (f_retval f) (f_watchpoint f));
      match o with
      | Return r => mret (Returned r)
      | _ =>
          '(f, o) ← epilogue tracing size kinds explicit d f;
          match o with
          | Return r => mret (Returned r)
          | _ =>
              match f_watchpoint f with
              | Some (w, a) => mret (Threw (WatchpointException w a))
              | None =>
                  '(f, o) ← normalReturn f;
                  match o with Return r => mret (Returned r) | _ => undef end
              end
          end
      end
  end.
End function.
