(* ===== verification/InstrData.v ===== *)
(** * Data instructions (utils/instgen/InstructionGen.cpp)

    The declarations of the instructions that compute on their operands only.  [f3r_ADD] stands for
    [f3r("ADD", ...)] in the source; [op i] and [setOp i] for [%i]. *)

From Stdlib Require Import ZArith Lia.
From stdpp Require Import base list numbers option gmap.
From S2P Require Import Prelude BitManip Opcode Core.
From S2P Require Import Refs Resource StateMonad Thread SysState Events Exec.

#[local] Open Scope Z_scope.
#[local] Open Scope cbits_scope.

Definition b2u (b : bool) : Z := if b then 1 else 0.

(** [1 << n] in [int]; undefined if the result is not representable. *)
Definition int_shl1 (n : Z) : option Z := if (0 <=? n) && (n <? 31) then Some (2 ^ n) else None.

(** A shift count of a 32-bit operand; undefined if it is not less than the width. *)
Definition shift_count (n : Z) : option Z := if n <? 32 then Some n else None.

(** utils/instgen/InstructionGen.cpp:2016-2027 UNZIP: the loop, [i] from 0 in steps of [spacing]; undefined when a word would be shifted by its width *)
Fixpoint unzip_loop (fuel : nat) (spacing mask i op0shift op1shift op0 op1 : Z) : option (Z * Z) :=
  match fuel with
  | O => Some (op0, op1)
  | S fuel =>
      if i <? 32 then
        n ← shift_count (spacing * 2);
        let value := if i <? 32 / 2 then op1shift else op0shift in
        let op1shift := if i <? 32 / 2 then op1shift .>> n else op1shift in
        let op0shift := if i <? 32 / 2 then op0shift else op0shift .>> n in
        unzip_loop fuel spacing mask (i + spacing) op0shift op1shift
          (op0 .| (((value .>> spacing) .& mask) .<< i)) (op1 .| ((value .& mask) .<< i))
      else Some (op0, op1)
  end.

(** utils/instgen/InstructionGen.cpp:2042-2053 ZIP: the loop, [i] from 0 in steps of twice [spacing] *)
Fixpoint zip_loop (fuel : nat) (spacing mask i op0shift op1shift op0 op1 : Z) : Z * Z :=
  match fuel with
  | O => (op0, op1)
  | S fuel =>
      if i <? 2 * 32 then
        let zipped := ((op0shift .& mask) .<< spacing) .| (op1shift .& mask) in
        let '(op0, op1) := if i <? 32 then (op0, op1 .| (zipped .<< i)) else (op0 .| (zipped .<< (i - 32)), op1) in
        zip_loop fuel spacing mask (i + spacing * 2) (op0shift .>> spacing) (op1shift .>> spacing) op0 op1
      else (op0, op1)
  end.

(** utils/instgen/InstructionGen.cpp:2165-2165 LEXTRACT: bitp_map *)
Definition bitp_map : list Z := [32; 1; 2; 3; 4; 5; 6; 7; 8; 16; 24; 32].

Section data.
Context {P : Type} `{PortEvents P}.
Abbreviation I := (Inst P).

(** Instructions that compute one result of two operands. *)
Definition binary (f : Z -> Z -> Z) : X P unit := a ← op 1; b ← op 2; setOp 0 (f a b).
Definition unary (f : Z -> Z) : X P unit := a ← op 1; setOp 0 (f a).

(** utils/instgen/InstructionGen.cpp:1858-1858 ADD_3r *)
Definition f3r_ADD : I := inst (binary (fun a b => u32 (a + b))).
(** utils/instgen/InstructionGen.cpp:1859-1859 ADD_2rus *)
Definition f2rus_ADD : I := inst (binary (fun a b => u32 (a + b))).
(** utils/instgen/InstructionGen.cpp:1860-1860 ADD_mov_2rus *)
Definition f2rus_ADD_mov : I := inst (unary (fun a => a)).
(** utils/instgen/InstructionGen.cpp:1861-1861 SUB_3r *)
Definition f3r_SUB : I := inst (binary (fun a b => u32 (a - b))).
(** utils/instgen/InstructionGen.cpp:1862-1862 SUB_2rus *)
Definition f2rus_SUB : I := inst (binary (fun a b => u32 (a - b))).
(** utils/instgen/InstructionGen.cpp:1863-1863 EQ_3r *)
Definition f3r_EQ : I := inst (binary (fun a b => b2u (a =? b))).
(** utils/instgen/InstructionGen.cpp:1864-1864 EQ_2rus *)
Definition f2rus_EQ : I := inst (binary (fun a b => b2u (a =? b))).
(** utils/instgen/InstructionGen.cpp:1865-1865 LSS_3r *)
Definition f3r_LSS : I := inst (binary (fun a b => b2u (s32 a <? s32 b))).
(** utils/instgen/InstructionGen.cpp:1866-1866 LSU_3r *)
Definition f3r_LSU : I := inst (binary (fun a b => b2u (a <? b))).
(** utils/instgen/InstructionGen.cpp:1867-1867 AND_3r *)
Definition f3r_AND : I := inst (binary Z.land).
(** utils/instgen/InstructionGen.cpp:1868-1868 OR_3r *)
Definition f3r_OR : I := inst (binary Z.lor).
(** utils/instgen/InstructionGen.cpp:1869-1874 SHL_3r *)
Definition f3r_SHL : I := inst (binary (fun a b => if 32 <=? b then 0 else a .<< b)).
(** utils/instgen/InstructionGen.cpp:1875-1877 SHL_2rus *)
Definition f2rus_SHL : I := inst (
  b ← op 2; _ ← sys (require (negb (b =? 32)));
  n ← sys (lift (shift_count b)); a ← op 1; setOp 0 (a .<< n)).
(** utils/instgen/InstructionGen.cpp:1878-1878 SHL_32_2rus *)
Definition f2rus_SHL_32 : I := inst (setOp 0 0).
(** utils/instgen/InstructionGen.cpp:1879-1884 SHR_3r *)
Definition f3r_SHR : I := inst (binary (fun a b => if 32 <=? b then 0 else a .>> b)).
(** utils/instgen/InstructionGen.cpp:1885-1887 SHR_2rus *)
Definition f2rus_SHR : I := inst (
  b ← op 2; _ ← sys (require (negb (b =? 32)));
  n ← sys (lift (shift_count b)); a ← op 1; setOp 0 (a .>> n)).
(** utils/instgen/InstructionGen.cpp:1888-1888 SHR_32_2rus *)
Definition f2rus_SHR_32 : I := inst (setOp 0 0).

(** utils/instgen/InstructionGen.cpp:1933-1948 LSATS_l3r *)
Definition fl3r_LSATS : I := inst (
  n ← op 2;
  if (0 <? n) && (n <? 32) then
    h ← op 0;
    let sign_word := s32 h .>> (n - 1) in
    if h .>> 31 .& 1 =? 1 then
      whenX (negb (sign_word =? -1))
        (_ ← setOp 0 (Z.lnot 0 .<< (n - 1)); setOp 1 0)
    else
      whenX (negb (sign_word =? 0))
        (_ ← setOp 0 (u32 (Z.lnot (Z.shiftl (-1) (n - 1)))); setOp 1 (u32 (Z.lnot 0)))
  else mret tt).

(** utils/instgen/InstructionGen.cpp:1950-1950 LDAWF_l3r *)
Definition fl3r_LDAWF : I := inst (binary (fun a b => u32 (a + (b .<< 2)))).
(** utils/instgen/InstructionGen.cpp:1951-1952 LDAWF_l2rus *)
Definition fl2rus_LDAWF : I := inst (binary (fun a b => u32 (a + b))).
(** utils/instgen/InstructionGen.cpp:1953-1953 LDAWB_l3r *)
Definition fl3r_LDAWB : I := inst (binary (fun a b => u32 (a - (b .<< 2)))).
(** utils/instgen/InstructionGen.cpp:1954-1955 LDAWB_l2rus *)
Definition fl2rus_LDAWB : I := inst (binary (fun a b => u32 (a - b))).
(** utils/instgen/InstructionGen.cpp:1956-1956 LDA16F_l3r *)
Definition fl3r_LDA16F : I := inst (binary (fun a b => u32 (a + (b .<< 1)))).
(** utils/instgen/InstructionGen.cpp:1957-1957 LDA16B_l3r *)
Definition fl3r_LDA16B : I := inst (binary (fun a b => u32 (a - (b .<< 1)))).
(** utils/instgen/InstructionGen.cpp:1970-1970 MUL_l3r *)
Definition fl3r_MUL : I := inst (binary (fun a b => u32 (a * b))).

(** utils/instgen/InstructionGen.cpp:1971-1977 DIVS_l3r *)
Definition fl3r_DIVS : I := setCycles DIV_CYCLES (inst (
  a ← op 1; b ← op 2;
  _ ← whenX ((b =? 0) || (a =? 0x80000000) && (b =? 0xffffffff)) (raise ET_ARITHMETIC 0);
  setOp 0 (u32 (Z.quot (s32 a) (s32 b))))).
(** utils/instgen/InstructionGen.cpp:1978-1983 DIVU_l3r *)
Definition fl3r_DIVU : I := setCycles DIV_CYCLES (inst (
  a ← op 1; b ← op 2;
  _ ← whenX (b =? 0) (raise ET_ARITHMETIC 0);
  setOp 0 (a / b))).
(** utils/instgen/InstructionGen.cpp:1984-1990 REMS_l3r *)
Definition fl3r_REMS : I := setCycles DIV_CYCLES (inst (
  a ← op 1; b ← op 2;
  _ ← whenX ((b =? 0) || (a =? 0x80000000) && (b =? 0xffffffff)) (raise ET_ARITHMETIC 0);
  setOp 0 (u32 (Z.rem (s32 a) (s32 b))))).
(** utils/instgen/InstructionGen.cpp:1991-1996 REMU_l3r *)
Definition fl3r_REMU : I := setCycles DIV_CYCLES (inst (
  a ← op 1; b ← op 2;
  _ ← whenX (b =? 0) (raise ET_ARITHMETIC 0);
  setOp 0 (a mod b))).
(** utils/instgen/InstructionGen.cpp:1997-1997 XOR_l3r *)
Definition fl3r_XOR : I := inst (binary Z.lxor).
(** utils/instgen/InstructionGen.cpp:1998-2003 ASHR_l3r *)
Definition fl3r_ASHR : I := inst (binary (fun a b => u32 (s32 a .>> (if 32 <=? b then 31 else b)))).
(** utils/instgen/InstructionGen.cpp:2004-2006 ASHR_l2rus *)
Definition fl2rus_ASHR : I := inst (
  b ← op 2; _ ← sys (require (negb (b =? 32)));
  n ← sys (lift (shift_count b)); a ← op 1; setOp 0 (u32 (s32 a .>> n))).
(** utils/instgen/InstructionGen.cpp:2007-2007 ASHR_32_l2rus *)
Definition fl2rus_ASHR_32 : I := inst (unary (fun a => u32 (s32 a .>> 31))).

(** utils/instgen/InstructionGen.cpp:2008-2029 UNZIP_l2rus *)
Definition fl2rus_UNZIP : I := inst (
  n ← op 2;
  spacing ← sys (lift (int_shl1 n));
  op0 ← op 0; op1 ← op 1;
  m ← sys (lift (int_shl1 spacing));
  _ ← setOp 0 0; _ ← setOp 1 0;
  whenX (n <? 5)
    (x ← sys (lift (unzip_loop 32 spacing (m - 1) 0 op0 op1 0 0));
     _ ← setOp 0 x.1; setOp 1 x.2)).
(** utils/instgen/InstructionGen.cpp:2030-2056 ZIP_l2rus *)
Definition fl2rus_ZIP : I := inst (
  n ← op 2;
  spacing ← sys (lift (int_shl1 n));
  m ← sys (lift (int_shl1 spacing));
  op0 ← op 0; op1 ← op 1;
  whenX (n <? 5)
    (let '(x0, x1) := zip_loop 32 spacing (m - 1) 0 op0 op1 0 0 in
     _ ← setOp 0 x0; setOp 1 x1)).

(** utils/instgen/InstructionGen.cpp:2089-2089 CRC_l3r *)
Definition fl3r_CRC : I := inst (a ← op 0; b ← op 1; c ← op 2; setOp 0 (crc32 a b c)).
(** utils/instgen/InstructionGen.cpp:2134-2137 MACCU_l4r *)
Definition fl4r_MACCU : I := inst (
  h ← op 0; l ← op 3; a ← op 1; b ← op 2;
  let r := u64 ((Z.shiftl h 32 .| l) + a * b) in
  _ ← setOp 0 (u32 (r .>> 32)); setOp 3 (u32 r)).
(** utils/instgen/InstructionGen.cpp:2139-2143 MACCS_l4r *)
Definition fl4r_MACCS : I := inst (
  h ← op 0; l ← op 3; a ← op 1; b ← op 2;
  let r := u64 (Z.shiftl h 32 .| l) in
  let r := u64 (r + s32 a * s32 b) in
  _ ← setOp 0 (u32 (r .>> 32)); setOp 3 (u32 r)).
(** utils/instgen/InstructionGen.cpp:2146-2148 CRC8_l4r *)
Definition fl4r_CRC8 : I := inst (
  c ← op 3; d ← op 1; p ← op 2;
  _ ← setOp 3 (crc8 c (u8 d) p);
  d ← op 1; setOp 0 (d .>> 8)).
(** utils/instgen/InstructionGen.cpp:2149-2150 XOR4_l5r *)
Definition fl5r_XOR4 : I := inst (a ← op 1; b ← op 2; c ← op 3; d ← op 4; setOp 0 (a .^ b .^ c .^ d)).
(** utils/instgen/InstructionGen.cpp:2153-2156 LADD_l5r *)
Definition fl5r_LADD : I := inst (
  a ← op 1; b ← op 2; c ← op 4;
  let r := u64 (a + b + (c .& 1)) in
  _ ← setOp 3 (u32 (r .>> 32)); setOp 0 (u32 r)).
(** utils/instgen/InstructionGen.cpp:2159-2162 LSUB_l5r *)
Definition fl5r_LSUB : I := inst (
  a ← op 1; b ← op 2; c ← op 4;
  let r := u64 (a - b - (c .& 1)) in
  _ ← setOp 3 (u32 (r .>> 32) .& 1); setOp 0 (u32 r)).
(** utils/instgen/InstructionGen.cpp:2164-2179 LEXTRACT_l4rus *)
Definition fl4rus_LEXTRACT : I := inst (
  i ← op 4; bitp ← sys (lift (array_get bitp_map i));
  n ← op 2; lo ← op 1; hi ← op 3;
  _ ← setOp 0 (if 32 <=? n then hi else if n =? 0 then lo else (lo .>> n) .| (hi .<< (32 - n)));
  whenX (bitp <? 32) (m ← sys (lift (int_shl1 bitp)); v ← op 0; setOp 0 (v .& (m - 1)))).
(** utils/instgen/InstructionGen.cpp:2183-2191 LDIVU_l5r *)
Definition fl5r_LDIVU : I := setCycles DIV_CYCLES (inst (
  h ← op 4; d ← op 2; l ← op 1;
  _ ← whenX (d <=? h) (raise ET_ARITHMETIC 0);
  let dividend := u64 (l + Z.shiftl h 32) in
  _ ← setOp 0 (u32 (dividend / d)); setOp 3 (u32 (dividend mod d)))).
(** utils/instgen/InstructionGen.cpp:2192-2195 LMUL_l6r *)
Definition fl6r_LMUL : I := inst (
  a ← op 1; b ← op 2; c ← op 4; d ← op 5;
  let r := u64 (u64 (a * b) + c + d) in
  _ ← setOp 0 (u32 (r .>> 32)); setOp 3 (u32 r)).

(** utils/instgen/InstructionGen.cpp:2234-2234 LDC_ru6 *)
Definition fru6_LDC : I := inst (unary (fun a => a)).
(** utils/instgen/InstructionGen.cpp:2196-2199 LDAWDP_ru6 *)
Definition fru6_LDAWDP : I := addImplicitOp (Fixed DP) in_ (inst (a ← op 2; b ← op 1; setOp 0 (u32 (a + b)))).
(** utils/instgen/InstructionGen.cpp:2230-2233 LDAWSP_ru6 *)
Definition fru6_LDAWSP : I := addImplicitOp (Fixed SP) in_ (inst (a ← op 2; b ← op 1; setOp 0 (u32 (a + b)))).
(** utils/instgen/InstructionGen.cpp:2282-2284 EXTSP_u6 *)
Definition fu6_EXTSP : I := addImplicitOp (Fixed SP) inout (inst (a ← op 1; b ← op 0; setOp 1 (u32 (a - b)))).
(** utils/instgen/InstructionGen.cpp:2285-2287 EXTDP_u6 *)
Definition fu6_EXTDP : I := addImplicitOp (Fixed DP) inout (inst (a ← op 1; b ← op 0; setOp 1 (u32 (a - b)))).
(** utils/instgen/InstructionGen.cpp:2365-2368 LDAWCP_u6 *)
Definition fu6_LDAWCP : I :=
  addImplicitOp (Fixed CP) in_ (addImplicitOp (Fixed R11) out (inst (a ← op 2; b ← op 0; setOp 1 (u32 (a + b))))).
(** utils/instgen/InstructionGen.cpp:2369-2371 SETSR_u6 *)
Definition fu6_SETSR : I :=
  setYieldBefore (addImplicitOp SR inout (inst (s ← op 1; v ← op 0; setOp 1 (s .| wrap 11 v)))).
(** utils/instgen/InstructionGen.cpp:2372-2374 CLRSR_u6 *)
Definition fu6_CLRSR : I :=
  setYieldBefore (addImplicitOp SR inout (inst (s ← op 1; v ← op 0; setOp 1 (s .& wrap 11 (Z.lnot (wrap 11 v)))))).
(** utils/instgen/InstructionGen.cpp:2387-2389 GETSR_u6 *)
Definition fu6_GETSR : I :=
  addImplicitOp SR in_ (addImplicitOp (Fixed R11) out (inst (v ← op 0; s ← op 2; setOp 1 (v .& s)))).

(** utils/instgen/InstructionGen.cpp:2440-2440 NOT_2r *)
Definition f2r_NOT : I := inst (unary (fun a => u32 (Z.lnot a))).
(** utils/instgen/InstructionGen.cpp:2441-2441 NEG_2r *)
Definition f2r_NEG : I := inst (unary (fun a => u32 (- a))).
(** utils/instgen/InstructionGen.cpp:2442-2442 SEXT_rus *)
Definition frus_SEXT : I := inst (a ← op 0; b ← op 1; setOp 0 (signExtend a b)).
(** utils/instgen/InstructionGen.cpp:2443-2443 SEXT_2r *)
Definition f2r_SEXT : I := inst (a ← op 0; b ← op 1; setOp 0 (signExtend a b)).
(** utils/instgen/InstructionGen.cpp:2444-2444 ZEXT_rus *)
Definition frus_ZEXT : I := inst (a ← op 0; b ← op 1; setOp 0 (zeroExtend a b)).
(** utils/instgen/InstructionGen.cpp:2445-2445 ZEXT_2r *)
Definition f2r_ZEXT : I := inst (a ← op 0; b ← op 1; setOp 0 (zeroExtend a b)).
(** utils/instgen/InstructionGen.cpp:2446-2446 ANDNOT_2r *)
Definition f2r_ANDNOT : I := inst (a ← op 0; b ← op 1; setOp 0 (a .& u32 (Z.lnot b))).
(** utils/instgen/InstructionGen.cpp:2447-2447 MKMSK_2r *)
Definition f2r_MKMSK : I := inst (unary makeMask).
(** utils/instgen/InstructionGen.cpp:2448-2449 MKMSK_rus *)
Definition frus_MKMSK : I := inst (unary (fun a => a)).
(** utils/instgen/InstructionGen.cpp:2511-2511 BITREV_2r *)
Definition f2r_BITREV : I := inst (unary bitReverse).
(** utils/instgen/InstructionGen.cpp:2512-2512 BITREV_l2r *)
Definition fl2r_BITREV : I := inst (unary bitReverse).
(** utils/instgen/InstructionGen.cpp:2513-2513 BYTEREV_2r *)
Definition f2r_BYTEREV : I := inst (unary bswap32).
(** utils/instgen/InstructionGen.cpp:2514-2514 BYTEREV_l2r *)
Definition fl2r_BYTEREV : I := inst (unary bswap32).
(** utils/instgen/InstructionGen.cpp:2515-2515 CLZ_2r *)
Definition f2r_CLZ : I := inst (unary countLeadingZeros).
(** utils/instgen/InstructionGen.cpp:2516-2516 CLZ_l2r *)
Definition fl2r_CLZ : I := inst (unary countLeadingZeros).

(** utils/instgen/InstructionGen.cpp:2886-2887 SETSP_1r *)
Definition f1r_SETSP : I := addImplicitOp (Fixed SP) out (inst (a ← op 0; setOp 1 a)).
(** utils/instgen/InstructionGen.cpp:2889-2890 SETDP_1r *)
Definition f1r_SETDP : I := addImplicitOp (Fixed DP) out (inst (a ← op 0; setOp 1 a)).
(** utils/instgen/InstructionGen.cpp:2892-2893 SETCP_1r *)
Definition f1r_SETCP : I := addImplicitOp (Fixed CP) out (inst (a ← op 0; setOp 1 a)).
(** utils/instgen/InstructionGen.cpp:3023-3023 NOP_0r *)
Definition f0r_NOP : I := inst (mret tt).
(** utils/instgen/InstructionGen.cpp:3024-3025 GETID_0r *)
Definition f0r_GETID : I := addImplicitOp (Fixed R11) out (inst (
  t ← self; th ← sys (thread t); setOp 0 (rid_num (ID (res th))))).
Definition fixedToR11 (r : Reg) : I :=
  addImplicitOp (Fixed r) in_ (addImplicitOp (Fixed R11) out (inst (unary (fun a => a)))).
(** utils/instgen/InstructionGen.cpp:3026-3028 GETET_0r *)
Definition f0r_GETET : I := fixedToR11 ET.
(** utils/instgen/InstructionGen.cpp:3029-3031 GETED_0r *)
Definition f0r_GETED : I := fixedToR11 ED.
(** utils/instgen/InstructionGen.cpp:3032-3034 GETKEP_0r *)
Definition f0r_GETKEP : I := fixedToR11 KEP.
(** utils/instgen/InstructionGen.cpp:3035-3037 GETKSP_0r *)
Definition f0r_GETKSP : I := fixedToR11 KSP.
(** utils/instgen/InstructionGen.cpp:3039-3041 SETKEP_0r *)
Definition f0r_SETKEP : I :=
  addImplicitOp (Fixed R11) in_ (addImplicitOp (Fixed KEP) out
    (inst (unary (fun a => a .& u32 (Z.lnot (2 ^ 7 - 1)))))).
End data.
