(* ===== verification/InstrControl.v ===== *)
(** * Memory, branch and kernel instructions (utils/instgen/InstructionGen.cpp)

    The declarations of the instructions that load and store, move the stack pointer, branch, and
    enter and leave the kernel. *)

From Stdlib Require Import ZArith Lia.
From stdpp Require Import base list numbers option gmap.
From S2P Require Import Prelude BitManip Opcode Core MemoryAccess.
From S2P Require Import Refs Resource StateMonad Thread SysState Events Exec.

#[local] Open Scope Z_scope.
#[local] Open Scope cbits_scope.

Section control.
Context {P : Type} `{PortEvents P}.
Abbreviation I := (Inst P).

Definition FROM_PC (pc : Z) : X P Z := t ← self; sys (thread_fromPc t pc).
Definition isDualIssue : X P bool := t ← self; th ← sys (thread t); mret (dualIssue th).

(** ** Loads and stores *)

(** [%i = load(addr)] *)
Definition loadTo (i : nat) (type : LoadStoreType) (addr : Z) : X P unit := v ← load type addr; setOp i v.
(** [store(%i, addr)] *)
Definition storeFrom (i : nat) (type : LoadStoreType) (addr : Z) : X P unit := v ← op i; store type v addr.

(** utils/instgen/InstructionGen.cpp:1889-1892 LDW_3r *)
Definition f3r_LDW : I := inst (a ← op 1; b ← op 2; loadTo 0 WORD (u32 (a + (b .<< 2)))).
(** utils/instgen/InstructionGen.cpp:1893-1897 LDW_2rus *)
Definition f2rus_LDW : I := inst (a ← op 1; b ← op 2; loadTo 0 WORD (u32 (a + b))).
(** utils/instgen/InstructionGen.cpp:1898-1903 LD16S_3r *)
Definition f3r_LD16S : I := inst (
  a ← op 1; b ← op 2; v ← load SHORT (u32 (a + (b .<< 1))); setOp 0 (signExtend v 16)).
(** utils/instgen/InstructionGen.cpp:1904-1907 LD8U_3r *)
Definition f3r_LD8U : I := inst (a ← op 1; b ← op 2; loadTo 0 BYTE (u32 (a + b))).
(** utils/instgen/InstructionGen.cpp:1908-1912 STW_2rus *)
Definition f2rus_STW : I := inst (a ← op 1; b ← op 2; storeFrom 0 WORD (u32 (a + b))).
(** utils/instgen/InstructionGen.cpp:1958-1961 STW_l3r *)
Definition fl3r_STW : I := inst (a ← op 1; b ← op 2; storeFrom 0 WORD (u32 (a + (b .<< 2)))).
(** utils/instgen/InstructionGen.cpp:1962-1965 ST16_l3r *)
Definition fl3r_ST16 : I := inst (a ← op 1; b ← op 2; storeFrom 0 SHORT (u32 (a + (b .<< 1)))).
(** utils/instgen/InstructionGen.cpp:1966-1969 ST8_l3r *)
Definition fl3r_ST8 : I := inst (a ← op 1; b ← op 2; storeFrom 0 BYTE (u32 (a + b))).

(** Two words at consecutive addresses. *)
Definition loadPair (i j : nat) (addr : Z) : X P unit := _ ← loadTo i WORD addr; loadTo j WORD (u32 (addr + 4)).
Definition storePair (i j : nat) (addr : Z) : X P unit := _ ← storeFrom i WORD addr; storeFrom j WORD (u32 (addr + 4)).

(** utils/instgen/InstructionGen.cpp:2091-2095 LDD_l4r *)
Definition fl4r_LDD : I := inst (a ← op 1; b ← op 2; loadPair 0 3 (u32 (a + (b .<< 3)))).
(** utils/instgen/InstructionGen.cpp:2097-2101 LDD_l3rus *)
Definition fl3rus_LDD : I := inst (a ← op 1; b ← op 2; loadPair 0 3 (u32 (a + (b .<< 3)))).
(** utils/instgen/InstructionGen.cpp:2103-2108 LDDSP_l2rus *)
Definition fl2rus_LDDSP : I := addImplicitOp (Fixed SP) in_ (inst (
  a ← op 3; b ← op 2; loadPair 0 1 (u32 (a + (b .<< 3))))).
(** utils/instgen/InstructionGen.cpp:2115-2119 STD_l4r *)
Definition fl4r_STD : I := inst (a ← op 1; b ← op 2; storePair 0 3 (u32 (a + (b .<< 3)))).
(** utils/instgen/InstructionGen.cpp:2121-2125 STD_l3rus *)
Definition fl3rus_STD : I := inst (a ← op 1; b ← op 2; storePair 0 3 (u32 (a + (b .<< 3)))).
(** utils/instgen/InstructionGen.cpp:2127-2132 STDSP_l2rus *)
Definition fl2rus_STDSP : I := addImplicitOp (Fixed SP) in_ (inst (
  a ← op 3; b ← op 2; storePair 0 1 (u32 (a + (b .<< 3))))).

(** utils/instgen/InstructionGen.cpp:2200-2205 LDWDP_ru6 *)
Definition fru6_LDWDP : I := addImplicitOp (Fixed DP) in_ (inst (a ← op 2; b ← op 1; loadTo 0 WORD (u32 (a + b)))).
(** utils/instgen/InstructionGen.cpp:2206-2211 LDWCP_ru6 *)
Definition fru6_LDWCP : I := addImplicitOp (Fixed CP) in_ (inst (a ← op 2; b ← op 1; loadTo 0 WORD (u32 (a + b)))).
(** utils/instgen/InstructionGen.cpp:2212-2217 LDWSP_ru6 *)
Definition fru6_LDWSP : I := addImplicitOp (Fixed SP) in_ (inst (a ← op 2; b ← op 1; loadTo 0 WORD (u32 (a + b)))).
(** utils/instgen/InstructionGen.cpp:2218-2223 STWDP_ru6 *)
Definition fru6_STWDP : I := addImplicitOp (Fixed DP) in_ (inst (a ← op 2; b ← op 1; storeFrom 0 WORD (u32 (a + b)))).
(** utils/instgen/InstructionGen.cpp:2224-2229 STWSP_ru6 *)
Definition fru6_STWSP : I := addImplicitOp (Fixed SP) in_ (inst (a ← op 2; b ← op 1; storeFrom 0 WORD (u32 (a + b)))).
(** utils/instgen/InstructionGen.cpp:2390-2396 LDWCPL_u10 *)
Definition fu10_LDWCPL : I := addImplicitOp (Fixed CP) in_ (addImplicitOp (Fixed R11) out (inst (
  a ← op 2; b ← op 0; loadTo 1 WORD (u32 (a + b))))).

(** ** The stack *)

(** The body of [entsp] and [dualentsp]. *)
Definition entsp (dual : bool) : X P unit :=
  n ← op 0;
  _ ← whenX (0 <? n) (a ← op 1; _ ← storeFrom 2 WORD a; a ← op 1; setOp 1 (u32 (a - n)));
  t ← self; sys (modThread t (setDualIssue dual)).

(** utils/instgen/InstructionGen.cpp:2288-2298 ENTSP_u6 *)
Definition fu6_ENTSP : I := addImplicitOp (Fixed LR) in_ (addImplicitOp (Fixed SP) inout (inst (entsp false))).
(** utils/instgen/InstructionGen.cpp:2299-2309 DUALENTSP_u6 *)
Definition fu6_DUALENTSP : I := addImplicitOp (Fixed LR) in_ (addImplicitOp (Fixed SP) inout (inst (entsp true))).
(** utils/instgen/InstructionGen.cpp:2310-2324 RETSP_u6 *)
Definition fu6_RETSP : I := setWritesPc (setCycles (2 * INSTRUCTION_CYCLES)
  (addImplicitOp (Fixed LR) inout (addImplicitOp (Fixed SP) inout (inst (
     n ← op 0;
     _ ← whenX (0 <? n) (a ← op 1; _ ← loadTo 2 WORD (u32 (a + n)); setOp 1 (u32 (a + n)));
     lr ← op 2; _ ← write_pc lr; yield))))).
(** utils/instgen/InstructionGen.cpp:2325-2343 RETSP_xs2a_u6 *)
Definition fu6_RETSP_xs2a : I := setWritesPc (setCycles (2 * INSTRUCTION_CYCLES)
  (addImplicitOp (Fixed LR) in_ (addImplicitOp (Fixed SP) inout (inst (
     lr ← op 2; sp ← op 1; u ← op 0;
     lr ← (if 0 <? u then v ← load WORD (u32 (sp + u)); _ ← setOp 1 (u32 (sp + u)); mret v else mret lr);
     t ← self; _ ← sys (modThread t (setDualIssue (negb (lr .& 1 =? 0))));
     _ ← write_pc (lr .& u32 (Z.lnot 1)); yield))))).
(** utils/instgen/InstructionGen.cpp:2344-2350 KRESTSP_u6 *)
Definition fu6_KRESTSP : I := addImplicitOp (Fixed KSP) out (addImplicitOp (Fixed SP) inout (inst (
  a ← op 1; b ← op 0; _ ← loadTo 1 WORD (u32 (a + b)); setOp 2 (u32 (a + b))))).
(** utils/instgen/InstructionGen.cpp:2351-2356 KENTSP_u6 *)
Definition fu6_KENTSP : I := addImplicitOp (Fixed KSP) in_ (addImplicitOp (Fixed SP) inout (inst (
  ksp ← op 2; _ ← storeFrom 1 WORD ksp;
  t ← self; n ← sys (OP_ t 0); setOp 1 (u32 (ksp - n))))).

(** A word of the frame on the stack, to and from a register. *)
Definition loadFrame (r : Reg) (n : Z) : I := addImplicitOp (Fixed SP) in_ (addImplicitOp (Fixed r) out (inst (
  a ← op 1; loadTo 0 WORD (u32 (a + (n .<< 2)))))).
Definition storeFrame (r : Reg) (n : Z) : I := addImplicitOp (Fixed SP) in_ (addImplicitOp (Fixed r) in_ (inst (
  a ← op 1; storeFrom 0 WORD (u32 (a + (n .<< 2)))))).
(** utils/instgen/InstructionGen.cpp:3067-3071 LDSPC_0r *)
Definition f0r_LDSPC : I := loadFrame SPC 1.
(** utils/instgen/InstructionGen.cpp:3072-3076 LDSSR_0r *)
Definition f0r_LDSSR : I := loadFrame SSR 2.
(** utils/instgen/InstructionGen.cpp:3077-3081 LDSED_0r *)
Definition f0r_LDSED : I := loadFrame SED 3.
(** utils/instgen/InstructionGen.cpp:3082-3086 LDET_0r *)
Definition f0r_LDET : I := loadFrame ET 4.
(** utils/instgen/InstructionGen.cpp:3087-3091 STSPC_0r *)
Definition f0r_STSPC : I := storeFrame SPC 1.
(** utils/instgen/InstructionGen.cpp:3092-3096 STSSR_0r *)
Definition f0r_STSSR : I := storeFrame SSR 2.
(** utils/instgen/InstructionGen.cpp:3097-3101 STSED_0r *)
Definition f0r_STSED : I := storeFrame SED 3.
(** utils/instgen/InstructionGen.cpp:3102-3106 STET_0r *)
Definition f0r_STET : I := storeFrame ET 4.

(** ** Branches *)

(** A conditional branch on the first operand: forwards, backwards, and to an illegal address. *)
Definition branch (taken : Z -> bool) : I := setWritesPc (inst (
  c ← op 0; whenX (taken c) (v ← op 1; write_pc_unchecked v))).
Definition branchBack (taken : Z -> bool) : I := setWritesPc (inst (
  c ← op 0; whenX (taken c) (v ← op 1; _ ← write_pc_unchecked v; yield))).
Definition branchIllegal (taken : Z -> bool) : I := inst (
  c ← op 0; whenX (taken c) (v ← op 1; a ← FROM_PC v; raise ET_ILLEGAL_PC a)).
Definition nonzero (c : Z) : bool := negb (c =? 0).
Definition zero (c : Z) : bool := c =? 0.

(** utils/instgen/InstructionGen.cpp:2235-2239 BRFT_ru6 *)
Definition fru6_BRFT : I := branch nonzero.
(** utils/instgen/InstructionGen.cpp:2240-2244 BRFT_illegal_ru6 *)
Definition fru6_BRFT_illegal : I := branchIllegal nonzero.
(** utils/instgen/InstructionGen.cpp:2245-2250 BRBT_ru6 *)
Definition fru6_BRBT : I := branchBack nonzero.
(** utils/instgen/InstructionGen.cpp:2251-2255 BRBT_illegal_ru6 *)
Definition fru6_BRBT_illegal : I := branchIllegal nonzero.
(** utils/instgen/InstructionGen.cpp:2256-2260 BRFF_ru6 *)
Definition fru6_BRFF : I := branch zero.
(** utils/instgen/InstructionGen.cpp:2261-2265 BRFF_illegal_ru6 *)
Definition fru6_BRFF_illegal : I := branchIllegal zero.
(** utils/instgen/InstructionGen.cpp:2266-2271 BRBF_ru6 *)
Definition fru6_BRBF : I := branchBack zero.
(** utils/instgen/InstructionGen.cpp:2272-2276 BRBF_illegal_ru6 *)
Definition fru6_BRBF_illegal : I := branchIllegal zero.

Definition illegalTarget : X P unit := v ← op 0; a ← FROM_PC v; raise ET_ILLEGAL_PC a.
(** utils/instgen/InstructionGen.cpp:2357-2358 BRFU_u6 *)
Definition fu6_BRFU : I := setWritesPc (inst (v ← op 0; write_pc_unchecked v)).
(** utils/instgen/InstructionGen.cpp:2359-2360 BRFU_illegal_u6 *)
Definition fu6_BRFU_illegal : I := inst illegalTarget.
(** utils/instgen/InstructionGen.cpp:2361-2362 BRBU_u6 *)
Definition fu6_BRBU : I := setWritesPc (inst (v ← op 0; _ ← write_pc_unchecked v; yield)).
(** utils/instgen/InstructionGen.cpp:2363-2364 BRBU_illegal_u6 *)
Definition fu6_BRBU_illegal : I := inst illegalTarget.

(** [FROM_PC(%pc)] with the mark of dual issue *)
Definition returnAddress : X P Z :=
  p ← nextPc; a ← FROM_PC p; d ← isDualIssue; mret (a .| (if d : bool then 1 else 0)).

(** utils/instgen/InstructionGen.cpp:2398-2404 LDAPF_u10 *)
Definition fu10_LDAPF : I := addImplicitOp (Fixed R11) out (inst (
  p ← nextPc; a ← FROM_PC p; n ← op 0; _ ← setOp 1 (u32 (a + n));
  d ← isDualIssue; whenX d (v ← op 1; setOp 1 (u32 (v + a mod 4))))).
(** utils/instgen/InstructionGen.cpp:2405-2411 LDAPB_u10 *)
Definition fu10_LDAPB : I := addImplicitOp (Fixed R11) out (inst (
  p ← nextPc; a ← FROM_PC p; n ← op 0; _ ← setOp 1 (u32 (a - n));
  d ← isDualIssue; whenX d (v ← op 1; setOp 1 (u32 (v + a mod 4))))).
(** utils/instgen/InstructionGen.cpp:2412-2417 BLRF_u10 *)
Definition fu10_BLRF : I := setWritesPc (addImplicitOp (Fixed LR) out (inst (
  a ← returnAddress; _ ← setOp 1 a; v ← op 0; write_pc_unchecked v))).
(** utils/instgen/InstructionGen.cpp:2418-2419 BLRF_illegal_u10 *)
Definition fu10_BLRF_illegal : I := inst illegalTarget.
(** utils/instgen/InstructionGen.cpp:2420-2426 BLRB_u10 *)
Definition fu10_BLRB : I := setWritesPc (addImplicitOp (Fixed LR) out (inst (
  a ← returnAddress; _ ← setOp 1 a; v ← op 0; _ ← write_pc_unchecked v; yield))).
(** utils/instgen/InstructionGen.cpp:2427-2428 BLRB_illegal_u10 *)
Definition fu10_BLRB_illegal : I := inst illegalTarget.
(** utils/instgen/InstructionGen.cpp:2429-2439 BLACP_u10 *)
Definition fu10_BLACP : I := setWritesPc (setCycles (2 * INSTRUCTION_CYCLES)
  (addImplicitOp (Fixed CP) in_ (addImplicitOp (Fixed LR) out (inst (
     cp ← op 2; n ← op 0; p ← nextPc; a ← FROM_PC p; _ ← setOp 1 a;
     v ← load WORD (u32 (cp + (n .<< 2))); _ ← write_pc v; yield))))).
(** utils/instgen/InstructionGen.cpp:2375-2385 BLAT_u6 *)
Definition fu6_BLAT : I := setWritesPc (setCycles (2 * INSTRUCTION_CYCLES)
  (addImplicitOp (Fixed R11) in_ (addImplicitOp (Fixed LR) out (inst (
     b ← op 2; n ← op 0; v ← load WORD (u32 (b + (n .<< 2)));
     p ← nextPc; a ← FROM_PC p; _ ← setOp 1 a; _ ← write_pc v; yield))))).
(** utils/instgen/InstructionGen.cpp:2902-2904 BAU_1r *)
Definition f1r_BAU : I := setWritesPc (inst (v ← op 0; _ ← write_pc v; yield)).
(** utils/instgen/InstructionGen.cpp:2905-2909 BLA_1r *)
Definition f1r_BLA : I := setWritesPc (addImplicitOp (Fixed LR) out (inst (
  a ← returnAddress; _ ← setOp 1 a; v ← op 0; _ ← write_pc v; yield))).
(** utils/instgen/InstructionGen.cpp:2910-2913 BRU_1r *)
Definition f1r_BRU : I := setWritesPc (inst (
  p ← nextPc; n ← op 0; d ← isDualIssue;
  target ← FROM_PC (u32 (p + n * (if d : bool then 2 else 1)));
  _ ← write_pc target; yield)).

(** ** The kernel *)

(** utils/instgen/InstructionGen.cpp:2386-2386 KCALL_u6 *)
Definition fu6_KCALL : I := inst (v ← op 0; kcall v).
(** utils/instgen/InstructionGen.cpp:2925-2925 KCALL_1r *)
Definition f1r_KCALL : I := inst (v ← op 0; kcall v).
(** utils/instgen/InstructionGen.cpp:2894-2897 ECALLT_1r *)
Definition f1r_ECALLT : I := inst (v ← op 0; whenX (nonzero v) (raise ET_ECALL 0)).
(** utils/instgen/InstructionGen.cpp:2898-2901 ECALLF_1r *)
Definition f1r_ECALLF : I := inst (v ← op 0; whenX (zero v) (raise ET_ECALL 0)).

(** The body of [kret]. *)
Definition kret : X P unit :=
  sed ← op 1; _ ← setOp 3 sed;
  ssr ← op 2; _ ← setOp 4 (sr_set WAITING false (wrap 11 ssr));
  spc ← op 0; write_pc spc.
Definition kretOps (i : I) : I :=
  addImplicitOp SR out (addImplicitOp (Fixed ED) out (addImplicitOp (Fixed SSR) in_
    (addImplicitOp (Fixed SED) in_ (addImplicitOp (Fixed SPC) in_ i)))).
(** utils/instgen/InstructionGen.cpp:3042-3053 KRET_0r *)
Definition f0r_KRET : I := setWritesPc (setYieldBefore (kretOps (inst kret))).
(** utils/instgen/InstructionGen.cpp:3054-3065 KRET_l0r *)
Definition fl0r_KRET : I := setWritesPc (setYieldBefore (kretOps (inst kret))).

(** utils/instgen/InstructionGen.cpp:3140-3140 ILLEGAL_PC *)
Definition pseudo_ILLEGAL_PC : I := setCycles 0 (inst (
  p ← nextPc; a ← FROM_PC p; raise ET_ILLEGAL_PC (u32 (a - 2)))).
(** utils/instgen/InstructionGen.cpp:3141-3142 ILLEGAL_PC_THREAD *)
Definition pseudo_ILLEGAL_PC_THREAD : I := setCycles 0 (inst (
  t ← self; th ← sys (thread t); raise ET_ILLEGAL_PC (pendingPc th))).
(** utils/instgen/InstructionGen.cpp:3143-3144 ILLEGAL_INSTRUCTION *)
Definition pseudo_ILLEGAL_INSTRUCTION : I := setCycles 0 (inst (raise ET_ILLEGAL_INSTRUCTION 0)).
End control.
