(* ===== verification/ResourceOps.v ===== *)
(** * Operations on resources (lib/InstructionHelpers.cpp, lib/Resource.h, lib/Core.cpp, lib/Thread.cpp)

    How an instruction gets from an identifier to a resource, and the operations that every
    resource has (virtual functions in the source, here a match on the kind of resource).  Ports and
    clock blocks enter through the interface [PortOps]: one request per method that instructions
    call. *)

From Stdlib Require Import ZArith Lia.
From stdpp Require Import base list numbers option gmap.
From S2P Require Import Prelude BitManip Opcode DecodeCache Core.
From S2P Require Import Refs Resource Node StateMonad Thread SysState Events Timer Sync Chanend EventEnable Exec InstrData.

#[local] Open Scope Z_scope.
#[local] Open Scope cbits_scope.

(** The methods of [Port] that instructions call. *)
Inductive PortOp :=
  | PIn | POut (value : Z) | PInpw (width : Z) | POutpw (value width : Z) | PPeek | PEndin
  | PSetpsc (value : Z) | PGetData | PSetData (value : Z) | PSetTransferWidth (value : Z)
  | PGetTransferWidth | PSetReady (p : EventableRef) | PGetTimestamp | PSetPortTime (value : Z)
  | PSync | PClearPortTime | PSetCInUse (val : bool) | PSetCondition (c : Condition)
  | PSetClk (c : Ref) | PSetPinDelay (value : Z) | PSetMasterSlave (slave : bool)
  | PSetBuffered (value : bool) | PSetReadyMode (mode : Z) | PSetPortType (type : Z) | PClearBuf
  | PSetPortInv (value : bool) | PSetSamplingEdge (falling : bool).

(** The methods of [ClockBlock]. *)
Inductive ClkOp :=
  | CSetCInUse (val : bool) | CSetSourceRefClock | CSetSource (p : EventableRef)
  | CSetEdgeDelay (falling : bool) (value : Z) | CStart | CStop | CSetReady (p : EventableRef)
  | CSetData (value : Z).

(** A method that returns a [bool] answers [CONTINUE] for [true] and [ILLEGAL] for [false]; one
    that has a result gives it as the second component. *)
Class PortOps (P : Type) := {
  port_op : EventableRef -> Ref -> Z -> PortOp -> M (Sys P) (ResOpResult * Z);
  clk_op : Ref -> Ref -> Z -> ClkOp -> M (Sys P) (ResOpResult * Z);
  clk_inUse : Ref -> M (Sys P) bool
}.

(** A pointer to a resource. *)
Inductive Res :=
  | RPort (c : CoreRef) (width num : Z) | RTimer (r : Ref) | RChanend (r : Ref) | RSync (r : Ref)
  | RThr (r : Ref) | RLock (r : Ref) | RClk (r : Ref).

Section resources.
Context {P : Type} `{PortEvents P} `{PortOps P}.
Abbreviation MS := (M (Sys P)).

Definition resAt (c : CoreRef) (r : ResourceRef) : option Res :=
  match r with
  | PortRef w n => Some (RPort c w n)
  | StdRef ty n =>
      let r := (c, Z.to_nat n) in
      if ty =? RES_TYPE_TIMER then Some (RTimer r) else if ty =? RES_TYPE_CHANEND then Some (RChanend r)
      else if ty =? RES_TYPE_SYNC then Some (RSync r) else if ty =? RES_TYPE_THREAD then Some (RThr r)
      else if ty =? RES_TYPE_LOCK then Some (RLock r) else if ty =? RES_TYPE_CLKBLK then Some (RClk r) else None
  end.

(** The tables of a core. *)
Definition coreTables (c : CoreRef) : MS (Tables Resource) :=
  s ← get; n ← lift (net s !! c.1);
  match kind n with
  | ProcessorNode cores _ _ => k ← lift (cores !! c.2); mret (tables k)
  | PeripheralNode => undef
  end.

(** [CORE.getResourceByID(id)] *)
Definition resourceByID (c : CoreRef) (id : Z) : MS (option Res) :=
  t ← coreTables c; r ← lift (getResourceByID t id);
  match r with None => mret None | Some r => x ← lift (resAt c r); mret (Some x) end.

Definition portRef (r : Res) : option EventableRef := match r with RPort c w n => Some (EvPortRef c w n) | _ => None end.

(** lib/Resource.h:188-191 Resource::isEventable: with its overrider in EventableResource *)
Definition eventableOf (r : Res) : option EventableRef :=
  match r with RPort c w n => Some (EvPortRef c w n) | RTimer r => Some (TimerRef r) | RChanend r => Some (ChanendRef r) | _ => None end.

(** The common part of a resource. *)
Definition resourceOf (r : Res) : MS Resource :=
  match r with
  | RSync r => y ← synchroniser r; mret (sync_res y)
  | RThr r => th ← thread r; mret (res th)
  | RLock r => l ← lock r; mret (lock_res l)
  | RClk r => b ← clk_inUse r; mret (mkResource b (clockBlockID (Z.of_nat r.2)))
  | RPort c w n => ev ← eventable (EvPortRef c w n); mret (ev_res ev)
  | RTimer r => ev ← eventable (TimerRef r); mret (ev_res ev)
  | RChanend r => ev ← eventable (ChanendRef r); mret (ev_res ev)
  end.

(** lib/InstructionHelpers.cpp:51-58 checkResource *)
Definition checkResource (c : CoreRef) (id : Z) : MS (option Res) :=
  r ← resourceByID c id;
  match r with
  | None => mret None
  | Some r => x ← resourceOf r; mret (if inUse x then Some r else None)
  end.

(** lib/InstructionHelpers.cpp:60-68 checkSync *)
Definition checkSync (c : CoreRef) (id : Z) : MS (option Ref) :=
  r ← checkResource c id; mret (match r with Some (RSync r) => Some r | _ => None end).
(** lib/InstructionHelpers.cpp:70-78 checkThread *)
Definition checkThread (c : CoreRef) (id : Z) : MS (option Ref) :=
  r ← checkResource c id; mret (match r with Some (RThr r) => Some r | _ => None end).
(** lib/InstructionHelpers.cpp:80-88 checkChanend *)
Definition checkChanend (c : CoreRef) (id : Z) : MS (option Ref) :=
  r ← checkResource c id; mret (match r with Some (RChanend r) => Some r | _ => None end).
(** lib/InstructionHelpers.cpp:90-98 checkPort *)
Definition checkPort (c : CoreRef) (id : Z) : MS (option EventableRef) :=
  r ← checkResource c id; mret (r ≫= portRef).
(** lib/InstructionHelpers.cpp:100-108 checkEventableResource *)
Definition checkEventableResource (c : CoreRef) (id : Z) : MS (option EventableRef) :=
  r ← checkResource c id; mret (r ≫= eventableOf).

(** ** The virtual functions *)

Definition bool_result (m : MS (ResOpResult * Z)) : MS bool :=
  r ← m; mret (match r.1 with CONTINUE => true | _ => false end).
Definition of_option (m : MS (option Z)) : MS (ResOpResult * Z) :=
  r ← m; mret (match r with Some v => (CONTINUE, v) | None => (DESCHEDULE, 0) end).

(** lib/Resource.h:245-248 Resource::in: and its overriders *)
Definition resource_in (r : Res) (t : Ref) (time : Z) : MS (ResOpResult * Z) :=
  match r with
  | RPort c w n => port_op (EvPortRef c w n) t time PIn
  | RTimer r => of_option (timer_in r t time)
  | RChanend r => chanend_in r t time
  | RLock r => of_option (lock_in r t)
  | RSync _ | RThr _ | RClk _ => mret (ILLEGAL, 0)
  end.

(** lib/Resource.h:250-253 Resource::out: and its overriders *)
Definition resource_out (r : Res) (t : Ref) (value time : Z) : MS ResOpResult :=
  match r with
  | RPort c w n => r ← port_op (EvPortRef c w n) t time (POut value); mret r.1
  | RChanend r => chanend_out r t value time
  | RLock r => _ ← lock_out r time; mret CONTINUE
  | RTimer _ | RSync _ | RThr _ | RClk _ => mret ILLEGAL
  end.

(** lib/Resource.h:210-213 Resource::setData: and its overriders *)
Definition resource_setData (r : Res) (t : Ref) (value time : Z) : MS bool :=
  match r with
  | RPort c w n => bool_result (port_op (EvPortRef c w n) t time (PSetData value))
  | RClk r => bool_result (clk_op r t time (CSetData value))
  | RTimer r => timer_setData r t value
  | RChanend r => chanend_setData r value
  | RSync _ | RThr _ | RLock _ => mret false
  end.

(** lib/Resource.h:215-218 Resource::getData: and its overriders; [None] when it returns false *)
Definition resource_getData (r : Res) (t : Ref) (time : Z) : MS (option Z) :=
  match r with
  | RPort c w n => r ← port_op (EvPortRef c w n) t time PGetData; mret (match r.1 with CONTINUE => Some r.2 | _ => None end)
  | RTimer r => v ← timer_getData r t; mret (Some v)
  | RChanend r => v ← chanend_getData r; mret (Some v)
  | RSync _ | RThr _ | RLock _ | RClk _ => mret None
  end.

(** lib/Resource.h:205-208 Resource::setCondition: and its overriders *)
Definition resource_setCondition (r : Res) (t : Ref) (c : Condition) (time : Z) : MS bool :=
  match r with
  | RPort p w n => bool_result (port_op (EvPortRef p w n) t time (PSetCondition c))
  | RTimer r => timer_setCondition r t c
  | _ => mret false
  end.

(** lib/Resource.h:193-196 Resource::setCInUse: and its overriders *)
Definition resource_setCInUse (r : Res) (t : Ref) (val : bool) (time : Z) : MS bool :=
  match r with
  | RPort c w n => bool_result (port_op (EvPortRef c w n) t time (PSetCInUse val))
  | RClk r => bool_result (clk_op r t time (CSetCInUse val))
  | _ => mret false
  end.

(** lib/Resource.h:220-223 Resource::setReady: and its overriders *)
Definition resource_setReady (r : Res) (t : Ref) (p : EventableRef) (time : Z) : MS bool :=
  match r with
  | RPort c w n => bool_result (port_op (EvPortRef c w n) t time (PSetReady p))
  | RClk r => bool_result (clk_op r t time (CSetReady p))
  | _ => mret false
  end.

(** lib/Resource.h:230-233 Resource::free: and its overriders *)
Definition resource_free (r : Res) : MS bool :=
  match r with
  | RTimer r => timer_free r
  | RChanend r => chanend_free r
  | RSync r => sync_free r
  | RThr r => _ ← modThread r thread_free; mret true
  | RLock r => lock_free r
  | RPort _ _ _ | RClk _ => mret false
  end.

(** lib/Resource.h:225-228 Resource::alloc: and its overriders *)
Definition resource_alloc (r : Res) (t : Ref) : MS bool :=
  match r with
  | RTimer r => _ ← timer_alloc r t; mret true
  | RChanend r => _ ← chanend_alloc r t; mret true
  | RSync r => _ ← sync_alloc r t; mret true
  | RThr r =>
      me ← thread t; th ← thread r; th ← lift (thread_alloc (Thread.time me) th);
      _ ← putThread r th; mret true
  | RLock r => _ ← lock_alloc r; mret true
  | RPort _ _ _ | RClk _ => mret false
  end.

(** The loop of [allocResource]. *)
Fixpoint allocFirst (t : Ref) (l : list Res) : MS (option Res) :=
  match l with
  | [] => mret None
  | r :: l =>
      x ← resourceOf r;
      if negb (inUse x) then ok ← resource_alloc r t; _ ← require ok; mret (Some r)
      else allocFirst t l
  end.

(** lib/Core.cpp:190-203 Core::allocResource *)
Definition allocResource (t : Ref) (type : Z) : MS (option Res) :=
  if LAST_STD_RES_TYPE <? type then mret None
  else
    can ← lift (array_get allocatable type);
    if negb can then mret None
    else
      tb ← coreTables t.1;
      row ← lift (array_get (resource tb) type);
      l ← lift (mapM (fun i => resAt t.1 (StdRef type i)) (seqZ 0 (zlength row)));
      allocFirst t l.

(** ** Configuration *)

(** lib/InstructionHelpers.cpp:112-147 setClock *)
Definition setClock (t : Ref) (resID val time : Z) : MS bool :=
  r ← checkResource t.1 resID;
  match r with
  | Some (RClk c) =>
      if val =? 1 then _ ← clk_op c t time CSetSourceRefClock; mret true
      else
        p ← checkPort t.1 val;
        match p with
        | Some (EvPortRef _ w _ as p) =>
            if negb (w =? 1) then mret false else bool_result (clk_op c t time (CSetSource p))
        | _ => mret false
        end
  | Some (RPort c w n) =>
      src ← resourceByID t.1 val;
      match src with
      | Some (RClk k) => _ ← port_op (EvPortRef c w n) t time (PSetClk k); mret true
      | _ => mret false
      end
  | _ => mret false
  end.

(** lib/InstructionHelpers.cpp:149-159 setReadyInstruction *)
Definition setReadyInstruction (t : Ref) (resID val time : Z) : MS bool :=
  r ← checkResource t.1 resID;
  ready ← checkPort t.1 val;
  match r, ready with
  | Some r, Some p => resource_setReady r t p time
  | _, _ => mret false
  end.

(** lib/InstructionHelpers.cpp:163-174 setProcessorState *)
Definition setProcessorState (t : Ref) (reg value : Z) : MS bool :=
  ram ← isInRam t;
  if (reg =? PS_RAM_BASE) && ram then undef
  else
    s ← get; c ← core t.1;
    '(c, ok) ← lift (core_setProcessorState (base (romDecodeCache s)) reg value c);
    _ ← putCore t.1 c; mret ok.

(** lib/Thread.cpp:248-275 SETC_INUSE_OFF *)
Definition SETC_INUSE_OFF : Z := 0x0.
Definition SETC_INUSE_ON : Z := 0x8.
Definition SETC_COND_FULL : Z := 0x1.
Definition SETC_COND_AFTER : Z := 0x9.
Definition SETC_COND_EQ : Z := 0x11.
Definition SETC_DRIVE_PULL_UP : Z := 0x13.
Definition SETC_COND_NEQ : Z := 0x19.
Definition SETC_IE_MODE_EVENT : Z := 0x2.
Definition SETC_IE_MODE_INTERRUPT : Z := 0xa.
Definition SETC_RUN_STOPR : Z := 0x7.
Definition SETC_RUN_STARTR : Z := 0xf.
Definition SETC_RUN_CLRBUF : Z := 0x17.
Definition SETC_MS_MASTER : Z := 0x1007.
Definition SETC_MS_SLAVE : Z := 0x100f.
Definition SETC_BUF_NOBUFFERS : Z := 0x2007.
Definition SETC_BUF_BUFFERS : Z := 0x200f.
Definition SETC_RDY_NOREADY : Z := 0x3007.
Definition SETC_RDY_STROBED : Z := 0x300f.
Definition SETC_RDY_HANDSHAKE : Z := 0x3017.
Definition SETC_SDELAY_NOSDELAY : Z := 0x4007.
Definition SETC_SDELAY_SDELAY : Z := 0x400f.
Definition SETC_PORT_DATAPORT : Z := 0x5007.
Definition SETC_PORT_CLOCKPORT : Z := 0x500f.
Definition SETC_PORT_READYPORT : Z := 0x5017.
Definition SETC_INV_NOINVERT : Z := 0x6007.
Definition SETC_INV_INVERT : Z := 0x600f.

(** lib/Thread.cpp:290-303 setCCondition *)
Definition setCCondition (v : Z) : option Condition :=
  if v =? SETC_COND_FULL then Some COND_FULL else if v =? SETC_COND_AFTER then Some COND_AFTER
  else if v =? SETC_COND_EQ then Some COND_EQ else if v =? SETC_COND_NEQ then Some COND_NEQ else None.

(** A method of a port, if the resource is one. *)
Definition onPort (r : Res) (t : Ref) (time : Z) (o : PortOp) : MS bool :=
  match r with RPort c w n => bool_result (port_op (EvPortRef c w n) t time o) | _ => mret false end.
(** The same for a method without a result. *)
Definition onPort_ (r : Res) (t : Ref) (time : Z) (o : PortOp) : MS bool :=
  match r with RPort c w n => _ ← port_op (EvPortRef c w n) t time o; mret true | _ => mret false end.
Definition onClk_ (r : Res) (t : Ref) (time : Z) (o : ClkOp) : MS bool :=
  match r with RClk c => _ ← clk_op c t time o; mret true | _ => mret false end.

(** lib/Thread.cpp:380-466 Thread::setC: what a control value of a resource in use does *)
Definition setCValue (t : Ref) (time : Z) (r : Res) (val : Z) : MS bool :=
  let eq x := val =? x in
  if eq SETC_DRIVE_PULL_UP then mret true
  else if eq SETC_IE_MODE_EVENT || eq SETC_IE_MODE_INTERRUPT then
    match eventableOf r with
    | None => mret false
    | Some e => _ ← setInterruptMode e t (eq SETC_IE_MODE_INTERRUPT); mret true
    end
  else if eq SETC_COND_FULL || eq SETC_COND_AFTER || eq SETC_COND_EQ || eq SETC_COND_NEQ then
    c ← lift (setCCondition val); resource_setCondition r t c time
  else if eq SETC_RUN_STARTR then onClk_ r t time CStart
  else if eq SETC_RUN_STOPR then onClk_ r t time CStop
  else if eq SETC_MS_MASTER then onPort r t time (PSetMasterSlave false)
  else if eq SETC_MS_SLAVE then onPort r t time (PSetMasterSlave true)
  else if eq SETC_BUF_BUFFERS || eq SETC_BUF_NOBUFFERS then onPort r t time (PSetBuffered (eq SETC_BUF_BUFFERS))
  else if eq SETC_RDY_NOREADY || eq SETC_RDY_STROBED || eq SETC_RDY_HANDSHAKE then onPort r t time (PSetReadyMode val)
  else if eq SETC_PORT_DATAPORT || eq SETC_PORT_CLOCKPORT || eq SETC_PORT_READYPORT then onPort r t time (PSetPortType val)
  else if eq SETC_RUN_CLRBUF then onPort_ r t time PClearBuf
  else if eq SETC_INV_INVERT || eq SETC_INV_NOINVERT then onPort r t time (PSetPortInv (eq SETC_INV_INVERT))
  else if eq SETC_SDELAY_NOSDELAY || eq SETC_SDELAY_SDELAY then onPort_ r t time (PSetSamplingEdge (eq SETC_SDELAY_SDELAY))
  else undef.

(** lib/Thread.cpp:348-379 Thread::setC *)
Definition setC (t : Ref) (time resID val : Z) : MS bool :=
  r ← resourceByID t.1 resID;
  match r with
  | None => mret false
  | Some r =>
      if (val =? SETC_INUSE_OFF) || (val =? SETC_INUSE_ON) then resource_setCInUse r t (val =? SETC_INUSE_ON) time
      else
        x ← resourceOf r;
        if negb (inUse x) then mret false
        else
          let lmode := extractBits val 12 4 in
          let valField := extractBits val 3 9 in
          if (extractBits val 0 3 =? 7) && (lmode =? 7) then onPort r t time (PSetPinDelay valField)
          else if (extractBits val 0 3 =? 7) && ((lmode =? 8) || (lmode =? 9)) then
            match r with
            | RClk c => bool_result (clk_op c t time (CSetEdgeDelay (lmode =? 8) valField))
            | _ => mret false
            end
          else setCValue t time r val
  end.

(** lib/Thread.cpp:137-141 Thread::getReferenceTime: the quotient is computed in [double], where it is exact for times below 2^53; its conversion to 32 bits is undefined if it does not fit *)
Definition getReferenceTime (t : Ref) : MS Z :=
  s ← get; n ← lift (net s !! t.1.1); th ← thread t;
  match kind n with
  | ProcessorNode _ mhz ref =>
      _ ← require (negb (ref =? 0));
      let d := u32 (Z.quot mhz ref) in
      _ ← require ((0 <? d) && (Thread.time th <? 2 ^ 53) && (Thread.time th / d <? 2 ^ 32));
      mret (Thread.time th / d)
  | PeripheralNode => undef
  end.
End resources.
