(* ===== verification/InstrResource.v ===== *)
(** * Resource instructions (utils/instgen/InstructionGen.cpp)

    The declarations of the instructions on threads, synchronisers, events, channels and ports. *)

From Stdlib Require Import ZArith Lia.
From stdpp Require Import base list numbers option gmap.
From S2P Require Import Prelude BitManip Opcode DecodeCache Core.
From S2P Require Import Refs Resource Node StateMonad Thread SysState Events Timer Sync Chanend EventEnable.
From S2P Require Import Exec InstrData InstrControl ResourceOps.

#[local] Open Scope Z_scope.
#[local] Open Scope cbits_scope.

Section instructions.
Context {P : Type} `{PortEvents P} `{PortOps P}.
Abbreviation I := (Inst P).

(** [TIME] *)
Definition TIME : X P Z := t ← self; th ← sys (thread t); mret (Thread.time th).
Definition illegalResource (id : Z) : X P unit := raise ET_ILLEGAL_RESOURCE id.

(** [if (x = check(CORE, id)) k x else exception(ET_ILLEGAL_RESOURCE, id)] *)
Definition withResource {R} (check : CoreRef -> Z -> M (Sys P) (option R)) (i : nat) (k : R -> X P unit) : X P unit :=
  t ← self; id ← op i;
  r ← sys (check t.1 id);
  match r with Some r => k r | None => illegalResource id end.

(** The switch on the result of an operation that may pause the thread: [illegal] for the case [ILLEGAL]. *)
Definition onResult (r : ResOpResult) (paused : PausedOn) (illegal continue : X P unit) : X P unit :=
  match r with CONTINUE => continue | DESCHEDULE => pause_on paused | ILLEGAL => illegal end.
Definition unexpected : X P unit := sys undef.
(** A boolean function that raises the exception when it returns false. *)
Definition orIllegal (m : M (Sys P) bool) (id : Z) : X P unit :=
  ok ← sys m; whenX (negb ok) (illegalResource id).

(** What a thread is said to wait for when it waits for a resource. *)
Definition pausedOnRes (r : Res) : option PausedOn :=
  match r with RLock r => Some (OnLock r) | RSync r => Some (OnSync r) | _ => OnEventable <$> eventableOf r end.

(** ** Threads and synchronisers *)

(** The body of [tsetr] and [init]: write a register of another thread. *)
Definition setThreadReg (ssyncOnly : bool) (i : nat) (reg value : Z) : X P unit :=
  t ← self; id ← op i;
  r ← sys (checkThread t.1 id);
  match r with
  | None => illegalResource id
  | Some r =>
      th ← sys (thread r);
      if ssyncOnly && negb (Thread.ssync th) then illegalResource id
      else sys (writeReg r reg value)
  end.

(** utils/instgen/InstructionGen.cpp:1915-1922 TSETR_3r *)
Definition inst_TSETR_3r : I := inst (reg ← op 0; v ← op 1; setThreadReg false 2 reg v).
(** utils/instgen/InstructionGen.cpp:1923-1930 TSETR_l3r *)
Definition inst_TSETR_l3r : I := inst (reg ← op 0; v ← op 1; setThreadReg false 2 reg v).
(** utils/instgen/InstructionGen.cpp:2517-2524 TINITLR_l2r *)
Definition fl2r_TINITLR : I := inst (v ← op 0; setThreadReg true 1 (reg_index LR) v).
(** utils/instgen/InstructionGen.cpp:2629-2636 TINITDP_2r *)
Definition f2r_TINITDP : I := inst (v ← op 0; setThreadReg true 1 (reg_index DP) v).
(** utils/instgen/InstructionGen.cpp:2645-2652 TINITSP_2r *)
Definition f2r_TINITSP : I := inst (v ← op 0; setThreadReg true 1 (reg_index SP) v).
(** utils/instgen/InstructionGen.cpp:2637-2644 TINITSP_l2r *)
Definition fl2r_TINITSP : I := inst (v ← op 0; setThreadReg true 1 (reg_index SP) v).
(** utils/instgen/InstructionGen.cpp:2653-2660 TINITCP_2r *)
Definition f2r_TINITCP : I := inst (v ← op 0; setThreadReg true 1 (reg_index CP) v).

(** The body of [init t:pc]. *)
Definition tinitpc : X P unit :=
  t ← self; id ← op 1;
  r ← sys (checkThread t.1 id);
  match r with
  | None => illegalResource id
  | Some r =>
      th ← sys (thread r);
      if negb (Thread.ssync th) then illegalResource id
      else
        a ← op 0; newPc ← sys (thread_toPc t a); ok ← sys (CHECK_PC t newPc);
        if ok : bool then sys (modThread r (set_pc (u32 (newPc - 1))))
        else
          c ← sys (core t.1);
          sys (modThread r (fun th => set_pendingPc newPc (set_pc (getIllegalPCThreadAddr (ramDecodeCache c)) th)))
  end.
(** utils/instgen/InstructionGen.cpp:2593-2610 TINITPC_2r *)
Definition f2r_TINITPC : I := inst tinitpc.
(** utils/instgen/InstructionGen.cpp:2611-2628 TINITPC_l2r *)
Definition fl2r_TINITPC : I := inst tinitpc.

(** utils/instgen/InstructionGen.cpp:2450-2457 GETR_rus *)
Definition frus_GETR : I := inst (
  type ← op 1;
  if LAST_STD_RES_TYPE <? type then setOp 0 1
  else
    t ← self; r ← sys (ResourceOps.allocResource t type);
    match r with
    | Some r => x ← sys (resourceOf r); setOp 0 (ID x)
    | None => setOp 0 0
    end).
(** utils/instgen/InstructionGen.cpp:2458-2470 GETST_2r *)
Definition f2r_GETST : I := inst (
  withResource checkSync 1 (fun y =>
    t ← self; r ← sys (ResourceOps.allocResource t RES_TYPE_THREAD);
    match r with
    | Some (RThr c) =>
        _ ← sys (addChild y c);
        _ ← sys (th ← thread c; th ← lift (setSync y th); putThread c th);
        th ← sys (thread c); setOp 0 (ID (res th))
    | Some _ => unexpected
    | None => setOp 0 0
    end)).
(** utils/instgen/InstructionGen.cpp:2914-2923 TSTART_1r *)
Definition f1r_TSTART : I := inst (
  t ← self; id ← op 0;
  r ← sys (checkThread t.1 id);
  match r with
  | None => illegalResource id
  | Some r =>
      th ← sys (thread r);
      if Thread.ssync th && bool_decide (Thread.sync th = None) then
        _ ← sys (modThread r (fun th => set_pc (u32 (Thread.pc th + 1)) (set_ssync false th)));
        sys (schedule r)
      else illegalResource id
  end).
(** utils/instgen/InstructionGen.cpp:2926-2930 FREER_1r *)
Definition f1r_FREER : I := inst (
  t ← self; id ← op 0;
  r ← sys (checkResource t.1 id);
  match r with None => illegalResource id | Some r => orIllegal (resource_free r) id end).
(** utils/instgen/InstructionGen.cpp:2931-2943 MSYNC_1r *)
Definition f1r_MSYNC : I := inst (
  withResource checkSync 0 (fun y =>
    t ← self; r ← sys (msync y t);
    match r with
    | SYNC_CONTINUE => mret tt
    | SYNC_DESCHEDULE => pause_on (OnSync y)
    | SYNC_KILL => unexpected
    end)).
(** utils/instgen/InstructionGen.cpp:2944-2957 MJOIN_1r *)
Definition f1r_MJOIN : I := inst (
  withResource checkSync 0 (fun y =>
    t ← self; r ← sys (mjoin y t);
    match r with
    | SYNC_CONTINUE => mret tt
    | SYNC_DESCHEDULE => pause_on (OnSync y)
    | SYNC_KILL => unexpected
    end)).
(** utils/instgen/InstructionGen.cpp:3122-3139 SSYNC_0r *)
Definition f0r_SSYNC : I := inst (
  t ← self; th ← sys (thread t);
  match Thread.sync th with
  | None => Exec.deschedule
  | Some y =>
      r ← sys (Sync.ssync y t);
      match r with
      | SYNC_CONTINUE => mret tt
      | SYNC_DESCHEDULE => pause_on (OnSync y)
      | SYNC_KILL => _ ← sys (modThread t thread_free); Exec.deschedule
      end
  end).
(** utils/instgen/InstructionGen.cpp:3107-3114 FREET_0r *)
Definition f0r_FREET : I := inst (
  t ← self; th ← sys (thread t);
  match Thread.sync th with
  | Some _ => unexpected
  | None => _ ← sys (modThread t thread_free); Exec.deschedule
  end).

(** ** Processor state and time *)

(** utils/instgen/InstructionGen.cpp:2534-2537 GETPS_l2r *)
Definition fl2r_GETPS : I := inst (
  t ← self; reg ← op 1; c ← sys (core t.1);
  match getProcessorState reg c with Some v => setOp 0 v | None => raise ET_ILLEGAL_PS reg end).
(** utils/instgen/InstructionGen.cpp:2539-2542 SETPS_l2r *)
Definition fl2r_SETPS : I := inst (
  t ← self; reg ← op 1; v ← op 0;
  ok ← sys (setProcessorState t reg v); whenX (negb ok) (raise ET_ILLEGAL_PS reg)).
(** utils/instgen/InstructionGen.cpp:2884-2884 GETTIME_1r *)
Definition f1r_GETTIME : I := inst (t ← self; v ← sys (getReferenceTime t); setOp 0 v).

(** ** Configuration *)

(** The body of [setc]. *)
Definition setc : X P unit :=
  t ← self; id ← op 0; v ← op 1; time ← TIME; orIllegal (setC t time id v) id.
(** utils/instgen/InstructionGen.cpp:2277-2281 SETC_ru6 *)
Definition fru6_SETC : I := setCanEvent (setYieldBefore (inst setc)).
(** utils/instgen/InstructionGen.cpp:2543-2546 SETC_l2r *)
Definition fl2r_SETC : I := setCanEvent (setYieldBefore (inst setc)).
(** utils/instgen/InstructionGen.cpp:2547-2550 SETCLK_l2r *)
Definition fl2r_SETCLK : I := setYieldBefore (inst (
  t ← self; id ← op 1; v ← op 0; time ← TIME; orIllegal (setClock t id v time) id)).
(** utils/instgen/InstructionGen.cpp:2556-2559 SETRDY_l2r *)
Definition fl2r_SETRDY : I := setYieldBefore (inst (
  t ← self; id ← op 1; v ← op 0; time ← TIME; orIllegal (setReadyInstruction t id v time) id)).
(** utils/instgen/InstructionGen.cpp:2525-2530 GETD_l2r *)
Definition fl2r_GETD : I := setYieldBefore (inst (
  withResource checkResource 1 (fun r =>
    t ← self; id ← op 1; time ← TIME; v ← sys (resource_getData r t time);
    match v with Some v => setOp 0 v | None => illegalResource id end))).
(** utils/instgen/InstructionGen.cpp:2664-2669 SETD_2r *)
Definition f2r_SETD : I := setYieldBefore (inst (
  withResource checkResource 1 (fun r =>
    t ← self; id ← op 1; v ← op 0; time ← TIME; orIllegal (resource_setData r t v time) id))).

(** ** Input and output *)

(** utils/instgen/InstructionGen.cpp:2560-2576 IN_2r *)
Definition f2r_IN : I := setYieldBefore (inst (
  withResource checkResource 1 (fun r =>
    t ← self; id ← op 1; time ← TIME;
    '(x, v) ← sys (resource_in r t time);
    match x with
    | CONTINUE => setOp 0 v
    | DESCHEDULE => p ← sys (lift (pausedOnRes r)); pause_on p
    | ILLEGAL => illegalResource id
    end))).
(** utils/instgen/InstructionGen.cpp:2577-2592 OUT_2r *)
Definition f2r_OUT : I := setCanEvent (setYieldBefore (inst (
  withResource checkResource 1 (fun r =>
    t ← self; id ← op 1; v ← op 0; time ← TIME;
    x ← sys (resource_out r t v time);
    match x with
    | CONTINUE => mret tt
    | DESCHEDULE => p ← sys (lift (pausedOnRes r)); pause_on p
    | ILLEGAL => illegalResource id
    end)))).

(** The body of [outct]. *)
Definition outct_code : X P unit :=
  withResource checkChanend 0 (fun c =>
    t ← self; v ← op 1; time ← TIME; x ← sys (outct c t (u8 v) time);
    onResult x (OnEventable (ChanendRef c)) unexpected (mret tt)).
(** utils/instgen/InstructionGen.cpp:2670-2684 OUTCT_2r *)
Definition f2r_OUTCT : I := setCanEvent (setYieldBefore (inst outct_code)).
(** utils/instgen/InstructionGen.cpp:2685-2699 OUTCT_rus *)
Definition frus_OUTCT : I := setCanEvent (setYieldBefore (inst outct_code)).
(** utils/instgen/InstructionGen.cpp:2700-2714 OUTT_2r *)
Definition f2r_OUTT : I := setCanEvent (setYieldBefore (inst (
  withResource checkChanend 1 (fun c =>
    t ← self; v ← op 0; time ← TIME; x ← sys (outt c t (u8 v) time);
    onResult x (OnEventable (ChanendRef c)) unexpected (mret tt))))).
(** utils/instgen/InstructionGen.cpp:2715-2730 INT_2r *)
Definition f2r_INT : I := inst (
  withResource checkChanend 1 (fun c =>
    t ← self; id ← op 1; time ← TIME; '(x, v) ← sys (intoken c t time);
    onResult x (OnEventable (ChanendRef c)) (illegalResource id) (setOp 0 v))).
(** utils/instgen/InstructionGen.cpp:2731-2747 INCT_2r *)
Definition f2r_INCT : I := inst (
  withResource checkChanend 1 (fun c =>
    t ← self; id ← op 1; time ← TIME; '(x, v) ← sys (inct c t time);
    onResult x (OnEventable (ChanendRef c)) (illegalResource id) (setOp 0 v))).
(** The body of [chkct]. *)
Definition chkct_code : X P unit :=
  withResource checkChanend 0 (fun c =>
    t ← self; id ← op 0; v ← op 1; time ← TIME; x ← sys (chkct c t time v);
    onResult x (OnEventable (ChanendRef c)) (illegalResource id) (mret tt)).
(** utils/instgen/InstructionGen.cpp:2748-2761 CHKCT_2r *)
Definition f2r_CHKCT : I := inst chkct_code.
(** utils/instgen/InstructionGen.cpp:2762-2775 CHKCT_rus *)
Definition frus_CHKCT : I := inst chkct_code.
(** utils/instgen/InstructionGen.cpp:2776-2787 TESTCT_2r *)
Definition f2r_TESTCT : I := inst (
  withResource checkChanend 1 (fun c =>
    t ← self; r ← sys (testct c t);
    match r with Some b => setOp 0 (b2u b) | None => pause_on (OnEventable (ChanendRef c)) end)).
(** utils/instgen/InstructionGen.cpp:2788-2799 TESTWCT_2r *)
Definition f2r_TESTWCT : I := inst (
  withResource checkChanend 1 (fun c =>
    t ← self; r ← sys (testwct c t);
    match r with Some v => setOp 0 v | None => pause_on (OnEventable (ChanendRef c)) end)).

(** ** Events *)

Definition onEventable (i : nat) (k : Ref -> EventableRef -> X P unit) : X P unit :=
  withResource checkEventableResource i (fun e => t ← self; k t e).
Definition enableIf (b : bool) (t : Ref) (e : EventableRef) : X P unit :=
  sys (if b then eventEnable e t else eventDisable e t).

(** utils/instgen/InstructionGen.cpp:2800-2812 EET_2r *)
Definition f2r_EET : I := setCanEvent (setYieldBefore (inst (
  onEventable 1 (fun t e => v ← op 0; enableIf (nonzero v) t e)))).
(** utils/instgen/InstructionGen.cpp:2813-2825 EEF_2r *)
Definition f2r_EEF : I := setCanEvent (setYieldBefore (inst (
  onEventable 1 (fun t e => v ← op 0; enableIf (zero v) t e)))).
(** utils/instgen/InstructionGen.cpp:2958-2970 SETV_1r *)
Definition f1r_SETV : I := setYieldBefore (addImplicitOp (Fixed R11) in_ (inst (
  onEventable 0 (fun t e =>
    a ← op 1; target ← sys (thread_toPc t a); ok ← sys (CHECK_PC t target);
    if ok : bool then sys (setVector e t target) else unexpected)))).
(** utils/instgen/InstructionGen.cpp:2971-2977 SETEV_1r *)
Definition f1r_SETEV : I := setYieldBefore (addImplicitOp (Fixed R11) in_ (inst (
  onEventable 0 (fun t e => v ← op 1; sys (setEV e t v))))).
(** utils/instgen/InstructionGen.cpp:2978-2984 EDU_1r *)
Definition f1r_EDU : I := setYieldBefore (inst (onEventable 0 (enableIf false))).
(** utils/instgen/InstructionGen.cpp:2985-2991 EEU_1r *)
Definition f1r_EEU : I := setCanEvent (setYieldBefore (inst (onEventable 0 (enableIf true)))).
Definition waitEvents : X P unit := t ← self; _ ← sys (enableEvents t); Exec.deschedule.
(** utils/instgen/InstructionGen.cpp:2992-2996 WAITET_1r *)
Definition f1r_WAITET : I := setCanEvent (setYieldBefore (inst (v ← op 0; whenX (nonzero v) waitEvents))).
(** utils/instgen/InstructionGen.cpp:2997-3001 WAITEF_1r *)
Definition f1r_WAITEF : I := setCanEvent (setYieldBefore (inst (v ← op 0; whenX (zero v) waitEvents))).
(** utils/instgen/InstructionGen.cpp:3119-3121 WAITEU_0r *)
Definition f0r_WAITEU : I := setCanEvent (setYieldBefore (inst waitEvents)).
(** utils/instgen/InstructionGen.cpp:3118-3118 CLRE_0r *)
Definition f0r_CLRE : I := setYieldBefore (inst (t ← self; sys (clre t))).

(** ** Ports *)

Definition portReq (p : EventableRef) (o : PortOp) : X P (ResOpResult * Z) :=
  t ← self; time ← TIME; sys (port_op p t time o).

(** utils/instgen/InstructionGen.cpp:2057-2071 OUTPW_l2rus *)
Definition fl2rus_OUTPW : I := setYieldBefore (inst (
  withResource checkPort 1 (fun p =>
    id ← op 1; v ← op 0; w ← op 2; r ← portReq p (POutpw v w);
    onResult r.1 (OnEventable p) (illegalResource id) (mret tt)))).
(** utils/instgen/InstructionGen.cpp:2072-2088 INPW_l2rus *)
Definition fl2rus_INPW : I := setYieldBefore (inst (
  withResource checkPort 1 (fun p =>
    id ← op 1; w ← op 2; r ← portReq p (PInpw w);
    onResult r.1 (OnEventable p) (illegalResource id) (setOp 0 r.2)))).
(** utils/instgen/InstructionGen.cpp:2471-2478 PEEK_2r *)
Definition f2r_PEEK : I := setYieldBefore (inst (
  withResource checkPort 1 (fun p => r ← portReq p PPeek; setOp 0 r.2))).
(** utils/instgen/InstructionGen.cpp:2479-2494 ENDIN_2r *)
Definition f2r_ENDIN : I := setYieldBefore (inst (
  withResource checkPort 1 (fun p =>
    id ← op 1; r ← portReq p PEndin;
    match r.1 with CONTINUE => setOp 0 r.2 | ILLEGAL => illegalResource id | DESCHEDULE => unexpected end))).
(** utils/instgen/InstructionGen.cpp:2495-2510 SETPSC_2r *)
Definition f2r_SETPSC : I := setYieldBefore (inst (
  withResource checkPort 1 (fun p =>
    id ← op 1; v ← op 0; r ← portReq p (PSetpsc v);
    onResult r.1 (OnEventable p) (illegalResource id) (mret tt)))).
(** utils/instgen/InstructionGen.cpp:2551-2555 SETTW_l2r *)
Definition fl2r_SETTW : I := setYieldBefore (inst (
  withResource checkPort 1 (fun p =>
    id ← op 1; v ← op 0; r ← portReq p (PSetTransferWidth v);
    match r.1 with CONTINUE => mret tt | _ => illegalResource id end))).
(** utils/instgen/InstructionGen.cpp:2826-2845 INSHR_2r *)
Definition f2r_INSHR : I := setYieldBefore (inst (
  withResource checkPort 1 (fun p =>
    r ← portReq p PIn;
    onResult r.1 (OnEventable p) unexpected
      (w ← portReq p PGetTransferWidth; n ← sys (lift (shift_count w.2)); m ← sys (lift (shift_count (u32 (32 - w.2))));
       a ← op 0; setOp 0 ((a .>> n) .| (r.2 .<< m)))))).
(** utils/instgen/InstructionGen.cpp:2846-2861 OUTSHR_2r *)
Definition f2r_OUTSHR : I := setYieldBefore (inst (
  withResource checkPort 1 (fun p =>
    a ← op 0; r ← portReq p (POut a);
    onResult r.1 (OnEventable p) unexpected
      (w ← portReq p PGetTransferWidth; n ← sys (lift (shift_count w.2)); setOp 0 (a .>> n))))).
(** utils/instgen/InstructionGen.cpp:2862-2868 GETTS_2r *)
Definition f2r_GETTS : I := setYieldBefore (inst (
  withResource checkPort 1 (fun p => r ← portReq p PGetTimestamp; setOp 0 r.2))).
(** utils/instgen/InstructionGen.cpp:2869-2882 SETPT_2r *)
Definition f2r_SETPT : I := setYieldBefore (inst (
  withResource checkPort 1 (fun p =>
    v ← op 0; r ← portReq p (PSetPortTime v); onResult r.1 (OnEventable p) unexpected (mret tt)))).
(** utils/instgen/InstructionGen.cpp:3002-3015 SYNCR_1r *)
Definition f1r_SYNCR : I := setYieldBefore (inst (
  withResource checkPort 0 (fun p => r ← portReq p PSync; onResult r.1 (OnEventable p) unexpected (mret tt)))).
(** utils/instgen/InstructionGen.cpp:3016-3022 CLRPT_1r *)
Definition f1r_CLRPT : I := setYieldBefore (inst (
  withResource checkPort 0 (fun p => _ ← portReq p PClearPortTime; mret tt))).
End instructions.
