(* ===== verification/Execute.v ===== *)
(** * The interpreter (lib/Thread.cpp)

    The table from opcodes to functions, the functions that are written by hand, and the loop that
    executes the instructions of a thread until it gives up the processor. *)

From Stdlib Require Import ZArith Lia.
From stdpp Require Import base list numbers option gmap.
From S2P Require Import Prelude BitManip Opcode InstrDecode DecodeCache InstrTransform Core.
From S2P Require Import Refs Resource Node RunnableQueue StateMonad Thread SysState Events Sync EventEnable.
From S2P Require Import Exec InstrData InstrControl ResourceOps InstrResource.

#[local] Open Scope Z_scope.
#[local] Open Scope cbits_scope.

Section execute.
Context {P : Type} `{PortEvents P} `{PortOps P} `{Jit P}.
Abbreviation MS := (M (Sys P)).
(** The contents of an [Operands] that is not initialised. *)
Context (junk : Operands).

(** lib/Thread.cpp:539-545 opcodeMap: the declarations of the generated functions; [None] for the functions written by hand and for the instructions that are not implemented, which abort *)
Definition declaration (o : InstructionOpcode) : option (Exec.Inst P) :=
  match o with
  | ADD_3r => Some f3r_ADD
  | ADD_2rus => Some f2rus_ADD
  | ADD_mov_2rus => Some f2rus_ADD_mov
  | SUB_3r => Some f3r_SUB
  | SUB_2rus => Some f2rus_SUB
  | EQ_3r => Some f3r_EQ
  | EQ_2rus => Some f2rus_EQ
  | LSS_3r => Some f3r_LSS
  | LSU_3r => Some f3r_LSU
  | AND_3r => Some f3r_AND
  | OR_3r => Some f3r_OR
  | SHL_3r => Some f3r_SHL
  | SHL_2rus => Some f2rus_SHL
  | SHL_32_2rus => Some f2rus_SHL_32
  | SHR_3r => Some f3r_SHR
  | SHR_2rus => Some f2rus_SHR
  | SHR_32_2rus => Some f2rus_SHR_32
  | LDW_3r => Some f3r_LDW
  | LDW_2rus => Some f2rus_LDW
  | LD16S_3r => Some f3r_LD16S
  | LD8U_3r => Some f3r_LD8U
  | STW_2rus => Some f2rus_STW
  | TSETR_3r => Some inst_TSETR_3r
  | TSETR_l3r => Some inst_TSETR_l3r
  | LSATS_l3r => Some fl3r_LSATS
  | LDAWF_l3r => Some fl3r_LDAWF
  | LDAWF_l2rus => Some fl2rus_LDAWF
  | LDAWB_l3r => Some fl3r_LDAWB
  | LDAWB_l2rus => Some fl2rus_LDAWB
  | LDA16F_l3r => Some fl3r_LDA16F
  | LDA16B_l3r => Some fl3r_LDA16B
  | STW_l3r => Some fl3r_STW
  | ST16_l3r => Some fl3r_ST16
  | ST8_l3r => Some fl3r_ST8
  | MUL_l3r => Some fl3r_MUL
  | DIVS_l3r => Some fl3r_DIVS
  | DIVU_l3r => Some fl3r_DIVU
  | REMS_l3r => Some fl3r_REMS
  | REMU_l3r => Some fl3r_REMU
  | XOR_l3r => Some fl3r_XOR
  | ASHR_l3r => Some fl3r_ASHR
  | ASHR_l2rus => Some fl2rus_ASHR
  | ASHR_32_l2rus => Some fl2rus_ASHR_32
  | UNZIP_l2rus => Some fl2rus_UNZIP
  | ZIP_l2rus => Some fl2rus_ZIP
  | OUTPW_l2rus => Some fl2rus_OUTPW
  | INPW_l2rus => Some fl2rus_INPW
  | CRC_l3r => Some fl3r_CRC
  | LDD_l4r => Some fl4r_LDD
  | LDD_l3rus => Some fl3rus_LDD
  | LDDSP_l2rus => Some fl2rus_LDDSP
  | STD_l4r => Some fl4r_STD
  | STD_l3rus => Some fl3rus_STD
  | STDSP_l2rus => Some fl2rus_STDSP
  | MACCU_l4r => Some fl4r_MACCU
  | MACCS_l4r => Some fl4r_MACCS
  | CRC8_l4r => Some fl4r_CRC8
  | XOR4_l5r => Some fl5r_XOR4
  | LADD_l5r => Some fl5r_LADD
  | LSUB_l5r => Some fl5r_LSUB
  | LEXTRACT_l4rus => Some fl4rus_LEXTRACT
  | LDIVU_l5r => Some fl5r_LDIVU
  | LMUL_l6r => Some fl6r_LMUL
  | LDAWDP_ru6 | LDAWDP_lru6 => Some fru6_LDAWDP
  | LDWDP_ru6 | LDWDP_lru6 => Some fru6_LDWDP
  | LDWCP_ru6 | LDWCP_lru6 => Some fru6_LDWCP
  | LDWSP_ru6 | LDWSP_lru6 => Some fru6_LDWSP
  | STWDP_ru6 | STWDP_lru6 => Some fru6_STWDP
  | STWSP_ru6 | STWSP_lru6 => Some fru6_STWSP
  | LDAWSP_ru6 | LDAWSP_lru6 => Some fru6_LDAWSP
  | LDC_ru6 | LDC_lru6 => Some fru6_LDC
  | BRFT_ru6 | BRFT_lru6 => Some fru6_BRFT
  | BRFT_illegal_ru6 | BRFT_illegal_lru6 => Some fru6_BRFT_illegal
  | BRBT_ru6 | BRBT_lru6 => Some fru6_BRBT
  | BRBT_illegal_ru6 | BRBT_illegal_lru6 => Some fru6_BRBT_illegal
  | BRFF_ru6 | BRFF_lru6 => Some fru6_BRFF
  | BRFF_illegal_ru6 | BRFF_illegal_lru6 => Some fru6_BRFF_illegal
  | BRBF_ru6 | BRBF_lru6 => Some fru6_BRBF
  | BRBF_illegal_ru6 | BRBF_illegal_lru6 => Some fru6_BRBF_illegal
  | SETC_ru6 | SETC_lru6 => Some fru6_SETC
  | EXTSP_u6 | EXTSP_lu6 => Some fu6_EXTSP
  | EXTDP_u6 | EXTDP_lu6 => Some fu6_EXTDP
  | ENTSP_u6 | ENTSP_lu6 => Some fu6_ENTSP
  | DUALENTSP_u6 | DUALENTSP_lu6 => Some fu6_DUALENTSP
  | RETSP_u6 | RETSP_lu6 => Some fu6_RETSP
  | RETSP_xs2a_u6 | RETSP_xs2a_lu6 => Some fu6_RETSP_xs2a
  | KRESTSP_u6 | KRESTSP_lu6 => Some fu6_KRESTSP
  | KENTSP_u6 | KENTSP_lu6 => Some fu6_KENTSP
  | BRFU_u6 | BRFU_lu6 => Some fu6_BRFU
  | BRFU_illegal_u6 | BRFU_illegal_lu6 => Some fu6_BRFU_illegal
  | BRBU_u6 | BRBU_lu6 => Some fu6_BRBU
  | BRBU_illegal_u6 | BRBU_illegal_lu6 => Some fu6_BRBU_illegal
  | LDAWCP_u6 | LDAWCP_lu6 => Some fu6_LDAWCP
  | SETSR_u6 | SETSR_lu6 => Some fu6_SETSR
  | CLRSR_u6 | CLRSR_lu6 => Some fu6_CLRSR
  | BLAT_u6 | BLAT_lu6 => Some fu6_BLAT
  | KCALL_u6 | KCALL_lu6 => Some fu6_KCALL
  | GETSR_u6 | GETSR_lu6 => Some fu6_GETSR
  | LDWCPL_u10 | LDWCPL_lu10 => Some fu10_LDWCPL
  | LDAPF_u10 | LDAPF_lu10 => Some fu10_LDAPF
  | LDAPB_u10 | LDAPB_lu10 => Some fu10_LDAPB
  | BLRF_u10 | BLRF_lu10 => Some fu10_BLRF
  | BLRF_illegal_u10 | BLRF_illegal_lu10 => Some fu10_BLRF_illegal
  | BLRB_u10 | BLRB_lu10 => Some fu10_BLRB
  | BLRB_illegal_u10 | BLRB_illegal_lu10 => Some fu10_BLRB_illegal
  | BLACP_u10 | BLACP_lu10 => Some fu10_BLACP
  | NOT_2r => Some f2r_NOT
  | NEG_2r => Some f2r_NEG
  | SEXT_rus => Some frus_SEXT
  | SEXT_2r => Some f2r_SEXT
  | ZEXT_rus => Some frus_ZEXT
  | ZEXT_2r => Some f2r_ZEXT
  | ANDNOT_2r => Some f2r_ANDNOT
  | MKMSK_2r => Some f2r_MKMSK
  | MKMSK_rus => Some frus_MKMSK
  | GETR_rus => Some frus_GETR
  | GETST_2r => Some f2r_GETST
  | PEEK_2r => Some f2r_PEEK
  | ENDIN_2r => Some f2r_ENDIN
  | SETPSC_2r => Some f2r_SETPSC
  | BITREV_2r => Some f2r_BITREV
  | BITREV_l2r => Some fl2r_BITREV
  | BYTEREV_2r => Some f2r_BYTEREV
  | BYTEREV_l2r => Some fl2r_BYTEREV
  | CLZ_2r => Some f2r_CLZ
  | CLZ_l2r => Some fl2r_CLZ
  | TINITLR_l2r => Some fl2r_TINITLR
  | GETD_l2r => Some fl2r_GETD
  | GETPS_l2r => Some fl2r_GETPS
  | SETPS_l2r => Some fl2r_SETPS
  | SETC_l2r => Some fl2r_SETC
  | SETCLK_l2r => Some fl2r_SETCLK
  | SETTW_l2r => Some fl2r_SETTW
  | SETRDY_l2r => Some fl2r_SETRDY
  | IN_2r => Some f2r_IN
  | OUT_2r => Some f2r_OUT
  | TINITPC_2r => Some f2r_TINITPC
  | TINITPC_l2r => Some fl2r_TINITPC
  | TINITDP_2r => Some f2r_TINITDP
  | TINITSP_l2r => Some fl2r_TINITSP
  | TINITSP_2r => Some f2r_TINITSP
  | TINITCP_2r => Some f2r_TINITCP
  | SETD_2r => Some f2r_SETD
  | OUTCT_2r => Some f2r_OUTCT
  | OUTCT_rus => Some frus_OUTCT
  | OUTT_2r => Some f2r_OUTT
  | INT_2r => Some f2r_INT
  | INCT_2r => Some f2r_INCT
  | CHKCT_2r => Some f2r_CHKCT
  | CHKCT_rus => Some frus_CHKCT
  | TESTCT_2r => Some f2r_TESTCT
  | TESTWCT_2r => Some f2r_TESTWCT
  | EET_2r => Some f2r_EET
  | EEF_2r => Some f2r_EEF
  | INSHR_2r => Some f2r_INSHR
  | OUTSHR_2r => Some f2r_OUTSHR
  | GETTS_2r => Some f2r_GETTS
  | SETPT_2r => Some f2r_SETPT
  | GETTIME_1r => Some f1r_GETTIME
  | SETSP_1r => Some f1r_SETSP
  | SETDP_1r => Some f1r_SETDP
  | SETCP_1r => Some f1r_SETCP
  | ECALLT_1r => Some f1r_ECALLT
  | ECALLF_1r => Some f1r_ECALLF
  | BAU_1r => Some f1r_BAU
  | BLA_1r => Some f1r_BLA
  | BRU_1r => Some f1r_BRU
  | TSTART_1r => Some f1r_TSTART
  | KCALL_1r => Some f1r_KCALL
  | FREER_1r => Some f1r_FREER
  | MSYNC_1r => Some f1r_MSYNC
  | MJOIN_1r => Some f1r_MJOIN
  | SETV_1r => Some f1r_SETV
  | SETEV_1r => Some f1r_SETEV
  | EDU_1r => Some f1r_EDU
  | EEU_1r => Some f1r_EEU
  | WAITET_1r => Some f1r_WAITET
  | WAITEF_1r => Some f1r_WAITEF
  | SYNCR_1r => Some f1r_SYNCR
  | CLRPT_1r => Some f1r_CLRPT
  | NOP_0r => Some f0r_NOP
  | GETID_0r => Some f0r_GETID
  | GETET_0r => Some f0r_GETET
  | GETED_0r => Some f0r_GETED
  | GETKEP_0r => Some f0r_GETKEP
  | GETKSP_0r => Some f0r_GETKSP
  | SETKEP_0r => Some f0r_SETKEP
  | KRET_0r => Some f0r_KRET
  | KRET_l0r => Some fl0r_KRET
  | LDSPC_0r => Some f0r_LDSPC
  | LDSSR_0r => Some f0r_LDSSR
  | LDSED_0r => Some f0r_LDSED
  | LDET_0r => Some f0r_LDET
  | STSPC_0r => Some f0r_STSPC
  | STSSR_0r => Some f0r_STSSR
  | STSED_0r => Some f0r_STSED
  | STET_0r => Some f0r_STET
  | FREET_0r => Some f0r_FREET
  | CLRE_0r => Some f0r_CLRE
  | WAITEU_0r => Some f0r_WAITEU
  | SSYNC_0r => Some f0r_SSYNC
  | ILLEGAL_PC => Some pseudo_ILLEGAL_PC
  | ILLEGAL_PC_THREAD => Some pseudo_ILLEGAL_PC_THREAD
  | ILLEGAL_INSTRUCTION => Some pseudo_ILLEGAL_INSTRUCTION
  | CRCN_l4r | TESTLCL_l2r | SETN_l2r | GETN_l2r | ELATE_1r | DGETREG_1r | DRESTSP_0r | DCALL_0r
  | DRET_0r | DENTSP_0r => None
  | TSETMR_2r | BREAKPOINT | RUN_JIT | INTERPRET_ONE | DECODE => None
  end.

(** lib/Thread.cpp:496-514 Instruction_TSETMR_2r *)
Definition Instruction_TSETMR_2r (t : Ref) : MS ExecResult :=
  _ ← modThread t (fun th => if Thread.pc th mod 2 =? 0 then doPendingRegWrites th else th);
  _ ← modThread t (fun th => Thread.set_time (u64 (Thread.time th + 4)) th);
  th ← thread t;
  reg ← OP_ t 0; src ← OP_ t 1;
  v ← lift (array_get (Thread.regs th) src);
  _ ← match Thread.sync th with
      | Some y => y ← synchroniser y; m ← lift (master y); writeReg m reg v
      | None => writeReg t reg v
      end;
  _ ← modThread t (fun th => set_pc (u32 (Thread.pc th + 1)) th);
  mret (Returned INST_CONTINUE).

(** lib/Thread.cpp:516-520 Instruction_RUN_JIT *)
Definition Instruction_RUN_JIT (t : Ref) : MS ExecResult :=
  th ← thread t;
  _ ← runJIT t.1 (pendingPc th);
  _ ← modThread t (fun th => set_pc (pendingPc th) th);
  mret (Returned END_TRACE).

(** lib/Thread.cpp:522-530 Instruction_BREAKPOINT *)
Definition Instruction_BREAKPOINT (t : Ref) : MS ExecResult :=
  c ← core t.1;
  _ ← modThread t (fun th => set_waiting true (set_pc (getInterpretOneAddr (ramDecodeCache c)) (set_pendingPc (Thread.pc th) th)));
  _ ← schedule t;
  mret (Threw BreakpointException).

(** A function that may be the result of decoding a word of memory. *)
Definition decodedFunction (tracing : bool) (t : Ref) (o : InstructionOpcode) : MS ExecResult :=
  match o with
  | TSETMR_2r => Instruction_TSETMR_2r t
  | _ => d ← lift (declaration o); instFunction tracing t o d
  end.

(** [decodeCache.operands[pc] = ops], in the cache of the RAM or of the ROM *)
Definition putOperands (ram : bool) (c : CoreRef) (pc : Z) (ops : Operands) : MS unit :=
  let upd k := l ← array_set (operands k) pc ops;
    Some (mkState (opcode k) l (executionFrequency k) (invalidationInfo k) (sizeShorts k) (base k) (tracingEnabled k)) in
  if ram then x ← core c; k ← lift (upd (ramDecodeCache x)); putCore c (set_ramDecodeCache k x)
  else s ← get; k ← lift (upd (romDecodeCache s)); modify (set_romDecodeCache k).

(** lib/Thread.cpp:574-586 Thread::interpretOne *)
Definition interpretOne (t : Ref) : MS ExecResult :=
  th ← thread t; r ← decodeCache t; k ← cacheState t;
  oldOps ← lift (array_get (operands k) (Thread.pc th));
  address ← thread_fromPc t (Thread.pc th);
  c ← core t.1; type ← nodeType t.1; s ← get;
  d ← lift (decodeFromCore type c address (fresh_state oldOps) true);
  opc ← lift (d_opcode d);
  kc ← lift (getDecodeCacheContaining (romDecodeCache s) c address);
  let '(opc, ops) := instructionTransform opc (d_operands d) kc address (dualIssue th) in
  _ ← putOperands (ref_ram r) t.1 (Thread.pc th) ops;
  x ← decodedFunction (ref_tracing r) t opc;
  match x with
  | Returned retval => _ ← putOperands (ref_ram r) t.1 (Thread.pc th) oldOps; mret (Returned retval)
  | Threw e => mret (Threw e)
  end.

(** lib/Thread.cpp:532-535 Instruction_INTERPRET_ONE *)
Definition Instruction_INTERPRET_ONE (t : Ref) : MS ExecResult :=
  _ ← modThread t (fun th => set_pc (pendingPc th) th); interpretOne t.

(** lib/Thread.cpp:555-564 Instruction_DECODE *)
Definition Instruction_DECODE (tracing : bool) (t : Ref) : MS ExecResult :=
  th ← thread t; r ← decodeCache t; c ← core t.1; type ← nodeType t.1; s ← get;
  '(c, k) ← lift (Core.Instruction_DECODE tracing (dualIssue th) (ref_ram r) type junk (Thread.pc th) c (romDecodeCache s));
  _ ← putCore t.1 c; _ ← modify (set_romDecodeCache k);
  mret (Returned END_TRACE).

(** [( *opcode)(thread)] *)
Definition callOpcode (f : OPCODE_TYPE) (t : Ref) : MS ExecResult :=
  match f with
  | JitFunction id => runCompiled id t
  | DecodeCache.Inst o tracing =>
      match o with
      | DECODE => Instruction_DECODE tracing t
      | RUN_JIT => Instruction_RUN_JIT t
      | BREAKPOINT => Instruction_BREAKPOINT t
      | INTERPRET_ONE => Instruction_INTERPRET_ONE t
      | _ => decodedFunction tracing t o
      end
  end.

Inductive RunResult := Stopped | RunThrew (e : Thrown) | OutOfFuel.

(** lib/Thread.cpp:626-631 Thread::run: the loop *)
Fixpoint run_loop (fuel : nat) (t : Ref) : MS RunResult :=
  match fuel with
  | O => mret OutOfFuel
  | S fuel =>
      th ← thread t; k ← cacheState t;
      f ← lift (array_get (opcode k) (Thread.pc th));
      r ← callOpcode f t;
      match r with
      | Threw e => mret (RunThrew e)
      | Returned END_THREAD_EXECUTION => mret Stopped
      | Returned _ => run_loop fuel t
      end
  end.

(** lib/Thread.cpp:621-632 Thread::run *)
Definition thread_run (fuel : nat) (t : Ref) : MS RunResult :=
  _ ← modThread t (fun th => if Thread.time th =? 0 then Thread.set_time 1 th else th);
  run_loop fuel t.

(** lib/Thread.cpp:588-605 Thread::singleStep *)
Definition singleStep (t : Ref) : MS ExecResult :=
  c ← core t.1;
  _ ← modThread t (fun th =>
        if (Thread.pc th =? getInterpretOneAddr (ramDecodeCache c)) || (Thread.pc th =? getRunJitAddr (ramDecodeCache c))
        then set_pc (pendingPc th) th else th);
  k ← interpretOne t;
  match k with
  | Threw e => mret (Threw e)
  | Returned r =>
      _ ← Events.deschedule t;
      _ ← match r with END_THREAD_EXECUTION => mret tt | _ => schedule t end;
      mret (Returned r)
  end.
End execute.
