(* ===== verification/DataFacts.v ===== *)
(** * What the data instructions compute

    The code of a data instruction neither reads nor changes the system: it maps operands to
    operands.  Arithmetic on pairs of words, division, saturation, and the two permutations of bits
    [zip] and [unzip]. *)

From Stdlib Require Import ZArith Lia.
From stdpp Require Import base list numbers option gmap.
From S2P Require Import Prelude Signed BitManip Opcode Core.
From S2P Require Import Refs Resource StateMonad Thread SysState Events SysFacts Exec InstrData.

#[local] Open Scope Z_scope.
#[local] Open Scope cbits_scope.

Section computes.
Context {P : Type} `{PortEvents P}.

(** The code falls through, having mapped [ops] to [ops'], and changes nothing else. *)
Definition computes (c : X P unit) (ops ops' : list (option Z)) : Prop :=
  forall f s, f_ops f = ops ->
    c f s = Some (s, (setLocals f ops' (f_nextPc f) (f_retval f) (f_watchpoint f), Next tt)).

(** The code raises an exception with these operands. *)
Definition raises (c : X P unit) (ops : list (option Z)) (et : ExceptionType) (ed : Z) : Prop :=
  forall f s, f_ops f = ops -> c f s = raise et ed f s.

(** The code does not fall through. *)
Definition stops {A} (c : X P A) : Prop := forall f s s' f' o, c f s = Some (s', (f', o)) -> forall a, o <> Next a.

Lemma stops_ret r : stops (ret r).
Proof. intros f s s' f' o [= <- <- <-] a. done. Qed.
Lemma stops_bind {A B} (m : X P A) (k : A -> X P B) : (forall a, stops (k a)) -> stops (m ≫= k).
Proof.
  intros Hk f s s' f' o E b. unfold mbind, X_bind, M_bind in E. unfold mbind in E. cbn in E.
  destruct (m f s) as [[s1 [f1 [a| |r]]]|]; cbn in E; [by eapply Hk | | |]; try done; by injection E as <- <- <-.
Qed.
(** What follows code that does not fall through is not run. *)
Lemma bind_stops (c : X P unit) (k : unit -> X P unit) f s : stops c -> (c ≫= k) f s = c f s.
Proof.
  intros Hc. unfold mbind, X_bind, M_bind. unfold mbind. cbn. specialize (Hc f s).
  destruct (c f s) as [[s1 [f1 [a| |r]]]|]; cbn; [| done..]. by destruct (Hc _ _ _ eq_refl a).
Qed.
Lemma raise_stops et ed : stops (raise et ed).
Proof. unfold raise. do 6 (apply stops_bind; intros ?). apply stops_ret. Qed.

Lemma computes_intro c ops ops' :
  (forall t cy ce np rv w s, c (mkFrame t cy ce ops np rv w) s = Some (s, (mkFrame t cy ce ops' np rv w, Next tt))) ->
  computes c ops ops'.
Proof. intros Hc [t cy ce o np rv w] s E. cbn in E. subst o. apply Hc. Qed.
End computes.

Lemma raises_intro {P} `{PortEvents P} (c : X P unit) ops et ed :
  (forall f s, f_ops f = ops -> exists k, c f s = (raise et ed ≫= k) f s) -> raises c ops et ed.
Proof. intros Hc f s E. destruct (Hc f s E) as [k ->]. apply bind_stops, raise_stops. Qed.

(** Run the code of an instruction up to the next condition on its operands. *)
Ltac xrun :=
  cbv beta iota zeta delta [code setCycles setYieldBefore setCanEvent addImplicitOp inst mbind X_bind M_bind mret X_ret M_ret
    op setOp setLocals sys lift whenX require f_ops f_nextPc f_retval f_watchpoint f_self f_cycles f_canEvent
    lookup list_lookup option_bind length insert list_insert implicitOps i_cycles yieldBefore canEvent writesPc].

(** ** Pairs of words *)

(** The 64-bit value of two words. *)
Definition word2 (h l : Z) : Z := 2 ^ 32 * h + l.

Lemma word2_split x : is_u64 x -> word2 (u32 (x .>> 32)) (u32 x) = x.
Proof.
  intros Hx. unfold word2, wrap. rewrite Z.shiftr_div_pow2 by lia.
  rewrite (Z.mod_small (x / 2 ^ 32)); [symmetry; apply Z.div_mod; lia |].
  split; [apply Z.div_pos; unfold fits in Hx; lia | apply Z.div_lt_upper_bound; unfold fits in Hx; lia].
Qed.
Lemma u64_fits x : is_u64 (u64 x).
Proof. apply Z.mod_pos_bound. lia. Qed.
Lemma u32_fits x : is_u32 (u32 x).
Proof. apply Z.mod_pos_bound. lia. Qed.

Lemma lor_word2 h l : is_u32 h -> is_u32 l -> Z.shiftl h 32 .| l = word2 h l.
Proof.
  intros Hh Hl. assert (Z.shiftl h 32 .& l = 0) as H0.
  { apply Z.bits_inj'. intros i Hi. rewrite Z.land_spec, Z.bits_0. destruct (Z.ltb_spec i 32).
    - by rewrite Z.shiftl_spec_low.
    - rewrite (fits_testbit_high 32 l) by (done || lia). apply andb_false_r. }
  rewrite <- Z.lxor_lor, <- Z.add_nocarry_lxor by done. unfold word2. rewrite Z.shiftl_mul_pow2 by lia. lia.
Qed.

Section long.
Context {P : Type} `{PortEvents P}.
Context (a b c d : Z) (Ha : is_u32 a) (Hb : is_u32 b) (Hc : is_u32 c) (Hd : is_u32 d) (x y : option Z).

Lemma land1 z : z .& 1 = z mod 2.
Proof. change 1 with (Z.ones 1). rewrite Z.land_ones by lia. done. Qed.

(** The sum of two words and a carry. *)
Lemma ladd_computes : exists lo hi, is_u32 lo /\ is_u32 hi /\ word2 hi lo = a + b + c mod 2 /\
  computes (P := P) (code fl5r_LADD) [x; Some a; Some b; y; Some c] [Some lo; Some a; Some b; Some hi; Some c].
Proof.
  exists (u32 (u64 (a + b + (c .& 1)))), (u32 (u64 (a + b + (c .& 1)) .>> 32)).
  split; [apply u32_fits |]. split; [apply u32_fits |]. split.
  - rewrite word2_split by apply u64_fits. rewrite land1. unfold wrap. apply Z.mod_small.
    unfold fits in *. pose proof (Z.mod_pos_bound c 2). lia.
  - apply computes_intro. reflexivity.
Qed.

(** The difference of two words and a borrow. *)
Lemma lsub_computes : exists lo hi, is_u32 lo /\ 0 <= hi <= 1 /\ lo - 2 ^ 32 * hi = a - b - c mod 2 /\
  computes (P := P) (code fl5r_LSUB) [x; Some a; Some b; y; Some c] [Some lo; Some a; Some b; Some hi; Some c].
Proof.
  set (r := a - b - (c .& 1)).
  assert (u32 (u64 r .>> 32) .& 1 = ((r mod 2 ^ 64 / 2 ^ 32) mod 2 ^ 32) mod 2) as Hhi
    by (rewrite land1; unfold wrap; by rewrite Z.shiftr_div_pow2).
  exists (u32 (u64 r)), (u32 (u64 r .>> 32) .& 1). split; [apply u32_fits |].
  split; [rewrite Hhi; pose proof (Z.mod_pos_bound ((r mod 2 ^ 64 / 2 ^ 32) mod 2 ^ 32) 2); lia |].
  split; [| apply computes_intro; reflexivity].
  pose proof (Z.mod_pos_bound c 2 ltac:(lia)). rewrite Hhi. unfold wrap.
  assert (- 2 ^ 32 <= r < 2 ^ 32) by (unfold r; rewrite land1; unfold fits in *; lia).
  transitivity r; [| unfold r; by rewrite land1].
  rewrite (Z.mod_mod_divide r (2 ^ 64) (2 ^ 32)) by (exists (2 ^ 32); reflexivity).
  destruct (Z.ltb_spec r 0).
  - replace (r mod 2 ^ 64) with (r + 2 ^ 64) by (symmetry; rewrite <- (Z.mod_add _ 1) by lia; apply Z.mod_small; lia).
    replace ((r + 2 ^ 64) / 2 ^ 32) with (2 ^ 32 - 1) by (apply Z.div_unique with (r + 2 ^ 32); lia).
    replace (r mod 2 ^ 32) with (r + 2 ^ 32) by (symmetry; rewrite <- (Z.mod_add _ 1) by lia; apply Z.mod_small; lia).
    change (((2 ^ 32 - 1) mod 2 ^ 32) mod 2) with 1. lia.
  - rewrite !(Z.mod_small r) by lia. rewrite (Z.div_small r) by lia. change ((0 mod 2 ^ 32) mod 2) with 0. lia.
Qed.

(** The product of two words plus two words. *)
Lemma lmul_computes : exists lo hi, is_u32 lo /\ is_u32 hi /\ word2 hi lo = a * b + c + d /\
  computes (P := P) (code fl6r_LMUL) [x; Some a; Some b; y; Some c; Some d]
    [Some hi; Some a; Some b; Some lo; Some c; Some d].
Proof.
  exists (u32 (u64 (u64 (a * b) + c + d))), (u32 (u64 (u64 (a * b) + c + d) .>> 32)).
  split; [apply u32_fits |]. split; [apply u32_fits |]. split.
  - rewrite word2_split by apply u64_fits. unfold wrap. rewrite !Z.mod_small; unfold fits in *; try nia.
    rewrite Z.mod_small; nia.
  - apply computes_intro. reflexivity.
Qed.

(** Multiply and accumulate: modulo 2^64, unsigned and signed. *)
Lemma maccu_computes : exists lo hi, is_u32 lo /\ is_u32 hi /\ word2 hi lo = (word2 c d + a * b) mod 2 ^ 64 /\
  computes (P := P) (code fl4r_MACCU) [Some c; Some a; Some b; Some d] [Some hi; Some a; Some b; Some lo].
Proof.
  set (r := u64 ((Z.shiftl c 32 .| d) + a * b)). exists (u32 r), (u32 (r .>> 32)).
  split; [apply u32_fits |]. split; [apply u32_fits |]. split.
  - rewrite word2_split by apply u64_fits. unfold r. by rewrite lor_word2.
  - apply computes_intro. reflexivity.
Qed.
Lemma maccs_computes : exists lo hi, is_u32 lo /\ is_u32 hi /\ word2 hi lo = (word2 c d + s32 a * s32 b) mod 2 ^ 64 /\
  computes (P := P) (code fl4r_MACCS) [Some c; Some a; Some b; Some d] [Some hi; Some a; Some b; Some lo].
Proof.
  set (r := u64 (u64 (Z.shiftl c 32 .| d) + s32 a * s32 b)). exists (u32 r), (u32 (r .>> 32)).
  split; [apply u32_fits |]. split; [apply u32_fits |]. split.
  - rewrite word2_split by apply u64_fits. unfold r. rewrite lor_word2 by done. unfold wrap. by rewrite Zplus_mod_idemp_l.
  - apply computes_intro. reflexivity.
Qed.

(** The quotient and the remainder of two words by one. *)
Lemma ldivu_computes : c < b -> exists q r, is_u32 q /\ 0 <= r < b /\ word2 c a = q * b + r /\
  computes (P := P) (code fl5r_LDIVU) [x; Some a; Some b; y; Some c] [Some q; Some a; Some b; Some r; Some c].
Proof.
  intros Hlt. set (n := word2 c a). exists (n / b), (n mod b).
  assert (is_u32 (n / b)) as Hq.
  { unfold n, word2, fits in *. split; [apply Z.div_pos; lia | apply Z.div_lt_upper_bound; [lia |]; nia]. }
  split; [done |]. split; [apply Z.mod_pos_bound; unfold fits in *; lia |].
  split; [rewrite Z.mul_comm; apply Z.div_mod; unfold fits in *; lia |].
  apply computes_intro. intros. unfold fl5r_LDIVU. xrun.
  rewrite (proj2 (Z.leb_gt b c)) by done.
  assert (u64 (a + Z.shiftl c 32) = n) as ->.
  { rewrite Z.shiftl_mul_pow2 by lia. unfold n, word2, wrap. rewrite Z.mod_small; unfold fits in *; lia. }
  assert (u32 (n / b) = n / b) as -> by (apply Z.mod_small; exact Hq).
  assert (u32 (n mod b) = n mod b) as -> by (apply Z.mod_small; pose proof (Z.mod_pos_bound n b); unfold fits in *; lia).
  reflexivity.
Qed.
Lemma ldivu_raises : b <= c -> raises (P := P) (code fl5r_LDIVU) [x; Some a; Some b; y; Some c] ET_ARITHMETIC 0.
Proof.
  intros Hle. apply raises_intro. intros [t cy ce o np rv w] s E. cbn in E. subst o. eexists.
  unfold fl5r_LDIVU. cbn [code setCycles inst].
  transitivity ((whenX (b <=? c) (raise ET_ARITHMETIC 0) ≫= fun _ =>
    _ ← setOp 0 (u32 (u64 (a + Z.shiftl c 32) / b)); setOp 3 (u32 (u64 (a + Z.shiftl c 32) mod b)))
    (mkFrame t cy ce [x; Some a; Some b; y; Some c] np rv w) s); [reflexivity |].
  rewrite (proj2 (Z.leb_le b c)) by done. reflexivity.
Qed.
End long.

(** ** Division *)

Section division.
Context {P : Type} `{PortEvents P}.
Context (a b : Z) (Ha : is_u32 a) (Hb : is_u32 b) (x : option Z).

(** The operands on which the signed instructions raise an exception. *)
Definition divs_overflow : Prop := b = 0 \/ s32 a = - 2 ^ 31 /\ s32 b = -1.

Lemma divs_test : (b =? 0) || (a =? 0x80000000) && (b =? 0xffffffff) = true <-> divs_overflow.
Proof.
  unfold divs_overflow. rewrite orb_true_iff, andb_true_iff, !Z.eqb_eq.
  destruct (signed_cases 32 a ltac:(lia) Ha) as [[? ->]|[? ->]], (signed_cases 32 b ltac:(lia) Hb) as [[? ->]|[? ->]];
    unfold fits in *; cbn in *; lia.
Qed.

Lemma s32_nonzero : b <> 0 -> s32 b <> 0.
Proof. destruct (signed_cases 32 b ltac:(lia) Hb) as [[? ->]|[? ->]]; unfold fits in *; lia. Qed.

(** The quotient of the signed values fits, but for one case. *)
Lemma quot_range : ~ divs_overflow -> - 2 ^ 31 <= Z.quot (s32 a) (s32 b) < 2 ^ 31.
Proof.
  intros Hno. unfold divs_overflow in Hno. pose proof (signed_range 32 a ltac:(lia)) as Hra. change (32 - 1) with 31 in Hra.
  assert (s32 b <> 0) as Hb0 by (apply s32_nonzero; tauto).
  pose proof (Z.quot_abs (s32 a) (s32 b) Hb0) as Habs.
  assert (Z.abs (Z.quot (s32 a) (s32 b)) <= Z.abs (s32 a)).
  { rewrite <- Habs. rewrite Z.quot_div_nonneg by lia. apply Z.div_le_upper_bound; [lia | nia]. }
  destruct (decide (Z.abs (s32 a) < 2 ^ 31)); [lia |].
  assert (s32 a = - 2 ^ 31) as Ea by lia. assert (s32 b <> -1) by tauto.
  destruct (decide (s32 b = 1)) as [Eb|]; [rewrite Eb, Ea, Z.quot_1_r; lia |].
  assert (Z.abs (Z.quot (s32 a) (s32 b)) < 2 ^ 31); [| lia].
  rewrite <- Habs, Z.quot_div_nonneg by lia. apply Z.div_lt_upper_bound; [lia | nia].
Qed.

Lemma rem_range : ~ divs_overflow -> - 2 ^ 31 <= Z.rem (s32 a) (s32 b) < 2 ^ 31.
Proof.
  intros Hno. unfold divs_overflow in Hno. assert (s32 b <> 0) as Hb0 by (apply s32_nonzero; tauto).
  pose proof (Z.rem_bound_abs (s32 a) (s32 b) Hb0). pose proof (signed_range 32 b ltac:(lia)) as Hr. change (32 - 1) with 31 in Hr. lia.
Qed.

(** With the condition of the exception false, resp. true. *)
Lemma guarded_computes (g : bool) v f s : g = false -> f_ops f = [x; Some a; Some b] ->
  (whenX g (raise (P := P) ET_ARITHMETIC 0) ≫= fun _ => setOp 0 v) f s =
  Some (s, (setLocals f [Some v; Some a; Some b] (f_nextPc f) (f_retval f) (f_watchpoint f), Next tt)).
Proof. intros -> E. destruct f; cbn in E; subst. reflexivity. Qed.
Lemma guarded_raises (g : bool) v f s : g = true ->
  (whenX g (raise (P := P) ET_ARITHMETIC 0) ≫= fun _ => setOp 0 v) f s = raise ET_ARITHMETIC 0 f s.
Proof. intros ->. apply bind_stops, raise_stops. Qed.

Abbreviation ins := [x; Some a; Some b].
Abbreviation outs v := [Some v; Some a; Some b].

Lemma guarded_code (c : X P unit) (g : bool) (v : Z) :
  (forall f s, f_ops f = ins -> c f s = (whenX g (raise ET_ARITHMETIC 0) ≫= fun _ => setOp 0 v) f s) ->
  (g = false -> computes c ins (outs v)) /\ (g = true -> raises c ins ET_ARITHMETIC 0).
Proof.
  intros Hc. split; intros Hg f s E; rewrite (Hc f s E); [by apply guarded_computes | by apply guarded_raises].
Qed.
Lemma divs_code : let g := (b =? 0) || (a =? 0x80000000) && (b =? 0xffffffff) in
  (g = false -> computes (P := P) (code fl3r_DIVS) ins (outs (u32 (Z.quot (s32 a) (s32 b))))) /\
  (g = true -> raises (P := P) (code fl3r_DIVS) ins ET_ARITHMETIC 0).
Proof. apply guarded_code. intros [] s E. cbn in E. subst. reflexivity. Qed.
Lemma rems_code : let g := (b =? 0) || (a =? 0x80000000) && (b =? 0xffffffff) in
  (g = false -> computes (P := P) (code fl3r_REMS) ins (outs (u32 (Z.rem (s32 a) (s32 b))))) /\
  (g = true -> raises (P := P) (code fl3r_REMS) ins ET_ARITHMETIC 0).
Proof. apply guarded_code. intros [] s E. cbn in E. subst. reflexivity. Qed.
Lemma divu_code : ((b =? 0) = false -> computes (P := P) (code fl3r_DIVU) ins (outs (a / b))) /\
  ((b =? 0) = true -> raises (P := P) (code fl3r_DIVU) ins ET_ARITHMETIC 0).
Proof. apply guarded_code. intros [] s E. cbn in E. subst. reflexivity. Qed.
Lemma remu_code : ((b =? 0) = false -> computes (P := P) (code fl3r_REMU) ins (outs (a mod b))) /\
  ((b =? 0) = true -> raises (P := P) (code fl3r_REMU) ins ET_ARITHMETIC 0).
Proof. apply guarded_code. intros [] s E. cbn in E. subst. reflexivity. Qed.
End division.

(** ** Saturation *)

Definition clamp (lo hi v : Z) : Z := Z.max lo (Z.min hi v).

(** The signed value of a pair of words. *)
Definition sword2 (h l : Z) : Z := 2 ^ 32 * s32 h + l.

Section lsats.
Context {P : Type} `{PortEvents P}.
Context (h l n : Z) (Hh : is_u32 h) (Hl : is_u32 l) (Hn : 0 < n < 32).

Lemma lsats_code h' l' :
  (let sign_word := s32 h .>> (n - 1) in
   if h .>> 31 .& 1 =? 1
   then if negb (sign_word =? -1) then h' = Z.lnot 0 .<< (n - 1) /\ l' = 0 else h' = h /\ l' = l
   else if negb (sign_word =? 0) then h' = u32 (Z.lnot (Z.shiftl (-1) (n - 1))) /\ l' = u32 (Z.lnot 0) else h' = h /\ l' = l) ->
  computes (P := P) (code fl3r_LSATS) [Some h; Some l; Some n] [Some h'; Some l'; Some n].
Proof.
  intros HQ. apply computes_intro. intros. unfold fl3r_LSATS. xrun.
  rewrite (proj2 (Z.ltb_lt 0 n)), (proj2 (Z.ltb_lt n 32)) by lia. cbn [andb]. cbv zeta in HQ.
  destruct (h .>> 31 .& 1 =? 1);
    [destruct (negb (s32 h .>> (n - 1) =? -1)) | destruct (negb (s32 h .>> (n - 1) =? 0))];
    destruct HQ as [-> ->]; reflexivity.
Qed.

Lemma sign_bit : (h .>> 31 .& 1 =? 1) = (s32 h <? 0).
Proof.
  rewrite land1, Z.shiftr_div_pow2 by lia.
  destruct (signed_cases 32 h ltac:(lia) Hh) as [[? ->]|[? ->]]; unfold fits in Hh; change (32 - 1) with 31 in *.
  - rewrite (Z.div_small h) by lia. symmetry. apply Z.ltb_ge. lia.
  - rewrite <- (Z.div_unique h (2 ^ 31) 1 (h - 2 ^ 31)) by lia. symmetry. apply Z.ltb_lt. lia.
Qed.

(** The pair is saturated to the signed range of 32 + n bits. *)
Lemma lsats_computes : exists h' l', is_u32 h' /\ is_u32 l' /\
  sword2 h' l' = clamp (- 2 ^ (31 + n)) (2 ^ (31 + n) - 1) (sword2 h l) /\
  computes (P := P) (code fl3r_LSATS) [Some h; Some l; Some n] [Some h'; Some l'; Some n].
Proof.
  pose proof (signed_range 32 h ltac:(lia)) as Hr. change (32 - 1) with 31 in Hr.
  assert (0 < 2 ^ (n - 1)) by (apply Z.pow_pos_nonneg; lia).
  assert (2 ^ (n - 1) <= 2 ^ 30) by (apply Z.pow_le_mono_r; lia).
  assert (2 ^ (31 + n) = 2 ^ 32 * 2 ^ (n - 1)) as Hp by (rewrite <- Z.pow_add_r by lia; f_equal; lia).
  assert (Z.lnot 0 .<< (n - 1) = u32 (- 2 ^ (n - 1))) as Eneg.
  { f_equal. change (Z.lnot 0) with (-1). rewrite Z.shiftl_mul_pow2 by lia. lia. }
  assert (Z.lnot (Z.shiftl (-1) (n - 1)) = 2 ^ (n - 1) - 1) as Epos.
  { rewrite Z.shiftl_mul_pow2 by lia. unfold Z.lnot. lia. }
  assert (s32 h .>> (n - 1) = s32 h / 2 ^ (n - 1)) as Esh by (apply Z.shiftr_div_pow2; lia).
  destruct (Z.ltb_spec (s32 h) 0) as [Hneg|Hpos].
  - destruct (decide (s32 h < - 2 ^ (n - 1))) as [Hs|Hs].
    + exists (u32 (- 2 ^ (n - 1))), 0. split; [apply u32_fits |]. split; [done |]. split.
      * unfold sword2, clamp. rewrite signed_wrap, (signed_small 32 (- 2 ^ (n - 1))) by lia.
        unfold fits in *. rewrite Hp. nia.
      * apply lsats_code. cbv zeta. rewrite sign_bit, (proj2 (Z.ltb_lt _ 0)) by lia.
        rewrite Esh, (proj2 (Z.eqb_neq _ (-1))); [by rewrite Eneg |].
        intros E. assert (s32 h / 2 ^ (n - 1) < -1); [| lia]. apply Z.div_lt_upper_bound; lia.
    + exists h, l. split; [done |]. split; [done |]. split.
      * unfold sword2, clamp, fits in *. rewrite Hp. nia.
      * apply lsats_code. cbv zeta. rewrite sign_bit, (proj2 (Z.ltb_lt _ 0)) by lia.
        rewrite Esh, (proj2 (Z.eqb_eq _ (-1))); [done |].
        symmetry. apply Z.div_unique with (s32 h + 2 ^ (n - 1)); lia.
  - destruct (decide (2 ^ (n - 1) <= s32 h)) as [Hs|Hs].
    + exists (2 ^ (n - 1) - 1), (2 ^ 32 - 1). split; [unfold fits; lia |]. split; [done |]. split.
      * unfold sword2, clamp. rewrite (signed_small 32 (2 ^ (n - 1) - 1)) by lia. unfold fits in *. rewrite Hp. nia.
      * apply lsats_code. cbv zeta. rewrite sign_bit, (proj2 (Z.ltb_ge _ 0)) by lia.
        rewrite Esh, (proj2 (Z.eqb_neq _ 0)); [| intros E; apply Z.div_small_iff in E; lia].
        rewrite Epos. split; [| done]. symmetry. apply Z.mod_small. lia.
    + exists h, l. split; [done |]. split; [done |]. split.
      * unfold sword2, clamp, fits in *. rewrite Hp. nia.
      * apply lsats_code. cbv zeta. rewrite sign_bit, (proj2 (Z.ltb_ge _ 0)) by lia.
        rewrite Esh, (Z.div_small (s32 h)) by lia. done.
Qed.
End lsats.

(** Arithmetic on pairs of words.  [ladd] and [lsub] give the sum or difference of two words and
    a carry or borrow, [lmul] the full product of two words plus two words, [maccu] and [maccs] the
    unsigned or signed product added to a pair of words modulo 2^64, [ldivu] the quotient and the
    remainder of a pair of words by one, with an exception exactly when the quotient does not fit,
    and [lsats] saturates a signed pair to 32 + n bits. *)
Theorem long_arithmetic {P} `{PortEvents P} (a b c d n : Z) (x y : option Z) :
  is_u32 a -> is_u32 b -> is_u32 c -> is_u32 d -> 0 < n < 32 ->
  (exists lo hi, is_u32 lo /\ is_u32 hi /\ word2 hi lo = a + b + c mod 2 /\
     computes (P := P) (code fl5r_LADD) [x; Some a; Some b; y; Some c] [Some lo; Some a; Some b; Some hi; Some c]) /\
  (exists lo hi, is_u32 lo /\ 0 <= hi <= 1 /\ lo - 2 ^ 32 * hi = a - b - c mod 2 /\
     computes (P := P) (code fl5r_LSUB) [x; Some a; Some b; y; Some c] [Some lo; Some a; Some b; Some hi; Some c]) /\
  (exists lo hi, is_u32 lo /\ is_u32 hi /\ word2 hi lo = a * b + c + d /\
     computes (P := P) (code fl6r_LMUL) [x; Some a; Some b; y; Some c; Some d]
       [Some hi; Some a; Some b; Some lo; Some c; Some d]) /\
  (exists lo hi, is_u32 lo /\ is_u32 hi /\ word2 hi lo = (word2 c d + a * b) mod 2 ^ 64 /\
     computes (P := P) (code fl4r_MACCU) [Some c; Some a; Some b; Some d] [Some hi; Some a; Some b; Some lo]) /\
  (exists lo hi, is_u32 lo /\ is_u32 hi /\ word2 hi lo = (word2 c d + s32 a * s32 b) mod 2 ^ 64 /\
     computes (P := P) (code fl4r_MACCS) [Some c; Some a; Some b; Some d] [Some hi; Some a; Some b; Some lo]) /\
  (c < b -> exists q r, is_u32 q /\ 0 <= r < b /\ word2 c a = q * b + r /\
     computes (P := P) (code fl5r_LDIVU) [x; Some a; Some b; y; Some c] [Some q; Some a; Some b; Some r; Some c]) /\
  (b <= c -> raises (P := P) (code fl5r_LDIVU) [x; Some a; Some b; y; Some c] ET_ARITHMETIC 0) /\
  (exists h l, is_u32 h /\ is_u32 l /\ sword2 h l = clamp (- 2 ^ (31 + n)) (2 ^ (31 + n) - 1) (sword2 c d) /\
     computes (P := P) (code fl3r_LSATS) [Some c; Some d; Some n] [Some h; Some l; Some n]).
Proof.
  intros Ha Hb Hc Hd Hn. split; [by apply ladd_computes |]. split; [by apply lsub_computes |].
  split; [by apply lmul_computes |]. split; [by apply maccu_computes |]. split; [by apply maccs_computes |].
  split; [by apply ldivu_computes |]. split; [apply ldivu_raises |]. by apply lsats_computes.
Qed.

Lemma long_arithmetic_witness : exists lo hi, word2 hi lo = 0xffffffff * 0xffffffff + 0xffffffff + 0xffffffff /\
  computes (P := unit) (code fl6r_LMUL) [None; Some 0xffffffff; Some 0xffffffff; None; Some 0xffffffff; Some 0xffffffff]
    [Some hi; Some 0xffffffff; Some 0xffffffff; Some lo; Some 0xffffffff; Some 0xffffffff].
Proof.
  assert (is_u32 0xffffffff) as Hm by (split; [discriminate | reflexivity]).
  destruct (long_arithmetic (P := unit) 0xffffffff 0xffffffff 0xffffffff 0xffffffff 8 None None Hm Hm Hm Hm) as (_ & _ & H & _); [lia |].
  destruct H as (lo & hi & _ & _ & E & C). exists lo, hi. split; [exact E | exact C].
Defined.

(** Division.  [divs] and [rems] give the quotient rounded towards zero and the remainder of the
    signed values, which determine each other and have the range of a word; they raise an arithmetic
    exception exactly on division by zero and on -2^31 / -1, the quotient that does not fit.
    [divu] and [remu] do the same for unsigned values. *)
Theorem division_instructions {P} `{PortEvents P} (a b : Z) (x : option Z) : is_u32 a -> is_u32 b ->
  (~ divs_overflow a b -> exists q r, is_u32 q /\ is_u32 r /\
     s32 a = s32 b * s32 q + s32 r /\ Z.abs (s32 r) < Z.abs (s32 b) /\ (s32 r = 0 \/ Z.sgn (s32 r) = Z.sgn (s32 a)) /\
     computes (P := P) (code fl3r_DIVS) [x; Some a; Some b] [Some q; Some a; Some b] /\
     computes (P := P) (code fl3r_REMS) [x; Some a; Some b] [Some r; Some a; Some b]) /\
  (divs_overflow a b -> raises (P := P) (code fl3r_DIVS) [x; Some a; Some b] ET_ARITHMETIC 0 /\
     raises (P := P) (code fl3r_REMS) [x; Some a; Some b] ET_ARITHMETIC 0) /\
  (b <> 0 -> exists q r, a = b * q + r /\ 0 <= r < b /\ 0 <= q /\
     computes (P := P) (code fl3r_DIVU) [x; Some a; Some b] [Some q; Some a; Some b] /\
     computes (P := P) (code fl3r_REMU) [x; Some a; Some b] [Some r; Some a; Some b]) /\
  (b = 0 -> raises (P := P) (code fl3r_DIVU) [x; Some a; Some b] ET_ARITHMETIC 0 /\
     raises (P := P) (code fl3r_REMU) [x; Some a; Some b] ET_ARITHMETIC 0).
Proof.
  intros Ha Hb. pose proof (divs_test a b Ha Hb) as Ht.
  destruct (divs_code (P := P) a b x) as [D1 D2], (rems_code (P := P) a b x) as [R1 R2].
  destruct (divu_code (P := P) a b x) as [U1 U2], (remu_code (P := P) a b x) as [V1 V2].
  split; [| split; [| split]].
  - intros Hno. exists (u32 (Z.quot (s32 a) (s32 b))), (u32 (Z.rem (s32 a) (s32 b))).
    split; [apply u32_fits |]. split; [apply u32_fits |].
    rewrite !signed_wrap, (signed_small 32 (Z.quot _ _)), (signed_small 32 (Z.rem _ _))
      by (lia || by apply quot_range || by apply rem_range).
    assert (s32 b <> 0) as Hb0 by (apply s32_nonzero; [done |]; unfold divs_overflow in Hno; tauto).
    split; [apply Z.quot_rem' | split; [by apply Z.rem_bound_abs |]].
    split; [pose proof (Z.rem_sign_nz (s32 a) (s32 b) Hb0); destruct (decide (Z.rem (s32 a) (s32 b) = 0)); [by left | right; auto] |].
    assert ((b =? 0) || (a =? 0x80000000) && (b =? 0xffffffff) = false) as Hf
      by (apply not_true_iff_false; by rewrite Ht).
    split; [by apply D1 | by apply R1].
  - intros Ho%Ht. split; [by apply D2 | by apply R2].
  - intros Hb0%Z.eqb_neq. exists (a / b), (a mod b). apply Z.eqb_neq in Hb0 as Hn. unfold fits in *.
    split; [by apply Z.div_mod |]. split; [apply Z.mod_pos_bound; lia |]. split; [apply Z.div_pos; lia |].
    split; [by apply U1 | by apply V1].
  - intros ->. split; [by apply U2 | by apply V2].
Qed.

Lemma division_instructions_witness : exists q r, s32 0xfffffff9 = s32 2 * s32 q + s32 r /\
  computes (P := unit) (code fl3r_DIVS) [None; Some 0xfffffff9; Some 2] [Some q; Some 0xfffffff9; Some 2] /\
  computes (P := unit) (code fl3r_REMS) [None; Some 0xfffffff9; Some 2] [Some r; Some 0xfffffff9; Some 2].
Proof.
  destruct (division_instructions (P := unit) 0xfffffff9 2 None) as (H & _);
    [split; [discriminate | reflexivity] | split; [discriminate | reflexivity] |].
  destruct H as (q & r & _ & _ & E & _ & _ & C1 & C2); [intros [E|[E _]]; discriminate E |].
  exists q, r. split; [exact E |]. split; [exact C1 | exact C2].
Defined.
