(* ===== verification/BitZip.v ===== *)
(** * Zip and unzip

    [zip] interleaves two words in groups of 1, 2, 4, 8 or 16 bits, [unzip] separates them again, except that it
    is undefined for groups of 16 bits. *)

From Stdlib Require Import ZArith Lia.
From stdpp Require Import base list numbers option gmap.
From S2P Require Import Prelude BitManip.
From S2P Require Import StateMonad SysState Events SysFacts Exec InstrData DataFacts.

#[local] Open Scope Z_scope.
#[local] Open Scope cbits_scope.

(** Where a bit of the zipped pair comes from; bit 32 is the lowest of the first word. *)
Definition zip_bit (a b sp j : Z) : bool :=
  let p := j / sp / 2 * sp + j mod sp in
  if Z.even (j / sp) then Z.testbit b p else Z.testbit a p.

(** The pair as one word of 64 bits. *)
Definition pair_bit (x0 x1 p : Z) : bool := if p <? 32 then Z.testbit x1 p else Z.testbit x0 (p - 32).

Definition spacings : list Z := [1; 2; 4; 8; 16].

(** The first [i] bits of the pair are zipped, the others are zero. *)
Definition zipped_to (a b sp i x0 x1 : Z) : Prop :=
  is_u32 x0 /\ is_u32 x1 /\
  forall j, 0 <= j < 64 -> pair_bit x0 x1 j = (j <? i) && zip_bit a b sp j.

Ltac each_spacing H :=
  unfold spacings in H; repeat match type of H with
  | _ ∈ _ :: _ => apply elem_of_cons in H as [->|H]
  | _ ∈ [] => by apply elem_of_nil in H
  end.

(** The group added in one step. *)
Definition zip_group (a b sp m : Z) : Z := (((a .>> (sp * m)) .& (2 ^ sp - 1)) .<< sp) .| ((b .>> (sp * m)) .& (2 ^ sp - 1)).

Lemma zip_group_bit a b sp m r : sp ∈ spacings -> 0 <= m -> 0 <= r < 32 -> 
  Z.testbit (zip_group a b sp m) r =
  (r <? 2 * sp) && if r <? sp then Z.testbit b (sp * m + r) else Z.testbit a (sp * m + (r - sp)).
Proof.
  intros Hsp Hm Hr. unfold zip_group.
  assert (0 < sp) by (each_spacing Hsp; lia).
  replace (2 ^ sp - 1) with (Z.ones sp) by (rewrite Z.ones_equiv; lia).
  unfold wrap. rewrite Z.lor_spec, Z.mod_pow2_bits_low, Z.shiftl_spec, !Z.land_spec by lia.
  rewrite !(Z.testbit_ones sp) by lia. 
  destruct (Z.ltb_spec r sp).
  - rewrite Z.testbit_neg_r by lia. rewrite (proj2 (Z.ltb_lt r (2 * sp))), (proj2 (Z.leb_le 0 r)) by lia.
    cbn. rewrite andb_true_r, Z.shiftr_spec by lia. f_equal. lia.
  - rewrite (proj2 (Z.leb_le 0 (r - sp))), !andb_false_r, orb_false_r by lia.
    rewrite Z.shiftr_spec, andb_true_l by lia.
    replace (r <? 2 * sp) with (r - sp <? sp)
      by (destruct (Z.ltb_spec (r - sp) sp), (Z.ltb_spec r (2 * sp)); (done || lia)).
    rewrite andb_comm. do 2 f_equal. lia.
Qed.

Lemma spacing_pos sp : sp ∈ spacings -> 0 < sp.
Proof. intros H. each_spacing H; lia. Qed.

Lemma shifted_group_bit a b sp m k j : sp ∈ spacings -> 0 <= m -> 0 <= k -> 0 <= j < 32 ->
  Z.testbit (zip_group a b sp m .<< k) j = (k <=? j) && (j <? k + 2 * sp) && Z.testbit (zip_group a b sp m) (j - k).
Proof.
  intros Hsp Hm Hk Hj. unfold wrap. rewrite Z.mod_pow2_bits_low, Z.shiftl_spec by lia.
  destruct (Z.leb_spec k j); cbn [andb]; [| apply Z.testbit_neg_r; lia].
  destruct (Z.ltb_spec j (k + 2 * sp)); cbn [andb]; [done |].
  rewrite zip_group_bit by (done || lia). rewrite (proj2 (Z.ltb_ge (j - k) (2 * sp))) by lia. done.
Qed.

(** Add the group at position [i]. *)
Lemma zipped_step a b sp m x0 x1 : sp ∈ spacings -> 0 <= m < 32 / sp ->
  zipped_to a b sp (2 * sp * m) x0 x1 ->
  let g := zip_group a b sp m in
  let i := 2 * sp * m in
  zipped_to a b sp (2 * sp * (m + 1))
    (if i <? 32 then x0 else x0 .| (g .<< (i - 32))) (if i <? 32 then x1 .| (g .<< i) else x1).
Proof.
  intros Hsp Hm (F0 & F1 & Hb) g i.
  assert (forall x k, is_u32 x -> is_u32 (x .| (g .<< k))) as Hor
    by (intros; apply fits_lor; [lia | done | apply wrap_fits; lia]).
  split; [by destruct (i <? 32); [| apply Hor] |]. split; [by destruct (i <? 32); [apply Hor |] |].
  intros j Hj. specialize (Hb j Hj). fold i in Hb.
  assert (pair_bit (if i <? 32 then x0 else x0 .| (g .<< (i - 32))) (if i <? 32 then x1 .| (g .<< i) else x1) j =
    pair_bit x0 x1 j || (i <=? j) && (j <? i + 2 * sp) && Z.testbit g (j - i)) as ->.
  { unfold pair_bit. assert (0 <= i) by (each_spacing Hsp; unfold i; lia).
    assert ((i <? 32) = true -> i + 2 * sp <= 32) by (intros ?%Z.ltb_lt; each_spacing Hsp; unfold i in *; lia).
    destruct (i <? 32) eqn:Ei; destruct (Z.ltb_spec j 32).
    - rewrite Z.lor_spec. unfold g. by rewrite shifted_group_bit by (done || lia).
    - rewrite (proj2 (Z.ltb_ge j (i + 2 * sp))) by (specialize (H0 eq_refl); lia). by rewrite andb_false_r, orb_false_r.
    - apply Z.ltb_ge in Ei. rewrite (proj2 (Z.leb_gt i j)) by lia. by rewrite orb_false_r.
    - apply Z.ltb_ge in Ei. rewrite Z.lor_spec. unfold g. rewrite shifted_group_bit by (done || lia).
      replace (j - 32 - (i - 32)) with (j - i) by lia. f_equal. f_equal.
      destruct (Z.leb_spec (i - 32) (j - 32)), (Z.leb_spec i j), (Z.ltb_spec (j - 32) (i - 32 + 2 * sp)), (Z.ltb_spec j (i + 2 * sp));
        (done || lia). }
  rewrite Hb. unfold g. 
  destruct (Z.leb_spec i j); cbn [andb].
  - rewrite (proj2 (Z.ltb_ge j i)) by lia. cbn [andb orb].
    replace (2 * sp * (m + 1)) with (i + 2 * sp) by (unfold i; lia).
    destruct (Z.ltb_spec j (i + 2 * sp)); cbn [andb]; [| done].
    rewrite zip_group_bit by (done || (each_spacing Hsp; lia)).
    rewrite (proj2 (Z.ltb_lt (j - i) (2 * sp))) by lia. cbn [andb]. unfold zip_bit, i.
    assert (j = 2 * sp * m + (j - 2 * sp * m)) as Ej by lia. set (r := j - 2 * sp * m) in *.
    assert (0 <= r < 2 * sp) by (unfold r, i in *; lia). clearbody r.
    assert (j / sp / 2 = m /\ Z.even (j / sp) = (r <? sp) /\ sp * m + (if r <? sp then r else r - sp) = m * sp + j mod sp) as (Hd & He & Hp).
    { pose proof (spacing_pos sp Hsp). destruct (Z.ltb_spec r sp).
      - assert (j / sp = 2 * m) as -> by (symmetry; apply Z.div_unique with r; lia).
        assert (j mod sp = r) as -> by (symmetry; apply Z.mod_unique with (2 * m); lia).
        split; [rewrite Z.mul_comm; apply Z.div_mul; lia |]. split; [by rewrite Z.even_mul | lia].
      - assert (j / sp = 1 + 2 * m) as -> by (symmetry; apply Z.div_unique with (r - sp); lia).
        assert (j mod sp = r - sp) as -> by (symmetry; apply Z.mod_unique with (1 + 2 * m); lia).
        split; [rewrite (Z.mul_comm 2), Z.div_add by lia; done |]. split; [by rewrite Z.even_add, Z.even_mul | lia]. }
    rewrite Hd, He, <- Hp. by destruct (r <? sp).
  - rewrite orb_false_r. replace (j <? 2 * sp * (m + 1)) with (j <? i); [done |].
    rewrite (proj2 (Z.ltb_lt j i)) by lia. symmetry. apply Z.ltb_lt. each_spacing Hsp; unfold i in *; lia.
Qed.

Lemma zip_loop_spec a b sp m fuel x0 x1 : sp ∈ spacings -> 0 <= m <= 32 / sp -> 32 / sp <= m + Z.of_nat fuel ->
  zipped_to a b sp (2 * sp * m) x0 x1 ->
  let '(y0, y1) := zip_loop fuel sp (2 ^ sp - 1) (2 * sp * m) (a .>> (sp * m)) (b .>> (sp * m)) x0 x1 in
  zipped_to a b sp 64 y0 y1.
Proof.
  intros Hsp. pose proof (spacing_pos sp Hsp) as Hpos.
  assert (2 * sp * (32 / sp) = 64) as H64 by (each_spacing Hsp; reflexivity).
  revert m x0 x1. induction fuel as [|fuel IH]; intros m x0 x1 Hm Hf Hz.
  - cbn [zip_loop]. by replace m with (32 / sp) in Hz by lia; rewrite H64 in Hz.
  - cbn [zip_loop]. destruct (Z.ltb_spec (2 * sp * m) (2 * 32)).
    + assert (m < 32 / sp) by nia.
      pose proof (zipped_step a b sp m x0 x1 Hsp ltac:(lia) Hz) as Hs. cbv zeta in Hs.
      specialize (IH (m + 1) _ _ ltac:(lia) ltac:(lia) Hs).
      fold (zip_group a b sp m).
      replace (2 * sp * m + sp * 2) with (2 * sp * (m + 1)) by lia.
      rewrite !Z.shiftr_shiftr by lia. replace (sp * m + sp) with (sp * (m + 1)) by lia.
      by destruct (2 * sp * m <? 32).
    + assert (m = 32 / sp) as -> by nia. by rewrite H64 in Hz.
Qed.

(** [zip] puts every bit of the two words in its place. *)
Lemma zip_spec a b sp : sp ∈ spacings ->
  let '(x0, x1) := zip_loop 32 sp (2 ^ sp - 1) 0 a b 0 0 in zipped_to a b sp 64 x0 x1.
Proof.
  intros Hsp. pose proof (zip_loop_spec a b sp 0 32 0 0 Hsp) as H.
  rewrite !Z.mul_0_r, !Z.shiftr_0_r in H. apply H.
  - each_spacing Hsp; split; done.
  - each_spacing Hsp; done.
  - split; [done |]. split; [done |]. intros j Hj. unfold pair_bit. rewrite !Z.bits_0.
    rewrite (proj2 (Z.ltb_ge j 0)) by lia. by destruct (j <? 32).
Qed.

(** ** Unzip *)

(** The first [i] bits of both results are set from the pair, the others are zero. *)
Definition unzipped_to (x0 x1 sp i y0 y1 : Z) : Prop :=
  is_u32 y0 /\ is_u32 y1 /\
  forall j, 0 <= j < 32 ->
    Z.testbit y1 j = (j <? i) && pair_bit x0 x1 (2 * sp * (j / sp) + j mod sp) /\
    Z.testbit y0 j = (j <? i) && pair_bit x0 x1 (2 * sp * (j / sp) + sp + j mod sp).

(** The bits of the word that is being taken apart. *)
Definition unzip_source (x0 x1 sp m : Z) : Z := if sp * m <? 16 then x1 .>> (2 * sp * m) else x0 .>> (2 * sp * m - 32).

Lemma unzip_source_bit x0 x1 sp m r : sp ∈ spacings -> 0 <= m < 32 / sp -> 0 <= r < 2 * sp ->
  Z.testbit (unzip_source x0 x1 sp m) r = pair_bit x0 x1 (2 * sp * m + r).
Proof.
  intros Hsp Hm Hr. pose proof (spacing_pos sp Hsp). unfold unzip_source, pair_bit.
  destruct (Z.ltb_spec (sp * m) 16).
  - rewrite Z.shiftr_spec by lia. rewrite (proj2 (Z.ltb_lt _ 32)) by (each_spacing Hsp; lia). f_equal. lia.
  - rewrite Z.shiftr_spec by lia. rewrite (proj2 (Z.ltb_ge _ 32)) by lia. f_equal. lia.
Qed.

(** A group of [sp] bits put at the position [k]. *)
Lemma group_at v sp k j : 0 < sp -> 0 <= k -> 0 <= j < 32 ->
  Z.testbit ((v .& (2 ^ sp - 1)) .<< k) j = (k <=? j) && (j <? k + sp) && Z.testbit v (j - k).
Proof.
  intros Hsp Hk Hj. replace (2 ^ sp - 1) with (Z.ones sp) by (rewrite Z.ones_equiv; lia).
  unfold wrap. rewrite Z.mod_pow2_bits_low, Z.shiftl_spec by lia.
  destruct (Z.leb_spec k j); cbn [andb]; [| apply Z.testbit_neg_r; lia].
  rewrite Z.land_spec, Z.testbit_ones, (proj2 (Z.leb_le 0 (j - k))) by lia. cbn [andb]. rewrite andb_comm. f_equal.
  destruct (Z.ltb_spec (j - k) sp), (Z.ltb_spec j (k + sp)); (done || lia).
Qed.

Lemma unzipped_step x0 x1 sp m y0 y1 : sp ∈ spacings -> 0 <= m < 32 / sp ->
  unzipped_to x0 x1 sp (sp * m) y0 y1 ->
  let v := unzip_source x0 x1 sp m in
  unzipped_to x0 x1 sp (sp * (m + 1))
    (y0 .| (((v .>> sp) .& (2 ^ sp - 1)) .<< (sp * m))) (y1 .| ((v .& (2 ^ sp - 1)) .<< (sp * m))).
Proof.
  intros Hsp Hm (F0 & F1 & Hb) v. pose proof (spacing_pos sp Hsp) as Hpos.
  split; [apply fits_lor; [lia | done | apply wrap_fits; lia] |].
  split; [apply fits_lor; [lia | done | apply wrap_fits; lia] |].
  intros j Hj. destruct (Hb j Hj) as [H1 H0]. rewrite !Z.lor_spec, !group_at, H1, H0 by lia.
  replace (sp * (m + 1)) with (sp * m + sp) by lia.
  destruct (Z.ltb_spec j (sp * m)).
  - rewrite (proj2 (Z.leb_gt _ j)), (proj2 (Z.ltb_lt j (sp * m + sp))) by lia. cbn. by rewrite !orb_false_r.
  - rewrite (proj2 (Z.leb_le _ j)) by lia. cbn [andb orb]. destruct (Z.ltb_spec j (sp * m + sp)); cbn [andb]; [| done].
    assert (j / sp = m) as -> by (symmetry; apply Z.div_unique with (j - sp * m); lia).
    assert (j mod sp = j - sp * m) as -> by (symmetry; apply Z.mod_unique with m; lia).
    rewrite Z.shiftr_spec by lia. unfold v. rewrite !unzip_source_bit by (done || lia).
    split; f_equal; lia.
Qed.

Lemma unzip_loop_spec x0 x1 sp m fuel y0 y1 : sp ∈ spacings -> sp < 16 -> 0 <= m <= 32 / sp -> 32 / sp <= m + Z.of_nat fuel ->
  unzipped_to x0 x1 sp (sp * m) y0 y1 ->
  exists z0 z1, unzip_loop fuel sp (2 ^ sp - 1) (sp * m)
    (x0 .>> (if sp * m <? 16 then 0 else 2 * sp * m - 32)) (x1 .>> (if sp * m <? 16 then 2 * sp * m else 32)) y0 y1 = Some (z0, z1) /\
  unzipped_to x0 x1 sp 32 z0 z1.
Proof.
  intros Hsp Hlt16. pose proof (spacing_pos sp Hsp) as Hpos.
  assert (shift_count (sp * 2) = Some (sp * 2)) as Hcount by (unfold shift_count; by rewrite (proj2 (Z.ltb_lt (sp * 2) 32)) by lia).
  assert (sp * (32 / sp) = 32) as H32 by (each_spacing Hsp; reflexivity).
  revert m y0 y1. induction fuel as [|fuel IH]; intros m y0 y1 Hm Hf Hz.
  - cbn [unzip_loop]. replace m with (32 / sp) in Hz by lia. rewrite H32 in Hz. eauto.
  - cbn [unzip_loop]. rewrite Hcount. cbn [mbind option_bind]. destruct (Z.ltb_spec (sp * m) 32).
    + assert (m < 32 / sp) by nia.
      pose proof (unzipped_step x0 x1 sp m y0 y1 Hsp ltac:(lia) Hz) as Hs. cbv zeta in Hs. unfold unzip_source in Hs.
      specialize (IH (m + 1) _ _ ltac:(lia) ltac:(lia) Hs).
      change (32 / 2) with 16. replace (sp * m + sp) with (sp * (m + 1)) by lia.
      assert (sp * (m + 1) <= 16 <-> sp * m < 16) as H16 by (each_spacing Hsp; lia).
      assert (sp * m < 16 -> ~ sp * (m + 1) < 16 -> 2 * sp * m + sp * 2 = 32) as Hlast by (each_spacing Hsp; lia).
      destruct (Z.ltb_spec (sp * m) 16) as [Hlt|Hge].
      * rewrite Z.shiftr_0_r in *. rewrite Z.shiftr_shiftr by lia.
        destruct (Z.ltb_spec (sp * (m + 1)) 16).
        -- rewrite Z.shiftr_0_r in IH. by replace (2 * sp * m + sp * 2) with (2 * sp * (m + 1)) by lia.
        -- replace (2 * sp * (m + 1) - 32) with 0 in IH by lia. rewrite Z.shiftr_0_r in IH. by rewrite Hlast by lia.
      * rewrite (proj2 (Z.ltb_ge (sp * (m + 1)) 16)) in IH by lia. rewrite Z.shiftr_shiftr by lia.
        by replace (2 * sp * m - 32 + sp * 2) with (2 * sp * (m + 1) - 32) by lia.
    + assert (m = 32 / sp) as -> by nia. rewrite H32 in Hz. eauto.
Qed.

Lemma unzip_spec x0 x1 sp : sp ∈ spacings -> sp < 16 ->
  exists y0 y1, unzip_loop 32 sp (2 ^ sp - 1) 0 x0 x1 0 0 = Some (y0, y1) /\ unzipped_to x0 x1 sp 32 y0 y1.
Proof.
  intros Hsp H16. pose proof (unzip_loop_spec x0 x1 sp 0 32 0 0 Hsp H16) as H.
  rewrite !Z.mul_0_r in H. cbn [Z.ltb Z.compare] in H. rewrite !Z.shiftr_0_r in H. apply H.
  - each_spacing Hsp; split; done.
  - each_spacing Hsp; done.
  - split; [done |]. split; [done |]. intros j Hj. rewrite !Z.bits_0, (proj2 (Z.ltb_ge j 0)) by lia. done.
Qed.

(** ** Inverses *)

Lemma pair_bits_eq x0 x1 y0 y1 : is_u32 x0 -> is_u32 x1 -> is_u32 y0 -> is_u32 y1 ->
  (forall j, 0 <= j < 64 -> pair_bit x0 x1 j = pair_bit y0 y1 j) -> x0 = y0 /\ x1 = y1.
Proof.
  intros H0 H1 H2 H3 Hb. split; (apply (fits_bits_inj 32); [lia | done | done |]); intros j Hj.
  - specialize (Hb (j + 32) ltac:(lia)). unfold pair_bit in Hb.
    rewrite (proj2 (Z.ltb_ge (j + 32) 32)) in Hb by lia. by replace (j + 32 - 32) with j in Hb by lia.
  - specialize (Hb j ltac:(lia)). unfold pair_bit in Hb. by rewrite (proj2 (Z.ltb_lt j 32)) in Hb by lia.
Qed.

Section inverse.
Context (a b sp : Z) (Ha : is_u32 a) (Hb : is_u32 b) (Hsp : sp ∈ spacings) (Hlt16 : sp < 16).

Lemma zip_bit_low j : 0 <= j < 32 -> zip_bit a b sp (2 * sp * (j / sp) + j mod sp) = Z.testbit b j.
Proof.
  intros Hj. pose proof (spacing_pos sp Hsp). pose proof (Z.mod_pos_bound j sp ltac:(lia)). pose proof (Z.div_mod j sp ltac:(lia)).
  unfold zip_bit. set (q := j / sp) in *. set (r := j mod sp) in *.
  assert ((2 * sp * q + r) / sp = 2 * q) as -> by (symmetry; apply Z.div_unique with r; lia).
  assert ((2 * sp * q + r) mod sp = r) as -> by (symmetry; apply Z.mod_unique with (2 * q); lia).
  rewrite Z.even_mul. cbn [Z.even orb]. rewrite (Z.mul_comm 2 q), Z.div_mul by lia. f_equal. lia.
Qed.
Lemma zip_bit_high j : 0 <= j < 32 -> zip_bit a b sp (2 * sp * (j / sp) + sp + j mod sp) = Z.testbit a j.
Proof.
  intros Hj. pose proof (spacing_pos sp Hsp). pose proof (Z.mod_pos_bound j sp ltac:(lia)). pose proof (Z.div_mod j sp ltac:(lia)).
  unfold zip_bit. set (q := j / sp) in *. set (r := j mod sp) in *.
  assert ((2 * sp * q + sp + r) / sp = 1 + q * 2) as -> by (symmetry; apply Z.div_unique with r; lia).
  assert ((2 * sp * q + sp + r) mod sp = r) as -> by (symmetry; apply Z.mod_unique with (1 + q * 2); lia).
  rewrite Z.even_add, Z.even_mul. cbn [Z.even orb]. rewrite orb_true_r. cbn [Bool.eqb].
  rewrite Z.div_add by lia. change (1 / 2) with 0. f_equal. lia.
Qed.

Lemma group_position p : 0 <= p < 64 -> let p' := p / sp / 2 * sp + p mod sp in
  0 <= p' < 32 /\ p = 2 * sp * (p' / sp) + (if Z.even (p / sp) then 0 else sp) + p' mod sp.
Proof.
  intros Hp. pose proof (spacing_pos sp Hsp). pose proof (Z.mod_pos_bound p sp ltac:(lia)). pose proof (Z.div_mod p sp ltac:(lia)).
  set (q := p / sp) in *. set (r := p mod sp) in *. cbv zeta.
  assert (0 <= q) by (apply Z.div_pos; lia). assert (sp * (64 / sp) = 64) as H64 by (each_spacing Hsp; reflexivity).
  assert (q < 64 / sp) by (apply Z.div_lt_upper_bound; lia).
  assert ((q / 2 * sp + r) / sp = q / 2) as -> by (symmetry; apply Z.div_unique with r; lia).
  assert ((q / 2 * sp + r) mod sp = r) as -> by (symmetry; apply Z.mod_unique with (q / 2); lia).
  pose proof (Z.div_mod q 2 ltac:(lia)) as Hq. rewrite Zmod_even in Hq. 
  assert (0 <= q / 2) by (apply Z.div_pos; lia).
  assert (2 * (q / 2 * sp + r) <= 63) by (each_spacing Hsp; destruct (Z.even q); lia).
  split; [nia |]. destruct (Z.even q); nia.
Qed.

Lemma unzip_zip : let '(x0, x1) := zip_loop 32 sp (2 ^ sp - 1) 0 a b 0 0 in
  unzip_loop 32 sp (2 ^ sp - 1) 0 x0 x1 0 0 = Some (a, b).
Proof.
  pose proof (zip_spec a b sp Hsp) as Hz. destruct (zip_loop _ _ _ _ _ _ _ _) as [x0 x1].
  destruct (unzip_spec x0 x1 sp Hsp Hlt16) as (y0 & y1 & -> & Hu).
  destruct Hz as (_ & _ & Hz), Hu as (F0 & F1 & Hu).
  assert (forall j, 0 <= j < 32 -> 0 <= 2 * sp * (j / sp) + j mod sp < 64 /\ 0 <= 2 * sp * (j / sp) + sp + j mod sp < 64) as Hr.
  { intros j Hj. pose proof (spacing_pos sp Hsp). pose proof (Z.mod_pos_bound j sp ltac:(lia)).
    pose proof (Z.div_mod j sp ltac:(lia)). pose proof (Z.div_pos j sp). each_spacing Hsp; lia. }
  do 2 f_equal; (apply (fits_bits_inj 32); [lia | done | done |]); intros j Hj; destruct (Hu j Hj) as [H1 H0], (Hr j Hj) as [R1 R0].
  - rewrite H0, (proj2 (Z.ltb_lt j 32)), Hz, (proj2 (Z.ltb_lt _ 64)) by lia. by apply zip_bit_high.
  - rewrite H1, (proj2 (Z.ltb_lt j 32)), Hz, (proj2 (Z.ltb_lt _ 64)) by lia. by apply zip_bit_low.
Qed.

Lemma zip_unzip : exists x0 x1, unzip_loop 32 sp (2 ^ sp - 1) 0 a b 0 0 = Some (x0, x1) /\
  zip_loop 32 sp (2 ^ sp - 1) 0 x0 x1 0 0 = (a, b).
Proof.
  destruct (unzip_spec a b sp Hsp Hlt16) as (x0 & x1 & -> & Hu). exists x0, x1. split; [done |].
  pose proof (zip_spec x0 x1 sp Hsp) as Hz. destruct (zip_loop _ _ _ _ _ _ _ _) as [y0 y1].
  destruct Hu as (_ & _ & Hu), Hz as (F0 & F1 & Hz).
  destruct (pair_bits_eq y0 y1 a b F0 F1 Ha Hb) as [-> ->]; [| done]. intros j Hj.
  rewrite Hz, (proj2 (Z.ltb_lt j 64)) by lia. cbn [andb]. unfold zip_bit.
  destruct (group_position j Hj) as [Hp Ej]. cbv zeta in Hp, Ej. destruct (Hu _ Hp) as [H1 H0].
  destruct (Z.even (j / sp)); rewrite ?H1, ?H0, (proj2 (Z.ltb_lt _ 32)) by lia; cbn [andb]; f_equal; lia.
Qed.
End inverse.

(** ** The instructions *)

Lemma int_shl1_small n : 0 <= n < 31 -> int_shl1 n = Some (2 ^ n).
Proof. intros Hn. unfold int_shl1. rewrite (proj2 (Z.leb_le 0 n)), (proj2 (Z.ltb_lt n 31)) by lia. done. Qed.

Lemma spacing_of n : 0 <= n < 5 -> 2 ^ n ∈ spacings /\ int_shl1 n = Some (2 ^ n) /\ int_shl1 (2 ^ n) = Some (2 ^ (2 ^ n)).
Proof.
  intros Hn. assert (n = 0 \/ n = 1 \/ n = 2 \/ n = 3 \/ n = 4) as Hc by lia.
  destruct Hc as [->|[->|[->|[->| ->]]]]; (split; [by apply (bool_decide_unpack _) | done]).
Qed.

Section instructions.
Context {P : Type} `{PortEvents P}.

Lemma zip_computes a b n : 0 <= n < 5 ->
  let '(x0, x1) := zip_loop 32 (2 ^ n) (2 ^ 2 ^ n - 1) 0 a b 0 0 in
  computes (P := P) (code fl2rus_ZIP) [Some a; Some b; Some n] [Some x0; Some x1; Some n].
Proof.
  intros Hn. destruct (spacing_of n Hn) as (_ & E1 & E2). destruct (zip_loop _ _ _ _ _ _ _ _) as [x0 x1] eqn:Ez.
  apply computes_intro. intros. unfold fl2rus_ZIP. xrun. rewrite E1, E2, Ez, (proj2 (Z.ltb_lt n 5)) by lia. reflexivity.
Qed.
Lemma unzip_computes a b n x0 x1 : 0 <= n < 5 -> unzip_loop 32 (2 ^ n) (2 ^ 2 ^ n - 1) 0 a b 0 0 = Some (x0, x1) ->
  computes (P := P) (code fl2rus_UNZIP) [Some a; Some b; Some n] [Some x0; Some x1; Some n].
Proof.
  intros Hn Ez. destruct (spacing_of n Hn) as (_ & E1 & E2). apply computes_intro. intros. unfold fl2rus_UNZIP. xrun. rewrite E1, E2, Ez, (proj2 (Z.ltb_lt n 5)) by lia. reflexivity.
Qed.
End instructions.

(** [zip] with groups of 16 bits takes the halves of the words apart. *)
Lemma zip_halves a b : is_u32 a -> is_u32 b ->
  zip_loop 32 16 (2 ^ 16 - 1) 0 a b 0 0 = (((a .>> 16) .<< 16) .| (b .>> 16), (a .<< 16) .| (b .& 0xffff)).
Proof.
  intros Ha Hb. pose proof (zip_spec a b 16 ltac:(by apply (bool_decide_unpack _))) as H.
  destruct (zip_loop 32 16 (2 ^ 16 - 1) 0 a b 0 0) as [x0 x1]. destruct H as (F0 & F1 & H).
  assert (is_u32 (b .>> 16)) as Fb.
  { rewrite Z.shiftr_div_pow2 by lia. destruct Hb as [? ?]. split; [apply Z.div_pos; lia | apply Z.div_lt_upper_bound; lia]. }
  assert (is_u32 (b .& 0xffff)) as Fl.
  { change 0xffff with (Z.ones 16). rewrite Z.land_ones by lia. pose proof (Z.mod_pos_bound b (2 ^ 16) ltac:(lia)). split; lia. }
  f_equal; (apply (fits_bits_inj 32); [lia | done | apply fits_lor; [lia | apply wrap_fits; lia | done] |]); intros j Hj.
  - specialize (H (j + 32) ltac:(lia)). unfold pair_bit, zip_bit in H. enum_Z j Hj; cbv -[Z.testbit] in H; rewrite H; bits_at.
  - specialize (H j ltac:(lia)). unfold pair_bit, zip_bit in H. enum_Z j Hj; cbv -[Z.testbit] in H; rewrite H; bits_at.
Qed.


