(* ===== verification/DataExec.v ===== *)
(** * Execution of a data instruction, from the cache to the registers

    The function generated for a data instruction reads its operands, runs its code and writes its
    result; [alu] is the instruction set's own account of the result, on mathematical integers.
    In dual-issue mode the two instructions of a bundle read the registers as they were before the
    bundle. *)

From Stdlib Require Import ZArith Lia.
From stdpp Require Import base list numbers option gmap.
From S2P Require Import Prelude Signed BitManip Opcode InstrDecode DecodeCache Core.
From S2P Require Import Refs Resource StateMonad Thread SysState Events SysFacts Exec InstrData ResourceOps Execute DataFacts.

#[local] Open Scope Z_scope.
#[local] Open Scope cbits_scope.

(** ** Operands *)

(** The values of the operands that are read, given the fields of the instruction. *)
Fixpoint sources (regs : list Z) (kinds : list OpType) (fields : list Z) : option (list Z) :=
  match kinds, fields with
  | [], _ => Some []
  | out :: ks, _ :: fs => sources regs ks fs
  | imm :: ks, f :: fs => vs ← sources regs ks fs; Some (f :: vs)
  | (in_ | inout) :: ks, f :: fs => v ← array_get regs f; vs ← sources regs ks fs; Some (v :: vs)
  | _ :: _, [] => None
  end.

(** The operands the code starts with. *)
Fixpoint initialOps (kinds : list OpType) (vs : list Z) : list (option Z) :=
  match kinds with
  | [] => []
  | out :: ks => None :: initialOps ks vs
  | _ :: ks => match vs with v :: vs => Some v :: initialOps ks vs | [] => [] end
  end.

(** One destination, which comes first; the other operands are only read. *)
Definition one_result (kinds : list OpType) : bool :=
  match kinds with
  | (out | inout) :: ks => forallb (fun k => match k with in_ | imm => true | _ => false end) ks
  | _ => false
  end.

(** The result is written to a register: buffered, for an instruction of 16 bits in a bundle. *)
Definition writeResult (size dst r : Z) (th : Thread) : option Thread :=
  if size =? 2 then writeRegister dst r th
  else l ← array_set (Thread.regs th) dst r; Some (Thread.set_regs l th).

Section exec.
Context {P : Type} `{PortEvents P} `{PortOps P} `{Jit P}.
Implicit Types (s : Sys P) (t : Ref).

(** The decode cache of the thread, if it has one. *)
Definition cacheOf s t : option State :=
  c ← sys_cores s !! t.1;
  r ← array_get (threadCaches c) (Z.of_nat t.2);
  Some (if ref_ram r then ramDecodeCache c else romDecodeCache s).

(** The fields of the instruction at the program counter [pc]. *)
Definition fieldsAt s t (pc : Z) : option (list Z) := k ← cacheOf s t; array_get (operands k) pc.

Lemma cacheState_run s t k : cacheOf s t = Some k -> cacheState t s = Some (s, k).
Proof.
  unfold cacheOf, cacheState, decodeCache, core, get, lift, gets, mbind, M_bind. cbn.
  destruct (sys_cores s !! t.1) as [c|] eqn:E; cbn; [| done].
  destruct (array_get _ _) as [r|]; cbn; [| done]. intros [= <-]. destruct (ref_ram r); cbn; [by rewrite E | done].
Qed.
Lemma cacheOf_threads s t m : cacheOf (set_threads m s) t = cacheOf s t.
Proof. done. Qed.
Lemma fieldsAt_threads s t pc m : fieldsAt (set_threads m s) t pc = fieldsAt s t pc.
Proof. done. Qed.

Lemma thread_run s t th : threads s !! t = Some th -> thread t s = Some (s, th).
Proof. unfold thread, get, lift, mbind, M_bind. cbn. by intros ->. Qed.
Lemma modThread_run s t f th : threads s !! t = Some th ->
  modThread t f s = Some (set_threads (<[t := f th]> (threads s)) s, tt).
Proof. intros E. unfold modThread, mbind, M_bind. by rewrite (thread_run _ _ _ E). Qed.
Lemma bind_run {A B} (m : M (Sys P) A) (k : A -> M (Sys P) B) s s' a : m s = Some (s', a) -> (m ≫= k) s = k a s'.
Proof. unfold mbind, M_bind. by intros ->. Qed.

Lemma OP_run s t th fields i f : threads s !! t = Some th -> fieldsAt s t (Thread.pc th) = Some fields ->
  fields !! i = Some f -> OP_ t i s = Some (s, f).
Proof.
  unfold fieldsAt. intros Et Ef Ei. destruct (cacheOf s t) as [k|] eqn:Ek; [cbn in Ef | done].
  unfold OP_. rewrite (bind_run _ _ _ _ _ (thread_run _ _ _ Et)), (bind_run _ _ _ _ _ (cacheState_run _ _ _ Ek)).
  unfold lift, mbind, M_bind. cbn. rewrite Ef. cbn. by rewrite Ei.
Qed.

Lemma operandField_run s t th fields n i f : threads s !! t = Some th -> fieldsAt s t (Thread.pc th) = Some fields ->
  (i < n)%nat -> fields !! i = Some f -> operandField t [] n i s = Some (s, Some f).
Proof.
  intros Et Ef Hi Ei. unfold operandField. rewrite bool_decide_true by done.
  by rewrite (bind_run _ _ _ _ _ (OP_run _ _ _ _ _ _ Et Ef Ei)).
Qed.

Lemma drop_cons_inv {A} i (l : list A) x l' : drop i l = x :: l' -> l !! i = Some x /\ drop (S i) l = l'.
Proof.
  intros E. split.
  - rewrite <- (Nat.add_0_r i), <- lookup_drop, E. done.
  - rewrite <- (Nat.add_1_r i), <- drop_drop, E. done.
Qed.

Lemma readOperands_run s t th fields n kinds : threads s !! t = Some th -> fieldsAt s t (Thread.pc th) = Some fields ->
  forall i vs, (i + length kinds <= n)%nat -> sources (Thread.regs th) kinds (drop i fields) = Some vs ->
  readOperands t [] n i kinds s = Some (s, initialOps kinds vs).
Proof.
  intros Et Ef. induction kinds as [|k ks IH]; intros i vs Hn Hs; cbn in Hn; [done |].
  destruct (drop i fields) as [|f fs] eqn:Ed; [by destruct k |].
  apply drop_cons_inv in Ed as [Ei Ed]. cbn [readOperands].
  pose proof (operandField_run s t th fields n i f Et Ef ltac:(lia) Ei) as Hf.
  assert (forall vs', sources (Thread.regs th) ks fs = Some vs' ->
    readOperands t [] n (S i) ks s = Some (s, initialOps ks vs')) as IH'
    by (intros; apply IH; [lia | by rewrite Ed]).
  destruct k; cbn in Hs |- *;
    try (destruct (array_get (Thread.regs th) f) as [v|] eqn:Ev; [cbn in Hs | done]);
    try (destruct (sources (Thread.regs th) ks fs) as [vs'|] eqn:E; [| done]);
    try injection Hs as <-; try specialize (IH' _ eq_refl).
  all: erewrite bind_run; [by rewrite (bind_run _ _ _ _ _ IH') |]; try done; rewrite (bind_run _ _ _ _ _ Hf); try done.
  all: rewrite (bind_run _ _ _ _ _ (thread_run _ _ _ Et)); erewrite bind_run; [done |]; unfold lift; by rewrite Ev.
Qed.

(** Operands that are only read are not written back. *)
Lemma writeOperands_read s t n size ks : forallb (fun k => match k with in_ | imm => true | _ => false end) ks = true ->
  forall i vs r, writeOperands t [] n size i ks vs r s = Some (s, r).
Proof.
  induction ks as [|k ks IH]; intros Hk i vs r; [done |]. cbn in Hk. apply andb_prop in Hk as [Hk Hks].
  destruct vs as [|v vs]; [done |]. cbn [writeOperands]. destruct k; try done; apply (IH Hks).
Qed.

Lemma writeOperands_run s t th th' fields dst kinds size r vs :
  threads s !! t = Some th -> fieldsAt s t (Thread.pc th) = Some fields -> one_result kinds = true ->
  fields !! 0%nat = Some dst -> writeResult size dst r th = Some th' ->
  writeOperands t [] (length kinds) size 0 kinds (Some r :: vs) None s = Some (set_threads (<[t := th']> (threads s)) s, None).
Proof.
  intros Et Ef Hk E0 Hw. destruct kinds as [|k ks]; [done |]. cbn [writeOperands].
  assert (writeOperand t [] (length (k :: ks)) size 0 k (Some r) s = Some (set_threads (<[t := th']> (threads s)) s, None)) as Hwo.
  { pose proof (operandField_run s t th fields (length (k :: ks)) 0 dst Et Ef ltac:(cbn; lia) E0) as Hf.
    assert ((n ← operandField t [] (length (k :: ks)) 0; v ← lift (Some r);
       match n with
       | None => mret (Some v)
       | Some n => if size =? 2 then _ ← writeReg t n v; mret None
           else th ← thread t; l ← lift (array_set (Thread.regs th) n v); _ ← putThread t (Thread.set_regs l th); mret None
       end) s = Some (set_threads (<[t := th']> (threads s)) s, None)) as Hb.
    { rewrite (bind_run _ _ _ _ _ Hf). erewrite bind_run; [| done]. unfold writeResult in Hw.
      destruct (size =? 2).
      - erewrite bind_run; [done |]. unfold writeReg. rewrite (bind_run _ _ _ _ _ (thread_run _ _ _ Et)).
        erewrite bind_run; [done |]. unfold lift. by rewrite Hw.
      - destruct (array_set (Thread.regs th) dst r) as [l|] eqn:El; [| done]. injection Hw as <-.
        rewrite (bind_run _ _ _ _ _ (thread_run _ _ _ Et)). erewrite bind_run; [by erewrite bind_run |]. unfold lift. by rewrite El. }
    by destruct k. }
  rewrite (bind_run _ _ _ _ _ Hwo). apply writeOperands_read. by destruct k.
Qed.

(** ** The function of a data instruction *)

(** The thread after an instruction with one result: pending register writes are done first, if
    the instruction is the first of a bundle or has 32 bits. *)
Definition dataStep (o : InstructionOpcode) (cycles dst r : Z) (th : Thread) : option Thread :=
  let size := instruction_size o in
  th' ← writeResult size dst r (emitCycles cycles (emitRegWritePending size th));
  Some (set_pc (u32 (Thread.pc th + size / 2)) th').

Lemma emitRegWritePending_pc size th : Thread.pc (emitRegWritePending size th) = Thread.pc th.
Proof. unfold emitRegWritePending, doPendingRegWrites. by repeat case_match. Qed.
Lemma emitRegWritePending_none size th : bufferInitialized th = false -> emitRegWritePending size th = th.
Proof. intros E. unfold emitRegWritePending, doPendingRegWrites. rewrite E. by repeat case_match. Qed.
Lemma emitCycles_pc c th : Thread.pc (emitCycles c th) = Thread.pc th.
Proof. unfold emitCycles. by case_match. Qed.
Lemma emitCycles_regs c th : Thread.regs (emitCycles c th) = Thread.regs th.
Proof. unfold emitCycles. by case_match. Qed.

Lemma sys_run {A B} (m : M (Sys P) A) (k : A -> X P B) f s s' a : m s = Some (s', a) -> (sys m ≫= k) f s = k a f s'.
Proof.
  intros E. unfold sys, mbind, X_bind. unfold mbind, M_bind. by rewrite E.
Qed.

Lemma X_bind_run {A B} (m : X P A) (k : A -> X P B) f s f' s' a :
  m f s = Some (s', (f', Next a)) -> (m ≫= k) f s = k a f' s'.
Proof. intros E. unfold mbind, X_bind. unfold mbind, M_bind. by rewrite E. Qed.
Lemma self_run {B} (k : Ref -> X P B) f s : (self ≫= k) f s = k (f_self f) f s.
Proof. done. Qed.

(** What follows the code: the time, the result and the program counter. *)
Lemma epilogue_run tracing size kinds (d : Inst P) f t s th th' fields dst r vs :
  f_self f = t -> f_ops f = Some r :: vs -> f_cycles f = i_cycles d ->
  threads s !! t = Some th -> fieldsAt s t (Thread.pc th) = Some fields -> fields !! 0%nat = Some dst ->
  implicitOps d = [] -> writesPc d = false -> one_result kinds = true ->
  writeResult size dst r (emitCycles (i_cycles d) th) = Some th' ->
  epilogue tracing size kinds (length kinds) d f s =
  Some (set_threads (<[t := set_pc (f_nextPc f) th']> (threads s)) s, (f, Next tt)).
Proof.
  intros <- Eo Ec Et Ef E0 Hi Hp Hk Hw. unfold epilogue. rewrite Hi, Hp, andb_false_r.
  set (t := f_self f) in *. set (th1 := emitCycles (i_cycles d) th) in *.
  set (s1 := set_threads (<[t := th1]> (threads s)) s). set (s2 := set_threads (<[t := th']> (threads s1)) s1).
  assert (threads s1 !! t = Some th1) as Et1 by apply lookup_insert_eq.
  assert (fieldsAt s1 t (Thread.pc th1) = Some fields) as Ef1 by (unfold th1; by rewrite emitCycles_pc).
  assert (threads s2 !! t = Some th') as Et2 by apply lookup_insert_eq.
  set (s3 := set_threads (<[t := set_pc (f_nextPc f) th']> (threads s2)) s2).
  assert (s3 = set_threads (<[t := set_pc (f_nextPc f) th']> (threads s)) s) as <-.
  { unfold s3, s2, s1. cbn [threads set_threads]. rewrite !insert_insert_eq. by destruct s. }
  rewrite (X_bind_run _ _ f s f s1 tt).
  2: { unfold addCycles, sys. by rewrite (bind_run _ _ _ _ _ (modThread_run s t _ th Et)), Ec. }
  rewrite (X_bind_run _ _ f s1 f s3 tt).
  2: { unfold regWriteBack. rewrite self_run, Eo.
    rewrite (sys_run _ _ _ _ _ _ (writeOperands_run s1 t th1 th' fields dst kinds size r vs Et1 Ef1 Hk E0 Hw)).
    by rewrite (sys_run _ _ _ _ _ _ (modThread_run s2 t _ th' Et2)). }
  rewrite self_run. rewrite (sys_run _ _ f s3 s3 tt); [done |].
  by rewrite (bind_run _ _ _ _ _ (thread_run s3 t _ (lookup_insert_eq _ _ _))).
Qed.

Lemma instFunction_data tracing t (o : InstructionOpcode) (d : Inst P) s th fields dst vs r th' :
  let kinds := explicit_ops o in
  let size := instruction_size o in
  threads s !! t = Some th -> fieldsAt s t (Thread.pc th) = Some fields -> fields !! 0%nat = Some dst ->
  implicitOps d = [] -> yieldBefore d = false -> canEvent d = false -> writesPc d = false -> one_result kinds = true ->
  sources (Thread.regs (emitRegWritePending size th)) kinds fields = Some vs ->
  computes (code d) (initialOps kinds vs) (Some r :: tail (initialOps kinds vs)) ->
  dataStep o (i_cycles d) dst r th = Some th' ->
  instFunction tracing t o d s = Some (set_threads (<[t := th']> (threads s)) s, Returned INST_CONTINUE).
Proof.
  cbv zeta. intros Et Ef E0 Hi Hy He Hp Hk Hs Hc Hw. unfold instFunction. rewrite Hi, Hy. cbn [fmap list_fmap]. rewrite app_nil_r.
  unfold dataStep in Hw. set (size := instruction_size o) in *. set (kinds := explicit_ops o) in *.
  set (th1 := emitRegWritePending size th) in *.
  destruct (writeResult size dst r (emitCycles (i_cycles d) th1)) as [th2|] eqn:Ew; [| done].
  injection Hw as <-. set (npc := u32 (Thread.pc th + size / 2)).
  rewrite (bind_run _ _ _ _ _ (thread_run _ _ _ Et)).
  set (s1 := set_threads (<[t := th1]> (threads s)) s).
  assert (threads s1 !! t = Some th1) as Et1 by apply lookup_insert_eq.
  assert (fieldsAt s1 t (Thread.pc th1) = Some fields) as Ef1 by (unfold th1; by rewrite emitRegWritePending_pc).
  rewrite (bind_run _ _ s s1 tt) by done. erewrite bind_run; [| done]. cbv beta iota.
  rewrite (bind_run _ _ _ _ _ (readOperands_run s1 t th1 fields (length kinds) kinds Et1 Ef1 0 vs ltac:(done) Hs)).
  erewrite bind_run; [| apply Hc; done]. cbv beta iota.
  erewrite bind_run; [| by eapply (epilogue_run _ _ _ _ _ t s1 th1 th2 fields dst r)]. cbv beta iota zeta.
  cbn [f_watchpoint f_nextPc setLocals]. unfold s1. cbn [threads set_threads]. rewrite insert_insert_eq.
  unfold normalReturn, emitCheckEvents. cbn [f_canEvent setLocals]. rewrite He. by destruct s.
Qed.
End exec.

(** ** A small system for examples *)

#[export] Instance noPortOps : PortOps unit := {| port_op _ _ _ _ := undef; clk_op _ _ _ _ := undef; clk_inUse _ := undef |}.
#[export] Instance noJit : Jit unit := {| compileBlock _ _ := undef; runCompiled _ _ := undef |}.

(** A core whose decode cache holds instructions with the given operands. *)
Definition exampleCore (ops : list Operands) : Core :=
  mkCore [] (mkState [] ops [] None (Z.of_nat (length ops)) 0 false) 0 0 16 0 [] 0 0 ∅ [] ∅ ∅
    [mkCacheRef true 0 (Z.of_nat (length ops)) false] 0 0 0 0 false.

(** One thread, with registers [regs], in dual-issue mode or not, at [pc]. *)
Definition oneThread (ops : list Operands) (di : bool) (pc : Z) (regs : list Z) : Sys unit :=
  set_sys_cores {[ (0%nat, 0%nat) := exampleCore ops ]}
    (exampleSys [((0%nat, 0%nat), 0%nat, set_dualIssue di (Thread.set_regs regs (exampleThread 0 0 pc)))] [] [] [] []).
