(* ===== verification/Alu.v ===== *)
(** * The arithmetic instructions against their specification

    [alu] gives the result of every instruction that computes one register from registers and
    immediates, on mathematical integers.  The interpreter refines it: one call through the decode
    cache changes exactly the destination register, the program counter and the time.  In dual-issue
    mode the two halves of a bundle both see the registers as they were before it. *)

From Stdlib Require Import ZArith Lia.
From stdpp Require Import base list numbers option gmap.
From S2P Require Import Prelude Signed BitManip Opcode InstrDecode DecodeCache Core.
From S2P Require Import Refs Resource StateMonad Thread SysState Events SysFacts Exec InstrData ResourceOps Execute DataFacts DataExec.

#[local] Open Scope Z_scope.
#[local] Open Scope cbits_scope.

(** The number whose lowest [n] bits are given. *)
Fixpoint of_bits (n : nat) (f : Z -> bool) : Z :=
  match n with O => 0 | S m => of_bits m f + (if f (Z.of_nat m) then 2 ^ Z.of_nat m else 0) end.

(** The result of an instruction on the values of its source operands; [None] if the instruction has
    no result there, or none that is computed of its operands alone. *)
Definition alu (o : InstructionOpcode) (vs : list Z) : option Z :=
  match o, vs with
  | (ADD_3r | ADD_2rus | LDAWF_l2rus), [a; b] => Some ((a + b) mod 2 ^ 32)
  | ADD_mov_2rus, [a; _] => Some a
  | (SUB_3r | SUB_2rus | LDAWB_l2rus), [a; b] => Some ((a - b) mod 2 ^ 32)
  | (EQ_3r | EQ_2rus), [a; b] => Some (if a =? b then 1 else 0)
  | LSS_3r, [a; b] => Some (if s32 a <? s32 b then 1 else 0)
  | LSU_3r, [a; b] => Some (if a <? b then 1 else 0)
  | AND_3r, [a; b] => Some (Z.land a b)
  | OR_3r, [a; b] => Some (Z.lor a b)
  | XOR_l3r, [a; b] => Some (Z.lxor a b)
  | XOR4_l5r, [a; b; c; d] => Some (Z.lxor (Z.lxor a b) (Z.lxor c d))
  | SHL_3r, [a; b] => Some ((a * 2 ^ b) mod 2 ^ 32)
  | SHL_2rus, [a; b] => if b <? 32 then Some ((a * 2 ^ b) mod 2 ^ 32) else None
  | (SHL_32_2rus | SHR_32_2rus), [_; _] => Some 0
  | SHR_3r, [a; b] => Some (a / 2 ^ b)
  | SHR_2rus, [a; b] => if b <? 32 then Some (a / 2 ^ b) else None
  | ASHR_l3r, [a; b] => Some ((s32 a / 2 ^ b) mod 2 ^ 32)
  | ASHR_l2rus, [a; b] => if b <? 32 then Some ((s32 a / 2 ^ b) mod 2 ^ 32) else None
  | ASHR_32_l2rus, [a; _] => Some (if s32 a <? 0 then 2 ^ 32 - 1 else 0)
  | LDAWF_l3r, [a; b] => Some ((a + 4 * b) mod 2 ^ 32)
  | LDAWB_l3r, [a; b] => Some ((a - 4 * b) mod 2 ^ 32)
  | LDA16F_l3r, [a; b] => Some ((a + 2 * b) mod 2 ^ 32)
  | LDA16B_l3r, [a; b] => Some ((a - 2 * b) mod 2 ^ 32)
  | MUL_l3r, [a; b] => Some ((a * b) mod 2 ^ 32)
  | DIVU_l3r, [a; b] => if b =? 0 then None else Some (a / b)
  | REMU_l3r, [a; b] => if b =? 0 then None else Some (a mod b)
  | DIVS_l3r, [a; b] =>
      if (b =? 0) || (s32 a =? - 2 ^ 31) && (s32 b =? -1) then None else Some (Z.quot (s32 a) (s32 b) mod 2 ^ 32)
  | REMS_l3r, [a; b] =>
      if (b =? 0) || (s32 a =? - 2 ^ 31) && (s32 b =? -1) then None else Some (Z.rem (s32 a) (s32 b) mod 2 ^ 32)
  | NOT_2r, [a] => Some (2 ^ 32 - 1 - a)
  | NEG_2r, [a] => Some ((- a) mod 2 ^ 32)
  | (SEXT_2r | SEXT_rus), [a; n] => Some (if (0 <? n) && (n <? 32) then signed n a mod 2 ^ 32 else a)
  | (ZEXT_2r | ZEXT_rus), [a; n] => Some (if (0 <? n) && (n <? 32) then a mod 2 ^ n else a)
  | ANDNOT_2r, [a; b] => Some (Z.ldiff a b)
  | MKMSK_2r, [n] => Some (2 ^ Z.min n 32 - 1)
  | (MKMSK_rus | LDC_ru6 | LDC_lru6), [a] => Some a
  | (BITREV_2r | BITREV_l2r), [a] => Some (of_bits 32 (fun i => Z.testbit a (31 - i)))
  | (BYTEREV_2r | BYTEREV_l2r), [a] => Some (of_bits 32 (fun i => Z.testbit a (8 * (3 - i / 8) + i mod 8)))
  | (CLZ_2r | CLZ_l2r), [a] => Some (if a =? 0 then 32 else 31 - Z.log2 a)
  | _, _ => None
  end.

(** The cycles an instruction takes. *)
Definition alu_cycles (o : InstructionOpcode) : Z :=
  match o with DIVS_l3r | DIVU_l3r | REMS_l3r | REMU_l3r => 32 | _ => 1 end.

(** ** The code against the specification *)

Lemma of_bits_range n f : 0 <= of_bits n f < 2 ^ Z.of_nat n.
Proof.
  induction n as [|n IH]; [cbn; lia |]. cbn [of_bits]. rewrite Nat2Z.inj_succ, Z.pow_succ_r by lia.
  destruct (f (Z.of_nat n)); lia.
Qed.
Lemma of_bits_testbit n f i : 0 <= i < Z.of_nat n -> Z.testbit (of_bits n f) i = f i.
Proof.
  induction n as [|n IH]; intros Hi; [cbn in Hi; lia |]. cbn [of_bits].
  pose proof (of_bits_range n f) as Hr. set (m := Z.of_nat n) in *.
  assert (0 <= m) by lia. assert (0 < 2 ^ m) by (apply Z.pow_pos_nonneg; lia).
  assert (forall b : bool, Z.testbit (of_bits n f + (if b then 2 ^ m else 0)) i =
      if i =? m then b else Z.testbit (of_bits n f) i) as ->.
  { intros b. rewrite !Z.testbit_odd, !Z.shiftr_div_pow2 by lia. destruct (Z.eqb_spec i m) as [->|].
    - destruct b; [rewrite <- (Z.div_unique _ (2 ^ m) 1 (of_bits n f)) | rewrite Z.add_0_r, Z.div_small]; done || lia.
    - destruct b; [| by rewrite Z.add_0_r]. replace (2 ^ m) with (2 ^ (m - i) * 2 ^ i) by (rewrite <- Z.pow_add_r by lia; f_equal; lia).
      rewrite Z.div_add by (apply Z.pow_nonzero; lia). rewrite Z.odd_add.
      replace (2 ^ (m - i)) with (2 * 2 ^ (m - i - 1)) by (rewrite <- Z.pow_succ_r by lia; f_equal; lia).
      rewrite Z.odd_mul. apply xorb_false_r. }
  destruct (Z.eqb_spec i m) as [->|]; [done |]. apply IH. lia.
Qed.
Lemma of_bits_unique x f : is_u32 x -> (forall i, 0 <= i < 32 -> Z.testbit x i = f i) -> x = of_bits 32 f.
Proof.
  intros Hx Hf. apply Z.bits_inj'. intros i Hi. destruct (Z.ltb_spec i 32).
  - by rewrite of_bits_testbit, Hf by lia.
  - rewrite !fits_testbit_high with (w := 32); try done; try lia. apply of_bits_range.
Qed.

Section values.
Context (a b : Z) (Ha : is_u32 a) (Hb : is_u32 b).

Lemma shl_value : (if 32 <=? b then 0 else a .<< b) = (a * 2 ^ b) mod 2 ^ 32.
Proof.
  unfold fits in *. destruct (Z.leb_spec 32 b).
  - replace (a * 2 ^ b) with (a * 2 ^ (b - 32) * 2 ^ 32); [by rewrite Z.mod_mul by lia |].
    rewrite <- Z.mul_assoc, <- Z.pow_add_r by lia. do 2 f_equal. lia.
  - by rewrite Z.shiftl_mul_pow2 by lia.
Qed.
Lemma shr_value : (if 32 <=? b then 0 else a .>> b) = a / 2 ^ b.
Proof.
  unfold fits in *. destruct (Z.leb_spec 32 b); [| by rewrite Z.shiftr_div_pow2 by lia].
  symmetry. apply Z.div_small. split; [lia |]. apply Z.lt_le_trans with (2 ^ 32); [lia |]. apply Z.pow_le_mono_r; lia.
Qed.
Lemma sar_large n : 31 <= n -> s32 a / 2 ^ n = if s32 a <? 0 then -1 else 0.
Proof.
  intros Hn. pose proof (signed_range 32 a ltac:(lia)) as Hr. change (32 - 1) with 31 in Hr.
  assert (2 ^ 31 <= 2 ^ n) by (apply Z.pow_le_mono_r; lia).
  destruct (Z.ltb_spec (s32 a) 0); [| apply Z.div_small; lia].
  symmetry. apply Z.div_unique with (s32 a + 2 ^ n); lia.
Qed.
Lemma ashr_value : u32 (s32 a .>> (if 32 <=? b then 31 else b)) = (s32 a / 2 ^ b) mod 2 ^ 32.
Proof.
  unfold fits in *. unfold wrap. destruct (Z.leb_spec 32 b); rewrite Z.shiftr_div_pow2 by lia; [| done].
  by rewrite !sar_large by lia.
Qed.
Lemma scaled_value n : 0 <= n -> u32 (a + (b .<< n)) = (a + 2 ^ n * b) mod 2 ^ 32 /\ u32 (a - (b .<< n)) = (a - 2 ^ n * b) mod 2 ^ 32.
Proof.
  intros. unfold wrap. rewrite Z.shiftl_mul_pow2, (Z.mul_comm b) by lia.
  by rewrite Zplus_mod_idemp_r, Zminus_mod_idemp_r.
Qed.
Lemma scaled4_add : u32 (a + (b .<< 2)) = (a + 4 * b) mod 2 ^ 32.
Proof. by apply (scaled_value 2). Qed.
Lemma scaled4_sub : u32 (a - (b .<< 2)) = (a - 4 * b) mod 2 ^ 32.
Proof. by apply (scaled_value 2). Qed.
Lemma scaled2_add : u32 (a + (b .<< 1)) = (a + 2 * b) mod 2 ^ 32.
Proof. by apply (scaled_value 1). Qed.
Lemma scaled2_sub : u32 (a - (b .<< 1)) = (a - 2 * b) mod 2 ^ 32.
Proof. by apply (scaled_value 1). Qed.
Lemma sar32_value : u32 (s32 a .>> 31) = if s32 a <? 0 then 2 ^ 32 - 1 else 0.
Proof. rewrite Z.shiftr_div_pow2, sar_large by lia. by case_match. Qed.
Lemma xor4_value c d : a .^ b .^ c .^ d = Z.lxor (Z.lxor a b) (Z.lxor c d).
Proof. by rewrite (Z.lxor_assoc (Z.lxor a b)). Qed.
(** The condition of the signed divisions, on signed values. *)
Lemma divs_guard : (b =? 0) || (s32 a =? - 2 ^ 31) && (s32 b =? -1) = (b =? 0) || (a =? 0x80000000) && (b =? 0xffffffff).
Proof.
  apply eq_bool_prop_intro. rewrite !Is_true_true, divs_test by done. unfold divs_overflow.
  by rewrite orb_true_iff, andb_true_iff, !Z.eqb_eq.
Qed.
Lemma not_value : u32 (Z.lnot a) = 2 ^ 32 - 1 - a.
Proof. unfold wrap, Z.lnot, fits in *. symmetry. apply Z.mod_unique with (-1); lia. Qed.
Lemma andnot_value : a .& u32 (Z.lnot b) = Z.ldiff a b.
Proof.
  apply Z.bits_inj'. intros i Hi. rewrite Z.land_spec, Z.ldiff_spec, wrap_testbit, Z.lnot_spec by lia.
  destruct (Z.ltb_spec i 32); [done |]. by rewrite (fits_testbit_high 32 a) by (done || lia).
Qed.
Lemma sext_value : signExtend a b = if (0 <? b) && (b <? 32) then signed b a mod 2 ^ 32 else a.
Proof.
  unfold fits in Hb. destruct (Z.ltb_spec 0 b), (Z.ltb_spec b 32); cbn [andb]; try lia; [by rewrite signExtend_signed by (done || lia) | |];
    unfold signExtend; [rewrite (proj2 (Z.ltb_lt 31 b)) by lia; by rewrite orb_true_r | by rewrite (proj2 (Z.eqb_eq b 0)) by lia].
Qed.
Lemma zext_value : zeroExtend a b = if (0 <? b) && (b <? 32) then a mod 2 ^ b else a.
Proof.
  unfold fits in Hb. destruct (Z.ltb_spec 0 b), (Z.ltb_spec b 32); cbn [andb]; try lia; [by rewrite zeroExtend_wrap by (done || lia) | |];
    unfold zeroExtend; [rewrite (proj2 (Z.ltb_lt 31 b)) by lia; by rewrite orb_true_r | by rewrite (proj2 (Z.eqb_eq b 0)) by lia].
Qed.
Lemma mask_value : makeMask b = 2 ^ Z.min b 32 - 1.
Proof. rewrite makeMask_ones by (unfold fits in Hb; lia). rewrite Z.ones_equiv. lia. Qed.
Lemma bitrev_value : bitReverse a = of_bits 32 (fun i => Z.testbit a (31 - i)).
Proof. apply of_bits_unique; [by apply bitReverse_fits |]. intros. by apply bitReverse_testbit. Qed.
Lemma byterev_value : bswap32 a = of_bits 32 (fun i => Z.testbit a (8 * (3 - i / 8) + i mod 8)).
Proof. apply of_bits_unique; [by apply bswap32_fits |]. intros. by apply bswap32_testbit. Qed.
Lemma clz_value : countLeadingZeros a = if a =? 0 then 32 else 31 - Z.log2 a.
Proof. destruct (Z.eqb_spec a 0) as [->|]; [done |]. apply countLeadingZeros_pos. unfold fits in Ha. lia. Qed.
End values.

(** Turn the values of the specification into those of the code. *)
Ltac alu_values := lazymatch goal with
  | |- context [(_ * 2 ^ _) mod _] => rewrite <- shl_value by assumption
  | |- context [(s32 _ / 2 ^ _) mod _] => rewrite <- ashr_value by assumption
  | |- context [_ / 2 ^ _] => rewrite <- shr_value by assumption
  | |- context [(_ + 4 * _) mod _] => rewrite <- scaled4_add
  | |- context [(_ - 4 * _) mod _] => rewrite <- scaled4_sub
  | |- context [(_ + 2 * _) mod _] => rewrite <- scaled2_add
  | |- context [(_ - 2 * _) mod _] => rewrite <- scaled2_sub
  | |- context [signed _ _ mod _] => rewrite <- sext_value by assumption
  | |- context [(0 <? _) && (_ <? 32)] => rewrite <- zext_value by assumption
  | |- context [2 ^ Z.min _ _ - 1] => rewrite <- mask_value by assumption
  | |- context [2 ^ 32 - 1 - _] => rewrite <- not_value by assumption
  | |- context [2 ^ 32 - 1] => rewrite <- sar32_value by assumption
  | |- context [Z.ldiff _ _] => rewrite <- andnot_value by assumption
  | |- context [of_bits _ (fun i => Z.testbit _ (31 - i))] => rewrite <- bitrev_value by assumption
  | |- context [of_bits _ _] => rewrite <- byterev_value by assumption
  | |- context [Z.log2 _] => rewrite <- clz_value by assumption
  | |- context [Z.lxor (Z.lxor _ _) (Z.lxor _ _)] => rewrite <- xor4_value
  | _ => idtac
  end.

Section code.
Context {P : Type} `{PortEvents P} `{PortOps P} `{Jit P}.

(** The instruction is declared with one result and no effect but its code, which computes [r]. *)
Definition pure_instruction (o : InstructionOpcode) (vs : list Z) (r : Z) : Prop :=
  exists d : Inst P, declaration o = Some d /\ implicitOps d = [] /\ yieldBefore d = false /\ canEvent d = false /\
    writesPc d = false /\ i_cycles d = alu_cycles o /\ one_result (explicit_ops o) = true /\
    computes (code d) (initialOps (explicit_ops o) vs) (Some r :: tail (initialOps (explicit_ops o) vs)).

Lemma pure_instruction_intro o vs r (d : Inst P) : declaration o = Some d ->
  (implicitOps d, yieldBefore d, canEvent d, writesPc d, i_cycles d, one_result (explicit_ops o)) =
    ([], false, false, false, alu_cycles o, true) ->
  computes (code d) (initialOps (explicit_ops o) vs) (Some r :: tail (initialOps (explicit_ops o) vs)) ->
  pure_instruction o vs r.
Proof. intros Hd [= ? ? ? ? ? ?] Hc. exists d. by repeat split. Qed.

(** A shift by an immediate. *)
Lemma shift_imm_computes (g : Z -> Z -> Z) a b : b < 32 ->
  computes (P := P) (b ← op 2; _ ← sys (require (negb (b =? 32))); n ← sys (lift (shift_count b)); a ← op 1; setOp 0 (g a n))
    [None; Some a; Some b] [Some (g a b); Some a; Some b].
Proof.
  intros Hb. apply computes_intro. intros. unfold shift_count. xrun.
  rewrite (proj2 (Z.eqb_neq b 32)), (proj2 (Z.ltb_lt b 32)) by lia. reflexivity.
Qed.

Lemma alu_code o vs r : Forall is_u32 vs -> alu o vs = Some r -> pure_instruction o vs r.
Proof.
  intros Hvs Hr. destruct o; try discriminate Hr; unfold alu in Hr;
    (destruct vs as [|a [|b [|c [|d [|]]]]]; try discriminate Hr); repeat apply Forall_cons in Hvs as [? Hvs].
  all: eapply pure_instruction_intro; [reflexivity | reflexivity |].
  all: try (apply (inj Some) in Hr; subst r; try alu_values; apply computes_intro; reflexivity).
  all: try rewrite divs_guard in Hr by assumption.
  all: match goal with Hr : (if ?g then _ else _) = _ |- _ => destruct g eqn:Hg end; try discriminate Hr.
  all: apply (inj Some) in Hr; subst r.
  all: try (lazymatch goal with
    | |- computes (code fl3r_DIVS) _ _ => by apply divs_code | |- computes (code fl3r_REMS) _ _ => by apply rems_code
    | |- computes (code fl3r_DIVU) _ _ => by apply divu_code | |- computes (code fl3r_REMU) _ _ => by apply remu_code end).
  all: apply Z.ltb_lt in Hg as Hb; pose proof (proj2 (Z.leb_gt 32 b) Hb) as Hb'; alu_values; rewrite Hb'.
  - by apply (shift_imm_computes (fun a n => a .<< n)).
  - by apply (shift_imm_computes (fun a n => a .>> n)).
  - by apply (shift_imm_computes (fun a n => u32 (s32 a .>> n))).
Qed.
End code.

Lemma quotient_fits a b : is_u32 a -> 0 < b -> is_u32 (a / b).
Proof.
  intros Ha Hb. unfold fits in *. split; [apply Z.div_pos; lia |].
  apply Z.le_lt_trans with a; [| lia]. apply Z.div_le_upper_bound; nia.
Qed.
Lemma fits_mod x : is_u32 (x mod 2 ^ 32).
Proof. apply Z.mod_pos_bound. lia. Qed.

(** The result of an arithmetic instruction is a word. *)
Lemma alu_fits o vs r : Forall is_u32 vs -> alu o vs = Some r -> is_u32 r.
Proof.
  intros Hvs Hr. destruct o; try discriminate Hr; unfold alu in Hr;
    (destruct vs as [|a [|b [|c [|d [|]]]]]; try discriminate Hr); repeat apply Forall_cons in Hvs as [? Hvs].
  all: try (match goal with Hr : (if ?g then _ else _) = _ |- _ => destruct g eqn:Hg end; try discriminate Hr).
  all: apply (inj Some) in Hr; subst r.
  all: try apply fits_mod.
  all: try assumption.
  all: try (case_match; (assumption || apply fits_mod || done)).
  all: try apply of_bits_range.
  all: try (rewrite <- andnot_value by assumption).
  all: try (rewrite <- clz_value by assumption; pose proof (countLeadingZeros_bounds a ltac:(assumption)); unfold fits; lia).
  all: try solve [auto 10 with axe].
  all: try (case_match; [| assumption]).
  all: try (unfold fits in *; lia).
  all: try (apply quotient_fits; [assumption |]; try (apply Z.pow_pos_nonneg; unfold fits in *; lia)).
  all: try (match goal with |- fits _ (?x mod ?y) => assert (0 < y) by (try (apply Z.pow_pos_nonneg); unfold fits in *; lia);
     pose proof (Z.mod_pos_bound x y); pose proof (Z.mod_le x y); unfold fits in *; lia end).
  - apply Z.eqb_neq in Hg. unfold fits in *. lia.
  - assert (2 ^ Z.min a 32 <= 2 ^ 32) by (apply Z.pow_le_mono_r; lia).
    assert (0 < 2 ^ Z.min a 32) by (apply Z.pow_pos_nonneg; unfold fits in *; lia). unfold fits. lia.
Qed.

(** ** Refinement *)

Section refinement.
Context {P : Type} `{PortEvents P} `{PortOps P} `{Jit P}.
Context (junk : Operands) (tracing : bool) (t : Ref).
Implicit Types (s : Sys P) (th : Thread).

Lemma alu_declared o vs r : alu o vs = Some r ->
  callOpcode (P := P) junk (DecodeCache.Inst o tracing) t = (d ← lift (declaration o); instFunction tracing t o d).
Proof. intros Hr. destruct o; try discriminate Hr; reflexivity. Qed.

(** One call of the function in the decode cache. *)
Lemma alu_step o s th fields dst vs r th' :
  threads s !! t = Some th -> fieldsAt s t (Thread.pc th) = Some fields -> fields !! 0%nat = Some dst ->
  sources (Thread.regs (emitRegWritePending (instruction_size o) th)) (explicit_ops o) fields = Some vs ->
  Forall is_u32 vs -> alu o vs = Some r -> dataStep o (alu_cycles o) dst r th = Some th' ->
  callOpcode junk (DecodeCache.Inst o tracing) t s = Some (set_threads (<[t := th']> (threads s)) s, Returned INST_CONTINUE).
Proof.
  intros Et Ef E0 Hs Hvs Hr Hd. rewrite (alu_declared o vs r Hr).
  destruct (alu_code (P := P) o vs r Hvs Hr) as (d & Ed & Hi & Hy & He & Hp & Hc & Hk & Hcode).
  erewrite bind_run; [| unfold lift; rewrite Ed; reflexivity].
  eapply instFunction_data; [done..|]. by rewrite Hc.
Qed.
End refinement.

(** No write is pending: nothing to do. *)
(** In a thread that issues one instruction at a time. *)
Lemma dataStep_single o cycles dst r th regs' :
  dualIssue th = false -> bufferInitialized th = false -> array_set (Thread.regs th) dst r = Some regs' ->
  dataStep o cycles dst r th = Some (set_pc (u32 (Thread.pc th + instruction_size o / 2))
    (Thread.set_regs regs' (Thread.set_time (u64 (Thread.time th + u32 (instructionCycles th * cycles))) th))).
Proof.
  intros Hd Hb Hr. unfold dataStep, writeResult, emitCycles, writeRegister. rewrite emitRegWritePending_none, Hd by done.
  cbn. rewrite Hd, Hr. by destruct (instruction_size o =? 2).
Qed.


(** The registers as the next instruction will see them. *)
Definition visibleRegs (th : Thread) : list Z := Thread.regs (doPendingRegWrites th).

(** The first instruction of a bundle makes the writes of the previous bundle visible. *)
Lemma bundle_first o cycles dst r th l : instruction_size o = 2 -> dualIssue th = true -> Thread.pc th mod 2 = 0 ->
  array_set (visibleRegs th) dst r = Some l ->
  exists th', dataStep o cycles dst r th = Some th' /\ Thread.regs th' = visibleRegs th /\ regsBuffer th' = l /\
    bufferInitialized th' = true /\ dualIssue th' = true /\ Thread.pc th' = u32 (Thread.pc th + 1) /\
    Thread.time th' = u64 (Thread.time th + u32 (instructionCycles th * cycles)).
Proof.
  intros Hz Hd Hpc Hw. unfold dataStep, writeResult, visibleRegs in *. rewrite Hz.
  unfold emitRegWritePending. rewrite (proj2 (Z.eqb_eq _ 0) Hpc). cbn [Z.eqb Pos.eqb].
  assert (doPendingRegWrites th = th \/ doPendingRegWrites th = set_bufferInitialized false (swap_regs th)) as Hor
    by (unfold doPendingRegWrites; case_match; auto).
  assert (bufferInitialized (doPendingRegWrites th) = false) as Hb by (unfold doPendingRegWrites; by case_match).
  set (th1 := doPendingRegWrites th) in *.
  assert (dualIssue th1 = true /\ Thread.pc th1 = Thread.pc th /\ Thread.time th1 = Thread.time th /\
    instructionCycles th1 = instructionCycles th) as (Hd1 & Hpc1 & Ht1 & Hc1) by (destruct Hor as [->| ->]; done).
  unfold emitCycles. rewrite Hd1, Hpc1, (proj2 (Z.eqb_eq _ 0) Hpc), Ht1, Hc1. cbn [negb orb].
  unfold writeRegister. cbn [dualIssue bufferInitialized regsBuffer Thread.regs Thread.set_time set_bufferInitialized set_regsBuffer].
  rewrite Hd1, Hb. cbn. rewrite Hw. cbn. eexists. split; [done |]. done.
Qed.

(** The second instruction of a bundle reads the same registers and adds to the buffer. *)
Lemma bundle_second o cycles dst r th l : instruction_size o = 2 -> dualIssue th = true -> bufferInitialized th = true ->
  Thread.pc th mod 2 = 1 -> array_set (regsBuffer th) dst r = Some l ->
  emitRegWritePending (instruction_size o) th = th /\
  exists th', dataStep o cycles dst r th = Some th' /\ visibleRegs th' = l /\
    Thread.pc th' = u32 (Thread.pc th + 1) /\ Thread.time th' = Thread.time th.
Proof.
  intros Hz Hd Hb Hpc Hw.
  assert (emitRegWritePending (instruction_size o) th = th) as He
    by (unfold emitRegWritePending; rewrite Hz, Hpc; done).
  split; [done |]. unfold dataStep. rewrite He. unfold writeResult, emitCycles. rewrite Hz, Hd, Hpc. cbn [negb orb Z.eqb Pos.eqb].
  unfold writeRegister. rewrite Hd, Hb. cbn [negb]. rewrite Hw. cbn. eexists. split; [done |].
  unfold visibleRegs, doPendingRegWrites. cbn. by rewrite Hb.
Qed.

(** C7: In dual-issue mode the two 16-bit instructions of a bundle, at an even program counter and
    after it, both compute their results of the registers as they were when the bundle started; both
    results are visible to the next bundle, the second in preference to the first where they have the
    same destination; and the bundle takes the time of one instruction. *)
Theorem dual_issue_bundle {P} `{PortEvents P} `{PortOps P} `{Jit P} junk tracing t (s : Sys P) th o0 o1 f0 f1 d0 d1
    vs0 vs1 r0 r1 l0 l1 :
  threads s !! t = Some th -> dualIssue th = true -> is_u32 (Thread.pc th) -> Thread.pc th mod 2 = 0 ->
  instruction_size o0 = 2 -> instruction_size o1 = 2 ->
  fieldsAt s t (Thread.pc th) = Some f0 -> fieldsAt s t (Thread.pc th + 1) = Some f1 ->
  f0 !! 0%nat = Some d0 -> f1 !! 0%nat = Some d1 ->
  sources (visibleRegs th) (explicit_ops o0) f0 = Some vs0 -> sources (visibleRegs th) (explicit_ops o1) f1 = Some vs1 ->
  Forall is_u32 vs0 -> Forall is_u32 vs1 -> alu o0 vs0 = Some r0 -> alu o1 vs1 = Some r1 ->
  array_set (visibleRegs th) d0 r0 = Some l0 -> array_set l0 d1 r1 = Some l1 ->
  exists s1 s2 th2,
    callOpcode junk (DecodeCache.Inst o0 tracing) t s = Some (s1, Returned INST_CONTINUE) /\
    callOpcode junk (DecodeCache.Inst o1 tracing) t s1 = Some (s2, Returned INST_CONTINUE) /\
    threads s2 !! t = Some th2 /\ visibleRegs th2 = l1 /\ Thread.pc th2 = u32 (Thread.pc th + 2) /\
    Thread.time th2 = u64 (Thread.time th + u32 (instructionCycles th * alu_cycles o0)).
Proof.
  intros Et Hd Hu Hpc Hz0 Hz1 Ef0 Ef1 E0 E1 Hs0 Hs1 Hv0 Hv1 Hr0 Hr1 Hw0 Hw1.
  destruct (bundle_first o0 (alu_cycles o0) d0 r0 th l0 Hz0 Hd Hpc Hw0)
    as (th1 & Hst1 & Hregs1 & Hbuf1 & Hbi1 & Hd1 & Hpc1 & Ht1).
  assert (Thread.pc th + 1 < 2 ^ 32) as Hlt.
  { unfold fits in Hu. destruct (decide (Thread.pc th = 2 ^ 32 - 1)) as [E|]; [rewrite E in Hpc; discriminate Hpc | lia]. }
  assert (Thread.pc th1 = Thread.pc th + 1) as Hpc1'
    by (rewrite Hpc1; unfold wrap; apply Z.mod_small; unfold fits in Hu; lia).
  destruct (bundle_second o1 (alu_cycles o1) d1 r1 th1 l1 Hz1 Hd1 Hbi1) as (He & th2 & Hst2 & Hvis & Hpc2 & Ht2).
  { rewrite Hpc1', Zplus_mod, Hpc. done. }
  { by rewrite Hbuf1. }
  set (s1 := set_threads (<[t := th1]> (threads s)) s).
  assert (threads s1 !! t = Some th1) as Et1 by apply lookup_insert_eq.
  exists s1, (set_threads (<[t := th2]> (threads s1)) s1), th2. split; [| split; [| split; [| split; [| split]]]].
  - apply (alu_step junk tracing t o0 s th f0 d0 vs0 r0); try done. rewrite Hz0. unfold emitRegWritePending. rewrite Hpc. exact Hs0.
  - apply (alu_step junk tracing t o1 s1 th1 f1 d1 vs1 r1); try done; [by rewrite Hpc1' | by rewrite He, Hregs1].
  - apply lookup_insert_eq.
  - done.
  - rewrite Hpc2, Hpc1'. f_equal. lia.
  - by rewrite Ht2.
Qed.


(** A bundle that exchanges two registers: [or r0, r1, r1] and [or r1, r0, r0]. *)
Lemma dual_issue_bundle_witness :
  let s := oneThread [[0; 1; 1]; [1; 0; 0]] true 0 ([7; 5] ++ replicate 21 0) in
  exists s1 s2 th2,
    callOpcode [] (DecodeCache.Inst OR_3r false) ((0, 0), 0)%nat s = Some (s1, Returned INST_CONTINUE) /\
    callOpcode [] (DecodeCache.Inst OR_3r false) ((0, 0), 0)%nat s1 = Some (s2, Returned INST_CONTINUE) /\
    threads s2 !! ((0, 0), 0)%nat = Some th2 /\ visibleRegs th2 = [5; 7] ++ replicate 21 0.
Proof.
  cbv zeta.
  destruct (dual_issue_bundle [] false ((0, 0), 0)%nat (oneThread [[0; 1; 1]; [1; 0; 0]] true 0 ([7; 5] ++ replicate 21 0))
    (set_dualIssue true (Thread.set_regs ([7; 5] ++ replicate 21 0) (exampleThread 0 0 0)))
    OR_3r OR_3r [0; 1; 1] [1; 0; 0] 0 1 [5; 5] [7; 7] 5 7 ([5; 5] ++ replicate 21 0) ([5; 7] ++ replicate 21 0))
    as (s1 & s2 & th2 & C1 & C2 & E & V & _ & _); try reflexivity; try (repeat constructor; try lia; reflexivity).
  exists s1, s2, th2. repeat split; assumption.
Defined.
