(* ===== verification/KernelEntry.v ===== *)
(** * Entering and leaving the kernel

    An exception saves the program counter and the exception data in registers and jumps to the
    handler; [kret] goes back. *)

From Stdlib Require Import ZArith Lia.
From stdpp Require Import base list numbers option gmap.
From S2P Require Import Prelude BitManip Opcode InstrDecode DecodeCache Core.
From S2P Require Import Refs Resource StateMonad Thread SysState Events SysFacts EventEnable Exec InstrControl ResourceOps InstrResource Execute DataFacts DataExec.

#[local] Open Scope Z_scope.
#[local] Open Scope cbits_scope.

(** Two numbers of registers are equal only for the same register. *)
Lemma reg_index_inj r r' : reg_index r = reg_index r' -> r = r'.
Proof. by destruct r, r'. Qed.
Lemma reg_index_range r : 0 <= reg_index r < 23.
Proof. destruct r; cbn; lia. Qed.

#[export] Instance Reg_eq_dec : EqDecision Reg.
Proof. solve_decision. Defined.

(** The register file of a thread, as a function. *)
Definition regOf (th : Thread) (r : Reg) : option Z := array_get (Thread.regs th) (reg_index r).

Section kernel.
Context {P : Type} `{PortEvents P}.
Implicit Types (s : Sys P) (t : Ref) (th : Thread).

Abbreviation withThread s t th := (set_threads (<[t := th]> (threads s)) s).

Lemma withThread_twice s t th th' : withThread (withThread s t th) t th' = withThread s t th'.
Proof. cbn. rewrite insert_insert_eq. by destruct s. Qed.
Lemma withThread_lookup s t th : threads (withThread s t th) !! t = Some th.
Proof. apply lookup_insert_eq. Qed.

Lemma getReg_run s t th r v : threads s !! t = Some th -> regOf th r = Some v -> getReg t r s = Some (s, v).
Proof. intros Et Ev. unfold getReg. rewrite (bind_run _ _ _ _ _ (thread_run _ _ _ Et)). unfold lift. unfold regOf in Ev. by rewrite Ev. Qed.

(** The registers after a write, and everything else. *)
Lemma setReg_run s t th r v : threads s !! t = Some th -> length (Thread.regs th) = 23%nat ->
  exists l, setReg t r v s = Some (withThread s t (Thread.set_regs l th), tt) /\ length l = 23%nat /\
    forall r', array_get l (reg_index r') = if decide (r' = r) then Some v else regOf th r'.
Proof.
  intros Et Hl. destruct (array_set_is_Some (Thread.regs th) (reg_index r) v) as [l E].
  { pose proof (reg_index_range r). unfold zlength. rewrite Hl. lia. }
  exists l. split; [| split].
  - unfold setReg. rewrite (bind_run _ _ _ _ _ (thread_run _ _ _ Et)). unfold lift, mbind, M_bind. cbn. by rewrite E.
  - by rewrite (array_set_length _ _ _ _ E).
  - intros r'. destruct (array_set_spec _ _ _ _ E) as (_ & _ & Hg). rewrite Hg. destruct (decide (r' = r)) as [->|Hne]; [by rewrite decide_True |].
    rewrite decide_False; [done |]. by intros ?%reg_index_inj.
Qed.

Lemma setSRBit_run s t th bit b : threads s !! t = Some th ->
  setSRBit t bit b s = Some (withThread s t (set_sr (sr_set bit b (sr th)) th), tt).
Proof. intros E. unfold setSRBit. by rewrite (modThread_run _ _ _ _ E). Qed.

(** The status register in the handler. *)
Definition kernel_sr (x : Z) : Z := sr_set IEBLE false (sr_set EEBLE false (sr_set INK true x)).

(** The address of the handler. *)
Definition handler (et : ExceptionType) (kep : Z) : Z := if bool_decide (et = ET_KCALL) then u32 (kep + 64) else kep.

Section entry.
Context (s : Sys P) (t : Ref) (th : Thread) (c : Core) (k : CacheRef).
Context (Et : threads s !! t = Some th) (Ec : sys_cores s !! t.1 = Some c)
  (Ek : array_get (threadCaches c) (Z.of_nat t.2) = Some k) (Hl : length (Thread.regs th) = 23%nat).
Context (et : ExceptionType) (pc ed ed0 kep : Z).
Context (Eed : regOf th ED = Some ed0) (Ekep : regOf th KEP = Some kep).

Lemma decodeCache_run th' : decodeCache t (withThread s t th') = Some (withThread s t th', k).
Proof. unfold decodeCache, core, get, lift, mbind, M_bind. cbn. rewrite Ec. cbn. by rewrite Ek. Qed.

(** The registers written on entry. *)
Definition entry_reg (r : Reg) : option Z :=
  match r with
  | SPC => Some (u32 ((pc .<< 1) + ref_base k))
  | SED | SSR => Some ed0
  | Opcode.ET => Some (et_value et)
  | ED => Some ed
  | _ => regOf th r
  end.

Lemma exception_run : handler et kep .& 1 = 0 -> isValidRamAddress c (handler et kep) = true ->
  exists l, length l = 23%nat /\ (forall r, array_get l (reg_index r) = entry_reg r) /\
    exception t pc et ed s = Some (withThread s t (set_sr (kernel_sr (sr th)) (Thread.set_regs l th)),
      u32 (handler et kep - ref_base k) .>> 1).
Proof.
  intros Heven Hvalid. unfold exception.
  rewrite (bind_run _ _ _ _ _ (getReg_run _ _ _ _ _ Et Eed)).
  assert (withThread s t th = s) as Hs by (rewrite insert_id by done; by destruct s).
  rewrite (bind_run _ _ s s (u32 ((pc .<< 1) + ref_base k))).
  2: { unfold thread_fromPc. rewrite <- Hs at 1. by rewrite (bind_run _ _ _ _ _ (decodeCache_run th)), Hs. }
  destruct (setReg_run s t th SSR ed0 Et Hl) as (l1 & R1 & L1 & G1). rewrite (bind_run _ _ _ _ _ R1).
  destruct (setReg_run _ t _ SPC (u32 ((pc .<< 1) + ref_base k)) (withThread_lookup s t (Thread.set_regs l1 th)) L1) as (l2 & R2 & L2 & G2).
  rewrite (bind_run _ _ _ _ _ R2), withThread_twice. clear R1 R2.
  destruct (setReg_run _ t _ SED ed0 (withThread_lookup s t (Thread.set_regs l2 th)) L2) as (l3 & R3 & L3 & G3).
  rewrite (bind_run _ _ _ _ _ R3), withThread_twice. clear R3.
  do 3 (rewrite (bind_run _ _ _ _ _ (setSRBit_run _ t _ _ _ (withThread_lookup s t _))), withThread_twice).
  destruct (setReg_run _ t _ Opcode.ET (et_value et) (withThread_lookup s t (set_sr (kernel_sr (sr th)) (Thread.set_regs l3 th))) L3) as (l4 & R4 & L4 & G4).
  rewrite (bind_run _ _ _ _ _ R4), withThread_twice. clear R4.
  destruct (setReg_run _ t _ ED ed (withThread_lookup s t (set_sr (kernel_sr (sr th)) (Thread.set_regs l4 th))) L4) as (l5 & R5 & L5 & G5).
  rewrite (bind_run _ _ _ _ _ R5), withThread_twice. clear R5.
  assert (forall r, array_get l5 (reg_index r) = entry_reg r) as HG.
  { intros r. rewrite G5. unfold regOf. cbn [Thread.regs Thread.set_regs set_sr]. rewrite G4. unfold regOf. cbn [Thread.regs Thread.set_regs set_sr].
    rewrite G3. unfold regOf. cbn [Thread.regs Thread.set_regs]. rewrite G2. unfold regOf. cbn [Thread.regs Thread.set_regs].
    rewrite G1. by destruct r. }
  erewrite bind_run; [| eapply (getReg_run _ t _ KEP kep); [apply withThread_lookup |]].
  2: { unfold regOf. cbn [Thread.regs Thread.set_regs set_sr]. rewrite HG. exact Ekep. }
  fold (handler et kep). erewrite bind_run; [| unfold core, get, lift, mbind, M_bind; cbn; by rewrite Ec].
  rewrite Heven, Hvalid. cbn [negb orb Z.eqb]. exists l5. split; [done |]. split; [done |].
  unfold thread_toPc. by rewrite (bind_run _ _ _ _ _ (decodeCache_run _)).
Qed.
End entry.
End kernel.

(** [kret] from a handler that has kept the saved registers: the operands are SPC, SED and SSR. *)
Lemma kret_run {P} `{PortEvents P} (s : Sys P) (t : Ref) (c : Core) (k : CacheRef) pc sed ssr f :
  sys_cores s !! t.1 = Some c -> array_get (threadCaches c) (Z.of_nat t.2) = Some k ->
  is_u32 (ref_base k) -> ref_base k mod 2 = 0 -> 0 <= pc < 2 ^ 31 -> pc .>> (ramSizeLog2 c - 1) = 0 ->
  let spc := u32 ((pc .<< 1) + ref_base k) in
  f_self f = t -> f_ops f = [Some spc; Some sed; Some ssr; None; None] ->
  code f0r_KRET f s = Some (s, (setLocals f [Some spc; Some sed; Some ssr; Some sed; Some (sr_set WAITING false (wrap 11 ssr))]
    pc (f_retval f) (f_watchpoint f), Next tt)).
Proof.
  cbv zeta. intros Ec Ek Hb Hbe Hpc Hok Hself Hops. destruct f as [t' cy ce o np rv w]. cbn in Hself, Hops. subst t' o.
  set (spc := u32 ((pc .<< 1) + ref_base k)).
  assert (pc .<< 1 = 2 * pc) as E2 by (rewrite Z.shiftl_mul_pow2 by lia; unfold wrap; rewrite Z.mod_small; lia).
  assert (decodeCache t s = Some (s, k)) as Hk by (unfold decodeCache, core, get, lift, mbind, M_bind; cbn; rewrite Ec; cbn; by rewrite Ek).
  assert (spc .& 1 = 0) as Heven.
  { rewrite land1. unfold spc. rewrite E2. unfold wrap. rewrite (Z.mod_mod_divide _ (2 ^ 32) 2) by (exists (2 ^ 31); reflexivity).
    rewrite Zplus_mod, Hbe, Z.mul_comm, Z.mod_mul by lia. done. }
  assert (u32 (spc - ref_base k) .>> 1 = pc) as Hto.
  { unfold spc. rewrite E2. unfold wrap. rewrite Zminus_mod_idemp_l. replace (2 * pc + ref_base k - ref_base k) with (2 * pc) by lia.
    rewrite Z.mod_small, Z.shiftr_div_pow2 by lia. change (2 ^ 1) with 2. rewrite Z.mul_comm, Z.div_mul; lia. }
  transitivity (write_pc spc (mkFrame t cy ce [Some spc; Some sed; Some ssr; Some sed; Some (sr_set WAITING false (wrap 11 ssr))] np rv w) s);
    [reflexivity |].
  unfold write_pc. rewrite self_run, Heven. cbn [f_self Z.eqb negb whenX].
  erewrite X_bind_run; [| done]. cbv beta.
  rewrite (sys_run _ _ _ _ s pc); [| unfold thread_toPc; rewrite (bind_run _ _ _ _ _ Hk); by rewrite Hto].
  rewrite (sys_run _ _ _ _ s true); [done |].
  unfold CHECK_PC, core, get, lift, mbind, M_bind. cbn. rewrite Ec. cbn. by rewrite Hok.
Qed.

(** ** The whole instruction *)

Section kret.
Context {P : Type} `{PortEvents P} `{PortOps P} `{Jit P}.

Abbreviation kretImplicit := (implicitOps (P := P) f0r_KRET).

(** The operands of [kret] are implicit. *)
Lemma kret_readOperands (s : Sys P) (t : Ref) th spc sed ssr : threads s !! t = Some th ->
  regOf th SPC = Some spc -> regOf th SED = Some sed -> regOf th SSR = Some ssr ->
  readOperands t kretImplicit 0 0 kretImplicit.*2 s =
    Some (s, [Some spc; Some sed; Some ssr; None; None]).
Proof.
  intros Et E1 E2 E3.
  assert (forall n r v, kretImplicit !! n = Some (Fixed r, in_) -> regOf th r = Some v ->
    readOperand t kretImplicit 0 n in_ s = Some (s, Some v)) as R.
  { intros n r v En Ev. unfold readOperand, operandField. rewrite bool_decide_false by lia. rewrite Nat.sub_0_r, En.
    erewrite bind_run; [| by erewrite bind_run]. cbn [fst]. rewrite (bind_run _ _ _ _ _ (thread_run _ _ _ Et)).
    unfold lift. unfold regOf in Ev. by erewrite bind_run; [| by rewrite Ev]. }
  change (kretImplicit.*2) with [in_; in_; in_; out; out]. cbn [readOperands].
  rewrite (bind_run _ _ _ _ _ (R 0%nat SPC spc eq_refl E1)). erewrite bind_run; [done |].
  rewrite (bind_run _ _ _ _ _ (R 1%nat SED sed eq_refl E2)). erewrite bind_run; [done |].
  by rewrite (bind_run _ _ _ _ _ (R 2%nat SSR ssr eq_refl E3)).
Qed.

(** The register [ED] is written; the new status register is left to the caller. *)
Lemma kret_writeOperands (s : Sys P) (t : Ref) th size a b c sed v : threads s !! t = Some th -> dualIssue th = false ->
  length (Thread.regs th) = 23%nat ->
  exists l, (forall r, array_get l (reg_index r) = if decide (r = ED) then Some sed else regOf th r) /\
    writeOperands t kretImplicit 0 size 0 kretImplicit.*2 [a; b; c; Some sed; Some v] None s =
      Some (set_threads (<[t := Thread.set_regs l th]> (threads s)) s, Some v).
Proof.
  intros Et Hd Hl. destruct (setReg_run s t th ED sed Et Hl) as (l & R & _ & G). exists l. split; [exact G |].
  destruct (array_set (Thread.regs th) (reg_index ED) sed) as [l'|] eqn:E; cycle 1.
  { unfold setReg in R. rewrite (bind_run _ _ _ _ _ (thread_run _ _ _ Et)) in R. unfold lift, mbind, M_bind in R. by rewrite E in R. }
  assert (l' = l) as ->.
  { unfold setReg in R. rewrite (bind_run _ _ _ _ _ (thread_run _ _ _ Et)) in R. unfold lift, mbind, M_bind in R.
    rewrite E in R. cbn in R. injection R as R. apply (f_equal (fun m => m !! t)) in R. rewrite !lookup_insert_eq in R. by injection R. }
  change (kretImplicit.*2) with [in_; in_; in_; out; out]. cbn [writeOperands].
  do 3 (erewrite bind_run; [| done]).
  rewrite (bind_run _ _ _ (set_threads (<[t := Thread.set_regs l th]> (threads s)) s) None); [done |].
  unfold writeOperand. erewrite bind_run; [| done]. erewrite bind_run; [| done]. cbn [fst]. destruct (size =? 2).
  - rewrite (bind_run _ _ s (set_threads (<[t := Thread.set_regs l th]> (threads s)) s) tt); [done |].
    unfold writeReg. rewrite (bind_run _ _ _ _ _ (thread_run _ _ _ Et)).
    rewrite (bind_run _ _ s s (Thread.set_regs l th)); [done |]. unfold lift, writeRegister. rewrite Hd. cbn [negb]. by rewrite E.
  - rewrite (bind_run _ _ _ _ _ (thread_run _ _ _ Et)). rewrite (bind_run _ _ s s l); [done |]. unfold lift. by rewrite E.
Qed.

(** What is left of [kret] when the program counter and the exception data are back: the status register is set, which
    may enable an event that is ready, and the executions of the instruction gone back to are counted. *)
Definition kret_end (tracing : bool) (t : Ref) (v : Z) : M (Sys P) ExecResult :=
  event ← setSR t v;
  if event : bool then _ ← takeEventCurrent t; _ ← schedule t; mret (Returned END_THREAD_EXECUTION)
  else th ← thread t; _ ← when (negb tracing) (updateExecutionFrequency t (Thread.pc th)); mret (Returned INST_CONTINUE).

(** The end of [kret], in the function that is generated for it. *)
Lemma kret_epilogue tracing size t f (s : Sys P) th l pc v : threads s !! t = Some th -> f_self f = t -> f_cycles f = INSTRUCTION_CYCLES ->
  f_nextPc f = pc -> dualIssue th = false ->
  let th1 := Thread.set_time (u64 (Thread.time th + u32 (instructionCycles th * INSTRUCTION_CYCLES))) th in
  let s1 := set_threads (<[t := th1]> (threads s)) s in
  writeOperands t kretImplicit 0 size 0 kretImplicit.*2 (f_ops f) None s1 =
    Some (set_threads (<[t := Thread.set_regs l th1]> (threads s1)) s1, Some v) ->
  f_watchpoint f = None -> f_canEvent f = false -> f_retval f = INST_CONTINUE ->
  ('(f, o) ← epilogue tracing size kretImplicit.*2 0 f0r_KRET f;
   match o with
   | Return r => mret (Returned r)
   | _ =>
       match f_watchpoint f with
       | Some (w, a) => mret (Threw (WatchpointException w a))
       | None => '(f, o) ← normalReturn f; match o with Return r => mret (Returned r) | _ => undef end
       end
   end) s = kret_end tracing t v (set_threads (<[t := set_pc pc (Thread.set_regs l th1)]> (threads s)) s).
Proof.
  cbv zeta. intros Et Hs Hc Hn Hd Hw Hwp He Hr.
  set (th1 := Thread.set_time _ th) in *. set (s1 := set_threads (<[t := th1]> (threads s)) s) in *.
  set (s2 := set_threads (<[t := set_pc pc (Thread.set_regs l th1)]> (threads s)) s).
  assert (regWriteBack size kretImplicit.*2 0 kretImplicit f s1 =
    (event ← setSR t v;
     if event : bool then _ ← takeEventCurrent t; _ ← schedule t; mret (f, Return END_THREAD_EXECUTION) else mret (f, Next tt)) s2) as Ew.
  { unfold regWriteBack. rewrite self_run, Hs, (sys_run _ _ _ _ _ _ Hw), (sys_run _ _ f _ s2 tt).
    2: { rewrite (modThread_run _ t _ (Thread.set_regs l th1) (lookup_insert_eq _ _ _)). rewrite Hn. unfold s2, s1. cbn. rewrite !insert_insert_eq. by destruct s. }
    unfold mbind, X_bind, sys. unfold mbind, M_bind. destruct (setSR t v s2) as [[s3 []]|]; [| done | done]. cbn.
    destruct (takeEventCurrent t s3) as [[s4 []]|]; [| done]. cbn. by destruct (schedule t s4) as [[s5 []]|]. }
  assert (epilogue tracing size kretImplicit.*2 0 f0r_KRET f s =
    (event ← setSR t v;
     if event : bool then _ ← takeEventCurrent t; _ ← schedule t; mret (f, Return END_THREAD_EXECUTION)
     else th ← thread t; _ ← when (negb tracing) (updateExecutionFrequency t (Thread.pc th)); mret (f, Next tt)) s2) as E.
  { unfold epilogue. rewrite (X_bind_run _ _ f s f s1 tt).
    2: { unfold addCycles, sys. rewrite Hs, Hc, (bind_run _ _ _ _ _ (modThread_run s t _ th Et)). unfold emitCycles. by rewrite Hd. }
    unfold mbind, X_bind, sys, self. unfold mbind, M_bind. rewrite Ew. unfold mbind, M_bind.
    destruct (setSR t v s2) as [[s3 []]|]; [| | done]; cbn; rewrite ?andb_true_r.
    - destruct (takeEventCurrent t s3) as [[s4 []]|]; [| done]. cbn. by destruct (schedule t s4) as [[s5 []]|].
    - rewrite Hs. destruct (thread t s3) as [[s4 th4]|]; [| done]. cbn. by destruct (when _ _ s4) as [[s5 []]|]. }
  unfold mbind at 1, M_bind at 1. rewrite E. unfold kret_end. unfold mbind, M_bind.
  destruct (setSR t v s2) as [[s3 []]|]; [| | done].
  - cbn. destruct (takeEventCurrent t s3) as [[s4 []]|]; [| done]. cbn. by destruct (schedule t s4) as [[s5 []]|].
  - cbn. destruct (thread t s3) as [[s4 th4]|]; [| done]. cbn. destruct (when _ _ s4) as [[s5 []]|]; [| done]. cbn.
    rewrite Hwp. assert (normalReturn f s5 = Some (s5, (f, Return INST_CONTINUE))) as En.
    { unfold normalReturn, emitCheckEvents. unfold mbind at 1, X_bind at 1. by rewrite He, Hr. }
    unfold mbind, M_bind. by rewrite En.
Qed.

(** A thread that issues one instruction at a time executes [kret], its time slice not over. *)
Lemma callOpcode_kret junk (o : InstructionOpcode) tracing (s : Sys P) (t : Ref) th c k pc sed ssr :
  o = KRET_0r \/ o = KRET_l0r -> threads s !! t = Some th -> sys_cores s !! t.1 = Some c ->
  array_get (threadCaches c) (Z.of_nat t.2) = Some k -> length (Thread.regs th) = 23%nat ->
  is_u32 (ref_base k) -> ref_base k mod 2 = 0 -> 0 <= pc < 2 ^ 31 -> pc .>> (ramSizeLog2 c - 1) = 0 ->
  regOf th SPC = Some (u32 ((pc .<< 1) + ref_base k)) -> regOf th SED = Some sed -> regOf th SSR = Some ssr ->
  dualIssue th = false -> bufferInitialized th = false -> hasTimeSliceExpired t s = Some (s, false) ->
  exists l, (forall r, array_get l (reg_index r) = if decide (r = ED) then Some sed else regOf th r) /\
    callOpcode junk (DecodeCache.Inst o tracing) t s =
      kret_end tracing t (sr_set WAITING false (wrap 11 ssr))
        (set_threads (<[t := set_pc pc (Thread.set_regs l
          (Thread.set_time (u64 (Thread.time th + u32 (instructionCycles th * INSTRUCTION_CYCLES))) th))]> (threads s)) s).
Proof.
  intros Ho Et Ec Ek Hl Hb Hbe Hpc Hok E1 E2 E3 Hd Hbuf Hts.
  set (th1 := Thread.set_time (u64 (Thread.time th + u32 (instructionCycles th * INSTRUCTION_CYCLES))) th).
  set (s1 := set_threads (<[t := th1]> (threads s)) s).
  destruct (kret_writeOperands s1 t th1 (instruction_size o) (Some (u32 ((pc .<< 1) + ref_base k))) (Some sed) (Some ssr) sed
    (sr_set WAITING false (wrap 11 ssr)) (withThread_lookup s t th1) Hd Hl) as (l & G & Hw).
  exists l. split; [exact G |].
  assert (callOpcode junk (DecodeCache.Inst o tracing) t s = instFunction tracing t o f0r_KRET s) as ->
    by (destruct Ho as [-> | ->]; done).
  assert (explicit_ops o = []) as Hx by (destruct Ho as [-> | ->]; done).
  unfold instFunction. rewrite Hx, app_nil_l. cbn [length]. rewrite (bind_run _ _ _ _ _ (thread_run _ _ _ Et)).
  rewrite emitRegWritePending_none by done. rewrite (bind_run _ _ s s tt).
  2: { unfold putThread, modify. cbn. rewrite insert_id by done. by destruct s. }
  set (f0 := mkFrame _ _ _ _ _ _ _).
  rewrite (bind_run _ _ s s (f0, Next tt)).
  2: { unfold emitYieldIfTimeSliceExpired. cbn [yieldBefore f0r_KRET setWritesPc setYieldBefore]. rewrite self_run.
    by rewrite (sys_run _ _ _ _ _ _ Hts). }
  cbv beta iota. rewrite (bind_run _ _ _ _ _ (kret_readOperands s t th _ _ _ Et E1 E2 E3)).
  erewrite bind_run; [| by apply (kret_run s t c k pc sed ssr)]. cbv beta iota.
  set (f1 := setLocals _ _ pc _ _). set (s2 := set_threads (<[t := set_pc pc (Thread.set_regs l th1)]> (threads s)) s).
  by apply (kret_epilogue tracing (instruction_size o) t f1 s th l pc).
Qed.

(** When no event or interrupt becomes enabled the status register is simply replaced. *)
Lemma kret_end_quiet tracing t v (s : Sys P) th : threads s !! t = Some th ->
  (Z.testbit v EEBLE = true -> Z.testbit (sr th) EEBLE = true) -> (Z.testbit v IEBLE = true -> Z.testbit (sr th) IEBLE = true) ->
  kret_end tracing t v s =
    (_ ← when (negb tracing) (updateExecutionFrequency t (Thread.pc th)); mret (Returned INST_CONTINUE))
      (set_threads (<[t := set_sr v th]> (threads s)) s).
Proof.
  intros Et He Hi. unfold kret_end. rewrite (bind_run _ _ s (set_threads (<[t := set_sr v th]> (threads s)) s) false).
  - by rewrite (bind_run _ _ _ _ _ (thread_run _ _ _ (lookup_insert_eq _ _ _))).
  - unfold setSR. rewrite (bind_run _ _ _ _ _ (thread_run _ _ _ Et)).
    assert (forall b, (Z.testbit v b = true -> Z.testbit (sr th) b = true) -> Z.testbit (v .& (sr th .^ v)) b = false) as Hb.
    { intros b Hb. rewrite Z.land_spec, Z.lxor_spec. destruct (Z.testbit v b); [by rewrite Hb | done]. }
    by rewrite !Hb.
Qed.
End kret.

(** C8: An exception at [pc], a place of the RAM, with a kernel entry point whose handler is at an even address of the RAM, enters the handler at the kernel entry point (64 bytes further for a
    kernel call) with the type and the data of the exception in ET and ED, the address of [pc] in SPC,
    the old exception data in SED, events and interrupts disabled and the thread in kernel mode; the
    other registers keep their values.  When the handler has left SPC, SED and SSR alone and executes
    either encoding of [kret] through the decode cache, in single-issue mode and its time slice not
    over, the thread is at [pc] again with the old exception data in ED and its other registers as the
    handler left them, one instruction later, and the rest of the system is as it was, except that (unless the
    instructions are traced) the executions of the instruction gone back to are counted, which may start the compiler.  The status
    register does not come back: SSR holds the old exception data, and [kret] installs its low 11 bits
    with the waiting bit cleared; if they enable events or interrupts that the handler had disabled the
    thread takes an event that is ready, and otherwise it continues. *)
Theorem exception_return {P} `{PortEvents P} `{PortOps P} `{Jit P} (s : Sys P) (t : Ref) th c k et pc ed ed0 kep :
  threads s !! t = Some th -> sys_cores s !! t.1 = Some c -> array_get (threadCaches c) (Z.of_nat t.2) = Some k ->
  length (Thread.regs th) = 23%nat -> regOf th ED = Some ed0 -> regOf th KEP = Some kep ->
  handler et kep .& 1 = 0 -> isValidRamAddress c (handler et kep) = true ->
  is_u32 (ref_base k) -> ref_base k mod 2 = 0 -> 0 <= pc < 2 ^ 31 -> pc .>> (ramSizeLog2 c - 1) = 0 ->
  let spc := u32 ((pc .<< 1) + ref_base k) in
  exists th', let s' := set_threads (<[t := th']> (threads s)) s in
    exception t pc et ed s = Some (s', u32 (handler et kep - ref_base k) .>> 1) /\
    (forall r, regOf th' r =
       match r with
       | SPC => Some spc | SED | SSR => Some ed0 | Opcode.ET => Some (et_value et) | ED => Some ed | _ => regOf th r
       end) /\
    sr th' = sr_set IEBLE false (sr_set EEBLE false (sr_set INK true (sr th))) /\
    forall junk o tracing s1 th1 c1, o = KRET_0r \/ o = KRET_l0r ->
      threads s1 !! t = Some th1 -> sys_cores s1 !! t.1 = Some c1 ->
      array_get (threadCaches c1) (Z.of_nat t.2) = Some k -> ramSizeLog2 c1 = ramSizeLog2 c ->
      length (Thread.regs th1) = 23%nat -> regOf th1 SPC = regOf th' SPC -> regOf th1 SED = regOf th' SED -> regOf th1 SSR = regOf th' SSR ->
      dualIssue th1 = false -> bufferInitialized th1 = false -> hasTimeSliceExpired t s1 = Some (s1, false) ->
      let sr2 := sr_set WAITING false (wrap 11 ed0) in
      exists l, (forall r, array_get l (reg_index r) = if decide (r = ED) then Some ed0 else regOf th1 r) /\
        let th2 := set_pc pc (Thread.set_regs l
          (Thread.set_time (u64 (Thread.time th1 + u32 (instructionCycles th1 * INSTRUCTION_CYCLES))) th1)) in
        callOpcode junk (DecodeCache.Inst o tracing) t s1 =
          (event ← setSR t sr2;
           if event : bool then _ ← takeEventCurrent t; _ ← schedule t; mret (Returned END_THREAD_EXECUTION)
           else th ← thread t; _ ← when (negb tracing) (updateExecutionFrequency t (Thread.pc th)); mret (Returned INST_CONTINUE))
            (set_threads (<[t := th2]> (threads s1)) s1) /\
        ((Z.testbit sr2 EEBLE = true -> Z.testbit (sr th1) EEBLE = true) ->
         (Z.testbit sr2 IEBLE = true -> Z.testbit (sr th1) IEBLE = true) ->
         callOpcode junk (DecodeCache.Inst o tracing) t s1 =
           (_ ← when (negb tracing) (updateExecutionFrequency t pc); mret (Returned INST_CONTINUE))
             (set_threads (<[t := set_sr sr2 th2]> (threads s1)) s1)).
Proof.
  cbv zeta. intros Et Ec Ek Hl Eed Ekep Heven Hvalid Hb Hbe Hpc Hok.
  destruct (exception_run s t th c k Et Ec Ek Hl et pc ed ed0 kep Eed Ekep Heven Hvalid) as (l & Hll & Hg & Hx).
  eexists. split; [exact Hx |]. split; [intros r; unfold regOf; cbn; rewrite Hg; by destruct r |]. split; [done |].
  assert (forall r, regOf (set_sr (kernel_sr (sr th)) (Thread.set_regs l th)) r = entry_reg th k et pc ed ed0 r) as HR by exact Hg.
  intros junk o tr s1 th1 c1 Ho Et1 Ec1 Ek1 Hram Hl1 E1 E2 E3 Hd Hbuf Hts. rewrite HR in E1, E2, E3.
  destruct (callOpcode_kret junk o tr s1 t th1 c1 k pc ed0 ed0) as (l1 & G1 & R); try done; [by rewrite Hram |].
  exists l1. split; [exact G1 |]. rewrite R. split; [done |]. intros He Hi.
  rewrite (kret_end_quiet _ _ _ _ _ (lookup_insert_eq _ _ _)) by done.
  cbn [threads set_threads]. rewrite insert_insert_eq. by destruct s1.
Qed.

(** The registers of the witness: the data of an earlier exception is 0x54, the handler is at 16. *)
Definition exampleRegs : list Z := replicate 17 0 ++ [0x54; 16; 0; 0; 0; 0].

(** The exception is taken at 3, and KRET executed at 8 by the thread that has entered the handler. *)
Lemma exception_return_witness : exists th' s2 th2,
  let s := oneThread [[]] false 3 exampleRegs in
  let s1 := set_threads (<[((0, 0), 0)%nat := set_pc 8 th']> (threads s)) s in
  exception ((0, 0), 0)%nat 3 ET_ARITHMETIC 9 s = Some (set_threads (<[((0, 0), 0)%nat := th']> (threads s)) s, 8) /\
  regOf th' SPC = Some 6 /\ regOf th' SSR = Some 0x54 /\ regOf th' ED = Some 9 /\
  callOpcode [] (DecodeCache.Inst KRET_0r true) ((0, 0), 0)%nat s1 = Some (s2, Returned INST_CONTINUE) /\
  threads s2 !! ((0, 0), 0)%nat = Some th2 /\ Thread.pc th2 = 3 /\ regOf th2 ED = Some 0x54 /\ sr th2 = 0x14.
Proof.
  destruct (exception_return (oneThread [[]] false 3 exampleRegs) ((0, 0), 0)%nat
    (set_dualIssue false (Thread.set_regs exampleRegs (exampleThread 0 0 3))) (exampleCore [[]])
    (mkCacheRef true 0 1 false) ET_ARITHMETIC 3 9 0x54 16) as (th' & Hx & Hr & Hsr & Hk);
    try reflexivity; try (split; [discriminate || lia | reflexivity || lia]).
  set (s := oneThread [[]] false 3 exampleRegs) in *.
  pose (T := match exception ((0, 0), 0)%nat 3 ET_ARITHMETIC 9 s with
             | Some (s', _) => default (exampleThread 0 0 0) (threads s' !! ((0, 0), 0)%nat) | None => exampleThread 0 0 0 end).
  assert (th' = T) as ET by (unfold T; rewrite Hx; cbn [threads set_threads]; by rewrite lookup_insert_eq).
  set (s1 := set_threads (<[((0, 0), 0)%nat := set_pc 8 th']> (threads s)) s).
  assert (hasTimeSliceExpired ((0, 0), 0)%nat s1 = Some (s1, false)) as Hts by (unfold s1; rewrite ET; vm_compute; reflexivity).
  destruct (Hk [] KRET_0r true s1 (set_pc 8 th') (exampleCore [[]])) as (l & Hl & _ & Hq); try reflexivity; try exact Hts.
  - by left.
  - by rewrite ET.
  - by rewrite ET.
  - by rewrite ET.
  - exists th'. eexists _, _. cbv zeta. split; [exact Hx |]. split; [apply Hr |]. split; [apply Hr |]. split; [apply Hr |].
    split; [refine (eq_trans (Hq _ _) _); [intros E; vm_compute in E; discriminate E.. | reflexivity] |].
    split; [apply lookup_insert_eq |]. split; [reflexivity |]. split; [| reflexivity]. unfold regOf. cbn. apply (Hl ED).
Defined.
