(* ===== verification/Signal.v ===== *)
(** * Signals (lib/Signal.h)

    A signal is a constant or a clock of fixed frequency; an iterator walks over the edges of a
    clock.  Times are 64-bit, values and periods 32-bit. *)

From Stdlib Require Import ZArith Lia.
From stdpp Require Import base list numbers option.
From S2P Require Import Prelude.

#[local] Open Scope Z_scope.
#[local] Open Scope cbits_scope.

(** lib/Signal.h:16-19 Edge::Type *)
Inductive EdgeType := RISING | FALLING.

#[export] Instance EdgeType_eq_dec : EqDecision EdgeType.
Proof. solve_decision. Defined.

(** lib/Signal.h:25-27 Edge::flip *)
Definition flip (type : EdgeType) : EdgeType := match type with RISING => FALLING | FALLING => RISING end.

(** lib/Signal.h:15-28 Edge *)
Record Edge := mkEdge { edge_time : Z; edge_type : EdgeType }.

(** lib/Signal.h:32-39 EdgeIterator *)
Record EdgeIterator := mkIter { edge : Edge; iter_halfPeriod : Z }.

(** [it->time], [it->type] *)
Definition it_time (it : EdgeIterator) : Z := edge_time (edge it).
Definition it_type (it : EdgeIterator) : EdgeType := edge_type (edge it).

(** lib/Signal.h:40-44 EdgeIterator::operator++ *)
Definition it_next (it : EdgeIterator) : EdgeIterator :=
  mkIter (mkEdge (u64 (it_time it + iter_halfPeriod it)) (flip (it_type it))) (iter_halfPeriod it).

(** lib/Signal.h:50-60 EdgeIterator::operator+: and [+=] *)
Definition it_add (it : EdgeIterator) (n : Z) : EdgeIterator :=
  mkIter (mkEdge (u64 (it_time it + iter_halfPeriod it * n)) (if n .& 1 =? 0 then it_type it else flip (it_type it)))
    (iter_halfPeriod it).

(** lib/Signal.h:61-65 EdgeIterator::operator-- *)
Definition it_prev (it : EdgeIterator) : EdgeIterator :=
  mkIter (mkEdge (u64 (it_time it - iter_halfPeriod it)) (flip (it_type it))) (iter_halfPeriod it).

(** lib/Signal.h:71-81 EdgeIterator::operator-: and [-=] *)
Definition it_sub (it : EdgeIterator) (n : Z) : EdgeIterator :=
  mkIter (mkEdge (u64 (it_time it - iter_halfPeriod it * n)) (if n .& 1 =? 0 then it_type it else flip (it_type it)))
    (iter_halfPeriod it).

(** lib/Signal.h:82-84 EdgeIterator::operator-: between iterators; undefined for a period of 0 *)
Definition it_distance (it other : EdgeIterator) : option Z :=
  if iter_halfPeriod it =? 0 then None else Some (u64 (it_time it - it_time other) / iter_halfPeriod it).

(** lib/Signal.h:91-93 EdgeIterator::operator== *)
Definition it_eqb (it other : EdgeIterator) : bool := it_time it =? it_time other.

(** lib/Signal.h:102-109 Signal *)
Record Signal := mkSignal { halfPeriod : Z; value : Z }.

#[export] Instance Signal_eq_dec : EqDecision Signal.
Proof. solve_decision. Defined.

(** lib/Signal.h:111-111 Signal::Signal: a constant *)
Definition constant (v : Z) : Signal := mkSignal 0 v.

(** lib/Signal.h:112-116 Signal::Signal: a clock; the division is undefined for a period of 0 *)
Definition clockSignal (startTime hp : Z) : option Signal :=
  if u32 (hp * 2) =? 0 then None else Some (mkSignal hp (u32 (startTime mod u32 (hp * 2)))).

(** lib/Signal.h:117-117 Signal::isClock *)
Definition isClock (x : Signal) : bool := negb (halfPeriod x =? 0).

(** lib/Signal.h:118-123 Signal::getValue *)
Definition getValue (x : Signal) (time : Z) : Z :=
  if halfPeriod x =? 0 then value x else (u64 (time - value x) / halfPeriod x) mod 2.

(** lib/Signal.h:124-130 Signal::getNextEdge *)
Definition getNextEdge (x : Signal) (time : Z) : option Edge :=
  if halfPeriod x =? 0 then None
  else
    let nextEdgeNumber := u64 (1 + u64 (time - value x) / halfPeriod x) in
    Some (mkEdge (u64 (value x + nextEdgeNumber * halfPeriod x)) (if nextEdgeNumber .& 1 =? 0 then FALLING else RISING)).

(** lib/Signal.h:131-133 Signal::getEdgeIterator *)
Definition getEdgeIterator (x : Signal) (time : Z) : option EdgeIterator :=
  e ← getNextEdge x time; Some (mkIter e (halfPeriod x)).

(** lib/Signal.h:134-140 Signal::getNextEdge: of a type *)
Definition getNextEdgeOf (x : Signal) (time : Z) (type : EdgeType) : option Edge :=
  it ← getEdgeIterator x time;
  Some (edge (if bool_decide (it_type it = type) then it else it_next it)).

(** lib/Signal.h:144-151 Signal::changeFrequency: with an initial value; the test for a period of 0 does not prevent the division by it *)
Definition changeFrequencyFrom (x : Signal) (time initial hp : Z) : option Signal :=
  let time := if initial =? 0 then time else u64 (time + hp) in
  clockSignal time hp.

(** lib/Signal.h:141-143 Signal::changeFrequency *)
Definition changeFrequency (x : Signal) (time hp : Z) : option Signal := changeFrequencyFrom x time (getValue x time) hp.

(** lib/Signal.h:152-156 Signal::setFreeRunning *)
Definition setFreeRunning (x : Signal) (time hp : Z) : option Signal := if hp =? 0 then None else clockSignal time hp.

(** lib/Signal.h:161-166 Signal::flipLeastSignificantBit *)
Definition flipLeastSignificantBit (x : Signal) : Signal :=
  if halfPeriod x =? 0 then mkSignal 0 (value x .^ 1) else mkSignal (halfPeriod x) (u32 (value x + halfPeriod x)).

(** lib/Signal.h:170-172 Signal::getPeriod *)
Definition getPeriod (x : Signal) : Z := u32 (halfPeriod x * 2).

(** lib/Signal.h:173-177 Signal::operator== *)
Definition signal_eqb (x y : Signal) : bool := (halfPeriod x =? halfPeriod y) && (value x =? value y).

(** ** Edges *)

(** A clock that has started by [time], far from the end of time. *)
Record clock_ok (x : Signal) (time : Z) : Prop := {
  ck_period : 0 < halfPeriod x < 2 ^ 31;
  ck_value : 0 <= value x <= time;
  ck_time : time < 2 ^ 63
}.

(** The number of the period a time is in. *)
Definition phase (x : Signal) (time : Z) : Z := (time - value x) / halfPeriod x.

Lemma phase_bounds x time : clock_ok x time ->
  0 <= phase x time /\ phase x time * halfPeriod x <= time - value x < (phase x time + 1) * halfPeriod x.
Proof.
  intros [Hp Hv Ht]. unfold phase. split; [apply Z.div_pos; lia |].
  pose proof (Z.mul_div_le (time - value x) (halfPeriod x)). pose proof (Z.mul_succ_div_gt (time - value x) (halfPeriod x)). lia.
Qed.

Lemma getValue_phase x time : clock_ok x time -> getValue x time = phase x time mod 2.
Proof.
  intros [Hp Hv Ht]. unfold getValue, phase. destruct (Z.eqb_spec (halfPeriod x) 0); [lia |].
  unfold wrap. rewrite (Z.mod_small (time - value x)) by lia. done.
Qed.

Lemma parity_type n : (if n .& 1 =? 0 then FALLING else RISING) = if n mod 2 =? 1 then RISING else FALLING.
Proof.
  change 1 with (Z.ones 1) at 1. rewrite Z.land_ones by lia. change (2 ^ 1) with 2.
  pose proof (Z.mod_pos_bound n 2). destruct (Z.eqb_spec (n mod 2) 0), (Z.eqb_spec (n mod 2) 1); try done; lia.
Qed.

(** The next edge, in terms of the phase. *)
Lemma getNextEdge_phase x time : clock_ok x time ->
  getNextEdge x time = Some (mkEdge (value x + (phase x time + 1) * halfPeriod x)
    (if (phase x time + 1) mod 2 =? 1 then RISING else FALLING)).
Proof.
  intros Hok. pose proof (phase_bounds x time Hok) as [H0 [Hlo Hhi]]. destruct Hok as [Hp Hv Ht].
  unfold getNextEdge. destruct (Z.eqb_spec (halfPeriod x) 0); [lia |].
  assert (u64 (time - value x) = time - value x) as E1 by (unfold wrap; apply Z.mod_small; lia). rewrite E1. fold (phase x time).
  assert (phase x time <= time) by nia.
  assert (u64 (1 + phase x time) = phase x time + 1) as E2 by (unfold wrap; rewrite Z.mod_small; lia). rewrite E2, parity_type.
  assert (u64 (value x + (phase x time + 1) * halfPeriod x) = value x + (phase x time + 1) * halfPeriod x) as ->; [| done].
  unfold wrap. apply Z.mod_small. nia.
Qed.

(** Between two edges the value does not change; at the edge it does. *)
Lemma phase_unique x time n : 0 < halfPeriod x -> n * halfPeriod x <= time - value x < (n + 1) * halfPeriod x -> phase x time = n.
Proof. intros Hp Hn. unfold phase. symmetry. apply Z.div_unique with (time - value x - n * halfPeriod x); lia. Qed.

(** ** Walking over edges *)

(** The iterator [n] edges on. *)
Fixpoint it_iterate (n : nat) (it : EdgeIterator) : EdgeIterator :=
  match n with O => it | S n => it_iterate n (it_next it) end.

Lemma land1_S n : ((Z.of_nat (S n)) .& 1 =? 0) = negb (Z.of_nat n .& 1 =? 0).
Proof.
  rewrite Nat2Z.inj_succ. change 1 with (Z.ones 1). rewrite !Z.land_ones by lia. change (2 ^ 1) with 2.
  rewrite <- Z.add_1_r, Zplus_mod. pose proof (Z.mod_pos_bound (Z.of_nat n) 2).
  destruct (Z.eqb_spec (Z.of_nat n mod 2) 0) as [E|E]; [by rewrite E |].
  replace (Z.of_nat n mod 2) with 1 by lia. done.
Qed.
Lemma flip_flip t : flip (flip t) = t.
Proof. by destruct t. Qed.

Lemma it_iterate_add n : forall it, is_u64 (it_time it) -> it_iterate n it = it_add it (Z.of_nat n).
Proof.
  induction n as [|n IH]; intros [[time type] hp] Hu; unfold it_add, it_next, it_time, it_type in *; cbn in *.
  - rewrite Z.mul_0_r, Z.add_0_r. unfold wrap. by rewrite Z.mod_small.
  - rewrite IH by (cbn; apply Z.mod_pos_bound; lia). cbn. rewrite land1_S.
    assert (u64 (u64 (time + hp) + hp * Z.of_nat n) = u64 (time + hp * Z.of_nat (S n))) as ->.
    { unfold wrap. rewrite Zplus_mod_idemp_l. f_equal. lia. }
    destruct (Z.of_nat n .& 1 =? 0); cbn; [done |]. by rewrite flip_flip.
Qed.

(** On a clock signal, the next edge after a time comes at most half a period later; until then
    the signal keeps its value, and at the edge it takes the other one: 1 at a rising edge, 0 at a
    falling one.  Stepping an iterator [n] times and adding [n] to it reach the same edge, and from
    there on the edges are the edges of the signal. *)
Theorem signal_edges (x : Signal) (time : Z) : clock_ok x time -> clock_ok x (time + 2 ^ 31) ->
  exists it, getEdgeIterator x time = Some it /\
    time < it_time it <= time + halfPeriod x /\
    (forall u, time <= u < it_time it -> getValue x u = getValue x time) /\
    getValue x (it_time it) = 1 - getValue x time /\
    getValue x (it_time it) = (match it_type it with RISING => 1 | FALLING => 0 end) /\
    (forall n, it_iterate n it = it_add it (Z.of_nat n)) /\
    getEdgeIterator x (it_time it) = Some (it_next it).
Proof.
  intros Hok Hok'. pose proof (phase_bounds x time Hok) as [H0 [Hlo Hhi]].
  assert (forall u, time <= u <= time + 2 ^ 31 -> clock_ok x u) as Hu by (intros u ?; destruct Hok, Hok'; split; lia).
  unfold getEdgeIterator. rewrite (getNextEdge_phase x time Hok). eexists. split; [reflexivity |].
  unfold it_time, it_type. cbn [edge edge_time edge_type]. set (k := phase x time) in *. set (e := value x + (k + 1) * halfPeriod x).
  destruct Hok as [Hp Hv Ht]. assert (time < e <= time + halfPeriod x) as He by (unfold e; lia).
  assert (phase x e = k + 1) as Hke by (apply phase_unique; unfold e; lia).
  assert (getValue x e = (k + 1) mod 2) as Hve by (rewrite getValue_phase, Hke by (apply Hu; lia); done).
  assert (getValue x time = k mod 2) as Hvt by (rewrite getValue_phase by (apply Hu; lia); done).
  split; [done |]. split; [| split; [| split; [| split]]].
  - intros u Hur. rewrite Hvt, getValue_phase by (apply Hu; lia). f_equal. apply phase_unique; unfold e in *; lia.
  - rewrite Hve, Hvt. pose proof (Z.mod_pos_bound k 2). rewrite Zplus_mod.
    destruct (decide (k mod 2 = 0)) as [E|E]; [by rewrite E |]. replace (k mod 2) with 1 by lia. done.
  - rewrite Hve. pose proof (Z.mod_pos_bound (k + 1) 2). destruct (Z.eqb_spec ((k + 1) mod 2) 1); lia.
  - intros n. apply it_iterate_add. unfold it_time, fits. cbn. lia.
  - rewrite (getNextEdge_phase x e) by (apply Hu; lia). rewrite Hke. cbn. unfold it_next, it_time, it_type. cbn. do 2 f_equal.
    + assert (u64 (e + halfPeriod x) = e + halfPeriod x) as -> by (unfold wrap; apply Z.mod_small; lia). unfold e.
      assert ((if (k + 1 + 1) mod 2 =? 1 then RISING else FALLING) = flip (if (k + 1) mod 2 =? 1 then RISING else FALLING)) as ->.
      { rewrite (Zplus_mod (k + 1) 1). pose proof (Z.mod_pos_bound (k + 1) 2).
        destruct (decide ((k + 1) mod 2 = 0)) as [E|E]; [by rewrite E |]. replace ((k + 1) mod 2) with 1 by lia. done. }
      f_equal. lia.
Qed.

(** The reference clock divided by two: a half period of 4 cycles. *)
Lemma signal_edges_witness : exists it, getEdgeIterator (mkSignal 4 2) 11 = Some it /\ it_time it = 14 /\
  getValue (mkSignal 4 2) 14 = 1 - getValue (mkSignal 4 2) 11.
Proof.
  destruct (signal_edges (mkSignal 4 2) 11) as (it & E & _ & _ & V & _); [split; cbn; lia.. |].
  exists it. split; [exact E |]. injection E as <-. split; [reflexivity | exact V].
Defined.
