(* ===== verification/PortState.v ===== *)
(** * The state of ports and clock blocks (lib/Port.h, lib/ClockBlock.h)

    The members of [Port] and [ClockBlock], and the part of the system they make up.  The common part
    of a port (its identifier, owner, vector) is among the eventable resources of the system. *)

From Stdlib Require Import ZArith Lia.
From stdpp Require Import base list numbers option gmap.
From S2P Require Import Prelude Signal.
From S2P Require Import Refs Resource StateMonad SysState.

#[local] Open Scope Z_scope.

(** lib/Port.h:23-27 Port::ReadyMode *)
Inductive ReadyMode := NOREADY | STROBED | HANDSHAKE.
(** lib/Port.h:28-31 Port::MasterSlave *)
Inductive MasterSlave := MASTER | SLAVE.
(** lib/Port.h:32-36 Port::PortType *)
Inductive PortType := DATAPORT | READYPORT | CLOCKPORT.

#[export] Instance ReadyMode_eq_dec : EqDecision ReadyMode.
Proof. solve_decision. Defined.
#[export] Instance MasterSlave_eq_dec : EqDecision MasterSlave.
Proof. solve_decision. Defined.
#[export] Instance PortType_eq_dec : EqDecision PortType.
Proof. solve_decision. Defined.
#[export] Instance Condition_eq_dec : EqDecision Condition.
Proof. solve_decision. Defined.

(** lib/PortInterface.h:15-20 PortInterface: what is connected to the pins: another port, or a device *)
Inductive PortInterface := IPort (p : EventableRef) | IDevice (n : nat).

(** lib/Port.h:38-101 Port *)
Record Port := mkPort {
  pt_data : Z;
  pt_condition : Condition;
  clock : option Ref;
  sourceOf : list Ref;
  readyInOf : list Ref;
  readyOutOf : option EventableRef;
  portCounter : Z;
  loopback : option PortInterface;
  tracer : option PortInterface;
  readyOutPorts : list EventableRef;
  pausedOut : option Ref;
  pausedIn : option Ref;
  pausedSync : option Ref;
  shiftRegEntries : Z;
  portShiftCount : Z;
  validShiftRegEntries : Z;
  shiftReg : Z;
  transferReg : Z;
  timeReg : Z;
  readyOut : bool;
  readyIn : bool;
  transferWidth : Z;
  timeRegValid : bool;
  transferRegValid : bool;
  timestampReg : Z;
  holdTransferReg : bool;
  pt_time : Z;
  nextEdge : EdgeIterator;
  outputPort : bool;
  buffered : bool;
  inverted : bool;
  samplingEdge : EdgeType;
  readyMode : ReadyMode;
  masterSlave : MasterSlave;
  portType : PortType;
  pinsInputValue : Signal
}.

Definition set_pt_data (v : Z) (p : Port) : Port :=
  mkPort v (pt_condition p) (clock p) (sourceOf p) (readyInOf p) (readyOutOf p) (portCounter p)
    (loopback p) (tracer p) (readyOutPorts p) (pausedOut p) (pausedIn p) (pausedSync p)
    (shiftRegEntries p) (portShiftCount p) (validShiftRegEntries p) (shiftReg p) (transferReg p)
    (timeReg p) (readyOut p) (readyIn p) (transferWidth p) (timeRegValid p) (transferRegValid p)
    (timestampReg p) (holdTransferReg p) (pt_time p) (nextEdge p) (outputPort p) (buffered p)
    (inverted p) (samplingEdge p) (readyMode p) (masterSlave p) (portType p) (pinsInputValue p).
Definition set_pt_condition (v : Condition) (p : Port) : Port :=
  mkPort (pt_data p) v (clock p) (sourceOf p) (readyInOf p) (readyOutOf p) (portCounter p)
    (loopback p) (tracer p) (readyOutPorts p) (pausedOut p) (pausedIn p) (pausedSync p)
    (shiftRegEntries p) (portShiftCount p) (validShiftRegEntries p) (shiftReg p) (transferReg p)
    (timeReg p) (readyOut p) (readyIn p) (transferWidth p) (timeRegValid p) (transferRegValid p)
    (timestampReg p) (holdTransferReg p) (pt_time p) (nextEdge p) (outputPort p) (buffered p)
    (inverted p) (samplingEdge p) (readyMode p) (masterSlave p) (portType p) (pinsInputValue p).
Definition set_clock (v : option Ref) (p : Port) : Port :=
  mkPort (pt_data p) (pt_condition p) v (sourceOf p) (readyInOf p) (readyOutOf p) (portCounter p) (loopback p) (tracer p) (readyOutPorts p) (pausedOut p) (pausedIn p) (pausedSync p)
    (shiftRegEntries p) (portShiftCount p) (validShiftRegEntries p) (shiftReg p) (transferReg p)
    (timeReg p) (readyOut p) (readyIn p) (transferWidth p) (timeRegValid p) (transferRegValid p)
    (timestampReg p) (holdTransferReg p) (pt_time p) (nextEdge p) (outputPort p) (buffered p)
    (inverted p) (samplingEdge p) (readyMode p) (masterSlave p) (portType p) (pinsInputValue p).
Definition set_sourceOf (v : list Ref) (p : Port) : Port :=
  mkPort (pt_data p) (pt_condition p) (clock p) v (readyInOf p) (readyOutOf p) (portCounter p)
    (loopback p) (tracer p) (readyOutPorts p) (pausedOut p) (pausedIn p) (pausedSync p)
    (shiftRegEntries p) (portShiftCount p) (validShiftRegEntries p) (shiftReg p) (transferReg p)
    (timeReg p) (readyOut p) (readyIn p) (transferWidth p) (timeRegValid p) (transferRegValid p)
    (timestampReg p) (holdTransferReg p) (pt_time p) (nextEdge p) (outputPort p) (buffered p)
    (inverted p) (samplingEdge p) (readyMode p) (masterSlave p) (portType p) (pinsInputValue p).
Definition set_readyInOf (v : list Ref) (p : Port) : Port :=
  mkPort (pt_data p) (pt_condition p) (clock p) (sourceOf p) v (readyOutOf p) (portCounter p)
    (loopback p) (tracer p) (readyOutPorts p) (pausedOut p) (pausedIn p) (pausedSync p)
    (shiftRegEntries p) (portShiftCount p) (validShiftRegEntries p) (shiftReg p) (transferReg p)
    (timeReg p) (readyOut p) (readyIn p) (transferWidth p) (timeRegValid p) (transferRegValid p)
    (timestampReg p) (holdTransferReg p) (pt_time p) (nextEdge p) (outputPort p) (buffered p)
    (inverted p) (samplingEdge p) (readyMode p) (masterSlave p) (portType p) (pinsInputValue p).
Definition set_readyOutOf (v : option EventableRef) (p : Port) : Port :=
  mkPort (pt_data p) (pt_condition p) (clock p) (sourceOf p) (readyInOf p) v (portCounter p)
    (loopback p) (tracer p) (readyOutPorts p) (pausedOut p) (pausedIn p) (pausedSync p)
    (shiftRegEntries p) (portShiftCount p) (validShiftRegEntries p) (shiftReg p) (transferReg p)
    (timeReg p) (readyOut p) (readyIn p) (transferWidth p) (timeRegValid p) (transferRegValid p)
    (timestampReg p) (holdTransferReg p) (pt_time p) (nextEdge p) (outputPort p) (buffered p)
    (inverted p) (samplingEdge p) (readyMode p) (masterSlave p) (portType p) (pinsInputValue p).
Definition set_portCounter (v : Z) (p : Port) : Port :=
  mkPort (pt_data p) (pt_condition p) (clock p) (sourceOf p) (readyInOf p) (readyOutOf p) v
    (loopback p) (tracer p) (readyOutPorts p) (pausedOut p) (pausedIn p) (pausedSync p)
    (shiftRegEntries p) (portShiftCount p) (validShiftRegEntries p) (shiftReg p) (transferReg p)
    (timeReg p) (readyOut p) (readyIn p) (transferWidth p) (timeRegValid p) (transferRegValid p)
    (timestampReg p) (holdTransferReg p) (pt_time p) (nextEdge p) (outputPort p) (buffered p)
    (inverted p) (samplingEdge p) (readyMode p) (masterSlave p) (portType p) (pinsInputValue p).
Definition set_loopback (v : option PortInterface) (p : Port) : Port :=
  mkPort (pt_data p) (pt_condition p) (clock p) (sourceOf p) (readyInOf p) (readyOutOf p)
    (portCounter p) v (tracer p) (readyOutPorts p) (pausedOut p) (pausedIn p) (pausedSync p)
    (shiftRegEntries p) (portShiftCount p) (validShiftRegEntries p) (shiftReg p) (transferReg p)
    (timeReg p) (readyOut p) (readyIn p) (transferWidth p) (timeRegValid p) (transferRegValid p)
    (timestampReg p) (holdTransferReg p) (pt_time p) (nextEdge p) (outputPort p) (buffered p)
    (inverted p) (samplingEdge p) (readyMode p) (masterSlave p) (portType p) (pinsInputValue p).
Definition set_tracer (v : option PortInterface) (p : Port) : Port :=
  mkPort (pt_data p) (pt_condition p) (clock p) (sourceOf p) (readyInOf p) (readyOutOf p)
    (portCounter p) (loopback p) v (readyOutPorts p) (pausedOut p) (pausedIn p) (pausedSync p)
    (shiftRegEntries p) (portShiftCount p) (validShiftRegEntries p) (shiftReg p) (transferReg p)
    (timeReg p) (readyOut p) (readyIn p) (transferWidth p) (timeRegValid p) (transferRegValid p)
    (timestampReg p) (holdTransferReg p) (pt_time p) (nextEdge p) (outputPort p) (buffered p)
    (inverted p) (samplingEdge p) (readyMode p) (masterSlave p) (portType p) (pinsInputValue p).
Definition set_readyOutPorts (v : list EventableRef) (p : Port) : Port :=
  mkPort (pt_data p) (pt_condition p) (clock p) (sourceOf p) (readyInOf p) (readyOutOf p)
    (portCounter p) (loopback p) (tracer p) v (pausedOut p) (pausedIn p) (pausedSync p)
    (shiftRegEntries p) (portShiftCount p) (validShiftRegEntries p) (shiftReg p) (transferReg p)
    (timeReg p) (readyOut p) (readyIn p) (transferWidth p) (timeRegValid p) (transferRegValid p)
    (timestampReg p) (holdTransferReg p) (pt_time p) (nextEdge p) (outputPort p) (buffered p)
    (inverted p) (samplingEdge p) (readyMode p) (masterSlave p) (portType p) (pinsInputValue p).
Definition set_pausedOut (v : option Ref) (p : Port) : Port :=
  mkPort (pt_data p) (pt_condition p) (clock p) (sourceOf p) (readyInOf p) (readyOutOf p)
    (portCounter p) (loopback p) (tracer p) (readyOutPorts p) v (pausedIn p) (pausedSync p)
    (shiftRegEntries p) (portShiftCount p) (validShiftRegEntries p) (shiftReg p) (transferReg p)
    (timeReg p) (readyOut p) (readyIn p) (transferWidth p) (timeRegValid p) (transferRegValid p)
    (timestampReg p) (holdTransferReg p) (pt_time p) (nextEdge p) (outputPort p) (buffered p)
    (inverted p) (samplingEdge p) (readyMode p) (masterSlave p) (portType p) (pinsInputValue p).
Definition set_pausedIn (v : option Ref) (p : Port) : Port :=
  mkPort (pt_data p) (pt_condition p) (clock p) (sourceOf p) (readyInOf p) (readyOutOf p)
    (portCounter p) (loopback p) (tracer p) (readyOutPorts p) (pausedOut p) v (pausedSync p)
    (shiftRegEntries p) (portShiftCount p) (validShiftRegEntries p) (shiftReg p) (transferReg p)
    (timeReg p) (readyOut p) (readyIn p) (transferWidth p) (timeRegValid p) (transferRegValid p)
    (timestampReg p) (holdTransferReg p) (pt_time p) (nextEdge p) (outputPort p) (buffered p)
    (inverted p) (samplingEdge p) (readyMode p) (masterSlave p) (portType p) (pinsInputValue p).
Definition set_pausedSync (v : option Ref) (p : Port) : Port :=
  mkPort (pt_data p) (pt_condition p) (clock p) (sourceOf p) (readyInOf p) (readyOutOf p)
    (portCounter p) (loopback p) (tracer p) (readyOutPorts p) (pausedOut p) (pausedIn p) v
    (shiftRegEntries p) (portShiftCount p) (validShiftRegEntries p) (shiftReg p) (transferReg p)
    (timeReg p) (readyOut p) (readyIn p) (transferWidth p) (timeRegValid p) (transferRegValid p)
    (timestampReg p) (holdTransferReg p) (pt_time p) (nextEdge p) (outputPort p) (buffered p)
    (inverted p) (samplingEdge p) (readyMode p) (masterSlave p) (portType p) (pinsInputValue p).
Definition set_shiftRegEntries (v : Z) (p : Port) : Port :=
  mkPort (pt_data p) (pt_condition p) (clock p) (sourceOf p) (readyInOf p) (readyOutOf p)
    (portCounter p) (loopback p) (tracer p) (readyOutPorts p) (pausedOut p) (pausedIn p)
    (pausedSync p) v (portShiftCount p) (validShiftRegEntries p) (shiftReg p) (transferReg p)
    (timeReg p) (readyOut p) (readyIn p) (transferWidth p) (timeRegValid p) (transferRegValid p)
    (timestampReg p) (holdTransferReg p) (pt_time p) (nextEdge p) (outputPort p) (buffered p)
    (inverted p) (samplingEdge p) (readyMode p) (masterSlave p) (portType p) (pinsInputValue p).
Definition set_portShiftCount (v : Z) (p : Port) : Port :=
  mkPort (pt_data p) (pt_condition p) (clock p) (sourceOf p) (readyInOf p) (readyOutOf p)
    (portCounter p) (loopback p) (tracer p) (readyOutPorts p) (pausedOut p) (pausedIn p)
    (pausedSync p) (shiftRegEntries p) v (validShiftRegEntries p) (shiftReg p) (transferReg p)
    (timeReg p) (readyOut p) (readyIn p) (transferWidth p) (timeRegValid p) (transferRegValid p)
    (timestampReg p) (holdTransferReg p) (pt_time p) (nextEdge p) (outputPort p) (buffered p)
    (inverted p) (samplingEdge p) (readyMode p) (masterSlave p) (portType p) (pinsInputValue p).
Definition set_validShiftRegEntries (v : Z) (p : Port) : Port :=
  mkPort (pt_data p) (pt_condition p) (clock p) (sourceOf p) (readyInOf p) (readyOutOf p)
    (portCounter p) (loopback p) (tracer p) (readyOutPorts p) (pausedOut p) (pausedIn p)
    (pausedSync p) (shiftRegEntries p) (portShiftCount p) v (shiftReg p) (transferReg p)
    (timeReg p) (readyOut p) (readyIn p) (transferWidth p) (timeRegValid p) (transferRegValid p)
    (timestampReg p) (holdTransferReg p) (pt_time p) (nextEdge p) (outputPort p) (buffered p)
    (inverted p) (samplingEdge p) (readyMode p) (masterSlave p) (portType p) (pinsInputValue p).
Definition set_shiftReg (v : Z) (p : Port) : Port :=
  mkPort (pt_data p) (pt_condition p) (clock p) (sourceOf p) (readyInOf p) (readyOutOf p)
    (portCounter p) (loopback p) (tracer p) (readyOutPorts p) (pausedOut p) (pausedIn p)
    (pausedSync p) (shiftRegEntries p) (portShiftCount p) (validShiftRegEntries p) v
    (transferReg p) (timeReg p) (readyOut p) (readyIn p) (transferWidth p) (timeRegValid p)
    (transferRegValid p) (timestampReg p) (holdTransferReg p) (pt_time p) (nextEdge p)
    (outputPort p) (buffered p) (inverted p) (samplingEdge p) (readyMode p) (masterSlave p)
    (portType p) (pinsInputValue p).
Definition set_transferReg (v : Z) (p : Port) : Port :=
  mkPort (pt_data p) (pt_condition p) (clock p) (sourceOf p) (readyInOf p) (readyOutOf p)
    (portCounter p) (loopback p) (tracer p) (readyOutPorts p) (pausedOut p) (pausedIn p)
    (pausedSync p) (shiftRegEntries p) (portShiftCount p) (validShiftRegEntries p) (shiftReg p)
    v (timeReg p) (readyOut p) (readyIn p) (transferWidth p) (timeRegValid p) (transferRegValid p) (timestampReg p) (holdTransferReg p) (pt_time p) (nextEdge p) (outputPort p) (buffered p)
    (inverted p) (samplingEdge p) (readyMode p) (masterSlave p) (portType p) (pinsInputValue p).
Definition set_timeReg (v : Z) (p : Port) : Port :=
  mkPort (pt_data p) (pt_condition p) (clock p) (sourceOf p) (readyInOf p) (readyOutOf p)
    (portCounter p) (loopback p) (tracer p) (readyOutPorts p) (pausedOut p) (pausedIn p)
    (pausedSync p) (shiftRegEntries p) (portShiftCount p) (validShiftRegEntries p) (shiftReg p)
    (transferReg p) v (readyOut p) (readyIn p) (transferWidth p) (timeRegValid p)
    (transferRegValid p) (timestampReg p) (holdTransferReg p) (pt_time p) (nextEdge p)
    (outputPort p) (buffered p) (inverted p) (samplingEdge p) (readyMode p) (masterSlave p)
    (portType p) (pinsInputValue p).
Definition set_readyOut (v : bool) (p : Port) : Port :=
  mkPort (pt_data p) (pt_condition p) (clock p) (sourceOf p) (readyInOf p) (readyOutOf p)
    (portCounter p) (loopback p) (tracer p) (readyOutPorts p) (pausedOut p) (pausedIn p)
    (pausedSync p) (shiftRegEntries p) (portShiftCount p) (validShiftRegEntries p) (shiftReg p)
    (transferReg p) (timeReg p) v (readyIn p) (transferWidth p) (timeRegValid p)
    (transferRegValid p) (timestampReg p) (holdTransferReg p) (pt_time p) (nextEdge p)
    (outputPort p) (buffered p) (inverted p) (samplingEdge p) (readyMode p) (masterSlave p)
    (portType p) (pinsInputValue p).
Definition set_readyIn (v : bool) (p : Port) : Port :=
  mkPort (pt_data p) (pt_condition p) (clock p) (sourceOf p) (readyInOf p) (readyOutOf p)
    (portCounter p) (loopback p) (tracer p) (readyOutPorts p) (pausedOut p) (pausedIn p)
    (pausedSync p) (shiftRegEntries p) (portShiftCount p) (validShiftRegEntries p) (shiftReg p)
    (transferReg p) (timeReg p) (readyOut p) v (transferWidth p) (timeRegValid p)
    (transferRegValid p) (timestampReg p) (holdTransferReg p) (pt_time p) (nextEdge p)
    (outputPort p) (buffered p) (inverted p) (samplingEdge p) (readyMode p) (masterSlave p)
    (portType p) (pinsInputValue p).
Definition set_transferWidth (v : Z) (p : Port) : Port :=
  mkPort (pt_data p) (pt_condition p) (clock p) (sourceOf p) (readyInOf p) (readyOutOf p)
    (portCounter p) (loopback p) (tracer p) (readyOutPorts p) (pausedOut p) (pausedIn p)
    (pausedSync p) (shiftRegEntries p) (portShiftCount p) (validShiftRegEntries p) (shiftReg p)
    (transferReg p) (timeReg p) (readyOut p) (readyIn p) v (timeRegValid p) (transferRegValid p)
    (timestampReg p) (holdTransferReg p) (pt_time p) (nextEdge p) (outputPort p) (buffered p)
    (inverted p) (samplingEdge p) (readyMode p) (masterSlave p) (portType p) (pinsInputValue p).
Definition set_timeRegValid (v : bool) (p : Port) : Port :=
  mkPort (pt_data p) (pt_condition p) (clock p) (sourceOf p) (readyInOf p) (readyOutOf p)
    (portCounter p) (loopback p) (tracer p) (readyOutPorts p) (pausedOut p) (pausedIn p)
    (pausedSync p) (shiftRegEntries p) (portShiftCount p) (validShiftRegEntries p) (shiftReg p)
    (transferReg p) (timeReg p) (readyOut p) (readyIn p) (transferWidth p) v (transferRegValid p) (timestampReg p) (holdTransferReg p) (pt_time p) (nextEdge p) (outputPort p) (buffered p)
    (inverted p) (samplingEdge p) (readyMode p) (masterSlave p) (portType p) (pinsInputValue p).
Definition set_transferRegValid (v : bool) (p : Port) : Port :=
  mkPort (pt_data p) (pt_condition p) (clock p) (sourceOf p) (readyInOf p) (readyOutOf p)
    (portCounter p) (loopback p) (tracer p) (readyOutPorts p) (pausedOut p) (pausedIn p)
    (pausedSync p) (shiftRegEntries p) (portShiftCount p) (validShiftRegEntries p) (shiftReg p)
    (transferReg p) (timeReg p) (readyOut p) (readyIn p) (transferWidth p) (timeRegValid p) v
    (timestampReg p) (holdTransferReg p) (pt_time p) (nextEdge p) (outputPort p) (buffered p)
    (inverted p) (samplingEdge p) (readyMode p) (masterSlave p) (portType p) (pinsInputValue p).
Definition set_timestampReg (v : Z) (p : Port) : Port :=
  mkPort (pt_data p) (pt_condition p) (clock p) (sourceOf p) (readyInOf p) (readyOutOf p)
    (portCounter p) (loopback p) (tracer p) (readyOutPorts p) (pausedOut p) (pausedIn p)
    (pausedSync p) (shiftRegEntries p) (portShiftCount p) (validShiftRegEntries p) (shiftReg p)
    (transferReg p) (timeReg p) (readyOut p) (readyIn p) (transferWidth p) (timeRegValid p)
    (transferRegValid p) v (holdTransferReg p) (pt_time p) (nextEdge p) (outputPort p) (buffered p) (inverted p) (samplingEdge p) (readyMode p) (masterSlave p) (portType p) (pinsInputValue p).
Definition set_holdTransferReg (v : bool) (p : Port) : Port :=
  mkPort (pt_data p) (pt_condition p) (clock p) (sourceOf p) (readyInOf p) (readyOutOf p)
    (portCounter p) (loopback p) (tracer p) (readyOutPorts p) (pausedOut p) (pausedIn p)
    (pausedSync p) (shiftRegEntries p) (portShiftCount p) (validShiftRegEntries p) (shiftReg p)
    (transferReg p) (timeReg p) (readyOut p) (readyIn p) (transferWidth p) (timeRegValid p)
    (transferRegValid p) (timestampReg p) v (pt_time p) (nextEdge p) (outputPort p) (buffered p)
    (inverted p) (samplingEdge p) (readyMode p) (masterSlave p) (portType p) (pinsInputValue p).
Definition set_pt_time (v : Z) (p : Port) : Port :=
  mkPort (pt_data p) (pt_condition p) (clock p) (sourceOf p) (readyInOf p) (readyOutOf p)
    (portCounter p) (loopback p) (tracer p) (readyOutPorts p) (pausedOut p) (pausedIn p)
    (pausedSync p) (shiftRegEntries p) (portShiftCount p) (validShiftRegEntries p) (shiftReg p)
    (transferReg p) (timeReg p) (readyOut p) (readyIn p) (transferWidth p) (timeRegValid p)
    (transferRegValid p) (timestampReg p) (holdTransferReg p) v (nextEdge p) (outputPort p)
    (buffered p) (inverted p) (samplingEdge p) (readyMode p) (masterSlave p) (portType p)
    (pinsInputValue p).
Definition set_nextEdge (v : EdgeIterator) (p : Port) : Port :=
  mkPort (pt_data p) (pt_condition p) (clock p) (sourceOf p) (readyInOf p) (readyOutOf p)
    (portCounter p) (loopback p) (tracer p) (readyOutPorts p) (pausedOut p) (pausedIn p)
    (pausedSync p) (shiftRegEntries p) (portShiftCount p) (validShiftRegEntries p) (shiftReg p)
    (transferReg p) (timeReg p) (readyOut p) (readyIn p) (transferWidth p) (timeRegValid p)
    (transferRegValid p) (timestampReg p) (holdTransferReg p) (pt_time p) v (outputPort p)
    (buffered p) (inverted p) (samplingEdge p) (readyMode p) (masterSlave p) (portType p)
    (pinsInputValue p).
Definition set_outputPort (v : bool) (p : Port) : Port :=
  mkPort (pt_data p) (pt_condition p) (clock p) (sourceOf p) (readyInOf p) (readyOutOf p)
    (portCounter p) (loopback p) (tracer p) (readyOutPorts p) (pausedOut p) (pausedIn p)
    (pausedSync p) (shiftRegEntries p) (portShiftCount p) (validShiftRegEntries p) (shiftReg p)
    (transferReg p) (timeReg p) (readyOut p) (readyIn p) (transferWidth p) (timeRegValid p)
    (transferRegValid p) (timestampReg p) (holdTransferReg p) (pt_time p) (nextEdge p) v
    (buffered p) (inverted p) (samplingEdge p) (readyMode p) (masterSlave p) (portType p)
    (pinsInputValue p).
Definition set_buffered (v : bool) (p : Port) : Port :=
  mkPort (pt_data p) (pt_condition p) (clock p) (sourceOf p) (readyInOf p) (readyOutOf p)
    (portCounter p) (loopback p) (tracer p) (readyOutPorts p) (pausedOut p) (pausedIn p)
    (pausedSync p) (shiftRegEntries p) (portShiftCount p) (validShiftRegEntries p) (shiftReg p)
    (transferReg p) (timeReg p) (readyOut p) (readyIn p) (transferWidth p) (timeRegValid p)
    (transferRegValid p) (timestampReg p) (holdTransferReg p) (pt_time p) (nextEdge p)
    (outputPort p) v (inverted p) (samplingEdge p) (readyMode p) (masterSlave p) (portType p)
    (pinsInputValue p).
Definition set_inverted (v : bool) (p : Port) : Port :=
  mkPort (pt_data p) (pt_condition p) (clock p) (sourceOf p) (readyInOf p) (readyOutOf p)
    (portCounter p) (loopback p) (tracer p) (readyOutPorts p) (pausedOut p) (pausedIn p)
    (pausedSync p) (shiftRegEntries p) (portShiftCount p) (validShiftRegEntries p) (shiftReg p)
    (transferReg p) (timeReg p) (readyOut p) (readyIn p) (transferWidth p) (timeRegValid p)
    (transferRegValid p) (timestampReg p) (holdTransferReg p) (pt_time p) (nextEdge p)
    (outputPort p) (buffered p) v (samplingEdge p) (readyMode p) (masterSlave p) (portType p)
    (pinsInputValue p).
Definition set_samplingEdge (v : EdgeType) (p : Port) : Port :=
  mkPort (pt_data p) (pt_condition p) (clock p) (sourceOf p) (readyInOf p) (readyOutOf p)
    (portCounter p) (loopback p) (tracer p) (readyOutPorts p) (pausedOut p) (pausedIn p)
    (pausedSync p) (shiftRegEntries p) (portShiftCount p) (validShiftRegEntries p) (shiftReg p)
    (transferReg p) (timeReg p) (readyOut p) (readyIn p) (transferWidth p) (timeRegValid p)
    (transferRegValid p) (timestampReg p) (holdTransferReg p) (pt_time p) (nextEdge p)
    (outputPort p) (buffered p) (inverted p) v (readyMode p) (masterSlave p) (portType p)
    (pinsInputValue p).
Definition set_readyMode (v : ReadyMode) (p : Port) : Port :=
  mkPort (pt_data p) (pt_condition p) (clock p) (sourceOf p) (readyInOf p) (readyOutOf p)
    (portCounter p) (loopback p) (tracer p) (readyOutPorts p) (pausedOut p) (pausedIn p)
    (pausedSync p) (shiftRegEntries p) (portShiftCount p) (validShiftRegEntries p) (shiftReg p)
    (transferReg p) (timeReg p) (readyOut p) (readyIn p) (transferWidth p) (timeRegValid p)
    (transferRegValid p) (timestampReg p) (holdTransferReg p) (pt_time p) (nextEdge p)
    (outputPort p) (buffered p) (inverted p) (samplingEdge p) v (masterSlave p) (portType p)
    (pinsInputValue p).
Definition set_masterSlave (v : MasterSlave) (p : Port) : Port :=
  mkPort (pt_data p) (pt_condition p) (clock p) (sourceOf p) (readyInOf p) (readyOutOf p)
    (portCounter p) (loopback p) (tracer p) (readyOutPorts p) (pausedOut p) (pausedIn p)
    (pausedSync p) (shiftRegEntries p) (portShiftCount p) (validShiftRegEntries p) (shiftReg p)
    (transferReg p) (timeReg p) (readyOut p) (readyIn p) (transferWidth p) (timeRegValid p)
    (transferRegValid p) (timestampReg p) (holdTransferReg p) (pt_time p) (nextEdge p)
    (outputPort p) (buffered p) (inverted p) (samplingEdge p) (readyMode p) v (portType p)
    (pinsInputValue p).
Definition set_portType (v : PortType) (p : Port) : Port :=
  mkPort (pt_data p) (pt_condition p) (clock p) (sourceOf p) (readyInOf p) (readyOutOf p)
    (portCounter p) (loopback p) (tracer p) (readyOutPorts p) (pausedOut p) (pausedIn p)
    (pausedSync p) (shiftRegEntries p) (portShiftCount p) (validShiftRegEntries p) (shiftReg p)
    (transferReg p) (timeReg p) (readyOut p) (readyIn p) (transferWidth p) (timeRegValid p)
    (transferRegValid p) (timestampReg p) (holdTransferReg p) (pt_time p) (nextEdge p)
    (outputPort p) (buffered p) (inverted p) (samplingEdge p) (readyMode p) (masterSlave p) v
    (pinsInputValue p).
Definition set_pinsInputValue (v : Signal) (p : Port) : Port :=
  mkPort (pt_data p) (pt_condition p) (clock p) (sourceOf p) (readyInOf p) (readyOutOf p)
    (portCounter p) (loopback p) (tracer p) (readyOutPorts p) (pausedOut p) (pausedIn p)
    (pausedSync p) (shiftRegEntries p) (portShiftCount p) (validShiftRegEntries p) (shiftReg p)
    (transferReg p) (timeReg p) (readyOut p) (readyIn p) (transferWidth p) (timeRegValid p)
    (transferRegValid p) (timestampReg p) (holdTransferReg p) (pt_time p) (nextEdge p)
    (outputPort p) (buffered p) (inverted p) (samplingEdge p) (readyMode p) (masterSlave p)
    (portType p) v.

(** lib/ClockBlock.h:17-31 ClockBlock *)
Record ClockBlock := mkClockBlock {
  cb_res : Resource;
  source : option EventableRef;
  cb_readyIn : option EventableRef;
  divide : Z;
  cb_ports : list EventableRef;
  cb_value : Signal;
  running : bool;
  readyInValue : Signal
}.

Definition set_cb_res (v : Resource) (c : ClockBlock) : ClockBlock :=
  mkClockBlock v (source c) (cb_readyIn c) (divide c) (cb_ports c) (cb_value c) (running c)
    (readyInValue c).
Definition set_source (v : option EventableRef) (c : ClockBlock) : ClockBlock :=
  mkClockBlock (cb_res c) v (cb_readyIn c) (divide c) (cb_ports c) (cb_value c) (running c)
    (readyInValue c).
Definition set_cb_readyIn (v : option EventableRef) (c : ClockBlock) : ClockBlock :=
  mkClockBlock (cb_res c) (source c) v (divide c) (cb_ports c) (cb_value c) (running c)
    (readyInValue c).
Definition set_divide (v : Z) (c : ClockBlock) : ClockBlock :=
  mkClockBlock (cb_res c) (source c) (cb_readyIn c) v (cb_ports c) (cb_value c) (running c)
    (readyInValue c).
Definition set_cb_ports (v : list EventableRef) (c : ClockBlock) : ClockBlock :=
  mkClockBlock (cb_res c) (source c) (cb_readyIn c) (divide c) v (cb_value c) (running c)
    (readyInValue c).
Definition set_cb_value (v : Signal) (c : ClockBlock) : ClockBlock :=
  mkClockBlock (cb_res c) (source c) (cb_readyIn c) (divide c) (cb_ports c) v (running c)
    (readyInValue c).
Definition set_running (v : bool) (c : ClockBlock) : ClockBlock :=
  mkClockBlock (cb_res c) (source c) (cb_readyIn c) (divide c) (cb_ports c) (cb_value c) v
    (readyInValue c).
Definition set_readyInValue (v : Signal) (c : ClockBlock) : ClockBlock :=
  mkClockBlock (cb_res c) (source c) (cb_readyIn c) (divide c) (cb_ports c) (cb_value c)
    (running c) v.

(** The ports and the clock blocks of the system. *)
Record Ports := mkPorts { port_map : gmap EventableRef Port; clock_map : gmap Ref ClockBlock }.

(** What the model leaves open: the addresses of the objects, by which [std::set] orders pointers, and
    the devices that may be connected to pins. *)
Class PortEnv := {
  portAddr : EventableRef -> Z;
  clkAddr : Ref -> Z;
  dev_seePinsChange : nat -> Signal -> Z -> M (Sys Ports) unit
}.

(** [std::set::insert] and [std::set::erase] *)
Fixpoint set_insert {A} `{EqDecision A} (addr : A -> Z) (x : A) (l : list A) : list A :=
  match l with
  | [] => [x]
  | y :: l' => if decide (x = y) then l else if addr x <? addr y then x :: l else y :: set_insert addr x l'
  end.
Definition set_erase {A} `{EqDecision A} (x : A) (l : list A) : list A := filter (.≠ x) l.

Abbreviation MP := (M (Sys Ports)).

Definition port (p : EventableRef) : MP Port := s ← get; lift (port_map (ports s) !! p).
Definition putPort (p : EventableRef) (v : Port) : MP unit :=
  modify (fun s => set_ports (mkPorts (<[p := v]> (port_map (ports s))) (clock_map (ports s))) s).
Definition modPort (p : EventableRef) (f : Port -> Port) : MP unit := v ← port p; putPort p (f v).
Definition clk (c : Ref) : MP ClockBlock := s ← get; lift (clock_map (ports s) !! c).
Definition putClk (c : Ref) (v : ClockBlock) : MP unit :=
  modify (fun s => set_ports (mkPorts (port_map (ports s)) (<[c := v]> (clock_map (ports s)))) s).
Definition modClk (c : Ref) (f : ClockBlock -> ClockBlock) : MP unit := v ← clk c; putClk c (f v).

(** lib/Port.cpp:16-48 Port::Port: [it] stands for the iterator, which is not initialised *)
Definition newPort (it : EdgeIterator) : Port :=
  mkPort 0 COND_FULL None [] [] None 0 None None [] None None None 0 0 0 0 0 0 false false 0 false false 0 false 0 it
    false false false RISING NOREADY MASTER DATAPORT (constant 0).

(** lib/ClockBlock.cpp:14-20 ClockBlock::ClockBlock: [junk] stands for the divider, which is not initialised *)
Definition newClockBlock (junk : Z) : ClockBlock :=
  mkClockBlock (newResource RES_TYPE_CLKBLK) None None junk [] (constant 0) false (constant 0).
