(* ===== verification/Port.v ===== *)
(** * Ports and clock blocks (lib/Port.cpp, lib/ClockBlock.cpp)

    A port samples or drives its pins at the edges of its clock.  Its state is only brought up to
    date when somebody looks at it; until then edges at which nothing visible happens are skipped
    ([updateNoExternalChange]).  A change on the pins may clock another clock block, be seen by a
    connected port, and so on: every cycle of calls goes through [outputValue].  The functions are
    therefore defined over an [outputValue] given as a variable, and the knot is tied with fuel at the
    end. *)

From Stdlib Require Import ZArith Lia.
From stdpp Require Import base list numbers option gmap.
From S2P Require Import Prelude BitManip Signal DecodeCache Core.
From S2P Require Import Refs Resource Node StateMonad Thread SysState Events Timer PortState.

#[local] Open Scope Z_scope.
#[local] Open Scope cbits_scope.

(** Shifts of a 32-bit operand; undefined if the count is not less than the width. *)
Definition shr32 (x n : Z) : option Z := if (0 <=? n) && (n <? 32) then Some (x .>> n) else None.
Definition shl32 (x n : Z) : option Z := if (0 <=? n) && (n <? 32) then Some (x .<< n) else None.

(** ** What depends on the port alone *)

(** lib/Port.h:296-299 useReadyIn *)
Definition useReadyIn (p : Port) : bool :=
  match readyMode p with HANDSHAKE => true | STROBED => bool_decide (masterSlave p = SLAVE) | NOREADY => false end.

(** lib/Port.h:301-304 useReadyOut *)
Definition useReadyOut (p : Port) : bool :=
  match readyMode p with HANDSHAKE => true | STROBED => bool_decide (masterSlave p = MASTER) | NOREADY => false end.

(** lib/Port.cpp:698-709 Port::valueMeetsCondition *)
Definition valueMeetsCondition (p : Port) (value : Z) : option bool :=
  match pt_condition p with
  | COND_FULL => Some true
  | COND_EQ => Some (pt_data p =? value)
  | COND_NEQ => Some (negb (pt_data p =? value))
  | COND_AFTER => None
  end.

(** lib/Port.h:128-134 conditionMet *)
Definition conditionMet (p : Port) : option bool :=
  if negb (transferRegValid p) then Some false
  else
    match pt_condition p with
    | COND_FULL => Some true
    | _ => if buffered p then Some false else valueMeetsCondition p (transferReg p)
    end.

(** lib/Port.h:135-139 timeMet *)
Definition timeMet (p : Port) : bool :=
  transferRegValid p && (negb (timeRegValid p) || (timestampReg p =? timeReg p)).

(** lib/Port.h:140-142 timeAndConditionMet *)
Definition timeAndConditionMet (p : Port) : option bool := if timeMet p then conditionMet p else Some false.

(** lib/Port.h:143-146 setTransferReg *)
Definition setTransferReg (value : Z) (p : Port) : Port := set_transferRegValid true (set_transferReg value p).

(** lib/Port.cpp:1100-1104 Port::fallingEdgesUntilTimeMet *)
Definition fallingEdgesUntilTimeMet (p : Port) : option Z :=
  if timeRegValid p then Some (u16 (timeReg p - (portCounter p + 1)) + 1) else None.

(** lib/Port.cpp:1106-1113 Port::edgesUntilTimeMet *)
Definition edgesUntilTimeMet (p : Port) : option Z :=
  n ← fallingEdgesUntilTimeMet p;
  Some (if bool_decide (it_type (nextEdge p) = FALLING) then n * 2 - 1 else n * 2).

(** lib/Port.cpp:988-994 Port::getEffectiveValue *)
Definition getEffectiveValue (p : Port) (v : Signal) : Signal := if inverted p then flipLeastSignificantBit v else v.
(** lib/Port.h:162-166 getEffectiveValue: of a number *)
Definition getEffectiveValue32 (p : Port) (v : Z) : Z := if inverted p then v .^ 1 else v.

(** lib/Port.cpp:589-590 Port::seeSamplingEdge: the value on the pins enters the shift register at the top *)
Definition shiftIn (p : Port) (width currentValue old : Z) : option Z :=
  low ← shr32 old width;
  high ← shl32 currentValue (u32 (transferWidth p - width));
  Some (low .| high).

(** lib/Port.cpp:499-506 Port::nextShiftRegOutputPort *)
Definition nextShiftRegOutputPort (p : Port) (width old : Z) : option Z :=
  repeatValue ← shr32 old (u32 (transferWidth p - width));
  retval ← shr32 old width;
  high ← shl32 repeatValue (u32 (transferWidth p - width));
  Some (retval .| high).

(** lib/Port.cpp:711-715 Port::isValidPortShiftCount *)
Definition isValidPortShiftCount (p : Port) (width count : Z) : bool :=
  (width <=? count) && (count <=? transferWidth p) && (count mod width =? 0).

(** lib/Port.cpp:970-986 Port::checkTransferWidth *)
Definition checkTransferWidth (p : Port) (width value : Z) : bool :=
  if transferWidth p =? width then true
  else if transferWidth p <? width then false
  else (value =? 8) || (value =? 32).

(** lib/Port.cpp:1203-1218 Port::computeReadyOut *)
Definition computeReadyOut (p : Port) : bool :=
  if negb (useReadyOut p) then false
  else if outputPort p then
    if useReadyIn p && negb (readyIn p) then false else negb (validShiftRegEntries p =? 0)
  else if timeRegValid p then portCounter p =? timeReg p
  else negb (validShiftRegEntries p =? portShiftCount p).

(** lib/Port.cpp:652-656 Port::updatePortCounter *)
Definition updatePortCounter (numEdges : Z) (p : Port) : Port :=
  let numFalling := u32 (numEdges + (if bool_decide (it_type (nextEdge p) = FALLING) then 1 else 0)) / 2 in
  set_portCounter (u16 (portCounter p + numFalling)) p.

(** lib/Port.cpp:658-663 Port::updateInputValidShiftRegEntries: undefined if the transfer register has no entries *)
Definition updateInputValidShiftRegEntries (numEdges : Z) (p : Port) : option Port :=
  if outputPort p || (useReadyIn p && negb (readyIn p)) || (shiftRegEntries p =? 0) then None
  else
    let numSampling := u32 (numEdges + (if bool_decide (it_type (nextEdge p) = samplingEdge p) then 1 else 0)) / 2 in
    Some (set_validShiftRegEntries (u32 (validShiftRegEntries p + numSampling) mod shiftRegEntries p) p).

(** [nextEdge += n; time = newTime] *)
Definition skipEdges (n newTime : Z) (p : Port) : Port := set_pt_time newTime (set_nextEdge (it_add (nextEdge p) n) p).

(** lib/ClockBlock.h:54-56 isFixedFrequency *)
Definition isFixedFrequency (c : ClockBlock) : bool := running c && isClock (cb_value c).
(** lib/ClockBlock.h:67-69 getHalfPeriod *)
Definition getHalfPeriod (c : ClockBlock) : Z := u32 (divide c * (CYCLES_PER_TICK / 2)).
(** lib/ClockBlock.cpp:130-135 ClockBlock::getValue *)
Definition clk_getValue (c : ClockBlock) : Signal := if running c then cb_value c else constant 0.

(** lib/Port.cpp:1282-1287 Port::completeEvent: before that of the base class *)
#[export] Instance portComplete : PortComplete Ports := {|
  port_completeEvent p := pt ← port p; _ ← require (transferRegValid pt); modPort p (set_holdTransferReg true)
|}.

(** ** Looking at the system *)

Section port.
Context `{PortEnv}.
Abbreviation MS := (M (Sys Ports)).

(** lib/Port.h:215-218 getPortWidth *)
Definition getPortWidth (p : EventableRef) : MS Z := ev ← eventable p; lift (rid_width (ID (ev_res ev))).
(** lib/Port.h:225-227 portWidthMask *)
Definition portWidthMask (p : EventableRef) : MS Z := w ← getPortWidth p; mret (makeMask w).
Definition isInUse (p : EventableRef) : MS bool := ev ← eventable p; mret (inUse (ev_res ev)).
(** [clock->] *)
Definition portClock (p : EventableRef) : MS ClockBlock := pt ← port p; c ← lift (clock pt); clk c.

(** lib/Port.cpp:184-200 Port::getPinsOutputValue *)
Definition getPinsOutputValue (p : EventableRef) : MS Signal :=
  pt ← port p;
  match portType pt with
  | READYPORT =>
      match readyOutOf pt with
      | Some q => qt ← port q; mret (getEffectiveValue pt (constant (if readyOut qt then 1 else 0)))
      | None => mret (getEffectiveValue pt (constant 0))
      end
  | CLOCKPORT => c ← portClock p; mret (getEffectiveValue pt (clk_getValue c))
  | DATAPORT =>
      if negb (outputPort pt) then mret (getEffectiveValue pt (constant 0))
      else m ← portWidthMask p; mret (getEffectiveValue pt (constant (shiftReg pt .& m)))
  end.

(** lib/Port.cpp:59-66 Port::getDataPortPinsValue *)
Definition getDataPortPinsValue (p : EventableRef) : MS Signal :=
  pt ← port p; _ ← require (bool_decide (portType pt = DATAPORT));
  if outputPort pt then m ← portWidthMask p; mret (constant (shiftReg pt .& m)) else mret (pinsInputValue pt).

(** lib/Port.cpp:68-73 Port::getPinsValue *)
Definition getPinsValue (p : EventableRef) : MS Signal :=
  pt ← port p; if outputPort pt then getPinsOutputValue p else mret (pinsInputValue pt).

(** lib/Port.h:169-171 getEffectiveDataPortInputPinsValue *)
Definition getEffectiveDataPortInputPinsValue (p : EventableRef) : MS Signal :=
  pt ← port p; v ← getDataPortPinsValue p; mret (getEffectiveValue pt v).

(** lib/Port.h:183-185 getEffectiveInputPinsValue *)
Definition getEffectiveInputPinsValue (p : EventableRef) : MS Signal :=
  pt ← port p; v ← getPinsValue p; mret (getEffectiveValue pt v).

(** [getEffectiveDataPortInputPinsValue(time)], at the time of the port *)
Definition inputNow (p : EventableRef) : MS Z :=
  pt ← port p; v ← getEffectiveDataPortInputPinsValue p; mret (Signal.getValue v (pt_time pt)).

(** The loop of [computeSteadyStateInputShiftReg]. *)
Fixpoint replicate_loop (fuel : nat) (val width shift : Z) : option Z :=
  match fuel with
  | O => None
  | S fuel =>
      if 1 <? width then x ← shl32 val shift; replicate_loop fuel (x .| val) (width .>> 1) (u32 (shift * 2)) else Some val
  end.

(** lib/Port.cpp:461-475 Port::computeSteadyStateInputShiftReg *)
Definition computeSteadyStateInputShiftReg (p : EventableRef) : MS Z :=
  pt ← port p; current ← getEffectiveDataPortInputPinsValue p;
  _ ← require (negb (isClock current));
  w ← getPortWidth p;
  val ← lift (replicate_loop 33 (Signal.getValue current (pt_time pt)) (shiftRegEntries pt) w);
  mret (val .& makeMask (transferWidth pt)).

(** lib/Port.cpp:485-497 Port::shouldRealignShiftRegister *)
Definition shouldRealignShiftRegister (p : EventableRef) : MS bool :=
  pt ← port p; _ ← require (negb (outputPort pt));
  if negb (buffered pt) then mret false
  else
    e ← (match pausedIn pt with Some _ => mret true | None => eventsPermitted p end);
    if negb e || holdTransferReg pt then mret false
    else
      v ← inputNow p; ok ← lift (valueMeetsCondition pt v);
      if negb ok then mret false
      else if timeRegValid pt then mret (negb (useReadyOut pt) && (portCounter pt =? timeReg pt))
      else mret (negb (bool_decide (pt_condition pt = COND_FULL))).

(** lib/Port.cpp:1223-1261 Port::readyOutIsInSteadyStateSlowPath *)
Definition readyOutIsInSteadyStateSlowPath (p : EventableRef) : MS bool :=
  pt ← port p; _ ← require (useReadyOut pt);
  if negb (eqb (readyOut pt) (computeReadyOut pt)) then mret false
  else if outputPort pt && readyOut pt then mret false
  else if outputPort pt && (validShiftRegEntries pt =? 0) then mret true
  else if outputPort pt then
    _ ← require (useReadyIn pt && negb (readyIn pt));
    c ← portClock p; mret (signal_eqb (readyInValue c) (constant 0))
  else if negb (readyOut pt) then mret true
  else if timeRegValid pt then mret false
  else
    z ← (if useReadyIn pt && negb (readyIn pt) then c ← portClock p; mret (signal_eqb (readyInValue c) (constant 0)) else mret false);
    if z : bool then mret false
    else if bool_decide (pt_condition pt = COND_FULL) then mret false
    else v ← inputNow p; ok ← lift (valueMeetsCondition pt v); mret (negb ok).

(** lib/Port.h:308-312 readyOutIsInSteadyState *)
Definition readyOutIsInSteadyState (p : EventableRef) : MS bool :=
  pt ← port p; if negb (useReadyOut pt) then mret (negb (readyOut pt)) else readyOutIsInSteadyStateSlowPath p.

(** ** Scheduling the next update *)

(** lib/Port.cpp:1115-1145 Port::scheduleUpdateIfNeededOutputPort *)
Definition scheduleUpdateIfNeededOutputPort (p : EventableRef) : MS unit :=
  pt ← port p;
  let next n := it_time (it_add (nextEdge pt) n) in
  if bool_decide (it_type (nextEdge pt) = FALLING) then scheduleUpdate p (it_time (nextEdge pt))
  else
    steady ← readyOutIsInSteadyState p;
    if negb steady then scheduleUpdate p (next 1)
    else
      readyInKnownZero ← (if useReadyIn pt then c ← portClock p; mret (signal_eqb (readyInValue c) (constant 0)) else mret false);
      changes ← (if negb readyInKnownZero then
                   w ← getPortWidth p; x ← lift (nextShiftRegOutputPort pt w (shiftReg pt));
                   mret (negb (x =? shiftReg pt) || (useReadyOut pt && readyOut pt))
                 else mret false);
      if changes : bool then scheduleUpdate p (next 1)
      else if timeRegValid pt then
        n ← lift (fallingEdgesUntilTimeMet pt); scheduleUpdate p (next (u32 (2 * n - 1)))
      else when (negb readyInKnownZero &&
                 (bool_decide (is_Some (pausedIn pt)) || bool_decide (is_Some (pausedSync pt)) || transferRegValid pt))
             (scheduleUpdate p (next 1)).

(** lib/Port.cpp:1147-1181 Port::scheduleUpdateIfNeededInputPort *)
Definition scheduleUpdateIfNeededInputPort (p : EventableRef) : MS unit :=
  pt ← port p;
  if bool_decide (it_type (nextEdge pt) = RISING) then scheduleUpdate p (it_time (nextEdge pt))
  else
    steady ← readyOutIsInSteadyState p;
    if negb steady then scheduleUpdate p (it_time (nextEdge pt))
    else if bool_decide (is_Some (pausedOut pt)) && negb (timeRegValid pt) then scheduleUpdate p (it_time (nextEdge pt))
    else if timeRegValid pt then
      n ← lift (fallingEdgesUntilTimeMet pt);
      let edges := u32 ((n - 1) * 2) in
      let edges := if negb (useReadyOut pt) && bool_decide (samplingEdge pt = RISING) then u32 (edges + 1) else edges in
      scheduleUpdate p (it_time (it_add (nextEdge pt) edges))
    else
      ready ← (if useReadyIn pt then c ← portClock p; mret (negb (signal_eqb (readyInValue c) (constant 0))) else mret true);
      if negb ready then mret tt
      else
        wanted ← (if bool_decide (is_Some (pausedIn pt)) then mret true
                  else e ← eventsPermitted p; mret (e || (useReadyOut pt && readyOut pt)));
        if negb wanted then mret tt
        else
          inputSignal ← getEffectiveDataPortInputPinsValue p;
          ok ← (if isClock inputSignal then mret true
                else lift (valueMeetsCondition pt (Signal.getValue inputSignal (pt_time pt))));
          when ok
            (let it := nextEdge pt in
             scheduleUpdate p (it_time (if bool_decide (it_type it = samplingEdge pt) then it else it_next it))).

(** lib/Port.cpp:1183-1201 Port::scheduleUpdateIfNeeded: [slowMode] is false *)
Definition scheduleUpdateIfNeeded (p : EventableRef) : MS unit :=
  u ← isInUse p;
  if negb u then mret tt
  else
    c ← portClock p; pt ← port p;
    if negb (isFixedFrequency c) || negb (bool_decide (portType pt = DATAPORT)) then mret tt
    else if outputPort pt then scheduleUpdateIfNeededOutputPort p else scheduleUpdateIfNeededInputPort p.

(** [t->time = time; t->schedule()] *)
Definition wake (t : Ref) (time : Z) : MS unit := _ ← modThread t (Thread.set_time time); schedule t.

(** ** Edges *)

Section callbacks.
(** [outputValue], which may come back to any port and clock block; and the fuel of the one loop that
    is not bounded by a counter. *)
Context (outv : EventableRef -> Signal -> Z -> MS unit) (loopFuel : nat).

(** lib/Port.cpp:236-242 Port::handleReadyOutChange *)
Definition handleReadyOutChange (p : EventableRef) (v : bool) (time : Z) : MS unit :=
  pt ← port p;
  forEach (readyOutPorts pt) (fun q => outv q (constant (getEffectiveValue32 pt (if v then 1 else 0))) time).

(** lib/Port.cpp:1263-1270 Port::clearReadyOut *)
Definition clearReadyOut (p : EventableRef) (time : Z) : MS unit :=
  pt ← port p;
  when (readyOut pt) (_ ← modPort p (set_readyOut false); handleReadyOutChange p false time).

(** lib/Port.cpp:1272-1280 Port::updateReadyOut *)
Definition updateReadyOut (p : EventableRef) (time : Z) : MS unit :=
  pt ← port p;
  let newValue := computeReadyOut pt in
  when (negb (eqb newValue (readyOut pt)))
    (_ ← modPort p (set_readyOut newValue); handleReadyOutChange p newValue time).

(** lib/Port.cpp:530-553 Port::seeFallingEdgeOutputPort: the shift register has run out of valid entries; returns the next values of the shift register and of the direction *)
Definition reload (p : EventableRef) (nextShiftReg : Z) (nextOutputPort : bool) : MS (Z * bool) :=
  pt ← port p;
  _ ← match pausedSync pt with
      | Some t =>
          when (negb (transferRegValid pt))
            (_ ← modThread t (fun th => set_pc (u32 (Thread.pc th + 1)) (Thread.set_time (pt_time pt) th));
             _ ← schedule t; modPort p (set_pausedSync None))
      | None => mret tt
      end;
  pt ← port p;
  if negb (timeRegValid pt) && transferRegValid pt then
    _ ← modPort p (fun pt => set_transferRegValid false (set_timestampReg (portCounter pt)
          (set_portShiftCount (shiftRegEntries pt) (set_validShiftRegEntries (portShiftCount pt) pt))));
    _ ← match pausedOut pt with
        | Some t => _ ← wake t (pt_time pt); modPort p (set_pausedOut None)
        | None => mret tt
        end;
    mret (transferReg pt, nextOutputPort)
  else if negb (timeRegValid pt) && bool_decide (is_Some (pausedIn pt)) then
    _ ← modPort p (set_validShiftRegEntries 0); mret (nextShiftReg, false)
  else mret (nextShiftReg, nextOutputPort).

(** lib/Port.cpp:508-566 Port::seeFallingEdgeOutputPort *)
Definition seeFallingEdgeOutputPort (p : EventableRef) : MS unit :=
  pt ← port p;
  let timeHit := timeRegValid pt && (timeReg pt =? portCounter pt) in
  let nextOutputPort := if timeHit then transferRegValid pt else outputPort pt in
  _ ← when timeHit (modPort p (fun pt => set_validShiftRegEntries 0 (set_timeRegValid false pt)));
  r ←
    (if negb (useReadyIn pt) || readyIn pt then
       _ ← modPort p (fun pt => if 0 <? validShiftRegEntries pt
                                then set_validShiftRegEntries (validShiftRegEntries pt - 1) pt else pt);
       pt ← port p;
       if negb (validShiftRegEntries pt =? 0) then
         w ← getPortWidth p; x ← lift (nextShiftRegOutputPort pt w (shiftReg pt)); mret (x, nextOutputPort)
       else reload p (shiftReg pt) nextOutputPort
     else mret (shiftReg pt, nextOutputPort));
  let '(nextShiftReg, nextOutputPort) := (r : Z * bool) in
  pt ← port p; m ← portWidthMask p;
  let pinsChange := negb ((shiftReg pt .^ (if nextOutputPort then nextShiftReg else 0)) .& m =? 0) in
  _ ← modPort p (fun pt => set_outputPort nextOutputPort (set_shiftReg nextShiftReg pt));
  when pinsChange
    (v ← getPinsOutputValue p; outv p (constant (Signal.getValue v (pt_time pt))) (pt_time pt)).

(** lib/Port.cpp:568-579 Port::seeFallingEdge *)
Definition seeFallingEdge (p : EventableRef) : MS unit :=
  _ ← modPort p (fun pt => set_portCounter (u16 (portCounter pt + 1)) pt);
  pt ← port p;
  _ ← (if outputPort pt then seeFallingEdgeOutputPort p
       else when (useReadyOut pt && timeRegValid pt && (portCounter pt =? timeReg pt))
              (modPort p (fun pt => set_validShiftRegEntries 0 (set_timeRegValid false pt))));
  pt ← port p;
  updateReadyOut p (pt_time pt).

(** lib/Port.cpp:608-631 Port::seeSamplingEdge: a transfer is complete *)
Definition completeTransfer (p : EventableRef) : MS unit :=
  _ ← modPort p (set_validShiftRegEntries 0);
  pt ← port p;
  when (negb (holdTransferReg pt))
    (_ ← modPort p (fun pt => setTransferReg (shiftReg pt) (set_timestampReg (portCounter pt)
           (set_portShiftCount (shiftRegEntries pt) pt)));
     pt ← port p;
     met ← lift (timeAndConditionMet pt);
     when met
       (_ ← modPort p (set_timeRegValid false);
        _ ← match pausedIn pt with
            | Some t => _ ← wake t (pt_time pt); modPort p (set_pausedIn None)
            | None => mret tt
            end;
        e ← eventsPermitted p;
        when e (event p (pt_time pt)))).

(** lib/Port.cpp:581-633 Port::seeSamplingEdge *)
Definition seeSamplingEdge (p : EventableRef) : MS unit :=
  pt ← port p;
  if outputPort pt || (useReadyOut pt && (negb (readyOut pt) || timeRegValid pt)) || (useReadyIn pt && negb (readyIn pt))
  then mret tt
  else
    currentValue ← inputNow p;
    w ← getPortWidth p;
    x ← lift (shiftIn pt w currentValue (shiftReg pt));
    _ ← modPort p (fun pt => set_validShiftRegEntries (u32 (validShiftRegEntries pt + 1)) (set_shiftReg x pt));
    realign ← shouldRealignShiftRegister p;
    _ ← modPort p (fun pt =>
          if realign : bool then
            let pt := set_timeRegValid false (set_transferRegValid false (set_validShiftRegEntries (portShiftCount pt) pt)) in
            if buffered pt then set_pt_condition COND_FULL pt else pt
          else if buffered pt && timeRegValid pt && negb (useReadyOut pt) && (portCounter pt =? timeReg pt)
          then set_timeRegValid false pt
          else pt);
    pt ← port p;
    when ((validShiftRegEntries pt =? portShiftCount pt) &&
          (negb (useReadyOut pt) || negb (transferRegValid pt) || timeRegValid pt || negb (bool_decide (pt_condition pt = COND_FULL))))
      (completeTransfer p).

(** lib/Port.cpp:635-650 Port::seeEdge *)
Definition seeEdge (p : EventableRef) (edgeType : EdgeType) (newTime : Z) : MS unit :=
  pt ← port p; _ ← require (pt_time pt <=? newTime);
  _ ← modPort p (set_pt_time newTime);
  if negb (bool_decide (portType pt = DATAPORT)) then mret tt
  else
    _ ← when (bool_decide (edgeType = FALLING)) (seeFallingEdge p);
    pt ← port p;
    when (bool_decide (edgeType = samplingEdge pt))
      (c ← portClock p;
       _ ← modPort p (fun pt => set_readyIn (negb (Signal.getValue (readyInValue c) (pt_time pt) =? 0)) pt);
       seeSamplingEdge p).

(** [seeEdge(nextEdge++)] *)
Definition seeNextEdge (p : EventableRef) : MS unit :=
  pt ← port p;
  _ ← modPort p (set_nextEdge (it_next (nextEdge pt)));
  seeEdge p (it_type (nextEdge pt)) (it_time (nextEdge pt)).

(** ** Bringing a port up to date *)

Fixpoint updateSlow_loop (fuel : nat) (p : EventableRef) (newTime : Z) : MS unit :=
  match fuel with
  | O => undef
  | S fuel =>
      pt ← port p;
      if it_time (nextEdge pt) <=? newTime then _ ← seeNextEdge p; updateSlow_loop fuel p newTime else mret tt
  end.

(** lib/Port.cpp:477-483 Port::updateSlow *)
Definition updateSlow (p : EventableRef) (newTime : Z) : MS unit :=
  _ ← updateSlow_loop loopFuel p newTime; modPort p (set_pt_time newTime).

(** [while (cond) { seeEdge(nextEdge++); if (--numEdges == 0) return; }]: [None] if it returns, else
    the number of edges left *)
Fixpoint edgesWhile (fuel : nat) (p : EventableRef) (cond : MS bool) (numEdges : Z) : MS (option Z) :=
  match fuel with
  | O => undef
  | S fuel =>
      b ← cond;
      if b : bool then
        _ ← seeNextEdge p;
        if u32 (numEdges - 1) =? 0 then mret None else edgesWhile fuel p cond (u32 (numEdges - 1))
      else mret (Some numEdges)
  end.
Definition edgesWhile_ (p : EventableRef) (cond : MS bool) (numEdges : Z) (k : Z -> MS unit) : MS unit :=
  r ← edgesWhile (S (Z.to_nat numEdges)) p cond numEdges;
  match r with None => mret tt | Some n => k n end.
Definition onPort (p : EventableRef) (f : Port -> bool) : MS bool := pt ← port p; mret (f pt).

(** The shift register is empty and no partial transfer is to come. *)
Definition outputIdle (pt : Port) : bool := (validShiftRegEntries pt =? 0) && (portShiftCount pt =? shiftRegEntries pt).

(** [updatePortCounter(n); nextEdge += n; time = newTime] *)
Definition skip (p : EventableRef) (n newTime : Z) : MS unit :=
  modPort p (fun pt => skipEdges n newTime (updatePortCounter n pt)).

Definition numFalling (pt : Port) (numEdges : Z) : Z :=
  u32 (numEdges + (if bool_decide (it_type (nextEdge pt) = FALLING) then 1 else 0)) / 2.

(** lib/Port.cpp:306-347 Port::updateNoExternalChange: an output port *)
Definition updateNoExternalChangeOutput (p : EventableRef) (numEdges newTime : Z) : MS unit :=
  edgesWhile_ p (onPort p (fun pt => negb (outputIdle pt))) numEdges (fun numEdges =>
  pt ← port p;
  if negb (timeRegValid pt) then skip p numEdges newTime
  else
    fallingEdgesRemaining ← lift (fallingEdgesUntilTimeMet pt);
    if numFalling pt numEdges <? fallingEdgesRemaining then
      modPort p (fun pt => skipEdges numEdges newTime (set_portCounter (u16 (portCounter pt + numFalling pt numEdges)) pt))
    else
      edgesRemaining ← lift (edgesUntilTimeMet pt);
      _ ← modPort p (fun pt => set_nextEdge (it_add (nextEdge pt) (edgesRemaining - 1))
            (set_portCounter (u16 (portCounter pt + (fallingEdgesRemaining - 1))) pt));
      edgesWhile_ p (onPort p timeRegValid) (u32 (numEdges - (edgesRemaining - 1))) (fun numEdges =>
      edgesWhile_ p (onPort p (fun pt => negb (outputIdle pt))) numEdges (fun numEdges =>
      skip p numEdges newTime))).

(** lib/Port.cpp:384-431 Port::updateNoExternalChange: an input port, once its time has come *)
Definition updateNoExternalChangeInput (p : EventableRef) (numEdges newTime : Z) : MS unit :=
  pt ← port p;
  let skipInput (n : Z) :=
    _ ← modPort p (updatePortCounter n);
    pt ← port p; pt ← lift (updateInputValidShiftRegEntries n pt);
    putPort p (skipEdges n newTime pt) in
  steady ← computeSteadyStateInputShiftReg p;
  if useReadyOut pt then
    v ← inputNow p; ok ← lift (valueMeetsCondition pt v);
    if negb ok then
      edgesWhile_ p (onPort p (fun pt => negb (shiftReg pt =? steady) || negb (portShiftCount pt =? shiftRegEntries pt)))
        numEdges skipInput
    else
      edgesWhile_ p (onPort p (fun pt => negb (bool_decide (pt_condition pt = COND_FULL)))) numEdges (fun numEdges =>
      edgesWhile_ p (onPort p (fun pt => negb (transferRegValid pt) || negb (portShiftCount pt =? shiftRegEntries pt)))
        numEdges (fun numEdges => skip p numEdges newTime))
  else
    edgesWhile_ p (onPort p (fun pt => negb (transferRegValid pt) || negb (portShiftCount pt =? shiftRegEntries pt) ||
                     negb (shiftReg pt =? steady) || negb (transferReg pt =? steady)))
      numEdges skipInput.

(** lib/Port.cpp:349-382 Port::updateNoExternalChange: an input port that waits for its time *)
Definition updateNoExternalChangeTimed (p : EventableRef) (numEdges newTime : Z) : MS unit :=
  pt ← port p;
  if isClock (pinsInputValue pt) then updateSlow p newTime
  else if negb (timeRegValid pt) then updateNoExternalChangeInput p numEdges newTime
  else
    let rest (numEdges : Z) :=
      pt ← port p;
      fallingEdgesRemaining ← lift (fallingEdgesUntilTimeMet pt);
      if numFalling pt numEdges <? fallingEdgesRemaining then skip p numEdges newTime
      else
        edgesRemaining ← lift (edgesUntilTimeMet pt);
        _ ← modPort p (updatePortCounter (edgesRemaining - 1));
        _ ← modPort p (fun pt => set_nextEdge (it_add (nextEdge pt) (edgesRemaining - 1)) pt);
        edgesWhile_ p (onPort p timeRegValid) (u32 (numEdges - (edgesRemaining - 1))) (fun numEdges =>
        updateNoExternalChangeInput p numEdges newTime) in
    if negb (useReadyOut pt) then
      steady ← computeSteadyStateInputShiftReg p;
      edgesWhile_ p (onPort p (fun pt => negb (shiftReg pt =? steady) || negb (portShiftCount pt =? shiftRegEntries pt)))
        numEdges rest
    else rest numEdges.

(** lib/Port.cpp:256-431 Port::updateNoExternalChange: [slowMode] is false *)
Definition updateNoExternalChange (p : EventableRef) (numEdges : Z) : MS unit :=
  if numEdges =? 0 then mret tt
  else
    pt ← port p;
    let newTime := it_time (it_add (nextEdge pt) (u32 (numEdges - 1))) in
    let direction (numEdges : Z) :=
      pt ← port p;
      if outputPort pt then updateNoExternalChangeOutput p numEdges newTime else updateNoExternalChangeTimed p numEdges newTime in
    if useReadyIn pt then
      c ← portClock p;
      if isClock (readyInValue c) then updateSlow p newTime
      else
        edgesWhile_ p (pt ← port p; c ← portClock p;
                       mret (negb ((if readyIn pt then 1 else 0) =? Signal.getValue (readyInValue c) (pt_time pt))))
          numEdges (fun numEdges =>
        pt ← port p;
        if negb (readyIn pt) then
          met ← (if timeRegValid pt then n ← lift (fallingEdgesUntilTimeMet pt); mret (n <=? numEdges) else mret false);
          _ ← when (met && (outputPort pt || useReadyOut pt))
                (modPort p (fun pt => set_validShiftRegEntries 0 (set_timeRegValid false pt)));
          skip p numEdges newTime
        else direction numEdges)
    else direction numEdges.

(** lib/Port.cpp:433-458 Port::update *)
Definition update (p : EventableRef) (newTime : Z) : MS unit :=
  pt ← port p; _ ← require (pt_time pt <=? newTime);
  c ← portClock p; u ← isInUse p;
  if negb (isFixedFrequency c) || negb u || negb (bool_decide (portType pt = DATAPORT)) then modPort p (set_pt_time newTime)
  else
    here ← lift (getEdgeIterator (clk_getValue c) (pt_time pt));
    _ ← require (it_eqb (nextEdge pt) here);
    if newTime <? it_time (it_add (nextEdge pt) 2) then updateSlow p newTime
    else
      there ← lift (getEdgeIterator (clk_getValue c) newTime);
      d ← lift (it_distance there (nextEdge pt));
      let numEdges := u32 d in
      _ ← updateNoExternalChange p (u32 (numEdges - 1));
      _ ← seeNextEdge p;
      modPort p (set_pt_time newTime).

(** lib/Port.cpp:685-696 Port::seeClockChange *)
Definition seeClockChange (p : EventableRef) (time : Z) : MS unit :=
  u ← isInUse p;
  if negb u then mret tt
  else
    pt ← port p;
    _ ← match portType pt with
        | CLOCKPORT => v ← getPinsOutputValue p; outv p v time
        | DATAPORT =>
            c ← portClock p;
            when (isFixedFrequency c)
              (it ← lift (getEdgeIterator (cb_value c) time); modPort p (set_nextEdge it))
        | READYPORT => mret tt
        end;
    scheduleUpdateIfNeeded p.

(** lib/Port.cpp:676-683 Port::seeClockStart *)
Definition seeClockStart (p : EventableRef) (time : Z) : MS unit :=
  u ← isInUse p;
  when u (_ ← modPort p (set_portCounter 0); seeClockChange p time).

(** ** Clock blocks *)

(** lib/ClockBlock.cpp:22-27 ClockBlock::updateAttachedPorts *)
Definition updateAttachedPorts (c : Ref) (time : Z) : MS unit :=
  k ← clk c; forEach (cb_ports k) (fun p => update p time).

(** lib/ClockBlock.cpp:29-37 ClockBlock::seeChangeOnAttachedPorts *)
Definition seeChangeOnAttachedPorts (c : Ref) (time : Z) : MS unit :=
  k ← clk c; when (running k) (forEach (cb_ports k) (fun p => seeClockChange p time)).

(** lib/ClockBlock.cpp:39-44 ClockBlock::seeEdgeOnAttachedPorts *)
Definition seeEdgeOnAttachedPorts (c : Ref) (edgeType : EdgeType) (time : Z) : MS unit :=
  k ← clk c; forEach (cb_ports k) (fun p => seeEdge p edgeType time).

(** lib/ClockBlock.cpp:111-128 ClockBlock::setValue *)
Definition clk_setValue (c : Ref) (newValue : Signal) (time : Z) : MS unit :=
  k ← clk c;
  if signal_eqb newValue (cb_value k) then mret tt
  else
    _ ← when (isFixedFrequency k || isClock newValue) (updateAttachedPorts c time);
    k ← clk c;
    let oldValue := Signal.getValue (cb_value k) time in
    _ ← modClk c (set_cb_value newValue);
    if negb (running k) then mret tt
    else
      _ ← when (negb (Signal.getValue newValue time =? oldValue))
            (seeEdgeOnAttachedPorts c (if oldValue =? 0 then RISING else FALLING) time);
      k ← clk c;
      when (isFixedFrequency k) (seeChangeOnAttachedPorts c time).

(** lib/ClockBlock.cpp:175-180 ClockBlock::setReadyInValue *)
Definition setReadyInValue (c : Ref) (v : Signal) (time : Z) : MS unit :=
  _ ← updateAttachedPorts c time;
  _ ← modClk c (set_readyInValue v);
  seeChangeOnAttachedPorts c time.

(** ** Pins *)

(** [interface->seePinsChange(value, time)], for a port given by what follows *)
Definition onInterface (seePort : EventableRef -> Signal -> Z -> MS unit) (i : option PortInterface) (v : Signal) (time : Z)
    : MS unit :=
  match i with
  | None => mret tt
  | Some (IPort q) => seePort q v time
  | Some (IDevice n) => dev_seePinsChange n v time
  end.

(** lib/Port.cpp:213-228 Port::handlePinsChange: a tracer that is a port would be a port that sees the change *)
Definition handlePinsChange (seePort : EventableRef -> Signal -> Z -> MS unit) (p : EventableRef) (v : Signal) (time : Z) : MS unit :=
  u ← isInUse p; pt ← port p;
  _ ← when u
        (let effectiveValue := getEffectiveValue pt v in
         _ ← forEach (sourceOf pt) (fun c => clk_setValue c effectiveValue time);
         forEach (readyInOf pt) (fun c => setReadyInValue c effectiveValue time));
  pt ← port p;
  onInterface seePort (tracer pt) v time.

(** lib/Port.cpp:244-254 Port::seePinsChange *)
Definition seePinsChange_ (seePort : EventableRef -> Signal -> Z -> MS unit) (p : EventableRef) (v : Signal) (time : Z) : MS unit :=
  _ ← update p time;
  _ ← modPort p (set_pinsInputValue v);
  u ← isInUse p; pt ← port p;
  if u && outputPort pt then mret tt
  else _ ← handlePinsChange seePort p v time; scheduleUpdateIfNeeded p.

(** lib/Port.cpp:202-211 Port::outputValue *)
Definition outputValue_ (seePort : EventableRef -> Signal -> Z -> MS unit) (p : EventableRef) (v : Signal) (time : Z) : MS unit :=
  pt ← port p;
  _ ← onInterface seePort (loopback pt) v time;
  pt ← port p;
  when (outputPort pt) (handlePinsChange seePort p v time).
End callbacks.

(** A call of [seePinsChange] or of [outputValue] that does not nest more than [fuel] deep. *)
Fixpoint pinsChange (fuel : nat) (output : bool) (p : EventableRef) (v : Signal) (time : Z) : MS unit :=
  match fuel with
  | O => undef
  | S n =>
      (if output then outputValue_ else seePinsChange_) (pinsChange n true) fuel (pinsChange n false) p v time
  end.
End port.
