(* ===== verification/PortUse.v ===== *)
(** * Using ports and clock blocks (lib/Port.cpp, lib/ClockBlock.cpp)

    The methods that instructions call, each of which first brings the port up to date and takes over
    its ownership; and the instances by which the ports take their place in the rest of the system. *)

From Stdlib Require Import ZArith Lia.
From stdpp Require Import base list numbers option gmap.
From S2P Require Import Prelude BitManip Opcode InstrDecode Signal DecodeCache Core.
From S2P Require Import Refs Resource Node StateMonad Thread SysState Events PortState Port ResourceOps.

#[local] Open Scope Z_scope.
#[local] Open Scope cbits_scope.

Section use.
Context `{PortEnv} (fuel : nat).
Abbreviation MS := (M (Sys Ports)).

Definition outputValue (p : EventableRef) (v : Signal) (time : Z) : MS unit := pinsChange fuel true p v time.
Definition seePinsChange (p : EventableRef) (v : Signal) (time : Z) : MS unit := pinsChange fuel false p v time.
Definition portUpdate (p : EventableRef) (time : Z) : MS unit := update (pinsChange fuel true) fuel p time.

(** [update(time); updateOwner(thread)] *)
Definition touch (p : EventableRef) (t : Ref) (time : Z) : MS unit := _ ← portUpdate p time; updateOwner p t.

(** [paused = &thread; scheduleUpdateIfNeeded(); return DESCHEDULE;] *)
Definition pausePort (p : EventableRef) (f : Port -> Port) : MS ResOpResult :=
  _ ← modPort p f; _ ← scheduleUpdateIfNeeded p; mret DESCHEDULE.

(** ** Input and output *)

(** lib/Port.cpp:717-749 Port::in *)
Definition port_in (p : EventableRef) (t : Ref) (time : Z) : MS (ResOpResult * Z) :=
  _ ← touch p t time;
  pt ← port p;
  if negb (bool_decide (portType pt = DATAPORT)) then mret (CONTINUE, 0)
  else if outputPort pt then r ← pausePort p (set_pausedIn (Some t)); mret (r, 0)
  else
    met ← lift (timeAndConditionMet pt);
    if met : bool then
      _ ← modPort p (fun pt => set_holdTransferReg false
            (if validShiftRegEntries pt =? portShiftCount pt
             then set_timestampReg (portCounter pt) (set_validShiftRegEntries 0
                    (set_transferReg (shiftReg pt) (set_portShiftCount (shiftRegEntries pt) pt)))
             else set_transferRegValid false pt));
      mret (CONTINUE, transferReg pt)
    else r ← pausePort p (set_pausedIn (Some t)); mret (r, 0).

(** lib/Port.cpp:751-788 Port::inpw *)
Definition port_inpw (p : EventableRef) (t : Ref) (width time : Z) : MS (ResOpResult * Z) :=
  _ ← touch p t time;
  pt ← port p; w ← getPortWidth p;
  if negb (buffered pt) || negb (isValidPortShiftCount pt w width) then mret (ILLEGAL, 0)
  else if negb (bool_decide (portType pt = DATAPORT)) then mret (CONTINUE, 0)
  else if outputPort pt then r ← pausePort p (set_pausedIn (Some t)); mret (r, 0)
  else
    met ← lift (timeAndConditionMet pt);
    if met : bool then
      _ ← modPort p (fun pt => set_holdTransferReg false
            (if validShiftRegEntries pt =? portShiftCount pt
             then set_timestampReg (portCounter pt) (set_transferReg (shiftReg pt) (set_portShiftCount (shiftRegEntries pt) pt))
             else set_transferRegValid false pt));
      mret (CONTINUE, transferReg pt)
    else r ← pausePort p (fun pt => set_pausedIn (Some t) (set_portShiftCount (width / w) pt)); mret (r, 0).

(** What [out] and [outpw] do when the transfer register is free. *)
Definition startOutput (p : EventableRef) (f : Port -> Port) (value : Z) : MS ResOpResult :=
  _ ← modPort p (fun pt =>
        let pt := if outputPort pt then pt else set_validShiftRegEntries 1 pt in
        set_outputPort true (setTransferReg value (f pt)));
  _ ← scheduleUpdateIfNeeded p; mret CONTINUE.

(** lib/Port.cpp:790-815 Port::out *)
Definition port_out (p : EventableRef) (t : Ref) (value time : Z) : MS ResOpResult :=
  _ ← touch p t time;
  pt ← port p;
  if negb (bool_decide (portType pt = DATAPORT)) then mret CONTINUE
  else if outputPort pt && transferRegValid pt then pausePort p (set_pausedOut (Some t))
  else startOutput p id value.

(** lib/Port.cpp:817-846 Port::outpw *)
Definition port_outpw (p : EventableRef) (t : Ref) (value width time : Z) : MS ResOpResult :=
  _ ← touch p t time;
  pt ← port p; w ← getPortWidth p;
  if negb (buffered pt) || negb (isValidPortShiftCount pt w width) then mret ILLEGAL
  else if negb (bool_decide (portType pt = DATAPORT)) then mret CONTINUE
  else if outputPort pt && transferRegValid pt then pausePort p (set_pausedOut (Some t))
  else startOutput p (set_portShiftCount (width / w)) value.

(** lib/Port.cpp:848-870 Port::setpsc *)
Definition port_setpsc (p : EventableRef) (t : Ref) (width time : Z) : MS ResOpResult :=
  _ ← touch p t time;
  pt ← port p; w ← getPortWidth p;
  if negb (buffered pt) || negb (isValidPortShiftCount pt w width) then mret ILLEGAL
  else if negb (bool_decide (portType pt = DATAPORT)) then mret CONTINUE
  else if outputPort pt && transferRegValid pt then pausePort p (set_pausedOut (Some t))
  else _ ← modPort p (set_portShiftCount (width / w)); _ ← scheduleUpdateIfNeeded p; mret CONTINUE.

(** lib/Port.cpp:872-902 Port::endin *)
Definition port_endin (p : EventableRef) (t : Ref) (time : Z) : MS (ResOpResult * Z) :=
  _ ← touch p t time;
  pt ← port p; w ← getPortWidth p;
  if outputPort pt || negb (buffered pt) then mret (ILLEGAL, 0)
  else if negb (bool_decide (portType pt = DATAPORT)) then mret (CONTINUE, 0)
  else
    let entries := if transferRegValid pt then u32 (validShiftRegEntries pt + shiftRegEntries pt) else validShiftRegEntries pt in
    _ ← modPort p (fun pt =>
          if transferRegValid pt
          then if validShiftRegEntries pt =? 0 then pt else set_portShiftCount (validShiftRegEntries pt) pt
          else setTransferReg (shiftReg pt) (set_timestampReg (portCounter pt)
                 (set_portShiftCount (shiftRegEntries pt) (set_validShiftRegEntries 0 pt))));
    _ ← scheduleUpdateIfNeeded p;
    mret (CONTINUE, u32 (entries * w)).

(** lib/Port.cpp:904-915 Port::sync *)
Definition port_sync (p : EventableRef) (t : Ref) (time : Z) : MS ResOpResult :=
  _ ← touch p t time;
  pt ← port p;
  if negb (bool_decide (portType pt = DATAPORT)) || negb (outputPort pt) then mret CONTINUE
  else pausePort p (set_pausedSync (Some t)).

(** lib/Port.cpp:917-923 Port::peek *)
Definition port_peek (p : EventableRef) (t : Ref) (time : Z) : MS Z :=
  _ ← touch p t time; v ← getEffectiveInputPinsValue p; mret (Signal.getValue v time).

(** lib/Port.cpp:925-931 Port::getTimestamp *)
Definition getTimestamp (p : EventableRef) (t : Ref) (time : Z) : MS Z :=
  _ ← touch p t time; pt ← port p; mret (u32 (timestampReg pt)).

(** lib/Port.cpp:933-951 Port::setPortTime *)
Definition setPortTime (p : EventableRef) (t : Ref) (value time : Z) : MS ResOpResult :=
  _ ← touch p t time;
  pt ← port p;
  if negb (bool_decide (portType pt = DATAPORT)) then mret CONTINUE
  else if outputPort pt && transferRegValid pt then pausePort p (set_pausedOut (Some t))
  else _ ← modPort p (fun pt => set_timeRegValid true (set_timeReg (u16 value) pt)); mret CONTINUE.

(** lib/Port.cpp:953-958 Port::clearPortTime *)
Definition clearPortTime (p : EventableRef) (t : Ref) (time : Z) : MS unit :=
  _ ← touch p t time; modPort p (set_timeRegValid false).

(** lib/Port.cpp:960-968 Port::clearBuf *)
Definition clearBuf (p : EventableRef) (t : Ref) (time : Z) : MS unit :=
  _ ← touch p t time;
  _ ← modPort p (fun pt => set_validShiftRegEntries 0 (set_holdTransferReg false (set_transferRegValid false pt)));
  clearReadyOut outputValue p time.

(** ** Configuration *)

(** lib/Port.cpp:75-112 Port::setCInUse *)
Definition port_setCInUse (p : EventableRef) (t : Ref) (val : bool) (newTime : Z) : MS bool :=
  _ ← when val
        (w ← getPortWidth p;
         _ ← modPort p (fun q =>
               mkPort 0 COND_FULL (clock q) (sourceOf q) (readyInOf q) (readyOutOf q) 0 (loopback q) (tracer q)
                 (readyOutPorts q) (pausedOut q) (pausedIn q) (pausedSync q) 1 1 0 0 (transferReg q) (timeReg q)
                 (readyOut q) false w false false 0 false newTime (nextEdge q) false false false RISING NOREADY MASTER
                 DATAPORT (pinsInputValue q));
         pt ← port p;
         _ ← match readyOutOf pt with
             | Some q => _ ← modPort q (fun x => set_readyOutPorts (set_erase p (readyOutPorts x)) x); modPort p (set_readyOutOf None)
             | None => mret tt
             end;
         c ← portClock p;
         _ ← when (isFixedFrequency c) (it ← lift (getEdgeIterator (cb_value c) newTime); modPort p (set_nextEdge it));
         clearReadyOut outputValue p newTime);
  _ ← (if val then eventableSetInUseOn p t else eventableSetInUseOff p);
  mret true.

(** lib/Port.cpp:114-125 Port::setCondition *)
Definition port_setCondition (p : EventableRef) (t : Ref) (c : Condition) (time : Z) : MS bool :=
  _ ← touch p t time;
  if bool_decide (c = COND_AFTER) then mret false
  else _ ← modPort p (set_pt_condition c); _ ← scheduleUpdateIfNeeded p; mret true.

(** lib/Port.cpp:127-135 Port::setData *)
Definition port_setData (p : EventableRef) (t : Ref) (d time : Z) : MS bool :=
  _ ← touch p t time; m ← portWidthMask p;
  _ ← modPort p (set_pt_data (d .& m)); _ ← scheduleUpdateIfNeeded p; mret true.

(** lib/Port.cpp:137-144 Port::getData *)
Definition port_getData (p : EventableRef) (t : Ref) (time : Z) : MS Z :=
  _ ← touch p t time; pt ← port p; _ ← scheduleUpdateIfNeeded p; mret (pt_data pt).

(** lib/Port.cpp:146-163 Port::setPortInv *)
Definition setPortInv (p : EventableRef) (t : Ref) (v : bool) (time : Z) : MS bool :=
  _ ← touch p t time; pt ← port p; w ← getPortWidth p;
  if eqb (inverted pt) v then mret true
  else if v && negb (w =? 1) then mret false
  else _ ← modPort p (set_inverted v); x ← getPinsOutputValue p; _ ← outputValue p x time; mret true.

(** lib/Port.cpp:165-174 Port::setSamplingEdge *)
Definition setSamplingEdge (p : EventableRef) (t : Ref) (v : EdgeType) (time : Z) : MS unit :=
  _ ← touch p t time; pt ← port p;
  if bool_decide (samplingEdge pt = v) then mret tt
  else _ ← modPort p (set_samplingEdge v); scheduleUpdateIfNeeded p.

(** lib/Port.cpp:176-182 Port::setPinDelay *)
Definition setPinDelay (p : EventableRef) (t : Ref) (v time : Z) : MS bool := _ ← touch p t time; mret (v <=? 5).

(** [clock->attachPort(this); portCounter = 0; seeClockChange(time)] *)
Definition attachClk (p : EventableRef) (c : Ref) (time : Z) : MS unit :=
  _ ← modPort p (set_clock (Some c));
  _ ← modClk c (fun k => set_cb_ports (set_insert portAddr p (cb_ports k)) k);
  _ ← modPort p (set_portCounter 0);
  seeClockChange outputValue p time.

(** lib/Port.cpp:996-1001 Port::setClkInitial *)
Definition setClkInitial (p : EventableRef) (c : Ref) : MS unit := pt ← port p; attachClk p c (pt_time pt).

(** lib/Port.cpp:1003-1012 Port::setClk *)
Definition setClk (p : EventableRef) (t c : Ref) (time : Z) : MS unit :=
  _ ← touch p t time; pt ← port p;
  old ← lift (clock pt);
  _ ← modClk old (fun k => set_cb_ports (set_erase p (cb_ports k)) k);
  attachClk p c time.

(** lib/Port.cpp:1014-1028 Port::setReady: the port that is left is not told *)
Definition port_setReady (p : EventableRef) (t : Ref) (q : EventableRef) (time : Z) : MS bool :=
  _ ← touch p t time; w ← getPortWidth p;
  if negb (w =? 1) then mret false
  else
    pt ← port p;
    _ ← when (bool_decide (is_Some (readyOutOf pt))) (modPort q (fun x => set_readyOutPorts (set_erase p (readyOutPorts x)) x));
    _ ← modPort p (set_readyOutOf (Some q));
    _ ← modPort q (fun x => set_readyOutPorts (set_insert portAddr p (readyOutPorts x)) x);
    pt ← port p; qt ← port q;
    _ ← outputValue p (constant (getEffectiveValue32 pt (if readyOut qt then 1 else 0))) time;
    mret true.

(** lib/Port.cpp:1030-1039 Port::setBuffered *)
Definition setBuffered (p : EventableRef) (t : Ref) (v : bool) (time : Z) : MS bool :=
  _ ← touch p t time; pt ← port p; w ← getPortWidth p;
  if negb v && (negb (transferWidth pt =? w) || negb (bool_decide (readyMode pt = NOREADY))) then mret false
  else _ ← modPort p (set_buffered v); mret true.

(** lib/Port.cpp:1041-1051 Port::setReadyMode *)
Definition setReadyMode (p : EventableRef) (t : Ref) (mode : ReadyMode) (time : Z) : MS bool :=
  _ ← touch p t time; pt ← port p;
  if negb (bool_decide (mode = NOREADY)) && negb (buffered pt) then mret false
  else _ ← modPort p (set_readyMode mode); _ ← scheduleUpdateIfNeeded p; mret true.

(** lib/Port.cpp:1053-1060 Port::setMasterSlave *)
Definition setMasterSlave (p : EventableRef) (t : Ref) (v : MasterSlave) (time : Z) : MS bool :=
  _ ← touch p t time; _ ← modPort p (set_masterSlave v); _ ← scheduleUpdateIfNeeded p; mret true.

(** lib/Port.cpp:1062-1085 Port::setPortType *)
Definition setPortType (p : EventableRef) (t : Ref) (type : PortType) (time : Z) : MS bool :=
  _ ← touch p t time; pt ← port p;
  if bool_decide (portType pt = type) then mret true
  else
    oldValue ← getPinsOutputValue p;
    let oldOutputPort := outputPort pt in
    _ ← modPort p (set_portType type);
    _ ← (if bool_decide (type = DATAPORT) then
           c ← portClock p;
           when (isFixedFrequency c) (it ← lift (getEdgeIterator (cb_value c) time); modPort p (set_nextEdge it))
         else modPort p (set_outputPort true));
    newValue ← getPinsOutputValue p;
    _ ← when (negb (signal_eqb newValue oldValue) || negb oldOutputPort) (outputValue p newValue time);
    _ ← scheduleUpdateIfNeeded p; mret true.

(** lib/Port.cpp:1087-1098 Port::setTransferWidth *)
Definition setTransferWidth (p : EventableRef) (t : Ref) (v time : Z) : MS bool :=
  _ ← touch p t time; pt ← port p; w ← getPortWidth p;
  if negb (checkTransferWidth pt w v) then mret false
  else
    _ ← modPort p (fun pt => set_portShiftCount (v / w) (set_shiftRegEntries (v / w) (set_transferWidth v pt)));
    mret true.

(** lib/Port.cpp:1289-1299 Port::seeEventEnable *)
Definition seeEventEnable (p : EventableRef) (time : Z) : MS bool :=
  pt ← port p; _ ← require (bool_decide (portType pt = DATAPORT));
  met ← lift (timeAndConditionMet pt);
  if met : bool then _ ← event p time; mret true else _ ← scheduleUpdateIfNeeded p; mret false.

(** lib/Port.cpp:665-674 Port::seeOwnerEventEnable *)
Definition seeOwnerEventEnable (p : EventableRef) : MS bool :=
  e ← eventsPermitted p; _ ← require e;
  pt ← port p; met ← lift (timeAndConditionMet pt);
  if met : bool then
    ev ← eventable p; t ← lift (owner ev); th ← thread t; _ ← event p (Thread.time th); mret true
  else _ ← scheduleUpdateIfNeeded p; mret false.

(** lib/Port.h:319-322 run *)
Definition port_run (p : EventableRef) (time : Z) : MS unit := _ ← portUpdate p time; scheduleUpdateIfNeeded p.

(** ** Clock blocks *)

Definition clk_updateAttachedPorts (c : Ref) (time : Z) : MS unit := updateAttachedPorts (pinsChange fuel true) fuel c time.
Definition clk_set (c : Ref) (v : Signal) (time : Z) : MS unit := clk_setValue (pinsChange fuel true) fuel c v time.

(** lib/Port.h:251-254 registerAsSourceOf *)
Definition registerAsSourceOf (p : EventableRef) (c : Ref) : MS unit :=
  _ ← modPort p (fun pt => set_sourceOf (set_insert clkAddr c (sourceOf pt)) pt); scheduleUpdateIfNeeded p.
(** lib/Port.h:256-258 deregisterAsSourceOf *)
Definition deregisterAsSourceOf (p : EventableRef) (c : Ref) : MS unit :=
  modPort p (fun pt => set_sourceOf (set_erase c (sourceOf pt)) pt).
(** lib/Port.h:260-263 registerAsReadyInOf *)
Definition registerAsReadyInOf (p : EventableRef) (c : Ref) : MS unit :=
  _ ← modPort p (fun pt => set_readyInOf (set_insert clkAddr c (readyInOf pt)) pt); scheduleUpdateIfNeeded p.
(** lib/Port.h:265-267 deregisterAsReadyInOf *)
Definition deregisterAsReadyInOf (p : EventableRef) (c : Ref) : MS unit :=
  modPort p (fun pt => set_readyInOf (set_erase c (readyInOf pt)) pt).

(** [newValue.changeFrequency(time, getHalfPeriod()); setValue(newValue, time)] *)
Definition clk_changeFrequency (c : Ref) (time : Z) : MS unit :=
  k ← clk c; v ← lift (changeFrequency (cb_value k) time (getHalfPeriod k)); clk_set c v time.

(** lib/ClockBlock.cpp:84-94 ClockBlock::setSourceRefClock *)
Definition setSourceRefClock (c : Ref) (time : Z) : MS unit :=
  _ ← clk_updateAttachedPorts c time;
  k ← clk c;
  _ ← match source k with
      | Some p => _ ← deregisterAsSourceOf p c; modClk c (set_source None)
      | None => mret tt
      end;
  clk_changeFrequency c time.

(** lib/ClockBlock.cpp:46-60 ClockBlock::setCInUse *)
Definition clk_setCInUse (c : Ref) (val : bool) (time : Z) : MS bool :=
  _ ← clk_updateAttachedPorts c time;
  _ ← modClk c (fun k => set_divide 1 (set_running false k));
  k ← clk c;
  _ ← match cb_readyIn k with
      | Some p => _ ← deregisterAsReadyInOf p c; modClk c (fun k => set_readyInValue (constant 1) (set_cb_readyIn None k))
      | None => mret tt
      end;
  _ ← setSourceRefClock c time;
  _ ← modClk c (fun k => set_cb_res (setInUse val (cb_res k)) k);
  mret true.

(** lib/ClockBlock.cpp:62-73 ClockBlock::setSource *)
Definition clk_setSource (c : Ref) (p : EventableRef) (time : Z) : MS bool :=
  k ← clk c;
  if negb (divide k =? 1) then mret false
  else
    _ ← portUpdate p time;
    v ← getEffectiveInputPinsValue p;
    _ ← clk_set c v time;
    k ← clk c;
    _ ← match source k with Some q => deregisterAsSourceOf q c | None => mret tt end;
    _ ← modClk c (set_source (Some p));
    _ ← registerAsSourceOf p c;
    mret true.

(** lib/ClockBlock.cpp:75-82 ClockBlock::setEdgeDelay *)
Definition setEdgeDelay (c : Ref) : MS bool := k ← clk c; mret (negb (running k)).

(** lib/ClockBlock.cpp:96-109 ClockBlock::setData *)
Definition clk_setData (c t : Ref) (newDivide time : Z) : MS bool :=
  k ← clk c; ty ← nodeType t.1;
  if bool_decide (is_Some (source k)) && negb (bool_decide (ty = XS2_A)) then mret false
  else
    let n := newDivide .& 0xff in
    _ ← modClk c (set_divide (if n =? 0 then 1 else 2 * n));
    _ ← clk_changeFrequency c time;
    mret true.

(** lib/ClockBlock.cpp:137-150 ClockBlock::setReady *)
Definition clk_setReady (c : Ref) (p : EventableRef) (time : Z) : MS bool :=
  _ ← clk_updateAttachedPorts c time;
  _ ← portUpdate p time;
  w ← getPortWidth p;
  if negb (w =? 1) then mret false
  else
    k ← clk c;
    _ ← match cb_readyIn k with Some q => deregisterAsReadyInOf q c | None => mret tt end;
    _ ← modClk c (set_cb_readyIn (Some p));
    _ ← registerAsReadyInOf p c;
    v ← getEffectiveInputPinsValue p;
    _ ← modClk c (set_readyInValue v);
    _ ← seeChangeOnAttachedPorts outputValue c time;
    mret true.

(** lib/ClockBlock.cpp:152-164 ClockBlock::start *)
Definition clk_start (c : Ref) (time : Z) : MS unit :=
  _ ← clk_updateAttachedPorts c time;
  _ ← modClk c (set_running true);
  k ← clk c;
  _ ← match source k with
      | Some _ => mret tt
      | None => v ← lift (changeFrequencyFrom (cb_value k) time 0 (getHalfPeriod k)); modClk c (set_cb_value v)
      end;
  forEach (cb_ports k) (fun p => seeClockStart outputValue p time).

(** lib/ClockBlock.cpp:166-173 ClockBlock::stop *)
Definition clk_stop (c : Ref) (time : Z) : MS unit :=
  k ← clk c;
  when (running k)
    (_ ← clk_updateAttachedPorts c time;
     _ ← modClk c (set_running false);
     seeChangeOnAttachedPorts outputValue c time).
End use.

(** ** The ports in the system *)

#[export] Instance portEvents `{PortEnv} : PortEvents Ports := {|
  port_complete := portComplete;
  port_seeEventEnable := seeEventEnable
|}.

Section ops.
Context `{PortEnv} (fuel : nat).
Abbreviation MS := (M (Sys Ports)).

Definition bool_op (m : MS bool) : MS (ResOpResult * Z) := b ← m; mret (if b : bool then CONTINUE else ILLEGAL, 0).
Definition unit_op (m : MS unit) : MS (ResOpResult * Z) := _ ← m; mret (CONTINUE, 0).
Definition value_op (m : MS Z) : MS (ResOpResult * Z) := v ← m; mret (CONTINUE, v).
Definition result_op (m : MS ResOpResult) : MS (ResOpResult * Z) := r ← m; mret (r, 0).

(** The mode of [setc], as the constant of the instruction. *)
Definition readyModeOf (val : Z) : ReadyMode :=
  if val =? SETC_RDY_NOREADY then NOREADY else if val =? SETC_RDY_STROBED then STROBED else HANDSHAKE.
Definition portTypeOf (val : Z) : PortType :=
  if val =? SETC_PORT_DATAPORT then DATAPORT else if val =? SETC_PORT_CLOCKPORT then CLOCKPORT else READYPORT.

Definition portOp (p : EventableRef) (t : Ref) (time : Z) (o : PortOp) : MS (ResOpResult * Z) :=
  match o with
  | PIn => port_in fuel p t time
  | POut v => result_op (port_out fuel p t v time)
  | PInpw w => port_inpw fuel p t w time
  | POutpw v w => result_op (port_outpw fuel p t v w time)
  | PPeek => value_op (port_peek fuel p t time)
  | PEndin => port_endin fuel p t time
  | PSetpsc w => result_op (port_setpsc fuel p t w time)
  | PGetData => value_op (port_getData fuel p t time)
  | PSetData v => bool_op (port_setData fuel p t v time)
  | PSetTransferWidth v => bool_op (setTransferWidth fuel p t v time)
  | PGetTransferWidth => value_op (pt ← port p; mret (transferWidth pt))
  | PSetReady q => bool_op (port_setReady fuel p t q time)
  | PGetTimestamp => value_op (getTimestamp fuel p t time)
  | PSetPortTime v => result_op (setPortTime fuel p t v time)
  | PSync => result_op (port_sync fuel p t time)
  | PClearPortTime => unit_op (clearPortTime fuel p t time)
  | PSetCInUse v => bool_op (port_setCInUse fuel p t v time)
  | PSetCondition c => bool_op (port_setCondition fuel p t c time)
  | PSetClk c => unit_op (setClk fuel p t c time)
  | PSetPinDelay v => bool_op (setPinDelay fuel p t v time)
  | PSetMasterSlave slave => bool_op (setMasterSlave fuel p t (if slave then SLAVE else MASTER) time)
  | PSetBuffered v => bool_op (setBuffered fuel p t v time)
  | PSetReadyMode m => bool_op (setReadyMode fuel p t (readyModeOf m) time)
  | PSetPortType ty => bool_op (setPortType fuel p t (portTypeOf ty) time)
  | PClearBuf => unit_op (clearBuf fuel p t time)
  | PSetPortInv v => bool_op (setPortInv fuel p t v time)
  | PSetSamplingEdge falling => unit_op (setSamplingEdge fuel p t (if falling then FALLING else RISING) time)
  end.

Definition clkOp (c t : Ref) (time : Z) (o : ClkOp) : MS (ResOpResult * Z) :=
  match o with
  | CSetCInUse v => bool_op (clk_setCInUse fuel c v time)
  | CSetSourceRefClock => unit_op (setSourceRefClock fuel c time)
  | CSetSource p => bool_op (clk_setSource fuel c p time)
  | CSetEdgeDelay _ _ => bool_op (setEdgeDelay c)
  | CStart => unit_op (clk_start fuel c time)
  | CStop => unit_op (clk_stop fuel c time)
  | CSetReady p => bool_op (clk_setReady fuel c p time)
  | CSetData v => bool_op (clk_setData fuel c t v time)
  end.

Definition portOps : PortOps Ports := {|
  port_op := portOp;
  clk_op := clkOp;
  clk_inUse c := k ← clk c; mret (inUse (cb_res k))
|}.
End ops.
