(* ===== verification/PortFacts.v ===== *)
(** * Ports: skipping edges, serial transfers

    A port that has nothing to do until a later edge is brought up to date in one step; for an output
    port the result is the state it would have reached by stepping over every edge. *)

From Stdlib Require Import ZArith Lia.
From stdpp Require Import base list numbers option gmap.
From S2P Require Import Prelude BitManip Opcode InstrDecode Signal DecodeCache Core.
From S2P Require Import Refs Resource Node StateMonad Thread SysState Events SysFacts PortState Port ResourceOps PortUse DataFacts DataExec.

#[local] Open Scope Z_scope.
#[local] Open Scope cbits_scope.

(** ** Rules *)

Definition setPort (s : Sys Ports) (p : EventableRef) (v : Port) : Sys Ports :=
  set_ports (mkPorts (<[p := v]> (port_map (ports s))) (clock_map (ports s))) s.
Definition portAt (s : Sys Ports) (p : EventableRef) : option Port := port_map (ports s) !! p.

Lemma setPort_at s p v : portAt (setPort s p v) p = Some v.
Proof. apply lookup_insert_eq. Qed.
Lemma setPort_twice s p v w : setPort (setPort s p v) p w = setPort s p w.
Proof. unfold setPort. cbn. rewrite insert_insert_eq. by destruct s. Qed.
Lemma setPort_same s p v : portAt s p = Some v -> setPort s p v = s.
Proof. intros E. unfold setPort. rewrite insert_id by done. destruct s as [??????????????[]]. done. Qed.

Lemma port_get s p v : portAt s p = Some v -> port p s = Some (s, v).
Proof. unfold port, portAt, get, lift, mbind, M_bind. cbn. by intros ->. Qed.
Lemma modPort_get s p v f : portAt s p = Some v -> modPort p f s = Some (setPort s p (f v), tt).
Proof. intros E. unfold modPort, mbind, M_bind. by rewrite (port_get _ _ _ E). Qed.

(** The parts of the system a port looks at, besides its own state: its width and its clock. *)
Record attached (s : Sys Ports) (p : EventableRef) (pt : Port) (width : Z) (c : ClockBlock) : Prop := {
  at_width : exists ev, eventables s !! p = Some ev /\ rid_width (ID (ev_res ev)) = Some width /\ inUse (ev_res ev) = true;
  at_clock : exists r, clock pt = Some r /\ clock_map (ports s) !! r = Some c
}.

Lemma attached_setPort s p pt v width c : attached s p pt width c -> clock v = clock pt -> attached (setPort s p v) p v width c.
Proof. intros [(ev & E) (r & Er & Ec)] Hv. split; [by exists ev |]. exists r. by rewrite Hv. Qed.

Lemma getPortWidth_run s p pt width c : attached s p pt width c -> getPortWidth p s = Some (s, width).
Proof.
  intros [(ev & E & W & _) _]. unfold getPortWidth, eventable, get, lift, mbind, M_bind. cbn. rewrite E. cbn. by rewrite W.
Qed.
Lemma isInUse_run s p pt width c : attached s p pt width c -> isInUse p s = Some (s, true).
Proof.
  intros [(ev & E & _ & U) _]. unfold isInUse, eventable, get, lift, mbind, M_bind. cbn. rewrite E. cbn. by rewrite U.
Qed.
Lemma portClock_run s p pt width c : portAt s p = Some pt -> attached s p pt width c -> portClock p s = Some (s, c).
Proof.
  intros Ep [_ (r & Er & Ec)]. unfold portClock. rewrite (bind_run _ _ _ _ _ (port_get _ _ _ Ep)).
  unfold clk, get, lift, mbind, M_bind. cbn. rewrite Er. cbn. by rewrite Ec.
Qed.
Lemma portWidthMask_run s p pt width c : attached s p pt width c -> portWidthMask p s = Some (s, makeMask width).
Proof. intros A. unfold portWidthMask. by rewrite (bind_run _ _ _ _ _ (getPortWidth_run _ _ _ _ _ A)). Qed.

(** ** A quiet output port *)

(** Nothing is to be sent and nobody waits; the ready input, if it is looked at, has been seen. *)
Record quiet (pt : Port) (c : ClockBlock) : Prop := {
  q_type : portType pt = DATAPORT;
  q_output : outputPort pt = true;
  q_mode : readyMode pt = NOREADY;
  q_readyOut : readyOut pt = false;
  q_readyIn : halfPeriod (readyInValue c) = 0 /\ readyIn pt = negb (value (readyInValue c) =? 0);
  q_valid : validShiftRegEntries pt = 0;
  q_count : portShiftCount pt = shiftRegEntries pt;
  q_transfer : transferRegValid pt = false;
  q_paused : pausedIn pt = None /\ pausedSync pt = None
}.

(** What an edge does to it. *)
Definition quietStep (pt : Port) : Port :=
  set_portCounter (if bool_decide (it_type (nextEdge pt) = FALLING) then u16 (portCounter pt + 1) else portCounter pt)
    (set_pt_time (it_time (nextEdge pt)) (set_nextEdge (it_next (nextEdge pt)) pt)).

Lemma quietStep_quiet pt c : quiet pt c -> quiet (quietStep pt) c.
Proof. by intros []. Qed.

(** The time the port waits for does not come at the next edge. *)
Definition notYet (pt : Port) : Prop :=
  timeRegValid pt = true -> it_type (nextEdge pt) = FALLING -> timeReg pt <> u16 (portCounter pt + 1).

Lemma modPort_id s p v f : portAt s p = Some v -> f v = v -> modPort p f s = Some (s, tt).
Proof. intros E Hf. by rewrite (modPort_get _ _ _ _ E), Hf, (setPort_same _ _ _ E). Qed.

Section quiet.
Context `{PortEnv} (outv : EventableRef -> Signal -> Z -> M (Sys Ports) unit).
Context (p : EventableRef) (width : Z) (c : ClockBlock).

Lemma quiet_modes pt : quiet pt c -> useReadyIn pt = false /\ useReadyOut pt = false.
Proof. intros [_ _ Hm _ _ _ _ _ _]. unfold useReadyIn, useReadyOut. by rewrite Hm. Qed.

Lemma reload_quiet s pt x o : portAt s p = Some pt -> quiet pt c -> reload p x o s = Some (s, (x, o)).
Proof.
  intros Ep Hq. destruct Hq as [_ _ _ _ _ _ _ Ht [Hi Hs]]. unfold reload.
  rewrite (bind_run _ _ _ _ _ (port_get _ _ _ Ep)), Hs. erewrite bind_run; [| done].
  rewrite (bind_run _ _ _ _ _ (port_get _ _ _ Ep)), Ht, Hi. by rewrite !andb_false_r.
Qed.

Lemma fallingOutput_quiet s pt : portAt s p = Some pt -> attached s p pt width c -> quiet pt c ->
  timeRegValid pt && (timeReg pt =? portCounter pt) = false ->
  seeFallingEdgeOutputPort outv p s = Some (s, tt).
Proof.
  intros Ep Ha Hq Ht. unfold seeFallingEdgeOutputPort. rewrite (bind_run _ _ _ _ _ (port_get _ _ _ Ep)), Ht.
  erewrite bind_run; [| done]. cbv beta. rewrite (proj1 (quiet_modes pt Hq)). cbn [negb orb].
  assert (quiet pt c) as [_ Ho _ _ _ Hv _ _ _] by done.
  rewrite (bind_run _ _ s s (shiftReg pt, true)).
  2: { rewrite (bind_run _ _ s s tt) by (apply (modPort_id _ _ pt); [done | by rewrite Hv]).
       rewrite (bind_run _ _ _ _ _ (port_get _ _ _ Ep)), Hv. cbn [Z.eqb negb].
       by rewrite (reload_quiet s pt) by done; rewrite Ho. }
  rewrite (bind_run _ _ _ _ _ (port_get _ _ _ Ep)), (bind_run _ _ _ _ _ (portWidthMask_run _ _ _ _ _ Ha)).
  cbv zeta. rewrite Z.lxor_nilpotent, Z.land_0_l. cbn [Z.eqb negb].
  rewrite (bind_run _ _ s s tt); [done |]. apply (modPort_id _ _ pt); [done |]. rewrite <- Ho. by destruct pt.
Qed.

Lemma updateReadyOut_quiet s pt time : portAt s p = Some pt -> quiet pt c -> updateReadyOut outv p time s = Some (s, tt).
Proof.
  intros Ep Hq. unfold updateReadyOut. rewrite (bind_run _ _ _ _ _ (port_get _ _ _ Ep)).
  unfold computeReadyOut. rewrite (proj2 (quiet_modes pt Hq)). destruct Hq as [_ _ _ -> _ _ _ _ _]. done.
Qed.

(** One edge. *)
Lemma seeNextEdge_quiet s pt : portAt s p = Some pt -> attached s p pt width c -> quiet pt c ->
  pt_time pt <= it_time (nextEdge pt) -> notYet pt ->
  seeNextEdge outv p s = Some (setPort s p (quietStep pt), tt).
Proof.
  intros Ep Ha Hq Htime Hny. unfold seeNextEdge. rewrite (bind_run _ _ _ _ _ (port_get _ _ _ Ep)).
  rewrite (bind_run _ _ _ _ _ (modPort_get _ _ _ _ Ep)).
  set (pt1 := set_nextEdge (it_next (nextEdge pt)) pt). unfold seeEdge.
  rewrite (bind_run _ _ _ _ _ (port_get _ _ _ (setPort_at s p pt1))).
  replace (pt_time pt1 <=? it_time (nextEdge pt)) with true by (symmetry; by apply Z.leb_le).
  erewrite bind_run; [| done]. rewrite (bind_run _ _ _ _ _ (modPort_get _ _ _ _ (setPort_at s p pt1))), setPort_twice.
  set (pt2 := set_pt_time (it_time (nextEdge pt)) pt1).
  assert (quiet pt2 c) as Hq2 by (by destruct Hq).
  assert (portType pt1 = DATAPORT) as -> by apply Hq. rewrite bool_decide_true by done. cbn [negb].
  rewrite (bind_run _ _ (setPort s p pt2) (setPort s p (quietStep pt)) tt).
  2: { unfold quietStep. case_bool_decide as Hf; cbn [when]; [| by destruct pt].
    unfold seeFallingEdge. rewrite (bind_run _ _ _ _ _ (modPort_get _ _ _ _ (setPort_at s p pt2))), setPort_twice.
    set (pt3 := set_portCounter _ pt2). assert (quiet pt3 c) as Hq3 by (by destruct Hq).
    assert (attached (setPort s p pt3) p pt3 width c) as Ha3 by (by apply (attached_setPort s p pt)).
    rewrite (bind_run _ _ _ _ _ (port_get _ _ _ (setPort_at s p pt3))).
    replace (outputPort pt3) with true by (symmetry; apply Hq3).
    rewrite (bind_run _ _ _ (setPort s p pt3) tt).
    2: { apply (fallingOutput_quiet _ pt3); try done; [apply setPort_at |]. apply not_true_iff_false.
         rewrite andb_true_iff, Z.eqb_eq. intros [Hv Ht]. by apply Hny. }
    rewrite (bind_run _ _ _ _ _ (port_get _ _ _ (setPort_at s p pt3))).
    rewrite (updateReadyOut_quiet _ pt3) by (done || apply setPort_at). done. }
  set (pt4 := quietStep pt). assert (quiet pt4 c) as Hq4 by (by apply quietStep_quiet).
  assert (attached (setPort s p pt4) p pt4 width c) as Ha4 by (by apply (attached_setPort s p pt)).
  rewrite (bind_run _ _ _ _ _ (port_get _ _ _ (setPort_at s p pt4))).
  case_bool_decide; cbn [when]; [| done].
  rewrite (bind_run _ _ _ _ _ (portClock_run _ _ _ _ _ (setPort_at s p pt4) Ha4)).
  rewrite (bind_run _ _ _ (setPort s p pt4) tt).
  - unfold seeSamplingEdge. rewrite (bind_run _ _ _ _ _ (port_get _ _ _ (setPort_at s p pt4))).
    by replace (outputPort pt4) with true by (symmetry; apply Hq4).
  - apply (modPort_id _ _ pt4); [apply setPort_at |]. destruct Hq4 as [_ _ _ _ [Hh Hi] _ _ _ _].
    unfold Signal.getValue. rewrite Hh. cbn [Z.eqb]. rewrite <- Hi. by destruct pt4.
Qed.
End quiet.

(** ** Many edges *)

(** The reference: step over [n] edges one by one. *)
Fixpoint simulate (outv : EventableRef -> Signal -> Z -> M (Sys Ports) unit) (n : nat) (p : EventableRef) : M (Sys Ports) unit :=
  match n with O => mret tt | S n => _ ← seeNextEdge outv p; simulate outv n p end.

Fixpoint quietSteps (n : nat) (pt : Port) : Port := match n with O => pt | S n => quietSteps n (quietStep pt) end.

(** The falling edges among the next [n]. *)
Definition fallingEdges (pt : Port) (n : Z) : Z := (n + (if bool_decide (it_type (nextEdge pt) = FALLING) then 1 else 0)) / 2.

(** The time the port waits for does not come within [n] edges. *)
Definition waits (pt : Port) (n : Z) : Prop :=
  timeRegValid pt = true -> fallingEdges pt n < u16 (timeReg pt - (portCounter pt + 1)) + 1.

(** Time does not run out within [n] edges. *)
Definition timeLeft (pt : Port) (n : Z) : Prop :=
  0 <= pt_time pt <= it_time (nextEdge pt) /\ 0 <= iter_halfPeriod (nextEdge pt) /\
  it_time (nextEdge pt) + iter_halfPeriod (nextEdge pt) * n < 2 ^ 64.

Lemma flip_falling ty : bool_decide (flip ty = FALLING) = negb (bool_decide (ty = FALLING)).
Proof. by destruct ty. Qed.

Lemma fallingEdges_S pt n : fallingEdges pt (n + 1) =
  (if bool_decide (it_type (nextEdge pt) = FALLING) then 1 else 0) + fallingEdges (quietStep pt) n.
Proof.
  unfold fallingEdges, quietStep. cbn. unfold it_type, it_next in *. cbn. rewrite flip_falling.
  case_bool_decide; cbn [negb]; [| rewrite Z.add_0_r; lia]. replace (n + 1 + 1) with (n + 0 + 1 * 2) by lia. rewrite Z.div_add by lia. lia.
Qed.

Lemma waits_S pt n : 0 <= n -> waits pt (n + 1) -> notYet pt /\ waits (quietStep pt) n.
Proof.
  intros Hn Hw. assert (0 <= fallingEdges (quietStep pt) n) as Hf by (unfold fallingEdges; apply Z.div_pos; [case_bool_decide |]; lia).
  unfold waits, notYet in *. rewrite fallingEdges_S in Hw. set (f := fallingEdges (quietStep pt) n) in *.
  unfold quietStep. cbn [timeRegValid timeReg portCounter set_portCounter set_pt_time set_nextEdge]. unfold wrap in *. split.
  - intros Hv Hft Ht. specialize (Hw Hv). rewrite bool_decide_true in Hw by done. rewrite Ht in Hw.
    rewrite Zminus_mod_idemp_l, Z.sub_diag, Z.mod_0_l in Hw by lia. lia.
  - intros Hv. specialize (Hw Hv). case_bool_decide; [| lia].
    set (x := timeReg pt - (portCounter pt + 1)) in *.
    replace ((timeReg pt - ((portCounter pt + 1) mod 2 ^ 16 + 1)) mod 2 ^ 16) with ((x - 1) mod 2 ^ 16).
    2: { replace (timeReg pt - ((portCounter pt + 1) mod 2 ^ 16 + 1)) with (timeReg pt - 1 - (portCounter pt + 1) mod 2 ^ 16) by lia.
         rewrite Zminus_mod_idemp_r. f_equal. unfold x. lia. }
    pose proof (Z.mod_pos_bound x (2 ^ 16)). replace ((x - 1) mod 2 ^ 16) with (x mod 2 ^ 16 - 1); [lia |].
    apply Z.mod_unique with (x / 2 ^ 16); [lia |]. pose proof (Z.div_mod x (2 ^ 16)). lia.
Qed.

Lemma timeLeft_S pt n : 0 <= n -> timeLeft pt (n + 1) -> timeLeft (quietStep pt) n.
Proof.
  intros Hn (Ht & Hh & Hlt). unfold timeLeft, quietStep. cbn -[Z.pow wrap]. unfold it_time, it_next in *. cbn -[Z.pow wrap].
  assert (0 <= iter_halfPeriod (nextEdge pt) * n) by nia. rewrite Z.mul_add_distr_l in Hlt.
  unfold wrap. rewrite Z.mod_small by lia. lia.
Qed.

(** Where [n] quiet edges lead. *)
Lemma quietSteps_closed n : forall pt, timeLeft pt (Z.of_nat n) -> is_u16 (portCounter pt) ->
  quietSteps n pt = set_portCounter (u16 (portCounter pt + fallingEdges pt (Z.of_nat n)))
    (set_pt_time (match n with O => pt_time pt | S m => it_time (it_add (nextEdge pt) (Z.of_nat m)) end)
      (set_nextEdge (it_add (nextEdge pt) (Z.of_nat n)) pt)).
Proof.
  induction n as [|n IH]; intros pt Htl Hu.
  - cbn [quietSteps]. assert (fallingEdges pt 0 = 0) as E by (unfold fallingEdges; by case_bool_decide). change (Z.of_nat 0) with 0. rewrite E, Z.add_0_r.
    assert (it_add (nextEdge pt) 0 = nextEdge pt) as ->.
    { rewrite <- (it_iterate_add 0); [done |]. destruct Htl as (? & ? & ?). unfold fits. lia. }
    unfold wrap. rewrite Z.mod_small by done. by destruct pt.
  - replace (Z.of_nat (S n)) with (Z.of_nat n + 1) in * by lia. cbn [quietSteps].
    assert (is_u64 (it_time (nextEdge pt))) as Hi by (destruct Htl as (? & ? & ?); unfold fits; nia).
    rewrite IH; [| by apply timeLeft_S; [lia |] | unfold quietStep; cbn; case_bool_decide; [apply Z.mod_pos_bound; lia | done]].
    rewrite fallingEdges_S. set (f := fallingEdges (quietStep pt) (Z.of_nat n)).
    assert (forall k, it_add (it_next (nextEdge pt)) (Z.of_nat k) = it_add (nextEdge pt) (Z.of_nat (S k))) as Hk.
    { intros k. rewrite <- !it_iterate_add; try done. unfold it_next, it_time. cbn. apply Z.mod_pos_bound. lia. }
    assert (it_add (nextEdge (quietStep pt)) (Z.of_nat n) = it_add (nextEdge pt) (Z.of_nat n + 1)) as ->.
    { unfold quietStep. cbn [nextEdge set_portCounter set_pt_time set_nextEdge]. rewrite Hk. f_equal. lia. }
    assert (match n with O => pt_time (quietStep pt) | S m => it_time (it_add (nextEdge (quietStep pt)) (Z.of_nat m)) end =
      it_time (it_add (nextEdge pt) (Z.of_nat n))) as ->.
    { destruct n as [|m]; unfold quietStep; cbn [nextEdge pt_time set_portCounter set_pt_time set_nextEdge]; [| by rewrite Hk].
      by rewrite <- (it_iterate_add 0). }
    assert (u16 (portCounter (quietStep pt) + f) = u16 (portCounter pt + ((if bool_decide (it_type (nextEdge pt) = FALLING) then 1 else 0) + f))) as ->.
    { unfold quietStep. cbn [portCounter set_portCounter]. case_bool_decide; [| done]. unfold wrap. rewrite Zplus_mod_idemp_l. f_equal. lia. }
    done.
Qed.

Section lazy.
Context `{PortEnv} (outv : EventableRef -> Signal -> Z -> M (Sys Ports) unit).
Context (p : EventableRef) (width : Z) (c : ClockBlock).

Lemma simulate_quiet n : forall s pt, portAt s p = Some pt -> attached s p pt width c -> quiet pt c ->
  timeLeft pt (Z.of_nat n) -> waits pt (Z.of_nat n) ->
  simulate outv n p s = Some (setPort s p (quietSteps n pt), tt).
Proof.
  induction n as [|n IH]; intros s pt Ep Ha Hq Ht Hw.
  - cbn. by rewrite setPort_same.
  - replace (Z.of_nat (S n)) with (Z.of_nat n + 1) in * by lia. cbn [simulate quietSteps].
    apply waits_S in Hw as [Hny Hw]; [| lia].
    rewrite (bind_run _ _ _ _ _ (seeNextEdge_quiet outv p width c s pt Ep Ha Hq (proj2 (proj1 Ht)) Hny)).
    rewrite IH with (pt := quietStep pt); [by rewrite setPort_twice | apply setPort_at | | by apply quietStep_quiet | by apply timeLeft_S; [lia |] | done].
    by apply (attached_setPort s p pt).
Qed.

(** A loop that has nothing to wait for. *)
Lemma edgesWhile_none s cond n k : cond s = Some (s, false) -> edgesWhile_ outv p cond n k s = k n s.
Proof.
  intros Hc. unfold edgesWhile_. rewrite (bind_run _ _ s s (Some n)); [done |]. cbn [edgesWhile]. by rewrite (bind_run _ _ _ _ _ Hc).
Qed.
Lemma onPort_run s pt f : portAt s p = Some pt -> Port.onPort p f s = Some (s, f pt).
Proof. intros E. unfold Port.onPort. by rewrite (bind_run _ _ _ _ _ (port_get _ _ _ E)). Qed.

(** Skipping all edges at once. *)
Lemma skip_quiet loopFuel s pt n : portAt s p = Some pt -> quiet pt c -> is_u16 (portCounter pt) ->
  (0 < n)%nat -> Z.of_nat n < 2 ^ 31 -> timeLeft pt (Z.of_nat n) -> waits pt (Z.of_nat n) ->
  updateNoExternalChange outv loopFuel p (Z.of_nat n) s = Some (setPort s p (quietSteps n pt), tt).
Proof.
  intros Ep Hq Hu Hn0 Hn Ht Hw. unfold updateNoExternalChange. rewrite (proj2 (Z.eqb_neq _ 0)) by lia.
  rewrite (bind_run _ _ _ _ _ (port_get _ _ _ Ep)). cbv zeta. rewrite (proj1 (quiet_modes c pt Hq)).
  rewrite (bind_run _ _ _ _ _ (port_get _ _ _ Ep)). replace (outputPort pt) with true by (symmetry; apply Hq).
  assert (u32 (Z.of_nat n - 1) = Z.of_nat (n - 1)) as -> by (unfold wrap; rewrite Z.mod_small; lia).
  unfold updateNoExternalChangeOutput. rewrite edgesWhile_none.
  2: { rewrite (onPort_run _ pt) by done. unfold outputIdle. destruct Hq as [_ _ _ _ _ -> -> _ _]. by rewrite !Z.eqb_refl. }
  rewrite (bind_run _ _ _ _ _ (port_get _ _ _ Ep)).
  assert (numFalling pt (Z.of_nat n) = fallingEdges pt (Z.of_nat n)) as Hnf.
  { unfold numFalling, fallingEdges, wrap. case_bool_decide; rewrite Z.mod_small; lia. }
  assert (quietSteps n pt = skipEdges (Z.of_nat n) (it_time (it_add (nextEdge pt) (Z.of_nat (n - 1))))
    (set_portCounter (u16 (portCounter pt + fallingEdges pt (Z.of_nat n))) pt)) as ->.
  { rewrite quietSteps_closed by done. destruct n as [|m]; [lia |]. replace (S m - 1)%nat with m by lia. done. }
  destruct (timeRegValid pt) eqn:Hv; cbn [negb].
  - specialize (Hw Hv). unfold fallingEdgesUntilTimeMet. rewrite Hv. erewrite bind_run; [| done]. cbv beta.
    rewrite Hnf, (proj2 (Z.ltb_lt _ _) Hw), (modPort_get _ _ _ _ Ep), Hnf. done.
  - unfold skip. rewrite (modPort_get _ _ _ _ Ep). unfold updatePortCounter. fold (numFalling pt (Z.of_nat n)). by rewrite Hnf.
Qed.

(** The edges up to [newTime], one by one. *)
Lemma slow_quiet newTime n : forall fuel s pt, (n < fuel)%nat ->
  portAt s p = Some pt -> attached s p pt width c -> quiet pt c -> timeLeft pt (Z.of_nat n) -> waits pt (Z.of_nat n) ->
  (forall i, (i < n)%nat -> it_time (it_iterate i (nextEdge pt)) <= newTime) -> newTime < it_time (it_iterate n (nextEdge pt)) ->
  updateSlow_loop outv fuel p newTime s = Some (setPort s p (quietSteps n pt), tt).
Proof.
  induction n as [|n IH]; intros fuel s pt Hfuel Ep Ha Hq Ht Hw Hle Hgt; (destruct fuel as [|fuel]; [lia |]); cbn [updateSlow_loop].
  - rewrite (bind_run _ _ _ _ _ (port_get _ _ _ Ep)). cbn in Hgt. rewrite (proj2 (Z.leb_gt _ _) Hgt). cbn. by rewrite setPort_same.
  - rewrite (bind_run _ _ _ _ _ (port_get _ _ _ Ep)). pose proof (Hle 0%nat ltac:(lia)) as H0. cbn in H0.
    rewrite (proj2 (Z.leb_le _ _) H0). replace (Z.of_nat (S n)) with (Z.of_nat n + 1) in * by lia.
    apply waits_S in Hw as [Hny Hw]; [| lia].
    rewrite (bind_run _ _ _ _ _ (seeNextEdge_quiet outv p width c s pt Ep Ha Hq (proj2 (proj1 Ht)) Hny)).
    rewrite (IH fuel _ (quietStep pt)).
    + by rewrite setPort_twice.
    + lia.
    + apply setPort_at.
    + by apply (attached_setPort s p pt).
    + by apply quietStep_quiet.
    + by apply timeLeft_S; [lia |].
    + done.
    + intros i Hi. apply (Hle (S i)). lia.
    + done.
Qed.

Lemma quietSteps_snoc n : forall pt, quietSteps (S n) pt = quietStep (quietSteps n pt).
Proof. induction n as [|n IH]; intros pt; [done |]. apply IH. Qed.
Lemma quietSteps_quiet n : forall pt, quiet pt c -> quiet (quietSteps n pt) c.
Proof. induction n as [|n IH]; intros pt Hq; [done |]. by apply IH, quietStep_quiet. Qed.
Lemma quietSteps_clock n : forall pt, clock (quietSteps n pt) = clock pt.
Proof. induction n as [|n IH]; intros pt; [done |]. cbn. by rewrite IH. Qed.
Lemma quietSteps_next n : forall pt, nextEdge (quietSteps n pt) = it_iterate n (nextEdge pt).
Proof. induction n as [|n IH]; intros pt; [done |]. cbn. by rewrite IH. Qed.
Lemma quietSteps_waits m n : forall pt, timeLeft pt (Z.of_nat (n + m)) -> waits pt (Z.of_nat (n + m)) ->
  timeLeft (quietSteps n pt) (Z.of_nat m) /\ waits (quietSteps n pt) (Z.of_nat m).
Proof.
  induction n as [|n IH]; intros pt Ht Hw; [done |]. replace (Z.of_nat (S n + m)) with (Z.of_nat (n + m) + 1) in * by lia.
  apply waits_S in Hw as [_ Hw]; [| lia]. apply IH; [by apply timeLeft_S; [lia |] | done].
Qed.

(** All but the last edge at once, and the last one. *)
Lemma fast_quiet loopFuel s pt n : portAt s p = Some pt -> attached s p pt width c -> quiet pt c -> is_u16 (portCounter pt) ->
  Z.of_nat (S n) < 2 ^ 31 -> timeLeft pt (Z.of_nat (S n)) -> waits pt (Z.of_nat (S n)) ->
  (_ ← updateNoExternalChange outv loopFuel p (Z.of_nat n); seeNextEdge outv p) s = Some (setPort s p (quietSteps (S n) pt), tt).
Proof.
  intros Ep Ha Hq Hu Hn Ht Hw. pose proof (quietSteps_waits 1 n pt) as Hlast. rewrite Nat.add_1_r in Hlast.
  destruct (Hlast Ht Hw) as [Ht1 Hw1]. clear Hlast.
  assert (timeLeft pt (Z.of_nat n) /\ waits pt (Z.of_nat n)) as [Htn Hwn].
  { destruct Ht as (? & ? & ?). split; [repeat split; lia || nia |]. intros Hv. specialize (Hw Hv).
    assert (fallingEdges pt (Z.of_nat n) <= fallingEdges pt (Z.of_nat (S n))); [| lia].
    unfold fallingEdges. apply Z.div_le_mono; lia. }
  rewrite (bind_run _ _ s (setPort s p (quietSteps n pt)) tt).
  - change (Z.of_nat 1) with (0 + 1) in Hw1. apply waits_S in Hw1 as [Hny _]; [| lia].
    rewrite (seeNextEdge_quiet outv p width c _ (quietSteps n pt)); [by rewrite setPort_twice, quietSteps_snoc | apply setPort_at | | | by destruct Ht1 as [[] _] | done].
    + apply (attached_setPort s p pt); [done | apply quietSteps_clock].
    + by apply quietSteps_quiet.
  - destruct n as [|n]; [cbn; by rewrite setPort_same |]. apply skip_quiet; try done; lia.
Qed.
End lazy.

(** The edges of a clock, by number. *)
Definition edgeNo (x : Signal) (j : Z) : EdgeIterator :=
  mkIter (mkEdge (value x + j * halfPeriod x) (if j mod 2 =? 1 then RISING else FALLING)) (halfPeriod x).

Lemma getEdgeIterator_no x time : clock_ok x time -> getEdgeIterator x time = Some (edgeNo x (phase x time + 1)).
Proof. intros Hok. unfold getEdgeIterator. by rewrite (getNextEdge_phase x time Hok). Qed.
Lemma edgeNo_next x j : 0 <= value x + (j + 1) * halfPeriod x < 2 ^ 64 -> it_next (edgeNo x j) = edgeNo x (j + 1).
Proof.
  intros Hr. unfold it_next, edgeNo, it_time, it_type. cbn. unfold wrap. rewrite Z.mod_small by lia. do 2 f_equal; [lia |].
  pose proof (Z.mod_pos_bound j 2). rewrite Zplus_mod. destruct (decide (j mod 2 = 0)) as [E|E]; [by rewrite E |].
  replace (j mod 2) with 1 by lia. done.
Qed.
Lemma edgeNo_iterate x n : forall j, 0 <= value x -> 0 <= halfPeriod x -> 0 <= j -> value x + (j + Z.of_nat n) * halfPeriod x < 2 ^ 64 ->
  it_iterate n (edgeNo x j) = edgeNo x (j + Z.of_nat n).
Proof.
  induction n as [|n IH]; intros j Hv Hh Hj Hlt; cbn [it_iterate]; [by rewrite Z.add_0_r |].
  rewrite edgeNo_next by nia. rewrite IH by (done || lia || nia). f_equal. lia.
Qed.

(** The number of edges after [time] and up to [newTime]. *)
Definition edgesBetween (x : Signal) (time newTime : Z) : Z := phase x newTime - phase x time.

Lemma bind_assoc {A B C} (m : M (Sys Ports) A) (k : A -> M (Sys Ports) B) (l : B -> M (Sys Ports) C) s :
  (m ≫= fun a => k a ≫= l) s = ((m ≫= k) ≫= l) s.
Proof. unfold mbind, M_bind. by destruct (m s) as [[]|]. Qed.

(** [update] on a port in use with a running clock of fixed frequency. *)
Lemma update_start `{PortEnv} outv loopFuel (s : Sys Ports) p pt width c newTime :
  portAt s p = Some pt -> attached s p pt width c -> portType pt = DATAPORT -> running c = true -> isClock (cb_value c) = true ->
  pt_time pt <= newTime -> getEdgeIterator (cb_value c) (pt_time pt) = Some (nextEdge pt) ->
  update outv loopFuel p newTime s =
  (if newTime <? it_time (it_add (nextEdge pt) 2) then updateSlow outv loopFuel p newTime s
   else (there ← lift (getEdgeIterator (cb_value c) newTime);
         d ← lift (it_distance there (nextEdge pt));
         let numEdges := u32 d in
         _ ← updateNoExternalChange outv loopFuel p (u32 (numEdges - 1));
         _ ← seeNextEdge outv p;
         modPort p (set_pt_time newTime)) s).
Proof.
  intros Ep Ha Hty Hrun Hck Ht Hit. unfold update. rewrite (bind_run _ _ _ _ _ (port_get _ _ _ Ep)).
  rewrite (proj2 (Z.leb_le _ _) Ht). erewrite bind_run; [| done]. cbv beta.
  rewrite (bind_run _ _ _ _ _ (portClock_run _ _ _ _ _ Ep Ha)), (bind_run _ _ _ _ _ (isInUse_run _ _ _ _ _ Ha)).
  unfold isFixedFrequency, clk_getValue. rewrite Hrun, Hck, Hty, bool_decide_true by done. cbn [andb negb orb].
  rewrite Hit. erewrite bind_run; [| done]. cbv beta. unfold it_eqb. rewrite Z.eqb_refl. erewrite bind_run; [| done]. cbv beta.
  by destruct (newTime <? it_time (it_add (nextEdge pt) 2)).
Qed.

Section lazy_update.
Context (pt : Port) (c : ClockBlock) (newTime : Z).
Abbreviation x := (cb_value c).
Abbreviation hp := (halfPeriod (cb_value c)).
Abbreviation k := (phase (cb_value c) (pt_time pt)).
Abbreviation n := (edgesBetween (cb_value c) (pt_time pt) newTime).
Context (Hok : clock_ok x (pt_time pt)) (Htime : pt_time pt <= newTime < 2 ^ 62).

Lemma lazy_bounds : clock_ok x newTime /\ 0 < hp < 2 ^ 31 /\ 0 <= value x /\ 0 <= k /\ 0 <= n /\ phase x newTime = k + n /\
  value x + k * hp <= pt_time pt < value x + (k + 1) * hp /\ value x + (k + n) * hp <= newTime < value x + (k + n + 1) * hp.
Proof.
  assert (clock_ok x newTime) as Hok' by (destruct Hok; split; lia).
  pose proof (phase_bounds x _ Hok) as [P0 P1]. pose proof (phase_bounds x _ Hok') as [P0' P1'].
  assert (phase x newTime = k + n) as Hk by (unfold edgesBetween; lia). rewrite Hk in P1', P0'.
  destruct Hok as [Hh Hv _]. assert (0 <= n) by nia. repeat split; done || lia.
Qed.

Abbreviation m := (Z.to_nat n).

Context (Hit : getEdgeIterator x (pt_time pt) = Some (nextEdge pt)).
Lemma lazy_edges i : (i <= S m)%nat -> it_iterate i (nextEdge pt) = edgeNo x (k + 1 + Z.of_nat i).
Proof.
  destruct lazy_bounds as (_ & Hh & Hv & Hk & Hn0 & _ & _ & Hb). intros Hi. pose proof Hit as Hit'.
  rewrite (getEdgeIterator_no x _ Hok) in Hit'. injection Hit' as <-. apply edgeNo_iterate; try lia. nia.
Qed.
Lemma lazy_edge_time i : (i <= S m)%nat -> it_time (it_iterate i (nextEdge pt)) = value x + (k + 1 + Z.of_nat i) * hp.
Proof. intros Hi. by rewrite lazy_edges. Qed.

Lemma lazy_timeLeft : timeLeft pt (Z.of_nat m).
Proof.
  destruct lazy_bounds as (_ & Hh & Hv & Hk & Hn0 & _ & Hb0 & Hb). pose proof (lazy_edge_time 0 ltac:(lia)) as E. cbn in E.
  pose proof (lazy_edges 0 ltac:(lia)) as E'. cbn [it_iterate] in E'.
  assert (iter_halfPeriod (nextEdge pt) = hp) as Hnh by (by rewrite E'). destruct Hok as [_ ? _].
  unfold timeLeft. rewrite E, Hnh. repeat split; lia || nia.
Qed.
Context `{PortEnv} (outv : EventableRef -> Signal -> Z -> M (Sys Ports) unit) (loopFuel : nat).
Context (s : Sys Ports) (p : EventableRef) (width : Z).
Context (Ep : portAt s p = Some pt) (Ha : attached s p pt width c) (Hq : quiet pt c) (Hu : is_u16 (portCounter pt)).
Context (Hrun : running c = true) (Hw : waits pt n) (Hn : n < 2 ^ 31) (Hfuel : n < Z.of_nat loopFuel).
Lemma lazy_waits : waits pt (Z.of_nat m).
Proof. destruct lazy_bounds as (_ & _ & _ & _ & Hn0 & _). by replace (Z.of_nat m) with n by lia. Qed.

Lemma lazy_slow : updateSlow outv loopFuel p newTime s = Some (setPort s p (set_pt_time newTime (quietSteps m pt)), tt).
Proof.
  destruct lazy_bounds as (_ & Hh & Hv & Hk & Hn0 & _ & _ & Hb).
  unfold updateSlow. rewrite (bind_run _ _ s (setPort s p (quietSteps m pt)) tt).
  - rewrite (modPort_get _ _ _ _ (setPort_at s p _)). by rewrite setPort_twice.
  - apply (slow_quiet outv p width c); try done; [lia | apply lazy_timeLeft | apply lazy_waits | |].
    + intros i Hi. rewrite lazy_edge_time by lia. nia.
    + rewrite lazy_edge_time by lia. nia.
Qed.

(** More than two edges: the distance of the iterators is their number. *)
Lemma lazy_distance : it_time (it_add (nextEdge pt) 2) <= newTime -> (2 <= m)%nat /\
  exists there, getEdgeIterator x newTime = Some there /\ it_distance there (nextEdge pt) = Some n.
Proof.
  destruct lazy_bounds as (Hok' & Hh & Hv & Hk & Hn0 & Hph & _ & Hb). intros Hge.
  pose proof (lazy_edges 0 ltac:(lia)) as E. cbn [it_iterate] in E. rewrite Z.add_0_r in E. split.
  - destruct (decide (2 <= m)%nat); [done |]. exfalso. change 2 with (Z.of_nat 2) in Hge.
    rewrite <- it_iterate_add in Hge by (rewrite E; unfold edgeNo, it_time, fits; cbn; nia).
    rewrite E, edgeNo_iterate in Hge by (lia || nia). unfold edgeNo, it_time in Hge. cbn in Hge. nia.
  - exists (edgeNo x (k + n + 1)). split; [by rewrite (getEdgeIterator_no x _ Hok'), Hph |].
    unfold it_distance. rewrite E. cbn. rewrite (proj2 (Z.eqb_neq hp 0)) by lia. f_equal.
    unfold edgeNo, it_time. cbn. unfold wrap. replace (value x + (k + n + 1) * hp - (value x + (k + 1) * hp)) with (n * hp) by lia.
    rewrite Z.mod_small by nia. apply Z.div_mul. lia.
Qed.

Lemma lazy_fast : update outv loopFuel p newTime s = Some (setPort s p (set_pt_time newTime (quietSteps m pt)), tt).
Proof.
  destruct lazy_bounds as (_ & Hh & Hv & Hk & Hn0 & _ & _ & Hb).
  assert (isClock x = true) as Hck by (unfold isClock; rewrite (proj2 (Z.eqb_neq hp 0)) by lia; done).
  rewrite (update_start outv loopFuel s p pt width c newTime Ep Ha (q_type _ _ Hq) Hrun Hck (proj1 Htime) Hit).
  destruct (Z.ltb_spec newTime (it_time (it_add (nextEdge pt) 2))) as [_|Hge]; [apply lazy_slow |].
  destruct (lazy_distance Hge) as (Hm & there & Hth & Hd).
  rewrite Hth. erewrite bind_run; [| done]. rewrite Hd. erewrite bind_run; [| done]. cbv beta zeta.
  assert (u32 (u32 n - 1) = Z.of_nat (m - 1)) as -> by (unfold wrap; rewrite (Z.mod_small n), Z.mod_small; lia).
  assert (S (m - 1) = m)%nat as Em by lia.
  rewrite bind_assoc, (bind_run _ _ s (setPort s p (quietSteps m pt)) tt).
  - rewrite (modPort_get _ _ _ _ (setPort_at s p _)). by rewrite setPort_twice.
  - rewrite <- Em at 2. apply (fast_quiet outv p width c); try done; rewrite Em; [lia | apply lazy_timeLeft | apply lazy_waits].
Qed.
End lazy_update.

(** C20: Bringing an output port up to date in one step is the same as stepping over every edge of its
    clock since it was last looked at, for a data port without a ready mode (neither strobed nor
    handshaken), its ready output low and the level of the ready input of its clock block constant and already seen, on a running clock, for times
    below 2^62 and fewer than 2^31 edges, and whenever nothing happens at these edges that others could see
    (nothing to send, nobody waiting, the time it waits for, if any, not reached): both succeed, leave
    the rest of the system alone, and leave the port with its counter advanced by the number of
    falling edges and its iterator at the next edge after the new time.  For a strobed slave whose ready
    input is low the two differ ([strobed_update_differs]). *)
Theorem port_lazy_update `{PortEnv} outv loopFuel (s : Sys Ports) p pt width c newTime :
  let x := cb_value c in
  let n := edgesBetween x (pt_time pt) newTime in
  portAt s p = Some pt -> attached s p pt width c -> quiet pt c -> is_u16 (portCounter pt) ->
  running c = true -> clock_ok x (pt_time pt) -> pt_time pt <= newTime < 2 ^ 62 -> n < 2 ^ 31 ->
  getEdgeIterator x (pt_time pt) = Some (nextEdge pt) -> waits pt n -> n < Z.of_nat loopFuel ->
  update outv loopFuel p newTime s = updateSlow outv loopFuel p newTime s /\
  exists pt', update outv loopFuel p newTime s = Some (setPort s p pt', tt) /\
    pt_time pt' = newTime /\ getEdgeIterator x newTime = Some (nextEdge pt') /\
    portCounter pt' = u16 (portCounter pt + fallingEdges pt n) /\
    (shiftReg pt', transferRegValid pt', validShiftRegEntries pt', outputPort pt', timestampReg pt') =
    (shiftReg pt, transferRegValid pt, validShiftRegEntries pt, outputPort pt, timestampReg pt).
Proof.
  cbv zeta. intros Ep Ha Hq Hu Hrun Hok Htime Hn Hit Hw Hfuel.
  destruct (lazy_bounds pt c newTime Hok Htime) as (Hok' & _ & _ & _ & Hn0 & Hph & _ & _).
  pose proof (lazy_timeLeft pt c newTime Hok Htime Hit) as Htl.
  rewrite (lazy_fast pt c newTime Hok Htime Hit outv loopFuel s p width) by done.
  split; [by rewrite (lazy_slow pt c newTime Hok Htime Hit outv loopFuel s p width) |].
  eexists. split; [done |]. split; [done |]. cbn [nextEdge portCounter set_pt_time]. split; [| split].
  - rewrite (getEdgeIterator_no _ _ Hok'), Hph, quietSteps_next, (lazy_edges pt c newTime) by done || lia. do 2 f_equal. lia.
  - rewrite quietSteps_closed by done. by rewrite Z2Nat.id by lia.
  - cbn. by rewrite quietSteps_closed by done.
Qed.

(** ** An example: a 1-bit port clocked by a 25 MHz clock block *)

#[local] Instance noDevices : PortEnv := {| portAddr _ := 0; clkAddr _ := 0; dev_seePinsChange _ _ _ := mret tt |}.

Definition thePort : EventableRef := EvPortRef (0, 0)%nat 1 0.
Definition theClock : ClockBlock := mkClockBlock (mkResource true 0) None None 1 [thePort] (mkSignal 2 0) true (constant 1).
Definition clockedSystem (c : ClockBlock) (pt : Port) : Sys Ports :=
  mkSys [] ∅ (mkState [] [] [] None 0 0 false) {[((0, 0), 0)%nat := exampleThread 0 0 0]}
   {[thePort := mkEventable (mkResource true (65536 + RES_TYPE_PORT)) 0 0 false false (Some ((0, 0), 0)%nat)]} ∅ ∅ ∅ ∅ ∅ ∅
   (idleQueue [RThread ((0, 0), 0)%nat; REventable thePort]) None None (mkPorts {[thePort := pt]} {[((0, 0), 0)%nat := c]}).
Definition portSystem : Port -> Sys Ports := clockedSystem theClock.
Definition inputPort : Port :=
  set_shiftRegEntries 1 (set_portShiftCount 1 (set_transferWidth 1 (set_clock (Some ((0, 0), 0)%nat)
    (set_pinsInputValue (constant 1) (newPort (mkIter (mkEdge 2 RISING) 2)))))).
Definition idleOutputPort : Port := set_readyIn true (set_outputPort true inputPort).

Lemma portSystem_attached pt : clock pt = Some ((0, 0), 0)%nat -> attached (portSystem pt) thePort pt 1 theClock.
Proof. intros E. split; [by eexists | exists ((0, 0), 0)%nat; by rewrite E]. Qed.
Lemma idleOutputPort_quiet : quiet idleOutputPort theClock.
Proof. by split. Qed.

Lemma port_lazy_update_witness :
  update (fun _ _ _ => mret tt) 100 thePort 101 (portSystem idleOutputPort) = updateSlow (fun _ _ _ => mret tt) 100 thePort 101 (portSystem idleOutputPort) /\
  edgesBetween (cb_value theClock) (pt_time idleOutputPort) 101 = 50 /\
  exists pt', update (fun _ _ _ => mret tt) 100 thePort 101 (portSystem idleOutputPort) = Some (setPort (portSystem idleOutputPort) thePort pt', tt) /\
    pt_time pt' = 101 /\ portCounter pt' = 25.
Proof.
  destruct (port_lazy_update (fun _ _ _ => mret tt) 100 (portSystem idleOutputPort) thePort idleOutputPort 1 theClock 101)
    as (Heq & pt' & Hup & Ht & _ & Hc & _).
  - reflexivity.
  - by apply portSystem_attached.
  - exact idleOutputPort_quiet.
  - unfold is_u16, fits; cbn; lia.
  - reflexivity.
  - split; cbn; lia.
  - cbn; lia.
  - reflexivity.
  - reflexivity.
  - intros Hv. discriminate Hv.
  - reflexivity.
  - split; [exact Heq |]. split; [reflexivity |]. exists pt'. split; [exact Hup |]. split; [exact Ht |]. rewrite Hc. reflexivity.
Defined.

(** The port after an operation. *)
Definition portAfter (r : option (Sys Ports * unit)) : option Port := '(s, _) ← r; portAt s thePort.

(** The time stamp of an input port depends on how often the port is looked at.  A free-running
    1-bit input port samples its pins at times 2, 6, ..., 42; brought up to date at time 43 and again
    at time 45, or edge by edge, its time stamp is 10, the counter at the last sample, but brought up to
    date at time 45 in one go it still has the time stamp of the first sample, with
    everything else the same. *)
Theorem input_timestamp_stale (outv : EventableRef -> Signal -> Z -> M (Sys Ports) unit) :
  let s := portSystem inputPort in
  exists fresh, portAfter ((update outv 100 thePort 43;; update outv 100 thePort 45) s) = Some fresh /\
    portAfter (updateSlow outv 100 thePort 45 s) = Some fresh /\ timestampReg fresh = 10 /\
    portAfter (update outv 100 thePort 45 s) = Some (set_timestampReg 0 fresh).
Proof.
  exists (default inputPort (portAfter (updateSlow outv 100 thePort 45 (portSystem inputPort)))).
  split; [vm_compute; reflexivity |]. split; [vm_compute; reflexivity |]. split; vm_compute; reflexivity.
Qed.

(** ** A strobed port whose ready input is low *)

(** A slave that waits for the counter 30, at counter 0, its ready input low. *)
Definition strobedPort : Port :=
  set_readyMode STROBED (set_masterSlave SLAVE (set_timeReg 30 (set_timeRegValid true (set_readyIn false idleOutputPort)))).
Definition notReadyClock : ClockBlock := set_readyInValue (constant 0) theClock.
Definition timeRegOf (s : Sys Ports) : option (bool * Z) := (fun pt => (timeRegValid pt, portCounter pt)) <$> portAt s thePort.

(** For a port that looks at its ready input the two ways differ: after the 50 edges, 25 of them falling, up to time 101 the
    counter is 25 and the time 30 is not reached, but [update] compares the number of all edges with the falling edges left
    and forgets the time. *)
Lemma strobed_update_differs :
  (x ← fst <$> updateSlow (fun _ _ _ => mret tt) 100 thePort 101 (clockedSystem notReadyClock strobedPort); timeRegOf x) = Some (true, 25) /\
  (x ← fst <$> update (fun _ _ _ => mret tt) 100 thePort 101 (clockedSystem notReadyClock strobedPort); timeRegOf x) = Some (false, 25).
Proof. split; vm_compute; reflexivity. Qed.
