(* ===== verification/PortSerial.v ===== *)
(** * Ports: serialising and deserialising

    A port narrower than its transfer width sends a word in several pieces, the low bits first, and
    puts the pieces it samples together again.  The pieces are numbers below [2 ^ width]; [pack] is the
    word they make up. *)

From Stdlib Require Import ZArith Lia.
From stdpp Require Import base list numbers option gmap.
From S2P Require Import Prelude BitManip Opcode InstrDecode Signal DecodeCache Core.
From S2P Require Import Refs Resource Node StateMonad Thread SysState Events SysFacts PortState Port ResourceOps PortUse DataFacts DataExec PortFacts.

#[local] Open Scope Z_scope.
#[local] Open Scope cbits_scope.

Fixpoint pack (w : Z) (vs : list Z) : Z := match vs with [] => 0 | v :: vs => v + 2 ^ w * pack w vs end.

(** What the pins of the output port show, edge by edge. *)
Fixpoint sent (p : Port) (w : Z) (n : nat) (reg : Z) : option (list Z) :=
  match n with
  | O => Some []
  | S n => next ← nextShiftRegOutputPort p w reg; vs ← sent p w n next; Some (reg .& makeMask w :: vs)
  end.
(** What an input port makes of it. *)
Fixpoint sampled (p : Port) (w : Z) (vs : list Z) (reg : Z) : option Z :=
  match vs with [] => Some reg | v :: vs => reg ← shiftIn p w v reg; sampled p w vs reg end.

(** ** Arithmetic of one shift *)

Section shift.
Context (w n : Z) (W : Z) (HW : W = w * n) (Hw : 0 < w < 32) (Hn : 0 < n) (HW32 : W <= 32).

Lemma width_le : w <= W.
Proof using HW Hw Hn HW32. nia. Qed.
Lemma pow_split : 2 ^ W = 2 ^ (W - w) * 2 ^ w.
Proof using HW Hw Hn HW32. rewrite <- Z.pow_add_r by (pose proof width_le; lia). f_equal. lia. Qed.
Lemma shl32_top v : 0 <= v < 2 ^ w -> shl32 v (u32 (W - w)) = Some (v * 2 ^ (W - w)).
Proof.
  intros Hv. pose proof width_le. unfold shl32, wrap. rewrite (Z.mod_small (W - w)) by lia.
  rewrite (proj2 (andb_true_iff _ _)) by (split; [apply Z.leb_le | apply Z.ltb_lt]; lia).
  rewrite Z.shiftl_mul_pow2 by lia. rewrite Z.mod_small; [done |].
  assert (2 ^ (W - w) * 2 ^ w <= 2 ^ 32) by (rewrite <- pow_split; apply Z.pow_le_mono_r; lia). nia.
Qed.
Lemma shr32_w x : shr32 x w = Some (x / 2 ^ w).
Proof.
  unfold shr32. rewrite (proj2 (andb_true_iff _ _)) by (split; [apply Z.leb_le | apply Z.ltb_lt]; lia).
  by rewrite Z.shiftr_div_pow2 by lia.
Qed.
Lemma div_w_bound x : 0 <= x < 2 ^ W -> 0 <= x / 2 ^ w < 2 ^ (W - w).
Proof. intros Hx. rewrite pow_split in Hx. split; [apply Z.div_pos; lia | apply Z.div_lt_upper_bound; lia]. Qed.

Lemma shiftIn_arith p v x : transferWidth p = W -> 0 <= v < 2 ^ w -> 0 <= x < 2 ^ W ->
  shiftIn p w v x = Some (x / 2 ^ w + v * 2 ^ (W - w)) /\ 0 <= x / 2 ^ w + v * 2 ^ (W - w) < 2 ^ W.
Proof.
  intros HT Hv Hx. pose proof (div_w_bound x Hx). unfold shiftIn. rewrite HT, shr32_w, shl32_top by done. cbn.
  rewrite lor_disjoint by (pose proof width_le; lia). split; [done |]. rewrite pow_split. nia.
Qed.
End shift.

(** ** Receiving *)

Lemma pack_bounds w vs : 0 <= w -> Forall (fun v => 0 <= v < 2 ^ w) vs -> 0 <= pack w vs < 2 ^ (w * Z.of_nat (length vs)).
Proof.
  intros Hw. induction 1 as [|v vs Hv _ IH]; cbn [pack length]; [rewrite Z.mul_0_r; cbn; lia |].
  replace (w * Z.of_nat (S (length vs))) with (w + w * Z.of_nat (length vs)) by lia. rewrite Z.pow_add_r by lia. nia.
Qed.

(** After [length vs] samples the register holds their word at the top and the rest of the old
    contents at the bottom. *)
Lemma sampled_arith p w n vs : forall x, transferWidth p = w * n -> 0 < w < 32 -> 0 < n -> w * n <= 32 ->
  Z.of_nat (length vs) <= n -> Forall (fun v => 0 <= v < 2 ^ w) vs -> 0 <= x < 2 ^ (w * n) ->
  sampled p w vs x = Some (x / 2 ^ (w * Z.of_nat (length vs)) + pack w vs * 2 ^ (w * (n - Z.of_nat (length vs)))).
Proof.
  induction vs as [|v vs IH]; intros x HT Hw Hn HW Hl Hvs Hx; cbn [sampled pack length].
  - rewrite Z.mul_0_r, Z.div_1_r. f_equal. lia.
  - cbn [length] in Hl. inversion_clear Hvs as [|? ? Hv Hvs'].
    destruct (shiftIn_arith w n (w * n) eq_refl Hw Hn HW p v x HT Hv Hx) as [E B].
    rewrite E. cbn [mbind option_bind]. rewrite (IH _ HT Hw Hn HW ltac:(lia) Hvs' B). f_equal.
    set (k := Z.of_nat (length vs)) in *. replace (Z.of_nat (S (length vs))) with (k + 1) by lia.
    assert (0 <= k) by lia. replace (w * n - w) with (w * (n - (k + 1)) + w * k) by lia.
    assert (0 <= w * (n - (k + 1))) by nia. rewrite Z.pow_add_r by nia.
    rewrite Z.mul_assoc, Z.div_add by (apply Z.pow_nonzero; nia). rewrite Z.div_div by (try apply Z.pow_nonzero; nia).
    rewrite <- Z.pow_add_r by nia. replace (w + w * k) with (w * (k + 1)) by lia.
    replace (w * (n - k)) with (w * (n - (k + 1)) + w) by lia. rewrite (Z.pow_add_r 2 _ w) by lia. lia.
Qed.
Lemma sampled_full p w vs x : transferWidth p = w * Z.of_nat (length vs) -> 0 < w < 32 -> w * Z.of_nat (length vs) <= 32 ->
  vs <> [] -> Forall (fun v => 0 <= v < 2 ^ w) vs -> 0 <= x < 2 ^ (w * Z.of_nat (length vs)) ->
  sampled p w vs x = Some (pack w vs).
Proof.
  intros HT Hw HW Hne Hvs Hx. assert (0 < Z.of_nat (length vs)) by (destruct vs; cbn; done || lia).
  rewrite (sampled_arith p w (Z.of_nat (length vs))) by (done || lia). rewrite Z.div_small by done.
  rewrite Z.sub_diag, Z.mul_0_r. f_equal. lia.
Qed.

(** ** Sending *)

Lemma next_arith w n p x : 0 < w < 32 -> 0 < n -> w * n <= 32 -> transferWidth p = w * n -> 0 <= x < 2 ^ (w * n) ->
  nextShiftRegOutputPort p w x = Some (x / 2 ^ w + x / 2 ^ (w * n - w) * 2 ^ (w * n - w)) /\
  0 <= x / 2 ^ w + x / 2 ^ (w * n - w) * 2 ^ (w * n - w) < 2 ^ (w * n).
Proof.
  intros Hw Hn HW HT Hx. assert (w <= w * n) by nia.
  pose proof (div_w_bound w n _ eq_refl Hw Hn HW x Hx) as Hd. pose proof (pow_split w n _ eq_refl Hw Hn HW) as Hs.
  assert (0 <= x / 2 ^ (w * n - w) < 2 ^ w) as Ht by (split; [apply Z.div_pos; lia | apply Z.div_lt_upper_bound; lia]).
  unfold nextShiftRegOutputPort. rewrite HT, shr32_w by done.
  assert (shr32 x (u32 (w * n - w)) = Some (x / 2 ^ (w * n - w))) as ->.
  { unfold wrap. rewrite (Z.mod_small (w * n - w)) by lia. unfold shr32.
    rewrite (proj2 (andb_true_iff _ _)) by (split; [apply Z.leb_le | apply Z.ltb_lt]; lia). by rewrite Z.shiftr_div_pow2 by lia. }
  cbn [mbind option_bind]. rewrite (shl32_top w n _ eq_refl Hw Hn HW) by done. cbn [mbind option_bind].
  rewrite lor_disjoint by lia. split; [done |]. rewrite Hs. nia.
Qed.

Lemma sent_arith p w n m : forall x, 0 < w < 32 -> 0 < n -> w * n <= 32 -> transferWidth p = w * n -> 0 <= x < 2 ^ (w * n) ->
  Z.of_nat m <= n -> exists vs, sent p w m x = Some vs /\ length vs = m /\ Forall (fun v => 0 <= v < 2 ^ w) vs /\
    pack w vs = x mod 2 ^ (w * Z.of_nat m).
Proof.
  induction m as [|m IH]; intros x Hw Hn HW HT Hx Hm; cbn [sent].
  - exists []. by rewrite Z.mul_0_r, Z.mod_1_r.
  - destruct (next_arith w n p x Hw Hn HW HT Hx) as [E B]. rewrite E. cbn [mbind option_bind].
    destruct (IH _ Hw Hn HW HT B ltac:(lia)) as (vs & -> & Hl & Hvs & Hp). cbn. eexists. split; [done |].
    rewrite makeMask_ones, Z.min_l, Z.land_ones by lia. split; [cbn; lia |].
    split; [constructor; [apply Z.mod_pos_bound; lia | done] |]. cbn. rewrite Hp.
    replace (w * Z.of_nat (S m)) with (w + w * Z.of_nat m) by lia.
    rewrite Z.pow_add_r, Z.rem_mul_r by (try apply Z.pow_nonzero; lia). do 2 f_equal.
    replace (w * n - w) with (w * Z.of_nat m + (w * n - w - w * Z.of_nat m)) at 2 by lia.
    rewrite Z.pow_add_r by nia. rewrite (Z.mul_comm (2 ^ (w * Z.of_nat m))), Z.mul_assoc.
    by rewrite Z.mod_add by (apply Z.pow_nonzero; lia).
Qed.

(** C21: What one port sends another receives: the low [w] bits of the transfer register, then those of
    each successive contents of the shift register, make up the word again when they are shifted, in
    this order, into the register of an input port with the same widths, whatever it held before. *)
Theorem serial_roundtrip pout pin w (n : nat) word old : 0 < w < 32 -> (0 < n)%nat -> w * Z.of_nat n <= 32 ->
  transferWidth pout = w * Z.of_nat n -> transferWidth pin = w * Z.of_nat n ->
  0 <= word < 2 ^ (w * Z.of_nat n) -> 0 <= old < 2 ^ (w * Z.of_nat n) ->
  exists vs, sent pout w n word = Some vs /\ length vs = n /\ Forall (fun v => 0 <= v < 2 ^ w) vs /\ sampled pin w vs old = Some word.
Proof.
  intros Hw Hn HW Ho Hi Hword Hold.
  destruct (sent_arith pout w (Z.of_nat n) n word Hw ltac:(lia) HW Ho Hword ltac:(lia)) as (vs & Es & <- & Hvs & Hp).
  exists vs. split; [done |]. split; [done |]. split; [done |].
  rewrite sampled_full by (done || (intros ->; cbn in Hn; lia)). by rewrite Hp, Z.mod_small.
Qed.
Lemma serial_roundtrip_witness :
  let p := set_transferWidth 8 (newPort (mkIter (mkEdge 0 RISING) 0)) in
  sent p 4 2 0xa5 = Some [0x5; 0xa] /\ sampled p 4 [0x5; 0xa] 0xff = Some 0xa5 /\
  exists vs, sent p 4 2 0xa5 = Some vs /\ length vs = 2%nat /\ Forall (fun v => 0 <= v < 2 ^ 4) vs /\ sampled p 4 vs 0xff = Some 0xa5.
Proof.
  split; [reflexivity |]. split; [reflexivity |].
  apply (serial_roundtrip (set_transferWidth 8 (newPort (mkIter (mkEdge 0 RISING) 0))) (set_transferWidth 8 (newPort (mkIter (mkEdge 0 RISING) 0))) 4 2 0xa5 0xff); cbn; lia.
Defined.

(** ** A constant input *)

Lemma pack_app w xs ys : 0 <= w -> pack w (xs ++ ys) = pack w xs + 2 ^ (w * Z.of_nat (length xs)) * pack w ys.
Proof.
  intros Hw. induction xs as [|x xs IH]; cbn [app pack length]; [rewrite Z.mul_0_r; lia |].
  rewrite IH. replace (w * Z.of_nat (S (length xs))) with (w + w * Z.of_nat (length xs)) by lia. rewrite Z.pow_add_r by lia. lia.
Qed.

(** The loop doubles the number of copies. *)
Lemma replicate_loop_spec w v : 0 < w -> 0 <= v < 2 ^ w -> forall k i fuel, (k < fuel)%nat ->
  w * 2 ^ (Z.of_nat i + Z.of_nat k) <= 32 ->
  replicate_loop fuel (pack w (replicate (2 ^ i) v)) (2 ^ Z.of_nat k) (w * 2 ^ Z.of_nat i) = Some (pack w (replicate (2 ^ (i + k)) v)).
Proof.
  intros Hw Hv. induction k as [|k IH]; intros i fuel Hf Hb; (destruct fuel as [|fuel]; [lia |]); cbn [replicate_loop].
  - by rewrite Nat.add_0_r.
  - assert (1 < 2 ^ Z.of_nat (S k)) as Hk by (apply Z.pow_gt_1; lia). rewrite (proj2 (Z.ltb_lt _ _) Hk).
    set (q := pack w (replicate (2 ^ i) v)) in *.
    assert (w * 2 ^ Z.of_nat i * 2 <= w * 2 ^ (Z.of_nat i + Z.of_nat (S k))) as Hi.
    { rewrite Z.pow_add_r by lia. assert (0 < 2 ^ Z.of_nat i) by lia. nia. }
    assert (0 <= q < 2 ^ (w * 2 ^ Z.of_nat i)) as Hq.
    { pose proof (pack_bounds w (replicate (2 ^ i) v) ltac:(lia)) as B. rewrite length_replicate, Nat2Z.inj_pow in B.
      apply B. by apply Forall_replicate. }
    assert (0 < w * 2 ^ Z.of_nat i <= 16) as Hs by lia.
    assert (shl32 q (w * 2 ^ Z.of_nat i) = Some (q * 2 ^ (w * 2 ^ Z.of_nat i))) as ->.
    { unfold shl32. rewrite (proj2 (andb_true_iff _ _)) by (split; [apply Z.leb_le | apply Z.ltb_lt]; lia).
      rewrite Z.shiftl_mul_pow2 by lia. unfold wrap. rewrite Z.mod_small; [done |].
      assert (2 ^ (w * 2 ^ Z.of_nat i) <= 2 ^ 16) by (apply Z.pow_le_mono_r; lia). nia. }
    cbn [mbind option_bind]. rewrite Z.lor_comm, lor_disjoint by lia.
    replace (2 ^ Z.of_nat (S k) .>> 1) with (2 ^ Z.of_nat k).
    2: { rewrite Z.shiftr_div_pow2 by lia. replace (Z.of_nat (S k)) with (Z.of_nat k + 1) by lia. rewrite Z.pow_add_r by lia. by rewrite Z.div_mul. }
    replace (u32 (w * 2 ^ Z.of_nat i * 2)) with (w * 2 ^ Z.of_nat (S i)).
    2: { unfold wrap. rewrite Z.mod_small by lia. replace (Z.of_nat (S i)) with (Z.of_nat i + 1) by lia. rewrite Z.pow_add_r by lia. lia. }
    replace (q + q * 2 ^ (w * 2 ^ Z.of_nat i)) with (pack w (replicate (2 ^ S i) v)).
    + replace (i + S k)%nat with (S i + k)%nat by lia. apply IH; [lia |]. by replace (Z.of_nat (S i) + Z.of_nat k) with (Z.of_nat i + Z.of_nat (S k)) by lia.
    + replace (2 ^ S i)%nat with (2 ^ i + 2 ^ i)%nat by (cbn; lia). rewrite replicate_add, pack_app by lia.
      rewrite length_replicate, Nat2Z.inj_pow. fold q. change (Z.of_nat 2) with 2. lia.
Qed.

Lemma dataPins_run s p pt : portAt s p = Some pt -> portType pt = DATAPORT -> outputPort pt = false ->
  getEffectiveDataPortInputPinsValue p s = Some (s, getEffectiveValue pt (pinsInputValue pt)).
Proof.
  intros Ep Hty Ho. unfold getEffectiveDataPortInputPinsValue, getDataPortPinsValue.
  rewrite (bind_run _ _ _ _ _ (port_get _ _ _ Ep)). rewrite (bind_run _ _ s s (pinsInputValue pt)); [done |].
  rewrite (bind_run _ _ _ _ _ (port_get _ _ _ Ep)), Hty, Ho. done.
Qed.

(** A sample more of the same value. *)
Lemma pack_replicate_next w v n : 0 < w -> 0 <= v < 2 ^ w -> (0 < n)%nat ->
  pack w (replicate n v) / 2 ^ w + v * 2 ^ (w * Z.of_nat n - w) = pack w (replicate n v).
Proof.
  intros Hw Hv Hn. destruct n as [|m]; [lia |].
  rewrite replicate_S_end at 2. rewrite pack_app, length_replicate by lia. cbn [replicate pack].
  rewrite (Z.mul_comm (2 ^ w)), Z.div_add, (Z.div_small v) by (try apply Z.pow_nonzero; lia).
  replace (w * Z.of_nat (S m) - w) with (w * Z.of_nat m) by lia. lia.
Qed.

Lemma steady_value s p pt width c (k : nat) : portAt s p = Some pt -> attached s p pt width c ->
  portType pt = DATAPORT -> outputPort pt = false -> isClock (getEffectiveValue pt (pinsInputValue pt)) = false ->
  shiftRegEntries pt = 2 ^ Z.of_nat k -> transferWidth pt = width * 2 ^ Z.of_nat k -> 0 < width < 32 -> width * 2 ^ Z.of_nat k <= 32 ->
  let v := Signal.getValue (getEffectiveValue pt (pinsInputValue pt)) (pt_time pt) in
  0 <= v < 2 ^ width -> 0 <= pack width (replicate (2 ^ k) v) < 2 ^ (width * 2 ^ Z.of_nat k) ->
  computeSteadyStateInputShiftReg p s = Some (s, pack width (replicate (2 ^ k) v)).
Proof.
  intros Ep Ha Hty Ho Hc He HT Hw HW v Hv Hr.
  unfold computeSteadyStateInputShiftReg. rewrite (bind_run _ _ _ _ _ (port_get _ _ _ Ep)).
  rewrite (bind_run _ _ _ _ _ (dataPins_run _ _ _ Ep Hty Ho)), Hc. erewrite bind_run; [| done]. cbv beta.
  rewrite (bind_run _ _ _ _ _ (getPortWidth_run _ _ _ _ _ Ha)), He. fold v.
  assert (Z.of_nat k < 6) as Hk6.
  { destruct (Z.lt_ge_cases (Z.of_nat k) 6) as [|Hge]; [done |]. pose proof (Z.pow_le_mono_r 2 _ _ ltac:(lia) Hge). nia. }
  pose proof (replicate_loop_spec width v ltac:(lia) Hv k 0 33 ltac:(lia) HW) as El.
  replace (pack width (replicate (2 ^ 0) v)) with v in El by (cbn; lia). cbn [Z.of_nat] in El. rewrite Z.pow_0_r, Z.mul_1_r in El.
  rewrite El. erewrite bind_run; [| done].
  unfold mret, M_ret. rewrite HT, makeMask_ones, Z.min_l, Z.land_ones, Z.mod_small by (done || lia). done.
Qed.

(** The contents an input port's registers settle at while the pins do not change: with a buffered
    port of [2 ^ k] samples to a word, the value computed for the fast update is unchanged by
    another sample, and [2 ^ k] samples lead to it from any contents of the shift register. *)
Theorem steady_input_register s p pt width c (k : nat) : portAt s p = Some pt -> attached s p pt width c ->
  portType pt = DATAPORT -> outputPort pt = false -> isClock (getEffectiveValue pt (pinsInputValue pt)) = false ->
  shiftRegEntries pt = 2 ^ Z.of_nat k -> transferWidth pt = width * 2 ^ Z.of_nat k -> 0 < width < 32 -> width * 2 ^ Z.of_nat k <= 32 ->
  let v := Signal.getValue (getEffectiveValue pt (pinsInputValue pt)) (pt_time pt) in
  0 <= v < 2 ^ width ->
  exists r, computeSteadyStateInputShiftReg p s = Some (s, r) /\ shiftIn pt width v r = Some r /\
    forall old, 0 <= old < 2 ^ transferWidth pt -> sampled pt width (replicate (2 ^ k) v) old = Some r.
Proof.
  intros Ep Ha Hty Ho Hc He HT Hw HW v Hv.
  assert (length (replicate (2 ^ k) v) = (2 ^ k)%nat) as Hlen by apply length_replicate.
  assert (Z.of_nat (2 ^ k) = 2 ^ Z.of_nat k) as Hpow by apply Nat2Z.inj_pow. assert (0 < 2 ^ Z.of_nat k) as Hk by lia.
  assert (Forall (fun v => 0 <= v < 2 ^ width) (replicate (2 ^ k) v)) as Hvs by by apply Forall_replicate.
  pose proof (pack_bounds width _ ltac:(lia) Hvs) as Hr. rewrite Hlen, Hpow in Hr.
  exists (pack width (replicate (2 ^ k) v)). split; [by apply (steady_value s p pt width c) |]. split.
  - destruct (shiftIn_arith width (2 ^ Z.of_nat k) _ eq_refl Hw Hk HW pt v _ HT Hv Hr) as [-> _]. f_equal.
    rewrite <- Hpow. apply pack_replicate_next; lia.
  - intros old Hold. rewrite HT in Hold. apply sampled_full; rewrite ?Hlen, ?Hpow; try done.
    intros E. rewrite E in Hlen. cbn in Hlen. lia.
Qed.
Lemma steady_input_register_witness :
  let pt := set_shiftRegEntries 8 (set_portShiftCount 8 (set_transferWidth 8 (set_buffered true inputPort))) in
  exists r, computeSteadyStateInputShiftReg thePort (portSystem pt) = Some (portSystem pt, r) /\ shiftIn pt 1 1 r = Some r /\
    sampled pt 1 (replicate 8 1) 0x5a = Some r.
Proof.
  intros pt. destruct (steady_input_register (portSystem pt) thePort pt 1 theClock 3) as (r & Hr & Hf & Hs).
  - reflexivity.
  - by apply portSystem_attached.
  - reflexivity.
  - reflexivity.
  - reflexivity.
  - reflexivity.
  - reflexivity.
  - lia.
  - cbn; lia.
  - cbn; lia.
  - exists r. split; [exact Hr |]. split; [exact Hf |]. apply (Hs 0x5a). cbn; lia.
Defined.
