(* ===== verification/SchedFrame.v ===== *)
(** * What the code of the system does to the scheduler

    A property of the scheduler's queue that survives scheduling and descheduling of threads and
    resources survives every operation of the system, every instruction and every run of a thread. *)

From Stdlib Require Import ZArith Lia.
From stdpp Require Import base list numbers option gmap.
From S2P Require Import Prelude Opcode InstrDecode DecodeCache Core.
From S2P Require Import Refs Resource Node RunnableQueue StateMonad Thread SysState Events Timer Sync Chanend EventEnable.
From S2P Require Import Exec InstrData InstrControl ResourceOps InstrResource Execute.

#[local] Open Scope Z_scope.

(** lib/SystemState.h:63-63 timeoutRunnable: the one runnable that the code of the system does not schedule *)
Definition timeoutRunnable : RunnableRef := ROther 0.

(** A property that survives scheduling the others. *)
Record stable (Q : RunnableQueue -> Prop) : Prop := {
  st_push : forall q r time q', r <> timeoutRunnable -> push q r time = Some q' -> Q q -> Q q';
  st_remove : forall q r q', r <> timeoutRunnable -> remove q r = Some q' -> Q q -> Q q'
}.

(** Computations with local variables. *)
Lemma keeps_Xbind {P} (I : Sys P -> Prop) {A B} (m : X P A) (k : A -> X P B) f :
  (forall f, keeps I (m f)) -> (forall a f, keeps I (k a f)) -> keeps I ((m ≫= k) f).
Proof. intros Hm Hk. apply keeps_bind; [apply Hm |]. intros [f' []]; [apply Hk | apply keeps_ret..]. Qed.
Lemma keeps_sys {P} (I : Sys P -> Prop) {A} (m : M (Sys P) A) f : keeps I m -> keeps I (sys m f).
Proof. intros Hm. apply keeps_bind; [done |]. intros a. apply keeps_ret. Qed.

(** Go through a computation; a function that has no lemma of its own is unfolded. *)
Ltac head_of t := match t with ?f _ => head_of f | _ => t end.
Ltac frame_step :=
  match goal with
  | |- forall _, _ => intros ?
  | |- keeps _ ((_ ≫= _) _) => apply keeps_Xbind
  | |- keeps _ (sys _ _) => apply keeps_sys
  | |- keeps _ (mret _ _) => apply keeps_ret
  | |- keeps _ (_ ≫= _) => apply keeps_bind
  | |- keeps _ (mret _) => apply keeps_ret
  | |- keeps _ undef => apply keeps_undef
  | |- keeps _ get => apply keeps_get
  | |- keeps _ (gets _) => apply keeps_gets
  | |- keeps _ (lift _) => apply keeps_lift
  | |- keeps _ (require _) => apply keeps_require
  | |- keeps _ (when _ _) => apply keeps_when
  | |- keeps _ (forEach _ _) => apply keeps_forEach
  | |- keeps _ (modify _) => solve [apply keeps_modify; intros ? ?; assumption]
  | |- keeps _ _ => solve [eauto with frame nocore]
  | |- keeps _ (match ?x with _ => _ end) => destruct x
  | |- keeps _ (match ?x with _ => _ end _) => destruct x
  | |- keeps _ (let _ := _ in _) => cbv zeta
  | |- keeps _ ?m => let h := head_of m in unfold h; cbv beta
  end.
Ltac frame := repeat frame_step.

Create HintDb frame.

Section scheduling.
Context {P : Type} `{PortComplete P}.
Context (Q : RunnableQueue -> Prop) (HQ : stable Q).
Abbreviation I := (fun s : Sys P => Q (scheduler s)).
Context (Hcomplete : forall e, keeps I (port_completeEvent e)).

Lemma frame_scheduleOther r time : r <> timeoutRunnable -> keeps I (scheduleOther r time).
Proof.
  intros Hr s Hs. unfold scheduleOther, wlp, mbind, M_bind, gets, lift, modify. cbn.
  destruct (push (scheduler s) r time) as [q|] eqn:E; [| done]. cbn. by eapply (st_push _ HQ).
Qed.
Lemma frame_deschedule t : keeps I (Events.deschedule t).
Proof.
  intros s Hs. unfold Events.deschedule, wlp, mbind, M_bind, gets, lift. cbn.
  destruct (contains (scheduler s) (RThread t)) as [[]|]; [| done..]. cbn. unfold mbind, M_bind. cbn.
  destruct (remove (scheduler s) (RThread t)) as [q|] eqn:E; [| done]. cbn. by eapply (st_remove _ HQ (scheduler s) (RThread t) q).
Qed.
#[local] Hint Resolve frame_deschedule Hcomplete : frame.
#[local] Hint Extern 1 (keeps _ (scheduleOther _ _)) => (apply frame_scheduleOther; discriminate) : frame.

Lemma frame_schedule t : keeps I (schedule t).
Proof. frame. Qed.
Lemma frame_completeEvent t e i : keeps I (completeEvent t e i).
Proof. frame. Qed.
#[local] Hint Resolve frame_schedule frame_completeEvent : frame.
Lemma frame_event e time : keeps I (event e time).
Proof. frame. Qed.
Lemma frame_takeEventCurrent t : keeps I (takeEventCurrent t).
Proof. frame. Qed.
Lemma frame_updateOwner e t : keeps I (updateOwner e t).
Proof. frame. Qed.
End scheduling.
#[export] Hint Resolve frame_schedule frame_deschedule frame_event frame_takeEventCurrent frame_updateOwner : frame.
#[export] Hint Extern 1 (keeps _ (scheduleOther _ _)) => (apply frame_scheduleOther; [assumption | discriminate]) : frame.

Section frame.
Context {P : Type} `{PortEvents P}.
Context (Q : RunnableQueue -> Prop) (HQ : stable Q).
Abbreviation I := (fun s : Sys P => Q (scheduler s)).
Context (Hcomplete : forall e, keeps I (port_completeEvent e)) (Henable : forall e t, keeps I (port_seeEventEnable e t)).
#[local] Hint Resolve HQ Hcomplete Henable : frame.

Lemma frame_anyReady l time : keeps I (anyReady l time).
Proof. induction l; frame. Qed.
#[local] Hint Resolve frame_anyReady : frame.
Lemma frame_setSR t v : keeps I (setSR t v).
Proof. frame. Qed.
Lemma frame_eventEnable e t : keeps I (eventEnable e t).
Proof. frame. Qed.
#[local] Hint Resolve frame_setSR frame_eventEnable : frame.

(** ** Resources *)

Lemma frame_maxTime l : forall time, keeps I (maxTime time l).
Proof. induction l; frame. Qed.
#[local] Hint Resolve frame_maxTime : frame.
Lemma frame_sync r t b : keeps I (sync r t b).
Proof. frame. Qed.
Lemma frame_chanend_notify r time : keeps I (chanend_notify r time).
Proof. frame. Qed.
Lemma frame_update r time : keeps I (update r time).
Proof. frame. Qed.
#[local] Hint Resolve frame_sync frame_chanend_notify frame_update : frame.
Lemma frame_release e time : keeps I (release e time).
Proof. frame. Qed.
Lemma frame_poptoken r time : keeps I (poptoken r time).
Proof. frame. Qed.
#[local] Hint Resolve frame_release frame_poptoken : frame.
Lemma frame_handleRequest n time q : keeps I (handleRequest n time q).
Proof. frame. Qed.
#[local] Hint Resolve frame_handleRequest : frame.
Lemma frame_receiveDataToken e time v : keeps I (receiveDataToken e time v).
Proof. frame. Qed.
Lemma frame_receiveDataTokens e time v : keeps I (receiveDataTokens e time v).
Proof. frame. Qed.
Lemma frame_receiveCtrlToken e time v : keeps I (receiveCtrlToken e time v).
Proof. frame. Qed.
Lemma frame_openRoute r : keeps I (openRoute r).
Proof. frame. Qed.
#[local] Hint Resolve frame_receiveDataToken frame_receiveDataTokens frame_receiveCtrlToken frame_openRoute : frame.
Lemma frame_timer_run r time : keeps I (timer_run r time).
Proof. frame. Qed.
#[local] Hint Resolve frame_timer_run : frame.

(** ** Operations of instructions on resources *)

Context `{!PortOps P} (Hport : forall p t time o, keeps I (port_op p t time o)).
Context (Hclk : forall c t time o, keeps I (clk_op c t time o)) (HclkUse : forall c, keeps I (clk_inUse c)).
#[local] Hint Resolve Hport Hclk HclkUse : frame.

Lemma frame_resource_alloc r t : keeps I (resource_alloc r t).
Proof. frame. Qed.
#[local] Hint Resolve frame_resource_alloc : frame.
Lemma frame_allocFirst t l : keeps I (allocFirst t l).
Proof. induction l; frame. Qed.
#[local] Hint Resolve frame_allocFirst : frame.
Lemma frame_setC t time r v : keeps I (setC t time r v).
Proof. frame. Qed.
Lemma frame_resource_in r t time : keeps I (resource_in r t time).
Proof. frame. Qed.
Lemma frame_resource_out r t v time : keeps I (resource_out r t v time).
Proof. frame. Qed.
#[local] Hint Resolve frame_setC frame_resource_in frame_resource_out : frame.

(** ** Instructions *)

Lemma frame_raise et ed f : keeps I (raise et ed f).
Proof. frame. Qed.
Lemma frame_pause_on r f : keeps I (pause_on r f).
Proof. frame. Qed.
Lemma frame_store ty v a f : keeps I (store ty v a f).
Proof. frame. Qed.
#[local] Hint Resolve frame_raise frame_pause_on frame_store : frame.
Lemma frame_load ty a f : keeps I (load ty a f).
Proof. frame. Qed.
Lemma frame_write_pc a f : keeps I (write_pc a f).
Proof. frame. Qed.
#[local] Hint Resolve frame_load frame_write_pc : frame.

Lemma frame_declaration o d f : declaration o = Some d -> keeps I (code d f).
Proof.
  intros E. destruct o; try discriminate E; injection E as <-.
  all: repeat match goal with |- keeps _ (code ?d _) => let d' := eval hnf in d in change d with d'; cbn [code] end.
  all: frame.
Qed.

Context `{!Jit P} (Hcompile : forall c pc, keeps I (compileBlock c pc)) (Hcompiled : forall id t, keeps I (runCompiled id t)).
#[local] Hint Resolve Hcompile Hcompiled : frame.

Lemma frame_readOperands t im ex l : forall i, keeps I (readOperands t im ex i l).
Proof. induction l; frame. Qed.
Lemma frame_writeOperands t im ex size l : forall i vs sr, keeps I (writeOperands t im ex size i l vs sr).
Proof. induction l; intros i [] sr; frame. Qed.
#[local] Hint Resolve frame_readOperands frame_writeOperands : frame.

Lemma frame_instFunction tracing t o d : (forall f, keeps I (code d f)) -> keeps I (instFunction tracing t o d).
Proof. intros Hd. frame. Qed.
Lemma frame_declared tracing t o : keeps I (d ← lift (declaration o); instFunction tracing t o d).
Proof.
  intros s Hs. unfold wlp, mbind, M_bind, lift. destruct (declaration o) as [d|] eqn:E; [| done]. cbn.
  apply (frame_instFunction tracing t o d); [| done]. intros f. by apply (frame_declaration _ _ f E).
Qed.
Lemma frame_TSETMR t : keeps I (Instruction_TSETMR_2r t).
Proof. frame. Qed.
Lemma frame_decodedFunction tracing t o : keeps I (decodedFunction tracing t o).
Proof. unfold decodedFunction. destruct o; apply frame_declared || apply frame_TSETMR. Qed.
#[local] Hint Resolve frame_decodedFunction : frame.
Lemma frame_interpretOne t : keeps I (interpretOne t).
Proof. frame. Qed.
#[local] Hint Resolve frame_interpretOne : frame.
Lemma frame_callOpcode junk g t : keeps I (callOpcode junk g t).
Proof. destruct g as [o tracing|id]; [| apply Hcompiled]. unfold callOpcode. destruct o; try apply frame_decodedFunction; frame. Qed.
#[local] Hint Resolve frame_callOpcode : frame.
Lemma frame_run_loop junk fuel t : keeps I (run_loop junk fuel t).
Proof. induction fuel; frame. Qed.
#[local] Hint Resolve frame_run_loop : frame.

(** Running a thread. *)
Lemma frame_thread_run junk fuel t : keeps I (thread_run junk fuel t).
Proof. frame. Qed.
End frame.
