(* ===== verification/PortFrame.v ===== *)
(** * What ports and clock blocks do to the scheduler

    The same as the rest of the system: they schedule and deschedule threads and resources, as long as
    the devices on their pins do no more than that. *)

From Stdlib Require Import ZArith Lia.
From stdpp Require Import base list numbers option gmap.
From S2P Require Import Prelude Opcode InstrDecode Signal DecodeCache Core.
From S2P Require Import Refs Resource Node RunnableQueue StateMonad Thread SysState Events EventEnable.
From S2P Require Import Exec PortState Port ResourceOps PortUse SchedFrame.

#[local] Open Scope Z_scope.

Section frame.
Context `{PortEnv} (Q : RunnableQueue -> Prop) (HQ : stable Q).
Abbreviation I := (fun s : Sys Ports => Q (scheduler s)).
Context (Hdev : forall n v time, keeps I (dev_seePinsChange n v time)).
#[local] Hint Resolve Hdev : frame.

Lemma frame_complete e : keeps I (port_completeEvent e).
Proof. unfold port_completeEvent, portComplete. frame. Qed.
#[local] Hint Resolve HQ frame_complete : frame.

Lemma frame_scheduleUpdateIfNeeded p : keeps I (scheduleUpdateIfNeeded p).
Proof. frame. Qed.
#[local] Hint Resolve frame_scheduleUpdateIfNeeded : frame.

Section outv.
Context (outv : EventableRef -> Signal -> Z -> M (Sys Ports) unit) (Hout : forall p v time, keeps I (outv p v time)).
Context (loopFuel : nat).
#[local] Hint Resolve Hout : frame.

Lemma frame_seeEdge p e time : keeps I (seeEdge outv p e time).
Proof. frame. Qed.
#[local] Hint Resolve frame_seeEdge : frame.
Lemma frame_updateSlow_loop fuel p time : keeps I (updateSlow_loop outv fuel p time).
Proof. induction fuel; frame. Qed.
Lemma frame_edgesWhile fuel p cond : keeps I cond -> forall n, keeps I (edgesWhile outv fuel p cond n).
Proof. intros Hc. induction fuel; frame. Qed.
#[local] Hint Resolve frame_updateSlow_loop : frame.
#[local] Hint Extern 1 (keeps _ (edgesWhile _ _ _ _ _)) => (apply frame_edgesWhile; solve [frame]) : frame.
Lemma frame_port_update p time : keeps I (update outv loopFuel p time).
Proof. frame. Qed.
#[local] Hint Resolve frame_port_update : frame.
Lemma frame_clk_setValue c v time : keeps I (clk_setValue outv loopFuel c v time).
Proof. frame. Qed.
Lemma frame_setReadyInValue c v time : keeps I (setReadyInValue outv loopFuel c v time).
Proof. frame. Qed.
#[local] Hint Resolve frame_clk_setValue frame_setReadyInValue : frame.

Context (seePort : EventableRef -> Signal -> Z -> M (Sys Ports) unit) (Hsee : forall p v time, keeps I (seePort p v time)).
#[local] Hint Resolve Hsee : frame.
Lemma frame_seePinsChange_ p v time : keeps I (seePinsChange_ outv loopFuel seePort p v time).
Proof. frame. Qed.
Lemma frame_outputValue_ p v time : keeps I (outputValue_ outv loopFuel seePort p v time).
Proof. frame. Qed.
End outv.

Lemma frame_pinsChange fuel : forall output p v time, keeps I (pinsChange fuel output p v time).
Proof.
  induction fuel as [|n IH]; intros output p v time; [apply keeps_undef |]. cbn [pinsChange].
  destruct output; [apply frame_outputValue_ | apply frame_seePinsChange_]; intros; apply IH.
Qed.
#[local] Hint Resolve frame_pinsChange frame_port_update frame_clk_setValue : frame.

Lemma frame_portOp fuel p t time o : keeps I (portOp fuel p t time o).
Proof. destruct o; frame. Qed.
Lemma frame_clkOp fuel c t time o : keeps I (clkOp fuel c t time o).
Proof. destruct o; frame. Qed.
Lemma frame_port_seeEventEnable e time : keeps I (PortUse.seeEventEnable e time).
Proof. frame. Qed.
Lemma frame_port_run fuel p time : keeps I (port_run fuel p time).
Proof. frame. Qed.
End frame.
