(* ===== verification/PortLocal.v ===== *)
(** * What ports promise to the lists of events

    The invariants of channel ends and of the lists of enabled resources are proved for any ports that promise two
    things: to complete an event changes the port only, and to ask a port whether it is ready enables and disables
    nothing.  The ports of this development keep both promises. *)

From Stdlib Require Import ZArith Lia.
From stdpp Require Import base list numbers option gmap.
From S2P Require Import Prelude Opcode InstrDecode Signal DecodeCache Core.
From S2P Require Import Refs Resource Node RunnableQueue StateMonad Thread SysState Events SysFacts EventEnable.
From S2P Require Import Exec PortState Port ResourceOps PortUse SchedFrame.

#[local] Open Scope Z_scope.

#[export] Instance portsEventsOk `{PortEnv} : PortEventsOk Ports.
Proof.
  split. intros e s.
  change (port_completeEvent e) with (pt ← port e; _ ← require (transferRegValid pt); v ← port e; putPort e (set_holdTransferReg true v)).
  apply wlp_bind, wlp_bind, wlp_get, wlp_lift. intros pt _. apply wlp_bind, wlp_require. intros _.
  apply wlp_bind, wlp_bind, wlp_get, wlp_lift. intros pt' _. apply wlp_modify. by destruct s.
Qed.

Section promises.
Context `{PortEnv} (v : gmap EventableRef (bool * bool * bool * option Ref) * gmap Ref (list EventableRef * list EventableRef)).
Abbreviation I := (fun s : Sys Ports => view s = v).
Lemma view_event e time : keeps I (event e time).
Proof. apply (keeps_event_v (H0 := portsEventsOk)). Qed.
#[local] Hint Resolve view_event keeps_scheduleOther_v keeps_eventable_v keeps_thread_v : frame.

Lemma view_readyOutSteady p : keeps I (readyOutIsInSteadyState p).
Proof. frame. Qed.
#[local] Hint Resolve view_readyOutSteady : frame.
Lemma view_scheduleUpdateIfNeeded p : keeps I (scheduleUpdateIfNeeded p).
Proof. frame. Qed.
#[local] Hint Resolve view_scheduleUpdateIfNeeded : frame.
Lemma view_seeEventEnable p time : keeps I (PortUse.seeEventEnable p time).
Proof. unfold PortUse.seeEventEnable. frame. Qed.
End promises.

#[export] Instance portsEnableOk `{PortEnv} : PortEnableOk Ports.
Proof. intros e time. apply keeps_frames. intros v. apply view_seeEventEnable. Qed.
