(* ===== verification/SystemRun.v ===== *)
(** * The main loop (lib/SystemState.cpp)

    The scheduler gives the runnable with the earliest time; a thread executes instructions until it
    gives up the processor, a timer or a port looks whether something has happened.  The loop ends when
    nothing is left to run or when an exception stops it: a breakpoint, a watchpoint, the timeout. *)

From Stdlib Require Import ZArith Lia.
From stdpp Require Import base list numbers option gmap.
From S2P Require Import Prelude Opcode InstrDecode Signal DecodeCache Watchpoint Core.
From S2P Require Import Refs Resource Node RunnableQueue SchedulerMap StateMonad Thread SysState Events SysFacts Timer.
From S2P Require Import Exec ResourceOps Execute PortState Port PortUse DataExec SchedFrame PortFrame.

#[local] Open Scope Z_scope.

(** lib/StopReason.h:16-53 StopReason *)
Inductive StopReason :=
  | BREAKPOINT_STOP (time : Z) (t : Ref)
  | WATCHPOINT_STOP (time : Z) (t : Ref)
  | TIMEOUT_STOP (time : Z)
  | EXIT_STOP (time status : Z)
  | NO_RUNNABLE_THREADS (time : Z).

(** lib/SystemState.h:27-55 StopException: and the classes derived from it, with WatchpointException *)
Inductive StopException :=
  | ExitException (time status : Z)
  | TimeoutException (time : Z)
  | BreakpointException_ (time : Z) (t : Ref)
  | WatchpointException_ (time : Z) (t : Ref).

(** How a call of [run] of a runnable ends; [RanOut] when the thread executes more instructions than
    there is fuel for. *)
Inductive RunOutcome := Ran | Raised (e : StopException) | RanOut.

(** An iteration of the loop: it goes on after running [r] at [time], or it stops. *)
Inductive Step := Continue (r : RunnableRef) (time : Z) | Stop (reason : StopReason) | StepRanOut.

Section run.
Context `{PortEnv} `{Jit Ports}.
Abbreviation MS := (M (Sys Ports)).
(** The contents of an uninitialised [Operands]; bounds on the instructions of one run of a thread and on
    the loops of a port; peripherals as runnables, which may end the program. *)
Context (junk : Operands) (fuel portFuel : nat) (dev_run : nat -> Z -> MS (option (Z * Z))).

(** lib/Timeout.cpp:11-14 Timeout::run: and the other classes derived from Runnable *)
Definition runnable_run (r : RunnableRef) (time : Z) : MS RunOutcome :=
  match r with
  | RThread t =>
      x ← Execute.thread_run (H0 := portOps portFuel) junk fuel t;
      match x with
      | Stopped => mret Ran
      | OutOfFuel => mret RanOut
      | RunThrew e =>
          th ← thread t;
          mret (Raised (match e with
                        | BreakpointException => BreakpointException_ (Thread.time th) t
                        | WatchpointException _ _ => WatchpointException_ (Thread.time th) t
                        end))
      end
  | REventable (TimerRef r) => _ ← timer_run r time; mret Ran
  | REventable (EvPortRef c w n) => _ ← port_run portFuel (EvPortRef c w n) time; mret Ran
  | REventable (ChanendRef _) => undef
  | ROther O => mret (Raised (TimeoutException time))
  | ROther (S n) =>
      x ← dev_run n time;
      mret (match x with Some (time, status) => Raised (ExitException time status) | None => Ran end)
  end.

(** lib/SystemState.cpp:84-97 SystemState::getLatestThreadTime: the order of the threads does not matter *)
Definition getLatestThreadTime : MS Z :=
  gets (fun s => map_fold (fun _ th time => Z.max time (Thread.time th)) 0 (threads s)).

(** lib/SystemState.cpp:99-102 SystemState::setTimeout *)
Definition setTimeout (time : Z) : MS unit := scheduleOther timeoutRunnable time.

(** lib/SystemState.cpp:104-109 SystemState::clearTimeout *)
Definition clearTimeout : MS unit :=
  _ ← scheduleOther timeoutRunnable 0;
  q ← gets scheduler; q ← lift (RunnableQueue.remove q timeoutRunnable); modify (set_scheduler q).

(** lib/SystemState.cpp:121-142 SystemState::run: the handlers *)
Definition stopReason (e : StopException) : MS StopReason :=
  match e with
  | ExitException time status => mret (EXIT_STOP time status)
  | TimeoutException time =>
      q ← gets scheduler;
      mret (if RunnableQueue.empty q then NO_RUNNABLE_THREADS time else TIMEOUT_STOP time)
  | BreakpointException_ time t => mret (BREAKPOINT_STOP time t)
  | WatchpointException_ time t => mret (WATCHPOINT_STOP time t)
  end.

(** lib/SystemState.cpp:115-120 SystemState::run: one iteration, and what follows the loop *)
Definition system_step : MS Step :=
  q ← gets scheduler;
  if RunnableQueue.empty q then time ← getLatestThreadTime; mret (Stop (NO_RUNNABLE_THREADS time))
  else
    r ← lift (RunnableQueue.front q);
    _ ← modify (set_currentRunnable (Some r));
    q ← lift (RunnableQueue.pop q); _ ← modify (set_scheduler q);
    x ← lift (heap q !! r);
    o ← runnable_run r (wakeUpTime x);
    match o with
    | Ran => mret (Continue r (wakeUpTime x))
    | Raised e => reason ← stopReason e; mret (Stop reason)
    | RanOut => mret StepRanOut
    end.

(** lib/SystemState.cpp:112-148 SystemState::run: at most [n] iterations *)
Fixpoint system_run (n : nat) : MS (option StopReason) :=
  match n with
  | O => mret None
  | S n =>
      x ← system_step;
      match x with
      | Continue _ _ => system_run n
      | Stop reason => mret (Some reason)
      | StepRanOut => mret None
      end
  end.

(** A sequence of iterations that do not stop, with the runnables and their times. *)
Inductive runs : Sys Ports -> list (RunnableRef * Z) -> Sys Ports -> Prop :=
  | runs_nil s : runs s [] s
  | runs_cons s r time s' l s'' : system_step s = Some (s', Continue r time) -> runs s' l s'' -> runs s ((r, time) :: l) s''.
End run.

(** ** The timeout *)

(** The queue is in order and the timeout waits in it for time [T]. *)
Definition timed (T : Z) (q : RunnableQueue) : Prop := exists w, schedules q w /\ w !! timeoutRunnable = Some T.

Lemma push_defined q r time q' : push q r time = Some q' -> r ∈ dom (heap q).
Proof. unfold push, contains. intros E. apply elem_of_dom. destruct (heap q !! r); [by eexists | done]. Qed.
Lemma remove_defined q w r q' : schedules q w -> remove q r = Some q' -> is_Some (w !! r).
Proof.
  intros Hw E. unfold remove in E. destruct (contains q r) as [b|] eqn:Ec; [| done].
  assert (r ∈ dom (heap q)) as Hd by (apply elem_of_dom; unfold contains in Ec; destruct (heap q !! r); [by eexists | done]).
  rewrite (schedules_contains _ _ _ Hw Hd) in Ec. injection Ec as <-. cbn [mbind option_bind] in E. destruct (decide (is_Some (w !! r))) as [|Hn]; [done | rewrite (bool_decide_eq_false_2 (is_Some (w !! r)) Hn) in E; discriminate E].
Qed.
Lemma pop_times q q' x : pop q = Some q' -> wakeUpTime <$> heap q' !! x = wakeUpTime <$> heap q !! x.
Proof.
  unfold pop, upd. intros E. repeat (case_match || simplify_option_eq); try done.
  match goal with |- context [<[?y := _]> _ !! _] => destruct (decide (x = y)) as [->|] end.
  - rewrite lookup_insert_eq. by simplify_option_eq.
  - by rewrite lookup_insert_ne.
Qed.

Lemma timed_stable T : stable (timed T).
Proof.
  split; intros q r.
  - intros time q' Hr E (w & Hw & Ht). destruct (schedules_push q w r time Hw (push_defined _ _ _ _ E)) as (q1 & E1 & Hw1 & _).
    rewrite E in E1. injection E1 as <-. exists (<[r := time]> w). by rewrite lookup_insert_ne.
  - intros q' Hr E (w & Hw & Ht). destruct (schedules_remove q w r Hw (remove_defined _ _ _ _ Hw E)) as (q1 & E1 & Hw1 & _).
    rewrite E in E1. injection E1 as <-. exists (delete r w). by rewrite lookup_delete_ne.
Qed.
Lemma timed_pop T q : timed T q ->
  exists r time q' x, empty q = false /\ front q = Some r /\ pop q = Some q' /\ heap q' !! r = Some x /\ wakeUpTime x = time /\
    time <= T /\ (r = timeoutRunnable -> time = T) /\ (r <> timeoutRunnable -> timed T q').
Proof.
  intros (w & Hw & Ht). assert (w <> ∅) as Hne by (intros ->; done).
  destruct (schedules_front q w Hw Hne) as (r & time & q' & Hf & Htm & Hr & Hmin & Hp & Hw' & _).
  pose proof (pop_times q q' r Hp) as Hx. rewrite Htm in Hx. destruct (heap q' !! r) as [x|] eqn:Ex; [| done]. cbn in Hx.
  exists r, time, q', x. split; [by rewrite (schedules_empty _ _ Hw), bool_decide_eq_false_2 |].
  split_and!; [done | done | done | congruence | by eapply Hmin | intros ->; congruence |].
  intros Hnt. exists (delete r w). by rewrite lookup_delete_ne.
Qed.

(** The code outside the model (devices on the pins of ports, devices that are runnables, compiled
    code) leaves the timeout alone: it may schedule and deschedule every other runnable. *)
Record wellBehaved `{PortEnv} `{Jit Ports} (dev_run : nat -> Z -> M (Sys Ports) (option (Z * Z))) : Prop := {
  wb_pins : forall Q, stable Q -> forall n v time, keeps (fun s => Q (scheduler s)) (dev_seePinsChange n v time);
  wb_run : forall Q, stable Q -> forall n time, keeps (fun s => Q (scheduler s)) (dev_run n time);
  wb_compile : forall Q, stable Q -> forall c pc, keeps (fun s => Q (scheduler s)) (compileBlock c pc);
  wb_compiled : forall Q, stable Q -> forall id t, keeps (fun s => Q (scheduler s)) (runCompiled id t)
}.

Section timeout.
Context `{PortEnv} `{Jit Ports}.
Context (junk : Operands) (fuel portFuel : nat) (dev_run : nat -> Z -> M (Sys Ports) (option (Z * Z))) (WB : wellBehaved dev_run).
Abbreviation step := (system_step junk fuel portFuel dev_run).

Lemma frame_runnable_run Q r time : stable Q -> keeps (fun s => Q (scheduler s)) (runnable_run junk fuel portFuel dev_run r time).
Proof.
  intros HQ. pose proof (frame_complete Q) as Hc. pose proof (wb_pins _ WB Q HQ) as Hd.
  destruct r as [t | [r|r|c w n] | [|n]]; cbn [runnable_run].
  - apply keeps_bind; [| intros []; frame].
    apply (frame_thread_run Q HQ); [| | | | | apply (wb_compile _ WB Q HQ) | apply (wb_compiled _ WB Q HQ)].
    + apply Hc.
    + intros. by apply frame_port_seeEventEnable.
    + intros. by apply (frame_portOp Q HQ).
    + intros. by apply (frame_clkOp Q HQ).
    + intros. cbn [clk_inUse portOps]. frame.
  - apply keeps_bind; [by apply (frame_timer_run Q HQ) | frame].
  - frame.
  - apply keeps_bind; [by apply (frame_port_run Q HQ) | frame].
  - frame.
  - apply keeps_bind; [by apply (wb_run _ WB Q HQ) | frame].
Qed.

(** One iteration with the timeout waiting for [T]. *)
Definition step_ok (T : Z) (s' : Sys Ports) (x : Step) : Prop :=
  match x with
  | Continue r time => time <= T /\ r <> timeoutRunnable /\ timed T (scheduler s')
  | Stop (TIMEOUT_STOP time) | Stop (NO_RUNNABLE_THREADS time) => time = T
  | _ => True
  end.

Lemma wlp_then {A B} (m : M (Sys Ports) A) (k : A -> M (Sys Ports) B) Q s : (forall a s', wlp (k a) Q s') -> wlp (m ≫= k) Q s.
Proof. intros Hk. apply wlp_bind. unfold wlp at 1. destruct (m s) as [[s' a]|]; [apply Hk | done]. Qed.

(** Only the timeout raises its exception. *)
Lemma runnable_run_timeout s r time : wlp (runnable_run junk fuel portFuel dev_run r time) (fun o _ =>
  match o with Raised (TimeoutException t) => r = timeoutRunnable /\ t = time | Ran => r <> timeoutRunnable | _ => True end) s.
Proof.
  destruct r as [t | [r|r|c w n] | [|n]]; cbn [runnable_run]; try done; repeat (apply wlp_then; intros ? ?); try done.
  - destruct a as [|e|]; try done. apply wlp_then. intros th s1. by destruct e.
  - by destruct a as [[]|].
Qed.

Lemma step_timed T s : timed T (scheduler s) -> wlp step (fun x s' => step_ok T s' x) s.
Proof.
  intros HT. destruct (timed_pop T (scheduler s) HT) as (r & time & q & x & He & Hf & Hp & Hx & <- & Hle & Hto & Hrest).
  unfold system_step. apply wlp_bind. cbn. rewrite He. apply wlp_bind. rewrite Hf. cbn. apply wlp_bind. cbn.
  apply wlp_bind. rewrite Hp. cbn. apply wlp_bind. cbn. apply wlp_bind. rewrite Hx. cbn.
  set (s1 := set_scheduler q (set_currentRunnable (Some r) s)).
  pose proof (runnable_run_timeout s1 r (wakeUpTime x)) as Hr. apply wlp_bind.
  destruct (decide (r = timeoutRunnable)) as [->|Hne].
  - unfold wlp. cbn. specialize (Hto eq_refl). rewrite <- Hto. unfold mbind, M_bind. cbn. by destruct (empty q).
  - pose proof (frame_runnable_run (timed T) r (wakeUpTime x) (timed_stable T) s1 (Hrest Hne)) as Hk.
    unfold wlp in Hr, Hk |- *. destruct (runnable_run _ _ _ _ _ _ s1) as [[s2 o]|]; [| done].
    destruct o as [|[]|]; cbn; try done. by destruct Hr.
Qed.

Lemma runs_timed T s l s' : runs junk fuel portFuel dev_run s l s' -> timed T (scheduler s) ->
  timed T (scheduler s') /\ Forall (fun '(r, time) => time <= T /\ r <> timeoutRunnable) l.
Proof.
  induction 1 as [s|s r time s1 l s2 E _ IH]; intros HT; [by split |].
  destruct (wlp_elim _ _ _ _ _ (step_timed T s HT) E) as (Hle & Hr & HT1). destruct (IH HT1) as [? ?]. split; [done | by constructor].
Qed.

(** A run that stops is a sequence of iterations and a last one. *)
Lemma system_run_runs n : forall s s' reason, system_run junk fuel portFuel dev_run n s = Some (s', Some reason) ->
  exists l s1, runs junk fuel portFuel dev_run s l s1 /\ (length l < n)%nat /\ step s1 = Some (s', Stop reason).
Proof.
  induction n as [|n IH]; intros s s' reason E; [done |]. cbn [system_run] in E. unfold mbind, M_bind in E.
  destruct (step s) as [[s1 x]|] eqn:Es; [| done]. cbn in E. destruct x as [r time|reason'|]; [| |done].
  - destruct (IH _ _ _ E) as (l & s2 & Hl & Hn & Hs). exists ((r, time) :: l), s2. split; [by econstructor |]. split; [cbn; lia | done].
  - injection E as <- <-. exists [], s. split; [constructor |]. split; [cbn; lia | done].
Qed.

(** C35: A run with a timeout does not go past it.  After [setTimeout(T)], whatever the program does and
    however long it runs, every thread, resource and device that is run has a time of at most [T] and
    the queue stays in order with the timeout in it; and if the run ends because of the timeout
    or because nothing is left to run then the time it reports is [T]: it never runs out of
    runnables before [T].  The devices and the compiled code, which are outside the model, may schedule and deschedule
    everything but the timeout. *)
Theorem timeout_bounds_run T s w : schedules (scheduler s) w -> timeoutRunnable ∈ dom (heap (scheduler s)) ->
  exists s1, setTimeout T s = Some (s1, tt) /\
  (forall l s', runs junk fuel portFuel dev_run s1 l s' ->
    Forall (fun '(r, time) => time <= T /\ r <> timeoutRunnable) l /\ timed T (scheduler s')) /\
  (forall n s2 reason, system_run junk fuel portFuel dev_run n s1 = Some (s2, Some reason) ->
    (exists l s', runs junk fuel portFuel dev_run s1 l s' /\ (length l < n)%nat /\ step s' = Some (s2, Stop reason)) /\
    match reason with TIMEOUT_STOP time | NO_RUNNABLE_THREADS time => time = T | _ => True end).
Proof using WB.
  intros Hw Hd. destruct (schedules_push _ w _ T Hw Hd) as (q & Eq & Hq & _). exists (set_scheduler q s).
  assert (timed T q) as HT by (exists (<[timeoutRunnable := T]> w); split; [done | apply lookup_insert_eq]).
  split; [unfold setTimeout, scheduleOther, mbind, M_bind, lift; cbn; by rewrite Eq |]. split.
  - intros l s' Hl. by destruct (runs_timed T _ l s' Hl HT).
  - intros n s2 reason Hrun. destruct (system_run_runs _ _ _ _ Hrun) as (l & s' & Hl & Hn & Hs). split; [by exists l, s' |].
    destruct (runs_timed T _ l s' Hl HT) as [HT' _]. pose proof (wlp_elim _ _ _ _ _ (step_timed T s' HT') Hs). by destruct reason.
Qed.
End timeout.

(** A system with two timers, scheduled for times 50 and 200, that have nothing to do. *)
Definition timerA : Ref := ((0, 0), 0)%nat.
Definition timerB : Ref := ((0, 0), 1)%nat.
Definition twoTimersQueue : RunnableQueue :=
  default (idleQueue []) (q ← push (idleQueue [REventable (TimerRef timerA); REventable (TimerRef timerB); timeoutRunnable]) (REventable (TimerRef timerA)) 50;
    push q (REventable (TimerRef timerB)) 200).
Definition twoTimers : Sys Ports :=
  mkSys [] ∅ (mkState [] [] [] None 0 0 false) ∅ ∅ {[timerA := mkTimer true 1000 None; timerB := mkTimer true 1000 None]} ∅ ∅ ∅ ∅ ∅
    twoTimersQueue None None (mkPorts ∅ ∅).

Lemma twoTimers_schedules : exists w, schedules twoTimersQueue w.
Proof.
  unfold twoTimersQueue. set (l := [_; _; _]).
  destruct (schedules_push (idleQueue l) ∅ (REventable (TimerRef timerA)) 50 (idleQueue_schedules l)) as (q & E & Hq & Hd);
    [apply idleQueue_dom; left |].
  destruct (schedules_push q _ (REventable (TimerRef timerB)) 200 Hq) as (q' & E' & Hq' & _);
    [rewrite Hd; apply idleQueue_dom; right; left |].
  rewrite E. cbn [mbind option_bind]. rewrite E'. by eexists.
Qed.

#[local] Instance noDevices : PortEnv := {| portAddr _ := 0; clkAddr _ := 0; dev_seePinsChange _ _ _ := mret tt |}.
#[local] Instance noCompiler : Jit Ports := {| compileBlock _ _ := mret tt; runCompiled _ _ := undef |}.

Lemma noDevices_wellBehaved : wellBehaved (fun _ _ => mret None).
Proof. split; intros; [apply keeps_ret | apply keeps_ret | apply keeps_ret | apply keeps_undef]. Qed.

Lemma timeout_bounds_run_witness : exists s1, setTimeout 100 twoTimers = Some (s1, tt) /\
  snd <$> system_run [] 10 10 (fun _ _ => mret None) 5 s1 = Some (Some (TIMEOUT_STOP 100)) /\
  forall l s', runs [] 10 10 (fun _ _ => mret None) s1 l s' ->
    Forall (fun '(r, time) => time <= 100 /\ r <> timeoutRunnable) l /\ timed 100 (scheduler s').
Proof.
  destruct twoTimers_schedules as [w Hw].
  destruct (timeout_bounds_run [] 10 10 (fun _ _ => mret None) noDevices_wellBehaved 100 twoTimers w Hw) as (s1 & E & Hl & _).
  - by apply elem_of_dom; eexists; vm_compute.
  - exists s1. split; [exact E |]. split; [| exact Hl]. vm_compute in E. injection E as <-. vm_compute. reflexivity.
Defined.
