(* ===== verification/JitChecks.v ===== *)
(** * Memory checks of compiled code (lib/JITOptimize.cpp, lib/JIT.cpp)

    In compiled code a load or store does not check its address.  Instead the compiler places checks
    in front of the instructions of a fragment; an alignment check is left out when an earlier one
    implies it.  If a check fails the fragment is left and the instruction is interpreted. *)

From Stdlib Require Import ZArith Lia.
From stdpp Require Import base list numbers option.
From S2P Require Import Prelude Opcode InstrDecode DecodeCache Core MemoryAccess.
From S2P Require Import Refs StateMonad Thread SysState Events SysFacts Exec ResourceOps Execute DataExec.

#[local] Open Scope Z_scope.
#[local] Open Scope cbits_scope.

(** ** The accesses of instructions *)

(** lib/JITOptimize.cpp:20-58 MemoryAccess: [offsetReg] is not initialised by the constructor *)
Record MemoryAccess := mkAccess {
  baseReg : Z;
  offsetImm : Z;
  scale : Z;
  offsetReg : option Z;
  size : Z;
  isStore : bool
}.

(** lib/JITOptimize.cpp:30-37 MemoryAccess *)
Definition newAccess (base size : Z) (store : bool) : MemoryAccess := mkAccess base 0 0 None size store.
(** lib/JITOptimize.cpp:39-47 addRegisterOffset: the parameter [s] is not used *)
Definition addRegisterOffset (s r : Z) (a : MemoryAccess) : option MemoryAccess :=
  _ ← assert (scale a =? 0);
  Some (if (scale a =? 1) && (r <? baseReg a) then mkAccess r (offsetImm a) (scale a) (Some (baseReg a)) (size a) (isStore a)
        else mkAccess (baseReg a) (offsetImm a) (scale a) (Some r) (size a) (isStore a)).
(** lib/JITOptimize.cpp:48-51 addImmOffset *)
Definition addImmOffset (v : Z) (a : MemoryAccess) : MemoryAccess :=
  mkAccess (baseReg a) (u32 (offsetImm a + v)) (scale a) (offsetReg a) (size a) (isStore a).
(** lib/JITOptimize.cpp:54-54 getOffsetReg *)
Definition getOffsetReg (a : MemoryAccess) : Z := baseReg a.

(** lib/JITOptimize.cpp:74-166 getInstructionMemoryAccess: [None] for the opcodes that are not expected, [Some None] for an instruction that does not access memory *)
Definition getInstructionMemoryAccess (opc : InstructionOpcode) (ops : Operands) : option (option MemoryAccess) :=
  let imm r n store v := Some (Some (addImmOffset v (newAccess (reg_index r) n store))) in
  let reg n store := a ← addRegisterOffset n (OP 2 ops) (newAccess (OP 1 ops) n store); Some (Some a) in
  match opc with
  | LDWCP_ru6 | LDWCP_lru6 => imm CP 4 false (OP 1 ops)
  | LDWCPL_u10 | LDWCPL_lu10 => imm CP 4 false (OP 0 ops)
  | STWDP_ru6 | STWDP_lru6 => imm DP 4 true (OP 1 ops)
  | LDWDP_ru6 | LDWDP_lru6 => imm DP 4 false (OP 1 ops)
  | STWSP_ru6 | STWSP_lru6 => imm SP 4 true (OP 1 ops)
  | LDWSP_ru6 | LDWSP_lru6 => imm SP 4 false (OP 1 ops)
  | STDSP_l2rus => imm SP 8 true (OP 1 ops .<< 3)
  | LDDSP_l2rus => imm SP 8 false (OP 1 ops .<< 3)
  | ST8_l3r => reg 1 true
  | LD8U_3r => reg 1 false
  | ST16_l3r => reg 2 true
  | LD16S_3r => reg 2 false
  | STW_l3r => reg 4 true
  | LDW_3r => reg 4 false
  | STW_2rus => Some (Some (addImmOffset (OP 2 ops) (newAccess (OP 1 ops) 4 true)))
  | LDW_2rus => Some (Some (addImmOffset (OP 2 ops) (newAccess (OP 1 ops) 4 false)))
  | STD_l4r => reg 8 true
  | LDD_l4r => reg 8 false
  | STD_l3rus => Some (Some (addImmOffset (OP 2 ops .<< 3) (newAccess (OP 1 ops) 8 true)))
  | LDD_l3rus => Some (Some (addImmOffset (OP 2 ops .<< 3) (newAccess (OP 1 ops) 8 false)))
  | ENTSP_u6 | ENTSP_lu6 => if OP 0 ops =? 0 then Some None else Some (Some (newAccess (reg_index SP) 4 true))
  | RETSP_u6 | RETSP_lu6 | RETSP_xs2a_u6 | RETSP_xs2a_lu6 =>
      if OP 0 ops =? 0 then Some None else imm SP 4 false (OP 0 ops)
  | _ => None
  end.

(** lib/InstructionProperties.h:41-43 memCheckHoistingOptEnabled: the instructions declared with [setEnableMemCheckOpt] *)
Definition memCheckHoistingOptEnabled (opc : InstructionOpcode) : bool :=
  match opc with
  | LDW_3r | LDW_2rus | LD16S_3r | LD8U_3r | STW_2rus | STW_l3r | ST16_l3r | ST8_l3r
  | LDD_l4r | LDD_l3rus | LDDSP_l2rus | STD_l3rus | STDSP_l2rus
  | LDWDP_ru6 | LDWDP_lru6 | LDWCP_ru6 | LDWCP_lru6 | LDWSP_ru6 | LDWSP_lru6
  | STWDP_ru6 | STWDP_lru6 | STWSP_ru6 | STWSP_lru6
  | ENTSP_u6 | ENTSP_lu6 | DUALENTSP_u6 | DUALENTSP_lu6
  | RETSP_u6 | RETSP_lu6 | RETSP_xs2a_u6 | RETSP_xs2a_lu6 | LDWCPL_u10 | LDWCPL_lu10 => true
  | _ => false
  end.

(** ** The registers an instruction defines *)

(** utils/instgen/InstructionGen.cpp:1407-1453 emitInstPropertiesArrays: the operands of an instruction without the status register *)
Definition implicitOperands (o : InstructionOpcode) : list (Reg * OpType) :=
  match declaration (P := unit) o with
  | Some d => omap (fun '(r, k) => match r with Fixed r => Some (r, k) | SR => None end) (implicitOps d)
  | None => []
  end.
(** utils/instgen/InstructionGen.cpp:1412-1435 emitInstPropertiesArrays: the types of the operands *)
Definition operandTypes (o : InstructionOpcode) : list OpType := explicit_ops o ++ (implicitOperands o).*2.

(** lib/JITOptimize.cpp:168-171 isDef *)
Definition isDef (k : OpType) : bool := match k with out | inout => true | _ => false end.

(** lib/JITOptimize.cpp:173-180 getRegister *)
Definition getRegister (o : InstructionOpcode) (ops : Operands) (i : nat) : option Z :=
  if bool_decide (length (explicit_ops o) <= i)%nat
  then (fun r => reg_index r.1) <$> implicitOperands o !! (i - length (explicit_ops o))%nat
  else Some (OP i ops).

(** The registers of the operands that are written. *)
Definition defined (o : InstructionOpcode) (ops : Operands) : list Z :=
  omap (fun '(i, k) => if isDef k then getRegister o ops i else None) (imap pair (operandTypes o)).

(** ** Placing the checks *)

(** lib/JITOptimize.h:18-49 MemoryCheck *)
Record MemoryCheck := mkCheck {
  mc_size : Z;
  mc_baseReg : Z;
  mc_scale : Z;
  mc_offsetReg : Z;
  mc_offsetImm : Z;
  mc_flags : Z
}.
(** lib/JITOptimize.h:20-24 MemoryCheck::Type *)
Definition CheckAlignment : Z := 1.
Definition CheckAddress : Z := 2.
Definition CheckInvalidation : Z := 4.

(** lib/JITOptimize.cpp:60-72 MemoryCheckCandidate *)
Record MemoryCheckCandidate := mkCandidate { earliestIndex : Z; instructionIndex : Z; cand_check : MemoryCheck }.

(** lib/JITOptimize.cpp:182-192 getFlagsForCheck *)
Definition getFlagsForCheck (a : MemoryAccess) : Z :=
  let flags := 0 in
  let flags := if 1 <? size a then flags .| CheckAlignment else flags in
  let flags := flags .| CheckAddress in
  if isStore a then flags .| CheckInvalidation else flags.

(** lib/JITOptimize.cpp:194-213 MemoryCheckState *)
Record MemoryCheckState := mkCheckState { regDefs : list Z; minAlignment : list Z }.
(** lib/JITOptimize.cpp:200-203 MemoryCheckState *)
Definition newCheckState : MemoryCheckState := mkCheckState (replicate 23 0) (replicate 23 1).
(** lib/JITOptimize.cpp:207-209 setMinAlignment *)
Definition setMinAlignment (reg v : Z) (s : MemoryCheckState) : option MemoryCheckState :=
  l ← array_set (minAlignment s) reg (u8 v); Some (mkCheckState (regDefs s) l).

(** lib/JITOptimize.cpp:215-226 MemoryCheckState::update *)
Definition update_one (nextOffset : Z) (s : option MemoryCheckState) (reg : Z) : option MemoryCheckState :=
  s ← s;
  d ← array_set (regDefs s) reg nextOffset; l ← array_set (minAlignment s) reg 1; Some (mkCheckState d l).
Definition update (opc : InstructionOpcode) (ops : Operands) (nextOffset : Z) (s : MemoryCheckState) : option MemoryCheckState :=
  foldl (update_one nextOffset) (Some s) (defined opc ops).

(** lib/JITOptimize.cpp:242-273 placeMemoryChecks: the check of one access, and the state after it *)
Definition checkAccess (i : Z) (a : MemoryAccess) (s : MemoryCheckState) : option (MemoryCheckCandidate * MemoryCheckState) :=
  if size a =? 0 then None
  else
    _ ← assert (offsetImm a mod size a =? 0);
    first ← array_get (regDefs s) (baseReg a);
    first ← (if scale a =? 0 then Some first else o ← array_get (regDefs s) (getOffsetReg a); Some (Z.min first o));
    let flags := getFlagsForCheck a in
    '(flags, updateBaseRegAlign) ←
      (if flags .& CheckAlignment =? 0 then Some (flags, false)
       else
         _ ← assert ((scale a =? 0) || (scale a mod size a =? 0));
         m ← array_get (minAlignment s) (baseReg a);
         Some (if m mod size a =? 0 then (flags .& u32 (Z.lnot CheckAlignment), false) else (flags, true)));
    s ← (if updateBaseRegAlign : bool then setMinAlignment (baseReg a) (size a) s else Some s);
    Some (mkCandidate first i (mkCheck (size a) (baseReg a) (scale a) (getOffsetReg a) (offsetImm a) flags), s).

(** lib/JITOptimize.cpp:236-274 placeMemoryChecks: the loop over the instructions *)
Fixpoint gather (i : Z) (fragment : list (InstructionOpcode * Operands)) (s : MemoryCheckState) : option (list MemoryCheckCandidate) :=
  match fragment with
  | [] => Some []
  | (opc, ops) :: fragment =>
      access ← (if memCheckHoistingOptEnabled opc then getInstructionMemoryAccess opc ops else Some None);
      '(found, s) ← match access with
                    | Some a => '(c, s) ← checkAccess i a s; Some ([c], s)
                    | None => Some ([], s)
                    end;
      s ← update opc ops (i + 1) s;
      rest ← gather (i + 1) fragment s;
      Some (found ++ rest)
  end.

(** lib/JITOptimize.cpp:228-281 placeMemoryChecks *)
Definition placeMemoryChecks (fragment : list (InstructionOpcode * Operands)) : option (list (Z * MemoryCheck)) :=
  candidates ← gather 0 fragment newCheckState;
  Some (map (fun c => (instructionIndex c, cand_check c)) candidates).

(** ** What a check does *)

(** lib/InstructionDefinitions.cpp:43-52 jitComputeAddress *)
Definition jitComputeAddress (regs : list Z) (base scale offset immOffset : Z) : option Z :=
  b ← array_get regs base;
  address ← (if scale =? 0 then Some b else o ← array_get regs offset; Some (u32 (b + scale * o)));
  Some (u32 (address + immOffset)).

(** lib/JIT.cpp:821-836 JITImpl::getJitInvalidateFunction *)
Definition jitInvalidateCheck (size : Z) (c : Core) (address : Z) : option bool :=
  if size =? 1 then invalidateByteCheck c address
  else if size =? 2 then invalidateShortCheck c address
  else if size =? 4 then invalidateWordCheck c address
  else if size =? 8 then invalidateDoubleCheck c address
  else None.

(** lib/JIT.cpp:753-819 JITImpl::emitMemoryChecks: whether the code emitted for a check goes on, in a thread with these registers *)
Definition checkPasses (c : Core) (regs : list Z) (k : MemoryCheck) : option bool :=
  address ← jitComputeAddress regs (mc_baseReg k) (mc_scale k) (mc_offsetReg k) (mc_offsetImm k);
  if negb (mc_flags k .& CheckAlignment =? 0) && (1 <? mc_size k) && negb (address mod mc_size k =? 0) then Some false
  else if negb (mc_flags k .& CheckAddress =? 0) && negb (isValidRamAddress c address) then Some false
  else if negb (mc_flags k .& CheckInvalidation =? 0) then b ← jitInvalidateCheck (mc_size k) c address; Some (negb b)
  else Some true.

(** ** The addresses *)

(** The addresses the code of the instructions computes (see their declarations), with the kind of access. *)
Definition accesses (o : InstructionOpcode) (ops : Operands) (regs : list Z) : list (LoadStoreType * Z) :=
  let r n := nth (Z.to_nat n) regs 0 in
  let double a := [(WORD, u32 a); (WORD, u32 (u32 a + 4))] in
  match o with
  | LDWCP_ru6 | LDWCP_lru6 => [(WORD, u32 (r (reg_index CP) + OP 1 ops))]
  | LDWCPL_u10 | LDWCPL_lu10 => [(WORD, u32 (r (reg_index CP) + OP 0 ops))]
  | STWDP_ru6 | STWDP_lru6 | LDWDP_ru6 | LDWDP_lru6 => [(WORD, u32 (r (reg_index DP) + OP 1 ops))]
  | STWSP_ru6 | STWSP_lru6 | LDWSP_ru6 | LDWSP_lru6 => [(WORD, u32 (r (reg_index SP) + OP 1 ops))]
  | STDSP_l2rus | LDDSP_l2rus => double (r (reg_index SP) + (OP 2 ops .<< 3))
  | ST8_l3r | LD8U_3r => [(BYTE, u32 (r (OP 1 ops) + r (OP 2 ops)))]
  | ST16_l3r | LD16S_3r => [(SHORT, u32 (r (OP 1 ops) + (r (OP 2 ops) .<< 1)))]
  | STW_l3r | LDW_3r => [(WORD, u32 (r (OP 1 ops) + (r (OP 2 ops) .<< 2)))]
  | STW_2rus | LDW_2rus => [(WORD, u32 (r (OP 1 ops) + OP 2 ops))]
  | STD_l4r | LDD_l4r => double (r (OP 1 ops) + (r (OP 2 ops) .<< 3))
  | STD_l3rus | LDD_l3rus => double (r (OP 1 ops) + (OP 2 ops .<< 3))
  | ENTSP_u6 | ENTSP_lu6 => if OP 0 ops =? 0 then [] else [(WORD, r (reg_index SP))]
  | RETSP_u6 | RETSP_lu6 | RETSP_xs2a_u6 | RETSP_xs2a_lu6 =>
      if OP 0 ops =? 0 then [] else [(WORD, u32 (r (reg_index SP) + OP 0 ops))]
  | _ => []
  end.

(** The instructions that access memory at an immediate offset from a register, all of them. *)
Definition immediateOffset (o : InstructionOpcode) : bool :=
  match o with
  | LDWCP_ru6 | LDWCP_lru6 | LDWCPL_u10 | LDWCPL_lu10 | STWDP_ru6 | STWDP_lru6 | LDWDP_ru6 | LDWDP_lru6
  | STWSP_ru6 | STWSP_lru6 | LDWSP_ru6 | LDWSP_lru6 | STW_2rus | LDW_2rus | STD_l3rus | LDD_l3rus | STDSP_l2rus | LDDSP_l2rus
  | ENTSP_u6 | ENTSP_lu6 | RETSP_u6 | RETSP_lu6 | RETSP_xs2a_u6 | RETSP_xs2a_lu6 => true
  | _ => false
  end.

(** The addresses that the checks of the compiler are for: those of the access, except that for LDDSP and STDSP the number of the
    second register is taken for the offset. *)
Definition guardedAccesses (o : InstructionOpcode) (ops : Operands) (regs : list Z) : list (LoadStoreType * Z) :=
  match o with
  | STDSP_l2rus | LDDSP_l2rus =>
      let a := u32 (nth (Z.to_nat (reg_index SP)) regs 0 + (OP 1 ops .<< 3)) in [(WORD, a); (WORD, u32 (a + 4))]
  | _ => accesses o ops regs
  end.

(** ** The invariant of the placement *)

(** A register is a multiple of the alignment noted for it. *)
Definition aligned (l : list Z) (regs : list Z) : Prop := forall k m v, array_get l k = Some m -> array_get regs k = Some v ->
  m ∈ [1; 2; 4; 8] /\ v mod m = 0.

Lemma newCheckState_aligned regs : aligned (minAlignment newCheckState) regs.
Proof.
  intros k m v Hm _. unfold array_get in Hm. destruct (0 <=? k); [| done].
  apply lookup_replicate in Hm as [-> _]. split; [left | apply Z.mod_1_r].
Qed.

Lemma update_minAlignment n l : forall s s', foldl (update_one n) (Some s) l = Some s' ->
  forall k m, array_get (minAlignment s') k = Some m -> ((k ∈ l) /\ m = 1) \/ ((k ∉ l) /\ array_get (minAlignment s) k = Some m).
Proof.
  assert (forall l, foldl (update_one n) None l = None) as Hnone by (intros l'; induction l'; done).
  induction l as [|r l IH]; intros s s' E k m Hm; cbn in E; [injection E as <-; right; split; [apply not_elem_of_nil | done] |].
  destruct (array_set (regDefs s) r n) as [d|]; cbn in E; [| by rewrite Hnone in E].
  destruct (array_set (minAlignment s) r 1) as [a|] eqn:Ea; cbn in E; [| by rewrite Hnone in E].
  destruct (IH _ _ E k m Hm) as [[? ->]|[Hk Hm']]; [left; split; [by right | done] |]. cbn in Hm'.
  destruct (decide (k = r)) as [->|Hne].
  - left. split; [left |]. rewrite (array_set_get _ _ _ _ Ea) in Hm'. congruence.
  - right. split; [rewrite elem_of_cons; tauto |]. by rewrite (array_set_get_ne _ _ _ _ _ Ea) in Hm'.
Qed.

Lemma update_aligned o ops n s s' regs regs' : update o ops n s = Some s' -> aligned (minAlignment s) regs ->
  (forall k, k ∉ defined o ops -> array_get regs' k = array_get regs k) -> aligned (minAlignment s') regs'.
Proof.
  intros E Ha Hr k m v Hm Hv. destruct (update_minAlignment _ _ _ _ E k m Hm) as [[_ ->]|[Hk Hm']].
  - split; [left | apply Z.mod_1_r].
  - rewrite (Hr k Hk) in Hv. by eapply Ha.
Qed.

Lemma size_divides n : n ∈ [1; 2; 4; 8] -> (n | 2 ^ 32).
Proof. rewrite !elem_of_cons, elem_of_nil. intros [->|[->|[->|[->|[]]]]]; [exists (2^32) | exists (2^31) | exists (2^30) | exists (2^29)]; done. Qed.
Lemma u32_mod n x : n ∈ [1; 2; 4; 8] -> u32 x mod n = x mod n.
Proof.
  intros Hn. destruct (size_divides n Hn) as [q Hq]. unfold wrap. rewrite Hq, (Z.mul_comm q).
  assert (0 < n) by (rewrite !elem_of_cons, elem_of_nil in Hn; lia). assert (q <> 0) by lia.
  rewrite Z.rem_mul_r by lia. rewrite Z.add_mod, Z.mul_comm, Z.mod_mul, Z.add_0_r, !Z.mod_mod by lia. done.
Qed.
Lemma mod_divides n m v : n ∈ [1; 2; 4; 8] -> m ∈ [1; 2; 4; 8] -> m mod n = 0 -> v mod m = 0 -> v mod n = 0.
Proof.
  intros Hn Hm. rewrite !elem_of_cons, elem_of_nil in Hn, Hm. intros [q ->]%Z.mod_divide [p ->]%Z.mod_divide; try lia.
  rewrite Z.mul_assoc. apply Z.mod_mul. lia.
Qed.

(** The three ways to check an access. *)
Lemma checkAccess_cases i a s k s' : checkAccess i a s = Some (k, s') -> size a ∈ [1; 2; 4; 8] -> scale a = 0 ->
  exists flags, cand_check k = mkCheck (size a) (baseReg a) 0 (baseReg a) (offsetImm a) flags /\ instructionIndex k = i /\
    (flags .& CheckAddress =? 0) = false /\ offsetImm a mod size a = 0 /\
    ((size a = 1 /\ s' = s) \/
     (exists m, array_get (minAlignment s) (baseReg a) = Some m /\ m mod size a = 0 /\ s' = s) \/
     ((flags .& CheckAlignment =? 0) = false /\ 1 < size a /\ setMinAlignment (baseReg a) (size a) s = Some s')).
Proof.
  destruct a as [b0 im sc off sz st]. cbn [baseReg offsetImm scale size]. intros E Hs ->. rewrite !elem_of_cons, elem_of_nil in Hs.
  unfold checkAccess in E. cbn [baseReg offsetImm scale offsetReg size isStore getOffsetReg] in E.
  rewrite (proj2 (Z.eqb_neq sz 0)) in E by lia.
  destruct (Z.eqb_spec (im mod sz) 0) as [Hi|]; [cbn [assert mbind option_bind] in E | done].
  destruct (array_get (regDefs s) b0) as [first|]; [cbn [mbind option_bind Z.eqb] in E | done].
  destruct Hs as [->|Hs].
  - destruct st; cbn in E; injection E as <- <-; eexists; (split; [done |]); (split; [done |]); (split; [done |]); (split; [done |]); by left.
  - assert (1 < sz) as H1 by lia. unfold getFlagsForCheck in E. cbn [size isStore] in E. rewrite (proj2 (Z.ltb_lt _ _) H1) in E.
    destruct (array_get (minAlignment s) b0) as [m|] eqn:Em; [| by destruct st].
    destruct (Z.eqb_spec (m mod sz) 0) as [Hm|Hm].
    + destruct st; cbn -[Z.modulo] in E; rewrite (proj2 (Z.eqb_eq _ _) Hm) in E; injection E as <- <-;
        eexists; (split; [done |]); (split; [done |]); (split; [done |]); (split; [done |]); right; left; by exists m.
    + destruct (setMinAlignment b0 sz s) as [s1|] eqn:Es; destruct st; cbn -[setMinAlignment Z.modulo] in E;
        rewrite (proj2 (Z.eqb_neq _ _) Hm) in E; try discriminate E; injection E as <- <-;
        eexists; (split; [done |]); (split; [done |]); (split; [done |]); (split; [done |]); right; right; done.
Qed.

(** An access whose check passes is aligned and in the RAM, and the alignments noted stay true. *)
Lemma checkAccess_sound i a s k s' c regs : checkAccess i a s = Some (k, s') -> aligned (minAlignment s) regs ->
  size a ∈ [1; 2; 4; 8] -> scale a = 0 -> checkPasses c regs (cand_check k) = Some true ->
  instructionIndex k = i /\ aligned (minAlignment s') regs /\
  exists b, array_get regs (baseReg a) = Some b /\ u32 (b + offsetImm a) mod size a = 0 /\ isValidRamAddress c (u32 (b + offsetImm a)) = true.
Proof.
  intros E Ha Hs Hsc Hp. destruct (checkAccess_cases _ _ _ _ _ E Hs Hsc) as (flags & Hk & Hix & Hf & Hi & Hcase). rewrite Hk in Hp.
  unfold checkPasses, jitComputeAddress in Hp. cbn [mc_baseReg mc_scale mc_offsetReg mc_offsetImm mc_size mc_flags Z.eqb] in Hp.
  destruct (array_get regs (baseReg a)) as [b|] eqn:Eb; [cbn [mbind option_bind] in Hp | done].
  set (addr := u32 (b + offsetImm a)) in *. assert (0 < size a) as Hpos by (rewrite !elem_of_cons, elem_of_nil in Hs; lia).
  assert (addr mod size a = b mod size a) as Hmod.
  { unfold addr. rewrite u32_mod by done. rewrite Z.add_mod, Hi, Z.add_0_r, Z.mod_mod by lia. done. }
  destruct (negb (flags .& CheckAlignment =? 0) && (1 <? size a) && negb (addr mod size a =? 0)) eqn:Eal; [done |].
  rewrite Hf in Hp. cbn [negb andb] in Hp. destruct (isValidRamAddress c addr) eqn:Ev; [| done]. split; [done |].
  assert (addr mod size a = 0 /\ aligned (minAlignment s') regs) as [Hz Ha'].
  { destruct Hcase as [[H1 ->]|[(m & Hm & Hd & ->)|(Hfl & H1 & Hset)]].
    - rewrite H1. split; [apply Z.mod_1_r | done].
    - split; [| done]. destruct (Ha _ _ _ Hm Eb) as [Hml Hz]. rewrite Hmod. by eapply mod_divides.
    - rewrite Hfl, (proj2 (Z.ltb_lt _ _) H1) in Eal. cbn [negb andb] in Eal. apply negb_false_iff, Z.eqb_eq in Eal. split; [done |].
      unfold setMinAlignment in Hset. destruct (array_set _ _ _) as [l|] eqn:El; [injection Hset as <- | done]. cbn [minAlignment].
      intros j m v Hm Hv. destruct (decide (j = baseReg a)) as [->|Hne].
      + rewrite (array_set_get _ _ _ _ El) in Hm. injection Hm as <-. rewrite Eb in Hv. injection Hv as <-.
        replace (u8 (size a)) with (size a) by (rewrite !elem_of_cons, elem_of_nil in Hs; by destruct Hs as [->|[->|[->|[->|[]]]]]).
        split; [done | congruence].
      + rewrite (array_set_get_ne _ _ _ _ _ El Hne) in Hm. by eapply Ha. }
  split; [done |]. by exists b.
Qed.

(** The access found for an instruction is the one its code makes. *)
Lemma access_shape o ops a : getInstructionMemoryAccess o ops = Some (Some a) -> size a ∈ [1; 2; 4; 8] /\ scale a = 0.
Proof.
  intros E. destruct o; try discriminate E; cbn in E; try (destruct (OP 0 ops =? 0); [discriminate E |]);
    injection E as <-; (split; [| done]); cbn; repeat constructor; by repeat right.
Qed.

Lemma ram_word c a : a mod 4 = 0 -> isValidRamAddress c a = true -> CHECK_ADDR_RAM WORD c a = true.
Proof.
  intros Ha Hv. cbn. rewrite Hv, andb_true_r. apply Z.eqb_eq. change 3 with (Z.ones 2). rewrite Z.land_ones by lia. done.
Qed.
Lemma ram_double c a : 3 <= ramSizeLog2 c -> is_u32 a -> a mod 8 = 0 -> isValidRamAddress c a = true ->
  CHECK_ADDR_RAM WORD c a = true /\ CHECK_ADDR_RAM WORD c (u32 (a + 4)) = true.
Proof.
  intros Hr Hu Ha Hv. assert (a mod 4 = 0) as H4 by (apply (mod_divides 4 8); [by repeat constructor | by repeat constructor | done | done]).
  split; [by apply ram_word |]. unfold is_u32, fits in Hu.
  assert (u32 (a + 4) = a + 4) as -> by (unfold wrap; rewrite Z.mod_small; [done | ]; pose proof (Z.div_mod a 8); lia).
  apply ram_word; [rewrite Z.add_mod, H4 by lia; done |].
  assert ((a + 4) / 2 ^ ramSizeLog2 c = a / 2 ^ ramSizeLog2 c) as Hq.
  { replace (2 ^ ramSizeLog2 c) with (8 * 2 ^ (ramSizeLog2 c - 3)) by (rewrite <- (Z.pow_add_r 2 3) by lia; f_equal; lia).
    rewrite <- !Z.div_div by (try apply Z.pow_nonzero; lia). f_equal.
    pose proof (Z.div_mod a 8). pose proof (Z.div_mod (a + 4) 8). pose proof (Z.mod_pos_bound (a + 4) 8). lia. }
  unfold isValidRamAddress in *. rewrite Z.shiftr_div_pow2 in * by lia. by rewrite Hq.
Qed.

(** The registers as the instructions of a fragment find them: each changes no more than the registers
    it defines. *)
Record executes (fragment : list (InstructionOpcode * Operands)) (regs : nat -> list Z) : Prop := {
  ex_words : forall i, Forall is_u32 (regs i);
  ex_defined : forall i o ops k, fragment !! i = Some (o, ops) -> k ∉ defined o ops -> array_get (regs (S i)) k = array_get (regs i) k
}.

(** The accesses of an instruction pass the check that the interpreter makes. *)
Definition checked (c : Core) (regs : list Z) (o : InstructionOpcode) (ops : Operands) : Prop :=
  Forall (fun '(ty, a) => CHECK_ADDR_RAM ty c a = true) (accesses o ops regs).

(** The same for the addresses that are checked. *)
Definition guarded (c : Core) (regs : list Z) (o : InstructionOpcode) (ops : Operands) : Prop :=
  Forall (fun '(ty, a) => CHECK_ADDR_RAM ty c a = true) (guardedAccesses o ops regs).

Lemma nth_get regs k v : array_get regs k = Some v -> nth (Z.to_nat k) regs 0 = v.
Proof. unfold array_get. destruct (0 <=? k); [| done]. intros E. by apply nth_lookup_Some. Qed.

Lemma access_guarded c regs o ops a b : 3 <= ramSizeLog2 c -> Forall is_u32 regs -> immediateOffset o = true ->
  getInstructionMemoryAccess o ops = Some (Some a) -> array_get regs (baseReg a) = Some b ->
  u32 (b + offsetImm a) mod size a = 0 -> isValidRamAddress c (u32 (b + offsetImm a)) = true -> guarded c regs o ops.
Proof.
  intros Hr Hw Hi E Hb Hm Hv.
  assert (forall x, u32 (b + u32 (0 + x)) = u32 (b + x)) as Hx by (intros x; unfold wrap; rewrite Z.add_0_l, Z.add_mod_idemp_r; done).
  assert (is_u32 b) as Hub by (eapply array_get_Forall; [exact Hw | exact Hb]).
  assert (forall x, is_u32 (u32 x)) as Hu by (intros x; apply Z.mod_pos_bound; lia).
  unfold guarded. destruct o; try discriminate Hi; try discriminate E; cbn in E; try (destruct (OP 0 ops =? 0) eqn:E0; [discriminate E |]);
    injection E as <-; cbn [baseReg offsetImm size newAccess addImmOffset] in *; rewrite ?Hx in *; cbn [guardedAccesses accesses reg_index]; rewrite ?E0;
    rewrite (nth_get _ _ _ Hb).
  all: try (by constructor; [apply ram_word | constructor]).
  all: try (destruct (ram_double c _ Hr (Hu (b + (OP 2 ops .<< 3))) Hm Hv); by repeat constructor).
  all: try (destruct (ram_double c _ Hr (Hu (b + (OP 1 ops .<< 3))) Hm Hv); by repeat constructor).
  all: rewrite Z.add_0_r, wrap_small in Hm, Hv by done; by constructor; [apply ram_word | constructor].
Qed.

(** Every check placed for a fragment passes when its instruction is reached. *)
Definition allPass (checks : list (Z * MemoryCheck)) (cores : nat -> Core) (regs : nat -> list Z) : Prop :=
  forall i k, (Z.of_nat i, k) ∈ checks -> checkPasses (cores i) (regs i) k = Some true.

Section sound.
Context (cores : nat -> Core) (regs : nat -> list Z) (Hram : forall i, 3 <= ramSizeLog2 (cores i)) (Hregs : forall i, Forall is_u32 (regs i)).

(** One instruction. *)
Definition find (i : Z) (o : InstructionOpcode) (ops : Operands) (s : MemoryCheckState) : option (list MemoryCheckCandidate * MemoryCheckState) :=
  access ← (if memCheckHoistingOptEnabled o then getInstructionMemoryAccess o ops else Some None);
  match access with Some a => '(c, s) ← checkAccess i a s; Some ([c], s) | None => Some ([], s) end.

Lemma no_access_guarded o ops c r : getInstructionMemoryAccess o ops = Some None -> guarded c r o ops.
Proof. intros E. unfold guarded. destruct o; try discriminate E; cbn in E |- *; destruct (OP 0 ops =? 0); try discriminate E; constructor. Qed.

Lemma find_sound i o ops s found s1 : find (Z.of_nat i) o ops s = Some (found, s1) -> aligned (minAlignment s) (regs i) ->
  (forall k, k ∈ found -> instructionIndex k = Z.of_nat i -> checkPasses (cores i) (regs i) (cand_check k) = Some true) ->
  aligned (minAlignment s1) (regs i) /\ (memCheckHoistingOptEnabled o = true -> immediateOffset o = true -> guarded (cores i) (regs i) o ops).
Proof using Hram Hregs.
  intros E Ha Hp. unfold find in E. destruct (memCheckHoistingOptEnabled o); [| cbn in E; injection E as <- <-; by split].
  destruct (getInstructionMemoryAccess o ops) as [[a|]|] eqn:Eacc; cbn [mbind option_bind] in E; [| injection E as <- <- | done].
  - destruct (checkAccess (Z.of_nat i) a s) as [[k s2]|] eqn:Ek; [| done]. cbn in E. injection E as <- <-.
    destruct (access_shape o ops a Eacc) as [Hsz Hsc]. destruct (checkAccess_cases _ _ _ _ _ Ek Hsz Hsc) as (_ & _ & Hix & _).
    assert (checkPasses (cores i) (regs i) (cand_check k) = Some true) as Hpass by (apply Hp; [left | done]).
    destruct (checkAccess_sound _ _ _ _ _ _ _ Ek Ha Hsz Hsc Hpass) as (_ & Ha' & b & Hb & Hm & Hv).
    split; [done |]. intros _ Hi. by eapply access_guarded.
  - split; [done |]. intros _ _. by apply no_access_guarded.
Qed.

Lemma gather_cons i o ops fragment s l : gather i ((o, ops) :: fragment) s = Some l ->
  exists found s1 s2 rest, find i o ops s = Some (found, s1) /\ update o ops (i + 1) s1 = Some s2 /\
    gather (i + 1) fragment s2 = Some rest /\ l = found ++ rest.
Proof.
  intros E. cbn [gather] in E. unfold find.
  destruct (if memCheckHoistingOptEnabled o then getInstructionMemoryAccess o ops else Some None) as [access|]; [cbn [mbind option_bind] in * | done].
  destruct (match access with Some _ => _ | None => _ end) as [[found s1]|]; [cbn [mbind option_bind] in E | done].
  destruct (update o ops (i + 1) s1) as [s2|] eqn:Eu; [cbn [mbind option_bind] in E | done].
  destruct (gather (i + 1) fragment s2) as [rest|] eqn:Eg; [cbn in E; injection E as <- | done]. by exists found, s1, s2, rest.
Qed.

Lemma gather_sound fragment : forall i s l, gather (Z.of_nat i) fragment s = Some l -> aligned (minAlignment s) (regs i) ->
  (forall j o ops k, fragment !! j = Some (o, ops) -> k ∉ defined o ops -> array_get (regs (S (i + j))) k = array_get (regs (i + j)%nat) k) ->
  (forall j k, k ∈ l -> instructionIndex k = Z.of_nat j -> checkPasses (cores j) (regs j) (cand_check k) = Some true) ->
  forall j o ops, fragment !! j = Some (o, ops) -> memCheckHoistingOptEnabled o = true -> immediateOffset o = true ->
  guarded (cores (i + j)%nat) (regs (i + j)%nat) o ops.
Proof using Hram Hregs.
  induction fragment as [|[o ops] fragment IH]; intros i s l E Ha Hd Hp j o' ops' Hj Hm Hi; [done |].
  destruct (gather_cons _ _ _ _ _ _ E) as (found & s1 & s2 & rest & Ef & Eu & Eg & ->).
  destruct (find_sound i o ops s found s1 Ef Ha) as [Ha1 Hc]; [intros k Hk Hix; by apply Hp; [apply elem_of_app; left |] |].
  destruct j as [|j]; [cbn in Hj; injection Hj as <- <-; rewrite Nat.add_0_r; by apply Hc |].
  replace (Z.of_nat i + 1) with (Z.of_nat (S i)) in Eg by lia. replace (i + S j)%nat with (S i + j)%nat by lia.
  eapply (IH (S i) s2 rest Eg); [| | | exact Hj | done | done].
  - eapply update_aligned; [exact Eu | exact Ha1 |]. intros k Hk. pose proof (Hd 0%nat o ops k eq_refl Hk) as H0. by rewrite Nat.add_0_r in H0.
  - intros j' o1 ops1 k Hj' Hk. replace (S i + j')%nat with (i + S j')%nat by lia. by apply (Hd (S j') o1 ops1).
  - intros j' k Hk Hix. apply Hp; [apply elem_of_app; by right | done].
Qed.
End sound.

(** C37: The checks placed for a fragment are enough for the accesses with an immediate offset, LDDSP and STDSP excepted: if each
    check passes when its instruction is reached, with registers that the instructions before have changed
    only as declared, then every such access passes the check the interpreter would make (in the RAM
    and aligned, for both words of a double), although alignment checks that earlier ones imply
    were left out.  For LDDSP and STDSP the compiler takes the number of the second register for the offset: what is checked are the
    two words at the stack pointer plus eight times that number, not the ones accessed, which may be outside the RAM
    ([doubleword_check_wrong]). *)
Theorem memory_checks_sound fragment checks cores regs : placeMemoryChecks fragment = Some checks ->
  (forall i, 3 <= ramSizeLog2 (cores i)) -> executes fragment regs -> allPass checks cores regs ->
  forall i o ops, fragment !! i = Some (o, ops) -> memCheckHoistingOptEnabled o = true -> immediateOffset o = true ->
  (o <> LDDSP_l2rus -> o <> STDSP_l2rus -> checked (cores i) (regs i) o ops) /\
  (o = LDDSP_l2rus \/ o = STDSP_l2rus ->
     let a := u32 (nth (Z.to_nat (reg_index SP)) (regs i) 0 + (OP 1 ops .<< 3)) in
     CHECK_ADDR_RAM WORD (cores i) a = true /\ CHECK_ADDR_RAM WORD (cores i) (u32 (a + 4)) = true).
Proof.
  intros E Hram [Hw Hd] Hp i o ops Hi Ho Him. unfold placeMemoryChecks in E. destruct (gather 0 fragment newCheckState) as [l|] eqn:Eg; [| done].
  cbn in E. injection E as <-.
  assert (guarded (cores i) (regs i) o ops) as G.
  { apply (gather_sound cores regs Hram Hw fragment 0 newCheckState l Eg (newCheckState_aligned _) Hd); try done.
    intros j k Hk Hix. apply Hp. rewrite <- Hix. apply list_elem_of_fmap. by exists k. }
  split.
  - intros N1 N2. unfold guarded in G. by destruct o.
  - intros [-> | ->]; inversion_clear G as [|? ? G1 G2]; inversion_clear G2 as [|? ? G3 _]; done.
Qed.

Definition exampleRegs : list Z := replicate 14 0 ++ [0x100] ++ replicate 8 0.
Lemma memory_checks_sound_witness :
  let fragment := [(LDWSP_ru6, [0; 4]); (LDWSP_ru6, [1; 8])] in
  placeMemoryChecks fragment = Some [(0, mkCheck 4 14 0 14 4 (CheckAlignment .| CheckAddress)); (1, mkCheck 4 14 0 14 8 CheckAddress)] /\
  checked (exampleCore []) exampleRegs LDWSP_ru6 [1; 8].
Proof.
  split; [reflexivity |].
  refine (proj1 (memory_checks_sound [(LDWSP_ru6, [0; 4]); (LDWSP_ru6, [1; 8])]
    [(0, mkCheck 4 14 0 14 4 (CheckAlignment .| CheckAddress)); (1, mkCheck 4 14 0 14 8 CheckAddress)] (fun _ => exampleCore []) (fun _ => exampleRegs) eq_refl _ _ _ 1%nat _ _ _ _ _) _ _).
  - intros _. cbn. lia.
  - split; [| done]. intros _. repeat constructor; cbn; lia.
  - intros i k Hk. rewrite !elem_of_cons, elem_of_nil in Hk. destruct Hk as [[= _ ->]|[[= _ ->]|[]]]; vm_compute; reflexivity.
  - reflexivity.
  - reflexivity.
  - reflexivity.
  - discriminate.
  - discriminate.
Defined.

(** The checks placed for [ldd r1, r0, sp[2]] (and for the store) pass when the word pair at the stack pointer plus 8 is in the RAM; the
    instruction accesses the one at the stack pointer plus 16.  In a core with 16 bytes of RAM at 16 and the stack pointer 16 that is outside the RAM. *)
Lemma doubleword_check_wrong o : o = LDDSP_l2rus \/ o = STDSP_l2rus ->
  let regs := replicate 14 0 ++ [16] ++ replicate 8 0 in
  exists c checks, newCore (2 ^ 4) (2 ^ 4) false (fun _ => 0) 1 = Some c /\ placeMemoryChecks [(o, [0; 1; 2])] = Some checks /\ checks <> [] /\
    Forall (fun '(_, k) => checkPasses c regs k = Some true) checks /\ ~ checked c regs o [0; 1; 2].
Proof.
  intros [-> | ->]; eexists _, _; (split; [reflexivity |]; split; [reflexivity |]; split; [discriminate |]; split;
    [repeat constructor |]); intros H; inversion_clear H as [|? ? H1 _]; vm_compute in H1; discriminate H1.
Qed.

(** The checks do not look at the index register of an access with a register offset: when the base
    register is a word-aligned address in the RAM, the only check placed for a load word passes for every
    value of the index, so that the compiled load goes outside the RAM, unchecked, for an
    index that leads there. *)
Theorem memory_checks_ignore_index c regs b v : length regs = 23%nat -> array_get regs 1 = Some b -> is_u32 b -> b mod 4 = 0 ->
  isValidRamAddress c b = true ->
  exists checks, placeMemoryChecks [(LDW_3r, [0; 1; 2])] = Some checks /\
    Forall (fun '(_, k) => checkPasses c (<[2%nat := v]> regs) k = Some true) checks /\
    accesses LDW_3r [0; 1; 2] (<[2%nat := v]> regs) = [(WORD, u32 (b + (v .<< 2)))] /\
    (isValidRamAddress c (u32 (b + (v .<< 2))) = false -> ~ checked c (<[2%nat := v]> regs) LDW_3r [0; 1; 2]).
Proof.
  intros Hl Hb Hu Hm Hv. exists [(0, mkCheck 4 1 0 1 0 (CheckAlignment .| CheckAddress))]. split; [reflexivity |].
  assert (array_get (<[2%nat := v]> regs) 1 = Some b) as Hb' by (unfold array_get in *; cbn in *; by rewrite list_lookup_insert_ne).
  assert (accesses LDW_3r [0; 1; 2] (<[2%nat := v]> regs) = [(WORD, u32 (b + (v .<< 2)))]) as Ha.
  { cbn [accesses]. do 3 f_equal. change (OP 1 [0; 1; 2]) with 1. change (OP 2 [0; 1; 2]) with 2. rewrite (nth_get _ _ _ Hb').
    assert (array_get (<[2%nat := v]> regs) 2 = Some v) as Hv' by (unfold array_get; cbn; apply list_lookup_insert_eq; lia).
    by rewrite (nth_get _ _ _ Hv'). }
  split; [| split; [done |]].
  - constructor; [| constructor]. unfold checkPasses, jitComputeAddress. cbn [mc_baseReg mc_scale mc_offsetReg mc_offsetImm mc_size mc_flags Z.eqb].
    rewrite Hb'. cbn [mbind option_bind]. rewrite Z.add_0_r, wrap_small by done.
    rewrite Hm, Hv. done.
  - intros Hout Hc. unfold checked in Hc. rewrite Ha in Hc. inversion_clear Hc as [|? ? Hw _]. cbn in Hw. by rewrite Hout, andb_false_r in Hw.
Qed.
Lemma memory_checks_ignore_index_witness : exists checks, placeMemoryChecks [(LDW_3r, [0; 1; 2])] = Some checks /\
    Forall (fun '(_, k) => checkPasses (exampleCore []) (<[2%nat := 0x10000]> exampleRegs) k = Some true) checks /\
    ~ checked (exampleCore []) (<[2%nat := 0x10000]> exampleRegs) LDW_3r [0; 1; 2].
Proof.
  destruct (memory_checks_ignore_index (exampleCore []) exampleRegs 0 0x10000) as (checks & E & Hp & _ & Hn); try reflexivity.
  - split; [discriminate | reflexivity].
  - exists checks. split; [exact E |]. split; [exact Hp |]. apply Hn. reflexivity.
Defined.
