(* ===== verification/JitDriver.v ===== *)
(** * Compiled functions and the jumps between them (lib/JIT.cpp)

    The compiler turns fragments of a program into functions.  A function ends with jumps to the fragments that may follow, each
    through a pointer that leads to the function of that fragment, or to a stub that returns to the interpreter when
    there is none.  A function whose instructions are overwritten is only noted; it is deleted before the next block is
    compiled, since it may be running.  This file has the functions, the pointers and what is emitted for a fragment as data;
    what LLVM makes of it is not modelled. *)

From Stdlib Require Import ZArith Lia.
From stdpp Require Import base list numbers option gmap relations.
From S2P Require Import Prelude Opcode InstrDecode DecodeCache InstrTransform Core CoreFacts Coherence JitChecks.

#[local] Open Scope Z_scope.

(** ** Data *)

(** lib/JIT.cpp:720-751 JITImpl::getOrCreateMemoryCheckBailoutBlock: where a failed check leads: the instruction is interpreted, or the trace ends in front of it. *)
Inductive Bailout := InterpretOne | EndTrace.

(** What is emitted for a fragment: the checks, the calls of the functions of the instructions (with the pc of the next one, and whether the
    result is tested for an early return), the jumps to the fragments that follow (the last one when the pc is none of the others), and
    the return to the interpreter. *)
Inductive Emitted :=
  | EmitCheck (b : Bailout) (k : MemoryCheck)
  | EmitCall (opc : InstructionOpcode) (ops : Operands) (nextPc : Z) (earlyReturn : bool)
  | EmitJumps (targets : list Z)
  | EmitReturn.

(** lib/JIT.cpp:837-856 JITImpl::getFunctionThunk: a function of the module is the code of a fragment, with the constants it contains, or a thunk that calls one *)
Inductive Function :=
  | Code (pc ramBase ramSizeLog2 : Z) (code : list Emitted)
  | Thunk (f : Z).

(** lib/JIT.cpp:47-65 JITFunctionInfo: functions have numbers, which stand both for the function and for its machine code; the pointer has the number of a
    function, or none when it leads to the stub *)
Record JITFunctionInfo := mkInfo {
  fi_pc : Z;
  fi_ptr : option (option Z);
  fastFunc : option Z;
  func : option Z;
  fastFuncValue : option Z;
  funcValue : option Z
}.

(** lib/JIT.cpp:48-49 JITFunctionInfo::JITFunctionInfo *)
Definition newInfo (pc : Z) : JITFunctionInfo := mkInfo pc None None None None None.

(** lib/JIT.cpp:67-71 JITCoreInfo: with the functions of the module that exist; the list of functions that are unreachable is with the core *)
Record Jit := mkJit { infos : gmap Z JITFunctionInfo; funs : gmap Z Function; nextFun : Z }.

Section driver.
(** The table of properties that the generator of instructions makes: whether an instruction may branch, whether it has a function, and
    whether its function may return early. *)
Context (mayBranch hasFunction mayReturnEarly : InstructionOpcode -> bool) (type : NodeType).

(** ** Functions that are not needed any more *)

(** A function is deleted; a null pointer and a function that does not exist are undefined. *)
Definition deleteFunction (f : option Z) (m : gmap Z Function) : option (gmap Z Function) :=
  f ← f; _ ← m !! f; Some (delete f m).

(** lib/JIT.cpp:286-306 JITImpl::reclaimUnreachableFunctions: one address *)
Definition reclaimOne (addr : Z) (j : Jit) : option Jit :=
  match infos j !! addr with
  | None => Some j
  | Some info =>
      m ← deleteFunction (funcValue info) (funs j);
      m ← deleteFunction (fastFuncValue info) m;
      Some (mkJit (<[addr := mkInfo (fi_pc info) ((fun _ => None) <$> fi_ptr info) None None None None]> (infos j)) m (nextFun j))
  end.

(** lib/JIT.cpp:281-309 JITImpl::reclaimUnreachableFunctions *)
Definition reclaimUnreachableFunctions (l : list Z) (j : Jit) : option Jit := foldl (fun j addr => j ← j; reclaimOne addr j) (Some j) l.

(** ** Fragments *)

(** lib/JIT.cpp:271-279 getInstruction: [s] are the variables of the caller; [Some None] when the address is not in the RAM *)
Definition getInstruction (c : Core) (address : Z) (s : DecodeState) : option (option DecodeState) :=
  if negb (isValidRamPc c (toPc (ramDecodeCache c) address)) then Some None
  else s ← decodeFromCore type c address s false; Some (Some s).

(** lib/JIT.cpp:557-577 getFragmentToCompile: the loop; the result, the fragment, the end of the block and the next address *)
Fixpoint fragment_loop (fuel : nat) (c : Core) (address : Z) (s : DecodeState) (acc : list (InstructionOpcode * Operands))
    : option (bool * list (InstructionOpcode * Operands) * bool * Z) :=
  match fuel with
  | O => None
  | S fuel =>
      r ← getInstruction c address s;
      match r with
      | None => Some (negb (bool_decide (acc = [])), acc, true, address)
      | Some s =>
          opc ← d_opcode s;
          match opc with
          | DUALENTSP_u6 | DUALENTSP_lu6 => Some (false, acc, true, address)
          | _ =>
              let '(opc, ops) := instructionTransform opc (d_operands s) (ramDecodeCache c) address false in
              let next := u32 (address + instruction_size opc) in
              if negb (hasFunction opc) then Some (negb (bool_decide (acc = [])), acc, mayBranch opc, next)
              else if mayBranch opc then Some (true, acc ++ [(opc, ops)], true, next)
              else fragment_loop fuel c next (mkDecodeState (Some opc) ops (assertsOk s)) (acc ++ [(opc, ops)])
          end
      end
  end.

(** lib/JIT.cpp:541-578 getFragmentToCompile: with a step for each half-word of the RAM and one more; [s] are variables that are not initialised *)
Definition getFragmentToCompile (s : DecodeState) (c : Core) (startAddress : Z) :=
  fragment_loop (S (Z.to_nat (sizeShorts (ramDecodeCache c)))) c startAddress s [].

(** lib/JIT.cpp:381-418 getSuccessors: in the order of the set; [None] for false *)
Definition getSuccessors (opc : InstructionOpcode) (ops : Operands) (nextPc : Z) : option (list Z) :=
  let op n := default 0 (array_get ops n) in
  match opc with
  | BRFT_ru6 | BRFT_lru6 | BRBT_ru6 | BRBT_lru6 | BRFF_ru6 | BRFF_lru6 | BRBF_ru6 | BRBF_lru6 =>
      Some (if nextPc =? op 1 then [nextPc] else if nextPc <? op 1 then [nextPc; op 1] else [op 1; nextPc])
  | BRFU_u6 | BRFU_lu6 | BRBU_u6 | BRBU_lu6 | BLRF_u10 | BLRF_lu10 | BLRB_u10 | BLRB_lu10 => Some [op 0]
  | LDAPB_u10 | LDAPB_lu10 | LDAPF_u10 | LDAPF_lu10 => Some [nextPc]
  | _ => None
  end.

(** lib/JIT.cpp:463-483 JITImpl::getNextFragmentPointer *)
Definition getNextFragmentPointer (pc : Z) (m : gmap Z JITFunctionInfo) : gmap Z JITFunctionInfo :=
  let info := default (newInfo pc) (m !! pc) in
  let info := match fi_ptr info with
              | Some _ => info
              | None => mkInfo (fi_pc info) (Some (fastFunc info)) (fastFunc info) (func info) (fastFuncValue info) (funcValue info)
              end in
  <[pc := info]> m.

(** lib/JIT.cpp:507-539 JITImpl::emitJumpToNextFragment: the jumps to the successors, the first one last *)
Definition emitJumpToNextFragment (opc : InstructionOpcode) (ops : Operands) (nextPc : Z) (m : gmap Z JITFunctionInfo)
    : option (list Emitted * gmap Z JITFunctionInfo) :=
  match getSuccessors opc ops nextPc with
  | Some (first :: rest) =>
      let targets := rest ++ [first] in Some ([EmitJumps targets], foldl (fun m pc => getNextFragmentPointer pc m) m targets)
  | _ => None
  end.

(** lib/JIT.cpp:753-819 JITImpl::emitMemoryChecks: the checks at the front of the queue that are for this instruction *)
Fixpoint emitMemoryChecks (i : Z) (checks : list (Z * MemoryCheck)) : list Emitted * list (Z * MemoryCheck) :=
  match checks with
  | (k, check) :: rest =>
      if k =? i then let '(l, rest) := emitMemoryChecks i rest in (EmitCheck (if i =? 0 then InterpretOne else EndTrace) check :: l, rest)
      else ([], checks)
  | [] => ([], [])
  end.

(** lib/JIT.cpp:630-665 JITImpl::compileOneFragment: the loop over the instructions; the code, whether it needs a return, the checks that are left, the
    pc behind it and the infos *)
Fixpoint emitInstructions (i pc : Z) (l : list (InstructionOpcode * Operands)) (checks : list (Z * MemoryCheck)) (needsReturn : bool) (m : gmap Z JITFunctionInfo)
    : list Emitted * bool * list (Z * MemoryCheck) * Z * gmap Z JITFunctionInfo :=
  match l with
  | [] => ([], needsReturn, checks, pc, m)
  | (opc, ops) :: l =>
      let nextPc := u32 (pc + instruction_size opc / 2) in
      let '(k, checks) := emitMemoryChecks i checks in
      let '(jumps, needsReturn, m) :=
        if mayBranch opc && hasFunction opc then
          match emitJumpToNextFragment opc ops nextPc m with Some (jumps, m) => (jumps, false, m) | None => ([], needsReturn, m) end
        else ([], needsReturn, m) in
      let '(code, needsReturn, checks, pc, m) := emitInstructions (i + 1) nextPc l checks needsReturn m in
      (k ++ [EmitCall opc ops nextPc (mayReturnEarly opc)] ++ jumps ++ code, needsReturn, checks, pc, m)
  end.

(** The targets of the jumps of some code. *)
Definition jumpsOf (l : list Emitted) : list Z := l ≫= (fun e => match e with EmitJumps t => t | _ => [] end).

(** lib/JIT.cpp:585-710 JITImpl::compileOneFragment: the core, the functions, whether the block ends and the next pc *)
Definition compileOneFragment (s : DecodeState) (c : Core) (j : Jit) (startPc : Z) : option (Core * Jit * bool * Z) :=
  let info := infos j !! startPc in
  if bool_decide (is_Some (i ← info; fastFuncValue i)) then Some (c, j, true, startPc)
  else
    '(ok, fragment, endOfBlock, next) ← getFragmentToCompile s c (fromPc (ramDecodeCache c) startPc);
    if negb (ok : bool) then Some (c, j, endOfBlock, toPc (ramDecodeCache c) next)
    else
      checks ← placeMemoryChecks fragment;
      let m := <[startPc := match info with Some i => mkInfo (fi_pc i) (fi_ptr i) (fastFunc i) None (fastFuncValue i) (funcValue i) | None => newInfo startPc end]> (infos j) in
      let '(code, needsReturn, checks, pc, m) := emitInstructions 0 startPc fragment checks true m in
      _ ← assert (bool_decide (checks = []));
      let f := nextFun j in
      let t := nextFun j + 1 in
      info ← m !! startPc;
      let m := <[startPc := mkInfo (fi_pc info) ((fun _ => Some f) <$> fi_ptr info) (Some f) (Some t) (Some f) (Some t)]> m in
      let fs := <[t := Thunk f]> (<[f := Code startPc (getRamBase c) (ramSizeLog2 c) (code ++ if needsReturn : bool then [EmitReturn] else [])]> (funs j)) in
      c ← core_setOpcode startPc (JitFunction t) (u32 (pc - startPc) * 2) c;
      Some (c, mkJit m fs (nextFun j + 2), endOfBlock, next).

(** lib/JIT.cpp:375-378 JITImpl::compileBlock: the loop, for at most [n] fragments *)
Fixpoint compileBlock_loop (n : nat) (s : DecodeState) (c : Core) (j : Jit) (pc : Z) : option (Core * Jit) :=
  match n with
  | O => None
  | S n =>
      '(c, j, endOfBlock, next) ← compileOneFragment s c j pc;
      if endOfBlock : bool then Some (c, j) else compileBlock_loop n s c j next
  end.

(** lib/JIT.cpp:368-379 JITImpl::compileBlock: of a system with one core, with the map of functions that the core model has *)
Definition compileBlock (n : nat) (s : DecodeState) (c : Core) (j : Jit) (pc : Z) : option (Core * Jit) :=
  j ← reclaimUnreachableFunctions (unreachableFunctions c) j;
  '(c, j) ← compileBlock_loop n s (set_unreachableFunctions [] c) j pc;
  Some (set_functionMap (fi_pc <$> infos j) c, j).
End driver.

(** ** No jump leads to a function that has been deleted *)

(** The functions of an entry of the map exist and are its own; its pointer leads to its function, or to the stub when it has none. *)
Record info_ok (fs : gmap Z Function) (pc : Z) (i : JITFunctionInfo) : Prop := {
  io_pc : fi_pc i = pc;
  io_fast : fastFunc i = fastFuncValue i;
  io_func : func i = funcValue i;
  io_ptr : forall v, fi_ptr i = Some v -> v = fastFunc i;
  io_both : is_Some (fastFuncValue i) <-> is_Some (funcValue i);
  io_code : forall f, fastFuncValue i = Some f -> exists b l code, fs !! f = Some (Code pc b l code);
  io_thunk : forall t, funcValue i = Some t -> exists f, fastFuncValue i = Some f /\ fs !! t = Some (Thunk f)
}.

Record jit_ok (j : Jit) : Prop := {
  jo_infos : forall pc i, infos j !! pc = Some i -> info_ok (funs j) pc i;
  jo_jumps : forall f pc b l code, funs j !! f = Some (Code pc b l code) -> forall t, t ∈ jumpsOf code -> exists i, infos j !! t = Some i /\ is_Some (fi_ptr i);
  jo_fresh : forall f, is_Some (funs j !! f) -> f < nextFun j
}.

(** The compiled functions in the decode cache are those of the map, and none of them is to be deleted. *)
Definition entries_ok (c : Core) (j : Jit) : Prop :=
  forall pc t, entry c pc = Some (JitFunction t) -> exists i, infos j !! pc = Some i /\ func i = Some t /\ pc ∉ unreachableFunctions c.

(** Functions of different entries are different. *)
Lemma info_distinct fs pc i pc' i' : info_ok fs pc i -> info_ok fs pc' i' -> pc <> pc' ->
  (forall f, fastFuncValue i = Some f -> fastFuncValue i' <> Some f /\ funcValue i' <> Some f) /\
  (forall t, funcValue i = Some t -> fastFuncValue i' <> Some t /\ funcValue i' <> Some t).
Proof.
  intros [A1 A2 A3 A4 A5 A6 A7] [B1 B2 B3 B4 B5 B6 B7] Hne. split.
  - intros f Hf. destruct (A6 f Hf) as (b & l & code & E). split; intros Hf'.
    + destruct (B6 f Hf') as (? & ? & ? & E'). congruence.
    + destruct (B7 f Hf') as (? & _ & E'). congruence.
  - intros t Ht. destruct (A7 t Ht) as (f & Hf & E). split; intros Ht'.
    + destruct (B6 t Ht') as (? & ? & ? & E'). congruence.
    + destruct (B7 t Ht') as (f' & Hf' & E'). destruct (A6 f Hf) as (? & ? & ? & X). destruct (B6 f' Hf') as (? & ? & ? & X'). congruence.
Qed.

Lemma deleteFunction_spec f m m' : deleteFunction f m = Some m' -> exists g, f = Some g /\ m' = delete g m.
Proof. unfold deleteFunction. destruct f as [g|]; [| done]. cbn. destruct (m !! g); [| done]. cbn. intros [= <-]. by exists g. Qed.

Lemma reclaimOne_ok addr j j' : jit_ok j -> reclaimOne addr j = Some j' ->
  jit_ok j' /\ forall pc i, pc <> addr -> infos j !! pc = Some i -> infos j' !! pc = Some i.
Proof.
  intros [H1 H2 H3] E. unfold reclaimOne in E. destruct (infos j !! addr) as [info|] eqn:Ei; [| by simplify_eq].
  destruct (deleteFunction (funcValue info) (funs j)) as [m1|] eqn:D1; [| done]. cbn in E.
  destruct (deleteFunction (fastFuncValue info) m1) as [m2|] eqn:D2; [| done]. cbn in E. injection E as <-.
  apply deleteFunction_spec in D1 as (t & Et & ->). apply deleteFunction_spec in D2 as (f & Ef & ->). pose proof (H1 _ _ Ei) as Ok.
  split; [split; cbn [infos funs nextFun] | by intros pc i Hne Hi; cbn; rewrite lookup_insert_ne].
  - intros pc i Hi. destruct (decide (pc = addr)) as [->|Hne].
    + rewrite lookup_insert_eq in Hi. injection Hi as <-. split; cbn; try done; [apply Ok |].
      intros v Hv. destruct (fi_ptr info); [| done]. by injection Hv.
    + rewrite lookup_insert_ne in Hi by done. pose proof (H1 _ _ Hi) as Ok'. destruct (info_distinct _ _ _ _ _ Ok' Ok Hne) as [Nf Nt].
      destruct Ok' as [B1 B2 B3 B4 B5 B6 B7]. split; try done.
      * intros g Hg. destruct (Nf g Hg) as [X Y]. rewrite !lookup_delete_ne by congruence. by apply B6.
      * intros g Hg. destruct (Nt g Hg) as [X Y]. destruct (B7 g Hg) as (f' & Hf' & E'). exists f'. split; [done |]. by rewrite !lookup_delete_ne by congruence.
  - intros g pc b l code Hg u Hu. apply lookup_delete_Some in Hg as [_ Hg]. apply lookup_delete_Some in Hg as [_ Hg].
    destruct (H2 _ _ _ _ _ Hg u Hu) as (i & Hi & [v Hv]). destruct (decide (u = addr)) as [->|Hne].
    + rewrite lookup_insert_eq. simplify_eq. eexists. split; [done |]. cbn. rewrite Hv. by eexists.
    + rewrite lookup_insert_ne by done. by exists i.
  - intros g [x Hg]. apply lookup_delete_Some in Hg as [_ Hg]. apply lookup_delete_Some in Hg as [_ Hg]. apply H3. by eexists.
Qed.

Lemma reclaim_ok l : forall j j', jit_ok j -> reclaimUnreachableFunctions l j = Some j' ->
  jit_ok j' /\ forall pc i, pc ∉ l -> infos j !! pc = Some i -> infos j' !! pc = Some i.
Proof.
  unfold reclaimUnreachableFunctions. induction l as [|a l IH]; intros j j' Hj E; cbn in E; [by simplify_eq |].
  destruct (reclaimOne a j) as [j1|] eqn:E1.
  - destruct (reclaimOne_ok _ _ _ Hj E1) as [H1 K1]. destruct (IH _ _ H1 E) as [H2 K2]. split; [done |].
    intros pc i Hn Hi. apply not_elem_of_cons in Hn as [? ?]. by apply K2, K1.
  - exfalso. clear -E. induction l as [|b l IH]; [done | by apply IH].
Qed.

(** An address on the list whose entry has no function. *)
Lemma reclaim_uncompiled l pc i : forall j, jit_ok j -> infos j !! pc = Some i -> funcValue i = None -> pc ∈ l -> reclaimUnreachableFunctions l j = None.
Proof.
  assert (forall l, foldl (fun j addr => j ← j; reclaimOne addr j) None l = None) as Hnone by (intros k; induction k as [|b k IH]; [done | exact IH]).
  unfold reclaimUnreachableFunctions. induction l as [|a l IH]; intros j Hj Hi Hf Hin; [by apply elem_of_nil in Hin |]. cbn [foldl mbind option_bind].
  destruct (reclaimOne a j) as [j1|] eqn:E; [| apply Hnone]. destruct (decide (pc = a)) as [<-|Hne].
  - unfold reclaimOne in E. rewrite Hi, Hf in E. done.
  - destruct (reclaimOne_ok _ _ _ Hj E) as [H1 K1]. apply IH; [done | by apply K1 | done |]. apply elem_of_cons in Hin as [->|Hin]; [by destruct Hne | exact Hin].
Qed.

(** *** Compiling keeps the map in order *)

Definition infos_ok (fs : gmap Z Function) (m : gmap Z JITFunctionInfo) : Prop := forall pc i, m !! pc = Some i -> info_ok fs pc i.

(** Entries may be added and get pointers. *)
Definition grows (m m' : gmap Z JITFunctionInfo) : Prop := forall pc i, m !! pc = Some i ->
  exists i', m' !! pc = Some i' /\ func i' = func i /\ fastFuncValue i' = fastFuncValue i /\ (is_Some (fi_ptr i) -> is_Some (fi_ptr i')).

#[local] Instance grows_refl : Reflexive grows.
Proof. intros m pc i Hi. by exists i. Qed.
#[local] Instance grows_trans : Transitive grows.
Proof.
  intros a b c H1 H2 pc i Hi. destruct (H1 pc i Hi) as (i1 & E1 & F1 & V1 & P1). destruct (H2 pc i1 E1) as (i2 & E2 & F2 & V2 & P2).
  exists i2. split_and!; [done | congruence | congruence | auto].
Qed.

(** A target of a jump has a pointer. *)
Definition hasPointer (m : gmap Z JITFunctionInfo) (t : Z) : Prop := exists i, m !! t = Some i /\ is_Some (fi_ptr i).

Lemma hasPointer_grows m m' t : grows m m' -> hasPointer m t -> hasPointer m' t.
Proof. intros G (i & Hi & Hp). destruct (G t i Hi) as (i' & Hi' & _ & _ & P). exists i'. auto. Qed.

Lemma newInfo_ok fs pc : info_ok fs pc (newInfo pc).
Proof. by split. Qed.

Lemma getNextFragmentPointer_ok fs pc m : infos_ok fs m ->
  infos_ok fs (getNextFragmentPointer pc m) /\ grows m (getNextFragmentPointer pc m) /\ hasPointer (getNextFragmentPointer pc m) pc.
Proof.
  intros H. unfold getNextFragmentPointer. set (i0 := default (newInfo pc) (m !! pc)).
  assert (info_ok fs pc i0) as O0 by (unfold i0; destruct (m !! pc) as [i|] eqn:E; [by apply H | apply newInfo_ok]).
  set (i1 := match fi_ptr i0 with Some _ => i0 | None => _ end).
  assert (info_ok fs pc i1 /\ func i1 = func i0 /\ fastFuncValue i1 = fastFuncValue i0 /\ is_Some (fi_ptr i1)) as (O1 & F1 & V1 & P1).
  { unfold i1. destruct (fi_ptr i0) as [v|] eqn:E; [by rewrite E|]. split; [| cbn; by repeat split]. destruct O0. split; cbn; try done. by intros v [= <-]. }
  split; [| split].
  - intros u i Hu. destruct (decide (u = pc)) as [->|Hne]; [rewrite lookup_insert_eq in Hu; by injection Hu as <- | rewrite lookup_insert_ne in Hu by done; by apply H].
  - intros u i Hu. destruct (decide (u = pc)) as [->|Hne].
    + exists i1. rewrite lookup_insert_eq. unfold i0 in F1, V1. rewrite Hu in F1, V1. by split_and!.
    + exists i. by rewrite lookup_insert_ne.
  - exists i1. by rewrite lookup_insert_eq.
Qed.

Lemma pointers_ok fs l : forall m, infos_ok fs m ->
  let m' := foldl (fun m pc => getNextFragmentPointer pc m) m l in infos_ok fs m' /\ grows m m' /\ forall t, t ∈ l -> hasPointer m' t.
Proof.
  induction l as [|pc l IH]; intros m H; cbn [foldl]; [split; [done |]; split; [reflexivity |]; intros t Ht; by apply elem_of_nil in Ht |].
  destruct (getNextFragmentPointer_ok fs pc m H) as (O1 & G1 & P1). destruct (IH _ O1) as (O2 & G2 & P2). split; [done |]. split; [by etrans |].
  intros t Ht. apply elem_of_cons in Ht as [->|Ht]; [by eapply hasPointer_grows | by apply P2].
Qed.

Lemma jumpsOf_app a b : jumpsOf (a ++ b) = jumpsOf a ++ jumpsOf b.
Proof. apply bind_app. Qed.

Lemma jumpsOf_checks i checks : jumpsOf (emitMemoryChecks i checks).1 = [].
Proof.
  induction checks as [|[k c] checks IH]; [done |]. cbn. destruct (k =? i); [| done]. by destruct (emitMemoryChecks i checks).
Qed.

Section compile.
Context (mayBranch hasFunction mayReturnEarly : InstructionOpcode -> bool) (type : NodeType).

Lemma emitJump_ok fs opc ops nextPc m l m' : infos_ok fs m -> emitJumpToNextFragment opc ops nextPc m = Some (l, m') ->
  infos_ok fs m' /\ grows m m' /\ forall t, t ∈ jumpsOf l -> hasPointer m' t.
Proof.
  intros H E. unfold emitJumpToNextFragment in E. destruct (getSuccessors opc ops nextPc) as [[|first rest]|]; [done | | done]. injection E as <- <-.
  unfold jumpsOf. cbn. rewrite app_nil_r. by apply pointers_ok.
Qed.

Lemma emitInstructions_ok fs l : forall i pc checks nr m code nr' checks' pc' m', infos_ok fs m ->
  emitInstructions mayBranch hasFunction mayReturnEarly i pc l checks nr m = (code, nr', checks', pc', m') ->
  infos_ok fs m' /\ grows m m' /\ forall t, t ∈ jumpsOf code -> hasPointer m' t.
Proof.
  induction l as [|[opc ops] l IH]; intros i pc checks nr m code nr' checks' pc' m' H E; cbn [emitInstructions] in E.
  - simplify_eq. split; [done |]. split; [reflexivity |]. intros t Ht. by apply elem_of_nil in Ht.
  - pose proof (jumpsOf_checks i checks) as Hk. destruct (emitMemoryChecks i checks) as [k ch1]. cbn [fst] in Hk.
    set (nextPc := u32 (pc + instruction_size opc / 2)) in *.
    set (r := if mayBranch opc && hasFunction opc then _ else _) in E.
    assert (infos_ok fs r.2 /\ grows m r.2 /\ forall t, t ∈ jumpsOf r.1.1 -> hasPointer r.2 t) as (O1 & G1 & P1).
    { unfold r. destruct (mayBranch opc && hasFunction opc); [| split; [done |]; split; [reflexivity | intros t Ht; by apply elem_of_nil in Ht]].
      destruct (emitJumpToNextFragment opc ops nextPc m) as [[jumps m1]|] eqn:Ej; cbn;
        [by eapply emitJump_ok | split; [done |]; split; [reflexivity | intros t Ht; by apply elem_of_nil in Ht]]. }
    destruct r as [[jumps nr1] m1]. cbn [fst snd] in *.
    destruct (emitInstructions mayBranch hasFunction mayReturnEarly (i + 1) nextPc l ch1 nr1 m1) as [[[[code2 nr2] ch2] pc2] m2] eqn:E2.
    destruct (IH _ _ _ _ _ _ _ _ _ _ O1 E2) as (O2 & G2 & P2). injection E as <- <- <- <- <-. split; [done |]. split; [by etrans |].
    intros t Ht. rewrite jumpsOf_app, Hk, app_nil_l in Ht. change (t ∈ jumpsOf (jumps ++ code2)) in Ht. rewrite jumpsOf_app in Ht.
    apply elem_of_app in Ht as [Ht|Ht]; [eapply hasPointer_grows; eauto | by apply P2].
Qed.
End compile.

(** *** Every step keeps the pointers in order *)

(** A core whose map of functions is that of the compiler. *)
Record jit_inv (c : Core) (j : Jit) : Prop := {
  ji_map : functionMap c = fi_pc <$> infos j;
  ji_ok : jit_ok j;
  ji_entries : entries_ok c j
}.

Lemma setOpcode_entry pc e size c c' : core_setOpcode pc e size c = Some c' ->
  unreachableFunctions c' = unreachableFunctions c /\ forall q, entry c' q = if decide (q = pc) then Some e else entry c q.
Proof.
  unfold core_setOpcode, setOpcode. destruct (array_set (opcode (ramDecodeCache c)) pc e) as [l|] eqn:El; [| done]. cbn [mbind option_bind].
  destruct (match invalidationInfo _ with None => _ | Some _ => _ end) as [info|]; [| done]. cbn [mbind option_bind]. intros [= <-]. split; [done |].
  by apply array_set_spec in El as (_ & _ & G).
Qed.

Lemma clearOpcode_entry pc c c' : core_clearOpcode pc c = Some c' -> functionMap c' = functionMap c /\ unreachableFunctions c' = unreachableFunctions c /\
  forall q, entry c' q = if decide (q = pc) then Some (Inst DECODE (tracingEnabled (ramDecodeCache c))) else entry c q.
Proof.
  unfold core_clearOpcode, clearOpcode. destruct (array_set (opcode (ramDecodeCache c)) pc _) as [l|] eqn:El; [| done]. cbn [mbind option_bind]. intros [= <-].
  split; [done |]. split; [done |]. by apply array_set_spec in El as (_ & _ & G).
Qed.

(** A new function is added for an entry that has none. *)
Lemma install_ok j m f t pc info b l code : jit_ok j -> infos_ok (funs j) m -> (forall u, hasPointer (infos j) u -> hasPointer m u) ->
  f = nextFun j -> t = nextFun j + 1 -> m !! pc = Some info -> (forall u, u ∈ jumpsOf code -> hasPointer m u) ->
  jit_ok (mkJit (<[pc := mkInfo (fi_pc info) ((fun _ => Some f) <$> fi_ptr info) (Some f) (Some t) (Some f) (Some t)]> m) (<[t := Thunk f]> (<[f := Code pc b l code]> (funs j))) (nextFun j + 2)).
Proof.
  intros [H1 H2 H3] Hm Hp Ef Et Hi Hj. assert (forall g, is_Some (funs j !! g) -> g <> f /\ g <> t) as Hfresh by (intros g Hg; apply H3 in Hg; lia).
  assert (f <> t) as Hft by lia. set (fs := <[t := Thunk f]> (<[f := Code pc b l code]> (funs j))).
  assert (forall g x, funs j !! g = Some x -> fs !! g = Some x) as Hfs.
  { intros g x Hg. destruct (Hfresh g) as [? ?]; [by eexists |]. unfold fs. by rewrite !lookup_insert_ne. }
  assert (forall u, hasPointer m u -> hasPointer (<[pc := mkInfo (fi_pc info) ((fun _ => Some f) <$> fi_ptr info) (Some f) (Some t) (Some f) (Some t)]> m) u) as Hp'.
  { intros u (i & Hu & P). destruct (decide (u = pc)) as [->|Hne].
    - eexists. rewrite lookup_insert_eq. split; [done |]. simplify_eq. destruct P as [v ->]. by eexists.
    - exists i. by rewrite lookup_insert_ne. }
  split; cbn [infos funs nextFun]; fold fs.
  - intros u i Hu. destruct (decide (u = pc)) as [->|Hne].
    + rewrite lookup_insert_eq in Hu. injection Hu as <-. split; cbn; try done.
      * by apply (Hm pc).
      * intros v Hv. destruct (fi_ptr info); [| done]. by injection Hv.
      * intros g [= <-]. exists b, l, code. unfold fs. rewrite lookup_insert_ne by done. apply lookup_insert_eq.
      * intros g [= <-]. exists f. split; [done |]. apply lookup_insert_eq.
    + rewrite lookup_insert_ne in Hu by done. destruct (Hm u i Hu) as [A1 A2 A3 A4 A5 A6 A7]. split; try done.
      * intros g Hg. destruct (A6 g Hg) as (? & ? & ? & E). eauto.
      * intros g Hg. destruct (A7 g Hg) as (? & ? & E). eauto.
  - intros g pc' b' l' code' Hg u Hu. apply Hp'. unfold fs in Hg. apply lookup_insert_Some in Hg as [[_ ?]|[_ Hg]]; [done |].
    apply lookup_insert_Some in Hg as [[_ ?]|[_ Hg]]; [simplify_eq; by apply Hj | apply Hp; by eapply H2].
  - intros g [x Hg]. unfold fs in Hg. apply lookup_insert_Some in Hg as [[<- _]|[_ Hg]]; [lia |]. apply lookup_insert_Some in Hg as [[<- _]|[_ Hg]]; [lia |].
    assert (g < nextFun j); [apply H3; by eexists | lia].
Qed.

Section steps.
Context (mayBranch hasFunction mayReturnEarly : InstructionOpcode -> bool) (type : NodeType).

Lemma compileOneFragment_ok s c j pc c' j' e next : jit_ok j -> entries_ok c j -> unreachableFunctions c = [] ->
  compileOneFragment mayBranch hasFunction mayReturnEarly type s c j pc = Some (c', j', e, next) ->
  jit_ok j' /\ entries_ok c' j' /\ unreachableFunctions c' = [].
Proof.
  intros Hj He Hu E. unfold compileOneFragment in E. case_bool_decide as Hnone; [by simplify_eq |].
  destruct (getFragmentToCompile _ _ _ _ _ _) as [[[[ok fragment] eob] nx]|]; [| done]. cbn [mbind option_bind] in E.
  destruct ok; cbn [negb] in E; [| by simplify_eq]. destruct (placeMemoryChecks fragment) as [checks|]; [| done]. cbn [mbind option_bind] in E.
  set (i0 := match infos j !! pc with Some i => _ | None => newInfo pc end) in E.
  assert (info_ok (funs j) pc i0 /\ fi_ptr i0 = (i ← infos j !! pc; fi_ptr i)) as [O0 Ep0].
  { unfold i0. destruct (infos j !! pc) as [i|] eqn:Ei; [| split; [apply newInfo_ok | done]]. split; [| done]. destruct (jo_infos _ Hj _ _ Ei) as [A1 A2 A3 A4 A5 A6 A7].
    cbn in Hnone. split; cbn; try done. destruct (funcValue i) eqn:Ef; [| done]. exfalso. apply Hnone, A5. by eexists. }
  assert (infos_ok (funs j) (<[pc := i0]> (infos j))) as M0.
  { intros u i Hi. destruct (decide (u = pc)) as [->|Hne]; [rewrite lookup_insert_eq in Hi; by injection Hi as <- |]. rewrite lookup_insert_ne in Hi by done. by apply Hj. }
  destruct (emitInstructions _ _ _ _ _ _ _ _ _) as [[[[code nr] ch] pc2] m] eqn:Em. destruct (emitInstructions_ok _ _ _ _ _ _ _ _ _ _ _ _ _ _ _ M0 Em) as (M1 & G1 & P1).
  case_bool_decide; cbn [assert mbind option_bind] in E; [| done]. destruct (m !! pc) as [info|] eqn:Ei; [| done]. cbn [mbind option_bind] in E.
  destruct (core_setOpcode _ _ _ _) as [c1|] eqn:Ec; [| done]. cbn [mbind option_bind] in E. injection E as <- <- <- <-.
  apply setOpcode_entry in Ec as [Ur En]. split; [| split; [| congruence]].
  - apply install_ok; try done.
    + intros u (i & Hi & Pi). eapply hasPointer_grows; [exact G1 |]. destruct (decide (u = pc)) as [->|Hne].
      * exists i0. rewrite lookup_insert_eq, Ep0, Hi. done.
      * exists i. by rewrite lookup_insert_ne.
    + intros u Hin. apply P1. rewrite jumpsOf_app in Hin. apply elem_of_app in Hin as [|Hin]; [done |]. destruct nr; by apply elem_of_nil in Hin.
  - intros q t Hq. rewrite En in Hq. rewrite Ur, Hu. destruct (decide (q = pc)) as [->|Hne].
    + injection Hq as <-. eexists. cbn [infos]. rewrite lookup_insert_eq. split; [done |]. split; [done | apply not_elem_of_nil].
    + destruct (He q t Hq) as (i & Hi & Hf & _). destruct (G1 q i) as (i' & Hi' & Hf' & _); [by rewrite lookup_insert_ne |].
      exists i'. cbn [infos]. rewrite lookup_insert_ne by done. split; [done |]. split; [congruence | apply not_elem_of_nil].
Qed.

(** The pc behind the code of a fragment is behind its half-words. *)
Lemma emitInstructions_pc i pc l checks nr m code nr' ch pc' m' : 0 <= pc -> pc + halfwords l.*1 < 2 ^ 32 ->
  emitInstructions mayBranch hasFunction mayReturnEarly i pc l checks nr m = (code, nr', ch, pc', m') -> pc' = pc + halfwords l.*1.
Proof.
  revert i pc checks nr m code nr' ch pc' m'. induction l as [|[o ops] l IH]; intros i pc checks nr m code nr' ch pc' m' Hp Hf E; cbn [emitInstructions] in E.
  { simplify_eq. cbn. lia. }
  change (halfwords ((o, ops) :: l).*1) with (instruction_size o / 2 + halfwords l.*1) in *. pose proof (instruction_halfwords o). pose proof (halfwords_nonneg l.*1).
  rewrite (wrap_small 32) in E by (unfold fits; lia). destruct (emitMemoryChecks i checks) as [k ch1].
  destruct (if _ && _ then _ else _) as [[jumps nr1] m1]. destruct (emitInstructions _ _ _ _ _ _ _ _ _) as [[[[code1 nr2] ch2] pc2] m2] eqn:Ei.
  apply IH in Ei; [simplify_eq; lia | lia | lia].
Qed.

(** What compiling a fragment does to the decode cache: nothing, or it sets the entry of its first instruction and marks its half-words, all of them. *)
Lemma compileOneFragment_marks s c j pc c' j' e next : 0 <= pc ->
  compileOneFragment mayBranch hasFunction mayReturnEarly type s c j pc = Some (c', j', e, next) ->
  c' = c \/ exists fragment id eob nx, getFragmentToCompile mayBranch hasFunction type s c (fromPc (ramDecodeCache c) pc) = Some (true, fragment, eob, nx) /\
    (pc + halfwords fragment.*1 < 2 ^ 32 -> core_setOpcode pc (JitFunction id) (2 * halfwords fragment.*1) c = Some c').
Proof.
  intros Hp E. unfold compileOneFragment in E. case_bool_decide; [left; by simplify_eq |].
  destruct (getFragmentToCompile _ _ _ _ _ _) as [[[[ok fragment] eob] nx]|]; [| done]. cbn [mbind option_bind] in E.
  destruct ok; cbn [negb] in E; [| left; by simplify_eq]. right. destruct (placeMemoryChecks fragment) as [checks|]; [| done]. cbn [mbind option_bind] in E.
  destruct (emitInstructions _ _ _ _ _ _ _ _ _) as [[[[code nr] ch] pc2] m] eqn:Em.
  case_bool_decide; cbn [assert mbind option_bind] in E; [| done]. destruct (m !! pc) as [info|]; [| done]. cbn [mbind option_bind] in E.
  destruct (core_setOpcode _ _ _ _) as [c1|] eqn:Ec; [| done]. cbn [mbind option_bind] in E. injection E as <- <- <- <-.
  exists fragment, (nextFun j + 1), eob, nx. split; [done |]. intros Hf. apply emitInstructions_pc in Em; [| done..]. subst pc2. rewrite <- Ec.
  pose proof (halfwords_nonneg fragment.*1). rewrite wrap_small by (unfold fits; lia). f_equal. lia.
Qed.

Lemma compileBlock_ok n s c j pc c' j' : jit_inv c j -> compileBlock mayBranch hasFunction mayReturnEarly type n s c j pc = Some (c', j') -> jit_inv c' j'.
Proof.
  intros [_ Hj He] E. unfold compileBlock in E. destruct (reclaimUnreachableFunctions (unreachableFunctions c) j) as [j1|] eqn:Er; [| done]. cbn [mbind option_bind] in E.
  destruct (reclaim_ok _ _ _ Hj Er) as [H1 K1].
  assert (entries_ok (set_unreachableFunctions [] c) j1) as He1.
  { intros q t Hq. destruct (He q t Hq) as (i & Hi & Hf & Hn). exists i. split; [by apply K1 |]. split; [done | apply not_elem_of_nil]. }
  assert (forall n c j c' j' pc, jit_ok j -> entries_ok c j -> unreachableFunctions c = [] ->
    compileBlock_loop mayBranch hasFunction mayReturnEarly type n s c j pc = Some (c', j') -> jit_ok j' /\ entries_ok c' j') as L.
  { clear. induction n as [|n IH]; intros c j c' j' pc Hj He Hu E; cbn [compileBlock_loop] in E; [done |].
    destruct (compileOneFragment _ _ _ _ _ _ _ _) as [[[[c1 j1] e] next]|] eqn:E1; [| done]. cbn [mbind option_bind] in E.
    destruct (compileOneFragment_ok _ _ _ _ _ _ _ _ Hj He Hu E1) as (H1 & H2 & H3). destruct e; [by simplify_eq | by eapply IH]. }
  destruct (compileBlock_loop _ _ _ _ _ _ _ _ _) as [[c2 j2]|] eqn:El; [| done]. cbn [mbind option_bind] in E. injection E as <- <-.
  destruct (L _ _ _ _ _ _ H1 He1 eq_refl El) as [H2 He2]. by split.
Qed.

Lemma jitInvalidate_ok pc c j c' b : jit_inv c j -> jitInvalidate pc c = Some (c', b) -> jit_inv c' j.
Proof.
  intros [Hm Hj He] E. unfold jitInvalidate in E. destruct (functionMap c !! pc) as [fpc|] eqn:Ef; [| by simplify_eq].
  rewrite Hm, lookup_fmap in Ef. destruct (infos j !! pc) as [i|] eqn:Ei; [| done]. injection Ef as <-. rewrite (io_pc _ _ _ (jo_infos _ Hj _ _ Ei)) in E.
  destruct (core_clearOpcode pc c) as [c1|] eqn:Ec; [| done]. cbn [mbind option_bind] in E. injection E as <- <-. apply clearOpcode_entry in Ec as (F1 & U1 & En).
  split; [cbn; congruence | done |]. intros q t Hq. change (entry c1 q = Some (JitFunction t)) in Hq. rewrite En in Hq. case_decide as Hne; [done |].
  destruct (He q t Hq) as (i' & Hi' & Hf & Hn). exists i'. split; [done |]. split; [done |]. cbn. rewrite U1. intros Hin.
  apply elem_of_app in Hin as [Hin|Hin]; [done |]. apply list_elem_of_singleton in Hin. done.
Qed.

(** What happens to a core and its compiled functions: a block is compiled, a function is invalidated, or the core changes in another way that adds no
    compiled function to the decode cache. *)
Inductive jit_step : Core * Jit -> Core * Jit -> Prop :=
  | step_compile n s c j pc c' j' : compileBlock mayBranch hasFunction mayReturnEarly type n s c j pc = Some (c', j') -> jit_step (c, j) (c', j')
  | step_invalidate pc c j c' b : jitInvalidate pc c = Some (c', b) -> jit_step (c, j) (c', j)
  | step_other c j c' : functionMap c' = functionMap c -> unreachableFunctions c' = unreachableFunctions c ->
      (forall pc t, entry c' pc = Some (JitFunction t) -> entry c pc = Some (JitFunction t)) -> jit_step (c, j) (c', j).

Lemma jit_step_inv x y : jit_step x y -> jit_inv x.1 x.2 -> jit_inv y.1 y.2.
Proof.
  intros [n s c j pc c' j' E|pc c j c' b E|c j c' E1 E2 E3] H; cbn in *; [by eapply compileBlock_ok | by eapply jitInvalidate_ok |].
  destruct H as [Hm Hj He]. split; [congruence | done |]. intros pc t Ht. rewrite E2. by apply He, E3.
Qed.

(** C36: No jump leads to a function that has been deleted.  Whatever blocks are compiled, whatever functions are invalidated and deleted, in whatever order, from a
    core for which nothing has been compiled: every jump of every function that exists goes through a pointer that leads to the stub, or to a function that exists and
    was compiled for the target of the jump; and every compiled function in the decode cache exists and runs the code for the place it stands at. *)
Theorem jit_no_dangling (c0 c : Core) (j : Jit) : functionMap c0 = ∅ -> (forall pc t, entry c0 pc <> Some (JitFunction t)) -> rtc jit_step (c0, mkJit ∅ ∅ 0) (c, j) ->
  (forall f pc b l code t, funs j !! f = Some (Code pc b l code) -> t ∈ jumpsOf code ->
    exists i v, infos j !! t = Some i /\ fi_ptr i = Some v /\ (v = None \/ exists g b' l' code', v = Some g /\ funs j !! g = Some (Code t b' l' code'))) /\
  (forall pc t, entry c pc = Some (JitFunction t) -> exists f b l code, funs j !! t = Some (Thunk f) /\ funs j !! f = Some (Code pc b l code)).
Proof.
  intros H0 He0 Hr. assert (jit_inv c j) as [_ Hj He].
  { change (jit_inv (c, j).1 (c, j).2). eapply (rtc_ind_r (fun x => jit_inv x.1 x.2)); [| intros x y _ Hs Hx; by eapply jit_step_inv | exact Hr].
    split; cbn; [by rewrite fmap_empty | | by intros pc t Ht; apply He0 in Ht]. split; cbn; [done | done | by intros f [x Hx]]. }
  split.
  - intros f pc b l code t Hf Ht. destruct (jo_jumps _ Hj _ _ _ _ _ Hf t Ht) as (i & Hi & [v Hv]). exists i, v. split; [done |]. split; [done |].
    destruct (jo_infos _ Hj _ _ Hi) as [A1 A2 A3 A4 A5 A6 A7]. rewrite (A4 v Hv), A2. destruct (fastFuncValue i) as [g|] eqn:Eg; [right | by left].
    destruct (A6 g eq_refl) as (b' & l' & code' & E). by exists g, b', l', code'.
  - intros pc t Ht. destruct (He pc t Ht) as (i & Hi & Hf & _). destruct (jo_infos _ Hj _ _ Hi) as [A1 A2 A3 A4 A5 A6 A7]. rewrite A3 in Hf.
    destruct (A7 t Hf) as (f & Ef & E). destruct (A6 f Ef) as (b & l & code & E'). by exists f, b, l, code.
Qed.

(** Code that is overwritten while it is only the target of a jump: its place is in the map of functions although it has no function, so that invalidating
    it puts it on the list of functions to delete, and the next time a block is compiled a function that does not exist is deleted. *)
Theorem overwritten_target_undefined n s c j pc i c' q : jit_inv c j -> infos j !! pc = Some i -> fastFuncValue i = None -> 0 <= pc < zlength (opcode (ramDecodeCache c)) ->
  (jitInvalidate pc c = Some (c', true) -> compileBlock mayBranch hasFunction mayReturnEarly type n s c' j q = None) /\ exists c', jitInvalidate pc c = Some (c', true).
Proof.
  intros [Hm Hj He] Hi Hn Hpc. pose proof (jo_infos _ Hj _ _ Hi) as Ok. unfold jitInvalidate. rewrite Hm, lookup_fmap, Hi. cbn [fmap option_fmap option_map]. rewrite (io_pc _ _ _ Ok).
  split.
  - destruct (core_clearOpcode pc c) as [c1|]; [| done]. cbn [mbind option_bind]. intros [= <-]. unfold compileBlock. cbn [unreachableFunctions set_unreachableFunctions].
    assert (funcValue i = None) as Hf by (destruct (funcValue i) eqn:Ef; [| done]; exfalso; assert (is_Some (fastFuncValue i)) as [? ?] by (apply Ok; rewrite Ef; by eexists); congruence).
    rewrite (reclaim_uncompiled _ pc i); [done | done | done | done |]. apply elem_of_app. right. by apply list_elem_of_singleton.
  - unfold core_clearOpcode, clearOpcode. destruct (array_set_is_Some (opcode (ramDecodeCache c)) pc (Inst DECODE (tracingEnabled (ramDecodeCache c)))) as [l ->]; [done |]. by eexists.
Qed.
End steps.

(** ** A program with two fragments that jump to each other *)

Definition loopProgram : list Z := [0x1000; 0x7001; 0x7703; 0x1000; 0x7704].
Definition loopMemory (i : Z) : Z := let h := default 0 (loopProgram !! Z.to_nat (i / 2)) in if i mod 2 =? 0 then h mod 256 else h / 256.
Definition branches (o : InstructionOpcode) : bool := match o with BRFT_ru6 | BRBU_u6 => true | _ => false end.
Abbreviation loopCompile := (compileBlock branches (fun _ => true) branches XS1_L 9 (mkDecodeState None (replicate 6 0) true)).

(** The core with the program, and what is compiled of it: the fragment at 0, and then the one at 2. *)
Definition loopCore : option Core := newCore 64 64 false loopMemory 1.
Definition loopCompiled : option (Core * Jit) :=
  c ← loopCore; '(c, j) ← loopCompile c (mkJit ∅ ∅ 0) 0; loopCompile c j 2.

Lemma jit_no_dangling_witness : exists c0 c j code, loopCore = Some c0 /\ loopCompiled = Some (c, j) /\ funs j !! 0 = Some (Code 0 64 6 code) /\ jumpsOf code = [3; 2] /\
  exists i v, infos j !! 2 = Some i /\ fi_ptr i = Some v /\ (v = None \/ exists g b' l' code', v = Some g /\ funs j !! g = Some (Code 2 b' l' code')).
Proof.
  destruct loopCore as [c0|] eqn:E0; [| discriminate (eq_trans (eq_sym E0) eq_refl)].
  assert (functionMap c0 = ∅ /\ forallb (fun e => match e with JitFunction _ => false | _ => true end) (opcode (ramDecodeCache c0)) = true) as [F0 O0].
  { injection E0 as <-. split; vm_compute; reflexivity. }
  destruct (loopCompile c0 (mkJit ∅ ∅ 0) 0) as [[c1 j1]|] eqn:E1; [| exfalso; injection E0 as <-; revert E1; vm_compute; discriminate].
  destruct (loopCompile c1 j1 2) as [[c j]|] eqn:E2; [| exfalso; injection E0 as <-; revert E2; vm_compute in E1; injection E1 as <- <-; vm_compute; discriminate].
  assert (exists code, funs j !! 0 = Some (Code 0 64 6 code) /\ jumpsOf code = [3; 2]) as (code & Hc & Hj).
  { injection E0 as <-. vm_compute in E1. injection E1 as <- <-. vm_compute in E2. injection E2 as <- <-. eexists. split; vm_compute; reflexivity. }
  exists c0, c, j, code. split; [done |]. split; [unfold loopCompiled; rewrite E0; cbn [mbind option_bind]; rewrite E1; cbn [mbind option_bind]; exact E2 |]. split; [done |]. split; [done |].
  eapply (jit_no_dangling branches (fun _ => true) branches XS1_L c0 c j F0); [| | exact Hc | rewrite Hj; by right; left].
  - intros pc t Ht. unfold entry in Ht. apply array_get_Forall with (P := fun e => match e with JitFunction _ => false | _ => true end = true) in Ht; [done |].
    rewrite forallb_forall in O0. apply Forall_forall. intros e He. by apply O0, list_elem_of_In.
  - eapply rtc_l; [by eapply step_compile |]. apply rtc_once. by eapply step_compile.
Defined.
