(* ===== verification/Syscalls.v ===== *)
(** * System calls (lib/SyscallHandler.cpp)

    A program asks the emulator for files, the time or its arguments by a system call: the number of
    the call is in [r0], its arguments in [r1] to [r3] and the result goes to [r0].  The operating system
    of the host is a parameter, the class [Host]: functions on a state [W] of their own. *)

From Stdlib Require Import ZArith Lia.
From stdpp Require Import base list numbers option gmap.
From S2P Require Import Prelude Opcode DecodeCache Core Refs StateMonad.

#[local] Open Scope Z_scope.
#[local] Open Scope cbits_scope.

(** The functions of the host that the handler calls.  A path is the bytes before the terminating zero;
    [read] gives the bytes it has put into the buffer; [loadImage] is the callback that is set for
    the call of the same name: it gets the buffer and gives it back with what it has written, or is
    undefined. *)
Class Host (W : Type) := {
  host_dup : Z -> W -> W * Z;
  host_open : list Z -> Z -> Z -> W -> W * Z;
  host_close : Z -> W -> W * Z;
  host_read : Z -> Z -> W -> W * (Z * list Z);
  host_write : Z -> list Z -> W -> W * Z;
  host_lseek : Z -> Z -> Z -> W -> W * Z;
  host_rename : list Z -> list Z -> W -> W * Z;
  host_remove : list Z -> W -> W * Z;
  host_system : option (list Z) -> W -> W * Z;
  host_time : W -> W * Z;
  host_loadImage : CoreRef -> list Z -> Z -> Z -> W -> option (W * (bool * list Z));
  O_RDONLY : Z; O_WRONLY : Z; O_RDWR : Z; O_CREAT : Z; O_TRUNC : Z; O_APPEND : Z;
  S_IREAD : Z; S_IWRITE : Z; S_IEXEC : Z;
  SEEK_CUR : Z; SEEK_END : Z; SEEK_SET : Z
}.

(** lib/SyscallHandler.cpp:81-81 MAX_FDS *)
Definition MAX_FDS : Z := 512.

(** lib/SyscallHandler.h:20-28 SyscallHandler *)
Record SyscallHandler := mkHandler {
  fds : list Z;
  doneSyscallsSeen : gset CoreRef;
  doneSyscallsRequired : Z;
  cmd_arg : list (list Z);
  minBufBytes : Z
}.
Definition set_fds (v : list Z) (h : SyscallHandler) : SyscallHandler :=
  mkHandler v (doneSyscallsSeen h) (doneSyscallsRequired h) (cmd_arg h) (minBufBytes h).
Definition set_done (seen : gset CoreRef) (required : Z) (h : SyscallHandler) : SyscallHandler :=
  mkHandler (fds h) seen required (cmd_arg h) (minBufBytes h).

(** lib/SyscallHandler.cpp:95-113 SyscallHandler::SyscallHandler: [junk] is the size of the arguments, which is not initialised *)
Definition newSyscallHandler `{Host W} (junk : Z) (w : W) : W * SyscallHandler :=
  let '(w, fd0) := host_dup 0 w in
  let '(w, fd1) := host_dup 1 w in
  let '(w, fd2) := host_dup 2 w in
  (w, mkHandler ([fd0; fd1; fd2] ++ replicate 3 0 ++ replicate 506 (-1)) ∅ 1 [] junk).

(** lib/SyscallHandler.cpp:252-261 SyscallHandler::setCmdLine *)
Definition setCmdLine (argv : list (list Z)) (h : SyscallHandler) : SyscallHandler :=
  mkHandler (fds h) (doneSyscallsSeen h) (doneSyscallsRequired h) argv (foldl (fun n a => n + (4 + zlength a + 1)) 4 argv).
(** lib/SyscallHandler.cpp:263-265 SyscallHandler::setDoneSyscallsRequired *)
Definition setDoneSyscallsRequired (count : Z) (h : SyscallHandler) : SyscallHandler := set_done (doneSyscallsSeen h) count h.

(** ** Arguments *)

(** lib/SyscallHandler.cpp:126-126 SyscallHandler::getString: the loop; the bytes before the terminator, or [None] at the end of the RAM *)
Fixpoint scanString (fuel : nat) (c : Core) (address end_ : Z) : option (option (list Z)) :=
  match fuel with
  | O => None
  | S fuel =>
      if negb (address <? end_) then Some None
      else
        b ← loadRamByte c address;
        if b =? 0 then Some (Some [])
        else r ← scanString fuel c (u32 (address + 1)) end_; Some (option_map (cons b) r)
  end.

(** lib/SyscallHandler.cpp:115-131 SyscallHandler::getString: [Some None] is the null pointer *)
Definition getString (c : Core) (startAddress : Z) : option (option (list Z)) :=
  if negb (isValidRamAddress c startAddress) then Some None
  else scanString (S (Z.to_nat (getRamSize c))) c startAddress (u32 (getRamSize c + getRamBase c)).

(** A pointer into the memory of the RAM or of the ROM. *)
Inductive MemPtr := InRam (p : Z) | InRom (p : Z).

(** lib/SyscallHandler.cpp:133-151 SyscallHandler::getBuffer *)
Definition getBuffer (c : Core) (address size : Z) : option MemPtr :=
  if isValidRamAddress c address then
    if negb (isValidRamAddress c (u32 (address + size))) then None else Some (InRam (address - memoryOffset c))
  else if isValidRomAddress c address then
    if negb (isValidRomAddress c (u32 (address + size))) then None else Some (InRom (u32 (address - romBase c)))
  else None.

(** lib/SyscallHandler.cpp:153-163 SyscallHandler::getRamBuffer *)
Definition getRamBuffer (c : Core) (address size : Z) : option Z :=
  if negb (isValidRamAddress c address) || negb (isValidRamAddress c (u32 (address + size))) then None
  else Some (address - memoryOffset c).

(** The bytes that a function of the host reads through a pointer. *)
Definition readBytes (c : Core) (p : MemPtr) (n : Z) : option (list Z) :=
  let '(l, p) := match p with InRam p => (memory c, p) | InRom p => (rom c, p) end in
  if (0 <=? p) && (p + n <=? zlength l) then Some (take (Z.to_nat n) (drop (Z.to_nat p) l)) else None.

(** lib/SyscallHandler.cpp:165-175 SyscallHandler::getNewFd *)
Fixpoint getNewFd_ (i : Z) (l : list Z) : Z :=
  match l with [] => -1 | x :: l => if x =? -1 then i else getNewFd_ (i + 1) l end.
Definition getNewFd (h : SyscallHandler) : Z := getNewFd_ 0 (fds h).

(** lib/SyscallHandler.cpp:177-180 SyscallHandler::isValidFd *)
Definition isValidFd (h : SyscallHandler) (fd : Z) : option bool :=
  if (0 <=? fd) && (fd <? MAX_FDS) then x ← array_get (fds h) fd; Some (negb (x =? -1)) else Some false.

Section convert.
Context {W : Type} `{Host W}.

Definition test (x bit v : Z) : Z := if x .& bit =? 0 then 0 else v.

(** lib/SyscallHandler.cpp:182-202 SyscallHandler::convertOpenFlags: [O_BINARY] is not defined on POSIX systems *)
Definition convertOpenFlags (flags : Z) : Z :=
  test flags 0x0001 O_RDONLY .| test flags 0x0002 O_WRONLY .| test flags 0x0004 O_RDWR .|
  test flags 0x0100 O_CREAT .| test flags 0x0200 O_TRUNC .| test flags 0x0800 O_APPEND.

(** lib/SyscallHandler.cpp:204-214 SyscallHandler::convertOpenMode: the masks are octal in the source *)
Definition convertOpenMode (mode : Z) : Z :=
  test mode 0x100 S_IREAD .| test mode 0x80 S_IWRITE .| test mode 0x40 S_IEXEC.

(** lib/SyscallHandler.cpp:216-231 SyscallHandler::convertLseekType *)
Definition convertLseekType (whence : Z) : option Z :=
  if whence =? 1 then Some SEEK_CUR else if whence =? 2 then Some SEEK_END else if whence =? 0 then Some SEEK_SET else None.
End convert.

(** ** The calls *)

(** The state a call works on: the handler, the registers of the calling thread, its core and the host. *)
Record CallState (W : Type) := mkCall { handler : SyscallHandler; call_regs : list Z; call_core : Core; world : W }.
Arguments mkCall {W}. Arguments handler {W}. Arguments call_regs {W}. Arguments call_core {W}. Arguments world {W}.

(** lib/SyscallHandler.h:46-49 SycallOutcome: with the value of [retval], which is looked at after an exit only *)
Inductive SyscallOutcome := SC_CONTINUE | SC_EXIT (retval : Z).

Section calls.
Context {W : Type} `{Host W}.
Abbreviation MC := (M (CallState W)).

Definition reg (r : Reg) : MC Z := s ← get; lift (array_get (call_regs s) (reg_index r)).
Definition setR0 (v : Z) : MC unit :=
  s ← get; l ← lift (array_set (call_regs s) (reg_index R0) (u32 v));
  modify (fun s => mkCall (handler s) l (call_core s) (world s)).
(** [thread.regs[R0] = v; return CONTINUE] *)
Definition result (v : Z) : MC SyscallOutcome := _ ← setR0 v; mret SC_CONTINUE.
Definition modHandler (f : SyscallHandler -> SyscallHandler) : MC unit :=
  modify (fun s => mkCall (f (handler s)) (call_regs s) (call_core s) (world s)).
Definition putCallCore (c : Core) : MC unit := modify (fun s => mkCall (handler s) (call_regs s) c (world s)).
Definition hostCall {A} (f : W -> W * A) : MC A := fun s =>
  let '(w, a) := f (world s) in Some (mkCall (handler s) (call_regs s) (call_core s) w, a).

(** A descriptor given by the program: [k] is called with its number and the descriptor of the host. *)
Definition withFd (k : Z -> Z -> MC SyscallOutcome) : MC SyscallOutcome :=
  fd ← reg R1; s ← get;
  ok ← lift (isValidFd (handler s) (s32 fd));
  if negb ok then result (-1) else hostfd ← lift (array_get (fds (handler s)) fd); k fd hostfd.

(** lib/SyscallHandler.cpp:275-280 SyscallHandler::doOsCallExit *)
Definition doOsCallExit : MC SyscallOutcome := v ← reg R1; mret (SC_EXIT (s32 v)).

(** lib/SyscallHandler.cpp:282-292 SyscallHandler::doOsCallDone *)
Definition doOsCallDone (self : CoreRef) : MC SyscallOutcome :=
  s ← get; let h := handler s in
  if bool_decide (self ∈ doneSyscallsSeen h) then mret SC_CONTINUE
  else
    let required := u32 (doneSyscallsRequired h - 1) in
    if required =? 0 then _ ← modHandler (set_done ∅ required); mret (SC_EXIT 0)
    else _ ← modHandler (set_done ({[ self ]} ∪ doneSyscallsSeen h) required); mret SC_CONTINUE.

(** lib/SyscallHandler.cpp:294-329 SyscallHandler::doOsCallOpen: on a POSIX system *)
Definition doOsCallOpen : MC SyscallOutcome :=
  a ← reg R1; s ← get;
  path ← lift (getString (call_core s) a);
  match path with
  | None => result (-1)
  | Some path =>
      argFlag ← reg R2; m ← reg R3;
      let flags := convertOpenFlags (s32 argFlag) in let mode := convertOpenMode (s32 m) in
      let fd := getNewFd (handler s) in
      if fd =? -1 then result (-1)
      else
        hostfd ← hostCall (host_open path flags mode);
        if hostfd =? -1 then result (-1)
        else
          _ ← when (negb (argFlag .& 0x1000 =? 0)) (_ ← hostCall (host_remove path); mret tt);
          l ← lift (array_set (fds (handler s)) fd hostfd);
          _ ← modHandler (set_fds l);
          result fd
  end.

(** lib/SyscallHandler.cpp:331-344 SyscallHandler::doOsCallClose *)
Definition doOsCallClose : MC SyscallOutcome := withFd (fun fd hostfd =>
  r ← hostCall (host_close hostfd); s ← get;
  _ ← when (r =? 0) (l ← lift (array_set (fds (handler s)) fd (-1)); modHandler (set_fds l));
  result r).

(** lib/SyscallHandler.cpp:346-361 SyscallHandler::doOsCallRead: the bytes read go to the buffer *)
Definition doOsCallRead : MC SyscallOutcome := withFd (fun fd hostfd =>
  a ← reg R2; n ← reg R3; s ← get; let c := call_core s in
  match getRamBuffer c a n with
  | None => result (-1)
  | Some p =>
      '(r, bytes) ← hostCall (host_read hostfd n);
      m ← lift (blit bytes p (memory c)); _ ← putCallCore (set_memory m c);
      result r
  end).

(** lib/SyscallHandler.cpp:363-378 SyscallHandler::doOsCallWrite *)
Definition doOsCallWrite : MC SyscallOutcome := withFd (fun fd hostfd =>
  a ← reg R2; n ← reg R3; s ← get; let c := call_core s in
  match getBuffer c a n with
  | None => result (-1)
  | Some p => bytes ← lift (readBytes c p n); r ← hostCall (host_write hostfd bytes); result r
  end).

(** lib/SyscallHandler.cpp:381-396 SyscallHandler::doOsCallLseek *)
Definition doOsCallLseek : MC SyscallOutcome := withFd (fun fd hostfd =>
  w ← reg R3;
  match convertLseekType (s32 w) with
  | None => result (-1)
  | Some whence => off ← reg R2; r ← hostCall (host_lseek hostfd (s32 off) whence); result r
  end).

(** lib/SyscallHandler.cpp:399-412 SyscallHandler::doOsCallRename *)
Definition doOsCallRename : MC SyscallOutcome :=
  a ← reg R1; b ← reg R2; s ← get;
  oldpath ← lift (getString (call_core s) a); newpath ← lift (getString (call_core s) b);
  match oldpath, newpath with
  | Some oldpath, Some newpath => r ← hostCall (host_rename oldpath newpath); result r
  | _, _ => result (-1)
  end.

(** lib/SyscallHandler.cpp:415-431 SyscallHandler::doOsCallTime *)
Definition doOsCallTime : MC SyscallOutcome :=
  a ← reg R1; t ← hostCall host_time; s ← get; let c := call_core s in let time := u32 t in
  if a =? 0 then result time
  else if negb (isValidRamAddress c a) || negb (a .& 3 =? 0) then result (-1)
  else
    c ← lift (storeWord time a c); '(c, _) ← lift (invalidateWord a c);
    _ ← putCallCore c; result time.

(** lib/SyscallHandler.cpp:434-445 SyscallHandler::doOsCallRemove *)
Definition doOsCallRemove : MC SyscallOutcome :=
  a ← reg R1; s ← get; file ← lift (getString (call_core s) a);
  match file with None => result (-1) | Some file => r ← hostCall (host_remove file); result r end.

(** lib/SyscallHandler.cpp:448-462 SyscallHandler::doOsCallSystem *)
Definition doOsCallSystem : MC SyscallOutcome :=
  a ← reg R1; s ← get;
  if a =? 0 then r ← hostCall (host_system None); result r
  else
    command ← lift (getString (call_core s) a);
    match command with None => result (-1) | Some command => r ← hostCall (host_system (Some command)); result r end.

(** lib/SyscallHandler.cpp:483-490 SyscallHandler::doOsCallArgv: the loop; the memory after it, and the two positions *)
Fixpoint argv_loop (args : list (list Z)) (clientBuf p argvPos strPos : Z) (m : list Z) : option (list Z * Z * Z) :=
  match args with
  | [] => Some (m, argvPos, strPos)
  | a :: args =>
      m ← write32le m (p + argvPos) (u32 (clientBuf + strPos));
      m ← blit a (p + strPos) m;
      m ← array_set m (p + strPos + zlength a) 0;
      argv_loop args clientBuf p (argvPos + 4) (strPos + zlength a + 1) m
  end.

(** lib/SyscallHandler.cpp:465-497 SyscallHandler::doOsCallArgv *)
Definition doOsCallArgv : MC SyscallOutcome :=
  buf ← reg R1; bytes ← reg R2; s ← get; let c := call_core s in let h := handler s in
  if s32 bytes <? minBufBytes h then result (-2)
  else
    match getRamBuffer c buf bytes with
    | None => result (-1)
    | Some p =>
        let numArgs := zlength (cmd_arg h) in
        '(m, argvPos, strPos) ← lift (argv_loop (cmd_arg h) (s32 buf) p 0 (4 * numArgs + 4) (memory c));
        _ ← require (strPos =? minBufBytes h);
        m ← lift (write32le m (p + argvPos) 0);
        _ ← putCallCore (set_memory m c);
        result numArgs
    end.

(** lib/SyscallHandler.cpp:500-504 SyscallHandler::doOsCallIsSimulation *)
Definition doOsCallIsSimulation : MC SyscallOutcome := result 1.

(** lib/SyscallHandler.cpp:507-521 SyscallHandler::doOsCallLoadImage *)
Definition doOsCallLoadImage (self : CoreRef) : MC SyscallOutcome :=
  dst ← reg R1; src ← reg R2; size ← reg R3; s ← get; let c := call_core s in
  match getRamBuffer c dst size with
  | None => result (-1)
  | Some p =>
      buf ← lift (readBytes c (InRam p) size);
      '(ok, bytes) ← (fun s => '(w, x) ← host_loadImage self buf src size (world s); Some (mkCall (handler s) (call_regs s) (call_core s) w, x));
      m ← lift (blit bytes p (memory c));
      if ok : bool then
        '(c, _) ← lift (invalidateRange dst (u32 (dst + size)) (set_memory m c));
        _ ← putCallCore c; result 0
      else _ ← putCallCore (set_memory m c); result (-1)
  end.

(** lib/SyscallHandler.cpp:524-561 SyscallHandler::doSyscall *)
Definition doSyscall (self : CoreRef) : MC SyscallOutcome :=
  n ← reg R0;
  match n with
  | 0 => doOsCallExit
  | 3 => doOsCallOpen
  | 4 => doOsCallClose
  | 5 => doOsCallRead
  | 6 => doOsCallWrite
  | 7 => doOsCallDone self
  | 8 => doOsCallLseek
  | 9 => doOsCallRename
  | 10 => doOsCallTime
  | 11 => doOsCallRemove
  | 12 => doOsCallSystem
  | 13 => doOsCallArgv
  | 99 => doOsCallIsSimulation
  | 101 => doOsCallLoadImage self
  | _ => mret (SC_EXIT 1)
  end.
End calls.
