(* ===== verification/SyscallFacts.v ===== *)
(** * What the system calls do to memory and to the descriptors *)

From Stdlib Require Import ZArith Lia.
From stdpp Require Import base list numbers option gmap.
From S2P Require Import Prelude Signed Opcode InstrDecode DecodeCache Core CoreFacts MemoryAccess Coherence Refs StateMonad Syscalls.

#[local] Open Scope Z_scope.
#[local] Open Scope cbits_scope.

(** ** Bytes in memory *)

(** The bytes [l] are at position [p]. *)
Definition bytesAt (m : list Z) (p : Z) (l : list Z) : Prop := forall i b, array_get l i = Some b -> array_get m (p + i) = Some b.
(** Outside a range two memories agree. *)
Definition same_outside (m m' : list Z) (lo hi : Z) : Prop := forall j, j < lo \/ hi <= j -> array_get m' j = array_get m j.

Lemma bytesAt_agree m m' p l lo hi : bytesAt m p l -> same_outside m m' lo hi -> p + zlength l <= lo \/ hi <= p -> bytesAt m' p l.
Proof.
  intros Hb Ha Hd i b Hi. rewrite Ha; [by apply Hb |]. apply array_get_bound in Hi. lia.
Qed.

Lemma bytesAt_same m m' p l : bytesAt m p l -> (forall j, p <= j < p + zlength l -> array_get m' j = array_get m j) -> bytesAt m' p l.
Proof. intros Hb Hs i b Hi. pose proof (array_get_bound _ _ _ Hi). rewrite Hs by lia. by apply Hb. Qed.

Lemma bytesAt_app m p l l' : bytesAt m p l -> bytesAt m (p + zlength l) l' -> bytesAt m p (l ++ l').
Proof.
  intros H1 H2 i b Hi. destruct (Z.ltb_spec i (zlength l)).
  - apply H1. by rewrite <- (array_get_app_l l l').
  - replace (p + i) with (p + zlength l + (i - zlength l)) by lia. apply H2. by rewrite <- array_get_app_r.
Qed.

Lemma write32le_word m p v : 0 <= p -> p + 4 <= zlength m ->
  exists m', write32le m p v = Some m' /\ length m' = length m /\ same_outside m m' p (p + 4) /\ bytesAt m' p (byte_of v <$> [0; 1; 2; 3]).
Proof.
  intros Hp Hl. unfold write32le.
  array_write m p (u8 v) m1 E1; [lia |]. apply array_set_spec in E1 as (_ & L1 & G1).
  array_write m1 (p + 1) (u8 (v .>> 8)) m2 E2; [lia |]. apply array_set_spec in E2 as (_ & L2 & G2).
  array_write m2 (p + 2) (u8 (v .>> 16)) m3 E3; [lia |]. apply array_set_spec in E3 as (_ & L3 & G3).
  array_write m3 (p + 3) (u8 (v .>> 24)) m4 E4; [lia |]. apply array_set_spec in E4 as (_ & L4 & G4).
  exists m4. split; [done |]. split; [congruence |]. split.
  - intros j Hj. by rewrite G4, G3, G2, G1, !decide_False by lia.
  - intros i b Hi. pose proof (array_get_bound _ _ _ Hi) as Hb. cbn in Hb. rewrite G4, G3, G2, G1.
    assert (i = 0 \/ i = 1 \/ i = 2 \/ i = 3) as [-> | [-> | [-> | ->]]] by lia; cbn in Hi; injection Hi as <-;
      repeat case_decide; try lia; done || (by rewrite byte_of_0).
Qed.

Lemma read32le_word m p v : bytesAt m p (byte_of v <$> [0; 1; 2; 3]) -> read32le m p = Some (u32 v).
Proof.
  intros Hb. unfold read32le. rewrite <- bytes_roundtrip4.
  pose proof (Hb 0 _ eq_refl) as H0. rewrite Z.add_0_r in H0. rewrite H0, (Hb 1 _ eq_refl), (Hb 2 _ eq_refl), (Hb 3 _ eq_refl).
  cbn [mbind option_bind]. by rewrite Z.shiftl_0_r.
Qed.

Lemma blit_bytes l p m : 0 <= p -> p + zlength l <= zlength m ->
  exists m', blit l p m = Some m' /\ length m' = length m /\ same_outside m m' p (p + zlength l) /\ bytesAt m' p l.
Proof.
  intros Hp Hl. destruct (blit l p m) as [m'|] eqn:E.
  - destruct (blit_spec _ _ _ _ E) as (_ & _ & L & G). exists m'. split; [done |]. split; [done |]. split.
    + intros j Hj. rewrite G, decide_False by lia. done.
    + intros i b Hi. pose proof (array_get_bound _ _ _ Hi). rewrite G, decide_True by lia. rewrite <- Hi. f_equal. lia.
  - exfalso. unfold blit, assert in E. by rewrite (proj2 (Z.leb_le 0 p)), (proj2 (Z.leb_le (p + _) _)) in E by lia.
Qed.

(** ** The arguments of the program *)

(** Where the strings go when the first one goes to [pos]. *)
Fixpoint positions (pos : Z) (args : list (list Z)) : list Z :=
  match args with [] => [] | a :: args => pos :: positions (pos + zlength a + 1) args end.
Definition argsEnd (pos : Z) (args : list (list Z)) : Z := foldl (fun n a => n + zlength a + 1) pos args.

Lemma argsEnd_le args : forall pos, pos <= argsEnd pos args.
Proof. induction args as [|a args IH]; intros pos; [cbn; lia |]. cbn. pose proof (IH (pos + zlength a + 1)). unfold argsEnd in *. lia. Qed.

(** The pointers are at [p + argvPos], the strings they point to at the positions. *)
Definition argsAt (m : list Z) (clientBuf p argvPos strPos : Z) (args : list (list Z)) : Prop :=
  forall i a pos, args !! i = Some a -> positions strPos args !! i = Some pos ->
    bytesAt m (p + argvPos + 4 * Z.of_nat i) (byte_of (u32 (clientBuf + pos)) <$> [0; 1; 2; 3]) /\
    bytesAt m (p + pos) (a ++ [0]).

Lemma positions_bounds args : forall pos i a q, args !! i = Some a -> positions pos args !! i = Some q ->
  pos <= q /\ q + zlength a + 1 <= argsEnd pos args.
Proof.
  induction args as [|x args IH]; intros pos i a q Ha Hq; [done |]. cbn in Hq |- *. pose proof (argsEnd_le args (pos + zlength x + 1)).
  destruct i as [|i]; cbn in Ha, Hq; [simplify_eq; unfold argsEnd in *; lia |].
  destruct (IH _ _ _ _ Ha Hq). unfold argsEnd in *. lia.
Qed.

Lemma argv_loop_spec clientBuf p args : forall argvPos strPos m, 0 <= p -> 0 <= argvPos -> argvPos + 4 * zlength args <= strPos ->
  p + argsEnd strPos args <= zlength m ->
  exists m', argv_loop args clientBuf p argvPos strPos m = Some (m', argvPos + 4 * zlength args, argsEnd strPos args) /\
    length m' = length m /\ argsAt m' clientBuf p argvPos strPos args /\
    (forall j, j < p + argvPos \/ p + argvPos + 4 * zlength args <= j < p + strPos \/ p + argsEnd strPos args <= j -> array_get m' j = array_get m j).
Proof.
  induction args as [|a args IH]; intros argvPos strPos m Hp Ha0 Hsep Hend; cbn [argv_loop].
  { exists m. rewrite Z.mul_0_r, Z.add_0_r. split; [done |]. split; [done |]. split; [by intros i |]. done. }
  cbn [length] in Hsep. pose proof (argsEnd_le args (strPos + zlength a + 1)) as Hle.
  change (argsEnd strPos (a :: args)) with (argsEnd (strPos + zlength a + 1) args) in *.
  destruct (write32le_word m (p + argvPos) (u32 (clientBuf + strPos))) as (m1 & -> & L1 & A1 & B1); [lia | lia |]. cbn [mbind option_bind].
  destruct (blit_bytes a (p + strPos) m1) as (m2 & -> & L2 & A2 & B2); [lia | lia |]. cbn [mbind option_bind].
  destruct (array_set_is_Some m2 (p + strPos + zlength a) 0) as [m3 E3]; [lia |]. rewrite E3. cbn [mbind option_bind].
  apply array_set_spec in E3 as (_ & L3 & G3).
  destruct (IH (argvPos + 4) (strPos + zlength a + 1) m3) as (m' & E & L & Hat & Hfr); [lia | lia | lia | lia |].
  exists m'. rewrite E. split; [do 3 f_equal; cbn [length]; lia |]. split; [congruence |]. split.
  - intros [|i] b pos Hb Hpos; cbn in Hb, Hpos.
    + injection Hb as <-. injection Hpos as <-. rewrite Z.mul_0_r, Z.add_0_r. split.
      * apply (bytesAt_same m1); [done |]. cbn [length fmap list_fmap]. intros j Hj. rewrite Hfr, G3, decide_False by lia. apply A2. lia.
      * apply (bytesAt_same m3).
        { apply bytesAt_app.
          - apply (bytesAt_same m2); [done |]. intros j Hj. by rewrite G3, decide_False by lia.
          - intros k x Hx. pose proof (array_get_bound _ _ _ Hx) as Hk. cbn in Hk. assert (k = 0) as -> by lia. injection Hx as <-.
            by rewrite G3, decide_True by lia. }
        rewrite length_app. cbn [length]. intros j Hj. apply Hfr. lia.
    + destruct (Hat i b pos Hb Hpos) as [H1 H2]. split; [| done]. 
      replace (p + argvPos + 4 * Z.of_nat (S i)) with (p + (argvPos + 4) + 4 * Z.of_nat i) by lia. done.
  - cbn [length]. intros j Hj. rewrite Hfr, G3, decide_False, A2, A1 by lia. done.
Qed.

(** ** Strings *)

Section strings.
Context (c : Core) (W : core_wf c).

Lemma ram_end : 0 <= getRamBase c /\ getRamBase c + getRamSize c < 2 ^ 32 /\ u32 (getRamSize c + getRamBase c) = getRamBase c + getRamSize c.
Proof.
  destruct (ram_size_shorts c W) as [Hs ?]. pose proof (ram_end_bound c W). rewrite <- Hs in *.
  assert (0 <= getRamBase c) by (unfold getRamBase, wrap; apply Z.mod_pos_bound; lia). split; [done |]. split; [lia |].
  rewrite Z.add_comm. by apply Z.mod_small; lia.
Qed.

Lemma in_ram a : getRamBase c <= a < getRamBase c + getRamSize c -> isValidRamAddress c a = true.
Proof. intros Ha. pose proof ram_end. apply valid_ram_address; [done | lia |]. destruct (ram_size_shorts c W) as [<- _]. done. Qed.

(** The bytes before a terminator are scanned. *)
Lemma scanString_spec a : Forall (fun b => b <> 0) a -> forall fuel p, 0 <= p -> (length a < fuel)%nat ->
  bytesAt (memory c) p (a ++ [0]) -> scanString fuel c (getRamBase c + p) (u32 (getRamSize c + getRamBase c)) = Some (Some a).
Proof.
  destruct ram_end as (Hb & He & ->). intros Hnz. induction Hnz as [|b a Hb0 _ IH]; intros [|fuel] p Hp Hf Hat; cbn [length] in Hf; try lia; cbn [scanString app] in *.
  all: pose proof (Hat 0 _ eq_refl) as H0; rewrite Z.add_0_r in H0; pose proof (array_get_bound _ _ _ H0) as Hbd; rewrite (cw_memory c W) in Hbd.
  all: rewrite (proj2 (Z.ltb_lt (getRamBase c + p) _)) by lia; cbn [negb]; unfold loadRamByte; rewrite (cw_memoryOffset c W).
  all: replace (getRamBase c + p - getRamBase c) with p by lia; rewrite H0; cbn [mbind option_bind].
  { done. }
  rewrite (proj2 (Z.eqb_neq b 0)) by done. unfold wrap. rewrite (Z.mod_small (getRamBase c + p + 1)) by lia.
  replace (getRamBase c + p + 1) with (getRamBase c + (p + 1)) by lia. rewrite IH; [done | lia | lia |].
  intros i x Hi. pose proof (array_get_bound _ _ _ Hi). replace (p + 1 + i) with (p + (i + 1)) by lia. apply Hat.
  change (b :: a ++ [0]) with ([b] ++ (a ++ [0])). rewrite array_get_app_r by (cbn; lia). rewrite <- Hi. f_equal. cbn. lia.
Qed.

Lemma getString_spec a p : Forall (fun b => b <> 0) a -> 0 <= p -> bytesAt (memory c) p (a ++ [0]) ->
  getString c (getRamBase c + p) = Some (Some a).
Proof.
  intros Hnz Hp Hat. pose proof ram_end. unfold getString.
  assert (p + zlength a < getRamSize c) as Hl.
  { rewrite <- (cw_memory c W). assert (array_get (a ++ [0]) (zlength a) = Some 0) as Hz.
    { rewrite array_get_app_r by lia. by rewrite Z.sub_diag. }
    apply Hat, array_get_bound in Hz. lia. }
  rewrite in_ram by lia. cbn [negb]. apply scanString_spec; [done.. | lia | done].
Qed.
End strings.

Lemma array_get_nat {A} (l : list A) k : array_get l (Z.of_nat k) = l !! k.
Proof. unfold array_get. by rewrite (proj2 (Z.leb_le 0 _)), Nat2Z.id by lia. Qed.
Lemma array_set_nat {A} (l : list A) k v : (k < length l)%nat -> array_set l (Z.of_nat k) v = Some (<[k := v]> l).
Proof. intros. unfold array_set. by rewrite (proj2 (Z.leb_le 0 _)), (proj2 (Z.ltb_lt _ _)), Nat2Z.id by lia. Qed.

(** ** Running a call *)

(** The registers at a call: its number and its arguments. *)
Definition asks {W} (s : CallState W) (n r1 r2 r3 : Z) : Prop := take 4 (call_regs s) = [n; r1; r2; r3].

Section running.
Context {W : Type} `{Host W}.
Implicit Types s : CallState W.

Lemma step_run {A B} (m : M (CallState W) A) (k : A -> M (CallState W) B) s s' a : m s = Some (s', a) -> (m ≫= k) s = k a s'.
Proof. unfold mbind, M_bind. by intros ->. Qed.

Lemma asks_regs s n r1 r2 r3 : asks s n r1 r2 r3 ->
  reg R0 s = Some (s, n) /\ reg R1 s = Some (s, r1) /\ reg R2 s = Some (s, r2) /\ reg R3 s = Some (s, r3) /\ exists l, call_regs s = n :: r1 :: r2 :: r3 :: l.
Proof.
  unfold asks, reg, get, lift, mbind, M_bind. destruct s as [h [|? [|? [|? [|? l]]]] c w]; intros E; try discriminate. injection E as -> -> -> ->.
  cbn. repeat split; try done. eauto.
Qed.

(** The state with a result in [r0]. *)
Definition answered (s : CallState W) (v : Z) : CallState W := mkCall (handler s) (<[0%nat := u32 v]> (call_regs s)) (call_core s) (world s).

Lemma result_run s n r1 r2 r3 v : asks s n r1 r2 r3 -> result v s = Some (answered s v, SC_CONTINUE).
Proof. intros A. destruct (asks_regs _ _ _ _ _ A) as (_ & _ & _ & _ & l & E). destruct s; cbn in E; subst. reflexivity. Qed.

Lemma answered_r0 s n r1 r2 r3 v : asks s n r1 r2 r3 -> asks (answered s v) (u32 v) r1 r2 r3.
Proof. intros A. destruct (asks_regs _ _ _ _ _ A) as (_ & _ & _ & _ & l & E). unfold asks, answered. cbn. by rewrite E. Qed.
End running.

Lemma minBuf_argsEnd args : forall x, foldl (fun n a => n + (4 + zlength a + 1)) x args = argsEnd (4 * zlength args + x) args.
Proof.
  induction args as [|a args IH]; intros x; cbn; [unfold argsEnd; cbn; lia |]. unfold argsEnd in *. cbn. rewrite IH. f_equal. lia.
Qed.

Lemma positions_lookup args : forall pos i a, args !! i = Some a -> exists q, positions pos args !! i = Some q.
Proof. induction args as [|x args IH]; intros pos [|i] a Hi; cbn in *; [done.. | eauto | eauto]. Qed.

Lemma client_address buf pos : fits 32 (buf + pos) -> u32 (s32 buf + pos) = buf + pos.
Proof.
  intros Hf. rewrite <- (wrap_small 32 (buf + pos)) by done. unfold wrap. by rewrite Zplus_mod, signed_mod, <- Zplus_mod.
Qed.

Section argv.
Context {W : Type} `{Host W} (self : CoreRef).

(** C38: A program that asks for its arguments with a buffer that is large enough, lies in the RAM and does not reach its end (one that does is refused) gets their
    number in [r0], and in the buffer a pointer to each argument, a string with the argument's bytes, and a null
    pointer after them; no byte outside the buffer is written. *)
Theorem argv_roundtrip (s : CallState W) h args buf bytes r3 :
  core_wf (call_core s) -> handler s = setCmdLine args h -> asks s 13 buf bytes r3 ->
  Forall (Forall (fun b => b <> 0)) args ->
  getRamBase (call_core s) <= buf -> buf + bytes < getRamBase (call_core s) + getRamSize (call_core s) ->
  minBufBytes (handler s) <= bytes < 2 ^ 31 ->
  exists m, let c' := set_memory m (call_core s) in
    doSyscall self s = Some (answered (mkCall (handler s) (call_regs s) c' (world s)) (zlength args), SC_CONTINUE) /\
    (forall i a, args !! i = Some a -> exists p, loadRamWord c' (buf + 4 * Z.of_nat i) = Some p /\ getString c' p = Some (Some a)) /\
    loadRamWord c' (buf + 4 * zlength args) = Some 0 /\
    same_outside (memory (call_core s)) m (buf - getRamBase (call_core s)) (buf - getRamBase (call_core s) + bytes).
Proof.
  intros Wf Eh A Hnz Hlo Hhi Hmin. destruct s as [h0 regs c w]. cbn in Wf, Eh, Hlo, Hhi, Hmin |- *. subst h0. cbn in Hmin.
  rewrite minBuf_argsEnd in Hmin. destruct (asks_regs _ _ _ _ _ A) as (R0 & R1 & R2 & R3 & l & El).
  destruct (ram_end c Wf) as (? & ? & _). pose proof (argsEnd_le args (4 * zlength args + 4)).
  set (p := buf - getRamBase c).
  destruct (argv_loop_spec (s32 buf) p args 0 (4 * zlength args + 4) (memory c)) as (m1 & E1 & L1 & At & Fr);
    [lia.. | rewrite (cw_memory c Wf); lia |].
  destruct (write32le_word m1 (p + (0 + 4 * zlength args)) 0) as (m & E2 & L2 & Ag & B); [lia | rewrite L1, (cw_memory c Wf); lia |].
  assert (core_wf (set_memory m c)) as Wf' by (apply set_memory_wf; [done | congruence]).
  assert (forall j, j < p \/ p + bytes <= j -> array_get m j = array_get (memory c) j) as Out.
  { intros j Hj. rewrite Ag, Fr by lia. done. }
  exists m. split; [| split; [| split]].
  - unfold doSyscall. rewrite (step_run _ _ _ _ _ R0). unfold doOsCallArgv.
    rewrite (step_run _ _ _ _ _ R1), (step_run _ _ _ _ _ R2), (step_run get _ _ _ _ eq_refl). cbn [call_core handler setCmdLine minBufBytes cmd_arg].
    rewrite (signed_small 32 bytes), minBuf_argsEnd, (proj2 (Z.ltb_ge bytes _)) by lia. unfold getRamBuffer.
    rewrite (wrap_small 32 (buf + bytes)) by (unfold fits; lia). rewrite !in_ram by (done || lia). cbn [orb negb]. rewrite (cw_memoryOffset c Wf). fold p.
    erewrite step_run; [| unfold lift; rewrite E1; reflexivity]. cbn beta iota. rewrite Z.eqb_refl.
    rewrite (step_run _ _ _ _ tt eq_refl). erewrite step_run; [| unfold lift; rewrite E2; reflexivity].
    erewrite step_run; [| reflexivity]. eapply result_run. exact A.
  - intros i a Hi. destruct (positions_lookup args (4 * zlength args + 4) i a Hi) as [q Hq].
    destruct (At i a q Hi Hq) as [P S]. destruct (positions_bounds _ _ _ _ _ Hi Hq).
    pose proof (lookup_lt_Some _ _ _ Hi). exists (buf + q). rewrite <- (client_address buf q) at 1 by (unfold fits; lia). split.
    + unfold loadRamWord. cbn. rewrite (cw_memoryOffset c Wf). rewrite <- (wrap_wrap 32) by lia. apply read32le_word.
      replace (buf + 4 * Z.of_nat i - getRamBase c) with (p + 0 + 4 * Z.of_nat i) by lia. apply (bytesAt_agree m1 _ _ _ _ _ P Ag). cbn. lia.
    + replace (buf + q) with (getRamBase c + (p + q)) by lia.
      apply (getString_spec (set_memory m c)); [done | by eapply (Forall_lookup_1 _ args) | lia |].
      apply (bytesAt_agree m1 _ _ _ _ _ S Ag). right. lia.
  - unfold loadRamWord. cbn. rewrite (cw_memoryOffset c Wf). apply (read32le_word m _ 0).
    by replace (buf + 4 * zlength args - getRamBase c) with (p + (0 + 4 * zlength args)) by lia.
  - exact Out.
Qed.
End argv.

(** ** Descriptors *)

Lemma getNewFd_spec l : forall i, 0 <= i ->
  (getNewFd_ i l = -1 /\ Forall (fun x => x <> -1) l) \/
  exists k, getNewFd_ i l = i + Z.of_nat k /\ l !! k = Some (-1) /\ Forall (fun x => x <> -1) (take k l).
Proof.
  induction l as [|x l IH]; intros i Hi; cbn; [by left |]. destruct (Z.eqb_spec x (-1)) as [-> | Hx].
  - right. exists 0%nat. rewrite Z.add_0_r. done.
  - destruct (IH (i + 1)) as [[E F] | (k & E & Hk & F)]; [lia | left; auto |]. right. exists (S k). rewrite E. cbn.
    split; [lia |]. auto.
Qed.

Lemma withFd_valid {W} `{Host W} (s : CallState W) k n fd r2 r3 hostfd : asks s n fd r2 r3 ->
  0 <= fd < MAX_FDS -> array_get (fds (handler s)) fd = Some hostfd -> hostfd <> -1 -> withFd k s = k fd hostfd s.
Proof.
  intros A Hfd Eg Hh. destruct (asks_regs _ _ _ _ _ A) as (_ & R1 & _). unfold withFd. unfold MAX_FDS in Hfd.
  rewrite (step_run _ _ _ _ _ R1), (step_run get _ _ _ _ eq_refl). rewrite (signed_small 32 fd) by lia. unfold isValidFd, MAX_FDS.
  rewrite (proj2 (Z.leb_le 0 fd)), (proj2 (Z.ltb_lt fd 512)), Eg by lia. cbn [andb].
  rewrite (step_run _ _ s s true); [cbn [negb]; by rewrite (step_run _ _ s s hostfd) |].
  unfold lift. cbn. by rewrite (proj2 (Z.eqb_neq hostfd (-1))).
Qed.

Section descriptors.
Context {W : Type} `{Host W} (self : CoreRef).

(** Opening a file takes the lowest descriptor that is free and closing it puts the table of descriptors
    back: [r0] is that descriptor after the first call and zero after the second. *)
Theorem open_close_roundtrip (s : CallState W) a flags mode path w1 hostfd :
  asks s 3 a flags mode -> length (fds (handler s)) = 512%nat ->
  getString (call_core s) a = Some (Some path) -> -1 ∈ fds (handler s) -> flags .& 0x1000 = 0 ->
  host_open path (convertOpenFlags (s32 flags)) (convertOpenMode (s32 mode)) (world s) = (w1, hostfd) -> hostfd <> -1 ->
  exists fd l, let s1 := mkCall (set_fds l (handler s)) (call_regs s) (call_core s) w1 in
    doSyscall self s = Some (answered s1 fd, SC_CONTINUE) /\
    0 <= fd < 512 /\ array_get (fds (handler s)) fd = Some (-1) /\ Forall (fun x => x <> -1) (take (Z.to_nat fd) (fds (handler s))) /\
    forall s2 r2 r3 w2, handler s2 = handler s1 -> asks s2 4 fd r2 r3 -> host_close hostfd (world s2) = (w2, 0) ->
      doSyscall self s2 = Some (answered (mkCall (handler s) (call_regs s2) (call_core s2) w2) 0, SC_CONTINUE).
Proof.
  intros A Hl Hp Hin Hf Ho Hh. destruct (asks_regs _ _ _ _ _ A) as (R0 & R1 & R2 & R3 & _).
  destruct (getNewFd_spec (fds (handler s)) 0) as [[_ F] | (k & Ek & Hk & F)]; [done | by rewrite Forall_forall in F; destruct (F _ Hin) |].
  pose proof (lookup_lt_Some _ _ _ Hk). exists (Z.of_nat k), (<[k := hostfd]> (fds (handler s))). cbn zeta.
  split; [| split; [lia |]; split; [by rewrite array_get_nat |]; split; [by rewrite Nat2Z.id |]].
  - unfold doSyscall. rewrite (step_run _ _ _ _ _ R0). unfold doOsCallOpen.
    rewrite (step_run _ _ _ _ _ R1), (step_run get _ _ _ _ eq_refl), Hp, (step_run _ _ s s (Some path) eq_refl).
    rewrite (step_run _ _ _ _ _ R2), (step_run _ _ _ _ _ R3). unfold getNewFd. rewrite Ek, Z.add_0_l, (proj2 (Z.eqb_neq _ (-1))) by lia.
    erewrite step_run; [| unfold hostCall; rewrite Ho; reflexivity]. rewrite (proj2 (Z.eqb_neq hostfd (-1))), Hf by done. cbn [negb Z.eqb when].
    erewrite step_run; [| reflexivity]. erewrite step_run; [| unfold lift; rewrite array_set_nat by lia; reflexivity].
    erewrite step_run; [| reflexivity]. eapply result_run. exact A.
  - intros s2 r2 r3 w2 E2 A2 Hc. destruct (asks_regs _ _ _ _ _ A2) as (R0' & _). unfold doSyscall. rewrite (step_run _ _ _ _ _ R0').
    unfold doOsCallClose. erewrite (withFd_valid s2 _ _ _ _ _ hostfd); [| exact A2 | unfold MAX_FDS; lia | | done].
    + erewrite step_run; [| unfold hostCall; rewrite Hc; reflexivity]. rewrite (step_run get _ _ _ _ eq_refl). cbn [Z.eqb when handler].
      erewrite step_run; [| erewrite step_run; [reflexivity |]; unfold lift; rewrite E2; cbn [handler fds set_fds]; rewrite array_set_nat by (rewrite length_insert; lia); reflexivity].
      cbn [handler call_regs call_core world].
      erewrite result_run; [| exact A2]. do 3 f_equal. unfold set_fds. cbn. rewrite list_insert_insert_eq, list_insert_id by done. by destruct (handler s).
    + rewrite E2. cbn. rewrite array_get_nat. apply list_lookup_insert_eq. lia.
Qed.
End descriptors.

(** ** Buffers *)

(** The bytes of the RAM from an address. *)
Definition ramBytes (c : Core) (a n : Z) : list Z := take (Z.to_nat n) (drop (Z.to_nat (a - getRamBase c)) (memory c)).

Section buffers.
Context {W : Type} `{Host W} (self : CoreRef).

(** When both ends of the buffer of a write call are accepted, the host gets the bytes of the buffer and
    [r0] its answer, except when the address and the size run over the end of the address space: then the
    buffer is accepted too and the host reads outside the memory. *)
Theorem write_call_memory (s : CallState W) fd a n hostfd :
  core_wf (call_core s) -> asks s 6 fd a n -> 0 <= fd < MAX_FDS -> array_get (fds (handler s)) fd = Some hostfd -> hostfd <> -1 ->
  0 <= a < 2 ^ 32 -> 0 <= n < 2 ^ 32 -> isValidRamAddress (call_core s) a = true -> isValidRamAddress (call_core s) (u32 (a + n)) = true ->
  doSyscall self s =
    if a + n <? 2 ^ 32 then
      let '(w, r) := host_write hostfd (ramBytes (call_core s) a n) (world s) in
      Some (answered (mkCall (handler s) (call_regs s) (call_core s) w) r, SC_CONTINUE)
    else None.
Proof.
  intros Wf A Hfd Eg Hh Ha Hn V1 V2. destruct (asks_regs _ _ _ _ _ A) as (R0 & _ & R2 & R3 & _).
  unfold doSyscall. rewrite (step_run _ _ _ _ _ R0). unfold doOsCallWrite. rewrite (withFd_valid _ _ _ _ _ _ _ A Hfd Eg Hh).
  rewrite (step_run _ _ _ _ _ R2), (step_run _ _ _ _ _ R3), (step_run get _ _ _ _ eq_refl). unfold getBuffer. rewrite V1, V2. cbn [negb].
  destruct (ram_end _ Wf) as (? & ? & _). destruct (ram_size_shorts _ Wf) as [Hs _].
  apply valid_ram_address in V1; [| done | lia]. apply valid_ram_address in V2; [| done | by apply wrap_fits]. rewrite <- Hs in *.
  unfold readBytes. rewrite (cw_memory _ Wf), (cw_memoryOffset _ Wf), (proj2 (Z.leb_le 0 _)) by lia. cbn [andb].
  destruct (Z.ltb_spec (a + n) (2 ^ 32)).
  - rewrite wrap_small in V2 by (unfold fits; lia). rewrite (proj2 (Z.leb_le _ _)) by lia. erewrite step_run; [| reflexivity].
    unfold ramBytes. destruct (host_write _ _ _) as [w r] eqn:Ew. erewrite step_run; [| unfold hostCall; rewrite Ew; reflexivity].
    eapply result_run. exact A.
  - by rewrite (proj2 (Z.leb_gt _ _)) by lia.
Qed.

(** What a read call does: the bytes go to the buffer and nothing else of the core changes. *)
Lemma read_call_run (s : CallState W) fd a n hostfd w r bytes :
  core_wf (call_core s) -> asks s 5 fd a n -> 0 <= fd < MAX_FDS -> array_get (fds (handler s)) fd = Some hostfd -> hostfd <> -1 ->
  getRamBase (call_core s) <= a -> 0 <= n -> a + n < getRamBase (call_core s) + getRamSize (call_core s) ->
  host_read hostfd n (world s) = (w, (r, bytes)) -> zlength bytes <= n ->
  exists m, blit bytes (a - getRamBase (call_core s)) (memory (call_core s)) = Some m /\
    doSyscall self s = Some (answered (mkCall (handler s) (call_regs s) (set_memory m (call_core s)) w) r, SC_CONTINUE).
Proof.
  intros Wf A Hfd Eg Hh Ha Hn He Er Hb. destruct (asks_regs _ _ _ _ _ A) as (R0 & _ & R2 & R3 & _). destruct (ram_end _ Wf) as (? & ? & _).
  destruct (blit_bytes bytes (a - getRamBase (call_core s)) (memory (call_core s))) as (m & Em & _); [lia | rewrite (cw_memory _ Wf); lia |].
  exists m. split; [done |]. unfold doSyscall. rewrite (step_run _ _ _ _ _ R0). unfold doOsCallRead. rewrite (withFd_valid _ _ _ _ _ _ _ A Hfd Eg Hh).
  rewrite (step_run _ _ _ _ _ R2), (step_run _ _ _ _ _ R3), (step_run get _ _ _ _ eq_refl). unfold getRamBuffer.
  rewrite (wrap_small 32 (a + n)) by (unfold fits; lia). rewrite !in_ram by (done || lia). cbn [negb orb]. rewrite (cw_memoryOffset _ Wf).
  erewrite step_run; [| unfold hostCall; rewrite Er; reflexivity]. cbn beta iota.
  erewrite step_run; [| unfold lift; rewrite Em; reflexivity]. erewrite step_run; [| reflexivity]. eapply result_run. exact A.
Qed.
End buffers.

(** ** A host, and calls on it *)

(** A host whose state is the input that has not been read: every file is descriptor 7 and nothing fails. *)
#[local] Instance inputHost : Host (list Z) := {|
  host_dup fd w := (w, fd); host_open _ _ _ w := (w, 7); host_close _ w := (w, 0);
  host_read _ n w := (drop (Z.to_nat n) w, (zlength (take (Z.to_nat n) w), take (Z.to_nat n) w));
  host_write _ l w := (w, zlength l); host_lseek _ off _ w := (w, off); host_rename _ _ w := (w, 0); host_remove _ w := (w, 0);
  host_system _ w := (w, 0); host_time w := (w, 0); host_loadImage _ b _ _ w := Some (w, (false, b));
  O_RDONLY := 0; O_WRONLY := 1; O_RDWR := 2; O_CREAT := 64; O_TRUNC := 512; O_APPEND := 1024;
  S_IREAD := 256; S_IWRITE := 128; S_IEXEC := 64; SEEK_CUR := 1; SEEK_END := 2; SEEK_SET := 0 |}.

(** The state of a call on this host. *)
Definition callOn (c : Core) (argv : list (list Z)) (regs input : list Z) : CallState (list Z) :=
  mkCall (setCmdLine argv (newSyscallHandler 0 input).2) regs c input.

(** A core of sixteen bytes that has decoded its first instruction. *)
Definition decodedCore : option Core :=
  c ← newCore (2 ^ 4) (2 ^ 4) false (fun _ => 0) 1;
  '(c, _) ← Instruction_DECODE false false true XS1_L (replicate 6 0) 0 c (cache c); Some c.

Lemma decodedCore_coherent c : decodedCore = Some c -> exists ext, coherent XS1_L ext c.
Proof.
  unfold decodedCore. intros E. destruct (newCore (2 ^ 4) (2 ^ 4) false (fun _ => 0) 1) as [c0|] eqn:E0; [| done]. cbn [mbind option_bind] in E.
  pose proof (newCore_coherent XS1_L 4 false (fun _ => 0) 1 c0 ltac:(lia) E0) as C0.
  destruct (Instruction_DECODE _ _ _ _ _ _ _ _) as [[c1 rc]|] eqn:E1; [| done]. cbn in E. simplify_eq.
  destruct (step_good XS1_L (fun _ => 1) (c0, ∅) (c, ∅)) as [ext G]; [| | exists ext; apply G].
  { split; [exact C0 |]. intros pc id Hl. by destruct (newCore_dead 4 false (fun _ => 0) 1 c0 ltac:(lia) E0 pc (JitFunction id)). }
  eapply step_decode; [| | exact E1]; [| done]. rewrite (cw_size c0 (co_wf _ _ _ C0)). vm_compute in E0. by injection E0 as <-.
Qed.

(** The bytes that a read call brings in are not taken out of the decode cache: on a core whose cache agrees
    with the memory, a program that reads two bytes over an instruction it has executed goes on executing
    the old instruction, since its entry stays and is not what the memory holds any more. *)
Theorem read_call_stale (self : CoreRef) : exists s s', (exists ext, coherent XS1_L ext (call_core s)) /\
  doSyscall self s = Some (s', SC_CONTINUE) /\ asks s' 2 0 16 2 /\ loadRamShort (call_core s') 16 = Some 0x1000 /\
  forall ext, ~ coherent XS1_L ext (call_core s').
Proof.
  destruct decodedCore as [c|] eqn:E; [| by vm_compute in E]. pose proof (decodedCore_coherent c E) as C.
  vm_compute in E. injection E as <-. match type of C with exists ext, coherent _ _ ?c => set (c0 := c) in * end.
  exists (callOn c0 [] [5; 0; 16; 2] [0; 0x10]). eexists. split; [exact C |]. split; [vm_compute; reflexivity |].
  split; [reflexivity |]. split; [reflexivity |]. intros ext C'.
  destruct (co_valid _ _ _ C' 0 (Inst STW_2rus false)) as (ops & _ & (junk & dual & st & o0 & Hj & D & O & T) & _); [vm_compute; done |].
  do 7 (destruct junk as [|? junk]; try done). vm_compute in D. injection D as <-. vm_compute in O. injection O as <-.
  destruct dual; vm_compute in T; discriminate.
Qed.

Lemma argv_roundtrip_witness : exists c, newCore (2 ^ 6) (2 ^ 6) false (fun _ => 0) 1 = Some c /\
  exists m, let c' := set_memory m c in
    (doSyscall (0, 0)%nat (callOn c [[97; 98]; [99]] [13; 68; 32; 0] []) = Some (answered (callOn c' [[97; 98]; [99]] [13; 68; 32; 0] []) 2, SC_CONTINUE)) /\
    exists p, loadRamWord c' 72 = Some p /\ getString c' p = Some (Some [99]).
Proof.
  destruct (newCore_wf 6 false (fun _ => 0) 1) as (c & E & Wf & Hl & Hm & _); [lia |]. exists c. split; [exact E |].
  assert (getRamBase c = 64 /\ getRamSize c = 64) as [Hb Hs] by (unfold getRamBase, getRamSize; rewrite Hl, Hm; split; reflexivity).
  destruct (argv_roundtrip (0, 0)%nat (callOn c [[97; 98]; [99]] [13; 68; 32; 0] []) (newSyscallHandler 0 []).2 [[97; 98]; [99]] 68 32 0 Wf eq_refl eq_refl)
    as (m & E1 & Ha & _); cbn [callOn call_core]; [by repeat constructor | lia | lia | vm_compute; split; congruence |].
  exists m. split; [exact E1 |]. exact (Ha 1%nat [99] eq_refl).
Defined.

Lemma open_close_roundtrip_witness : exists c fd l, newCore (2 ^ 6) (2 ^ 6) false (fun _ => 0) 1 = Some c /\
  doSyscall (0, 0)%nat (callOn c [] [3; 64; 1; 0] []) =
    Some (answered (mkCall (set_fds l (handler (callOn c [] [] []))) [3; 64; 1; 0] c []) fd, SC_CONTINUE).
Proof.
  destruct (newCore (2 ^ 6) (2 ^ 6) false (fun _ => 0) 1) as [c|] eqn:E; [| vm_compute in E; discriminate].
  assert (getString c 64 = Some (Some [])) as Hp by (vm_compute in E; injection E as <-; reflexivity).
  destruct (open_close_roundtrip (0, 0)%nat (callOn c [] [3; 64; 1; 0] []) 64 1 0 [] [] 7 eq_refl eq_refl Hp) as (fd & l & E1 & _);
    [by vm_compute; repeat constructor | done | done | done |].
  exists c, fd, l. split; [reflexivity | exact E1].
Defined.

Lemma write_call_memory_witness : exists c, newCore (2 ^ 6) (2 ^ 6) false (fun _ => 0) 1 = Some c /\
  doSyscall (0, 0)%nat (callOn c [] [6; 1; 70; 0xffffffff] []) = None.
Proof.
  destruct (newCore_wf 6 false (fun _ => 0) 1) as (c & E & Wf & _); [lia |]. exists c. split; [exact E |]. pose proof E as E'.
  vm_compute in E'. assert (isValidRamAddress c 70 = true /\ isValidRamAddress c 69 = true) as [V1 V2] by (injection E' as <-; by vm_compute).
  exact (write_call_memory (0, 0)%nat (callOn c [] [6; 1; 70; 0xffffffff] []) 1 70 0xffffffff 1 Wf eq_refl ltac:(unfold MAX_FDS; lia) eq_refl ltac:(lia) ltac:(lia) ltac:(lia) V1 V2).
Defined.
