(* ===== verification/Device.v ===== *)
(** * Devices on the pins

    The peripherals that can be connected to ports: each is an object of its own with members that change when the
    signal on one of its pins changes ([seePinsChange]) and when the scheduler runs it.  What an operation
    does to its surroundings is the list of the calls it makes, in order.  This file has these calls, the
    classes that devices are built from (lib/PortSignalTracker.h, lib/PortHandleClockMixin.h) and the course
    of events for a device whose pins change at given times. *)

From Stdlib Require Import ZArith Lia.
From stdpp Require Import base list numbers option relations.
From S2P Require Import Prelude Signal.

#[local] Open Scope Z_scope.

(** What a device calls: [push] and [remove] of the scheduler for one of its runnables, [seePinsChange] of an
    interface that it drives, and what leaves the system (a character, a frame). *)
Inductive Call :=
  | Push (r : nat) (time : Z)
  | Remove (r : nat)
  | Pins (pin : nat) (s : Signal) (time : Z)
  | Out (bytes : list Z).

#[export] Instance Call_eq_dec : EqDecision Call.
Proof. solve_decision. Defined.

(** An operation of a device with members [S]; [None] where the code is undefined. *)
Abbreviation Op S := (S -> option (S * list Call)).

(** One operation after the other. *)
Definition andThen {S} (f g : Op S) : Op S := fun s =>
  '(s, l) ← f s; '(s, l') ← g s; Some (s, l ++ l').

(** lib/PortSignalTracker.cpp:10-10 PortSignalTracker::PortSignalTracker *)
Definition newTracker : Signal := constant 0.

(** ** Clocks on the pins (lib/PortHandleClockMixin.h) *)

(** lib/PortHandleClockMixin.h:22-34 PortHandleClockMixin *)
Record HandleClock := mkHandleClock { currentValue : Z; currentSignal : Signal }.

(** lib/PortHandleClockMixin.h:30-31 PortHandleClockMixin::PortHandleClockMixin *)
Definition newHandleClock : HandleClock := mkHandleClock 0 (constant 0).

Section handle_clock.
(** The derived class: its members, where the members of the mixin are among them, the function it has to
    offer and the number of the runnable. *)
Context {S : Type} (hc : S -> HandleClock) (set_hc : HandleClock -> S -> S)
  (seePinsValueChange : Z -> Z -> Op S) (self : nat).

(** lib/PortHandleClockMixin.h:37-53 PortHandleClockMixin::seePinsChange *)
Definition clock_seePinsChange (newSignal : Signal) (time : Z) : Op S := fun s =>
  let wasClock := isClock (currentSignal (hc s)) in
  let newValue := getValue newSignal time in
  let changed := negb (newValue =? currentValue (hc s)) in
  let s := set_hc (mkHandleClock newValue newSignal) s in
  '(s, l) ← (if changed then seePinsValueChange newValue time s else Some (s, []));
  if isClock newSignal then e ← getNextEdge newSignal time; Some (s, l ++ [Push self (edge_time e)])
  else Some (s, l ++ (if wasClock then [Remove self] else [])).

(** lib/PortHandleClockMixin.h:55-62 PortHandleClockMixin::run *)
Definition clock_run (time : Z) : Op S := fun s =>
  _ ← assert (isClock (currentSignal (hc s)));
  let newValue := if currentValue (hc s) =? 0 then 1 else 0 in
  let s := set_hc (mkHandleClock newValue (currentSignal (hc s))) s in
  '(s, l) ← seePinsValueChange newValue time s;
  Some (s, l ++ [Push self (u64 (time + halfPeriod (currentSignal (hc s))))]).

(** A level on the pins that is not a clock. *)
Lemma clock_see_level v time s : isClock (currentSignal (hc s)) = false ->
  clock_seePinsChange (constant v) time s =
    if v =? currentValue (hc s) then Some (set_hc (mkHandleClock v (constant v)) s, [])
    else '(s', l) ← seePinsValueChange v time (set_hc (mkHandleClock v (constant v)) s); Some (s', l ++ []).
Proof. intros Hc. unfold clock_seePinsChange. rewrite Hc. cbn. by destruct (Z.eqb_spec v (currentValue (hc s))). Qed.
End handle_clock.

(** ** The course of events *)

(** A device with one runnable, the time for which it is scheduled, the changes on its pins that are still to
    come, in order of time, and the calls it has made. *)
Record Course (S : Type) := mkCourse { device : S; wake : option Z; line : list (Z * (nat * Signal)); made : list Call }.
Arguments mkCourse {S}. Arguments device {S}. Arguments wake {S}. Arguments line {S}. Arguments made {S}.

(** The time for which the device is scheduled after its calls. *)
Definition wakeAfter (w : option Z) (l : list Call) : option Z :=
  foldl (fun w c => match c with Push O time => Some time | Remove O => None | _ => w end) w l.

(** The level on a pin that is driven to constant signals, after some calls. *)
Definition driven (pin : nat) (w : Z) (l : list Call) : Z :=
  foldl (fun w c => match c with Pins p s _ => if Nat.eqb p pin then value s else w | _ => w end) w l.

Section course.
Context {S : Type} (see : nat -> Signal -> Z -> Op S) (run : Z -> Op S).

(** The next thing that happens: the scheduler runs the device, or the signal on a pin changes; when both are due at
    the same time the order is not determined. *)
Definition happens (c : Course S) : option (Course S) :=
  let runs w := '(s, l) ← run w (device c); Some (mkCourse s (wakeAfter None l) (line c) (made c ++ l)) in
  let sees t p x rest := '(s, l) ← see p x t (device c); Some (mkCourse s (wakeAfter (wake c) l) rest (made c ++ l)) in
  match wake c, line c with
  | None, [] => None
  | Some w, [] => runs w
  | None, (t, (p, x)) :: rest => sees t p x rest
  | Some w, (t, (p, x)) :: rest => if w <? t then runs w else if t <? w then sees t p x rest else None
  end.

Definition happened (c c' : Course S) : Prop := happens c = Some c'.

Lemma happens_run s w l m s' k w' m' : (forall t x, head l = Some (t, x) -> w < t) -> run w s = Some (s', k) ->
  w' = wakeAfter None k -> m' = m ++ k -> happened (mkCourse s (Some w) l m) (mkCourse s' w' l m').
Proof.
  intros Hl E -> ->. unfold happened, happens. cbn. destruct l as [|[t [p x]] l]; rewrite ?E; [done |].
  by rewrite (proj2 (Z.ltb_lt w t)) by eauto.
Qed.

Lemma happens_see s w t p x l m s' k w' m' : (forall w', w = Some w' -> t < w') -> see p x t s = Some (s', k) ->
  w' = wakeAfter w k -> m' = m ++ k -> happened (mkCourse s w ((t, (p, x)) :: l) m) (mkCourse s' w' l m').
Proof.
  intros Hw E -> ->. unfold happened, happens. cbn. destruct w as [w|]; rewrite ?E; [| done].
  pose proof (Hw w eq_refl). destruct (Z.ltb_spec w t), (Z.ltb_spec t w); try lia. done.
Qed.
End course.

(** The levels on a line with a bit every [bitTime] from [t] on, as changes of the signal on pin [p]. *)
Fixpoint levels (p : nat) (prev t bitTime : Z) (bits : list Z) : list (Z * (nat * Signal)) :=
  match bits with
  | [] => []
  | b :: bits => (if b =? prev then [] else [(t, (p, constant b))]) ++ levels p b (t + bitTime) bitTime bits
  end.

Lemma levels_head p bits : forall prev t bt u x, 0 <= bt -> head (levels p prev t bt bits) = Some (u, x) -> t <= u.
Proof.
  induction bits as [|b bits IH]; intros prev t bt u x Hb E; [done |]. cbn in E. destruct (b =? prev); cbn in E.
  - apply IH in E; lia.
  - simplify_eq. lia.
Qed.

Lemma levels_app p bits bits' : forall prev t bt,
  levels p prev t bt (bits ++ bits') = levels p prev t bt bits ++ levels p (default prev (last bits)) (t + bt * zlength bits) bt bits'.
Proof.
  induction bits as [|b bits IH]; intros prev t bt; [by rewrite Z.mul_0_r, Z.add_0_r |]. cbn [levels app]. rewrite IH, app_assoc.
  do 2 f_equal; [by rewrite last_cons; destruct (last bits) | cbn [length]; lia].
Qed.
