(* ===== verification/UartRx.v ===== *)
(** * The serial receiver (lib/UartRx.cpp)

    It waits for the line to go low, looks again half a bit later, takes a sample every bit from then on and prints
    the byte when it has seen the stop bit. *)

From Stdlib Require Import ZArith Lia.
From stdpp Require Import base list numbers option relations.
From S2P Require Import Prelude BitManip Signal Timer Device.

#[local] Open Scope Z_scope.
#[local] Open Scope cbits_scope.

(** lib/UartRx.cpp:29-36 UartRx::State *)
Inductive State := WAIT_FOR_HIGH | WAIT_FOR_START | CHECK_START | RECEIVE | CHECK_PARITY | CHECK_STOP.
(** lib/UartRx.cpp:40-44 UartRx::Parity *)
Inductive Parity := ODD | EVEN | NONE.

#[export] Instance Parity_eq_dec : EqDecision Parity.
Proof. solve_decision. Defined.

(** lib/UartRx.cpp:26-50 UartRx *)
Record UartRx := mkUart {
  currentPinValue : Z;
  bitTime : Z;
  numDataBits : Z;
  numStopBits : Z;
  parity : Parity;
  state : State;
  byteValid : bool;
  bitNumber : Z;
  byte : Z
}.

Definition set_pin v u := mkUart v (bitTime u) (numDataBits u) (numStopBits u) (parity u) (state u) (byteValid u) (bitNumber u) (byte u).
Definition set_state v u := mkUart (currentPinValue u) (bitTime u) (numDataBits u) (numStopBits u) (parity u) v (byteValid u) (bitNumber u) (byte u).
Definition set_received v n b u := mkUart (currentPinValue u) (bitTime u) (numDataBits u) (numStopBits u) (parity u) (state u) v n b.

(** lib/UartRx.cpp:60-70 UartRx::UartRx: the last three members are not initialised *)
Definition newUartRx (bt : Z) (junkValid : bool) (junkNumber junkByte : Z) : UartRx :=
  mkUart 0 bt 8 1 NONE WAIT_FOR_HIGH junkValid junkNumber junkByte.

(** lib/UartRx.cpp:72-75 UartRx::scheduleUpdate *)
Definition scheduleUpdate (time : Z) : list Call := [Push 0 (u64 time)].

(** lib/UartRx.cpp:77-94 UartRx::seePinsChange *)
Definition uart_seePinsChange (s : Signal) (time : Z) : Op UartRx := fun u =>
  let v := getValue s time in
  let u := set_pin v u in
  match state u with
  | WAIT_FOR_HIGH => Some (if v =? 1 then set_state WAIT_FOR_START u else u, [])
  | WAIT_FOR_START =>
      Some (if v =? 0 then (set_state CHECK_START u, scheduleUpdate (time + bitTime u / 2)) else (u, []))
  | _ => Some (u, [])
  end.

(** lib/UartRx.cpp:96-102 UartRx::computeParity *)
Definition computeParity (u : UartRx) : option bool :=
  value ← BitManip.parity (byte u);
  Some (if bool_decide (parity u = ODD) then negb value else value).

(** lib/UartRx.cpp:104-108 UartRx::receiveByte *)
Definition receiveByte (b : Z) : list Call := [Out [u8 b]].

(** lib/UartRx.cpp:110-154 UartRx::run *)
Definition uart_run (time : Z) : Op UartRx := fun u =>
  let again := scheduleUpdate (time + bitTime u) in
  match state u with
  | WAIT_FOR_HIGH | WAIT_FOR_START => None
  | CHECK_START =>
      Some (if currentPinValue u =? 0 then (set_received true 0 0 (set_state RECEIVE u), again)
            else (set_state WAIT_FOR_START u, []))
  | RECEIVE =>
      _ ← assert (bitNumber u <? 32);
      let u := set_received (byteValid u) (u32 (bitNumber u + 1)) (byte u .| (currentPinValue u .<< bitNumber u)) u in
      let u := if bitNumber u =? numDataBits u
               then set_received (byteValid u) 0 (byte u)
                      (set_state (if bool_decide (parity u = NONE) then CHECK_STOP else CHECK_PARITY) u)
               else u in
      Some (u, again)
  | CHECK_PARITY =>
      p ← computeParity u;
      Some (set_received (currentPinValue u =? (if p : bool then 1 else 0)) (bitNumber u) (byte u) (set_state CHECK_STOP u), again)
  | CHECK_STOP =>
      if currentPinValue u =? 1 then
        let u := set_received (byteValid u) (u32 (bitNumber u + 1)) (byte u) u in
        if bitNumber u =? numStopBits u
        then Some (if byteValid u then set_state WAIT_FOR_START u else u, receiveByte (byte u))
        else Some (u, again)
      else Some (set_state WAIT_FOR_HIGH u, [])
  end.

(** lib/UartRx.cpp:156-168 createUartRx: the time of a bit, computed in [int]; undefined for a rate of 0 *)
Definition uartBitTime (bitrate : Z) : option Z :=
  if bitrate =? 0 then None else Some (u64 (Z.quot (CYCLES_PER_TICK * 100000000) bitrate)).

(** ** Reception *)

(** The receiver as a device: its pin and its runnable. *)
Definition uart_see (p : nat) (s : Signal) (time : Z) : Op UartRx := uart_seePinsChange s time.
Abbreviation goes := (rtc (happened uart_see uart_run)).

(** A frame: a start bit, eight bits from the least significant one on, a stop bit. *)
Definition frame (b : Z) : list Z := [0] ++ (extractBit b <$> [0; 1; 2; 3; 4; 5; 6; 7]) ++ [1].

(** The receiver between two frames. *)
Record ready (u : UartRx) : Prop := {
  rd_pin : currentPinValue u = 1;
  rd_state : state u = WAIT_FOR_START;
  rd_format : numDataBits u = 8 /\ numStopBits u = 1 /\ parity u = NONE
}.

(** The receiver after [n] bits, the value of which is [b]. *)
Record receiving (n b prev : Z) (u : UartRx) : Prop := {
  rc_pin : currentPinValue u = prev;
  rc_state : state u = if n =? 8 then CHECK_STOP else RECEIVE;
  rc_number : bitNumber u = if n =? 8 then 0 else n;
  rc_byte : byte u = b;
  rc_valid : byteValid u = true;
  rc_format : numDataBits u = 8 /\ numStopBits u = 1 /\ parity u = NONE
}.

Example frame_A : frame 65 = [0; 1; 0; 0; 0; 0; 0; 1; 0; 1].
Proof. reflexivity. Qed.

(** What has been printed. *)
Definition printed (l : list Call) : list Z := l ≫= (fun c => match c with Out b => b | _ => [] end).

Lemma printed_app l k : printed (l ++ k) = printed l ++ printed k.
Proof. apply bind_app. Qed.

(** A level seen while the receiver is busy. *)
Lemma sees_level u w t x rest m : t < w -> (state u <> WAIT_FOR_HIGH /\ state u <> WAIT_FOR_START) ->
  goes (mkCourse u (Some w) ((if x =? currentPinValue u then [] else [(t, (0%nat, constant x))]) ++ rest) m)
    (mkCourse (set_pin x u) (Some w) rest m).
Proof.
  intros Ht [H1 H2]. destruct (Z.eqb_spec x (currentPinValue u)) as [-> |].
  - by replace (set_pin (currentPinValue u) u) with u by (by destruct u).
  - apply rtc_once. apply happens_see with (k := []); [by intros w' [= <-] | | done | by rewrite app_nil_r].
    unfold uart_see, uart_seePinsChange. cbn. by destruct (state u).
Qed.

(** A sample. *)
Lemma sample_bit u n b x w : receiving n b x u -> 0 <= n < 8 -> x = 0 \/ x = 1 -> 0 <= w + bitTime u < 2 ^ 64 ->
  exists u', uart_run w u = Some (u', [Push 0 (w + bitTime u)]) /\ bitTime u' = bitTime u /\ receiving (n + 1) (b .| (x .<< n)) x u'.
Proof.
  intros [Hp Hs Hnum Hb Hv (Hd & Hst & Hpar)] Hn Hx Hw. rewrite (proj2 (Z.eqb_neq n 8)) in Hs, Hnum by lia.
  destruct u as [pin bt nd ns par st v num by_]; cbn in *; subst. unfold uart_run. cbn.
  rewrite (proj2 (Z.ltb_lt n 32)) by lia. cbn [assert mbind option_bind].
  rewrite (wrap_small 32 (n + 1)) by (unfold fits; lia).
  unfold scheduleUpdate. cbn. rewrite (wrap_small 64 (w + bt)) by done.
  eexists. split; [reflexivity |]. destruct (Z.eqb_spec (n + 1) 8) as [E | E]; split; try done; split; rewrite ?E, ?(proj2 (Z.eqb_neq _ _) E); done.
Qed.

(** The part of the line that belongs to one bit, with the sample in the middle of it. *)
Lemma receives_bit u n b x w t rest m : receiving n b (currentPinValue u) u -> 0 <= n < 8 -> x = 0 \/ x = 1 ->
  t < w < t + bitTime u -> 0 <= t -> w + bitTime u < 2 ^ 64 -> (forall t' y, head rest = Some (t', y) -> t + bitTime u <= t') ->
  exists u', goes (mkCourse u (Some w) ((if x =? currentPinValue u then [] else [(t, (0%nat, constant x))]) ++ rest) m)
    (mkCourse u' (Some (w + bitTime u)) rest (m ++ [Push 0 (w + bitTime u)])) /\
    bitTime u' = bitTime u /\ receiving (n + 1) (b .| (x .<< n)) x u'.
Proof.
  intros R Hn Hx Hw Ht Hm Hrest.
  destruct (sample_bit (set_pin x u) n b x w) as (u' & E & Hb & R'); [by destruct R | done | done | cbn; lia |].
  exists u'. split; [| done]. etrans.
  - apply sees_level; [lia |]. rewrite (rc_state _ _ _ _ R), (proj2 (Z.eqb_neq n 8)) by lia. done.
  - apply rtc_once. eapply happens_run; [| exact E | done | done]. intros t' y Hh. apply Hrest in Hh. lia.
Qed.

(** The value of the bits that have been received, from bit [n] on. *)
Fixpoint bits_value (n : Z) (bits : list Z) : Z :=
  match bits with [] => 0 | x :: bits => (x .<< n) .| bits_value (n + 1) bits end.

Lemma receives_bits bits : forall u n b w t rest m, receiving n b (currentPinValue u) u -> 0 <= n -> n + zlength bits = 8 ->
  Forall (fun x => x = 0 \/ x = 1) bits -> t < w < t + bitTime u -> 0 <= t -> w + bitTime u * zlength bits < 2 ^ 64 ->
  (forall t' y, head rest = Some (t', y) -> t + bitTime u * zlength bits <= t') ->
  exists u' k, goes (mkCourse u (Some w) (levels 0 (currentPinValue u) t (bitTime u) bits ++ rest) m)
    (mkCourse u' (Some (w + bitTime u * zlength bits)) rest (m ++ k)) /\ printed k = [] /\
    bitTime u' = bitTime u /\ receiving 8 (b .| bits_value n bits) (default (currentPinValue u) (last bits)) u'.
Proof.
  induction bits as [|x bits IH]; intros u n b w t rest m R Hn Hl Hx Hw Ht Hm Hrest; cbn [length] in *.
  { exists u, []. rewrite Z.mul_0_r, Z.add_0_r, app_nil_r. split; [done |]. split; [done |]. split; [done |].
    cbn. rewrite Z.lor_0_r. by replace 8 with n by lia. }
  apply Forall_cons in Hx as [Hx Hxs]. cbn [levels]. rewrite <- app_assoc.
  destruct (receives_bit u n b x w t (levels 0 x (t + bitTime u) (bitTime u) bits ++ rest) m) as (u1 & G1 & Hb1 & R1); try done; [lia | nia | |].
  { intros t' y Hh. destruct (levels 0 x (t + bitTime u) (bitTime u) bits) as [|a ll] eqn:El; cbn in Hh.
    - apply Hrest in Hh. nia.
    - apply (levels_head 0 bits x (t + bitTime u) (bitTime u) t' y); [lia | by rewrite El]. }
  assert (currentPinValue u1 = x) as Hp1 by (by destruct R1).
  destruct (IH u1 (n + 1) (b .| (x .<< n)) (w + bitTime u) (t + bitTime u) rest (m ++ [Push 0 (w + bitTime u)])) as (u2 & k & G2 & Hk & Hb2 & R2);
    try (rewrite ?Hp1, ?Hb1; done || lia || nia).
  { rewrite Hb1. intros t' y Hh. apply Hrest in Hh. nia. }
  rewrite Hp1, Hb1 in *. exists u2, ([Push 0 (w + bitTime u)] ++ k). split; [| split; [| split]].
  - etrans; [exact G1 |]. rewrite app_assoc. replace (w + bitTime u * Z.of_nat (S (length bits))) with (w + bitTime u + bitTime u * zlength bits) by lia. exact G2.
  - by rewrite printed_app, Hk.
  - done.
  - cbn [bits_value]. rewrite Z.lor_assoc. rewrite last_cons. by destruct (last bits).
Qed.

Lemma byte_of_bits b : 0 <= b < 256 -> bits_value 0 (extractBit b <$> [0; 1; 2; 3; 4; 5; 6; 7]) = b.
Proof.
  intros Hb. assert (forallb (fun n => let b := Z.of_nat n in bits_value 0 (extractBit b <$> [0; 1; 2; 3; 4; 5; 6; 7]) =? b) (seq 0 256) = true) as Hall by (vm_compute; reflexivity).
  rewrite forallb_forall in Hall. specialize (Hall (Z.to_nat b)). rewrite Z2Nat.id in Hall by lia. apply Z.eqb_eq, Hall, in_seq. lia.
Qed.

Lemma extractBit_01 b n : 0 <= n -> extractBit b n = 0 \/ extractBit b n = 1.
Proof. intros Hn. rewrite extractBit_testbit by done. destruct (Z.testbit b n); auto. Qed.

(** The start bit: the receiver has looked at it twice. *)
Lemma start_bit u t rest m : ready u -> 2 <= bitTime u -> 0 <= t -> t + bitTime u * 2 < 2 ^ 64 ->
  (forall t' y, head rest = Some (t', y) -> t + bitTime u <= t') ->
  goes (mkCourse u None ((t, (0%nat, constant 0)) :: rest) m)
    (mkCourse (set_received true 0 0 (set_state RECEIVE (set_pin 0 u))) (Some (t + bitTime u / 2 + bitTime u)) rest
      (m ++ [Push 0 (t + bitTime u / 2)] ++ [Push 0 (t + bitTime u / 2 + bitTime u)])).
Proof.
  intros [Hp Hs Hf] Hbt Ht Hm Hrest. assert (0 < bitTime u / 2 < bitTime u) as Hh by (Z.div_mod_to_equations; lia).
  eapply rtc_l; [apply happens_see with (k := [Push 0 (t + bitTime u / 2)]) (s' := set_state CHECK_START (set_pin 0 u)); [done | | done | done] |].
  { unfold uart_see, uart_seePinsChange, scheduleUpdate. change (state (set_pin _ u)) with (state u). rewrite Hs. cbn [getValue constant halfPeriod Z.eqb value set_pin bitTime].
    by rewrite (wrap_small 64) by (unfold fits; lia). }
  apply rtc_once. apply happens_run with (k := [Push 0 (t + bitTime u / 2 + bitTime u)]); [| | done | by rewrite app_assoc].
  - intros t' y Hy. apply Hrest in Hy. lia.
  - unfold uart_run, scheduleUpdate. cbn [state set_state currentPinValue set_pin Z.eqb bitTime]. by rewrite (wrap_small 64) by (unfold fits; lia).
Qed.

(** The stop bit. *)
Lemma stop_bit u b w t rest m : receiving 8 b (currentPinValue u) u -> 0 <= b < 256 -> t < w ->
  (forall t' y, head rest = Some (t', y) -> w < t') ->
  exists u', goes (mkCourse u (Some w) ((if 1 =? currentPinValue u then [] else [(t, (0%nat, constant 1))]) ++ rest) m)
    (mkCourse u' None rest (m ++ [Out [b]])) /\ bitTime u' = bitTime u /\ ready u'.
Proof.
  intros [Hp Hs Hn Hb Hv (Hd & Hst & Hpar)] Hb256 Hw Hrest. exists (set_received true 1 b (set_state WAIT_FOR_START (set_pin 1 u))). split; [| by split].
  etrans; [apply sees_level; [lia | by rewrite Hs] |]. apply rtc_once. apply happens_run with (k := [Out [b]]); [done | | done | done].
  destruct u as [pin bt nd ns par st v num by_]; cbn in *; subst. unfold uart_run, receiveByte. cbn. by rewrite (wrap_small 8).
Qed.

Lemma receives_frame u b t rest m : ready u -> 0 <= b < 256 -> 2 <= bitTime u -> 0 <= t -> t + bitTime u * 11 < 2 ^ 64 ->
  (forall t' y, head rest = Some (t', y) -> t + bitTime u * 10 <= t') ->
  exists u' k, goes (mkCourse u None (levels 0 1 t (bitTime u) (frame b) ++ rest) m) (mkCourse u' None rest (m ++ k)) /\
    printed k = [b] /\ bitTime u' = bitTime u /\ ready u'.
Proof.
  intros [Hp Hs Hf] Hb Hbt Ht Hm Hrest. set (bt := bitTime u) in *. assert (0 < bt / 2 < bt) as Hh by (Z.div_mod_to_equations; lia).
  set (bits := extractBit b <$> [0; 1; 2; 3; 4; 5; 6; 7]). set (u1 := set_received true 0 0 (set_state RECEIVE (set_pin 0 u))).
  set (tail := levels 0 (default 0 (last bits)) (t + bt * 9) bt [1] ++ rest).
  assert (levels 0 1 t bt (frame b) ++ rest = (t, (0%nat, constant 0)) :: levels 0 0 (t + bt) bt bits ++ tail) as ->.
  { unfold frame, tail. cbn [app levels]. change (0 =? 1) with false. cbn [app]. rewrite levels_app, <- app_assoc.
    replace (t + bt * 9) with (t + bt + bt * zlength bits) by (cbn; lia). done. }
  assert (forall t' y, head tail = Some (t', y) -> t + bt * 9 <= t') as Htail.
  { intros t' y Hy. unfold tail in Hy. cbn [levels] in Hy. destruct (1 =? default 0 (last bits)); cbn in Hy; [apply Hrest in Hy; lia | simplify_eq; lia]. }
  destruct (receives_bits bits u1 0 0 (t + bt / 2 + bt) (t + bt) tail (m ++ [Push 0 (t + bt / 2)] ++ [Push 0 (t + bt / 2 + bt)]))
    as (u2 & k & G & Hk & Hb2 & R2); change (bitTime u1) with bt in *; change (currentPinValue u1) with 0 in *; change (zlength bits) with 8 in *;
    [by split | lia | lia | apply Forall_fmap; repeat (apply Forall_cons_2; [by apply extractBit_01 |]); constructor | lia | lia | lia | intros t' y Hy; apply Htail in Hy; lia |].
  destruct (stop_bit u2 b (t + bt / 2 + bt + bt * 8) (t + bt * 9) rest ((m ++ [Push 0 (t + bt / 2)] ++ [Push 0 (t + bt / 2 + bt)]) ++ k))
    as (u3 & G3 & Hb3 & R3); [| lia | lia | intros t' y Hy; apply Hrest in Hy; lia |].
  { destruct R2 as [P2 ? ? B2 ? ?]. split; try done. rewrite B2, Z.lor_0_l. by apply byte_of_bits. }
  exists u3, ([Push 0 (t + bt / 2)] ++ [Push 0 (t + bt / 2 + bt)] ++ k ++ [Out [b]]). split; [| by rewrite !printed_app, Hk, Hb3].
  etrans; [apply start_bit; [by split | done | done | lia |] |].
  { intros t' y Hy. destruct (levels 0 0 (t + bt) bt bits) as [|x l] eqn:El; cbn in Hy; [apply Htail in Hy; lia |].
    apply (levels_head 0 bits 0 (t + bt) bt t' y); [lia | by rewrite El]. }
  etrans; [exact G |]. change (levels 0 _ _ _ [1]) with ((if 1 =? default 0 (last bits) then [] else [(t + bt * 9, (0%nat, constant 1))]) ++ []) in tail.
  unfold tail. rewrite app_nil_r, <- (rc_pin _ _ _ _ R2), !(app_assoc m), <- !app_assoc in *. exact G3.
Qed.

(** Bytes sent at given times: the changes on the line. *)
Definition transmission (bt : Z) (l : list (Z * Z)) : list (Z * (nat * Signal)) := l ≫= fun '(t, b) => levels 0 1 t bt (frame b).

(** The frames do not overlap and end before the end of time. *)
Fixpoint spaced (bt from : Z) (l : list (Z * Z)) : Prop :=
  match l with
  | [] => True
  | (t, b) :: l => from <= t /\ 0 <= b < 256 /\ t + bt * 11 < 2 ^ 64 /\ spaced bt (t + bt * 10) l
  end.

Lemma transmission_head bt l from t x : 0 <= bt -> spaced bt from l -> head (transmission bt l) = Some (t, x) -> from <= t.
Proof. destruct l as [|[t0 b] l]; cbn; [done |]. intros _ [? _] [= <- _]. done. Qed.

Lemma receives_frames l : forall u from m, ready u -> 2 <= bitTime u -> 0 <= from -> spaced (bitTime u) from l ->
  exists u' k, goes (mkCourse u None (transmission (bitTime u) l) m) (mkCourse u' None [] (m ++ k)) /\ printed k = l.*2 /\ ready u'.
Proof.
  induction l as [|[t b] l IH]; intros u from m Hr Hbt Hfrom Hsp.
  { exists u, []. by rewrite app_nil_r. }
  destruct Hsp as (Ht & Hb & Hend & Hsp).
  destruct (receives_frame u b t (transmission (bitTime u) l) m) as (u1 & k1 & G1 & P1 & B1 & R1); [done | done | done | lia | lia | |].
  { intros t' y Hy. by apply transmission_head with (from := t + bitTime u * 10) in Hy; [| lia |]. }
  destruct (IH u1 (t + bitTime u * 10) (m ++ k1)) as (u2 & k2 & G2 & P2 & R2); rewrite ?B1; [done | done | lia | done |].
  exists u2, (k1 ++ k2). split; [| by rewrite printed_app, P1, P2]. rewrite B1 in G2. etrans; [exact G1 |]. by rewrite app_assoc.
Qed.

(** C26: A new receiver whose line goes high prints exactly the bytes that are then sent to it, in order, one frame
    each (start bit, eight bits from the least significant on, stop bit), whatever the time of a bit, as long as
    frames do not overlap; it is then ready for the next one. *)
Theorem uart_receives bt v n j t0 l : 2 <= bt -> 0 <= t0 -> spaced bt t0 l ->
  exists u' k, goes (mkCourse (newUartRx bt v n j) None ((t0, (0%nat, constant 1)) :: transmission bt l) []) (mkCourse u' None [] k) /\
    printed k = l.*2 /\ ready u'.
Proof.
  intros Hbt Ht Hsp. set (u := set_state WAIT_FOR_START (set_pin 1 (newUartRx bt v n j))).
  destruct (receives_frames l u t0 []) as (u' & k & G & P & R); [by split | done | done | done |].
  exists u', k. split; [| done]. eapply rtc_l; [| exact G]. by eapply happens_see with (k := []).
Qed.

Lemma uart_receives_witness : exists u' k,
  goes (mkCourse (newUartRx 3472 false 0 0) None ((5, (0%nat, constant 1)) :: transmission 3472 [(100, 72); (40000, 105)]) []) (mkCourse u' None [] k) /\
  printed k = [72; 105].
Proof.
  destruct (uart_receives 3472 false 0 0 5 [(100, 72); (40000, 105)]) as (u' & k & G & P & _); [lia | lia | cbn; lia |].
  exists u', k. split; [exact G | exact P].
Defined.
