(* ===== verification/SPIFlash.v ===== *)
(** * The flash memory (lib/SPIFlash.cpp)

    A serial memory: while it is selected it takes a bit of a command on every rising edge of the clock and gives a
    bit of the answer on every falling edge. *)

From Stdlib Require Import ZArith Lia.
From stdpp Require Import base list numbers option.
From S2P Require Import Prelude BitManip Signal Device.

#[local] Open Scope Z_scope.
#[local] Open Scope cbits_scope.

(** lib/SPIFlash.cpp:29-34 SPIFlash::State *)
Inductive State := WAIT_FOR_CMD | WAIT_FOR_ADDRESS | READ | UNKNOWN_CMD.

#[export] Instance State_eq_dec : EqDecision State.
Proof. solve_decision. Defined.

(** lib/SPIFlash.cpp:35-52 SPIFlash: [mem] with its size, the signals and values on the pins, and the registers *)
Record SPIFlash := mkFlash {
  state : State;
  mem : option (list Z);
  MOSITracker : Signal;
  SCLKHandleClock : HandleClock;
  SSHandleClock : HandleClock;
  MISOValue : Z;
  SCLKValue : Z;
  SSValue : Z;
  receiveReg : Z;
  receivedBits : Z;
  receivedAddressBytes : Z;
  sendReg : Z;
  sendBitsRemaining : Z;
  readAddress : Z
}.

Definition set_MOSI v f := mkFlash (state f) (mem f) v (SCLKHandleClock f) (SSHandleClock f) (MISOValue f) (SCLKValue f) (SSValue f) (receiveReg f) (receivedBits f) (receivedAddressBytes f) (sendReg f) (sendBitsRemaining f) (readAddress f).
Definition set_SCLKHandleClock v f := mkFlash (state f) (mem f) (MOSITracker f) v (SSHandleClock f) (MISOValue f) (SCLKValue f) (SSValue f) (receiveReg f) (receivedBits f) (receivedAddressBytes f) (sendReg f) (sendBitsRemaining f) (readAddress f).
Definition set_SSHandleClock v f := mkFlash (state f) (mem f) (MOSITracker f) (SCLKHandleClock f) v (MISOValue f) (SCLKValue f) (SSValue f) (receiveReg f) (receivedBits f) (receivedAddressBytes f) (sendReg f) (sendBitsRemaining f) (readAddress f).
Definition set_pins miso sclk ss f := mkFlash (state f) (mem f) (MOSITracker f) (SCLKHandleClock f) (SSHandleClock f) miso sclk ss (receiveReg f) (receivedBits f) (receivedAddressBytes f) (sendReg f) (sendBitsRemaining f) (readAddress f).
Definition set_receive st reg bits addrBytes addr f := mkFlash st (mem f) (MOSITracker f) (SCLKHandleClock f) (SSHandleClock f) (MISOValue f) (SCLKValue f) (SSValue f) reg bits addrBytes (sendReg f) (sendBitsRemaining f) addr.
Definition set_send reg bits addr f := mkFlash (state f) (mem f) (MOSITracker f) (SCLKHandleClock f) (SSHandleClock f) (MISOValue f) (SCLKValue f) (SSValue f) (receiveReg f) (receivedBits f) (receivedAddressBytes f) reg bits addr.

(** lib/SPIFlash.cpp:89-98 SPIFlash::reset *)
Definition reset (f : SPIFlash) : SPIFlash := set_send 0 0 0 (set_receive WAIT_FOR_CMD 0 0 0 0 f).

(** lib/SPIFlash.cpp:63-82 SPIFlash::SPIFlash *)
Definition newSPIFlash : SPIFlash :=
  reset (mkFlash WAIT_FOR_CMD None newTracker newHandleClock newHandleClock 0 0 0 0 0 0 0 0 0).

(** lib/SPIFlash.cpp:161-179 SPIFlash::openFile: for a file that can be read *)
Definition openFile (contents : list Z) (f : SPIFlash) : SPIFlash :=
  mkFlash (state f) (Some contents) (MOSITracker f) (SCLKHandleClock f) (SSHandleClock f) (MISOValue f) (SCLKValue f) (SSValue f) (receiveReg f) (receivedBits f) (receivedAddressBytes f) (sendReg f) (sendBitsRemaining f) (readAddress f).

(** lib/SPIFlash.cpp:108-131 SPIFlash::seeSCLKChange: a rising edge *)
Definition risingEdge (time : Z) (f : SPIFlash) : SPIFlash :=
  let reg := u8 ((receiveReg f .<< 1) .| getValue (MOSITracker f) time) in
  let bits := u32 (receivedBits f + 1) in
  if bits =? 8 then
    match state f with
    | WAIT_FOR_CMD => set_receive (if reg =? 0x3 then WAIT_FOR_ADDRESS else UNKNOWN_CMD) 0 0 (receivedAddressBytes f) (readAddress f) f
    | WAIT_FOR_ADDRESS =>
        let n := u32 (receivedAddressBytes f + 1) in
        set_receive (if n =? 3 then READ else WAIT_FOR_ADDRESS) 0 0 n ((readAddress f .<< 8) .| reg) f
    | st => set_receive st 0 0 (receivedAddressBytes f) (readAddress f) f
    end
  else set_receive (state f) reg bits (receivedAddressBytes f) (readAddress f) f.

(** lib/SPIFlash.cpp:132-147 SPIFlash::seeSCLKChange: a falling edge; undefined for an empty file *)
Definition fallingEdge (time : Z) : Op SPIFlash := fun f =>
  if bool_decide (state f = READ) then
    f ← match mem f with
        | Some bytes =>
            if sendBitsRemaining f =? 0 then
              if zlength bytes =? 0 then None
              else b ← array_get bytes (readAddress f mod zlength bytes); Some (set_send b 8 (u32 (readAddress f + 1)) f)
            else Some f
        | None => Some f
        end;
    let newValue := (sendReg f .>> 7) .& 1 in
    let l := if newValue =? MISOValue f then [] else [Pins 0 (constant newValue) time] in
    let f := set_pins newValue (SCLKValue f) (SSValue f) f in
    Some (set_send (u8 (sendReg f .<< 1)) (u32 (sendBitsRemaining f - 1)) (readAddress f) f, l)
  else Some (f, []).

(** lib/SPIFlash.cpp:100-149 SPIFlash::seeSCLKChange *)
Definition seeSCLKChange (value time : Z) : Op SPIFlash := fun f =>
  if value =? SCLKValue f then Some (f, [])
  else
    let f := set_pins (MISOValue f) value (SSValue f) f in
    if negb (SSValue f =? 0) then Some (f, [])
    else if value =? 1 then Some (risingEdge time f, [])
    else fallingEdge time f.

(** lib/SPIFlash.cpp:151-159 SPIFlash::seeSSChange *)
Definition seeSSChange (value time : Z) : Op SPIFlash := fun f =>
  if value =? SSValue f then Some (f, [])
  else
    let f := set_pins (MISOValue f) (SCLKValue f) value f in
    Some (if value =? 1 then reset f else f, []).

(** lib/SPIFlash.cpp:77-79 SPIFlash::SPIFlash: what the pins MOSI, SCLK and SS are attached to *)
Definition flash_see (pin : nat) (s : Signal) (time : Z) : Op SPIFlash :=
  match pin with
  | 0%nat => fun f => Some (set_MOSI s f, [])
  | 1%nat => clock_seePinsChange SCLKHandleClock set_SCLKHandleClock seeSCLKChange 0 s time
  | _ => clock_seePinsChange SSHandleClock set_SSHandleClock seeSSChange 1 s time
  end.

(** lib/PortHandleClockProxy.h:14-21 PortHandleClockProxy: the two runnables of the device *)
Definition flash_run (r : nat) (time : Z) : Op SPIFlash :=
  match r with
  | 0%nat => clock_run SCLKHandleClock set_SCLKHandleClock seeSCLKChange 0 time
  | _ => clock_run SSHandleClock set_SSHandleClock seeSSChange 1 time
  end.

(** ** Reading *)

(** A bit on MOSI, a rising edge at [t] and a falling edge at [t + h]; with the level that the device has driven
    on MISO last. *)
Definition cycle (t h v : Z) (fw : SPIFlash * Z) : option (SPIFlash * Z) :=
  let '(f, w) := fw in
  '(f, l1) ← flash_see 0 (constant v) t f;
  '(f, l2) ← flash_see 1 (constant 1) t f;
  '(f, l3) ← flash_see 1 (constant 0) (t + h) f;
  Some (f, driven 0 (driven 0 (driven 0 w l1) l2) l3).

(** Bits one after the other: the device at the end and the levels on MISO after each of them. *)
Fixpoint exchange (t h : Z) (bits : list Z) (fw : SPIFlash * Z) : option (SPIFlash * Z * list Z) :=
  match bits with
  | [] => Some (fw, [])
  | v :: bits => fw ← cycle t h v fw; '(fw', l) ← exchange (t + 2 * h) h bits fw; Some (fw', fw.2 :: l)
  end.

(** The bits of a number from the most significant one on. *)
Fixpoint msbFirst (n : nat) (x : Z) : list Z := match n with O => [] | S n => extractBit x (Z.of_nat n) :: msbFirst n x end.

Example msb3 : msbFirst 8 0x3 = [0; 0; 0; 0; 0; 0; 1; 1].
Proof. reflexivity. Qed.

Example read_flash : exists f, exchange 0 10 (msbFirst 8 0x3 ++ msbFirst 24 5 ++ replicate 15 0) (openFile [1; 2; 3; 0xa5] newSPIFlash, 0)
  = Some (f, replicate 31 0 ++ msbFirst 8 2 ++ msbFirst 8 3).
Proof. eexists. vm_compute. reflexivity. Qed.

(** The device is selected and its clock is low; [w] is on MISO. *)
Record idle (f : SPIFlash) (w : Z) : Prop := {
  id_clock : currentValue (SCLKHandleClock f) = 0 /\ isClock (currentSignal (SCLKHandleClock f)) = false;
  id_pins : MISOValue f = w /\ SCLKValue f = 0 /\ SSValue f = 0
}.

Definition prep (v : Z) (f : SPIFlash) : SPIFlash :=
  set_pins (MISOValue f) 0 0 (set_SCLKHandleClock (mkHandleClock 0 (constant 0)) (set_MOSI (constant v) f)).

(** A rising edge does not touch the pins and the clock. *)
Lemma risingEdge_frame t f : SCLKHandleClock (risingEdge t f) = SCLKHandleClock f /\ MISOValue (risingEdge t f) = MISOValue f /\
  SCLKValue (risingEdge t f) = SCLKValue f /\ SSValue (risingEdge t f) = SSValue f /\ mem (risingEdge t f) = mem f /\
  sendReg (risingEdge t f) = sendReg f /\ sendBitsRemaining (risingEdge t f) = sendBitsRemaining f.
Proof. unfold risingEdge. by repeat case_match. Qed.

Lemma risingEdge_low t k m f : set_pins m 0 0 (set_SCLKHandleClock k (risingEdge t f)) = risingEdge t (set_pins m 0 0 (set_SCLKHandleClock k f)).
Proof. destruct f. unfold risingEdge. cbn. by repeat case_match. Qed.

Lemma see_rise t f : SCLKValue f = 0 -> SSValue f = 0 -> seeSCLKChange 1 t f = Some (risingEdge t (set_pins (MISOValue f) 1 0 f), []).
Proof. intros Hk Hs. unfold seeSCLKChange. rewrite Hk. cbn. by rewrite Hs. Qed.
Lemma see_fall t f : SCLKValue f = 1 -> SSValue f = 0 -> seeSCLKChange 0 t f = fallingEdge t (set_pins (MISOValue f) 0 0 f).
Proof. intros Hk Hs. unfold seeSCLKChange. rewrite Hk. cbn -[fallingEdge]. by rewrite Hs. Qed.

(** A cycle is a rising edge and a falling edge. *)
Lemma cycle_edges t h v f w : idle f w ->
  cycle t h v (f, w) = '(f', l) ← fallingEdge (t + h) (risingEdge t (prep v f)); Some (f', driven 0 w l).
Proof.
  intros [[Hv Hc] (Hm & Hk & Hs)]. unfold cycle, flash_see. cbn [mbind option_bind].
  rewrite clock_see_level by done. change (currentValue (SCLKHandleClock (set_MOSI (constant v) f))) with (currentValue (SCLKHandleClock f)). rewrite Hv.
  change (1 =? 0) with false. cbv iota. rewrite see_rise by done. cbn [mbind option_bind app].
  set (f1 := set_pins _ 1 _ _). destruct (risingEdge_frame t f1) as (E1 & E2 & E3 & E4 & _).
  rewrite clock_see_level by (rewrite E1; done). rewrite E1. change (0 =? currentValue (SCLKHandleClock f1)) with false. cbv iota.
  rewrite see_fall by (cbn [SCLKValue SSValue set_SCLKHandleClock]; rewrite ?E3, ?E4; done).
  cbn [MISOValue set_SCLKHandleClock]. rewrite E2, risingEdge_low. change (set_pins _ 0 0 (set_SCLKHandleClock _ f1)) with (prep v f).
  destruct (fallingEdge _ _) as [[f' l]|]; cbn -[driven]; by rewrite ?app_nil_r.
Qed.

(** Between two bits of a byte of the command or of the address: [k] bits are in, their value is [r]. *)
Record collecting (st : State) (ab ra k r : Z) (f : SPIFlash) (w : Z) : Prop := {
  cl_idle : idle f w;
  cl_state : state f = st;
  cl_bits : receivedBits f = k /\ receiveReg f = r;
  cl_address : receivedAddressBytes f = ab /\ readAddress f = ra;
  cl_send : sendBitsRemaining f = 0
}.

Definition shiftBit (r v : Z) : Z := u8 ((r .<< 1) .| v).

Lemma fallingEdge_other time f : state f <> READ -> fallingEdge time f = Some (f, []).
Proof. intros Hs. unfold fallingEdge. by rewrite bool_decide_eq_false_2. Qed.

Lemma prep_idle v f w : idle f w -> idle (prep v f) w.
Proof. intros [? (? & ? & ?)]. by split. Qed.

Lemma cycle_collect t h v st ab ra k r f w : st <> READ -> collecting st ab ra k r f w -> 0 <= k < 7 ->
  exists f', cycle t h v (f, w) = Some (f', w) /\ collecting st ab ra (k + 1) (shiftBit r v) f' w /\ mem f' = mem f.
Proof.
  intros Hst [Hi Hs [Hk Hr] [Hab Hra] Hsb] Hkb. rewrite cycle_edges by done. unfold risingEdge. cbn -[driven fallingEdge].
  rewrite Hk, (wrap_small 32 (k + 1)), (proj2 (Z.eqb_neq (k + 1) 8)) by (unfold fits; lia).
  rewrite fallingEdge_other by (cbn; by rewrite Hs). cbn. eexists. split; [done |]. split; [| done].
  destruct Hi as [? (? & ? & ?)]. split; cbn; try done. by rewrite Hr.
Qed.

(** The last bit of a byte that is not the last one of the address. *)
Lemma cycle_command t h v ab ra r f w : collecting WAIT_FOR_CMD ab ra 7 r f w -> shiftBit r v = 3 ->
  exists f', cycle t h v (f, w) = Some (f', w) /\ collecting WAIT_FOR_ADDRESS ab ra 0 0 f' w /\ mem f' = mem f.
Proof.
  intros [Hi Hs [Hk Hr] [Hab Hra] Hsb] Hv. rewrite cycle_edges by done. unfold risingEdge. cbn -[driven fallingEdge].
  rewrite Hk, Hs, Hr. fold (shiftBit r v). rewrite Hv. cbn -[driven fallingEdge]. rewrite fallingEdge_other by done. cbn.
  eexists. split; [done |]. split; [| done]. destruct Hi as [? (? & ? & ?)]. by split.
Qed.

Lemma cycle_address t h v ab ra r f w : collecting WAIT_FOR_ADDRESS ab ra 7 r f w -> 0 <= ab < 2 ->
  exists f', cycle t h v (f, w) = Some (f', w) /\ collecting WAIT_FOR_ADDRESS (ab + 1) ((ra .<< 8) .| shiftBit r v) 0 0 f' w /\ mem f' = mem f.
Proof.
  intros [Hi Hs [Hk Hr] [Hab Hra] Hsb] Hv. rewrite cycle_edges by done. unfold risingEdge. cbn -[driven fallingEdge].
  rewrite Hk, Hs, Hr, Hab, Hra. fold (shiftBit r v). rewrite (wrap_small 32 (ab + 1)) by (unfold fits; lia). cbn -[driven fallingEdge].
  rewrite (proj2 (Z.eqb_neq (ab + 1) 3)) by lia. rewrite fallingEdge_other by done. cbn.
  eexists. split; [done |]. split; [| done]. destruct Hi as [? (? & ? & ?)]. by split.
Qed.

(** ** Sending *)

(** In the middle of a byte [b] of which [n] bits are still to be sent. *)
Record sending (bytes : list Z) (ra n b : Z) (f : SPIFlash) : Prop := {
  sn_state : state f = READ;
  sn_mem : mem f = Some bytes;
  sn_address : readAddress f = ra;
  sn_bits : sendBitsRemaining f = n /\ 0 <= n < 8;
  sn_reg : 0 < n -> sendReg f = u8 (b .<< (8 - n))
}.

Definition byte_range (b : Z) : Prop := 0 <= b < 256.

Lemma top_bit b n : byte_range b -> 0 <= n < 8 ->
  (u8 (b .<< (7 - n)) .>> 7) .& 1 = extractBit b n /\ u8 (u8 (b .<< (7 - n)) .<< 1) = u8 (b .<< (8 - n)).
Proof.
  intros Hb Hn.
  assert (forallb (fun x => let b := Z.of_nat x in forallb (fun y => let n := Z.of_nat y in
    ((u8 (b .<< (7 - n)) .>> 7) .& 1 =? extractBit b n) && (u8 (u8 (b .<< (7 - n)) .<< 1) =? u8 (b .<< (8 - n)))) (seq 0 8)) (seq 0 256) = true) as Hall
    by (vm_compute; reflexivity).
  rewrite forallb_forall in Hall. specialize (Hall (Z.to_nat b)). rewrite forallb_forall in Hall.
  specialize (Hall ltac:(apply in_seq; unfold byte_range in Hb; lia) (Z.to_nat n) ltac:(apply in_seq; lia)).
  unfold byte_range in Hb. rewrite !Z2Nat.id in Hall by lia. apply andb_true_iff in Hall as [H1 H2]. split; by apply Z.eqb_eq.
Qed.

(** The byte that is sent for an address. *)
Definition flashByte (bytes : list Z) (a : Z) : Z := default 0 (array_get bytes (a mod zlength bytes)).

(** A falling edge drives the next bit: the first one of the next byte when the last one has been sent. *)
Lemma fallingEdge_sends time bytes ra n b f w : bytes <> [] -> Forall byte_range bytes -> byte_range b -> idle f w -> sending bytes ra n b f ->
  let '(ra', n', b') := if n =? 0 then (u32 (ra + 1), 7, flashByte bytes ra) else (ra, n - 1, b) in
  exists f' l, fallingEdge time f = Some (f', l) /\ driven 0 w l = extractBit b' n' /\
    idle f' (extractBit b' n') /\ sending bytes ra' n' b' f'.
Proof.
  intros Hne Hall Hb [Hclk (Hm & Hk & Hs)] [St Me Ad [Hn Hn8] Hreg]. unfold fallingEdge. rewrite bool_decide_eq_true_2, Me, Hn by done.
  assert (0 < zlength bytes) as Hl by (destruct bytes; [done | cbn; lia]).
  destruct (Z.eqb_spec n 0) as [-> | Hn0].
  - rewrite (proj2 (Z.eqb_neq (zlength bytes) 0)) by lia.
    destruct (array_get_is_Some bytes (readAddress f mod zlength bytes)) as [x Hx]; [apply Z.mod_pos_bound; lia |].
    assert (flashByte bytes ra = x) as -> by (unfold flashByte; by rewrite <- Ad, Hx). pose proof (array_get_Forall _ _ _ _ Hall Hx) as Hxr.
    destruct (top_bit x 7 Hxr ltac:(lia)) as [T1 T2]. rewrite Hx. cbn -[driven extractBit wrap].
    assert (u8 (x .<< 0) = x) as Hx0 by (unfold byte_range in Hxr; rewrite Z.shiftl_0_r, (wrap_small 32 x), (wrap_small 8 x); unfold fits; lia).
    change (7 - 7) with 0 in *. rewrite Hx0 in *. rewrite T1, T2, Hm, Hk, Hs.
    eexists _, _. split; [reflexivity |]. split; [| split].
    + destruct (Z.eqb_spec (extractBit x 7) w) as [-> | ]; done.
    + by split.
    + split; cbn; try done. by rewrite Ad.
  - pose proof (Hreg ltac:(lia)) as Hr. destruct (top_bit b (n - 1) Hb ltac:(lia)) as [T1 T2].
    replace (7 - (n - 1)) with (8 - n) in * by lia. rewrite <- Hr in T1, T2. cbn -[driven extractBit wrap]. rewrite T1, T2, Hm, Hk, Hs, Hn.
    eexists _, _. split; [reflexivity |]. split; [| split].
    + destruct (Z.eqb_spec (extractBit b (n - 1)) w) as [-> | ]; done.
    + by split.
    + split; cbn -[wrap]; try done. rewrite wrap_small by (unfold fits; lia). lia.
Qed.

(** A cycle while a byte is being sent. *)
Lemma cycle_sends t h v bytes ra n b f w : bytes <> [] -> Forall byte_range bytes -> byte_range b -> idle f w -> sending bytes ra n b f ->
  let '(ra', n', b') := if n =? 0 then (u32 (ra + 1), 7, flashByte bytes ra) else (ra, n - 1, b) in
  exists f', cycle t h v (f, w) = Some (f', extractBit b' n') /\ idle f' (extractBit b' n') /\ sending bytes ra' n' b' f'.
Proof.
  intros Hne Hall Hb Hi Hs.
  assert (sending bytes ra n b (risingEdge t (prep v f))) as Hs1.
  { destruct Hs as [St Me Ad Hn Hr]. destruct (risingEdge_frame t (prep v f)) as (_ & _ & _ & _ & E5 & E6 & E7).
    split; rewrite ?E5, ?E6, ?E7; try done; unfold risingEdge; cbn; rewrite St; by case_match. }
  assert (idle (risingEdge t (prep v f)) w) as Hi1.
  { apply (prep_idle v) in Hi as [? (? & ? & ?)]. destruct (risingEdge_frame t (prep v f)) as (E1 & E2 & E3 & E4 & _). split; rewrite ?E1, ?E2, ?E3, ?E4; done. }
  pose proof (fallingEdge_sends (t + h) bytes ra n b _ w Hne Hall Hb Hi1 Hs1) as H. rewrite cycle_edges by done.
  destruct (if n =? 0 then _ else _) as [[ra' n'] b']. destruct H as (f' & l & -> & Hd & Hi' & Hs'). exists f'. cbn [mbind option_bind]. by rewrite Hd.
Qed.

Lemma exchange_app bits bits' h : forall t fw, exchange t h (bits ++ bits') fw =
  '(fw', l) ← exchange t h bits fw; '(fw'', l') ← exchange (t + 2 * h * zlength bits) h bits' fw'; Some (fw'', l ++ l').
Proof.
  induction bits as [|v bits IH]; intros t fw; cbn [exchange app length].
  { rewrite Z.mul_0_r, Z.add_0_r. cbn. by destruct (exchange _ _ _ _) as [[]|]. }
  destruct (cycle t h v fw) as [fw1|]; [| done]. cbn [mbind option_bind]. rewrite IH.
  destruct (exchange (t + 2 * h) h bits fw1) as [[fw2 l2]|]; [| done]. cbn [mbind option_bind].
  replace (t + 2 * h * Z.of_nat (S (length bits))) with (t + 2 * h + 2 * h * zlength bits) by lia. by destruct (exchange _ _ bits' fw2) as [[]|].
Qed.

Lemma exchange_collect h st ab ra w bits : st <> READ -> forall t k r f, collecting st ab ra k r f w -> 0 <= k -> k + zlength bits <= 7 ->
  exists f', exchange t h bits (f, w) = Some ((f', w), replicate (length bits) w) /\
    collecting st ab ra (k + zlength bits) (foldl shiftBit r bits) f' w /\ mem f' = mem f.
Proof.
  intros Hst. induction bits as [|v bits IH]; intros t k r f Hc Hk Hl; cbn [length exchange foldl] in *.
  { exists f. rewrite Z.add_0_r. done. }
  destruct (cycle_collect t h v st ab ra k r f w) as (f1 & -> & Hc1 & Hm1); [done | done | lia |]. cbn [mbind option_bind].
  destruct (IH (t + 2 * h) (k + 1) (shiftBit r v) f1) as (f2 & -> & Hc2 & Hm2); [done | lia | lia |]. cbn [mbind option_bind].
  exists f2. split; [done |]. split; [| congruence]. by replace (k + Z.of_nat (S (length bits))) with (k + 1 + zlength bits) by lia.
Qed.

Lemma length_msbFirst n x : length (msbFirst n x) = n.
Proof. induction n; cbn; congruence. Qed.

Lemma fold_msbFirst b : byte_range b -> foldl shiftBit 0 (msbFirst 8 b) = b.
Proof.
  intros Hb. assert (forallb (fun x => foldl shiftBit 0 (msbFirst 8 (Z.of_nat x)) =? Z.of_nat x) (seq 0 256) = true) as Hall by (vm_compute; reflexivity).
  rewrite forallb_forall in Hall. unfold byte_range in Hb. specialize (Hall (Z.to_nat b) ltac:(apply in_seq; lia)).
  apply Z.eqb_eq in Hall. by rewrite Z2Nat.id in Hall by lia.
Qed.

Lemma msbFirst_byte b : byte_range b -> exists bits v, msbFirst 8 b = bits ++ [v] /\ length bits = 7%nat /\ shiftBit (foldl shiftBit 0 bits) v = b.
Proof.
  intros Hb. pose proof (fold_msbFirst b Hb) as Hf. pose proof (length_msbFirst 8 b) as Hl. revert Hf Hl. generalize (msbFirst 8 b). intros l Hf Hl.
  destruct (exists_last (l := l)) as (bits & v & ->); [by intros -> |]. exists bits, v. split; [done |].
  rewrite length_app in Hl. cbn in Hl. rewrite foldl_app in Hf. split; [lia | exact Hf].
Qed.

(** A byte goes in: all but its last bit, and then whatever the last one does. *)
Lemma exchange_byte t h st ab ra b f w : st <> READ -> byte_range b -> collecting st ab ra 0 0 f w ->
  exists f1 r v, collecting st ab ra 7 r f1 w /\ shiftBit r v = b /\ mem f1 = mem f /\
    exchange t h (msbFirst 8 b) (f, w) = '(f2, w2) ← cycle (t + 2 * h * 7) h v (f1, w); Some ((f2, w2), replicate 7 w ++ [w2]).
Proof.
  intros Hst Hb Hc. destruct (msbFirst_byte b Hb) as (bits & v & E & L & V).
  destruct (exchange_collect h st ab ra w bits Hst t 0 0 f Hc) as (f1 & E1 & Hc1 & Hm1); [done | lia |].
  exists f1, (foldl shiftBit 0 bits), v. split; [by rewrite L in Hc1 |]. split; [done |]. split; [done |].
  rewrite E, exchange_app, E1, L. cbn [mbind option_bind exchange]. change (Z.of_nat 7) with 7. by destruct (cycle _ _ _ _) as [[]|].
Qed.

(** ** What is read *)

Section reading.
Context (bytes : list Z) (Hne : bytes <> []) (Hall : Forall byte_range bytes) (h : Z).

Lemma flashByte_range a : byte_range (flashByte bytes a).
Proof.
  unfold flashByte. destruct (array_get bytes _) as [x|] eqn:E; cbn; [by eapply array_get_Forall | unfold byte_range; lia].
Qed.

(** The rest of a byte. *)
Lemma exchange_rest bits : forall t ra b f w, idle f w -> byte_range b -> sending bytes ra (zlength bits) b f ->
  exists f' w', exchange t h bits (f, w) = Some ((f', w'), msbFirst (length bits) b) /\ idle f' w' /\ sending bytes ra 0 b f'.
Proof.
  induction bits as [|v bits IH]; intros t ra b f w Hi Hb Hs; cbn [exchange length] in *; [by eexists f, w |].
  pose proof (cycle_sends t h v bytes ra _ b f w Hne Hall Hb Hi Hs) as H. rewrite (proj2 (Z.eqb_neq (Z.of_nat (S (length bits))) 0)) in H by lia.
  destruct H as (f1 & -> & Hi1 & Hs1). replace (Z.of_nat (S (length bits)) - 1) with (zlength bits) in * by lia. cbn [mbind option_bind].
  destruct (IH (t + 2 * h) ra b f1 _ Hi1 Hb Hs1) as (f2 & w2 & -> & Hi2 & Hs2). by exists f2, w2.
Qed.

(** The next byte. *)
Lemma exchange_next bits t ra b f w : idle f w -> byte_range b -> sending bytes ra 0 b f -> length bits = 8%nat ->
  exists f' w', exchange t h bits (f, w) = Some ((f', w'), msbFirst 8 (flashByte bytes ra)) /\ idle f' w' /\
    sending bytes (u32 (ra + 1)) 0 (flashByte bytes ra) f'.
Proof.
  intros Hi Hb Hs Hl. destruct bits as [|v bits]; [done |]. injection Hl as Hl. cbn [exchange].
  destruct (cycle_sends t h v bytes ra 0 b f w Hne Hall Hb Hi Hs) as (f1 & -> & Hi1 & Hs1). cbn [mbind option_bind].
  replace 7 with (zlength bits) in Hs1 by lia.
  destruct (exchange_rest bits (t + 2 * h) _ _ f1 _ Hi1 (flashByte_range ra) Hs1) as (f2 & w2 & -> & Hi2 & Hs2). exists f2, w2. by rewrite Hl.
Qed.

(** So many bytes from an address on. *)
Definition contents (ra : Z) (n : nat) : list Z := (fun i => flashByte bytes (ra + Z.of_nat i)) <$> seq 0 n.

Lemma contents_S ra n : contents ra (S n) = flashByte bytes ra :: contents (ra + 1) n.
Proof.
  unfold contents. cbn [seq fmap list_fmap]. rewrite Z.add_0_r, <- seq_shift, <- list_fmap_compose. f_equal. apply list_fmap_ext. intros i x _. cbn. f_equal. lia.
Qed.

Lemma exchange_bytes n : forall bits t ra b f w, idle f w -> byte_range b -> sending bytes ra 0 b f -> length bits = (8 * n)%nat ->
  0 <= ra -> ra + Z.of_nat n < 2 ^ 32 ->
  exists fw, exchange t h bits (f, w) = Some (fw, contents ra n ≫= msbFirst 8).
Proof.
  induction n as [|n IH]; intros bits t ra b f w Hi Hb Hs Hl Hra Hlim; [destruct bits; [by eexists | done] |].
  rewrite <- (take_drop 8 bits), exchange_app.
  destruct (exchange_next (take 8 bits) t ra b f w Hi Hb Hs) as (f1 & w1 & -> & Hi1 & Hs1); [rewrite length_take; lia |]. cbn [mbind option_bind].
  rewrite wrap_small in Hs1 by (unfold fits; lia).
  destruct (IH (drop 8 bits) (t + 2 * h * zlength (take 8 bits)) (ra + 1) _ f1 w1 Hi1 (flashByte_range ra) Hs1) as (fw & E);
    [rewrite length_drop; lia | lia | lia |].
  rewrite E. cbn [mbind option_bind]. exists fw. by rewrite contents_S.
Qed.
End reading.

Lemma append_byte ra b : 0 <= ra < 2 ^ 24 -> byte_range b -> (ra .<< 8) .| b = ra * 256 + b.
Proof.
  intros Hra Hb. rewrite Z.shiftl_mul_pow2 by lia. rewrite wrap_small by (unfold fits; lia). rewrite Z.lor_comm, lor_disjoint; [lia | lia | done].
Qed.

(** The bytes of the command and of the address. *)
Lemma send_command t h f w : collecting WAIT_FOR_CMD 0 0 0 0 f w ->
  exists f', exchange t h (msbFirst 8 0x3) (f, w) = Some ((f', w), replicate 8 w) /\ collecting WAIT_FOR_ADDRESS 0 0 0 0 f' w /\ mem f' = mem f.
Proof.
  intros C. destruct (exchange_byte t h WAIT_FOR_CMD 0 0 3 f w ltac:(done) ltac:(unfold byte_range; lia) C) as (f1 & r & v & D & V & M & ->).
  destruct (cycle_command (t + 2 * h * 7) h v 0 0 r f1 w D V) as (f' & -> & C' & M'). exists f'. by rewrite M'.
Qed.

Lemma send_address t h ab ra b f w : collecting WAIT_FOR_ADDRESS ab ra 0 0 f w -> byte_range b -> 0 <= ab < 2 ->
  exists f', exchange t h (msbFirst 8 b) (f, w) = Some ((f', w), replicate 8 w) /\
    collecting WAIT_FOR_ADDRESS (ab + 1) ((ra .<< 8) .| b) 0 0 f' w /\ mem f' = mem f.
Proof.
  intros C Hb Hab. destruct (exchange_byte t h WAIT_FOR_ADDRESS ab ra b f w ltac:(done) Hb C) as (f1 & r & v & D & V & M & ->).
  destruct (cycle_address (t + 2 * h * 7) h v ab ra r f1 w D Hab) as (f' & -> & C' & M'). exists f'. by rewrite M', <- V.
Qed.

Lemma send_last_address t h bytes ra b f w : bytes <> [] -> Forall byte_range bytes -> mem f = Some bytes ->
  collecting WAIT_FOR_ADDRESS 2 ra 0 0 f w -> byte_range b ->
  let a := (ra .<< 8) .| b in
  exists f' w', exchange t h (msbFirst 8 b) (f, w) = Some ((f', w'), replicate 7 w ++ [extractBit (flashByte bytes a) 7]) /\ idle f' w' /\
    sending bytes (u32 (a + 1)) 7 (flashByte bytes a) f'.
Proof.
  intros Hne Hall Hm C Hb. destruct (exchange_byte t h WAIT_FOR_ADDRESS 2 ra b f w ltac:(done) Hb C) as (f1 & r & v & D & V & M & ->).
  set (t7 := t + 2 * h * 7). destruct D as [Hi Hs [Hk Hr] [Hab Hra] Hsb].
  assert (risingEdge t7 (prep v f1) = set_receive READ 0 0 3 ((ra .<< 8) .| b) (prep v f1)) as Er.
  { unfold risingEdge. cbn -[wrap set_receive]. rewrite Hk, Hs, Hab, Hra, Hr. fold (shiftBit r v). by rewrite V. }
  rewrite cycle_edges, Er by done.
  pose proof (fallingEdge_sends (t7 + h) bytes ((ra .<< 8) .| b) 0 0 (set_receive READ 0 0 3 ((ra .<< 8) .| b) (prep v f1)) w) as H.
  destruct H as (f' & l & -> & Hd & Hi' & Hs'); [done | done | unfold byte_range; lia | apply (prep_idle v) in Hi as [? (? & ? & ?)]; by split | |].
  { split; try done. cbn. congruence. }
  exists f'. eexists. cbn [mbind option_bind]. rewrite Hd. split; [reflexivity |]. done.
Qed.

(** C24: A selected flash memory that gets the command 0x03 and a three-byte address, bit by bit from the most
    significant one on, answers with the bytes of the file from that address on, the first bit on the falling
    edge that follows the last bit of the address, starting again at the beginning of the file when its end
    is reached; before that MISO does not change. *)
Theorem spi_read_command bytes a2 a1 a0 dummy n t h : bytes <> [] -> Forall byte_range bytes ->
  byte_range a2 -> byte_range a1 -> byte_range a0 -> length dummy = (8 * n + 7)%nat -> Z.of_nat n < 2 ^ 31 ->
  exists fw, exchange t h (msbFirst 8 0x3 ++ msbFirst 8 a2 ++ msbFirst 8 a1 ++ msbFirst 8 a0 ++ dummy) (openFile bytes newSPIFlash, 0) =
    Some (fw, replicate 31 0 ++ (contents bytes ((a2 * 256 + a1) * 256 + a0) (S n) ≫= msbFirst 8)).
Proof.
  intros Hne Hall H2 H1 H0 Hd Hn. pose proof (conj H2 (conj H1 H0)) as (R2 & R1 & R0). unfold byte_range in R2, R1, R0.
  assert (collecting WAIT_FOR_CMD 0 0 0 0 (openFile bytes newSPIFlash) 0) as C0 by (by repeat split).
  destruct (send_command t h _ 0 C0) as (f1 & E1 & C1 & M1).
  destruct (send_address (t + 2 * h * 8) h 0 0 a2 f1 0 C1 H2) as (f2 & E2 & C2 & M2); [lia |].
  destruct (send_address (t + 2 * h * 8 + 2 * h * 8) h (0 + 1) _ a1 f2 0 C2 H1) as (f3 & E3 & C3 & M3); [lia |].
  rewrite (append_byte 0 a2) in C3 by (unfold byte_range; lia). rewrite (append_byte _ a1) in C3 by (unfold byte_range; lia).
  destruct (send_last_address (t + 2 * h * 8 + 2 * h * 8 + 2 * h * 8) h bytes ((0 * 256 + a2) * 256 + a1) a0 f3 0 Hne Hall) as (f4 & w4 & E4 & I4 & S4); [by rewrite M3, M2, M1 | exact C3 | done |].
  rewrite append_byte in E4, S4 by (unfold byte_range; lia). change (0 * 256 + a2) with a2 in *. set (a := (a2 * 256 + a1) * 256 + a0) in *.
  rewrite wrap_small in S4 by (unfold fits; lia).
  destruct (exchange_rest bytes Hne Hall h (take 7 dummy) (t + 2 * h * 8 + 2 * h * 8 + 2 * h * 8 + 2 * h * 8) (a + 1) (flashByte bytes a) f4 w4 I4 (flashByte_range bytes Hall a))
    as (f5 & w5 & E5 & I5 & S5); [by rewrite length_take, Hd, Nat.min_l by lia |].
  destruct (exchange_bytes bytes Hne Hall h n (drop 7 dummy) (t + 2 * h * 8 + 2 * h * 8 + 2 * h * 8 + 2 * h * 8 + 2 * h * 7) (a + 1) _ f5 w5 I5 (flashByte_range bytes Hall a) S5) as (fw & E6);
    [rewrite length_drop; lia | lia | lia |].
  assert (length (take 7 dummy) = 7%nat) as L7 by (rewrite length_take; lia). rewrite L7 in E5.
  exists fw. rewrite <- (take_drop 7 dummy), exchange_app, E1. cbn [mbind option_bind]. rewrite length_msbFirst. change (Z.of_nat 8) with 8.
  rewrite exchange_app, E2. cbn [mbind option_bind]. rewrite length_msbFirst. change (Z.of_nat 8) with 8. rewrite exchange_app, E3. cbn [mbind option_bind]. rewrite length_msbFirst. change (Z.of_nat 8) with 8.
  rewrite exchange_app, E4. cbn [mbind option_bind]. rewrite length_msbFirst. change (Z.of_nat 8) with 8. rewrite exchange_app, E5. cbn [mbind option_bind]. rewrite L7. change (Z.of_nat 7) with 7. rewrite E6.
  cbn [mbind option_bind]. rewrite contents_S. reflexivity.
Qed.

Lemma spi_read_command_witness : exists fw,
  exchange 0 5 (msbFirst 8 0x3 ++ msbFirst 8 0 ++ msbFirst 8 0 ++ msbFirst 8 3 ++ replicate 15 1) (openFile [10; 20; 30; 40] newSPIFlash, 0) =
    Some (fw, replicate 31 0 ++ msbFirst 8 40 ++ msbFirst 8 10).
Proof.
  apply (spi_read_command [10; 20; 30; 40] 0 0 3 (replicate 15 1) 1 0 5); try (unfold byte_range; lia); try done.
  repeat constructor; unfold byte_range; lia.
Defined.
