(* ===== verification/EthernetPhy.v ===== *)
(** * The Ethernet interface (lib/EthernetPhy.cpp)

    Two devices move frames between a network link and the pins of the media independent interface, four bits at a
    time: [EthernetPhyTx] takes nibbles on the rising edges of its clock and passes frames whose checksum is right on
    to the link; [EthernetPhyRx] takes frames from the link, appends the checksum and drives their nibbles on
    falling edges.  A third one answers the requests of the management interface. *)

From Stdlib Require Import ZArith Lia.
From stdpp Require Import base list numbers option relations.
From S2P Require Import Prelude BitManip Signal Timer Device.

#[local] Open Scope Z_scope.
#[local] Open Scope cbits_scope.

(** lib/EthernetPhy.cpp:25-25 ethernetPhyHalfPeriod *)
Definition ethernetPhyHalfPeriod : Z := CYCLES_PER_TICK * 2.
(** lib/EthernetPhy.cpp:26-26 ethernetPhyPeriod *)
Definition ethernetPhyPeriod : Z := ethernetPhyHalfPeriod * 2.
(** lib/EthernetPhy.cpp:27-27 interframeGap *)
Definition interframeGap : Z := 12 * 8 / 4.
(** lib/EthernetPhy.cpp:28-28 CRC32Poly *)
Definition CRC32Poly : Z := 0xEDB88320.
(** lib/EthernetPhy.cpp:30-30 minFrameSize *)
Definition minFrameSize : Z := 64.
(** lib/NetworkLink.h:17-17 maxFrameSize *)
Definition maxFrameSize : Z := 1500 + 18.

(** ** Transmission *)

(** lib/EthernetPhy.cpp:36-50 EthernetPhyTx *)
Record EthernetPhyTx := mkTx {
  TX_CLKSignal : Signal;
  TXDSignal : Signal;
  TX_ENSignal : Signal;
  TX_ERTracker : Signal;
  inFrame : bool;
  hadError : bool;
  frame : list Z;
  hasPrevNibble : bool;
  prevNibble : Z
}.

Definition set_signals txd en er x := mkTx (TX_CLKSignal x) txd en er (inFrame x) (hadError x) (frame x) (hasPrevNibble x) (prevNibble x).
Definition set_frame inF err fr has prev x := mkTx (TX_CLKSignal x) (TXDSignal x) (TX_ENSignal x) (TX_ERTracker x) inF err fr has prev.

(** lib/EthernetPhy.cpp:81-87 EthernetPhyTx::reset *)
Definition tx_reset (x : EthernetPhyTx) : EthernetPhyTx := set_frame false false [] false (prevNibble x) x.

(** lib/EthernetPhy.cpp:63-79 EthernetPhyTx::EthernetPhyTx: [junk] is the nibble that is not initialised *)
Definition newEthernetPhyTx (junk : Z) : option (EthernetPhyTx * list Call) :=
  clk ← clockSignal 0 ethernetPhyHalfPeriod;
  Some (mkTx clk (constant 0) (constant 0) newTracker false false [] false junk, [Pins 0 clk 0]).

(** lib/EthernetPhy.cpp:95-98 EthernetPhyTx::transmitFrame: the loop *)
Definition frameCRC (bytes : list Z) : Z := foldl (fun crc b => crc8 crc b CRC32Poly) 0x9226F562 bytes.

(** lib/EthernetPhy.cpp:89-106 EthernetPhyTx::transmitFrame *)
Definition transmitFrame (x : EthernetPhyTx) : list Call :=
  if zlength (frame x) <? minFrameSize then []
  else if negb (u32 (Z.lnot (frameCRC (frame x))) =? 0) then []
  else [Out (take (length (frame x) - 4) (frame x))].

(** lib/EthernetPhy.cpp:108-114 EthernetPhyTx::possibleSFD *)
Definition possibleSFD (x : EthernetPhyTx) : bool :=
  if isClock (TX_ENSignal x) || (getValue (TX_ENSignal x) 0 =? 1) then getValue (TXDSignal x) 0 =? 0xd else false.

(** lib/EthernetPhy.cpp:119-122 EthernetPhyTx::seeTXDChange: and the same lines of seeTX_ENChange *)
Definition lookForSFD (time : Z) : Op EthernetPhyTx := fun x =>
  if negb (inFrame x) && possibleSFD x then
    e ← getNextEdgeOf (TX_CLKSignal x) (u64 (time - 1)) RISING; Some (x, [Push 0 (edge_time e)])
  else Some (x, []).

(** lib/EthernetPhy.cpp:116-123 EthernetPhyTx::seeTXDChange *)
Definition seeTXDChange (s : Signal) (time : Z) : Op EthernetPhyTx := fun x =>
  lookForSFD time (set_signals s (TX_ENSignal x) (TX_ERTracker x) x).
(** lib/EthernetPhy.cpp:125-132 EthernetPhyTx::seeTX_ENChange *)
Definition seeTX_ENChange (s : Signal) (time : Z) : Op EthernetPhyTx := fun x =>
  lookForSFD time (set_signals (TXDSignal x) s (TX_ERTracker x) x).

(** lib/EthernetPhy.cpp:134-174 EthernetPhyTx::run *)
Definition tx_run (time : Z) : Op EthernetPhyTx := fun x =>
  let TXDValue := getValue (TXDSignal x) time in
  let TX_ENValue := getValue (TX_ENSignal x) time in
  let TX_ERValue := getValue (TX_ERTracker x) time in
  let '(x, l) :=
    if inFrame x then
      if negb (TX_ENValue =? 0) then
        if negb (TX_ERValue =? 0) then (set_frame true true (frame x) (hasPrevNibble x) (prevNibble x) x, [])
        else if hasPrevNibble x
             then (set_frame true (hadError x) (frame x ++ [u8 ((TXDValue .<< 4) .| prevNibble x)]) false (prevNibble x) x, [])
             else (set_frame true (hadError x) (frame x) true (u8 TXDValue) x, [])
      else (tx_reset x, if hadError x then [] else transmitFrame x)
    else if negb (TX_ENValue =? 0) && (TXDValue =? 0xd)
         then (set_frame true (negb (TX_ERValue =? 0)) (frame x) (hasPrevNibble x) (prevNibble x) x, [])
         else (x, []) in
  Some (x, l ++ (if (TX_ENValue =? 1) || isClock (TX_ENSignal x) then [Push 0 (u64 (time + ethernetPhyPeriod))] else [])).

(** lib/EthernetPhy.cpp:76-78 EthernetPhyTx::EthernetPhyTx: what the pins TXD, TX_EN and TX_ER are attached to *)
Definition tx_see (pin : nat) (s : Signal) (time : Z) : Op EthernetPhyTx :=
  match pin with
  | 0%nat => seeTXDChange s time
  | 1%nat => seeTX_ENChange s time
  | _ => fun x => Some (set_signals (TXDSignal x) (TX_ENSignal x) s x, [])
  end.

(** ** Reception *)

(** lib/EthernetPhy.cpp:188-193 EthernetPhyRx::State *)
Inductive RxState := IDLE | TX_SFD2 | TX_FRAME | TX_EFD.

(** lib/EthernetPhy.cpp:177-193 EthernetPhyRx: [rx_frame] is the array of [maxFrameSize] bytes *)
Record EthernetPhyRx := mkRx {
  RX_CLKSignal : Signal;
  RXDValue : Z;
  rx_frame : list Z;
  frameSize : Z;
  nibblesReceieved : Z;
  rx_state : RxState
}.

Definition set_rx_frame fr size x := mkRx (RX_CLKSignal x) (RXDValue x) fr size (nibblesReceieved x) (rx_state x).
Definition set_rx_state n st x := mkRx (RX_CLKSignal x) (RXDValue x) (rx_frame x) (frameSize x) n st.
Definition set_RXDValue v x := mkRx (RX_CLKSignal x) v (rx_frame x) (frameSize x) (nibblesReceieved x) (rx_state x).

(** lib/EthernetPhy.cpp:206-223 EthernetPhyRx::EthernetPhyRx: with the contents of the members that are not initialised *)
Definition newEthernetPhyRx (junkFrame : list Z) (junkSize junkNibbles : Z) : option (EthernetPhyRx * list Call) :=
  clk ← clockSignal 0 ethernetPhyHalfPeriod;
  e ← getNextEdgeOf clk 0 FALLING;
  Some (mkRx clk 0 junkFrame junkSize junkNibbles IDLE, [Pins 0 clk 0; Push 0 (edge_time e)]).

(** lib/EthernetPhy.cpp:225-240 EthernetPhyRx::appendCRC32 *)
Definition appendCRC32 (x : EthernetPhyRx) : option EthernetPhyRx :=
  let n := frameSize x in
  _ ← assert (n <=? zlength (rx_frame x));
  let crc := frameCRC (take (Z.to_nat n) (rx_frame x)) in
  let crc := u32 (Z.lnot (crc32 crc 0 CRC32Poly)) in
  l ← array_set (rx_frame x) n (u8 crc);
  l ← array_set l (n + 1) (u8 (crc .>> 8));
  l ← array_set l (n + 2) (u8 (crc .>> 16));
  l ← array_set l (n + 3) (u8 (crc .>> 24));
  Some (set_rx_frame l (u32 (n + 4)) x).

(** lib/EthernetPhy.cpp:242-253 EthernetPhyRx::receiveFrame: [incoming] is the frame that the link has, if it has one *)
Definition receiveFrame (incoming : option (list Z)) (x : EthernetPhyRx) : option (EthernetPhyRx * bool) :=
  match incoming with
  | None => Some (x, false)
  | Some bytes =>
      _ ← assert (zlength bytes <=? maxFrameSize);
      let fr := bytes ++ drop (length bytes) (rx_frame x) in
      let minSize := minFrameSize - 4 in
      let '(fr, n) :=
        if zlength bytes <? minSize
        then (bytes ++ replicate (Z.to_nat (minSize - zlength bytes)) 0 ++ drop (Z.to_nat minSize) fr, minSize)
        else (fr, zlength bytes) in
      x ← appendCRC32 (set_rx_frame fr n x);
      Some (x, true)
  end.

(** lib/EthernetPhy.cpp:255-261 EthernetPhyRx::setRXD *)
Definition setRXD (v time : Z) (x : EthernetPhyRx) : EthernetPhyRx * list Call :=
  if v =? RXDValue x then (x, []) else (set_RXDValue v x, [Pins 1 (constant v) time]).

(** lib/EthernetPhy.cpp:263-300 EthernetPhyRx::run *)
Definition rx_run (incoming : option (list Z)) (time : Z) : Op EthernetPhyRx := fun x =>
  let nextTime := u64 (time + ethernetPhyPeriod) in
  match rx_state x with
  | IDLE =>
      '(x, received) ← receiveFrame incoming x;
      if received : bool then
        let '(x, l) := setRXD 0x5 time x in
        Some (set_rx_state (nibblesReceieved x) TX_SFD2 x, l ++ [Pins 2 (constant 1) time; Push 0 nextTime])
      else Some (x, [Push 0 nextTime])
  | TX_SFD2 =>
      let '(x, l) := setRXD 0xd time x in
      Some (set_rx_state 0 TX_FRAME x, l ++ [Push 0 nextTime])
  | TX_FRAME =>
      let n := nibblesReceieved x in
      b ← array_get (rx_frame x) (n / 2);
      let data := (b .>> (n mod 2 * 4)) .& 0xff in
      let '(x, l) := setRXD data time x in
      let n := u32 (n + 1) in
      Some (set_rx_state n (if n =? u32 (frameSize x * 2) then TX_EFD else TX_FRAME) x, l ++ [Push 0 nextTime])
  | TX_EFD =>
      let '(x, l) := setRXD 0 time x in
      Some (set_rx_state (nibblesReceieved x) IDLE x,
        l ++ [Pins 2 (constant 0) time; Push 0 (u64 (time + ethernetPhyPeriod * interframeGap))])
  end.

(** ** The checksum *)

Lemma poly_u32 : is_u32 CRC32Poly.
Proof. unfold fits, CRC32Poly. lia. Qed.

(** Thirty-two bits that are shifted into a zero register are not folded back. *)
Lemma crc32_of_zero n : (n <= 32)%nat -> forall d, 0 <= d < 2 ^ Z.of_nat n -> crc32 0 d CRC32Poly = d.
Proof.
  induction n as [|n IH]; intros Hn d Hd.
  { assert (d = 0) as -> by (cbn in Hd; lia). vm_compute. reflexivity. }
  assert (forallb (fun k => crc32 0 (2 ^ Z.of_nat k) CRC32Poly =? 2 ^ Z.of_nat k) (seq 0 32) = true) as Hall by (vm_compute; reflexivity).
  rewrite forallb_forall in Hall. specialize (Hall n ltac:(apply in_seq; lia)). apply Z.eqb_eq in Hall.
  assert (2 ^ Z.of_nat (S n) = 2 * 2 ^ Z.of_nat n) as E2 by (rewrite Nat2Z.inj_succ, Z.pow_succ_r; lia).
  destruct (Z.lt_ge_cases d (2 ^ Z.of_nat n)); [apply IH; lia |].
  assert (d = Z.lxor (d - 2 ^ Z.of_nat n) (2 ^ Z.of_nat n)) as Hx.
  { rewrite <- Z.add_nocarry_lxor; [lia |]. apply Z.bits_inj'. intros i Hi. rewrite Z.land_spec, Z.bits_0, Z.pow2_bits_eqb by lia.
    destruct (Z.eqb_spec (Z.of_nat n) i) as [<- | ]; [| apply andb_false_r]. rewrite andb_true_r.
    rewrite <- (Z.mod_small (d - 2 ^ Z.of_nat n) (2 ^ Z.of_nat n)) by lia. apply Z.mod_pow2_bits_high. lia. }
  rewrite Hx at 1. change 0 with (Z.lxor 0 0) at 1. rewrite crc32_linear by (apply poly_u32 || (unfold fits; lia)). rewrite IH, Hall by lia. by rewrite <- Hx.
Qed.

Lemma frameCRC_u32 l : is_u32 (frameCRC l).
Proof.
  unfold frameCRC. assert (is_u32 0x9226F562) as H by (unfold fits; lia). revert H. generalize 0x9226F562.
  induction l as [|b l IH]; intros c H; cbn [foldl]; [done |]. apply IH; unfold crc8; apply crc_fits; [done | apply poly_u32].
Qed.

(** The bytes of a word, least significant first. *)
Definition wordBytes (k : Z) : list Z := [u8 k; u8 (k .>> 8); u8 (k .>> 16); u8 (k .>> 24)].

Lemma frameCRC_word l k : frameCRC (l ++ wordBytes k) = crc32 (frameCRC l) k CRC32Poly.
Proof.
  unfold frameCRC at 1. rewrite foldl_app. fold (frameCRC l). cbn [foldl wordBytes]. rewrite crc32_by_bytes. unfold extractBits. rewrite Z.shiftr_0_r.
  change (Z.shiftl 1 8 - 1) with (Z.ones 8). rewrite !Z.land_ones by lia. reflexivity.
Qed.

(** A frame with its checksum appended leaves all bits set. *)
Lemma frameCRC_residue l : frameCRC (l ++ wordBytes (u32 (Z.lnot (crc32 (frameCRC l) 0 CRC32Poly)))) = 0xffffffff.
Proof.
  rewrite frameCRC_word. set (c := crc32 (frameCRC l) 0 CRC32Poly). set (k := u32 (Z.lnot c)).
  assert (is_u32 c) as Hc by (apply crc_fits; [apply frameCRC_u32 | apply poly_u32]).
  assert (is_u32 k) as Hk by (by apply wrap_fits).
  transitivity (Z.lxor c k).
  - pose proof (crc32_linear (frameCRC l) 0 0 k CRC32Poly (frameCRC_u32 l) ltac:(unfold fits; lia) poly_u32) as H.
    rewrite Z.lxor_0_r, Z.lxor_0_l, (crc32_of_zero 32 ltac:(lia) k Hk) in H. exact H.
  - apply Z.bits_inj'. intros i Hi. rewrite Z.lxor_spec. unfold k. rewrite wrap_testbit by lia. change 0xffffffff with (Z.ones 32).
    destruct (Z.ltb_spec i 32).
    + rewrite Z.lnot_spec, Z.ones_spec_low by lia. by destruct (Z.testbit c i).
    + rewrite Z.ones_spec_high by lia. rewrite (fits_testbit_high 32 c i) by (done || lia). done.
Qed.

(** ** From the link to the link *)

(** The pins of the receiver connected to those of the transmitter: RXD, which has four bits, to TXD and RX_DV to TX_EN. *)
Definition mii (l : list Call) : list (Z * (nat * Signal)) := l ≫= fun c =>
  match c with
  | Pins 1 s time => [(time, (0%nat, constant (value s mod 16)))]
  | Pins 2 s time => [(time, (1%nat, s))]
  | _ => []
  end.

(** The receiver run so many times, a period apart; the link is asked for a frame in the first one. *)
Fixpoint rx_runs (n : nat) (incoming : option (list Z)) (time : Z) : Op EthernetPhyRx :=
  match n with
  | O => fun x => Some (x, [])
  | S n => andThen (rx_run incoming time) (rx_runs n None (time + ethernetPhyPeriod))
  end.

(** The frames that have been transmitted. *)
Definition transmitted (l : list Call) : list (list Z) := l ≫= fun c => match c with Out f => [f] | _ => [] end.

Abbreviation goes := (rtc (happened tx_see tx_run)).

(** The line has nothing before a time. *)
Definition from (t : Z) (l : list (Z * (nat * Signal))) : Prop := forall u x, head l = Some (u, x) -> t <= u.

Lemma from_app t l l' : from t l -> from t l' -> from t (l ++ l').
Proof. intros H H'. destruct l; [done |]. exact H. Qed.
Lemma from_mono t t' l : t' <= t -> from t l -> from t' l.
Proof. intros Ht H u x Hu. apply H in Hu. lia. Qed.
Lemma mii_app l l' : mii (l ++ l') = mii l ++ mii l'.
Proof. apply bind_app. Qed.
Lemma transmitted_app l l' : transmitted (l ++ l') = transmitted l ++ transmitted l'.
Proof. apply bind_app. Qed.

(** The transmitter in a frame of which it has seen the bytes [F], and a nibble [p]; [d] is on its data pins. *)
Record inside (F : list Z) (p : option Z) (d : Z) (y : EthernetPhyTx) : Prop := {
  in_signals : TXDSignal y = constant d /\ TX_ENSignal y = constant 1 /\ TX_ERTracker y = constant 0;
  in_clock : TX_CLKSignal y = mkSignal ethernetPhyHalfPeriod 0;
  in_frame : inFrame y = true /\ hadError y = false /\ frame y = F;
  in_prev : match p with Some v => hasPrevNibble y = true /\ prevNibble y = v | None => hasPrevNibble y = false end
}.

(** A nibble: a level on the data pins, if it is a new one, and the next rising edge. *)
Lemma tx_nibble F p d d' y t ev : inside F p d y -> 0 <= d' < 16 -> 0 <= t -> t + 24 < 2 ^ 64 ->
  (ev = [] /\ d' = d \/ ev = [(t, (0%nat, constant d'))]) ->
  exists y', match p with None => inside F (Some d') d' y' | Some v => inside (F ++ [u8 ((d' .<< 4) .| v)]) None d' y' end /\
    forall rest m, from (t + 16) rest ->
    goes (mkCourse y (Some (t + 8)) (ev ++ rest) m) (mkCourse y' (Some (t + 24)) rest (m ++ [Push 0 (t + 24)])).
Proof.
  intros [(S1 & S2 & S3) Hc (I1 & I2 & I3) Hp] Hd Ht Hlim Hev. set (y1 := set_signals (constant d') (TX_ENSignal y) (TX_ERTracker y) y).
  assert (forall rest m, goes (mkCourse y (Some (t + 8)) (ev ++ rest) m) (mkCourse y1 (Some (t + 8)) rest m)) as G1.
  { intros rest m. destruct Hev as [[-> ->] | ->].
    - replace y1 with y; [done |]. unfold y1. rewrite <- S1. by destruct y.
    - apply rtc_once. apply happens_see with (k := []); [by intros w' [= <-]; lia | | done | by rewrite app_nil_r].
      unfold tx_see, seeTXDChange, lookForSFD. cbn [inFrame set_signals]. by rewrite I1. }
  assert (tx_run (t + 8) y1 = Some (match p with
    | Some v => set_frame true (hadError y1) (frame y1 ++ [u8 ((d' .<< 4) .| v)]) false v y1
    | None => set_frame true (hadError y1) (frame y1) true (u8 d') y1 end, [Push 0 (t + 24)])) as E.
  { unfold tx_run, y1. cbn [TXDSignal TX_ENSignal TX_ERTracker set_signals inFrame hadError hasPrevNibble frame prevNibble]. rewrite S2, S3, I1.
    cbn [getValue constant halfPeriod value Z.eqb negb isClock orb]. replace (t + 8 + ethernetPhyPeriod) with (t + 24) by (unfold ethernetPhyPeriod, ethernetPhyHalfPeriod, CYCLES_PER_TICK; lia).
    rewrite (wrap_small 64 (t + 24)) by (unfold fits; lia). destruct p as [v|]; [destruct Hp as [-> ->] | rewrite Hp]; reflexivity. }
  eexists. split; cycle 1.
  { intros rest m Hr. etrans; [apply G1 |]. apply rtc_once. eapply happens_run; [| exact E | done | done]. intros u x Hu. apply Hr in Hu. lia. }
  destruct p as [v|]; cbn; [split; cbn; rewrite ?S2, ?S3, ?I3, ?I2; done |].
  split; cbn; rewrite ?S2, ?S3, ?I3, ?I2; try done. split; [done |]. apply wrap_small. unfold fits. lia.
Qed.

(** The receiver after [j] nibbles of the bytes [l]; [d] is on its data pins, before the upper bits are cut off. *)
Record driving (l : list Z) (j d : Z) (x : EthernetPhyRx) : Prop := {
  dr_state : rx_state x = if j =? 2 * zlength l then TX_EFD else TX_FRAME;
  dr_size : frameSize x = zlength l /\ zlength l < 2 ^ 30;
  dr_frame : forall i, 0 <= i < zlength l -> array_get (rx_frame x) i = array_get l i;
  dr_length : zlength (rx_frame x) = maxFrameSize;
  dr_nibbles : nibblesReceieved x = j /\ 0 <= j;
  dr_data : RXDValue x = d
}.

(** What is put on the data pins for a nibble: the rest of the byte. *)
Definition nibbleData (b j : Z) : Z := (b .>> (j mod 2 * 4)) .& 0xff.

Lemma rx_nibble l j d b t x : driving l j d x -> j < 2 * zlength l -> array_get l (j / 2) = Some b ->
  exists x' c, rx_run None t x = Some (x', c) /\ driving l (j + 1) (nibbleData b j) x' /\
    mii c = (if nibbleData b j =? d then [] else [(t, (0%nat, constant (nibbleData b j mod 16)))]).
Proof.
  intros [Hs [Hn Hlim] Hf Hlen [Hj Hj0] Hd] Hlt Hb. rewrite (proj2 (Z.eqb_neq j _)) in Hs by lia. unfold rx_run. rewrite Hs, Hj, Hf, Hb by (Z.div_mod_to_equations; lia).
  cbn [mbind option_bind]. fold (nibbleData b j). unfold setRXD. rewrite Hd.
  rewrite (wrap_small 32 (j + 1)) by (unfold fits; lia).
  destruct (Z.eqb_spec (nibbleData b j) d) as [E | E]; eexists _, _; (split; [reflexivity |]); (split; [| done]).
  all: split; cbn [rx_state set_rx_state frameSize set_RXDValue rx_frame nibblesReceieved RXDValue]; rewrite ?Hn; try done; try lia.
  all: rewrite (wrap_small 32) by (unfold fits; lia); by rewrite (Z.mul_comm 2).
Qed.

Lemma nibbles_of_byte b : 0 <= b < 256 ->
  0 <= nibbleData b 0 mod 16 < 16 /\ 0 <= nibbleData b 1 mod 16 < 16 /\ u8 (((nibbleData b 1 mod 16) .<< 4) .| (nibbleData b 0 mod 16)) = b.
Proof.
  intros Hb. split; [apply Z.mod_pos_bound; lia |]. split; [apply Z.mod_pos_bound; lia |].
  assert (forallb (fun n => let b := Z.of_nat n in u8 (((nibbleData b 1 mod 16) .<< 4) .| (nibbleData b 0 mod 16)) =? b) (seq 0 256) = true) as Hall by (vm_compute; reflexivity).
  rewrite forallb_forall in Hall. specialize (Hall (Z.to_nat b) ltac:(apply in_seq; lia)). apply Z.eqb_eq in Hall. by rewrite Z2Nat.id in Hall by lia.
Qed.

Lemma nibbleData_mod2 b j : nibbleData b j = nibbleData b (j mod 2).
Proof. unfold nibbleData. by rewrite Z.mod_mod by lia. Qed.

(** The event on the line for a value on the data pins. *)
Lemma mii_event v d t (ev : list (Z * (nat * Signal))) : ev = (if v =? d then [] else [(t, (0%nat, constant (v mod 16)))]) ->
  ev = [] /\ v mod 16 = d mod 16 \/ ev = [(t, (0%nat, constant (v mod 16)))].
Proof. intros ->. destruct (Z.eqb_spec v d) as [-> |]; auto. Qed.

(** The bytes of a frame go over, each in two nibbles. *)
Lemma mii_bytes l bs : forall i d x y F t rest m, driving l (2 * i) d x -> drop (Z.to_nat i) l = bs -> 0 <= i -> Forall (fun b => 0 <= b < 256) bs ->
  inside F None (d mod 16) y -> 0 <= t -> t + 32 * zlength bs + 8 < 2 ^ 64 -> from (t + 32 * zlength bs) rest ->
  exists x' y' c k d', rx_runs (2 * length bs) None t x = Some (x', c) /\ driving l (2 * i + 2 * zlength bs) d' x' /\
    goes (mkCourse y (Some (t + 8)) (mii c ++ rest) m) (mkCourse y' (Some (t + 32 * zlength bs + 8)) rest (m ++ k)) /\
    inside (F ++ bs) None (d' mod 16) y' /\ transmitted k = [] /\ from t (mii c ++ rest).
Proof.
  induction bs as [|b bs IH]; intros i d x y F t rest m Hx Hbs Hi Hall Hy Ht Hlim Hrest.
  { exists x, y, [], [], d. cbn [length Nat.mul rx_runs Z.of_nat] in *. rewrite !app_nil_r, Z.mul_0_r, !Z.add_0_r in *. done. }
  apply Forall_cons in Hall as [Hb Hall]. cbn [length] in *. rewrite Nat2Z.inj_succ in *.
  destruct (nibbles_of_byte b Hb) as (R0 & R1 & Hbyte).
  assert (array_get l i = Some b) as Hl.
  { unfold array_get. rewrite (proj2 (Z.leb_le 0 i)) by done. by rewrite <- (Nat.add_0_r (Z.to_nat i)), <- lookup_drop, Hbs. }
  assert (drop (Z.to_nat (i + 1)) l = bs) as Hbs'.
  { rewrite Z2Nat.inj_add by lia. change (Z.to_nat 1) with 1%nat. by rewrite <- drop_drop, Hbs. }
  pose proof (array_get_bound _ _ _ Hl) as Hil.
  assert (nibbleData b (2 * i) = nibbleData b 0 /\ nibbleData b (2 * i + 1) = nibbleData b 1) as [N0 N1].
  { rewrite (nibbleData_mod2 b (2 * i)), (nibbleData_mod2 b (2 * i + 1)). split; f_equal; Z.div_mod_to_equations; lia. }
  destruct (rx_nibble l (2 * i) d b t x Hx) as (x1 & c1 & E1 & X1 & M1); [lia | by rewrite Z.mul_comm, Z.div_mul |]. rewrite N0 in *.
  destruct (rx_nibble l (2 * i + 1) (nibbleData b 0) b (t + 16) x1 X1) as (x2 & c2 & E2 & X2 & M2);
    [lia | by replace ((2 * i + 1) / 2) with i by (Z.div_mod_to_equations; lia) |]. rewrite N1 in *.
  replace (2 * i + 1 + 1) with (2 * (i + 1)) in X2 by lia.
  destruct (tx_nibble F None (d mod 16) (nibbleData b 0 mod 16) y t (mii c1) Hy) as (y1 & Y1 & G1); [lia | lia | lia | by apply mii_event |].
  destruct (tx_nibble F _ _ (nibbleData b 1 mod 16) y1 (t + 16) (mii c2) Y1) as (y2 & Y2 & G2); [lia | lia | lia | by apply mii_event |].
  rewrite Hbyte in Y2.
  destruct (IH (i + 1) (nibbleData b 1) x2 y2 (F ++ [b]) (t + 32) rest ((m ++ [Push 0 (t + 24)]) ++ [Push 0 (t + 40)])) as (x3 & y3 & c3 & k & d' & E3 & X3 & G3 & Y3 & T3 & Fr3);
    try done; [lia | lia | lia | by replace (t + 32 + 32 * zlength bs) with (t + 32 * Z.succ (zlength bs)) by lia |].
  exists x3, y3, (c1 ++ c2 ++ c3), ([Push 0 (t + 24)] ++ [Push 0 (t + 40)] ++ k), d'.
  replace (2 * S (length bs))%nat with (S (S (2 * length bs))) by lia. cbn [rx_runs]. unfold andThen at 1. rewrite E1. cbn [mbind option_bind].
  unfold andThen at 1. change ethernetPhyPeriod with 16. rewrite E2. cbn [mbind option_bind]. replace (t + 16 + 16) with (t + 32) by lia. rewrite E3. cbn [mbind option_bind].
  split; [done |]. split; [by replace (2 * i + 2 * Z.succ (zlength bs)) with (2 * (i + 1) + 2 * zlength bs) by lia |].
  rewrite !mii_app, <- !app_assoc. assert (from (t + 16) (mii c2 ++ mii c3 ++ rest)) as Fr2.
  { apply from_app; [rewrite M2; intros u z Hu; case_match; simplify_eq/=; lia | by apply from_mono with (t + 32); [lia |]]. }
  split; [| split; [by rewrite <- app_assoc in Y3 | split; [by rewrite !transmitted_app, T3 |]]].
  - etrans; [by apply G1 |]. replace (t + 24) with (t + 16 + 8) at 1 by lia. etrans; [apply G2; replace (t + 16 + 16) with (t + 32) by lia; done |].
    replace (t + 16 + 24) with (t + 32 + 8) by lia. replace (t + 32 * Z.succ (zlength bs) + 8) with (t + 32 + 32 * zlength bs + 8) by lia.
    replace (t + 32 + 8) with (t + 40) in * by lia. rewrite !app_assoc in *. exact G3.
  - apply from_app; [rewrite M1; intros u z Hu; case_match; simplify_eq/=; lia | by apply from_mono with (t + 16); [lia |]].
Qed.

(** ** A whole frame *)

Definition pad (bytes : list Z) : list Z := bytes ++ replicate (60 - length bytes) 0.
Definition checksummed (bytes : list Z) : list Z := pad bytes ++ wordBytes (u32 (Z.lnot (crc32 (frameCRC (pad bytes)) 0 CRC32Poly))).

Lemma length_pad bytes : zlength (pad bytes) = Z.max 60 (zlength bytes).
Proof. unfold pad. rewrite length_app, length_replicate. lia. Qed.
Lemma length_checksummed bytes : zlength (checksummed bytes) = Z.max 60 (zlength bytes) + 4.
Proof. unfold checksummed. rewrite length_app, Nat2Z.inj_add, length_pad. done. Qed.

Lemma array_set_middle {A} (p : list A) a q v : array_set (p ++ a :: q) (zlength p) v = Some (p ++ v :: q).
Proof.
  unfold array_set. rewrite length_app. cbn [length]. rewrite (proj2 (Z.leb_le 0 _)), (proj2 (Z.ltb_lt _ _)), Nat2Z.id by lia. cbn [andb].
  by rewrite insert_app_r_alt, Nat.sub_diag by lia.
Qed.

Lemma appendCRC32_spec p q x : rx_frame x = p ++ q -> (4 <= length q)%nat -> frameSize x = zlength p -> zlength p < 2 ^ 30 ->
  appendCRC32 x = Some (set_rx_frame (p ++ wordBytes (u32 (Z.lnot (crc32 (frameCRC p) 0 CRC32Poly))) ++ drop 4 q) (zlength p + 4) x).
Proof.
  intros Hf Hq Hn Hlim. unfold appendCRC32. rewrite Hf, Hn, length_app, (proj2 (Z.leb_le _ _)) by lia. cbn [assert mbind option_bind].
  rewrite Nat2Z.id, take_app_length. set (k := u32 (Z.lnot _)). unfold assert. cbn [mbind option_bind].
  destruct q as [|q0 [|q1 [|q2 [|q3 q]]]]; cbn in Hq; try lia.
  rewrite array_set_middle. cbn [mbind option_bind].
  pose proof (array_set_middle (p ++ [u8 k]) q1 (q2 :: q3 :: q) (u8 (k .>> 8))) as H1.
  pose proof (array_set_middle (p ++ [u8 k; u8 (k .>> 8)]) q2 (q3 :: q) (u8 (k .>> 16))) as H2.
  pose proof (array_set_middle (p ++ [u8 k; u8 (k .>> 8); u8 (k .>> 16)]) q3 q (u8 (k .>> 24))) as H3.
  rewrite !length_app, <- !app_assoc in H1, H2, H3. cbn [length app] in H1, H2, H3. rewrite !Nat2Z.inj_add in H1, H2, H3.
  change (Z.of_nat 1) with 1 in *. change (Z.of_nat 2) with 2 in *. change (Z.of_nat 3) with 3 in *.
  rewrite H1. cbn [mbind option_bind]. rewrite H2. cbn [mbind option_bind]. rewrite H3. cbn [mbind option_bind].
  rewrite (wrap_small 32) by (unfold fits; lia). reflexivity.
Qed.

Lemma receiveFrame_spec bytes x : zlength (rx_frame x) = maxFrameSize -> zlength bytes <= maxFrameSize - 4 ->
  exists l, receiveFrame (Some bytes) x = Some (set_rx_frame l (zlength (checksummed bytes)) x, true) /\ zlength l = maxFrameSize /\
    forall i, 0 <= i < zlength (checksummed bytes) -> array_get l i = array_get (checksummed bytes) i.
Proof.
  unfold maxFrameSize. intros Hl Hb. pose proof (length_pad bytes) as Lp. unfold receiveFrame, maxFrameSize, minFrameSize.
  rewrite (proj2 (Z.leb_le _ _)) by lia. cbn [assert mbind option_bind]. set (q := drop (Z.to_nat (Z.max 60 (zlength bytes))) (rx_frame x)).
  assert (length q = (1518 - Z.to_nat (Z.max 60 (zlength bytes)))%nat) as Lq by (unfold q; rewrite length_drop; lia).
  assert ((if zlength bytes <? 64 - 4
           then (bytes ++ replicate (Z.to_nat (64 - 4 - zlength bytes)) 0 ++ drop (Z.to_nat (64 - 4)) (bytes ++ drop (length bytes) (rx_frame x)), 64 - 4)
           else (bytes ++ drop (length bytes) (rx_frame x), zlength bytes)) = (pad bytes ++ q, zlength (pad bytes))) as ->.
  { unfold pad, q. destruct (Z.ltb_spec (zlength bytes) (64 - 4)).
    - rewrite Z.max_l by lia. rewrite drop_app_ge, drop_drop by lia. rewrite <- app_assoc. f_equal; [do 2 f_equal; f_equal; lia |].
      rewrite length_app, length_replicate. lia.
    - rewrite Z.max_r, Nat2Z.id by lia. replace (60 - length bytes)%nat with 0%nat by lia. by rewrite app_nil_r. }
  rewrite (appendCRC32_spec (pad bytes) q) by (done || lia). cbn [mbind option_bind].
  eexists. split; [rewrite length_checksummed, Lp; reflexivity |]. split.
  - rewrite !length_app, length_drop. cbn. lia.
  - intros i Hi. rewrite app_assoc. fold (checksummed bytes). rewrite array_get_app_l by lia. done.
Qed.

(** The two devices between frames. *)
Record restingRx (x : EthernetPhyRx) : Prop := { rr_state : rx_state x = IDLE; rr_data : RXDValue x = 0; rr_frame : zlength (rx_frame x) = maxFrameSize }.
Record restingTx (y : EthernetPhyTx) : Prop := {
  rt_signals : TXDSignal y = constant 0 /\ TX_ENSignal y = constant 0 /\ TX_ERTracker y = constant 0;
  rt_clock : TX_CLKSignal y = mkSignal ethernetPhyHalfPeriod 0;
  rt_frame : inFrame y = false /\ hadError y = false /\ frame y = [] /\ hasPrevNibble y = false
}.

Lemma next_rising m : 0 <= m -> 16 * m + 24 < 2 ^ 64 ->
  getNextEdgeOf (mkSignal ethernetPhyHalfPeriod 0) (u64 (16 * m + 16 - 1)) RISING = Some (mkEdge (16 * m + 24) RISING).
Proof.
  intros Hm Hlim. unfold getNextEdgeOf, getEdgeIterator, getNextEdge. change ethernetPhyHalfPeriod with 8. cbn [halfPeriod value Z.eqb mbind option_bind].
  rewrite (wrap_small 64 (16 * m + 16 - 1)) by (unfold fits; lia). rewrite Z.sub_0_r, (wrap_small 64 (16 * m + 16 - 1)) by (unfold fits; lia).
  replace ((16 * m + 16 - 1) / 8) with (2 * m + 1) by (Z.div_mod_to_equations; lia). replace (1 + (2 * m + 1)) with (2 * m + 2) by lia.
  rewrite (wrap_small 64 (2 * m + 2)) by (unfold fits; lia). rewrite parity_type.
  replace ((2 * m + 2) mod 2) with 0 by (Z.div_mod_to_equations; lia). cbn -[wrap Z.mul Z.add]. rewrite Z.add_0_l.
  rewrite (wrap_small 64 ((2 * m + 2) * 8)) by (unfold fits; lia).
  unfold it_next, it_time, it_type. cbn -[wrap Z.mul Z.add]. rewrite (wrap_small 64) by (unfold fits; lia). by replace ((2 * m + 2) * 8 + 8) with (16 * m + 24) by lia.
Qed.

(** The start of a frame: the receiver drives the two nibbles that delimit it. *)
Lemma rx_start bytes x t : restingRx x -> zlength bytes <= maxFrameSize - 4 ->
  exists x' c, rx_runs 2 (Some bytes) t x = Some (x', c) /\ driving (checksummed bytes) 0 0xd x' /\
    mii c = [(t, (0%nat, constant 5)); (t, (1%nat, constant 1)); (t + 16, (0%nat, constant 0xd))].
Proof.
  intros [Hs Hd Hf] Hb. destruct (receiveFrame_spec bytes x Hf Hb) as (l & E & Hl & Hg). pose proof (length_checksummed bytes) as Hn.
  unfold maxFrameSize in Hb. set (x0 := set_rx_frame l (zlength (checksummed bytes)) x) in *.
  set (x1 := set_rx_state (nibblesReceieved x) TX_SFD2 (set_RXDValue 5 x0)). set (x2 := set_rx_state 0 TX_FRAME (set_RXDValue 0xd x1)).
  assert (rx_run (Some bytes) t x = Some (x1, [Pins 1 (constant 5) t; Pins 2 (constant 1) t; Push 0 (u64 (t + ethernetPhyPeriod))])) as E1.
  { unfold rx_run. rewrite Hs, E. cbn [mbind option_bind]. unfold setRXD. change (RXDValue x0) with (RXDValue x). by rewrite Hd. }
  assert (rx_run None (t + ethernetPhyPeriod) x1 = Some (x2, [Pins 1 (constant 0xd) (t + ethernetPhyPeriod); Push 0 (u64 (t + ethernetPhyPeriod + ethernetPhyPeriod))])) as E2 by done.
  exists x2. eexists. split; [unfold rx_runs, andThen; rewrite E1; cbn [mbind option_bind]; rewrite E2; reflexivity |]. split; [| done].
  split; try done; [by rewrite (proj2 (Z.eqb_neq 0 _)) by lia | split; [done | lia]].
Qed.

Lemma tx_start y m : restingTx y -> 0 <= m -> 16 * m + 48 < 2 ^ 64 ->
  exists y', inside [] None 0xd y' /\ forall rest k, from (16 * m + 32) rest ->
    goes (mkCourse y None ([(16 * m, (0%nat, constant 5)); (16 * m, (1%nat, constant 1)); (16 * m + 16, (0%nat, constant 0xd))] ++ rest) k)
      (mkCourse y' (Some (16 * m + 40)) rest (k ++ [Push 0 (16 * m + 24)] ++ [Push 0 (16 * m + 40)])).
Proof.
  intros [(S1 & S2 & S3) Hc (I1 & I2 & I3 & I4)] Hm Hlim. set (y3 := set_signals (constant 0xd) (constant 1) (constant 0) y).
  exists (set_frame true false [] false (prevNibble y) y3). split; [by split |]. intros rest k Hr. cbn [app].
  eapply rtc_l; [apply happens_see with (k := []) (s' := set_signals (constant 5) (TX_ENSignal y) (TX_ERTracker y) y); [done | | done | done] |].
  { unfold tx_see, seeTXDChange, lookForSFD, possibleSFD. cbn [inFrame set_signals TX_ENSignal TXDSignal]. rewrite I1, S2. reflexivity. }
  eapply rtc_l; [apply happens_see with (k := []) (s' := set_signals (constant 5) (constant 1) (constant 0) y); [done | | done | done] |].
  { unfold tx_see, seeTX_ENChange, lookForSFD, possibleSFD. cbn [inFrame set_signals TX_ENSignal TXDSignal TX_ERTracker]. rewrite I1, S3. reflexivity. }
  rewrite !app_nil_r. eapply rtc_l; [apply happens_see with (k := [Push 0 (16 * m + 24)]) (s' := y3); [done | | done | done] |].
  { unfold tx_see, seeTXDChange, lookForSFD, possibleSFD. cbn [inFrame set_signals TX_ENSignal TXDSignal TX_ERTracker TX_CLKSignal]. rewrite I1, Hc. cbn [negb andb isClock halfPeriod constant orb getValue value Z.eqb].
    change (1 =? 1) with true. change (13 =? 13) with true. cbv iota. by rewrite next_rising by lia. }
  apply rtc_once. apply happens_run with (k := [Push 0 (16 * m + 40)]); [| | done | by rewrite <- app_assoc].
  - intros u z Hu. apply Hr in Hu. lia.
  - unfold tx_run, y3. cbn [TXDSignal TX_ENSignal TX_ERTracker set_signals inFrame hadError hasPrevNibble frame prevNibble]. rewrite I1, I3, I4.
    cbn [getValue constant halfPeriod value Z.eqb negb isClock orb andb]. change (1 =? 1) with true. change (13 =? 13) with true. cbv iota. cbn [app].
    change ethernetPhyPeriod with 16. rewrite (wrap_small 64) by (unfold fits; lia). by replace (16 * m + 24 + 16) with (16 * m + 40) by lia.
Qed.

(** The end of a frame. *)
Lemma rx_end l d x t : driving l (2 * zlength l) d x ->
  exists x' c, rx_runs 1 None t x = Some (x', c) /\ restingRx x' /\
    mii c = (if 0 =? d then [] else [(t, (0%nat, constant 0))]) ++ [(t, (1%nat, constant 0))].
Proof.
  intros [Hs [Hn Hlim] Hf Hlen [Hj Hj0] Hd]. rewrite Z.eqb_refl in Hs. unfold rx_runs, andThen, rx_run. rewrite Hs. unfold setRXD. rewrite Hd.
  destruct (Z.eqb_spec 0 d) as [<- | E]; cbn [mbind option_bind]; eexists _, _; (split; [reflexivity |]); by split.
Qed.

(** A frame whose checksum is right is passed on without it. *)
Lemma transmitFrame_checksummed bytes y : frame y = checksummed bytes -> transmitFrame y = [Out (pad bytes)].
Proof.
  intros Hf. unfold transmitFrame, minFrameSize. rewrite Hf, length_checksummed, (proj2 (Z.ltb_ge _ 64)) by lia.
  unfold checksummed at 1. rewrite frameCRC_residue. change (negb (u32 (Z.lnot 0xffffffff) =? 0)) with false. cbv iota. do 2 f_equal.
  unfold checksummed. rewrite length_app. cbn [wordBytes length]. rewrite Nat.add_sub. apply take_app_length.
Qed.

Lemma tx_end bytes d y t : inside (checksummed bytes) None (d mod 16) y ->
  exists y', restingTx y' /\ forall k,
    goes (mkCourse y (Some (t + 8)) ((if 0 =? d then [] else [(t, (0%nat, constant 0))]) ++ [(t, (1%nat, constant 0))]) k) (mkCourse y' None [] (k ++ [Out (pad bytes)])).
Proof.
  intros [(S1 & S2 & S3) Hc (I1 & I2 & I3) Hp]. set (y1 := set_signals (constant 0) (TX_ENSignal y) (TX_ERTracker y) y).
  set (y2 := set_signals (constant 0) (constant 0) (TX_ERTracker y) y). exists (tx_reset y2). split; [by split |]. intros k.
  assert (forall w rest, goes (mkCourse y (Some (t + 8)) ((if 0 =? d then [] else [(t, (0%nat, constant 0))]) ++ rest) w) (mkCourse y1 (Some (t + 8)) rest w)) as G1.
  { intros w rest. destruct (Z.eqb_spec 0 d) as [<- | E].
    - replace y1 with y; [done |]. unfold y1. change (constant 0) with (constant (0 mod 16)). rewrite <- S1. by destruct y.
    - apply rtc_once. apply happens_see with (k := []); [by intros w' [= <-]; lia | | done | by rewrite app_nil_r].
      unfold tx_see, seeTXDChange, lookForSFD. cbn [inFrame set_signals]. by rewrite I1. }
  etrans; [apply G1 |]. eapply rtc_l; [apply happens_see with (k := []) (s' := y2); [by intros w' [= <-]; lia | | done | done] |].
  { unfold tx_see, seeTX_ENChange, lookForSFD, y1. cbn [inFrame set_signals]. rewrite I1. reflexivity. }
  rewrite app_nil_r. apply rtc_once. apply happens_run with (k := [Out (pad bytes)]); [done | | done | done].
  unfold tx_run, y2. cbn [TXDSignal TX_ENSignal TX_ERTracker set_signals inFrame hadError hasPrevNibble frame prevNibble]. rewrite I1, I2.
  cbn [getValue constant halfPeriod value Z.eqb negb isClock orb app]. by rewrite (transmitFrame_checksummed bytes).
Qed.

Lemma rx_runs_app n m inc t x : rx_runs (n + m) inc t x =
  match n with O => rx_runs m inc t x | _ => andThen (rx_runs n inc t) (rx_runs m None (t + ethernetPhyPeriod * Z.of_nat n)) x end.
Proof.
  revert inc t x. induction n as [|n IH]; intros inc t x; [done |]. cbn [Nat.add rx_runs]. unfold andThen.
  destruct (rx_run inc t x) as [[x1 l1]|]; [| done]. cbn [mbind option_bind]. rewrite IH. destruct n as [|n].
  - cbn [rx_runs mbind option_bind]. rewrite Z.mul_1_r. rewrite app_nil_r. done.
  - unfold andThen. destruct (rx_runs (S n) None _ x1) as [[x2 l2]|]; [| done]. cbn [mbind option_bind].
    replace (t + ethernetPhyPeriod + ethernetPhyPeriod * Z.of_nat (S n)) with (t + ethernetPhyPeriod * Z.of_nat (S (S n))) by lia.
    destruct (rx_runs m None _ x2) as [[]|]; [| done]. cbn. by rewrite app_assoc.
Qed.

Lemma checksummed_bytes bytes : Forall (fun b => 0 <= b < 256) bytes -> Forall (fun b => 0 <= b < 256) (checksummed bytes).
Proof.
  intros Hb. unfold checksummed, pad. rewrite !Forall_app. split; [split; [done | by apply Forall_replicate; lia] |].
  generalize (u32 (Z.lnot (crc32 (frameCRC (bytes ++ replicate (60 - length bytes) 0)) 0 CRC32Poly))). intros k.
  unfold wordBytes. repeat (apply Forall_cons_2; [by apply (wrap_fits 8) |]). apply Forall_nil_2.
Qed.

(** C22: A frame that the receiver gets from the network and drives on its pins, nibble by nibble with the checksum it
    has computed, is accepted by a transmitter whose pins are connected to them, which passes on the same bytes,
    padded to the smallest size of a frame; both are then ready for the next frame. *)
Theorem ethernet_loopback x y bytes m : restingRx x -> restingTx y -> Forall (fun b => 0 <= b < 256) bytes ->
  zlength bytes <= maxFrameSize - 4 -> 0 <= m < 2 ^ 59 ->
  exists x' y' c k, rx_runs (2 + (2 * length (checksummed bytes) + 1)) (Some bytes) (16 * m) x = Some (x', c) /\ restingRx x' /\
    goes (mkCourse y None (mii c) []) (mkCourse y' None [] k) /\ transmitted k = [pad bytes] /\ restingTx y'.
Proof.
  intros Hx Hy Hb Hl Hm. pose proof (length_checksummed bytes) as Hn. unfold maxFrameSize in Hl.
  set (n := length (checksummed bytes)) in *. set (l := checksummed bytes) in *.
  destruct (rx_start bytes x (16 * m) Hx Hl) as (x1 & c1 & E1 & X1 & M1).
  destruct (tx_start y m Hy) as (y1 & Y1 & G1); [lia | lia |].
  set (tE := 16 * m + 32 + 32 * Z.of_nat n).
  assert (forall d x, driving l (2 * zlength l) d x -> exists x' c, rx_runs 1 None tE x = Some (x', c) /\ restingRx x' /\
    mii c = (if 0 =? d then [] else [(tE, (0%nat, constant 0))]) ++ [(tE, (1%nat, constant 0))]) as Hend by (intros; by apply rx_end with (l := l)).
  assert (exists x2 c2 d, rx_runs (2 * n) None (16 * m + 32) x1 = Some (x2, c2) /\ driving l (2 * zlength l) d x2) as (x2 & c2 & d & E2 & X2).
  { destruct (mii_bytes l l 0 0xd x1 y1 [] (16 * m + 32) [] []) as (x2 & _ & c2 & _ & d & E2 & X2 & _); try done; [by apply checksummed_bytes | lia | unfold n in Hn; lia |]. eauto. }
  destruct (Hend d x2 X2) as (x3 & c3 & E3 & X3 & M3).
  destruct (mii_bytes l l 0 0xd x1 y1 [] (16 * m + 32) (mii c3) ([Push 0 (16 * m + 24)] ++ [Push 0 (16 * m + 40)]))
    as (x2' & y2 & c2' & k2 & d' & E2' & X2' & G2 & Y2 & T2 & Fr2); try done; [by apply checksummed_bytes | lia | unfold n in Hn; lia | |].
  { rewrite M3. intros u z Hu. unfold n in tE. destruct (0 =? d); cbn in Hu; simplify_eq; lia. }
  change (2 * length l)%nat with (2 * n)%nat in E2'. rewrite E2 in E2'. injection E2' as <- <-.
  assert (d' = d) as -> by (rewrite <- (dr_data _ _ _ _ X2'), <- (dr_data _ _ _ _ X2); done).
  destruct (tx_end bytes d y2 tE Y2) as (y3 & Y3 & G3).
  exists x3, y3, (c1 ++ c2 ++ c3), ((([Push 0 (16 * m + 24)] ++ [Push 0 (16 * m + 40)]) ++ k2) ++ [Out (pad bytes)]).
  split; [| split; [done | split; [| split; [by rewrite !transmitted_app, T2 | done]]]].
  - rewrite rx_runs_app. unfold andThen. rewrite E1. cbn [mbind option_bind]. rewrite rx_runs_app. change (ethernetPhyPeriod * Z.of_nat 2) with 32.
    destruct (2 * n)%nat as [|n2] eqn:En; [lia |]. unfold andThen. rewrite E2. cbn [mbind option_bind]. rewrite <- En.
    replace (16 * m + 32 + ethernetPhyPeriod * Z.of_nat (2 * n)) with tE by (unfold tE; change ethernetPhyPeriod with 16; lia). by rewrite E3.
  - rewrite !mii_app, M1. etrans; [apply G1; done |]. replace (16 * m + 40) with (16 * m + 32 + 8) at 1 by lia. etrans; [exact G2 |].
    rewrite M3. apply G3.
Qed.

Lemma ethernet_loopback_witness : exists x l y l' x' y' c k, newEthernetPhyRx (replicate 1518 0) 0 0 = Some (x, l) /\ newEthernetPhyTx 0 = Some (y, l') /\
  rx_runs (2 + (2 * length (checksummed [1; 2; 3]) + 1)) (Some [1; 2; 3]) (16 * 1) x = Some (x', c) /\
  goes (mkCourse y None (mii c) []) (mkCourse y' None [] k) /\ transmitted k = [[1; 2; 3] ++ replicate 57 0].
Proof.
  eexists _, _, _, _. set (x := mkRx (mkSignal 8 0) 0 (replicate 1518 0) 0 0 IDLE). set (y := mkTx (mkSignal 8 0) (constant 0) (constant 0) newTracker false false [] false 0).
  destruct (ethernet_loopback x y [1; 2; 3] 1) as (x' & y' & c & k & E & _ & G & T & _).
  - split; [reflexivity | reflexivity |]. unfold x. cbn [rx_frame]. rewrite length_replicate. reflexivity.
  - by repeat split.
  - repeat (apply Forall_cons_2; [lia |]). apply Forall_nil_2.
  - cbn. unfold maxFrameSize. lia.
  - lia.
  - exists x', y', c, k. split; [reflexivity |]. split; [reflexivity |]. split; [exact E |]. split; [exact G | exact T].
Defined.

(** ** The management interface *)

(** lib/EthernetPhy.cpp:384-392 EthernetPhySMI::State *)
Inductive SMIState := WAIT_FOR_PREAMBLE | WAIT_FOR_FRAME_START | FRAME_START | WRITE | READ1 | READ2 | READ3.

(** lib/EthernetPhy.cpp:368-395 EthernetPhySMI: the registers have no state *)
Record EthernetPhySMI := mkSMI {
  phyAddress : Z;
  outputMode : bool;
  shiftReg : Z;
  shiftCount : Z;
  regNum : Z;
  smi_state : SMIState;
  MDIOTracker : Signal;
  MDCHandleClock : HandleClock
}.

Definition set_smi out reg count num st s := mkSMI (phyAddress s) out reg count num st (MDIOTracker s) (MDCHandleClock s).
Definition set_MDIO v s := mkSMI (phyAddress s) (outputMode s) (shiftReg s) (shiftCount s) (regNum s) (smi_state s) v (MDCHandleClock s).
Definition set_MDC v s := mkSMI (phyAddress s) (outputMode s) (shiftReg s) (shiftCount s) (regNum s) (smi_state s) (MDIOTracker s) v.

(** lib/EthernetPhy.cpp:493-505 EthernetPhySMI::EthernetPhySMI: the address and the counters are not initialised *)
Definition newEthernetPhySMI (junkAddress junkCount junkReg : Z) : EthernetPhySMI :=
  mkSMI junkAddress false 0 junkCount junkReg WAIT_FOR_PREAMBLE newTracker newHandleClock.

(** lib/EthernetPhy.cpp:346-366 EthernetPhyRegisters::read: and readStatus *)
Definition registers_read (reg : Z) : Z := if reg =? 1 then 1 .<< 2 else 0.

(** lib/EthernetPhy.cpp:421-452 EthernetPhySMI::seeMDCChange: a bit of the head of a request *)
Definition frameStart (s : EthernetPhySMI) (reg : Z) : EthernetPhySMI :=
  let count := u32 (shiftCount s + 1) in
  if count =? 2 + 2 + 5 + 5 then
    let num := extractBits reg 0 5 in
    let phy := extractBits reg 5 5 in
    let operation := extractBits reg 10 2 in
    let startOfFrame := extractBits reg 12 2 in
    if negb (startOfFrame =? 1) then set_smi (outputMode s) reg count num WAIT_FOR_PREAMBLE s
    else if negb (phy =? 0) && negb (phy =? phyAddress s) then set_smi (outputMode s) reg count num WAIT_FOR_PREAMBLE s
    else if operation =? 1 then set_smi (outputMode s) reg 0 num WRITE s
    else if operation =? 2 then set_smi (outputMode s) reg count num READ1 s
    else set_smi (outputMode s) reg count num WAIT_FOR_PREAMBLE s
  else set_smi (outputMode s) reg count (regNum s) FRAME_START s.

(** lib/EthernetPhy.cpp:404-464 EthernetPhySMI::seeMDCChange: a rising edge; [write] of the registers does nothing *)
Definition smi_sample (time : Z) (s : EthernetPhySMI) : option EthernetPhySMI :=
  let MDIOValue := getValue (MDIOTracker s) time in
  let reg := (shiftReg s .<< 1) .| MDIOValue in
  match smi_state s with
  | WAIT_FOR_PREAMBLE =>
      Some (set_smi (outputMode s) reg (shiftCount s) (regNum s) (if reg =? 0xffffffff then WAIT_FOR_FRAME_START else WAIT_FOR_PREAMBLE) s)
  | WAIT_FOR_FRAME_START =>
      Some (if MDIOValue =? 0 then set_smi (outputMode s) reg 1 (regNum s) FRAME_START s
            else set_smi (outputMode s) reg (shiftCount s) (regNum s) WAIT_FOR_FRAME_START s)
  | FRAME_START => Some (frameStart s reg)
  | WRITE =>
      let count := u32 (shiftCount s + 1) in
      Some (set_smi (outputMode s) reg count (regNum s) (if count =? 16 + 2 then WAIT_FOR_PREAMBLE else WRITE) s)
  | READ1 => Some (set_smi true reg (shiftCount s) (regNum s) READ2 s)
  | READ2 | READ3 => None
  end.

(** lib/EthernetPhy.cpp:465-490 EthernetPhySMI::seeMDCChange: a falling edge *)
Definition smi_drive (time : Z) : Op EthernetPhySMI := fun s =>
  match smi_state s with
  | READ2 => Some (set_smi true (registers_read (regNum s)) 0 (regNum s) READ3 s, [Pins 0 (constant 0) time])
  | READ3 =>
      let s := if shiftCount s =? 16 then set_smi false 0 (shiftCount s) (regNum s) WAIT_FOR_PREAMBLE s else s in
      Some (set_smi (outputMode s) (shiftReg s .<< 1) (u32 (shiftCount s + 1)) (regNum s) (smi_state s) s,
        [Pins 0 (constant (extractBit (shiftReg s) 16)) time])
  | _ => None
  end.

(** lib/EthernetPhy.cpp:402-491 EthernetPhySMI::seeMDCChange *)
Definition seeMDCChange (v time : Z) : Op EthernetPhySMI := fun s =>
  if negb (v =? 0) && negb (outputMode s) then s ← smi_sample time s; Some (s, [])
  else if (v =? 0) && outputMode s then smi_drive time s
  else Some (s, []).

(** lib/EthernetPhy.cpp:503-504 EthernetPhySMI::EthernetPhySMI: what MDIO and MDC are attached to *)
Definition smi_see (pin : nat) (s : Signal) (time : Z) : Op EthernetPhySMI :=
  match pin with
  | 0%nat => fun d => Some (set_MDIO s d, [])
  | _ => clock_seePinsChange MDCHandleClock set_MDC seeMDCChange 0 s time
  end.

(** A bit time of the management interface: the level on MDIO, a rising and a falling edge; with the level that the device
    has driven last. *)
Definition smi_bit (v : Z) (sw : EthernetPhySMI * Z) : option (EthernetPhySMI * Z) :=
  let '(s, w) := sw in
  '(s, l1) ← smi_see 0 (constant v) 0 s; '(s, l2) ← smi_see 1 (constant 1) 0 s; '(s, l3) ← smi_see 1 (constant 0) 0 s;
  Some (s, driven 0 w (l1 ++ l2 ++ l3)).

(** Bits one after the other; the levels that the other side sees at the rising edges. *)
Fixpoint smi_bits (bits : list Z) (sw : EthernetPhySMI * Z) : option (EthernetPhySMI * Z * list Z) :=
  match bits with
  | [] => Some (sw, [])
  | v :: bits => sw' ← smi_bit v sw; '(r, l) ← smi_bits bits sw'; Some (r, sw.2 :: l)
  end.

(** The request to read a register: preamble, start, operation, address 0, register, then the two bits of the
    turnaround and the sixteen bits of the answer. *)
Definition readRequest (reg : Z) : list Z :=
  replicate 32 1 ++ [0; 1] ++ [1; 0] ++ replicate 5 0 ++ (extractBit reg <$> [4; 3; 2; 1; 0]) ++ replicate 18 1.
Definition smi_answer (reg : Z) (s : EthernetPhySMI) : option Z :=
  '(_, l) ← smi_bits (readRequest reg) (s, 1); Some (foldl (fun a b => 2 * a + b) 0 (drop 48 l)).

(** The answer to a read request comes one bit too late: half of the value of the register is read. *)
Lemma smi_answer_halved address count num reg : 0 <= reg < 32 ->
  smi_answer reg (newEthernetPhySMI address count num) = Some (registers_read reg / 2).
Proof.
  intros Hr. assert (reg ∈ Z.of_nat <$> seq 0 32) as Hin.
  { apply list_elem_of_fmap. exists (Z.to_nat reg). split; [lia | apply elem_of_seq; lia]. }
  cbn in Hin. repeat (apply elem_of_cons in Hin as [-> | Hin]; [vm_compute; reflexivity |]). by apply elem_of_nil in Hin.
Qed.
