(* ===== verification/SDRAM.v ===== *)
(** * The memory chip (lib/SDRAM.cpp)

    A dynamic memory: on every rising edge of its clock it takes a command from three pins, a read or a write then goes on
    for as many words as the mode register says; what has been read is driven on falling edges some edges later. *)

From Stdlib Require Import ZArith Lia.
From stdpp Require Import base list numbers option.
From S2P Require Import Prelude BitManip Signal Device.

#[local] Open Scope Z_scope.
#[local] Open Scope cbits_scope.

(** lib/SDRAM.cpp:26-29 SDRAMConfig *)
Record SDRAMConfig := mkConfig { columnBits : Z; rowBits : Z; bankBits : Z }.
(** lib/SDRAM.cpp:30-32 SDRAMConfig::getNumEntries *)
Definition getNumEntries (c : SDRAMConfig) : Z := 1 .<< (columnBits c + rowBits c + bankBits c).

(** lib/SDRAM.cpp:35-38 SDRAMBustMode *)
Inductive SDRAMBustMode := SEQUENTIAL | INTERLEAVED.

(** lib/SDRAM.cpp:51-68 SDRAMModeReg::getReadBurstLength *)
Definition getReadBurstLength (reg : Z) : Z :=
  match reg .& 0x7 with 1 => 2 | 2 => 4 | 3 => 8 | 7 => 0 | _ => 1 end.
(** lib/SDRAM.cpp:70-75 SDRAMModeReg::getWriteBurstLength *)
Definition getWriteBurstLength (reg : Z) : Z := if reg .& (1 .<< 9) =? 0 then getReadBurstLength reg else 1.
(** lib/SDRAM.cpp:77-81 SDRAMModeReg::getBurstMode *)
Definition getBurstMode (reg : Z) : SDRAMBustMode := if reg .& (1 .<< 3) =? 0 then SEQUENTIAL else INTERLEAVED.
(** lib/SDRAM.cpp:83-86 SDRAMModeReg::getCASLatency *)
Definition getCASLatency (reg : Z) : Z := (reg .>> 4) .& 0x7.

(** lib/SDRAM.cpp:89-98 SDRAM::Command *)
Inductive Command := NOP | ACTIVE | READ | WRITE | BURST_TERMINATE | PRECHARGE | AUTO_REFRESH | LOAD_MODE_REGISTER.

#[export] Instance Command_eq_dec : EqDecision Command.
Proof. solve_decision. Defined.

(** lib/SDRAM.cpp:99-121 SDRAM *)
Record SDRAM := mkSDRAM {
  mem : list Z;
  pendingReads : list (Z * Z);
  config : SDRAMConfig;
  currentCommand : Command;
  currentColumn : Z;
  currentRow : Z;
  currentBank : Z;
  counter : Z;
  edgeNumber : Z;
  modeReg : Z;
  A : Signal; BA : Signal; CAS : Signal; DQ : Signal; RAS : Signal; WE : Signal;
  useLDQM : bool; LDQM : Signal;
  useUDQM : bool; UDQM : Signal;
  CLKClock : HandleClock
}.

Definition set_mem m s := mkSDRAM m (pendingReads s) (config s) (currentCommand s) (currentColumn s) (currentRow s) (currentBank s) (counter s) (edgeNumber s) (modeReg s) (A s) (BA s) (CAS s) (DQ s) (RAS s) (WE s) (useLDQM s) (LDQM s) (useUDQM s) (UDQM s) (CLKClock s).
Definition set_pending q s := mkSDRAM (mem s) q (config s) (currentCommand s) (currentColumn s) (currentRow s) (currentBank s) (counter s) (edgeNumber s) (modeReg s) (A s) (BA s) (CAS s) (DQ s) (RAS s) (WE s) (useLDQM s) (LDQM s) (useUDQM s) (UDQM s) (CLKClock s).
Definition set_command c s := mkSDRAM (mem s) (pendingReads s) (config s) c (currentColumn s) (currentRow s) (currentBank s) (counter s) (edgeNumber s) (modeReg s) (A s) (BA s) (CAS s) (DQ s) (RAS s) (WE s) (useLDQM s) (LDQM s) (useUDQM s) (UDQM s) (CLKClock s).
Definition set_place col row bank n s := mkSDRAM (mem s) (pendingReads s) (config s) (currentCommand s) col row bank n (edgeNumber s) (modeReg s) (A s) (BA s) (CAS s) (DQ s) (RAS s) (WE s) (useLDQM s) (LDQM s) (useUDQM s) (UDQM s) (CLKClock s).
Definition set_edge n s := mkSDRAM (mem s) (pendingReads s) (config s) (currentCommand s) (currentColumn s) (currentRow s) (currentBank s) (counter s) n (modeReg s) (A s) (BA s) (CAS s) (DQ s) (RAS s) (WE s) (useLDQM s) (LDQM s) (useUDQM s) (UDQM s) (CLKClock s).
Definition set_mode v s := mkSDRAM (mem s) (pendingReads s) (config s) (currentCommand s) (currentColumn s) (currentRow s) (currentBank s) (counter s) (edgeNumber s) v (A s) (BA s) (CAS s) (DQ s) (RAS s) (WE s) (useLDQM s) (LDQM s) (useUDQM s) (UDQM s) (CLKClock s).
Definition set_CLKClock v s := mkSDRAM (mem s) (pendingReads s) (config s) (currentCommand s) (currentColumn s) (currentRow s) (currentBank s) (counter s) (edgeNumber s) (modeReg s) (A s) (BA s) (CAS s) (DQ s) (RAS s) (WE s) (useLDQM s) (LDQM s) (useUDQM s) (UDQM s) v.
Definition set_signals a ba cas dq ras we s := mkSDRAM (mem s) (pendingReads s) (config s) (currentCommand s) (currentColumn s) (currentRow s) (currentBank s) (counter s) (edgeNumber s) (modeReg s) a ba cas dq ras we (useLDQM s) (LDQM s) (useUDQM s) (UDQM s) (CLKClock s).
Definition set_masks l u s := mkSDRAM (mem s) (pendingReads s) (config s) (currentCommand s) (currentColumn s) (currentRow s) (currentBank s) (counter s) (edgeNumber s) (modeReg s) (A s) (BA s) (CAS s) (DQ s) (RAS s) (WE s) (useLDQM s) l (useUDQM s) u (CLKClock s).

(** lib/SDRAM.cpp:145-154 SDRAM::SDRAM: the place, and whether the masks are connected, are not initialised *)
Definition newSDRAM (c : SDRAMConfig) (col row bank n : Z) (l u : bool) : SDRAM :=
  mkSDRAM (replicate (Z.to_nat (getNumEntries c)) 0) [] c NOP col row bank n 0 0
    newTracker newTracker newTracker newTracker newTracker newTracker l newTracker u newTracker newHandleClock.

(** lib/SDRAM.cpp:156-181 SDRAM::getMemoryIndex *)
Definition getMemoryIndex (s : SDRAM) (burstLength : Z) : option Z :=
  let c := config s in
  let column :=
    if burstLength =? 0 then u16 ((currentColumn s + counter s) .& ((1 .<< columnBits c) - 1))
    else match getBurstMode (modeReg s) with
         | INTERLEAVED => u16 (currentColumn s .^ counter s)
         | SEQUENTIAL =>
             let column := u16 (currentColumn s / burstLength * burstLength) in
             let column := u16 (column + (currentColumn s + counter s) mod burstLength) in
             if currentColumn s / burstLength <? column / burstLength then u16 (column - burstLength) else column
         end in
  let index := column .| (currentRow s .<< columnBits c) .| (currentBank s .<< (columnBits c + rowBits c)) in
  _ ← assert (index <? getNumEntries c); Some index.

(** lib/SDRAM.cpp:183-212 SDRAM::getCommand *)
Definition getCommand (s : SDRAM) (time : Z) : Command :=
  let on x := negb (getValue x time =? 0) in
  match on (RAS s), on (CAS s), on (WE s) with
  | false, false, false => LOAD_MODE_REGISTER
  | false, false, true => AUTO_REFRESH
  | false, true, false => PRECHARGE
  | false, true, true => ACTIVE
  | true, false, false => WRITE
  | true, false, true => READ
  | true, true, false => BURST_TERMINATE
  | true, true, true => NOP
  end.

(** lib/SDRAM.cpp:214-221 SDRAM::getLDQMValue: the value of the pin is not returned *)
Definition getLDQMValue (s : SDRAM) (time : Z) : bool := (getValue (CAS s) time =? 0) && (getValue (RAS s) time =? 0).
(** lib/SDRAM.cpp:223-230 SDRAM::getUDQMValue *)
Definition getUDQMValue (s : SDRAM) (time : Z) : bool :=
  if useUDQM s then negb (getValue (UDQM s) time =? 0) else (getValue (CAS s) time =? 0) && (getValue (RAS s) time =? 0).
(** lib/SDRAM.cpp:232-240 SDRAM::getReadWriteMask *)
Definition getReadWriteMask (s : SDRAM) (time : Z) : Z :=
  (if getLDQMValue s time then 0 else 0x00ff) .| (if getUDQMValue s time then 0 else 0xff00).

(** lib/SDRAM.cpp:246-277 SDRAM::seeCLKChange: the command of a rising edge *)
Definition takeCommand (time : Z) (s : SDRAM) : SDRAM :=
  let c := config s in
  let a := getValue (A s) time in
  let atColumn s := set_place (u16 (a .& ((1 .<< columnBits c) - 1))) (currentRow s) (getValue (BA s) time .& ((1 .<< bankBits c) - 1)) 0 s in
  let newCommand := getCommand s time in
  let s := match newCommand with
           | ACTIVE => set_place (currentColumn s) (u16 (a .& ((1 .<< rowBits c) - 1))) (currentBank s) (counter s) s
           | LOAD_MODE_REGISTER => set_mode (u16 a) s
           | READ | WRITE => atColumn s
           | _ => s
           end in
  if bool_decide (newCommand = NOP) then s else set_command newCommand s.

(** lib/SDRAM.cpp:288-290 SDRAM::seeCLKChange: one word further, here and in lines 303-305 *)
Definition advance (burstLength : Z) (s : SDRAM) : SDRAM :=
  let n := u16 (counter s + 1) in
  let s := set_place (currentColumn s) (currentRow s) (currentBank s) n s in
  if negb (burstLength =? 0) && (n =? burstLength) then set_command NOP s else s.

(** lib/SDRAM.cpp:278-308 SDRAM::seeCLKChange: the word of a rising edge *)
Definition transfer (time : Z) (s : SDRAM) : option SDRAM :=
  let burstLength := getReadBurstLength (modeReg s) in
  match currentCommand s with
  | READ =>
      i ← getMemoryIndex s burstLength; w ← array_get (mem s) i;
      let data := w .& getReadWriteMask s time in
      Some (advance burstLength (set_pending (pendingReads s ++ [(data, u8 (edgeNumber s + getCASLatency (modeReg s)))]) s))
  | WRITE =>
      s ← (if getValue (WE s) time =? 0 then Some s
           else
             i ← getMemoryIndex s burstLength; old ← array_get (mem s) i;
             let data := u16 (getValue (DQ s) time) in
             m ← array_set (mem s) i (old .^ ((old .^ data) .& getReadWriteMask s time));
             Some (set_mem m s));
      Some (advance burstLength s)
  | _ => Some s
  end.

(** lib/SDRAM.cpp:242-317 SDRAM::seeCLKChange *)
Definition seeCLKChange (value time : Z) : Op SDRAM := fun s =>
  if negb (value =? 0) then
    s ← transfer time (takeCommand time s); Some (set_edge (u8 (edgeNumber s + 1)) s, [])
  else
    Some match pendingReads s with
         | (data, edge) :: q => if edge =? edgeNumber s then (set_pending q s, [Pins 0 (constant data) time]) else (s, [])
         | [] => (s, [])
         end.

(** lib/SDRAM.cpp:131-142 SDRAM: what the pins A, BA, CAS, CLK, DQ, RAS, WE, LDQM and UDQM are attached to *)
Definition sdram_see (pin : nat) (x : Signal) (time : Z) : Op SDRAM := fun s =>
  match pin with
  | 0%nat => Some (set_signals x (BA s) (CAS s) (DQ s) (RAS s) (WE s) s, [])
  | 1%nat => Some (set_signals (A s) x (CAS s) (DQ s) (RAS s) (WE s) s, [])
  | 2%nat => Some (set_signals (A s) (BA s) x (DQ s) (RAS s) (WE s) s, [])
  | 3%nat => clock_seePinsChange CLKClock set_CLKClock seeCLKChange 0 x time s
  | 4%nat => Some (set_signals (A s) (BA s) (CAS s) x (RAS s) (WE s) s, [])
  | 5%nat => Some (set_signals (A s) (BA s) (CAS s) (DQ s) x (WE s) s, [])
  | 6%nat => Some (set_signals (A s) (BA s) (CAS s) (DQ s) (RAS s) x s, [])
  | 7%nat => Some (set_masks x (UDQM s) s, [])
  | _ => Some (set_masks (LDQM s) x s, [])
  end.

(** ** Where the words of a burst are *)

(** The column of word [k] of a burst of [n] words from column [col]: in the aligned block of [n] columns, going round. *)
Definition burstColumn (m : SDRAMBustMode) (n col k : Z) : Z :=
  match m with SEQUENTIAL => col / n * n + (col + k) mod n | INTERLEAVED => col .^ k end.

Lemma lxor_block j col k : 0 <= j -> 0 <= col -> 0 <= k < 2 ^ j -> Z.lxor col k / 2 ^ j = col / 2 ^ j.
Proof.
  intros Hj Hc Hk. rewrite <- !Z.shiftr_div_pow2, Z.shiftr_lxor by done. rewrite (Z.shiftr_div_pow2 k), (Z.div_small k) by done. apply Z.lxor_0_r.
Qed.

Lemma burstColumn_block m j n col k : 0 <= j -> n = 2 ^ j -> 0 <= col -> 0 <= k < n -> 0 <= burstColumn m n col k /\ burstColumn m n col k / n = col / n.
Proof.
  intros Hj -> Hc Hk. pose proof (pow2_pos j Hj). destruct m; cbn.
  - rewrite Z.div_add_l, (Z.div_small (_ mod _)) by (lia || (apply Z.mod_pos_bound; lia)). pose proof (Z.mod_pos_bound (col + k) (2 ^ j)).
    pose proof (Z.div_pos col (2 ^ j)). nia.
  - split; [apply Z.lxor_nonneg; lia |]. by apply lxor_block.
Qed.

Lemma burstColumn_inj m j n col k k' : 0 <= j -> n = 2 ^ j -> 0 <= col -> 0 <= k < n -> 0 <= k' < n ->
  burstColumn m n col k = burstColumn m n col k' -> k = k'.
Proof.
  intros Hj -> Hc Hk Hk' E. pose proof (pow2_pos j Hj). destruct m; cbn in E.
  - assert ((col + k) mod 2 ^ j = (col + k') mod 2 ^ j) as E' by lia.
    assert ((col + k - (col + k')) mod 2 ^ j = 0) as H0 by (rewrite Zminus_mod, E', Z.sub_diag; apply Z.mod_0_l; lia).
    replace (col + k - (col + k')) with (k - k') in H0 by lia. apply Z.mod_divide in H0 as [q Hq]; [| lia]. assert (q = 0) as -> by nia. lia.
  - assert (Z.lxor col (Z.lxor col k) = Z.lxor col (Z.lxor col k')) as E2 by congruence.
    by rewrite <- !Z.lxor_assoc, Z.lxor_nilpotent, !Z.lxor_0_l in E2.
Qed.

(** A column of the same aligned block is in the row. *)
Lemma block_bound j cb col x : 0 <= j <= cb -> 0 <= col < 2 ^ cb -> 0 <= x -> x / 2 ^ j = col / 2 ^ j -> x < 2 ^ cb.
Proof.
  intros Hj Hc Hx E. assert (2 ^ cb = 2 ^ (cb - j) * 2 ^ j) as Ep by (rewrite <- Z.pow_add_r by lia; f_equal; lia).
  pose proof (pow2_pos j ltac:(lia)). assert (col / 2 ^ j < 2 ^ (cb - j)) as Hq by (apply Z.div_lt_upper_bound; lia).
  rewrite <- E in Hq. rewrite Ep. pose proof (Z.mul_succ_div_gt x (2 ^ j)). nia.
Qed.

(** The place of a word in the memory. *)
Definition place (c : SDRAMConfig) (row bank column : Z) : Z := column + row * 2 ^ columnBits c + bank * 2 ^ (columnBits c + rowBits c).

Record config_ok (c : SDRAMConfig) : Prop := { cf_col : 3 <= columnBits c <= 16; cf_row : 0 <= rowBits c; cf_bank : 0 <= bankBits c; cf_all : columnBits c + rowBits c + bankBits c <= 31 }.

Lemma place_bound c row bank column : config_ok c -> 0 <= column < 2 ^ columnBits c -> 0 <= row < 2 ^ rowBits c -> 0 <= bank < 2 ^ bankBits c ->
  0 <= place c row bank column < 2 ^ (columnBits c + rowBits c + bankBits c).
Proof.
  intros [Hc Hr Hb Hall] Hcol Hrow Hbank. unfold place. rewrite !Z.pow_add_r by lia.
  pose proof (pow2_pos (columnBits c) ltac:(lia)). pose proof (pow2_pos (rowBits c) ltac:(lia)). split; [nia |].
  assert (column + row * 2 ^ columnBits c < 2 ^ columnBits c * 2 ^ rowBits c) by nia.
  assert (bank * (2 ^ columnBits c * 2 ^ rowBits c) <= (2 ^ bankBits c - 1) * (2 ^ columnBits c * 2 ^ rowBits c)) by (apply Z.mul_le_mono_nonneg_r; nia). nia.
Qed.

Lemma place_lor c row bank column : config_ok c -> 0 <= column < 2 ^ columnBits c -> 0 <= row < 2 ^ rowBits c -> 0 <= bank < 2 ^ bankBits c ->
  column .| (row .<< columnBits c) .| (bank .<< (columnBits c + rowBits c)) = place c row bank column.
Proof.
  intros Hok Hcol Hrow Hbank. pose proof (place_bound c row bank column Hok Hcol Hrow Hbank) as Hp. destruct Hok as [Hc Hr Hb Hall].
  pose proof (pow2_pos (columnBits c) ltac:(lia)). pose proof (pow2_pos (columnBits c + rowBits c) ltac:(lia)).
  assert (2 ^ (columnBits c + rowBits c + bankBits c) <= 2 ^ 31) by (apply Z.pow_le_mono_r; lia).
  unfold place in *. rewrite !Z.shiftl_mul_pow2 by lia. rewrite (wrap_small 32 (row * _)), (wrap_small 32 (bank * _)) by (unfold fits; nia).
  rewrite (lor_disjoint column row (columnBits c)) by lia. rewrite lor_disjoint; [done | lia |].
  rewrite Z.pow_add_r by lia. nia.
Qed.

(** ** Clock cycles *)

(** The levels of RAS, CAS and WE for a command. *)
Definition presentCommand (cmd : Command) : Z * Z * Z :=
  match cmd with
  | LOAD_MODE_REGISTER => (0, 0, 0) | AUTO_REFRESH => (0, 0, 1) | PRECHARGE => (0, 1, 0) | ACTIVE => (0, 1, 1)
  | WRITE => (1, 0, 0) | READ => (1, 0, 1) | BURST_TERMINATE => (1, 1, 0) | NOP => (1, 1, 1)
  end.

(** The levels on the pins of a chip: a command, the address, the bank and the data. *)
Definition present (cmd : Command) (a ba dq : Z) (s : SDRAM) : SDRAM :=
  let '(ras, cas, we) := presentCommand cmd in
  set_signals (constant a) (constant ba) (constant cas) (constant dq) (constant ras) (constant we) s.

(** A cycle with these levels: a rising and a falling edge of the clock; what the chip drives. *)
Definition clockCycle (t : Z) (cmd : Command) (a ba dq : Z) (s : SDRAM) : option (SDRAM * list Call) :=
  andThen (sdram_see 3 (constant 1) t) (sdram_see 3 (constant 0) t) (present cmd a ba dq s).

Lemma getCommand_present cmd a ba dq s t : getCommand (present cmd a ba dq s) t = cmd.
Proof. by destruct cmd. Qed.

Section bursts.
Context (c : SDRAMConfig) (Hok : config_ok c) (mode row col bank : Z) (j n : Z).
Context (Hj : 0 <= j <= 3) (Hn : n = 2 ^ j) (Hmode : getReadBurstLength mode = n).
Context (Hrow : 0 <= row < 2 ^ rowBits c) (Hcol : 0 <= col < 2 ^ columnBits c) (Hbank : 0 <= bank < 2 ^ bankBits c).

(** The place of word [k] of the burst. *)
Definition word (k : Z) : Z := place c row bank (burstColumn (getBurstMode mode) n col k).

Lemma n_bounds : 1 <= n <= 8.
Proof. rewrite Hn. split; [apply (Z.pow_le_mono_r 2 0 j); lia | apply (Z.pow_le_mono_r 2 j 3); lia]. Qed.

Lemma column_bounds k : 0 <= k < n -> 0 <= burstColumn (getBurstMode mode) n col k < 2 ^ columnBits c /\ 2 ^ columnBits c <= 2 ^ 16.
Proof.
  intros Hk. destruct (burstColumn_block (getBurstMode mode) j n col k) as [H0 H1]; [lia.. |]. split; [| apply Z.pow_le_mono_r; destruct Hok; lia].
  split; [done |]. apply (block_bound j _ col); [destruct Hok; lia | done | done | by rewrite <- Hn].
Qed.

Lemma word_bounds k : 0 <= k < n -> 0 <= word k < 2 ^ (columnBits c + rowBits c + bankBits c).
Proof. intros Hk. apply place_bound; [done | by apply column_bounds | done..]. Qed.

Lemma word_inj k k' : 0 <= k < n -> 0 <= k' < n -> word k = word k' -> k = k'.
Proof. intros Hk Hk' E. unfold word, place in E. apply (burstColumn_inj (getBurstMode mode) j n col); [lia | done | lia | done | done |]. lia. Qed.

Lemma getMemoryIndex_word k s : config s = c -> modeReg s = mode -> currentRow s = row -> currentColumn s = col -> currentBank s = bank -> counter s = k ->
  0 <= k < n -> getMemoryIndex s n = Some (word k).
Proof.
  intros Ec Em Er Eco Eb Ek Hk. pose proof n_bounds. destruct (column_bounds k Hk) as [Hbc H16]. pose proof (word_bounds k Hk) as Hw.
  unfold getMemoryIndex. rewrite Ec, Em, Er, Eco, Eb, Ek, (proj2 (Z.eqb_neq n 0)) by lia.
  assert (match getBurstMode mode with
          | SEQUENTIAL =>
              if col / n <? u16 (u16 (col / n * n) + (col + k) mod n) / n then u16 (u16 (u16 (col / n * n) + (col + k) mod n) - n)
              else u16 (u16 (col / n * n) + (col + k) mod n)
          | INTERLEAVED => u16 (col .^ k)
          end = burstColumn (getBurstMode mode) n col k) as ->.
  { destruct (burstColumn_block (getBurstMode mode) j n col k) as [_ H1]; [lia.. |]. unfold burstColumn in *. destruct (getBurstMode mode).
    - pose proof (Z.mod_pos_bound (col + k) n ltac:(lia)). assert (0 <= col / n * n) by (pose proof (Z.div_pos col n); nia).
      rewrite (wrap_small 16 (col / n * n)) by (unfold fits; lia). rewrite (wrap_small 16 (_ + _)) by (unfold fits; lia). rewrite H1.
      by rewrite Z.ltb_irrefl.
    - apply wrap_small. unfold fits. lia. }
  rewrite place_lor by done. fold (word k). unfold getNumEntries. rewrite Z.shiftl_mul_pow2, Z.mul_1_l by (destruct Hok; lia).
  rewrite wrap_small. 2: { unfold fits. split; [lia |]. apply Z.pow_lt_mono_r; destruct Hok; lia. }
  by rewrite (proj2 (Z.ltb_lt (word k) _)) by lia.
Qed.

(** The chip in the middle of a burst; [m] is its memory, [q] what it has still to drive. *)
Record chip (m : list Z) (q : list (Z * Z)) (cmd : Command) (k e v : Z) (s : SDRAM) : Prop := {
  ch_mem : mem s = m;
  ch_pending : pendingReads s = q;
  ch_command : currentCommand s = cmd;
  ch_edge : edgeNumber s = e;
  ch_config : config s = c /\ modeReg s = mode /\ currentRow s = row;
  ch_place : cmd = READ \/ cmd = WRITE -> currentColumn s = col /\ currentBank s = bank /\ counter s = k;
  ch_clock : CLKClock s = mkHandleClock v (constant v);
  ch_mask : useUDQM s = false \/ UDQM s = constant 0
}.

(** What is driven on the falling edge. *)
Definition popped (q : list (Z * Z)) (e t : Z) : list (Z * Z) * list Call :=
  match q with (data, edge) :: q' => if edge =? e then (q', [Pins 0 (constant data) t]) else (q, []) | [] => (q, []) end.

(** A cycle is what its rising edge does, then the falling edge. *)
Lemma sdram_cycle_edges t cmd a ba dq m q cmd0 k0 e m' q' cmd' k' e' s : chip m q cmd0 k0 e 0 s ->
  (forall s1, chip m q cmd0 k0 e 1 s1 -> exists s2, transfer t (takeCommand t (present cmd a ba dq s1)) = Some s2 /\ chip m' q' cmd' k' e 1 s2) ->
  e' = u8 (e + 1) ->
  exists s', clockCycle t cmd a ba dq s = Some (s', (popped q' e' t).2) /\ chip m' (popped q' e' t).1 cmd' k' e' 0 s'.
Proof.
  intros C Hr ->. unfold clockCycle, andThen, sdram_see. destruct C as [Hm Hq Hcmd He Hc Hp Hk Hu].
  assert (CLKClock (present cmd a ba dq s) = mkHandleClock 0 (constant 0)) as Hk' by (unfold present; by destruct cmd).
  rewrite clock_see_level by (by rewrite Hk'). rewrite Hk'. cbn [currentValue Z.eqb]. unfold seeCLKChange at 2. cbn [Z.eqb negb].
  destruct (Hr (set_CLKClock (mkHandleClock 1 (constant 1)) s)) as (s2 & E2 & C2); [by split |].
  replace (set_CLKClock (mkHandleClock 1 (constant 1)) (present cmd a ba dq s)) with (present cmd a ba dq (set_CLKClock (mkHandleClock 1 (constant 1)) s)) by (unfold present; by destruct cmd).
  rewrite E2. cbn [mbind option_bind app].
  destruct C2 as [Hm2 Hq2 Hcmd2 He2 Hc2 Hp2 Hk2 Hu2].
  rewrite clock_see_level by (cbn; by rewrite Hk2). cbn [CLKClock set_edge]. rewrite Hk2. cbn [currentValue Z.eqb].
  unfold seeCLKChange. cbn [Z.eqb negb pendingReads set_CLKClock set_edge edgeNumber]. rewrite Hq2, He2.
  unfold popped. destruct q' as [|[data edge] q'']; [eexists; split; [reflexivity | by split] |].
  destruct (edge =? u8 (e + 1)); (eexists; split; [reflexivity | by split]).
Qed.

(** ** Rising edges *)

Lemma land_mask w x : 0 <= w <= 31 -> 0 <= x < 2 ^ w -> x .& ((1 .<< w) - 1) = x.
Proof.
  intros Hw Hx. rewrite Z.shiftl_mul_pow2, Z.mul_1_l by lia.
  rewrite (wrap_small 32) by (unfold fits; split; [lia |]; apply Z.pow_lt_mono_r; lia).
  rewrite Z.sub_1_r, <- Z.ones_equiv, Z.land_ones by lia. by apply Z.mod_small.
Qed.

Definition next (cmd : Command) (k : Z) : Command := if k + 1 =? n then NOP else cmd.

Lemma advance_chip m q cmd k e v s : chip m q cmd k e v s -> cmd = READ \/ cmd = WRITE -> 0 <= k < n -> chip m q (next cmd k) (k + 1) e v (advance n s).
Proof.
  pose proof n_bounds. intros [Hm Hq Hcmd He (Hc & Hmo & Hro) Hp Hk Hu] Hrw Hkn. destruct (Hp Hrw) as (Hp1 & Hp2 & Hp3). unfold advance, next.
  rewrite Hp3, (wrap_small 16 (k + 1)), (proj2 (Z.eqb_neq n 0)) by (unfold fits; lia). cbn [negb andb].
  destruct (k + 1 =? n); split; cbn; try done; by intros [|].
Qed.

(** The chip takes a read or a write command. *)
Lemma take_burst m q cmd0 k0 e s cmd dq t : chip m q cmd0 k0 e 1 s -> cmd = READ \/ cmd = WRITE ->
  chip m q cmd 0 e 1 (takeCommand t (present cmd col bank dq s)).
Proof.
  intros [Hm Hq Hcmd He (Hc & Hmo & Hro) Hp Hk Hu] Hrw. pose proof (column_bounds 0 ltac:(pose proof n_bounds; lia)) as [_ H16]. destruct Hok as [B1 B2 B3 B4].
  assert (u16 (col .& ((1 .<< columnBits c) - 1)) = col /\ bank .& ((1 .<< bankBits c) - 1) = bank) as [E1 E2].
  { rewrite !land_mask by lia. split; [| done]. apply wrap_small. unfold fits. lia. }
  unfold takeCommand. rewrite getCommand_present.
  destruct Hrw as [-> | ->]; cbn -[wrap]; rewrite Hc, E1, E2; split; cbn; try done.
Qed.

(** A cycle with no command goes on with the burst. *)
Lemma take_nop m q cmd k e s dq t : chip m q cmd k e 1 s -> chip m q cmd k e 1 (takeCommand t (present NOP 0 0 dq s)).
Proof. intros [Hm Hq Hcmd He (Hc & Hmo & Hro) Hp Hk Hu]. unfold takeCommand. rewrite getCommand_present. by split. Qed.

Lemma full_mask cmd a ba dq s t : cmd = READ \/ cmd = WRITE \/ cmd = NOP -> useUDQM s = false \/ UDQM s = constant 0 ->
  getReadWriteMask (takeCommand t (present cmd a ba dq s)) t = 0xffff.
Proof.
  intros Hcmd Hu. unfold takeCommand. rewrite getCommand_present. unfold getReadWriteMask, getLDQMValue, getUDQMValue.
  destruct Hcmd as [-> | [-> | ->]];
    [change (bool_decide (READ = NOP)) with false | change (bool_decide (WRITE = NOP)) with false | change (bool_decide (NOP = NOP)) with true]; cbn;
    destruct Hu as [-> | ->]; cbn; try done; by destruct (useUDQM s).
Qed.

Lemma transfer_read m q k e s t w : chip m q READ k e 1 s -> getReadWriteMask s t = 0xffff -> 0 <= k < n -> array_get m (word k) = Some w -> 0 <= w < 2 ^ 16 ->
  exists s', transfer t s = Some s' /\ chip m (q ++ [(w, u8 (e + getCASLatency mode))]) (next READ k) (k + 1) e 1 s'.
Proof.
  intros C Hmask Hk Hw Hwr. destruct C as [Hm Hq Hcmd He (Hc & Hmo & Hro) Hp Hck Hu] eqn:EC. destruct (Hp ltac:(by left)) as (P1 & P2 & P3).
  unfold transfer. rewrite Hcmd, Hmo, Hmode, (getMemoryIndex_word k), Hm by done. cbn [mbind option_bind]. rewrite Hw. cbn [mbind option_bind]. rewrite Hmask, He, Hq.
  change 0xffff with (Z.ones 16). rewrite Z.land_ones, Z.mod_small by lia.
  eexists. split; [reflexivity |]. apply advance_chip; [| by left | done]. by split.
Qed.

Lemma transfer_write m q k e s t old d : chip m q WRITE k e 1 s -> getReadWriteMask s t = 0xffff -> getValue (WE s) t = 1 -> getValue (DQ s) t = d ->
  0 <= k < n -> array_get m (word k) = Some old -> 0 <= old < 2 ^ 16 -> 0 <= d < 2 ^ 16 ->
  exists s' m', transfer t s = Some s' /\ array_set m (word k) d = Some m' /\ chip m' q (next WRITE k) (k + 1) e 1 s'.
Proof.
  intros C Hmask Hwe Hdq Hk Hw Hwr Hd. destruct C as [Hm Hq Hcmd He (Hc & Hmo & Hro) Hp Hck Hu] eqn:EC. destruct (Hp ltac:(by right)) as (P1 & P2 & P3).
  unfold transfer. rewrite Hcmd, Hwe. cbn [Z.eqb]. rewrite Hmo, Hmode, (getMemoryIndex_word k), Hm by done. cbn [mbind option_bind]. rewrite Hw. cbn [mbind option_bind]. rewrite Hmask, Hdq.
  rewrite (wrap_small 16 d) by done. change 0xffff with (Z.ones 16). rewrite Z.land_ones, (Z.mod_small (old .^ d)) by (lia || (apply (fits_lxor 16); done || lia)).
  rewrite <- Z.lxor_assoc, Z.lxor_nilpotent, Z.lxor_0_l. pose proof (array_get_bound _ _ _ Hw).
  destruct (array_set_is_Some m (word k) d) as [m' Hm']; [done |]. rewrite Hm'. cbn [mbind option_bind].
  eexists _, m'. split; [reflexivity |]. split; [done |]. apply advance_chip; [| by right | done]. by split.
Qed.

(** ** Bursts *)

(** What a cycle drives on the data pins. *)
Definition drives (l : list Call) : option Z := match l with [Pins 0 x _] => Some (value x) | _ => None end.

(** Cycles one after the other, a period apart; what each of them drives. *)
Fixpoint cycles (t period : Z) (l : list (Command * Z * Z * Z)) (s : SDRAM) : option (SDRAM * list (option Z)) :=
  match l with
  | [] => Some (s, [])
  | (cmd, a, ba, dq) :: l => '(s, x) ← clockCycle t cmd a ba dq s; '(s, r) ← cycles (t + period) period l s; Some (s, drives x :: r)
  end.

(** The memory has all of its words, and they are words. *)
Record mem_ok (m : list Z) : Prop := {
  mo_length : zlength m = 2 ^ (columnBits c + rowBits c + bankBits c);
  mo_words : Forall (fun w => 0 <= w < 2 ^ 16) m
}.

Lemma mem_word m k : mem_ok m -> 0 <= k < n -> exists w, array_get m (word k) = Some w /\ 0 <= w < 2 ^ 16.
Proof.
  intros [Hl Hw] Hk. pose proof (word_bounds k Hk). destruct (array_get_is_Some m (word k)) as [w E]; [lia |]. exists w. split; [done |]. by eapply (array_get_Forall _ _ _ _ Hw).
Qed.

Lemma mem_ok_set m i d m' : mem_ok m -> 0 <= d < 2 ^ 16 -> array_set m i d = Some m' -> mem_ok m'.
Proof.
  intros [Hl Hw] Hd E. split; [by rewrite (array_set_length _ _ _ _ E) |]. unfold array_set in E. case_match; [| done]. injection E as <-. by apply Forall_insert.
Qed.

Lemma u8_add e i : u8 (u8 e + i) = u8 (e + i).
Proof. unfold wrap. by rewrite Z.add_mod_idemp_l by lia. Qed.

(** One word of a write burst. *)
Lemma write_word t k m e s d : chip m [] WRITE k e 0 s -> mem_ok m -> 0 <= k < n -> 0 <= d < 2 ^ 16 ->
  exists s' m', clockCycle t NOP 0 0 d s = Some (s', []) /\ chip m' [] (next WRITE k) (k + 1) (u8 (e + 1)) 0 s' /\ mem_ok m' /\ array_set m (word k) d = Some m'.
Proof.
  intros C Hm Hk Hd. destruct (mem_word m k Hm Hk) as (old & Hw & Hwr). pose proof (array_get_bound _ _ _ Hw).
  destruct (array_set_is_Some m (word k) d) as [m' Hm']; [done |].
  destruct (sdram_cycle_edges t NOP 0 0 d m [] WRITE k e m' [] (next WRITE k) (k + 1) (u8 (e + 1)) s C) as (s' & E & C'); [| done |].
  - intros s1 C1. pose proof (take_nop m [] WRITE k e s1 d t C1) as C2.
    destruct (transfer_write m [] k e _ t old d C2) as (s2 & m2 & E2 & Hm2 & C3); try done; [apply full_mask; [by right; right | apply C1] |].
    rewrite Hm' in Hm2. injection Hm2 as <-. by exists s2.
  - exists s', m'. split; [done |]. split; [done |]. split; [by apply (mem_ok_set m (word k) d) | done].
Qed.

(** The words of a write burst after the one that comes with the command. *)
Lemma write_words period ds : forall t k m e s, chip m [] (next WRITE (k - 1)) k (u8 e) 0 s -> mem_ok m -> 1 <= k -> k + zlength ds = n -> Forall (fun d => 0 <= d < 2 ^ 16) ds ->
  exists s' m', cycles t period ((fun d => (NOP, 0, 0, d)) <$> ds) s = Some (s', replicate (length ds) None) /\
    chip m' [] NOP n (u8 (e + zlength ds)) 0 s' /\ mem_ok m' /\
    (forall q d, ds !! q = Some d -> array_get m' (word (k + Z.of_nat q)) = Some d) /\
    (forall q, 0 <= q < k -> array_get m' (word q) = array_get m (word q)).
Proof.
  pose proof n_bounds. induction ds as [|d ds IH]; intros t k m e s C Hm Hk Hl Hds; cbn [length fmap list_fmap cycles] in *.
  { exists s, m. assert (k = n) as -> by lia. unfold next in C. rewrite Z.sub_add, Z.eqb_refl in C. rewrite Z.add_0_r. done. }
  apply Forall_cons_1 in Hds as [Hd Hds]. unfold next in C. rewrite Z.sub_add, (proj2 (Z.eqb_neq k n)) in C by lia.
  destruct (write_word t k m (u8 e) s d C Hm) as (s1 & m1 & -> & C1 & Hm1 & Hset); [lia | done |]. cbn [mbind option_bind drives]. rewrite u8_add in C1.
  destruct (IH (t + period) (k + 1) m1 (e + 1) s1) as (s2 & m2 & -> & C2 & Hm2 & Hw2 & Hk2); [by rewrite Z.add_simpl_r | done | lia | lia | done |]. cbn [mbind option_bind].
  apply array_set_spec in Hset as (_ & _ & Hg).
  exists s2, m2. split; [done |]. split; [by replace (e + Z.of_nat (S (length ds))) with (e + 1 + zlength ds) by lia |]. split; [done |]. split.
  - intros [|q] x Hq; cbn in Hq.
    + injection Hq as <-. rewrite Z.add_0_r, Hk2, Hg, decide_True by lia. done.
    + rewrite <- (Hw2 q x Hq). do 2 f_equal. lia.
  - intros q Hq. rewrite Hk2, Hg, decide_False; [done | | lia]. intros E. apply word_inj in E; lia.
Qed.

(** A write burst: the word that comes with the command is not written, the others are. *)
Lemma write_burst t period k0 m e s d0 ds cmd0 : chip m [] cmd0 k0 (u8 e) 0 s -> mem_ok m -> 1 + zlength ds = n -> Forall (fun d => 0 <= d < 2 ^ 16) ds ->
  exists s' m', cycles t period ((WRITE, col, bank, d0) :: ((fun d => (NOP, 0, 0, d)) <$> ds)) s = Some (s', replicate (S (length ds)) None) /\
    chip m' [] NOP n (u8 (e + n)) 0 s' /\ mem_ok m' /\
    (forall q d, ds !! q = Some d -> array_get m' (word (1 + Z.of_nat q)) = Some d) /\ array_get m' (word 0) = array_get m (word 0).
Proof.
  intros C Hm Hl Hds. pose proof n_bounds.
  destruct (sdram_cycle_edges t WRITE col bank d0 m [] cmd0 k0 (u8 e) m [] (next WRITE 0) 1 (u8 (e + 1)) s C) as (s1 & E1 & C1); [| by rewrite u8_add |].
  { intros s1 C1. pose proof (take_burst m [] cmd0 k0 (u8 e) s1 WRITE d0 t C1 ltac:(by right)) as C2. exists (advance n (takeCommand t (present WRITE col bank d0 s1))).
    split; [| apply advance_chip; [done | by right | lia]]. unfold transfer. rewrite (ch_command _ _ _ _ _ _ _ C2).
    destruct (ch_config _ _ _ _ _ _ _ C2) as (_ & -> & _). rewrite Hmode. reflexivity. }
  cbn [cycles]. rewrite E1. cbn [mbind option_bind].
  destruct (write_words period ds (t + period) 1 m (e + 1) s1 C1 Hm) as (s2 & m2 & -> & C2 & Hm2 & Hw2 & Hk2); [lia | lia | done |].
  exists s2, m2. split; [done |]. split; [by replace (e + n) with (e + 1 + zlength ds) by lia |]. split; [done |]. split; [done |]. apply Hk2. lia.
Qed.

(** ** Reading *)

Context (dat : Z -> Z) (m : list Z) (Hdat : forall i, 0 <= i < n -> array_get m (word i) = Some (dat i)) (Hm : mem_ok m).
Context (L e0 : Z) (HL : getCASLatency mode = L) (HL7 : 1 <= L <= 7).

(** The words from [from] up to [upto] wait to be driven. *)
Definition queue (from upto : Z) : list (Z * Z) := (fun i => (dat i, u8 (e0 + i + L))) <$> seqZ from (upto - from).

Lemma queue_snoc from upto : from <= upto -> queue from upto ++ [(dat upto, u8 (e0 + upto + L))] = queue from (upto + 1).
Proof.
  intros Hf. unfold queue. replace (upto + 1 - from) with ((upto - from) + 1) by lia. rewrite seqZ_app by lia. rewrite fmap_app.
  replace (from + (upto - from)) with upto by lia. done.
Qed.

(** The falling edge of cycle [k]. *)
Lemma popped_queue k t : 0 <= k < n + L - 1 ->
  popped (queue (Z.max 0 (k + 1 - L)) (Z.min (k + 1) n)) (u8 (e0 + k + 1)) t =
    if L <=? k + 1 then (queue (k + 2 - L) (Z.min (k + 1) n), [Pins 0 (constant (dat (k + 1 - L))) t]) else (queue 0 (Z.min (k + 1) n), []).
Proof.
  intros Hk. pose proof n_bounds as Hnb. unfold queue at 1. rewrite seqZ_cons by lia. cbn [fmap list_fmap popped]. destruct (Z.leb_spec L (k + 1)).
  - rewrite Z.max_r by lia. replace (e0 + (k + 1 - L) + L) with (e0 + k + 1) by lia. rewrite Z.eqb_refl.
    unfold queue. do 3 f_equal; lia.
  - rewrite Z.max_l by lia. assert (u8 (e0 + 0 + L) <> u8 (e0 + k + 1)) as Hne.
    { unfold wrap. intros E. assert ((e0 + 0 + L - (e0 + k + 1)) mod 2 ^ 8 = 0) as H0 by (rewrite Zminus_mod, E, Z.sub_diag; done).
      rewrite Z.mod_small in H0 by lia. lia. }
    rewrite (proj2 (Z.eqb_neq _ _) Hne). unfold queue. rewrite (seqZ_cons 0) by lia. done.
Qed.

(** What cycle [k] of a read burst drives. *)
Definition readAt (k : Z) : option Z := if L <=? k + 1 then Some (dat (k + 1 - L)) else None.

(** The chip before cycle [k] of a read burst. *)
Definition reading (k : Z) (s : SDRAM) : Prop :=
  chip m (queue (Z.max 0 (k + 1 - L)) (Z.min k n)) (if n <=? k then NOP else READ) (Z.min k n) (u8 (e0 + k)) 0 s.

(** A rising edge in a burst, the command taken. *)
Lemma read_word k s t : 0 <= k < n -> getReadWriteMask s t = 0xffff -> chip m (queue (Z.max 0 (k + 1 - L)) k) READ k (u8 (e0 + k)) 1 s ->
  exists s', transfer t s = Some s' /\ chip m (queue (Z.max 0 (k + 1 - L)) (k + 1)) (next READ k) (k + 1) (u8 (e0 + k)) 1 s'.
Proof.
  intros Hk Hmask C. destruct (mem_word m k Hm Hk) as (w & Hw & Hwr). pose proof (Hdat k Hk) as Hd. rewrite Hw in Hd. injection Hd as Hd.
  destruct (transfer_read _ _ _ _ _ t w C Hmask Hk Hw Hwr) as (s' & E & C'). exists s'. split; [done |].
  rewrite u8_add, HL, Hd in C'. rewrite queue_snoc in C' by lia. done.
Qed.

Lemma reading_next k s' t : 0 <= k < n + L - 1 ->
  chip m (popped (queue (Z.max 0 (k + 1 - L)) (Z.min (k + 1) n)) (u8 (e0 + k + 1)) t).1 (if n <=? k + 1 then NOP else READ) (Z.min (k + 1) n) (u8 (e0 + k + 1)) 0 s' ->
  reading (k + 1) s' /\ drives (popped (queue (Z.max 0 (k + 1 - L)) (Z.min (k + 1) n)) (u8 (e0 + k + 1)) t).2 = readAt k.
Proof.
  intros Hk C. rewrite popped_queue in * by done. unfold reading, readAt. destruct (Z.leb_spec L (k + 1)); cbn in *.
  - rewrite Z.max_r by lia. replace (k + 1 + 1 - L) with (k + 2 - L) by lia. replace (e0 + (k + 1)) with (e0 + k + 1) by lia. done.
  - rewrite Z.max_l by lia. replace (e0 + (k + 1)) with (e0 + k + 1) by lia. done.
Qed.

(** A cycle without a command in the burst, or after it. *)
Lemma read_cycle k s t dq : reading k s -> 1 <= k < n + L - 1 ->
  exists s' l, clockCycle t NOP 0 0 dq s = Some (s', l) /\ drives l = readAt k /\ reading (k + 1) s'.
Proof.
  intros C Hk. pose proof n_bounds. unfold reading in C.
  destruct (sdram_cycle_edges t NOP 0 0 dq m (queue (Z.max 0 (k + 1 - L)) (Z.min k n)) (if n <=? k then NOP else READ) (Z.min k n) (u8 (e0 + k))
    m (queue (Z.max 0 (k + 1 - L)) (Z.min (k + 1) n)) (if n <=? k + 1 then NOP else READ) (Z.min (k + 1) n) (u8 (e0 + k + 1)) s C) as (s' & E & C').
  - intros s1 C1. pose proof (take_nop _ _ _ _ _ s1 dq t C1) as C2. destruct (Z.leb_spec n k).
    + rewrite (proj2 (Z.leb_le n (k + 1))) by lia. rewrite !Z.min_r in * by lia. eexists. split; [| exact C2]. unfold transfer. by rewrite (ch_command _ _ _ _ _ _ _ C2).
    + rewrite (Z.min_l k) in C2 by lia. destruct (read_word k (takeCommand t (present NOP 0 0 dq s1)) t) as (s2 & E2 & C3); [lia | apply full_mask; [by right; right | apply C1] | exact C2 |].
      exists s2. split; [done |]. rewrite (Z.min_l (k + 1)) by lia. unfold next in C3.
      destruct (Z.eqb_spec (k + 1) n), (Z.leb_spec n (k + 1)); try lia; done.
  - by rewrite u8_add.
  - destruct (reading_next k s' t ltac:(lia) C') as [R D]. eauto.
Qed.

Lemma read_cycles period dqs : forall k t s, reading k s -> 1 <= k -> k + zlength dqs <= n + L - 1 ->
  exists s', cycles t period ((fun d => (NOP, 0, 0, d)) <$> dqs) s = Some (s', readAt <$> seqZ k (zlength dqs)).
Proof.
  induction dqs as [|d dqs IH]; intros k t s R Hk Hl; cbn [length fmap list_fmap cycles] in *; [by exists s |].
  destruct (read_cycle k s t d R) as (s1 & l & -> & Hd & R1); [lia |]. cbn [mbind option_bind].
  destruct (IH (k + 1) (t + period) s1 R1) as (s2 & ->); [lia | lia |]. cbn [mbind option_bind]. exists s2.
  replace (Z.of_nat (S (length dqs))) with (1 + zlength dqs) by lia. rewrite Hd, seqZ_app by lia. done.
Qed.

(** A read burst drives the words in order, the first one in the cycle that the latency gives. *)
Lemma read_burst t period k0 cmd0 s d0 dqs : chip m [] cmd0 k0 (u8 e0) 0 s -> 1 + zlength dqs = n + L - 1 ->
  exists s', cycles t period ((READ, col, bank, d0) :: ((fun d => (NOP, 0, 0, d)) <$> dqs)) s = Some (s', readAt <$> seqZ 0 (n + L - 1)).
Proof.
  intros C Hl. pose proof n_bounds.
  destruct (sdram_cycle_edges t READ col bank d0 m [] cmd0 k0 (u8 e0) m (queue 0 1) (next READ 0) 1 (u8 (e0 + 1)) s C) as (s1 & E1 & C1).
  { intros s1 C1. pose proof (take_burst m [] cmd0 k0 (u8 e0) s1 READ d0 t C1 ltac:(by left)) as C2.
    destruct (read_word 0 (takeCommand t (present READ col bank d0 s1)) t) as (s2 & E2 & C3); [lia | apply full_mask; [by left | apply C1] | |].
    - rewrite Z.max_l by lia. by rewrite Z.add_0_r.
    - rewrite Z.max_l, Z.add_0_r in C3 by lia. eauto. }
  { by rewrite u8_add. }
  cbn [cycles]. rewrite E1. cbn [mbind option_bind].
  destruct (reading_next 0 s1 t ltac:(lia)) as [R D].
  { rewrite Z.max_l, Z.min_l, Z.add_0_r by lia. unfold next in C1. destruct (Z.eqb_spec (0 + 1) n), (Z.leb_spec n (0 + 1)); try lia; done. }
  rewrite Z.max_l, Z.min_l, Z.add_0_r in D by lia. change (0 + 1) with 1 in D. rewrite D.
  destruct (read_cycles period dqs 1 (t + period) s1 R) as (s2 & ->); [lia | lia |]. cbn [mbind option_bind]. exists s2.
  rewrite <- Hl, seqZ_app by lia. done.
Qed.
End bursts.

(** ** A burst written and read back *)

(** The chip between bursts, with this row open and this mode. *)
Record idle (c : SDRAMConfig) (mode row : Z) (s : SDRAM) : Prop := {
  id_mem : mem_ok c (mem s);
  id_pending : pendingReads s = [];
  id_command : currentCommand s <> READ /\ currentCommand s <> WRITE;
  id_edge : 0 <= edgeNumber s < 2 ^ 8;
  id_config : config s = c /\ modeReg s = mode /\ currentRow s = row;
  id_clock : CLKClock s = mkHandleClock 0 (constant 0);
  id_mask : useUDQM s = false \/ UDQM s = constant 0
}.

Lemma idle_chip c mode row col bank s : idle c mode row s ->
  chip c mode row col bank (mem s) [] (currentCommand s) 0 (u8 (edgeNumber s)) 0 s.
Proof. intros [? ? [? ?] ? ? ? ?]. split; try done; [by rewrite wrap_small | by intros [|]]. Qed.

(** Cycles without a command, with these levels on the data pins. *)
Definition nops (dqs : list Z) : list (Command * Z * Z * Z) := (fun d => (NOP, 0, 0, d)) <$> dqs.

(** What the cycles of a read burst drive: nothing before the latency is over, then the words. *)
Lemma readAt_words (dat : Z -> Z) L (ws : list Z) : 1 <= L -> (forall q w, ws !! q = Some w -> dat (Z.of_nat q) = w) ->
  readAt dat L <$> seqZ 0 (zlength ws + L - 1) = replicate (Z.to_nat (L - 1)) None ++ (Some <$> ws).
Proof.
  intros HL Hw. replace (zlength ws + L - 1) with ((L - 1) + zlength ws) by lia. rewrite seqZ_app, fmap_app by lia. f_equal.
  - apply list_eq. intros q. rewrite list_lookup_fmap. destruct (decide (q < Z.to_nat (L - 1))%nat).
    + rewrite lookup_replicate_2, (lookup_seqZ_lt 0 _ q) by lia. cbn. unfold readAt. by rewrite (proj2 (Z.leb_gt _ _)) by lia.
    + rewrite lookup_seqZ_ge by lia. symmetry. apply lookup_replicate_None. lia.
  - apply list_eq. intros q. rewrite !list_lookup_fmap. destruct (ws !! q) as [w|] eqn:E.
    + apply lookup_lt_Some in E as Hq. rewrite lookup_seqZ_lt by lia. cbn. unfold readAt. rewrite (proj2 (Z.leb_le _ _)) by lia.
      replace (0 + (L - 1) + Z.of_nat q + 1 - L) with (Z.of_nat q) by lia. by rewrite (Hw q w).
    + apply lookup_ge_None in E. by rewrite lookup_seqZ_ge by lia.
Qed.

(** C23: A burst of 1, 2, 4 or 8 words that is written and then read back from the same row, bank and column, in either burst mode and with any latency from 1 to 7
    in the mode register; full-page bursts (mode value 7, for which the code has the burst length 0) and a latency of 0 are left out.  The chip has at most 2^31 words in rows of 8 to 2^16; it is between bursts with
    the row open and its clock low, nothing is still to be driven, and the upper mask pin is not connected or low.  Then
    the write cycles drive nothing, the read cycles drive nothing before the latency is over and then one word per cycle.
    The words are those that were written on the cycles after the command; the word that comes with the WRITE command itself is lost,
    its place in the memory keeps what it held. *)
Theorem sdram_burst_roundtrip c mode row col bank j s t t' period d0 ds d1 dqs :
  config_ok c -> 0 <= row < 2 ^ rowBits c -> 0 <= col < 2 ^ columnBits c -> 0 <= bank < 2 ^ bankBits c ->
  0 <= j <= 3 -> getReadBurstLength mode = 2 ^ j -> 1 <= getCASLatency mode -> idle c mode row s ->
  1 + zlength ds = 2 ^ j -> Forall (fun d => 0 <= d < 2 ^ 16) ds -> zlength dqs = 2 ^ j + getCASLatency mode - 2 ->
  exists old s1 s2,
    array_get (mem s) (place c row bank (burstColumn (getBurstMode mode) (2 ^ j) col 0)) = Some old /\
    cycles t period ((WRITE, col, bank, d0) :: nops ds) s = Some (s1, replicate (S (length ds)) None) /\
    cycles t' period ((READ, col, bank, d1) :: nops dqs) s1 = Some (s2, replicate (Z.to_nat (getCASLatency mode - 1)) None ++ (Some <$> old :: ds)).
Proof.
  intros Hok Hrow Hcol Hbank Hj Hmode HL Hs Hds Hw Hdqs. set (n := 2 ^ j) in *.
  assert (getCASLatency mode <= 7) as HL7.
  { unfold getCASLatency. change (mode .>> 4 .& 0x7) with (mode .>> 4 .& Z.ones 3). rewrite Z.land_ones by lia. pose proof (Z.mod_pos_bound (mode .>> 4) (2 ^ 3)). lia. }
  pose proof (n_bounds c j n Hj eq_refl) as Hn. pose proof (id_mem _ _ _ _ Hs) as Hm.
  destruct (mem_word c Hok mode row col bank j n Hj eq_refl Hrow Hcol Hbank (mem s) 0 Hm ltac:(lia)) as (old & Hold & _).
  destruct (write_burst c Hok mode row col bank j n Hj eq_refl Hmode Hrow Hcol Hbank t period 0 (mem s) (edgeNumber s) s d0 ds _ (idle_chip _ _ _ _ _ _ Hs) Hm)
    as (s1 & m1 & E1 & C1 & Hm1 & Hw1 & Hk1); [lia | done |].
  set (dat := fun i : Z => default 0 ((old :: ds) !! Z.to_nat i)).
  destruct (read_burst c Hok mode row col bank j n Hj eq_refl Hmode Hrow Hcol Hbank dat m1) with (L := getCASLatency mode) (e0 := edgeNumber s + n)
    (t := t') (period := period) (k0 := n) (cmd0 := NOP) (s := s1) (d0 := d1) (dqs := dqs) as (s2 & E2); try done; [| lia |].
  - intros i Hi. subst dat. cbn beta. destruct (decide (i = 0)) as [-> | Hi0]; [by rewrite Hk1 |].
    replace (Z.to_nat i) with (S (Z.to_nat (i - 1))) by lia. cbn [lookup list_lookup].
    destruct (lookup_lt_is_Some_2 ds (Z.to_nat (i - 1))) as [x Hx]; [lia |]. pose proof (Hw1 _ _ Hx) as E.
    replace (1 + Z.of_nat (Z.to_nat (i - 1))) with i in E by lia. rewrite E. cbn [lookup]. f_equal. symmetry. by apply (f_equal (default 0)) in Hx.
  - exists old, s1, s2. split; [done |]. split; [done |]. unfold nops. rewrite E2. do 2 f_equal.
    replace n with (zlength (old :: ds)) by (cbn; lia). apply readAt_words; [done |]. intros q w Hq. subst dat. cbn beta. by rewrite Nat2Z.id, Hq.
Qed.

(** A small chip: bursts of four words that go round inside their block, a latency of two; a row has been opened. *)
Definition small_chip : SDRAM :=
  match cycles 0 10 [(LOAD_MODE_REGISTER, 0x22, 0, 0); (ACTIVE, 1, 0, 0)] (newSDRAM (mkConfig 3 1 1) 0 0 0 0 false false) with
  | Some (s, _) => s
  | None => newSDRAM (mkConfig 3 1 1) 0 0 0 0 false false
  end.

Lemma small_chip_idle : idle (mkConfig 3 1 1) 0x22 1 small_chip.
Proof.
  split; try (vm_compute; (reflexivity || by split)); [| vm_compute; by left].
  split; [reflexivity |]. apply (bool_decide_unpack _). vm_compute. done.
Qed.

Lemma sdram_burst_roundtrip_witness : exists s1 s2,
  cycles 100 10 ((WRITE, 5, 1, 0x1111) :: nops [0x2222; 0x3333; 0x4444]) small_chip = Some (s1, [None; None; None; None]) /\
  cycles 200 10 ((READ, 5, 1, 0) :: nops [0; 0; 0; 0]) s1 = Some (s2, [None; Some 0; Some 0x2222; Some 0x3333; Some 0x4444]).
Proof.
  destruct (sdram_burst_roundtrip (mkConfig 3 1 1) 0x22 1 5 1 2 small_chip 100 200 10 0x1111 [0x2222; 0x3333; 0x4444] 0 [0; 0; 0; 0])
    as (old & s1 & s2 & Hold & Hw & Hr); try (cbn; lia); try reflexivity.
  - split; cbn; lia.
  - vm_compute. done.
  - exact small_chip_idle.
  - repeat constructor; lia.
  - vm_compute in Hold. injection Hold as <-. exists s1, s2. split; [exact Hw | exact Hr].
Defined.
