(* ===== verification/PortArg.v ===== *)
(** * References to ports (lib/PortArg.cpp, lib/PortNames.cpp, lib/PortAliases.cpp)

    On the command line and in the configuration a port, or a slice of its pins, is written as a string: the
    name of a core, the name or the identifier of a port, and a range of pins, [core:port[begin:end]]. *)

From Stdlib Require Import ZArith Lia Ascii String.
From stdpp Require Import base list numbers option sets.
From S2P Require Import Prelude Resource.

#[local] Open Scope char_scope.
#[local] Open Scope Z_scope.

(** ** Strings *)

Abbreviation str := (list ascii).
Definition lit (s : string) : str := list_ascii_of_string s.
Arguments lit s%_string.

#[export] Instance ascii_eq_dec : EqDecision ascii := Ascii.ascii_dec.

Definition code (c : ascii) : Z := Z.of_N (N_of_ascii c).

(** The string before and after the first [c]. *)
Fixpoint splitFirst (c : ascii) (s : str) : option (str * str) :=
  match s with
  | [] => None
  | x :: s => if decide (x = c) then Some ([], s) else '(a, b) ← splitFirst c s; Some (x :: a, b)
  end.

(** The string before and after the last [c]. *)
Definition splitLast (c : ascii) (s : str) : option (str * str) :=
  '(a, b) ← splitFirst c (reverse s); Some (reverse b, reverse a).

(** What a function of the C library sees of a string: the characters before the first zero. *)
Definition c_str (s : str) : str := match splitFirst "000" s with Some (a, _) => a | None => s end.

(** *** [strtol] *)

Definition isSpace (c : ascii) : bool := (code c =? 32) || ((9 <=? code c) && (code c <=? 13)).

Definition digitOf (base : Z) (c : ascii) : option Z :=
  let n := code c in
  let d := if (48 <=? n) && (n <=? 57) then n - 48
           else if (65 <=? n) && (n <=? 90) then n - 55
           else if (97 <=? n) && (n <=? 122) then n - 87 else 36 in
  if d <? base then Some d else None.

Fixpoint skipSpace (s : str) : str := match s with c :: s' => if isSpace c then skipSpace s' else s | [] => [] end.

Fixpoint takeDigits (base acc : Z) (s : str) : Z * str :=
  match s with
  | c :: s' => match digitOf base c with Some d => takeDigits base (base * acc + d) s' | None => (acc, s) end
  | [] => (acc, [])
  end.

Definition startsNumber (base : Z) (s : str) : bool :=
  match s with c :: _ => match digitOf base c with Some _ => true | None => false end | [] => false end.

Definition signOf (s : str) : bool * str :=
  match s with "-" :: s => (true, s) | "+" :: s => (false, s) | _ => (false, s) end.

(** The base and the digits of a number, with base 0 for the prefixes of C. *)
Definition prefixOf (base : Z) (s : str) : Z * str :=
  match s with
  | "0" :: ("x" | "X") :: s' =>
      if (base =? 0) && startsNumber 16 s' then (16, s') else (if base =? 0 then 8 else base, s)
  | "0" :: _ => (if base =? 0 then 8 else base, s)
  | _ => (if base =? 0 then 10 else base, s)
  end.

(** The value of a [long] of 64 bits, where the number ends, and whether it is out of range. *)
Definition strtol (base : Z) (s : str) : Z * str * bool :=
  let '(neg, r) := signOf (skipSpace s) in
  let '(base, r) := prefixOf base r in
  if startsNumber base r then
    let '(v, e) := takeDigits base 0 r in
    let v := if neg : bool then - v else v in
    let w := Z.max (- 2 ^ 63) (Z.min (2 ^ 63 - 1) v) in
    (w, e, negb (w =? v))
  else (0, s, false).

(** The decimal digits of an [unsigned], as a stream writes it. *)
Fixpoint decimal_ (fuel : nat) (n : Z) (acc : str) : str :=
  match fuel with
  | O => acc
  | S fuel => let acc := ascii_of_N (Z.to_N (48 + n mod 10)) :: acc in if n <? 10 then acc else decimal_ fuel (n / 10) acc
  end.
Definition decimal (n : Z) : str := decimal_ 10 (u32 n) [].

(** ** References *)

(** lib/PortArg.h:19-24 PortArg *)
Record PortArg := mkPortArg { core : str; port_ : str; beginOffset : Z; endOffset : Z }.

(** A [signed char]. *)
Definition s8 (x : Z) : Z := (x + 2 ^ 7) mod 2 ^ 8 - 2 ^ 7.

(** lib/PortArg.cpp:18-29 parsePortOffset *)
Definition parsePortOffset (s : str) : option Z :=
  let '(value, endp, erange) := strtol 10 (c_str s) in
  if erange || bool_decide (endp <> []) then None
  else if (value <? 0) || (127 <? value) then None
  else Some value.

(** lib/PortArg.cpp:52-74 PortArg::parse: the bounds of an index *)
Definition parseBounds (index : str) : option (Z * Z) :=
  match splitFirst ":" index with
  | Some (lowerBoundStr, upperBoundStr) =>
      if bool_decide (lowerBoundStr = []) || bool_decide (upperBoundStr = []) then None
      else
        lowerBound ← parsePortOffset lowerBoundStr; upperBound ← parsePortOffset upperBoundStr;
        if upperBound <=? lowerBound then None else Some (lowerBound, upperBound)
  | None => lowerBound ← parsePortOffset index; Some (lowerBound, s8 (lowerBound + 1))
  end.

(** lib/PortArg.cpp:37-50 PortArg::parse: the port and its index, which is empty when there is none *)
Definition splitIndex (s : str) : option (str * str) :=
  match reverse s with
  | "]" :: r =>
      '(port, index) ← splitLast "[" (reverse r);
      if bool_decide (index = []) then None else Some (port, index)
  | _ => Some (s, [])
  end.

(** lib/PortArg.cpp:76-85 PortArg::parse: the core and the identifier of the port *)
Definition splitCore (port : str) : option (str * str) :=
  match splitFirst ":" port with
  | Some (core, identifier) => if bool_decide (core = []) then None else Some (core, identifier)
  | None => Some ([], port)
  end.

(** lib/PortArg.cpp:31-88 PortArg::parse *)
Definition parse (s : str) : option PortArg :=
  if bool_decide (s = []) then None
  else
    '(port, index) ← splitIndex s;
    '(lowerBound, upperBound) ← (if bool_decide (index = []) then Some (0, -1) else parseBounds index);
    '(core, identifier) ← splitCore port;
    Some (mkPortArg core identifier lowerBound upperBound).

(** lib/PortArg.cpp:168-180 PortArg::dump *)
Definition dump (a : PortArg) : str :=
  (if bool_decide (core a = []) then [] else core a ++ [":"]) ++ port_ a ++
  (if negb (beginOffset a =? 0) || negb (endOffset a =? -1) then
     ["["] ++ decimal (beginOffset a) ++
     (if negb (endOffset a =? beginOffset a + 1) then [":"] ++ decimal (endOffset a) else []) ++ ["]"]
   else []).

(** ** Names *)

(** lib/PortNames.cpp:32-70 PortNames::PortNames *)
Definition portTable : list (str * Z) :=
  [(lit "PORT_32A", 0x200000); (lit "PORT_32B", 0x200100);
   (lit "PORT_16A", 0x100000); (lit "PORT_16B", 0x100100); (lit "PORT_16C", 0x100200); (lit "PORT_16D", 0x100300);
   (lit "PORT_8A", 0x80000); (lit "PORT_8B", 0x80100); (lit "PORT_8C", 0x80200); (lit "PORT_8D", 0x80300);
   (lit "PORT_4A", 0x40000); (lit "PORT_4B", 0x40100); (lit "PORT_4C", 0x40200); (lit "PORT_4D", 0x40300);
   (lit "PORT_4E", 0x40400); (lit "PORT_4F", 0x40500);
   (lit "PORT_1A", 0x10200); (lit "PORT_1B", 0x10000); (lit "PORT_1C", 0x10100); (lit "PORT_1D", 0x10300);
   (lit "PORT_1E", 0x10600); (lit "PORT_1F", 0x10400); (lit "PORT_1G", 0x10500); (lit "PORT_1H", 0x10700);
   (lit "PORT_1I", 0x10a00); (lit "PORT_1J", 0x10800); (lit "PORT_1K", 0x10900); (lit "PORT_1L", 0x10b00);
   (lit "PORT_1M", 0x10c00); (lit "PORT_1N", 0x10d00); (lit "PORT_1O", 0x10e00); (lit "PORT_1P", 0x10f00)].

(** A map filled by insertions, of which the first one for a key counts. *)
Fixpoint find_first {K V : Type} `{EqDecision K} (k : K) (l : list (K * V)) : option V :=
  match l with [] => None | (k', v) :: l => if decide (k' = k) then Some v else find_first k l end.

(** lib/PortNames.cpp:14-21 PortNames::getPortName *)
Definition getPortName (id : Z) : option str := find_first id ((fun x => (x.2, x.1)) <$> portTable).
(** lib/PortNames.cpp:22-29 PortNames::getPortId *)
Definition getPortId (name : str) : option Z := find_first name portTable.

(** lib/PortAliases.h:15-15 PortAliases: the aliases, in the order they were added; the first one of a name counts *)
Definition PortAliases := list (str * (str * str)).
(** lib/PortAliases.h:17-20 PortAliases::add *)
Definition addAlias (name core port : str) (l : PortAliases) : PortAliases := l ++ [(name, (core, port))].
(** lib/PortAliases.cpp:10-19 PortAliases::lookup *)
Definition lookupAlias (name : str) (l : PortAliases) : option (str * str) :=
  find_first name l.

(** lib/PortArg.cpp:90-104 convertPortString *)
Definition convertPortString (s : str) : option Z :=
  if decide (take 4 s = lit "XS1_") then getPortId (drop 4 s)
  else match getPortId s with
       | Some id => Some id
       | None => let '(value, endp, _) := strtol 0 (c_str s) in if bool_decide (endp = []) then Some (u32 value) else None
       end.

(** ** Looking up *)

Section lookup.
Context {R : Type} `{AllocatableResource R}.

(** The system: its nodes, with the code reference and the resources of each core, or [None] for a node without cores. *)
Definition Nodes := list (option (list (str * Tables R))).

(** A port of the system: the node, the core, the port. *)
Definition PortPlace : Type := nat * nat * ResourceRef.

(** lib/PortArg.cpp:108-119 findMatchingCore: with the place of the core *)
Definition findMatchingCore (s : str) (nodes : Nodes) : option (nat * nat * Tables R) :=
  let matches (x : str * Tables R) := bool_decide (s = []) || bool_decide (x.1 = s) in
  head (concat (imap (fun i n => match n with
                                 | Some cores => omap (fun '(j, x) => if matches x then Some (i, j, x.2) else None) (imap (fun j x => (j, x)) cores)
                                 | None => []
                                 end) nodes)).

(** lib/PortArg.cpp:121-135 lookupPortAux: [Some None] is the null pointer *)
Definition lookupPortAux (nodes : Nodes) (core port : str) : option (option PortPlace) :=
  match findMatchingCore core nodes with
  | None => Some None
  | Some (i, j, c) =>
      match convertPortString port with
      | None => Some None
      | Some id =>
          res ← getResourceByID c id;
          Some match res with Some (PortRef w n) => Some (i, j, PortRef w n) | _ => None end
      end
  end.

(** lib/PortArg.cpp:137-146 PortArg::lookupPort *)
Definition lookupPort (a : PortArg) (nodes : Nodes) (aliases : PortAliases) : option (option PortPlace) :=
  match (if bool_decide (core a = []) then lookupAlias (port_ a) aliases else None) with
  | Some (actualCore, actualPort) => lookupPortAux nodes actualCore actualPort
  | None => lookupPortAux nodes (core a) (port_ a)
  end.

(** The width of a port. *)
Definition getPortWidth (p : PortPlace) : Z := match p with (_, PortRef w _) => w | (_, StdRef _ _) => 0 end.

(** lib/PortArg.cpp:148-166 PortArg::lookup *)
Definition lookup_arg (a : PortArg) (nodes : Nodes) (aliases : PortAliases) : option (option (PortPlace * Z * Z)) :=
  p ← lookupPort a nodes aliases;
  Some (p ← p;
        adjustedEndOffset ← (if endOffset a =? -1 then Some (s8 (getPortWidth p))
                             else if getPortWidth p <? u32 (endOffset a) then None else Some (endOffset a));
        if adjustedEndOffset <=? beginOffset a then None else Some (p, u32 (beginOffset a), u32 adjustedEndOffset)).
End lookup.

(** ** Writing and reading *)

Lemma splitFirst_app c a b : c ∉ a -> splitFirst c (a ++ c :: b) = Some (a, b).
Proof.
  induction a as [|x a IH]; intros Hc; cbn; [by rewrite decide_True |].
  rewrite decide_False by set_solver. rewrite IH by set_solver. done.
Qed.
Lemma splitFirst_None c s : c ∉ s -> splitFirst c s = None.
Proof. induction s as [|x s IH]; intros Hc; cbn; [done |]. rewrite decide_False by set_solver. by rewrite IH by set_solver. Qed.
Lemma splitFirst_Some c s a b : splitFirst c s = Some (a, b) -> s = a ++ c :: b.
Proof.
  revert a b. induction s as [|x s IH]; intros a b E; [done |]. cbn in E. destruct (decide (x = c)) as [-> | ]; [by simplify_eq/= |].
  destruct (splitFirst c s) as [[a' b']|]; [| done]. simplify_eq/=. by rewrite (IH a' b).
Qed.
Lemma splitLast_app c a b : c ∉ b -> splitLast c (a ++ c :: b) = Some (a, b).
Proof.
  intros Hb. unfold splitLast. rewrite reverse_app, reverse_cons, <- app_assoc. cbn [app].
  rewrite splitFirst_app by (by rewrite elem_of_reverse). cbn [mbind option_bind]. by rewrite !reverse_involutive.
Qed.

(** The digits of an offset. *)
Definition offsetDigits (n : Z) : bool :=
  bool_decide (parsePortOffset (decimal n) = Some n) && bool_decide (decimal n <> []) && forallb (fun c => (48 <=? code c) && (code c <=? 57)) (decimal n).

Lemma offset_decimal n : 0 <= n <= 127 ->
  parsePortOffset (decimal n) = Some n /\ decimal n <> [] /\ "[" ∉ decimal n /\ ":" ∉ decimal n.
Proof.
  intros Hn. assert (forallb offsetDigits (seqZ 0 128) = true) as H by (vm_compute; reflexivity).
  rewrite forallb_forall in H. specialize (H n ltac:(apply list_elem_of_In, elem_of_seqZ; lia)).
  apply andb_prop in H as [H H3]. apply andb_prop in H as [H1%bool_decide_eq_true_1 H2%bool_decide_eq_true_1]. split_and!; [done | done | |].
  all: rewrite forallb_forall in H3; intros Hi%list_elem_of_In; by apply H3 in Hi.
Qed.

Lemma parsePortOffset_range s n : parsePortOffset s = Some n -> 0 <= n <= 127.
Proof.
  unfold parsePortOffset. destruct (strtol _ _) as [[v e] r]. destruct (r || _); [done |].
  destruct (Z.ltb_spec v 0), (Z.ltb_spec 127 v); cbn; intros; simplify_eq; lia.
Qed.

Lemma parseBounds_range s b e : parseBounds s = Some (b, e) -> 0 <= b <= 127 /\ (b < e <= 127 \/ e = -128).
Proof.
  unfold parseBounds. intros E. destruct (splitFirst ":" s) as [[l u]|].
  - destruct (_ || _); [done |]. destruct (parsePortOffset l) as [b'|] eqn:El; [| done]. cbn in E. destruct (parsePortOffset u) as [e'|] eqn:Eu; [| done].
    cbn in E. apply parsePortOffset_range in El, Eu. destruct (Z.leb_spec e' b'); [done |]. simplify_eq. lia.
  - destruct (parsePortOffset s) as [b'|] eqn:El; [| done]. cbn in E. apply parsePortOffset_range in El. simplify_eq.
    destruct (decide (b = 127)) as [-> |]; [vm_compute; intuition congruence |]. unfold s8. rewrite Z.mod_small by lia. lia.
Qed.

(** The index that [dump] writes. *)
Definition dumpIndex (b e : Z) : str := decimal b ++ (if negb (e =? b + 1) then [":"] ++ decimal e else []).

Lemma parseBounds_dump b e : 0 <= b < e -> e <= 127 -> parseBounds (dumpIndex b e) = Some (b, e) /\ dumpIndex b e <> [] /\ "[" ∉ dumpIndex b e.
Proof.
  intros Hb He. destruct (offset_decimal b ltac:(lia)) as (P1 & N1 & O1 & C1), (offset_decimal e ltac:(lia)) as (P2 & N2 & O2 & C2).
  unfold dumpIndex, parseBounds. destruct (Z.eqb_spec e (b + 1)) as [-> |]; cbn [negb].
  - rewrite app_nil_r, splitFirst_None, P1 by done. cbn. split; [| done]. do 2 f_equal. unfold s8. rewrite Z.mod_small by lia. lia.
  - cbn [app]. rewrite splitFirst_app by done. rewrite !bool_decide_eq_false_2 by done. cbn [orb]. rewrite P1, P2. cbn [mbind option_bind].
    rewrite (proj2 (Z.leb_gt e b)) by lia. split; [done |]. split; [by destruct (decimal b) |]. set_solver.
Qed.

Lemma splitIndex_dump p i : i <> [] -> "[" ∉ i -> splitIndex (p ++ "[" :: i ++ ["]"]) = Some (p, i).
Proof.
  intros Hi Hb. unfold splitIndex. assert (reverse (p ++ "[" :: i ++ ["]"]) = "]" :: reverse (p ++ "[" :: i)) as ->.
  { by rewrite app_comm_cons, app_assoc, reverse_snoc. }
  rewrite reverse_involutive.
  rewrite splitLast_app by done. cbn [mbind option_bind]. by rewrite bool_decide_eq_false_2.
Qed.

Lemma splitCore_dump p c i : splitCore p = Some (c, i) -> (if bool_decide (c = []) then [] else c ++ [":"]) ++ i = p.
Proof.
  unfold splitCore. destruct (splitFirst ":" p) as [[c' i']|] eqn:E.
  - apply splitFirst_Some in E as ->. destruct (bool_decide_reflect (c' = [])); [done |]. intros [= -> ->]. rewrite bool_decide_eq_false_2 by done. by rewrite <- app_assoc.
  - intros [= <- <-]. done.
Qed.

(** C31: A reference to a port is read back as it was written: whatever string a reference was parsed from, with white space, signs and leading zeros in
    the offsets, colons and brackets in the name of the port, [dump] writes a string that [parse] reads as the same reference.  The one
    exception is the single pin 127, the end of which overflows to -128. *)
Theorem port_arg_roundtrip (s : str) (a : PortArg) : parse s = Some a -> endOffset a <> -128 -> parse (dump a) = Some a.
Proof.
  intros Hp He. pose proof Hp as E. unfold parse in E. destruct (bool_decide_reflect (s = [])) as [|Hs]; [done |].
  destruct (splitIndex s) as [[p i]|] eqn:Ei; [| done]. cbn [mbind option_bind] in E. destruct (bool_decide_reflect (i = [])) as [-> | Hi].
  - cbn [mbind option_bind] in E. destruct (splitCore p) as [[c n]|] eqn:Ec; [| done]. cbn in E. injection E as <-.
    assert (p = s) as ->.
    { unfold splitIndex in Ei. repeat case_match; simplify_eq; try done; destruct (splitLast _ _) as [[? ?]|]; try done; cbn in Ei; by case_bool_decide; simplify_eq. }
    unfold dump. cbn. rewrite app_nil_r, (splitCore_dump s) by done. done.
  - destruct (parseBounds i) as [[b e]|] eqn:Eb; [| done]. cbn [mbind option_bind] in E. destruct (splitCore p) as [[c n]|] eqn:Ec; [| done]. cbn in E. injection E as <-.
    cbn in He. apply parseBounds_range in Eb as [H1 [H2 |]]; [| done].
    destruct (parseBounds_dump b e) as (D1 & D2 & D3); [lia | lia |].
    assert (dump (mkPortArg c n b e) = p ++ "[" :: dumpIndex b e ++ ["]"]) as Ed.
    { unfold dump. cbn [core port_ beginOffset endOffset]. rewrite (proj2 (Z.eqb_neq e (-1))) by lia. rewrite orb_true_r.
      rewrite app_assoc, (splitCore_dump p) by done. unfold dumpIndex. by rewrite <- app_assoc. }
    rewrite Ed. unfold parse. rewrite bool_decide_eq_false_2 by (by destruct p). rewrite splitIndex_dump by done. cbn [mbind option_bind].
    rewrite bool_decide_eq_false_2 by done. rewrite D1. cbn [mbind option_bind]. by rewrite Ec.
Qed.

Lemma port_arg_roundtrip_witness :
  parse (lit "tile[0]:XS1_PORT_4A[ 1:+04]") = Some (mkPortArg (lit "tile[0]") (lit "XS1_PORT_4A") 1 4) /\
  parse (dump (mkPortArg (lit "tile[0]") (lit "XS1_PORT_4A") 1 4)) = Some (mkPortArg (lit "tile[0]") (lit "XS1_PORT_4A") 1 4).
Proof.
  split; [reflexivity |]. apply (port_arg_roundtrip (lit "tile[0]:XS1_PORT_4A[ 1:+04]")); [reflexivity | done].
Defined.
