(* ===== verification/PortConnect.v ===== *)
(** * Connections between pins (lib/PortConnectionManager.cpp, lib/PortCombiner.cpp, lib/PortSplitter.cpp)

    A device or a port is connected to a slice of the pins of a port.  What a port drives goes to a combiner,
    which shows each slice to the interface attached to it; what is driven on slices of a port is put together by
    a splitter.  The manager creates them when they are needed. *)

From Stdlib Require Import ZArith Lia.
From stdpp Require Import base list numbers option gmap.
From S2P Require Import Prelude BitManip Signal Device.

#[local] Open Scope Z_scope.
#[local] Open Scope cbits_scope.

(** The interfaces: a device, a port, a slice of a splitter of a port, the combiner of a port. *)
Inductive Iface := IDevice (n : nat) | IPort (p : nat) | ISlice (p : nat) (b e : Z) | ICombiner (p : nat).

#[export] Instance Iface_eq_dec : EqDecision Iface.
Proof. solve_decision. Defined.

(** ** Splitters *)

(** lib/PortSplitter.cpp:13-25 PortSplitterSlice *)
Record PortSplitterSlice := mkSlice { sl_shift : Z; sl_mask : Z; sl_clock : HandleClock }.

(** lib/PortSplitter.h:18-22 PortSplitter *)
Record PortSplitter := mkSplitter { sp_value : Z; sp_slices : gmap (Z * Z) PortSplitterSlice }.

(** lib/PortSplitter.cpp:32-37 PortSplitter::PortSplitter *)
Definition newSplitter : PortSplitter := mkSplitter 0 ∅.

(** The pins of a slice. *)
Definition sliceMask (beginOffset endOffset : Z) : Z := makeMask (u32 (endOffset - beginOffset)) .<< beginOffset.

(** lib/PortSplitter.cpp:46-56 PortSplitter::getInterface *)
Definition splitter_getInterface (beginOffset endOffset : Z) (s : PortSplitter) : PortSplitter :=
  match sp_slices s !! (beginOffset, endOffset) with
  | Some _ => s
  | None => mkSplitter (sp_value s) (<[(beginOffset, endOffset) := mkSlice beginOffset (sliceMask beginOffset endOffset) newHandleClock]> (sp_slices s))
  end.

(** lib/PortSplitter.cpp:58-68 PortSplitter::seePinsValueChange: the port is what pin 0 of the splitter drives *)
Definition splitter_seePinsValueChange (shift mask : Z) (sliceValue time : Z) : Op PortSplitter := fun s =>
  let newValue := sp_value s .^ (((sliceValue .<< shift) .^ sp_value s) .& mask) in
  Some (if negb (newValue =? sp_value s) then (mkSplitter newValue (sp_slices s), [Pins 0 (constant newValue) time]) else (s, [])).

Definition sliceClock (k : Z * Z) (s : PortSplitter) : HandleClock := default newHandleClock (sl_clock <$> sp_slices s !! k).
Definition set_sliceClock (k : Z * Z) (h : HandleClock) (s : PortSplitter) : PortSplitter :=
  mkSplitter (sp_value s) (alter (fun x => mkSlice (sl_shift x) (sl_mask x) h) k (sp_slices s)).
(** A number for the runnable of a slice. *)
Definition sliceNumber (k : Z * Z) : nat := Z.to_nat (k.1 * 64 + k.2).

(** lib/PortSplitter.cpp:27-30 PortSplitterSlice::seePinsValueChange: called by seePinsChange of the mixin *)
Definition slice_seePinsChange (k : Z * Z) (x : Signal) (time : Z) : Op PortSplitter := fun s =>
  sl ← sp_slices s !! k;
  clock_seePinsChange (sliceClock k) (set_sliceClock k) (splitter_seePinsValueChange (sl_shift sl) (sl_mask sl)) (sliceNumber k) x time s.

(** lib/PortSplitter.cpp:13-13 PortSplitterSlice: run of the mixin *)
Definition slice_run (k : Z * Z) (time : Z) : Op PortSplitter := fun s =>
  sl ← sp_slices s !! k;
  clock_run (sliceClock k) (set_sliceClock k) (splitter_seePinsValueChange (sl_shift sl) (sl_mask sl)) (sliceNumber k) time s.

(** ** Combiners *)

(** lib/PortCombiner.h:16-22 PortCombiner::Slice *)
Record CSlice := mkCSlice { cs_mask : Z; cs_shift : Z; cs_interface : Iface }.

(** lib/PortCombiner.h:14-23 PortCombiner *)
Record PortCombiner := mkCombiner { cb_value : Z; cb_slices : list CSlice; cb_clock : HandleClock }.

(** lib/PortCombiner.cpp:12-14 PortCombiner::PortCombiner *)
Definition newCombiner : PortCombiner := mkCombiner 0 [] newHandleClock.

Definition set_cb_clock (h : HandleClock) (c : PortCombiner) : PortCombiner := mkCombiner (cb_value c) (cb_slices c) h.

(** lib/PortCombiner.cpp:18-27 PortCombiner::seePinsValueChange: what the slice with number [k] is shown *)
Definition showSlice (value newValue time : Z) (k : nat) (s : CSlice) : list Call :=
  let oldSliceValue := (value .& cs_mask s) .>> cs_shift s in
  let newSliceValue := (newValue .& cs_mask s) .>> cs_shift s in
  if negb (newSliceValue =? oldSliceValue) then [Pins k (constant newSliceValue) time] else [].

(** lib/PortCombiner.cpp:16-29 PortCombiner::seePinsValueChange *)
Definition combiner_seePinsValueChange (newValue time : Z) : Op PortCombiner := fun c =>
  Some (mkCombiner newValue (cb_slices c) (cb_clock c), concat (imap (showSlice (cb_value c) newValue time) (cb_slices c))).

(** lib/PortCombiner.h:14-14 PortCombiner: seePinsChange of the mixin *)
Definition combiner_seePinsChange (x : Signal) (time : Z) : Op PortCombiner :=
  clock_seePinsChange cb_clock set_cb_clock combiner_seePinsValueChange 0 x time.

(** lib/PortCombiner.h:14-14 PortCombiner: run of the mixin *)
Definition combiner_run (time : Z) : Op PortCombiner := clock_run cb_clock set_cb_clock combiner_seePinsValueChange 0 time.

(** lib/PortCombiner.cpp:31-37 PortCombiner::attach *)
Definition combiner_attach (to : Iface) (beginOffset endOffset : Z) (c : PortCombiner) : PortCombiner :=
  mkCombiner (cb_value c) (cb_slices c ++ [mkCSlice (sliceMask beginOffset endOffset) beginOffset to]) (cb_clock c).

(** ** The manager *)

(** lib/PortConnectionManager.h:39-44 PortConnectionManager: with the member loopback of each port *)
Record Manager := mkManager { loopback : gmap nat Iface; splitters : gmap nat PortSplitter; combiners : gmap nat PortCombiner }.

Section manager.
(** The width of each port. *)
Context (getPortWidth : nat -> Z).

(** lib/PortConnectionManager.cpp:40-46 PortConnectionManager::isEntirePort: of a port that is not null *)
Definition isEntirePort (p : nat) (beginOffset endOffset : Z) : bool := (beginOffset =? 0) && (endOffset =? getPortWidth p).

(** lib/PortConnectionManager.cpp:48-65 PortConnectionManager::attach *)
Definition attach (to : Iface) (from : nat) (beginOffset endOffset : Z) (m : Manager) : Manager :=
  if bool_decide (loopback m !! from = None) && isEntirePort from beginOffset endOffset then
    mkManager (<[from := to]> (loopback m)) (splitters m) (combiners m)
  else
    let '(lb, combiner) :=
      match combiners m !! from with
      | Some c => (loopback m, c)
      | None =>
          (<[from := ICombiner from]> (loopback m),
           match loopback m !! from with Some old => combiner_attach old 0 (getPortWidth from) newCombiner | None => newCombiner end)
      end in
    mkManager lb (splitters m) (<[from := combiner_attach to beginOffset endOffset combiner]> (combiners m)).

(** lib/PortConnectionManager.cpp:67-77 PortConnectionManager::getInterface: of a port that is not null *)
Definition getInterface (p : nat) (beginOffset endOffset : Z) (m : Manager) : Manager * Iface :=
  if isEntirePort p beginOffset endOffset then (m, IPort p)
  else
    let s := splitter_getInterface beginOffset endOffset (default newSplitter (splitters m !! p)) in
    (mkManager (loopback m) (<[p := s]> (splitters m)) (combiners m), ISlice p beginOffset endOffset).

(** lib/PortConnectionManager.h:24-37 PortConnectionWrapper: null, or a slice of a port *)
Definition Wrapper := option (nat * Z * Z).
(** lib/PortConnectionManager.cpp:16-18 PortConnectionWrapper::attach *)
Definition wrapper_attach (w : Wrapper) (to : Iface) (m : Manager) : option Manager := '(p, b, e) ← w; Some (attach to p b e m).
(** lib/PortConnectionManager.cpp:20-22 PortConnectionWrapper::getInterface: null for a null port *)
Definition wrapper_getInterface (w : Wrapper) (m : Manager) : Manager * option Iface :=
  match w with Some (p, b, e) => let '(m, i) := getInterface p b e m in (m, Some i) | None => (m, None) end.
End manager.

(** ** Signals on the connections *)

(** What arrives at devices and ports, in order; the calls to the scheduler are left out. *)
Definition Arrival : Type := Iface * Signal * Z.

(** The changes that a call of a splitter makes on the pins of its port. *)
Definition arrivals (p : nat) (l : list Call) : list Arrival :=
  omap (fun c => match c with Pins _ x t => Some (IPort p, x, t) | _ => None end) l.

(** [seePinsChange] of an interface that is not a combiner. *)
Definition deliver (i : Iface) (x : Signal) (t : Z) (m : Manager) : option (Manager * list Arrival) :=
  match i with
  | IDevice _ | IPort _ => Some (m, [(i, x, t)])
  | ISlice p b e =>
      s ← splitters m !! p; '(s, l) ← slice_seePinsChange (b, e) x t s;
      Some (mkManager (loopback m) (<[p := s]> (splitters m)) (combiners m), arrivals p l)
  | ICombiner _ => None
  end.

(** The calls of a combiner, to the interfaces of its slices. *)
Fixpoint dispatch (slices : list CSlice) (l : list Call) (m : Manager) : option (Manager * list Arrival) :=
  match l with
  | [] => Some (m, [])
  | Pins k x t :: l =>
      s ← slices !! k; '(m, a) ← deliver (cs_interface s) x t m; '(m, a') ← dispatch slices l m; Some (m, a ++ a')
  | _ :: l => dispatch slices l m
  end.

(** What a port drives goes to its loopback. *)
Definition output (p : nat) (x : Signal) (t : Z) (m : Manager) : option (Manager * list Arrival) :=
  match loopback m !! p with
  | None => Some (m, [])
  | Some (ICombiner q) =>
      c ← combiners m !! q; '(c, l) ← combiner_seePinsChange x t c;
      dispatch (cb_slices c) l (mkManager (loopback m) (splitters m) (<[q := c]> (combiners m)))
  | Some i => deliver i x t m
  end.

(** ** Wires between two ports *)

(** Bits [from .. from + len) of one port go to bits [to .. to + len) of another. *)
Record Wire := mkWire { w_from : Z; w_to : Z; w_len : Z }.

Lemma sliceMask_testbit b n i : 0 <= b -> 0 < n -> b + n <= 32 -> 0 <= i -> Z.testbit (sliceMask b (b + n)) i = (b <=? i) && (i <? b + n).
Proof.
  intros Hb Hn Hw Hi. unfold sliceMask. replace (b + n - b) with n by lia.
  rewrite (wrap_small 32 n) by (unfold fits; lia). rewrite wrap_testbit by lia. rewrite Z.shiftl_spec by lia. rewrite makeMask_ones by lia.
  rewrite Z.min_l by lia. destruct (Z.leb_spec b i).
  - rewrite Z.testbit_ones_nonneg by lia. destruct (Z.ltb_spec i 32), (Z.ltb_spec (i - b) n), (Z.ltb_spec i (b + n)); done || lia.
  - rewrite Z.testbit_neg_r by lia. cbn. by rewrite andb_false_r.
Qed.

(** The value of a slice. *)
Definition field (v b n : Z) : Z := (v .& sliceMask b (b + n)) .>> b.

Lemma field_testbit v b n i : 0 <= b -> 0 < n -> b + n <= 32 -> 0 <= i -> Z.testbit (field v b n) i = (i <? n) && Z.testbit v (b + i).
Proof.
  intros Hb Hn Hw Hi. unfold field. rewrite Z.shiftr_spec, Z.land_spec, sliceMask_testbit, andb_comm by lia. replace (i + b) with (b + i) by lia.
  f_equal. destruct (Z.leb_spec b (b + i)), (Z.ltb_spec i n), (Z.ltb_spec (b + i) (b + n)); done || lia.
Qed.

Lemma field_entire v n : 0 < n <= 32 -> fits n v -> field v 0 n = v.
Proof.
  intros Hn Hv. apply Z.bits_inj'. intros i Hi. rewrite field_testbit by lia. rewrite Z.add_0_l. destruct (Z.ltb_spec i n); [done |]. by rewrite (fits_testbit_high n v i) by (done || lia).
Qed.

Lemma field_0 b n : field 0 b n = 0.
Proof. unfold field. rewrite Z.land_0_l. apply Z.shiftr_0_l. Qed.

(** What a splitter puts together. *)
Definition put (u b n f : Z) : Z := u .^ (((f .<< b) .^ u) .& sliceMask b (b + n)).

Lemma put_testbit u b n f i : 0 <= b -> 0 < n -> b + n <= 32 -> 0 <= i ->
  Z.testbit (put u b n f) i = if (b <=? i) && (i <? b + n) then Z.testbit f (i - b) else Z.testbit u i.
Proof.
  intros Hb Hn Hw Hi. unfold put. rewrite !Z.lxor_spec, Z.land_spec, Z.lxor_spec, sliceMask_testbit, wrap_testbit, Z.shiftl_spec by lia.
  destruct (Z.leb_spec b i), (Z.ltb_spec i (b + n)), (Z.ltb_spec i 32), (Z.testbit u i), (Z.testbit f (i - b)); done || lia.
Qed.

(** The level on the pins of a port. *)
Definition pins (p : nat) (u : Z) (l : list Arrival) : Z := foldl (fun u a => if decide (a.1.1 = IPort p) then value a.1.2 else u) u l.

Section wires.
Context (getPortWidth : nat -> Z) (A B : nat).
Abbreviation wA := (getPortWidth A). Abbreviation wB := (getPortWidth B).
Context (HwA : 0 < wA <= 32) (HwB : 0 < wB <= 32).

Definition wkey (w : Wire) : Z * Z := (w_to w, w_to w + w_len w).
Definition iface (w : Wire) : Iface := ISlice B (w_to w) (w_to w + w_len w).
Definition cslice (w : Wire) : CSlice := mkCSlice (sliceMask (w_from w) (w_from w + w_len w)) (w_from w) (iface w).

(** A wire is on the pins of both ports, and not on all the pins of the second one. *)
Record wire_fits (w : Wire) : Prop := {
  wf_from : 0 <= w_from w; wf_len : 0 < w_len w < wB; wf_in : w_from w + w_len w <= wA; wf_to : 0 <= w_to w; wf_out : w_to w + w_len w <= wB
}.
Definition disjoint_wires (w w' : Wire) : Prop := w_to w + w_len w <= w_to w' \/ w_to w' + w_len w' <= w_to w.

(** The manager connects the ports. *)
Definition connect (m : Manager) (w : Wire) : Manager :=
  let '(m, i) := getInterface getPortWidth B (w_to w) (w_to w + w_len w) m in attach getPortWidth i A (w_from w) (w_from w + w_len w) m.

(** How the first port is connected. *)
Inductive hooked (ws : list Wire) (v : Z) (m : Manager) : Prop :=
  | hooked_none : ws = [] -> loopback m !! A = None -> combiners m !! A = None -> hooked ws v m
  | hooked_one w : ws = [w] -> w_from w = 0 -> w_len w = wA -> loopback m !! A = Some (iface w) -> combiners m !! A = None -> hooked ws v m
  | hooked_many : ws <> [] -> loopback m !! A = Some (ICombiner A) ->
      combiners m !! A = Some (mkCombiner v (cslice <$> ws) (mkHandleClock v (constant v))) -> hooked ws v m.

Lemma hooked_attach ws m w : hooked ws 0 m -> hooked (ws ++ [w]) 0 (attach getPortWidth (iface w) A (w_from w) (w_from w + w_len w) m).
Proof.
  intros Hh. unfold attach, isEntirePort. destruct Hh as [-> Hl Hc | w0 -> Hf Hn Hl Hc | Hne Hl Hc]; rewrite Hl, ?Hc.
  - rewrite bool_decide_eq_true_2 by done. cbn [andb app]. destruct (Z.eqb_spec (w_from w) 0) as [E|]; cbn [andb].
    + rewrite E, Z.add_0_l. destruct (Z.eqb_spec (w_len w) wA); [apply (hooked_one _ _ _ w); cbn; try done; by rewrite lookup_insert_eq |].
      apply hooked_many; cbn; [done | by rewrite lookup_insert_eq |]. rewrite lookup_insert_eq. unfold combiner_attach, cslice. cbn. by rewrite E, Z.add_0_l.
    + apply hooked_many; cbn; [done | by rewrite lookup_insert_eq |]. by rewrite lookup_insert_eq.
  - rewrite bool_decide_eq_false_2 by done. cbn [andb]. apply hooked_many; cbn; [done | by rewrite lookup_insert_eq |]. rewrite lookup_insert_eq.
    unfold combiner_attach, cslice. cbn. by rewrite Hf, Hn, Z.add_0_l.
  - rewrite bool_decide_eq_false_2 by done. cbn [andb]. apply hooked_many; cbn; [by destruct ws | done |]. rewrite lookup_insert_eq.
    unfold combiner_attach. cbn. by rewrite fmap_app.
Qed.

(** The second port shows [v] on a wire. *)
Record wire_ok (s : PortSplitter) (v : Z) (w : Wire) : Prop := {
  wo_slice : sp_slices s !! wkey w =
    Some (mkSlice (w_to w) (sliceMask (w_to w) (w_to w + w_len w)) (mkHandleClock (field v (w_from w) (w_len w)) (constant (field v (w_from w) (w_len w)))));
  wo_bits : forall i, 0 <= i < w_len w -> Z.testbit (sp_value s) (w_to w + i) = Z.testbit v (w_from w + i)
}.

Definition uncovered (ws : list Wire) (i : Z) : Prop := Forall (fun w => i < w_to w \/ w_to w + w_len w <= i) ws.

(** One slice of the second port changes. *)
Lemma slice_put s v v' t w : wire_fits w -> wire_ok s v w -> exists s' l,
  slice_seePinsChange (wkey w) (constant (field v' (w_from w) (w_len w))) t s = Some (s', l) /\ wire_ok s' v' w /\
  (forall x w', disjoint_wires w w' -> wire_fits w' -> wire_ok s x w' -> wire_ok s' x w') /\
  (forall i, 0 <= i -> i < w_to w \/ w_to w + w_len w <= i -> Z.testbit (sp_value s') i = Z.testbit (sp_value s) i) /\
  pins B (sp_value s) (arrivals B l) = sp_value s'.
Proof.
  intros [F1 F2 F3 F4 F5] [Hs Hb]. set (f := field v' (w_from w) (w_len w)). set (g := field v (w_from w) (w_len w)) in *.
  set (s1 := set_sliceClock (wkey w) (mkHandleClock f (constant f)) s).
  assert (sliceClock (wkey w) s = mkHandleClock g (constant g)) as Hc by (unfold sliceClock; by rewrite Hs).
  assert (forall i, 0 <= i -> Z.testbit (put (sp_value s) (w_to w) (w_len w) f) i =
    if (w_to w <=? i) && (i <? w_to w + w_len w) then Z.testbit v' (w_from w + (i - w_to w)) else Z.testbit (sp_value s) i) as Hp.
  { intros i Hi. rewrite put_testbit by lia. destruct (Z.leb_spec (w_to w) i), (Z.ltb_spec i (w_to w + w_len w)); cbn [andb]; try done.
    unfold f. rewrite field_testbit by lia. by rewrite (proj2 (Z.ltb_lt _ _)) by lia. }
  exists (mkSplitter (put (sp_value s) (w_to w) (w_len w) f) (sp_slices s1)),
    (if put (sp_value s) (w_to w) (w_len w) f =? sp_value s then [] else [Pins 0 (constant (put (sp_value s) (w_to w) (w_len w) f)) t]).
  split_and!.
  - unfold slice_seePinsChange. rewrite Hs. cbn [mbind option_bind sl_shift sl_mask]. rewrite clock_see_level by (by rewrite Hc). rewrite Hc. cbn [currentValue].
    destruct (Z.eqb_spec f g) as [E|].
    + assert (put (sp_value s) (w_to w) (w_len w) f = sp_value s) as ->; [| by rewrite Z.eqb_refl].
      apply Z.bits_inj'. intros i Hi. rewrite put_testbit by lia. destruct (Z.leb_spec (w_to w) i), (Z.ltb_spec i (w_to w + w_len w)); cbn [andb]; try done.
      rewrite E. unfold g. rewrite field_testbit, (proj2 (Z.ltb_lt _ _)) by lia. cbn [andb]. rewrite <- Hb by lia. f_equal. lia.
    + unfold splitter_seePinsValueChange. cbn [sp_value set_sliceClock]. fold (put (sp_value s) (w_to w) (w_len w) f).
      destruct (Z.eqb_spec (put (sp_value s) (w_to w) (w_len w) f) (sp_value s)) as [E|]; cbn; [by rewrite E | done].
  - split; cbn; [by rewrite lookup_alter_eq, Hs |]. intros i Hi. rewrite Hp by lia.
    destruct (Z.leb_spec (w_to w) (w_to w + i)), (Z.ltb_spec (w_to w + i) (w_to w + w_len w)); try lia. cbn. f_equal. lia.
  - intros x w' Hd [G1 G2 G3 G4 G5] [Hs' Hb']. split; cbn.
    + rewrite lookup_alter_ne; [done |]. unfold wkey. intros [=]. destruct Hd; lia.
    + intros i Hi. rewrite Hp by lia. rewrite <- Hb' by done. destruct (Z.leb_spec (w_to w) (w_to w' + i)), (Z.ltb_spec (w_to w' + i) (w_to w + w_len w)); cbn; try done.
      destruct Hd; lia.
  - intros i Hi Ho. cbn. rewrite Hp by done. destruct (Z.leb_spec (w_to w) i), (Z.ltb_spec i (w_to w + w_len w)); cbn; try done. lia.
  - cbn. destruct (Z.eqb_spec (put (sp_value s) (w_to w) (w_len w) f) (sp_value s)) as [E|]; cbn; [done |]. by rewrite decide_True.
Qed.

Lemma wire_ok_same s v v' w : wire_fits w -> wire_ok s v w -> field v' (w_from w) (w_len w) = field v (w_from w) (w_len w) -> wire_ok s v' w.
Proof.
  intros [F1 F2 F3 F4 F5] [Hs Hb] E. split; [by rewrite E |]. intros i Hi. rewrite Hb by done.
  assert (Z.testbit (field v' (w_from w) (w_len w)) i = Z.testbit (field v (w_from w) (w_len w)) i) as Ei by (by rewrite E).
  rewrite !field_testbit, (proj2 (Z.ltb_lt i _)) in Ei by lia. by symmetry.
Qed.

(** What changes on the second port when the slices of some wires do. *)
Record moved (ws : list Wire) (v' : Z) (s s' : PortSplitter) (l : list Arrival) : Prop := {
  mv_wires : Forall (wire_ok s' v') ws;
  mv_others : forall x w', Forall (fun w => disjoint_wires w w') ws -> wire_fits w' -> wire_ok s x w' -> wire_ok s' x w';
  mv_bits : forall i, 0 <= i -> uncovered ws i -> Z.testbit (sp_value s') i = Z.testbit (sp_value s) i;
  mv_pins : pins B (sp_value s) l = sp_value s'
}.

Lemma deliver_wire s v v' t w m : wire_fits w -> splitters m !! B = Some s -> wire_ok s v w -> exists s' l,
  deliver (iface w) (constant (field v' (w_from w) (w_len w))) t m = Some (mkManager (loopback m) (<[B := s']> (splitters m)) (combiners m), l) /\
  moved [w] v' s s' l.
Proof.
  intros F Hm Hw. destruct (slice_put s v v' t w F Hw) as (s' & l & E & H1 & H2 & H3 & H4). exists s', (arrivals B l). split.
  - unfold deliver, iface. rewrite Hm. cbn [mbind option_bind]. unfold wkey in E. by rewrite E.
  - split; [by constructor | | | done].
    + intros x w' Hd F' Hw'. rewrite Forall_singleton in Hd. by apply H2.
    + intros i Hi Hu. unfold uncovered in Hu. rewrite Forall_singleton in Hu. by apply H3.
Qed.

Lemma moved_same s v v' w : wire_fits w -> wire_ok s v w -> field v' (w_from w) (w_len w) = field v (w_from w) (w_len w) -> moved [w] v' s s [].
Proof. intros F Hw E. split; try done. constructor; [by eapply wire_ok_same | constructor]. Qed.

Lemma moved_cons w ws v' s s1 s2 l1 l2 : wire_fits w -> Forall (disjoint_wires w) ws ->
  moved [w] v' s s1 l1 -> moved ws v' s1 s2 l2 -> moved (w :: ws) v' s s2 (l1 ++ l2).
Proof.
  intros F Hd [P1 P2 P3 P4] [Q1 Q2 Q3 Q4]. rewrite Forall_singleton in P1. split.
  - constructor; [| done]. apply Q2; [| done | done]. eapply Forall_impl; [exact Hd |]. unfold disjoint_wires. cbn. lia.
  - intros x w' Hx F' Hw'. apply Forall_cons_1 in Hx as [Hx1 Hx2]. apply Q2; [done | done |]. apply P2; [by constructor | done | done].
  - intros i Hi Hu. apply Forall_cons_1 in Hu as [Hu1 Hu2]. rewrite Q3 by done. apply P3; [done |]. by constructor.
  - unfold pins in *. rewrite foldl_app, P4. done.
Qed.

Lemma dispatch_app slices l1 l2 m m1 a1 : dispatch slices l1 m = Some (m1, a1) ->
  dispatch slices (l1 ++ l2) m = '(m2, a2) ← dispatch slices l2 m1; Some (m2, a1 ++ a2).
Proof.
  revert m m1 a1. induction l1 as [|c l1 IH]; intros m m1 a1 E; cbn [dispatch app] in *.
  - injection E as <- <-. by destruct (dispatch slices l2 m) as [[? ?]|].
  - destruct c; try (by apply IH). destruct (slices !! pin) as [sl|]; [| done]. cbn [mbind option_bind] in *.
    destruct (deliver (cs_interface sl) s time m) as [[m' a]|]; [| done]. cbn [mbind option_bind] in *.
    destruct (dispatch slices l1 m') as [[m2 a2]|] eqn:E2; [| done]. cbn in E. injection E as <- <-. rewrite (IH _ _ _ E2).
    destruct (dispatch slices l2 m2) as [[? ?]|]; [| done]. cbn. by rewrite app_assoc.
Qed.

(** The calls of the combiner from slice [k] on. *)
Definition shows (v v' t : Z) (k : nat) (ws : list Wire) : list Call := concat (imap (fun j => showSlice v v' t (k + j)) (cslice <$> ws)).

Lemma shows_cons v v' t k w ws : shows v v' t k (w :: ws) = showSlice v v' t k (cslice w) ++ shows v v' t (S k) ws.
Proof.
  unfold shows. cbn [fmap list_fmap imap concat]. rewrite Nat.add_0_r. f_equal. f_equal. apply imap_ext. intros j x _. cbn. f_equal. lia.
Qed.

Lemma dispatch_wires all v v' t ws : forall k m s, (forall j w, ws !! j = Some w -> all !! (k + j)%nat = Some w) -> Forall wire_fits ws ->
  ForallOrdPairs disjoint_wires ws -> splitters m !! B = Some s -> Forall (wire_ok s v) ws -> exists m' s' l,
    dispatch (cslice <$> all) (shows v v' t k ws) m = Some (m', l) /\ loopback m' = loopback m /\ combiners m' = combiners m /\
    splitters m' !! B = Some s' /\ moved ws v' s s' l.
Proof.
  induction ws as [|w ws IH]; intros k m s Hall Hf Hd Hs Hw; [by exists m, s, [] |].
  apply Forall_cons_1 in Hf as [F Hf], Hw as [W Hw]. inversion Hd as [| ? ? D1 D2]; subst. rewrite shows_cons. unfold showSlice. cbn [cs_mask cs_shift cslice].
  fold (field v (w_from w) (w_len w)) (field v' (w_from w) (w_len w)).
  destruct (Z.eqb_spec (field v' (w_from w) (w_len w)) (field v (w_from w) (w_len w))) as [E|]; cbn [negb app].
  - destruct (IH (S k) m s) as (m' & s' & l & E1 & E2 & E3 & E4 & E5); try done.
    { intros j x Hx. rewrite <- (Hall (S j) x Hx). f_equal. lia. }
    exists m', s', l. split_and!; try done. apply (moved_cons w ws v' s s s' [] l); try done. by apply (moved_same s v).
  - destruct (deliver_wire s v v' t w m F Hs W) as (s1 & l1 & E1 & M1). cbn [dispatch].
    rewrite list_lookup_fmap, <- (Nat.add_0_r k), (Hall 0%nat w eq_refl). cbn [fmap option_fmap option_map mbind option_bind cs_interface cslice]. rewrite E1.
    cbn [mbind option_bind]. rewrite Nat.add_0_r. pose proof M1 as [P1 P2 P3 P4].
    destruct (IH (S k) (mkManager (loopback m) (<[B := s1]> (splitters m)) (combiners m)) s1) as (m' & s' & l & E2 & E3 & E4 & E5 & M2); try done.
    { intros j x Hx. rewrite <- (Hall (S j) x Hx). f_equal. lia. }
    { cbn. by rewrite lookup_insert_eq. }
    { rewrite Forall_forall in *. intros x Hx. apply P2; [constructor; [by apply D1 | constructor] | by apply Hf | by apply Hw]. }
    rewrite E2. cbn. exists m', s', (l1 ++ l). split_and!; try done. by apply (moved_cons w ws v' s s1 s').
Qed.

(** The ports are connected; the first one drives [v], the second one shows [u]. *)
Definition joined (ws : list Wire) (v u : Z) (m : Manager) : Prop :=
  hooked ws v m /\ exists s, (ws = [] \/ splitters m !! B = Some s) /\ sp_value s = u /\ Forall (wire_ok s v) ws /\
    forall i, 0 <= i -> uncovered ws i -> Z.testbit u i = false.

Lemma moved_joined ws v' u m' s s' l : hooked ws v' m' -> splitters m' !! B = Some s' -> sp_value s = u ->
  (forall i, 0 <= i -> uncovered ws i -> Z.testbit u i = false) -> moved ws v' s s' l -> joined ws v' (pins B u l) m'.
Proof.
  intros Hh Hs Hu Hun [M1 M2 M3 M4]. split; [done |]. exists s'. rewrite <- Hu, M4. split; [by right |]. split; [done |]. split; [done |].
  intros i Hi Hi2. rewrite M3 by done. rewrite Hu. by apply Hun.
Qed.

Lemma output_joined ws v v' u t m : Forall wire_fits ws -> ForallOrdPairs disjoint_wires ws -> fits wA v' -> joined ws v u m ->
  exists m' l, output A (constant v') t m = Some (m', l) /\ joined ws v' (pins B u l) m'.
Proof.
  intros Hf Hd Hv [Hh (s & Hs & Hu & Hw & Hun)]. unfold output. destruct Hh as [-> Hl Hc | w -> H0 Hn Hl Hc | Hne Hl Hc]; rewrite Hl.
  - exists m, []. split; [done |]. split; [by apply hooked_none |]. exists s. split; [by left |]. done.
  - destruct Hs as [| Hs]; [done |]. assert (wire_fits w) as F by (by inversion Hf). assert (wire_ok s v w) as W by (by inversion Hw).
    destruct (deliver_wire s v v' t w m F Hs W) as (s' & l & E & M). rewrite H0, Hn, field_entire in E by done.
    cbn [iface] in *. rewrite E. eexists _, l. split; [done |]. apply (moved_joined _ v' u _ s s' l); try done; [| cbn; by rewrite lookup_insert_eq].
    by apply (hooked_one _ _ _ w).
  - destruct Hs as [| Hs]; [done |]. rewrite Hc. cbn [mbind option_bind]. unfold combiner_seePinsChange. rewrite clock_see_level by done.
    cbn [cb_clock currentValue]. destruct (Z.eqb_spec v' v) as [-> |]; cbn [mbind option_bind].
    + eexists _, []. split; [reflexivity |]. split; [| by exists s; split; [right |]]. apply hooked_many; cbn; [done | done |]. by rewrite lookup_insert_eq.
    + cbn. rewrite app_nil_r. change (concat _) with (shows v v' t 0 ws).
      destruct (dispatch_wires ws v v' t ws 0 (mkManager (loopback m) (splitters m) (<[A := mkCombiner v' (cslice <$> ws) (mkHandleClock v' (constant v'))]> (combiners m))) s)
        as (m' & s' & l & E & E1 & E2 & E3 & M); try done.
      unfold set_cb_clock. cbn [cb_value cb_slices]. rewrite E. exists m', l. split; [done |]. apply (moved_joined _ v' u _ s s' l); try done.
      apply hooked_many; [done | by rewrite E1 |]. rewrite E2. cbn. by rewrite lookup_insert_eq.
Qed.

Lemma attach_splitters i p b e m : splitters (attach getPortWidth i p b e m) = splitters m.
Proof. unfold attach. by destruct (_ && _); [| destruct (combiners m !! p)]. Qed.

(** The ports while the connections are being made; the splitter has the slices of the wires and no others. *)
Definition built (ws : list Wire) (m : Manager) : Prop :=
  hooked ws 0 m /\ exists s, (ws = [] /\ splitters m !! B = None /\ s = newSplitter \/ splitters m !! B = Some s) /\ sp_value s = 0 /\
    Forall (wire_ok s 0) ws /\ forall k, is_Some (sp_slices s !! k) -> k ∈ wkey <$> ws.

Lemma connect_built ws w m : Forall wire_fits (ws ++ [w]) -> Forall (fun w' => disjoint_wires w' w) ws -> built ws m -> built (ws ++ [w]) (connect m w).
Proof.
  intros Hf Hd [Hh (s & Hs & Hv & Hw & Hk)]. apply Forall_app in Hf as [Hf F]. apply Forall_singleton in F as [F1 F2 F3 F4 F5].
  unfold connect, getInterface. assert (isEntirePort getPortWidth B (w_to w) (w_to w + w_len w) = false) as ->.
  { unfold isEntirePort. destruct (Z.eqb_spec (w_to w) 0), (Z.eqb_spec (w_to w + w_len w) wB); cbn; try done; lia. }
  assert (default newSplitter (splitters m !! B) = s) as -> by (by destruct Hs as [(_ & -> & ->) | ->]).
  assert (sp_slices s !! wkey w = None) as Hn.
  { apply eq_None_not_Some. intros Hi%Hk. apply list_elem_of_fmap in Hi as (w' & E & Hi). rewrite Forall_forall in Hf, Hd.
    destruct (Hf _ Hi) as [G1 G2 G3 G4 G5]. unfold wkey in E. injection E as E1 E2. destruct (Hd _ Hi); lia. }
  unfold splitter_getInterface. change (w_to w, w_to w + w_len w) with (wkey w). rewrite Hn.
  split; [apply hooked_attach; by destruct Hh; [apply hooked_none | eapply hooked_one | apply hooked_many] |].
  eexists. split_and!; [right; rewrite attach_splitters; cbn; by rewrite lookup_insert_eq | done | | ].
  - apply Forall_app. split.
    + rewrite Forall_forall in *. intros w' Hi. destruct (Hw _ Hi) as [Hs' Hb'], (Hf _ Hi) as [G1 G2 G3 G4 G5]. split; [| done]. cbn.
      rewrite lookup_insert_ne; [done |]. unfold wkey. intros [= E1 E2]. destruct (Hd _ Hi); lia.
    + constructor; [| constructor]. split; cbn; [by rewrite lookup_insert_eq, field_0 |]. intros i Hi. by rewrite Hv, !Z.testbit_0_l.
  - intros k Hi. rewrite fmap_app. apply elem_of_app. cbn in Hi. destruct (decide (k = wkey w)) as [-> |]; [right; by apply list_elem_of_singleton |].
    left. apply Hk. by rewrite lookup_insert_ne in Hi by done.
Qed.

Lemma connect_all ws : Forall wire_fits ws -> ForallOrdPairs disjoint_wires ws -> built ws (foldl connect (mkManager ∅ ∅ ∅) ws).
Proof.
  induction ws as [|w ws IH] using rev_ind; intros Hf Hd.
  - split; [by apply hooked_none |]. exists newSplitter. split; [by left |]. split; [done |]. split; [done |]. intros k [x Hk]. cbn in Hk. by rewrite lookup_empty in Hk.
  - rewrite foldl_app. apply ForallOrdPairs_snoc in Hd as [Hd1 Hd2]. apply connect_built; [done | done |]. apply IH; [by apply Forall_app in Hf as [? _] | done].
Qed.

(** The first port drives these levels, one after the other. *)
Fixpoint outputs (l : list (Z * Z)) (m : Manager) : option (Manager * list Arrival) :=
  match l with
  | [] => Some (m, [])
  | (v, t) :: l => '(m, a) ← output A (constant v) t m; '(m, a') ← outputs l m; Some (m, a ++ a')
  end.

Lemma outputs_joined ws l : Forall wire_fits ws -> ForallOrdPairs disjoint_wires ws -> Forall (fun x => fits wA x.1) l -> forall v u m, joined ws v u m ->
  exists m' a, outputs l m = Some (m', a) /\ joined ws (default v (fst <$> last l)) (pins B u a) m'.
Proof.
  intros Hf Hd. induction l as [|[v' t] l IH]; intros Hl v u m Hj; [by exists m, [] |]. apply Forall_cons_1 in Hl as [Hv Hl]. cbn [outputs].
  destruct (output_joined ws v v' u t m Hf Hd Hv Hj) as (m1 & a1 & -> & Hj1). cbn [mbind option_bind].
  destruct (IH Hl v' _ m1 Hj1) as (m2 & a2 & -> & Hj2). cbn [mbind option_bind]. exists m2, (a1 ++ a2). split; [done |].
  unfold pins. rewrite foldl_app. rewrite last_cons. by destruct (last l).
Qed.
End wires.

(** C27: Slices of ports that are connected carry the levels.  Let any number of slices of the pins of one port be connected to slices of the same size
    of another one, no two of them to the same pin, by getInterface and attach of the manager, in whatever order, with or without a combiner.
    Then after any sequence of levels that the first port drives, every pin of the second port that is connected has the level of the pin
    it is connected to, and every other pin is 0. *)
Theorem slices_connected (getPortWidth : nat -> Z) (A B : nat) (ws : list Wire) (l : list (Z * Z)) :
  0 < getPortWidth A <= 32 -> 0 < getPortWidth B <= 32 -> Forall (wire_fits getPortWidth A B) ws -> ForallOrdPairs disjoint_wires ws ->
  Forall (fun x => fits (getPortWidth A) x.1) l ->
  exists m a, outputs A l (foldl (connect getPortWidth A B) (mkManager ∅ ∅ ∅) ws) = Some (m, a) /\
    (forall w i, w ∈ ws -> 0 <= i < w_len w -> Z.testbit (pins B 0 a) (w_to w + i) = Z.testbit (default 0 (fst <$> last l)) (w_from w + i)) /\
    (forall i, 0 <= i -> uncovered ws i -> Z.testbit (pins B 0 a) i = false).
Proof.
  intros HA HB Hf Hd Hl. destruct (connect_all getPortWidth A B ws Hf Hd) as [Hh (s & Hs & Hv & Hw & _)].
  destruct (outputs_joined getPortWidth A B HA HB ws l Hf Hd Hl 0 0 (foldl (connect getPortWidth A B) (mkManager ∅ ∅ ∅) ws)) as (m & a & E & _ & (s' & _ & Hu & Hw' & Hun)).
  - split; [exact Hh |]. exists s. split; [destruct Hs as [(? & _) | ?]; [by left | by right] |]. split; [done |]. split; [done |]. intros. apply Z.testbit_0_l.
  - exists m, a. split; [done |]. split; [| done]. intros w i Hi Hw0. rewrite Forall_forall in Hw'. rewrite <- Hu. by apply (wo_bits _ _ _ (Hw' _ Hi)).
Qed.

Lemma slices_connected_witness : let width p := if Nat.eqb p 0 then 8 else 4 in let ws := [mkWire 6 0 2; mkWire 1 3 1] in
  exists m a, outputs 0 [(0xff, 10); (0x82, 20)] (foldl (connect width 0 1) (mkManager ∅ ∅ ∅) ws) = Some (m, a) /\
    Z.testbit (pins 1 0 a) 1 = true /\ Z.testbit (pins 1 0 a) 2 = false /\ Z.testbit (pins 1 0 a) 3 = true.
Proof.
  intros width ws. destruct (slices_connected width 0 1 ws [(0xff, 10); (0x82, 20)]) as (m & a & E & Hw & Hu); try (cbn; lia).
  - repeat constructor; cbn; lia.
  - repeat constructor. unfold disjoint_wires. cbn. lia.
  - repeat constructor; cbn; lia.
  - exists m, a. split; [exact E |]. split_and!.
    + apply (Hw (mkWire 6 0 2) 1); [constructor | cbn; lia].
    + apply Hu; [lia |]. unfold uncovered. repeat constructor; cbn; lia.
    + apply (Hw (mkWire 1 3 1) 0); [do 2 constructor | cbn; lia].
Defined.
