(* ===== verification/XE.v ===== *)
(** * Executable files (lib/XE.cpp)

    An XE file is a header and a sequence of sectors: a type, a length, and contents which for executables and for the
    sectors that start them name a core.  The reader goes through the sectors once and keeps what it needs to find
    the contents again. *)

From Stdlib Require Import ZArith Lia.
From stdpp Require Import base list numbers option.
From S2P Require Import Prelude Signed.

#[local] Open Scope Z_scope.
#[local] Open Scope cbits_scope.

(** ** Streams *)

(** An input stream on a file, with its flags. *)
Record Stream := mkStream { file : list Z; spos : Z; eofbit : bool; failbit : bool }.

(** [read]: the bytes that were read. *)
Definition sread (n : Z) (s : Stream) : Stream * list Z :=
  if eofbit s || failbit s then (mkStream (file s) (spos s) (eofbit s) true, [])
  else
    let got := take (Z.to_nat n) (drop (Z.to_nat (spos s)) (file s)) in
    let short := negb (zlength got =? n) in
    (mkStream (file s) (spos s + zlength got) short short, got).

(** [seekg] to a position. *)
Definition sseek (p : Z) (s : Stream) : Stream :=
  if failbit s then mkStream (file s) (spos s) false true
  else if 0 <=? p then mkStream (file s) p false false else mkStream (file s) (spos s) false true.
(** [seekg] from the current position. *)
Definition sskip (n : Z) (s : Stream) : Stream := sseek (spos s + n) s.
(** [tellg] *)
Definition stell (s : Stream) : Z := if failbit s then -1 else spos s.

(** ** Sectors *)

(** lib/XE.h:19-27 XESector::XBSectorType *)
Definition XE_SECTOR_BINARY : Z := 1.
Definition XE_SECTOR_ELF : Z := 2.
Definition XE_SECTOR_CONFIG : Z := 3.
Definition XE_SECTOR_GOTO : Z := 5.
Definition XE_SECTOR_CALL : Z := 6.
Definition XE_SECTOR_XN : Z := 8.
Definition XE_SECTOR_LAST : Z := 0x5555.

(** lib/XE.h:44-56 XEElfSector: and XECallOrGotoSector, what the sector says about its core *)
Record Target := mkTarget { node : Z; core : Z; address : Z }.

(** lib/XE.h:17-42 XESector: and the members of the derived classes *)
Record XESector := mkSector { offset : Z; type : Z; length_ : Z; target : option Target }.

(** lib/XE.h:55-55 XEElfSector::getElfSize *)
Definition getElfSize (x : XESector) : Z := u64 (length_ x - 12).

(** lib/XE.h:70-77 XE *)
Record XE := mkXE { version : Z; s : Stream; sectors : list XESector; error : bool }.

Definition set_s (v : Stream) (x : XE) : XE := mkXE (version x) v (sectors x) (error x).

(** lib/XE.cpp:74-81 XE::getSector *)
Definition getSector (t : Z) (x : XE) : option XESector := head (filter (fun c => type c = t) (sectors x)).

(** lib/XE.cpp:13-18 XESector::getData: the stream afterwards and the bytes, when they could be read *)
Definition getData (c : XESector) (st : Stream) : Stream * option (list Z) :=
  let '(st, l) := sread (length_ c) (sseek (offset c) st) in (st, if eofbit st || failbit st then None else Some l).
(** lib/XE.cpp:28-33 XEElfSector::getElfData *)
Definition getElfData (c : XESector) (st : Stream) : Stream * option (list Z) :=
  let '(st, l) := sread (getElfSize c) (sseek (u64 (offset c + 12)) st) in (st, if eofbit st || failbit st then None else Some l).

Section reader.
(** What an array on the stack holds before it is written. *)
Context (junk : nat -> Z).

Definition byteAt (l : list Z) (i : nat) : Z := default (junk i) (l !! i).

(** lib/XE.cpp:83-87 XE::ReadU8: the end of the file is the byte 255 *)
Definition ReadU8 (st : Stream) : Stream * Z :=
  let '(st, l) := sread 1 st in (st, match l with b :: _ => b | [] => 255 end).
(** lib/XE.cpp:89-94 XE::ReadU16 *)
Definition ReadU16 (st : Stream) : Stream * Z :=
  let '(st, l) := sread 2 st in (st, u16 (byteAt l 0 .| (byteAt l 1 .<< 8))).
(** lib/XE.cpp:96-101 XE::ReadU32 *)
Definition ReadU32 (st : Stream) : Stream * Z :=
  let '(st, l) := sread 4 st in (st, u32 (byteAt l 0 .| (byteAt l 1 .<< 8) .| (byteAt l 2 .<< 16) .| (byteAt l 3 .<< 24))).

(** Four bytes as an [int]. *)
Definition intOf (l : list Z) (i : nat) : Z :=
  s32 (byteAt l i .| (byteAt l (i + 1) .<< 8) .| (byteAt l (i + 2) .<< 16) .| (byteAt l (i + 3) .<< 24)).

(** lib/XE.cpp:103-109 XE::ReadU64: the two halves are [int]s that are converted to 64 bits *)
Definition ReadU64 (st : Stream) : Stream * Z :=
  let '(st, l) := sread 8 st in (st, u64 (intOf l 0) .| u64 (Z.shiftl (u64 (intOf l 4)) 32)).

(** lib/XE.cpp:20-26 XEElfSector::XEElfSector: and lines 35-43, XECallOrGotoSector *)
Definition readTarget (st : Stream) : Stream * Target :=
  let '(st, n) := ReadU16 st in let '(st, c) := ReadU16 st in let '(st, a) := ReadU64 st in (st, mkTarget n c a).

(** lib/XE.cpp:111-143 XE::ReadHeader *)
Definition ReadHeader (x : XE) : XE * bool :=
  let '(st, type) := ReadU16 (s x) in
  let st := sskip 2 st in
  let '(st, length) := ReadU64 st in
  let '(st, padding) := if 0 <? length then let '(st, p) := ReadU8 st in (sskip 3 st, p) else (st, 0) in
  if failbit st then (mkXE (version x) st (sectors x) true, true)
  else
    let off := u64 (stell st) in
    let add st t := (set_s (sseek (signed 64 (off + length - 4)) st)
      (mkXE (version x) st (sectors x ++ [mkSector off type (u64 (length - padding)) t]) (error x)), false) in
    if (type =? XE_SECTOR_ELF) || (type =? XE_SECTOR_CALL) || (type =? XE_SECTOR_GOTO) then
      let '(st, t) := readTarget st in add st (Some t)
    else if type =? XE_SECTOR_LAST then (set_s st x, true)
    else add st None.

(** lib/XE.cpp:64-64 XE::XE: the loop; [None] when it goes on after so many sectors *)
Fixpoint readHeaders (fuel : nat) (x : XE) : option XE :=
  match fuel with
  | O => None
  | S fuel => let '(x, last) := ReadHeader x in if last : bool then Some x else readHeaders fuel x
  end.

(** lib/XE.cpp:45-65 XE::XE: of a file that may be missing *)
Definition newXE (fuel : nat) (f : option (list Z)) : option XE :=
  match f with
  | None => Some (mkXE 0 (mkStream [] 0 false true) [] true)
  | Some f =>
      let st := mkStream f 0 false false in
      let '(st, magic) := sread 4 st in
      if bool_decide (byteAt magic <$> seq 0 4 <> [0x58; 0x4d; 0x4f; 0x53]) then Some (mkXE 0 st [] true)
      else
        let '(st, v) := ReadU16 st in
        readHeaders fuel (mkXE v (sskip 2 st) [] false)
  end.
End reader.

(** ** Reading a file that was written *)

(** The bytes of a number, the lowest first. *)
Definition le (n : nat) (v : Z) : list Z := (fun i => u8 (Z.shiftr v (8 * Z.of_nat i))) <$> seq 0 n.

(** A stream without errors at a position. *)
Definition at_ (f : list Z) (p : Z) : Stream := mkStream f p false false.

Definition remains (f : list Z) (p : Z) (l : list Z) : Prop := 0 <= p /\ drop (Z.to_nat p) f = l.

Lemma sread_at f p b rest : remains f p (b ++ rest) -> sread (zlength b) (at_ f p) = (at_ f (p + zlength b), b) /\ remains f (p + zlength b) rest.
Proof.
  intros [Hp E]. unfold sread, at_. cbn [eofbit failbit spos file orb]. rewrite E, Nat2Z.id, take_app_length, Z.eqb_refl. cbn [negb]. split; [done |].
  split; [lia |]. rewrite Z2Nat.inj_add, Nat2Z.id, <- drop_drop, E, drop_app_length by lia. done.
Qed.

Lemma remains_app f p b rest : remains f p (b ++ rest) -> remains f (p + zlength b) rest.
Proof. intros Hr. by destruct (sread_at f p b rest Hr). Qed.

Lemma remains_skip f p b rest n : remains f p (b ++ rest) -> n = zlength b -> sskip n (at_ f p) = at_ f (p + n) /\ remains f (p + n) rest.
Proof.
  intros Hr ->. destruct (sread_at f p b rest Hr) as [_ Hr']. split; [| done]. unfold sskip, sseek, at_. cbn [failbit spos file].
  destruct Hr'. by rewrite (proj2 (Z.leb_le 0 _)) by done.
Qed.

Section roundtrip.
Context (junk : nat -> Z).

Lemma low_byte_testbit v k i : 0 <= i -> 0 <= k -> Z.testbit (u8 (Z.shiftr v k)) i = (i <? 8) && Z.testbit v (i + k).
Proof. intros. by rewrite wrap_testbit, Z.shiftr_spec by lia. Qed.

(** Two and four bytes make up the number again. *)
Lemma bytes2 v : u8 (Z.shiftr v 0) .| (u8 (Z.shiftr v 8) .<< 8) = u16 v.
Proof.
  apply Z.bits_inj'. intros i Hi. rewrite Z.lor_spec, !wrap_testbit, Z.shiftl_spec, Z.shiftr_spec by lia.
  destruct (Z.leb_spec 8 i); [rewrite low_byte_testbit by lia; replace (i - 8 + 8) with i by lia | rewrite (Z.testbit_neg_r _ (i - 8)) by lia]; rewrite Z.add_0_r;
    destruct (Z.ltb_spec i 8), (Z.ltb_spec i 16), (Z.ltb_spec i 32), (Z.ltb_spec (i - 8) 8), (Z.testbit v i); done || lia.
Qed.

Lemma byte_shifted v k i : 0 <= i -> 0 <= k <= 24 -> Z.testbit (u8 (Z.shiftr v k) .<< k) i = (k <=? i) && (i <? k + 8) && Z.testbit v i.
Proof.
  intros Hi Hk. rewrite wrap_testbit, Z.shiftl_spec by lia. destruct (Z.leb_spec k i).
  - rewrite low_byte_testbit by lia. replace (i - k + k) with i by lia. destruct (Z.ltb_spec i 32), (Z.ltb_spec (i - k) 8), (Z.ltb_spec i (k + 8)); done || lia.
  - rewrite Z.testbit_neg_r by lia. by rewrite andb_false_r.
Qed.

Lemma bytes4 v : u8 (Z.shiftr v 0) .| (u8 (Z.shiftr v 8) .<< 8) .| (u8 (Z.shiftr v 16) .<< 16) .| (u8 (Z.shiftr v 24) .<< 24) = u32 v.
Proof.
  apply Z.bits_inj'. intros i Hi. rewrite !Z.lor_spec, !byte_shifted, low_byte_testbit, wrap_testbit, Z.add_0_r by lia.
  destruct (Z.ltb_spec i 8), (Z.ltb_spec i 16), (Z.ltb_spec i 24), (Z.ltb_spec i 32), (Z.leb_spec 8 i), (Z.leb_spec 16 i), (Z.leb_spec 24 i), (Z.testbit v i); done || lia.
Qed.

Lemma ReadU16_le f p v rest : remains f p (le 2 v ++ rest) -> is_u16 v -> ReadU16 junk (at_ f p) = (at_ f (p + 2), v) /\ remains f (p + 2) rest.
Proof.
  intros Hr Hv. destruct (sread_at f p (le 2 v) rest Hr) as [E Hr']. split; [| done]. unfold ReadU16. change 2 with (zlength (le 2 v)) at 1. rewrite E.
  f_equal. unfold byteAt, le. cbn [fmap list_fmap seq lookup list_lookup default id]. change (8 * Z.of_nat 0) with 0. change (8 * Z.of_nat 1) with 8.
  rewrite bytes2, wrap_wrap by lia. by apply wrap_small.
Qed.

Lemma ReadU64_le f p v rest : remains f p (le 8 v ++ rest) -> is_u64 v -> Z.testbit v 31 = false -> ReadU64 junk (at_ f p) = (at_ f (p + 8), v) /\ remains f (p + 8) rest.
Proof.
  intros Hr Hv Hb. destruct (sread_at f p (le 8 v) rest Hr) as [E Hr']. split; [| done]. unfold ReadU64. change 8 with (zlength (le 8 v)) at 1. rewrite E. f_equal.
  assert (intOf junk (le 8 v) 0 = u32 v) as ->.
  { unfold intOf, byteAt, le. cbn [fmap list_fmap seq lookup list_lookup default id Nat.add].
    change (8 * Z.of_nat 0) with 0. change (8 * Z.of_nat 1) with 8. change (8 * Z.of_nat 2) with 16. change (8 * Z.of_nat 3) with 24. rewrite bytes4.
    unfold signed. rewrite wrap_testbit by lia. change (32 - 1) with 31. rewrite Hb, andb_false_r. apply wrap_small, wrap_fits. lia. }
  assert (intOf junk (le 8 v) 4 = s32 (Z.shiftr v 32)) as ->.
  { unfold intOf, byteAt, le. cbn [fmap list_fmap seq lookup list_lookup default id Nat.add].
    change (8 * Z.of_nat 4) with (32 + 0). change (8 * Z.of_nat 5) with (32 + 8). change (8 * Z.of_nat 6) with (32 + 16). change (8 * Z.of_nat 7) with (32 + 24).
    rewrite <- !Z.shiftr_shiftr by lia. rewrite bytes4. by apply signed_wrap. }
  apply Z.bits_inj'. intros i Hi. rewrite Z.lor_spec, !wrap_testbit, Z.shiftl_spec by lia. destruct (Z.ltb_spec i 64).
  - cbn [andb]. destruct (Z.ltb_spec i 32); cbn [andb].
    + by rewrite (Z.testbit_neg_r _ (i - 32)), orb_false_r by lia.
    + rewrite wrap_testbit by lia. rewrite (proj2 (Z.ltb_lt _ _)) by lia. assert (Z.testbit (u32 (s32 (Z.shiftr v 32))) (i - 32) = Z.testbit (u32 (Z.shiftr v 32)) (i - 32)) as Es by (unfold wrap; by rewrite signed_mod by lia).
      rewrite !wrap_testbit, !(proj2 (Z.ltb_lt (i - 32) 32)) in Es by lia. cbn [andb orb] in *. rewrite Es, Z.shiftr_spec by lia. f_equal. lia.
  - cbn [andb]. by rewrite (fits_testbit_high 64) by (done || lia).
Qed.
End roundtrip.

(** A sector as it is written: its type, its core, the rest of the contents and the padding. *)
Record Sect := mkSect { st_type : Z; st_target : option Target; st_body : list Z; st_pad : list Z }.

Definition hasTarget (t : Z) : bool := (t =? XE_SECTOR_ELF) || (t =? XE_SECTOR_CALL) || (t =? XE_SECTOR_GOTO).
Definition targetBytes (t : Target) : list Z := le 2 (node t) ++ le 2 (core t) ++ le 8 (address t).
Definition contents (c : Sect) : list Z := from_option targetBytes [] (st_target c) ++ st_body c.
(** The length counts the four bytes with the size of the padding. *)
Definition fullLength (c : Sect) : Z := 4 + zlength (contents c) + zlength (st_pad c).
Definition encode (c : Sect) : list Z :=
  le 2 (st_type c) ++ [0; 0] ++ le 8 (fullLength c) ++ [zlength (st_pad c)] ++ [0; 0; 0] ++ contents c ++ st_pad c.
Definition trailer : list Z := le 2 XE_SECTOR_LAST ++ [0; 0] ++ le 8 0.
Definition encodeFile (v : Z) (cs : list Sect) : list Z := [0x58; 0x4d; 0x4f; 0x53] ++ le 2 v ++ [0; 0] ++ concat (encode <$> cs) ++ trailer.

(** A number that is read correctly. *)
Definition readable (v : Z) : Prop := is_u64 v /\ Z.testbit v 31 = false.

Record sect_ok (c : Sect) : Prop := {
  so_type : is_u16 (st_type c) /\ st_type c <> XE_SECTOR_LAST;
  so_target : match st_target c with
              | Some t => hasTarget (st_type c) = true /\ is_u16 (node t) /\ is_u16 (core t) /\ readable (address t)
              | None => hasTarget (st_type c) = false
              end;
  so_pad : zlength (st_pad c) < 2 ^ 8;
  so_length : readable (fullLength c)
}.

(** What is kept of a sector at a position. *)
Definition sectorAt (p : Z) (c : Sect) : XESector := mkSector (p + 16) (st_type c) (4 + zlength (contents c)) (st_target c).
Fixpoint sectorsAt (p : Z) (cs : list Sect) : list XESector :=
  match cs with [] => [] | c :: cs => sectorAt p c :: sectorsAt (p + zlength (encode c)) cs end.

Lemma fullLength_pos c : 4 <= fullLength c.
Proof. unfold fullLength. lia. Qed.
Lemma encode_length c : zlength (encode c) = 12 + fullLength c.
Proof. unfold encode, fullLength. rewrite !length_app. cbn [length le fmap list_fmap seq]. lia. Qed.

Section read_sectors.
Context (junk : nat -> Z).

Lemma readTarget_le f p t rest : remains f p (targetBytes t ++ rest) -> is_u16 (node t) -> is_u16 (core t) -> readable (address t) ->
  readTarget junk (at_ f p) = (at_ f (p + 12), t) /\ remains f (p + 12) rest.
Proof.
  unfold targetBytes. rewrite <- !app_assoc. intros Hr H1 H2 [H3 H4]. unfold readTarget.
  destruct (ReadU16_le junk f p (node t) _ Hr H1) as [-> Hr1]. destruct (ReadU16_le junk f _ (core t) _ Hr1 H2) as [-> Hr2].
  destruct (ReadU64_le junk f _ (address t) _ Hr2 H3 H4) as [-> Hr3]. rewrite <- !Z.add_assoc in *. by destruct t.
Qed.

Lemma ReadU8_at f p b rest : remains f p ([b] ++ rest) -> ReadU8 (at_ f p) = (at_ f (p + 1), b) /\ remains f (p + 1) rest.
Proof. intros Hr. destruct (sread_at f p [b] rest Hr) as [E Hr']. split; [| done]. unfold ReadU8. change 1 with (zlength [b]) at 1. by rewrite E. Qed.

Lemma ReadHeader_encode v f p c rest l : sect_ok c -> remains f p (encode c ++ rest) -> p + zlength (encode c) < 2 ^ 63 ->
  ReadHeader junk (mkXE v (at_ f p) l false) = (mkXE v (at_ f (p + zlength (encode c))) (l ++ [sectorAt p c]) false, false) /\
  remains f (p + zlength (encode c)) rest.
Proof.
  intros [[Ht Hlast] Htg Hp [Hl1 Hl2]] Hr Hmax. pose proof (remains_app _ _ _ _ Hr) as Hrest. rewrite encode_length in *. pose proof (fullLength_pos c).
  pose proof (proj1 Hr) as Hp0. unfold encode in Hr. rewrite <- !app_assoc in Hr. split; [| done]. unfold ReadHeader. cbn [s].
  destruct (ReadU16_le junk f p _ _ Hr Ht) as [-> Hr1]. destruct (remains_skip f _ [0; 0] _ 2 Hr1 eq_refl) as [-> Hr2].
  destruct (ReadU64_le junk f _ _ _ Hr2 Hl1 Hl2) as [-> Hr3]. rewrite (proj2 (Z.ltb_lt 0 (fullLength c))) by lia.
  destruct (ReadU8_at f _ _ _ Hr3) as [-> Hr4]. destruct (remains_skip f _ [0; 0; 0] _ 3 Hr4 eq_refl) as [-> Hr5].
  replace (p + 2 + 2 + 8 + 1 + 3) with (p + 16) in * by lia. cbn [failbit at_]. unfold stell. cbn [failbit at_ spos].
  rewrite (wrap_small 64 (p + 16)) by (unfold fits; lia). rewrite (wrap_small 64 (fullLength c - _)) by (unfold fits, fullLength in *; lia).
  rewrite signed_small by lia. cbn [version sectors error].
  assert (forall q, sseek (p + 16 + fullLength c - 4) (at_ f q) = at_ f (p + (12 + fullLength c))) as Hseek.
  { intros q. unfold sseek. cbn. rewrite (proj2 (Z.leb_le 0 _)) by lia. unfold at_. f_equal. lia. }
  replace (fullLength c - zlength (st_pad c)) with (4 + zlength (contents c)) by (unfold fullLength; lia).
  unfold sectorAt. fold (hasTarget (st_type c)). destruct (st_target c) as [t|] eqn:Et.
  - destruct Htg as (-> & H1 & H2 & H3). unfold contents in Hr5. rewrite Et in Hr5. cbn [from_option] in Hr5. rewrite <- app_assoc in Hr5.
    destruct (readTarget_le f _ t _ Hr5 H1 H2 H3) as [-> _]. unfold set_s. cbn [version sectors error]. by rewrite Hseek.
  - rewrite Htg, (proj2 (Z.eqb_neq _ _) Hlast). unfold set_s. cbn [version sectors error]. by rewrite Hseek.
Qed.

Lemma readHeaders_encode v f cs : forall p l fuel, Forall sect_ok cs -> remains f p (concat (encode <$> cs) ++ trailer) -> zlength f < 2 ^ 63 -> (length cs < fuel)%nat ->
  exists q, readHeaders junk fuel (mkXE v (at_ f p) l false) = Some (mkXE v (at_ f q) (l ++ sectorsAt p cs) false).
Proof.
  induction cs as [|c cs IH]; intros p l [|fuel] Hok Hr Hf Hn; cbn [length] in Hn; try lia; cbn [readHeaders].
  - cbn in Hr. unfold trailer in Hr. unfold ReadHeader. cbn [s]. destruct (ReadU16_le junk f p _ _ Hr) as [-> Hr1]; [done |].
    destruct (remains_skip f _ [0; 0] _ 2 Hr1 eq_refl) as [-> Hr2].
    destruct (ReadU64_le junk f _ 0 [] ltac:(by rewrite app_nil_r)) as [-> _]; [done | done |]. cbn. eexists. rewrite app_nil_r. reflexivity.
  - apply Forall_cons_1 in Hok as [Hc Hok]. cbn [fmap list_fmap concat] in Hr. rewrite <- app_assoc in Hr.
    destruct (ReadHeader_encode v f p c _ l Hc Hr) as [-> Hr1].
    { destruct Hr as [Hp Hr]. apply (f_equal length) in Hr. rewrite length_drop, length_app in Hr. unfold trailer in Hr. rewrite !length_app in Hr. cbn [length le fmap list_fmap seq] in Hr. lia. }
    destruct (IH _ (l ++ [sectorAt p c]) fuel Hok Hr1) as [q ->]; [done | lia |]. exists q. by rewrite <- app_assoc.
Qed.
End read_sectors.

Lemma sectorsAt_lookup cs : forall f p i c rest, remains f p (concat (encode <$> cs) ++ rest) -> cs !! i = Some c -> exists q rest',
  sectorsAt p cs !! i = Some (sectorAt q c) /\ remains f q (encode c ++ rest') /\ zlength rest <= zlength rest'.
Proof.
  induction cs as [|c0 cs IH]; intros f p i c rest Hr Hi; [done |]. cbn [fmap list_fmap concat] in Hr. rewrite <- app_assoc in Hr. destruct i as [|i]; cbn in Hi.
  - injection Hi as <-. exists p, (concat (encode <$> cs) ++ rest). split; [done |]. split; [done |]. rewrite length_app. lia.
  - apply remains_app in Hr. by destruct (IH f _ i c rest Hr Hi) as (q & rest' & H1 & H2 & H3); [exists q, rest'].
Qed.

(** Reading so many bytes somewhere in the file. *)
Lemma sread_seek f p q b rest : remains f p (b ++ rest) -> (sread (zlength b) (sseek p (at_ f q))) = (at_ f (p + zlength b), b).
Proof. intros Hr. unfold sseek. cbn. destruct Hr as [Hp Hd]. rewrite (proj2 (Z.leb_le 0 p)) by done. by destruct (sread_at f p b rest (conj Hp Hd)) as [E _]. Qed.

(** The contents of a sector, and four bytes that follow them. *)
Lemma sector_data f p q c rest : remains f p (encode c ++ rest) -> 4 <= zlength rest -> exists extra,
  length extra = 4%nat /\ (getData (sectorAt p c) (at_ f q)).2 = Some (contents c ++ extra) /\
  (is_Some (st_target c) -> p + 28 < 2 ^ 64 -> fullLength c < 2 ^ 64 -> (getElfData (sectorAt p c) (at_ f q)).2 = Some (st_body c ++ extra)).
Proof.
  intros Hr H4. exists (take 4 (st_pad c ++ rest)).
  assert (length (take 4 (st_pad c ++ rest)) = 4%nat) as Hx by (rewrite length_take, length_app; lia).
  assert (remains f (p + 16) (contents c ++ take 4 (st_pad c ++ rest) ++ drop 4 (st_pad c ++ rest))) as Hc.
  { rewrite take_drop. unfold encode in Hr. replace (p + 16) with (p + zlength (le 2 (st_type c) ++ [0; 0] ++ le 8 (fullLength c) ++ [zlength (st_pad c)] ++ [0; 0; 0])) by (cbn; lia).
    apply remains_app. rewrite <- !app_assoc in *. exact Hr. }
  split; [done |]. split.
  - unfold getData, sectorAt. cbn [length_ offset]. rewrite app_assoc in Hc. pose proof (sread_seek f _ q _ _ Hc) as E. rewrite length_app, Hx in E.
    replace (4 + zlength (contents c)) with (Z.of_nat (length (contents c) + 4)) by lia. by rewrite E.
  - intros [t Et] Hp Hl. assert (contents c = targetBytes t ++ st_body c) as Ec by (unfold contents; by rewrite Et). rewrite Ec, <- app_assoc in Hc. apply remains_app in Hc.
    replace (p + 16 + zlength (targetBytes t)) with (p + 28) in Hc by (cbn; lia). rewrite app_assoc in Hc. pose proof (sread_seek f _ q _ _ Hc) as E. rewrite length_app, Hx in E.
    unfold getElfData, getElfSize, sectorAt. cbn [length_ offset]. pose proof (proj1 Hr).
    rewrite (wrap_small 64 (p + 16 + 12)) by (unfold fits; lia). replace (p + 16 + 12) with (p + 28) by lia.
    assert (4 + zlength (contents c) - 12 = Z.of_nat (length (st_body c) + 4)) as El by (rewrite Ec, length_app; cbn; lia).
    rewrite El, wrap_small by (unfold fits, fullLength in *; rewrite Ec, length_app in Hl; lia). by rewrite E.
Qed.

(** C18: An XE file that was written is read back: the reader ends after its last sector without an error, with the version and, for every sector, its type and the core and address of
    those that name one, and the contents of each sector can be read from where it says they are.  What is read
    is four bytes longer than the contents, since the length counts the field with the size of the padding; numbers with bit 31 set,
    which the reader extends with ones, are left out. *)
Theorem xe_roundtrip (junk : nat -> Z) (v : Z) (cs : list Sect) (fuel : nat) :
  is_u16 v -> Forall sect_ok cs -> zlength (encodeFile v cs) < 2 ^ 63 -> (length cs < fuel)%nat ->
  exists x, newXE junk fuel (Some (encodeFile v cs)) = Some x /\ error x = false /\ version x = v /\ length (sectors x) = length cs /\
    forall i c, cs !! i = Some c -> exists e extra, sectors x !! i = Some e /\ type e = st_type c /\ target e = st_target c /\ length extra = 4%nat /\
      (getData e (s x)).2 = Some (contents c ++ extra) /\ (is_Some (st_target c) -> (getElfData e (s x)).2 = Some (st_body c ++ extra)).
Proof.
  intros Hv Hok Hlen Hfuel. set (f := encodeFile v cs) in *. assert (remains f 0 f) as Hr by (split; [lia | done]). unfold f in Hr at 2.
  unfold newXE. fold (at_ f 0). destruct (sread_at f 0 [0x58; 0x4d; 0x4f; 0x53] _ Hr) as [E Hr1]. change (sread 4) with (sread (zlength [0x58; 0x4d; 0x4f; 0x53])). rewrite E.
  rewrite bool_decide_eq_false_2 by (intros Hne; by apply Hne). destruct (ReadU16_le junk f _ _ _ Hr1 Hv) as [-> Hr2].
  destruct (remains_skip f _ [0; 0] _ 2 Hr2 eq_refl) as [-> Hr3]. change (remains f 8 (concat (encode <$> cs) ++ trailer)) in Hr3.
  change (at_ f (0 + zlength [0x58; 0x4d; 0x4f; 0x53] + 2 + 2)) with (at_ f 8).
  destruct (readHeaders_encode junk v f cs 8 [] fuel Hok Hr3 Hlen Hfuel) as [q ->]. eexists. split; [reflexivity |]. cbn [error version sectors s app].
  split; [done |]. split; [done |]. assert (forall p, length (sectorsAt p cs) = length cs) as Hl by (clear; induction cs; intros; cbn; auto). split; [apply Hl |].
  intros i c Hi. destruct (sectorsAt_lookup cs f 8 i c trailer Hr3 Hi) as (p & rest' & Hs & Hp & Hle).
  assert (4 <= zlength rest') by (cbn in Hle; lia). destruct (sector_data f p q c rest' Hp) as (extra & Hx & Hd & He); [done |].
  exists (sectorAt p c), extra. split_and!; try done. rewrite Forall_lookup in Hok. destruct (Hok _ _ Hi) as [_ _ _ [[_ Hl2] _]]. intros Ht. apply He; [done | | done].
  destruct Hp as [Hp Hd']. apply (f_equal length) in Hd'. rewrite length_drop, length_app in Hd'. pose proof (encode_length c). pose proof (fullLength_pos c).
  destruct (decide (Z.to_nat p < length f)%nat); lia.
Qed.

Lemma xe_roundtrip_witness :
  let c := mkSect XE_SECTOR_ELF (Some (mkTarget 0 1 0x10000)) [1; 2; 3] [0] in let cs := [c; mkSect XE_SECTOR_CONFIG None [9] []] in
  exists x e extra, newXE (fun _ => 0) 3 (Some (encodeFile 7 cs)) = Some x /\ sectors x !! 0%nat = Some e /\ (getElfData e (s x)).2 = Some ([1; 2; 3] ++ extra).
Proof.
  intros c cs. destruct (xe_roundtrip (fun _ => 0) 7 cs 3) as (x & E & _ & _ & _ & Hx).
  - by vm_compute.
  - repeat constructor; by vm_compute.
  - by vm_compute.
  - cbn. lia.
  - destruct (Hx 0%nat c eq_refl) as (e & extra & H1 & _ & _ & _ & _ & H2). exists x, e, extra. split; [exact E |]. split; [exact H1 |]. apply H2. by eexists.
Defined.

(** ** A file that is never read to its end *)

(** One sector whose length leads back to its own header. *)
Definition endless : list Z := [0x58; 0x4d; 0x4f; 0x53] ++ le 2 7 ++ [0; 0] ++ le 2 XE_SECTOR_BINARY ++ [0; 0] ++ le 8 (2 ^ 64 - 12) ++ [0; 0; 0; 0].

Lemma ReadHeader_endless junk v l : exists c, ReadHeader junk (mkXE v (at_ endless 8) l false) = (mkXE v (at_ endless 8) (l ++ [c]) false, false).
Proof. eexists. vm_compute. reflexivity. Qed.

(** The reader does not check that it makes progress: this file of 24 bytes makes it read the same header for ever, however many sectors it is given time for. *)
Lemma xe_endless junk fuel : newXE junk fuel (Some endless) = None.
Proof.
  assert (forall l, readHeaders junk fuel (mkXE 7 (at_ endless 8) l false) = None) as H.
  { induction fuel as [|fuel IH]; intros l; cbn [readHeaders]; [done |]. destruct (ReadHeader_endless junk 7 l) as [c ->]. apply IH. }
  exact (H []).
Qed.
