(* ===== verification/Symbols.v ===== *)
(** * Symbols of a program (lib/SymbolInfo.cpp)

    The symbols of an executable, by name and by address: a breakpoint is set on a symbol of a given name, and an address
    is shown as the symbol at or below it. *)

From Stdlib Require Import ZArith Lia.
From stdpp Require Import base list numbers option gmap.
From S2P Require Import Prelude Refs.

#[local] Open Scope Z_scope.
#[local] Open Scope cbits_scope.

(** lib/SymbolInfo.h:18-25 ElfSymbol *)
Record ElfSymbol := mkSymbol { sym_name : list Z; sym_value : Z; sym_info : Z }.

(** The symbol types and the binding that the code looks at, with the macros that take them out of the info byte. *)
Definition STT_NOTYPE : Z := 0.
Definition STT_OBJECT : Z := 1.
Definition STT_FUNC : Z := 2.
Definition STB_LOCAL : Z := 0.
Definition ELF32_ST_TYPE (info : Z) : Z := info .& 0xf.
Definition ELF32_ST_BIND (info : Z) : Z := info .>> 4.

(** lib/SymbolInfo.h:27-35 CoreSymbolInfo *)
Record CoreSymbolInfo := mkSymbols {
  symbols : list ElfSymbol;
  functionSymbols : gmap Z ElfSymbol;
  dataSymbols : gmap Z ElfSymbol;
  symNameMap : gmap (list Z) ElfSymbol
}.

(** [insert] of a map: an entry that is there is kept. *)
Definition insertNew {K V} `{Countable K} (k : K) (v : V) (m : gmap K V) : gmap K V := match m !! k with Some _ => m | None => <[k := v]> m end.

(** lib/SymbolInfo.cpp:51-69 CoreSymbolInfoBuilder::getSymbolInfo: one symbol *)
Definition indexSymbol (c : CoreSymbolInfo) (sym : ElfSymbol) : CoreSymbolInfo :=
  let type := ELF32_ST_TYPE (sym_info sym) in
  let '(functions, data) :=
    if type =? STT_FUNC then (<[sym_value sym := sym]> (functionSymbols c), dataSymbols c)
    else if type =? STT_OBJECT then (functionSymbols c, <[sym_value sym := sym]> (dataSymbols c))
    else if type =? STT_NOTYPE then (insertNew (sym_value sym) sym (functionSymbols c), insertNew (sym_value sym) sym (dataSymbols c))
    else (functionSymbols c, dataSymbols c) in
  mkSymbols (symbols c) functions data
    (if negb (ELF32_ST_BIND (sym_info sym) =? STB_LOCAL) then insertNew (sym_name sym) sym (symNameMap c) else symNameMap c).

(** lib/SymbolInfo.cpp:46-71 CoreSymbolInfoBuilder::getSymbolInfo *)
Definition getSymbolInfo (symbols : list ElfSymbol) : CoreSymbolInfo := foldl indexSymbol (mkSymbols symbols ∅ ∅ ∅) symbols.

(** lib/SymbolInfo.cpp:13-19 CoreSymbolInfo::getGlobalSymbol *)
Definition csi_getGlobalSymbol (name : list Z) (c : CoreSymbolInfo) : option ElfSymbol := symNameMap c !! name.

(** The later one of two entries of a map that are not above an address. *)
Definition later (address k : Z) (v : ElfSymbol) (acc : option (Z * ElfSymbol)) : option (Z * ElfSymbol) :=
  if k <=? address then match acc with Some (k', _) => if k' <? k then Some (k, v) else acc | None => Some (k, v) end else acc.

(** lib/SymbolInfo.cpp:21-28 CoreSymbolInfo::getSymbol: the map is in descending order, the lower bound is the greatest key at or below the address *)
Definition getSymbol (m : gmap Z ElfSymbol) (address : Z) : option ElfSymbol :=
  snd <$> map_fold (later address) None m.

(** lib/SymbolInfo.cpp:30-33 CoreSymbolInfo::getFunctionSymbol *)
Definition csi_getFunctionSymbol (address : Z) (c : CoreSymbolInfo) : option ElfSymbol := getSymbol (functionSymbols c) address.
(** lib/SymbolInfo.cpp:35-38 CoreSymbolInfo::getDataSymbol *)
Definition csi_getDataSymbol (address : Z) (c : CoreSymbolInfo) : option ElfSymbol := getSymbol (dataSymbols c) address.

(** lib/SymbolInfo.h:54-56 SymbolInfo: the symbols of each core; [None] is a null pointer *)
Definition SymbolInfo := gmap CoreRef (option CoreSymbolInfo).
(** lib/SymbolInfo.cpp:80-87 SymbolInfo::add *)
Definition add (core : CoreRef) (info : option CoreSymbolInfo) (s : SymbolInfo) : SymbolInfo := <[core := info]> s.
(** lib/SymbolInfo.cpp:89-95 SymbolInfo::getCoreSymbolInfo *)
Definition getCoreSymbolInfo (core : CoreRef) (s : SymbolInfo) : option CoreSymbolInfo := s !! core ≫= id.
(** lib/SymbolInfo.cpp:97-104 SymbolInfo::getGlobalSymbol *)
Definition getGlobalSymbol (core : CoreRef) (name : list Z) (s : SymbolInfo) : option ElfSymbol := getCoreSymbolInfo core s ≫= csi_getGlobalSymbol name.
(** lib/SymbolInfo.cpp:106-113 SymbolInfo::getFunctionSymbol *)
Definition getFunctionSymbol (core : CoreRef) (address : Z) (s : SymbolInfo) : option ElfSymbol := getCoreSymbolInfo core s ≫= csi_getFunctionSymbol address.
(** lib/SymbolInfo.cpp:115-122 SymbolInfo::getDataSymbol *)
Definition getDataSymbol (core : CoreRef) (address : Z) (s : SymbolInfo) : option ElfSymbol := getCoreSymbolInfo core s ≫= csi_getDataSymbol address.

(** ** The nearest symbol *)

(** The entry at the greatest address at or below [a], if there is one. *)
Definition nearest (m : gmap Z ElfSymbol) (a : Z) (r : option (Z * ElfSymbol)) : Prop :=
  match r with
  | Some (k, s) => m !! k = Some s /\ k <= a /\ forall k', is_Some (m !! k') -> k' <= a -> k' <= k
  | None => forall k', is_Some (m !! k') -> a < k'
  end.

Lemma nearest_insert m a k v r : m !! k = None -> nearest m a r -> nearest (<[k := v]> m) a (later a k v r).
Proof.
  intros Hk Hr. assert (forall Q : Z -> Prop, Q k -> (forall k', is_Some (m !! k') -> Q k') -> forall k', is_Some (<[k := v]> m !! k') -> Q k') as Hins.
  { intros Q Hq Hm k' [x E]. apply lookup_insert_Some in E as [[<- _] | [_ E]]; eauto. }
  unfold later. destruct (Z.leb_spec k a); destruct r as [[k0 s0]|]; cbn in *.
  - destruct Hr as (H1 & H2 & H3). destruct (Z.ltb_spec k0 k); cbn.
    + rewrite lookup_insert_eq. split_and!; [done | done |]. apply (Hins (fun k' => k' <= a -> k' <= k)); [lia |]. intros k' Hk' Hle. specialize (H3 k' Hk' Hle). lia.
    + rewrite lookup_insert_ne by congruence. split_and!; [done | done |]. by apply (Hins (fun k' => k' <= a -> k' <= k0)).
  - rewrite lookup_insert_eq. split_and!; [done | done |]. apply (Hins (fun k' => k' <= a -> k' <= k)); [lia |]. intros k' Hk' Hle. specialize (Hr k' Hk'). lia.
  - destruct Hr as (H1 & H2 & H3). rewrite lookup_insert_ne by congruence. split_and!; [done | done |]. apply (Hins (fun k' => k' <= a -> k' <= k0)); [lia | done].
  - by apply (Hins (fun k' => a < k')).
Qed.

Lemma getSymbol_nearest m a : exists r, nearest m a r /\ getSymbol m a = snd <$> r.
Proof.
  exists (map_fold (later a) None m). split; [| done]. apply (map_fold_weak_ind (fun r m => nearest m a r)).
  - by intros k [? ?%lookup_empty_Some].
  - intros. by apply nearest_insert.
Qed.

(** What is kept for an address: the last function there, or else the first symbol there without a type. *)
Definition functionAt (l : list ElfSymbol) (a : Z) : option ElfSymbol :=
  match head (filter (fun s => ELF32_ST_TYPE (sym_info s) = STT_FUNC /\ sym_value s = a) (reverse l)) with
  | Some s => Some s
  | None => head (filter (fun s => ELF32_ST_TYPE (sym_info s) = STT_NOTYPE /\ sym_value s = a) l)
  end.

Lemma functionSymbols_at l0 l a : functionSymbols (foldl indexSymbol (mkSymbols l0 ∅ ∅ ∅) l) !! a = functionAt l a.
Proof.
  induction l as [|s l IH] using rev_ind; [done |]. rewrite foldl_app. cbn [foldl]. set (c := foldl indexSymbol _ l) in *. unfold functionAt in *.
  rewrite reverse_snoc, filter_cons, filter_app, head_app, filter_cons. cbn [filter]. rewrite filter_nil. unfold indexSymbol, insertNew.
  destruct (Z.eqb_spec (ELF32_ST_TYPE (sym_info s)) STT_FUNC) as [E|E]; cbn [functionSymbols].
  - destruct (decide (sym_value s = a)) as [Ev|Ev].
    + rewrite Ev, lookup_insert_eq, decide_True by done. done.
    + rewrite lookup_insert_ne, !decide_False by tauto. rewrite IH. repeat case_match; done.
  - rewrite decide_False by tauto. destruct (Z.eqb_spec (ELF32_ST_TYPE (sym_info s)) STT_OBJECT) as [E1|E1]; cbn [functionSymbols].
    { rewrite decide_False by (rewrite E1; intros [? _]; done). rewrite IH. repeat case_match; done. }
    destruct (Z.eqb_spec (ELF32_ST_TYPE (sym_info s)) STT_NOTYPE) as [E2|E2]; cbn [functionSymbols].
    2: { rewrite decide_False by tauto. rewrite IH. repeat case_match; done. }
    destruct (decide (sym_value s = a)) as [Ev|Ev].
    + rewrite decide_True by done. rewrite Ev. destruct (functionSymbols c !! a) as [x|] eqn:Ex.
      * rewrite Ex, IH. repeat case_match; simplify_eq; try done; congruence.
      * rewrite lookup_insert_eq. repeat case_match; simplify_eq; try done; congruence.
    + rewrite decide_False by tauto. destruct (functionSymbols c !! sym_value s); rewrite ?lookup_insert_ne by done; rewrite IH; repeat case_match; done.
Qed.

(** The symbol that an address is shown as: of the addresses at or below it that have a function or a symbol without a type the greatest one, and there the last
    function or else the first symbol; none exactly when there is no such address. *)
Lemma function_symbol_nearest (l : list ElfSymbol) (a : Z) :
  match csi_getFunctionSymbol a (getSymbolInfo l) with
  | Some s => exists k, functionAt l k = Some s /\ k <= a /\ forall k', is_Some (functionAt l k') -> k' <= a -> k' <= k
  | None => forall k', is_Some (functionAt l k') -> a < k'
  end.
Proof.
  unfold csi_getFunctionSymbol. destruct (getSymbol_nearest (functionSymbols (getSymbolInfo l)) a) as (r & Hr & ->).
  assert (forall k, functionSymbols (getSymbolInfo l) !! k = functionAt l k) as Hf by (intros; apply functionSymbols_at).
  destruct r as [[k s]|]; cbn in *; [| intros k'; rewrite <- Hf; apply Hr].
  destruct Hr as (H1 & H2 & H3). exists k. rewrite <- Hf. split_and!; [done | done |]. intros k'. rewrite <- Hf. apply H3.
Qed.
