(* ===== verification/Boot.v ===== *)
(** * The boot sequence (lib/BootSequencer.cpp)

    What is done to start a program: the executables of an XE file are loaded into the memories of their cores, and
    the cores run until all of them have said that they are done, or until the program ends.  The ELF library
    is a parameter. *)

From Stdlib Require Import ZArith Lia.
From stdpp Require Import base list numbers option gmap.
From S2P Require Import Prelude Opcode InstrDecode Signal DecodeCache Watchpoint Core.
From S2P Require Import Refs Resource Node RunnableQueue SchedulerMap StateMonad Thread SysState Events SysFacts Timer.
From S2P Require Import Exec ResourceOps Execute PortState Port PortUse DataExec SystemRun Syscalls XE Symbols.

#[local] Open Scope Z_scope.
#[local] Open Scope cbits_scope.

(** ** The ELF library *)

(** The parts of an ELF header, of a program header and of a symbol that are used. *)
Record Ehdr := mkEhdr { e_machine : Z; e_entry : Z; e_phnum : Z }.
Record Phdr := mkPhdr { p_offset : Z; p_paddr : Z; p_vaddr : Z; p_filesz : Z; p_memsz : Z }.
Record Sym := mkSym { st_name : list Z; st_value : Z; st_shndx : Z; st_info : Z }.
Definition SHN_ABS : Z := 0xfff1.

(** An ELF file in memory: [elf_memory], whether [elf_kind] says that it is an ELF object, the headers, and the entries of the
    first symbol table if there is one with data; a call that fails gives [None]. *)
Class ElfLib (E : Type) := {
  elf_memory : list Z -> option E;
  elf_isElf : E -> bool;
  elf_getehdr : E -> option Ehdr;
  elf_getphdr : E -> Z -> option Phdr;
  elf_symtab : E -> option (list (option Sym))
}.

(** lib/BootSequencer.cpp:25-26 XCORE_ELF_MACHINE *)
Definition XCORE_ELF_MACHINE_OLD : Z := 0xB49E.
Definition XCORE_ELF_MACHINE : Z := 0xCB.

(** lib/BootSequencer.cpp:28-74 readSymbols: both functions *)
Definition readSymbols `{ElfLib E} (e : E) (low high : Z) : option CoreSymbolInfo :=
  syms ← elf_symtab e;
  Some (getSymbolInfo (omap (fun s => sym ← s;
    if (st_shndx sym =? SHN_ABS) || (st_value sym <? low) || (high <=? st_value sym) then None
    else Some (mkSymbol (st_name sym) (u32 (st_value sym)) (st_info sym))) syms)).

(** ** Breakpoints *)

(** lib/BreakpointManager.h:16-20 BreakpointType *)
Inductive BreakpointType := BP_Exception | BP_Syscall | BP_Other.
(** lib/BreakpointManager.h:23-23 BreakpointManager *)
Definition BreakpointManager := gmap (CoreRef * Z) BreakpointType.

(** ** Steps *)

(** lib/BootSequencer.cpp:124-178 BootSequenceStep: and the classes derived from it *)
Inductive BootSequenceStep :=
  | StepElf (loadImage useElfEntryPoint : bool) (core : CoreRef) (elfSector : XESector)
  | StepSchedule (core : CoreRef) (address : Z)
  | StepRun (numDoneSyscalls : Z).

(** lib/LoadedElf.h:16-26 LoadedElf: the file and what the library makes of it *)
Record LoadedElf (E : Type) := mkLoadedElf { elf_buf : list Z; elf_ : E }.
Arguments mkLoadedElf {E}. Arguments elf_buf {E}. Arguments elf_ {E}.

(** lib/BootSequencer.cpp:87-98 ExecutionState: with the stream of the XE file and the host *)
Record ExecutionState (P W E : Type) := mkExecution {
  ex_sys : Sys P;
  ex_breakpoints : BreakpointManager;
  ex_handler : SyscallHandler;
  ex_elfs : gmap CoreRef (LoadedElf E);
  ex_symbols : SymbolInfo;
  ex_stream : Stream;
  ex_world : W
}.
Arguments mkExecution {P W E}. Arguments ex_sys {P W E}. Arguments ex_breakpoints {P W E}. Arguments ex_handler {P W E}.
Arguments ex_elfs {P W E}. Arguments ex_symbols {P W E}. Arguments ex_stream {P W E}. Arguments ex_world {P W E}.

(** How a step ends: with a status, or the process with [std::exit]. *)
Inductive StepResult := Status (status : Z) | ProcessExit (code : Z).

(** ** Loading images *)

(** lib/BootSequencer.cpp:410-414 rangeOverlaps *)
Definition rangeOverlaps (aBegin aEnd bBegin bEnd : Z) : bool := (aBegin <? bEnd) && (bBegin <? aEnd).

(** The bytes of a file at an offset. *)
Definition fileBytes (buf : list Z) (offset size : Z) : option (list Z) :=
  _ ← assert ((0 <=? offset) && (offset + size <=? zlength buf)); Some (take (Z.to_nat size) (drop (Z.to_nat offset) buf)).

Section load.
Context {E : Type} `{ElfLib E}.

(** lib/BootSequencer.cpp:434-452 loadImage: the loop over the program headers; whether one was found, and the buffer [dst] *)
Fixpoint loadImage_loop (n : nat) (i : Z) (l : LoadedElf E) (srcBegin srcEnd : Z) (dst : list Z) (foundMatching : bool) : option (bool * list Z) :=
  match n with
  | O => Some (foundMatching, dst)
  | S n =>
      match elf_getphdr (elf_ l) i with
      | None => Some (false, dst)
      | Some phdr =>
          if p_filesz phdr =? 0 then loadImage_loop n (i + 1) l srcBegin srcEnd dst foundMatching
          else
            let segmentBegin := u32 (p_paddr phdr) in
            let segmentEnd := u32 (p_paddr phdr + p_memsz phdr) in
            if negb (rangeOverlaps srcBegin srcEnd segmentBegin segmentEnd) then loadImage_loop n (i + 1) l srcBegin srcEnd dst foundMatching
            else
              let copyBegin := Z.max segmentBegin srcBegin in
              let copyEnd := Z.min segmentEnd srcEnd in
              let copySize := u32 (copyEnd - copyBegin) in
              let offsetBegin := u32 (p_offset phdr + copyBegin - segmentBegin) in
              bytes ← fileBytes (elf_buf l) offsetBegin copySize;
              dst ← blit bytes (copyBegin - srcBegin) dst;
              loadImage_loop n (i + 1) l srcBegin srcEnd dst true
      end
  end.

(** lib/BootSequencer.cpp:416-454 loadImage *)
Definition loadImage (elfs : gmap CoreRef (LoadedElf E)) (core : CoreRef) (dst : list Z) (src size : Z) : option (bool * list Z) :=
  match elfs !! core with
  | None => Some (false, dst)
  | Some l =>
      match elf_getehdr (elf_ l) with
      | None => Some (false, dst)
      | Some ehdr =>
          if e_phnum ehdr =? 0 then Some (false, dst)
          else loadImage_loop (Z.to_nat (e_phnum ehdr)) 0 l src (u32 (src + size)) dst false
      end
  end.
End load.

(** The host of a program that was started by the boot sequence: its [loadImage] looks at the executables that were loaded. *)
#[export] Instance bootHost {W E} `{Host W} `{ElfLib E} : Host (W * gmap CoreRef (LoadedElf E)) := {
  host_dup fd w := let '(v, x) := host_dup fd w.1 in ((v, w.2), x);
  host_open p f m w := let '(v, x) := host_open p f m w.1 in ((v, w.2), x);
  host_close fd w := let '(v, x) := host_close fd w.1 in ((v, w.2), x);
  host_read fd n w := let '(v, x) := host_read fd n w.1 in ((v, w.2), x);
  host_write fd b w := let '(v, x) := host_write fd b w.1 in ((v, w.2), x);
  host_lseek fd o t w := let '(v, x) := host_lseek fd o t w.1 in ((v, w.2), x);
  host_rename a b w := let '(v, x) := host_rename a b w.1 in ((v, w.2), x);
  host_remove p w := let '(v, x) := host_remove p w.1 in ((v, w.2), x);
  host_system c w := let '(v, x) := host_system c w.1 in ((v, w.2), x);
  host_time w := let '(v, x) := host_time w.1 in ((v, w.2), x);
  host_loadImage core dst src size w := x ← loadImage w.2 core dst src size; Some (w, x);
  O_RDONLY := O_RDONLY; O_WRONLY := O_WRONLY; O_RDWR := O_RDWR; O_CREAT := O_CREAT; O_TRUNC := O_TRUNC; O_APPEND := O_APPEND;
  S_IREAD := S_IREAD; S_IWRITE := S_IWRITE; S_IEXEC := S_IEXEC;
  SEEK_CUR := SEEK_CUR; SEEK_END := SEEK_END; SEEK_SET := SEEK_SET
}.

(** ** Executing the steps *)

Section execute.
Context `{PortEnv} `{Jit Ports} {W E : Type} `{Host W} `{ElfLib E}.
Context (junk : Operands) (fuel portFuel : nat) (dev_run : nat -> Z -> M (Sys Ports) (option (Z * Z))).
Abbreviation MX := (M (ExecutionState Ports W E)).

Definition onSys {A} (m : M (Sys Ports) A) : MX A := fun s =>
  '(y, a) ← m (ex_sys s);
  Some (mkExecution y (ex_breakpoints s) (ex_handler s) (ex_elfs s) (ex_symbols s) (ex_stream s) (ex_world s), a).
Definition set_breakpoints v (s : ExecutionState Ports W E) : ExecutionState Ports W E :=
  mkExecution (ex_sys s) v (ex_handler s) (ex_elfs s) (ex_symbols s) (ex_stream s) (ex_world s).
Definition set_handler v (s : ExecutionState Ports W E) : ExecutionState Ports W E :=
  mkExecution (ex_sys s) (ex_breakpoints s) v (ex_elfs s) (ex_symbols s) (ex_stream s) (ex_world s).
Definition set_elfs v (s : ExecutionState Ports W E) : ExecutionState Ports W E :=
  mkExecution (ex_sys s) (ex_breakpoints s) (ex_handler s) v (ex_symbols s) (ex_stream s) (ex_world s).
Definition set_symbols v (s : ExecutionState Ports W E) : ExecutionState Ports W E :=
  mkExecution (ex_sys s) (ex_breakpoints s) (ex_handler s) (ex_elfs s) v (ex_stream s) (ex_world s).
Definition set_stream v (s : ExecutionState Ports W E) : ExecutionState Ports W E :=
  mkExecution (ex_sys s) (ex_breakpoints s) (ex_handler s) (ex_elfs s) (ex_symbols s) v (ex_world s).

(** lib/BreakpointManager.cpp:11-18 BreakpointManager::setBreakpoint *)
Definition bm_setBreakpoint (c : CoreRef) (address : Z) (type : BreakpointType) : MX bool :=
  k ← onSys (SysState.core c); '(k, ok) ← lift (Core.setBreakpoint address k); _ ← onSys (putCore c k);
  if ok : bool then _ ← modify (fun s => set_breakpoints (<[(c, address) := type]> (ex_breakpoints s)) s); mret true else mret false.

(** lib/BreakpointManager.cpp:20-27 BreakpointManager::getBreakpointType *)
Definition getBreakpointType (c : CoreRef) (address : Z) : MX BreakpointType := gets (fun s => default BP_Other (ex_breakpoints s !! (c, address))).

(** lib/BreakpointManager.cpp:31-34 BreakpointManager::unsetBreakpoints: the loop *)
Fixpoint unset_loop (l : list (CoreRef * Z)) : MX unit :=
  match l with
  | [] => mret tt
  | (c, address) :: l => k ← onSys (SysState.core c); k ← lift (Core.unsetBreakpoint address k); _ ← onSys (putCore c k); unset_loop l
  end.
(** lib/BreakpointManager.cpp:29-36 BreakpointManager::unsetBreakpoints: the order of the entries does not matter *)
Definition unsetBreakpoints : MX unit := l ← gets (fun s => (map_to_list (ex_breakpoints s)).*1); _ ← unset_loop l; modify (set_breakpoints ∅).

(** lib/Thread.cpp:202-208 Thread::setPcFromAddress *)
Definition setPcFromAddress (t : Ref) (address : Z) : M (Sys Ports) unit :=
  ok ← tryUpdateDecodeCache t address; _ ← require ok; pc ← thread_toPc t address; modThread t (set_pc pc).

(** lib/Thread.cpp:210-216 Thread::getRealPc *)
Definition getRealPc (t : Ref) : M (Sys Ports) Z :=
  th ← thread t; c ← SysState.core t.1;
  if (Thread.pc th =? getInterpretOneAddr (ramDecodeCache c)) || (Thread.pc th =? getRunJitAddr (ramDecodeCache c)) then thread_fromPc t (pendingPc th)
  else thread_fromPc t (Thread.pc th).

(** lib/BootSequencer.cpp:108-114 ElfManager::load: with LoadedElf::LoadedElf; [None] when the process ends *)
Definition load (c : CoreRef) (sector : XESector) : MX (option (LoadedElf E)) :=
  st ← gets ex_stream;
  let '(st, buf) := getElfData sector st in
  _ ← modify (set_stream st);
  match buf with
  | None => mret None
  | Some buf =>
      match elf_memory buf with
      | None => mret None
      | Some e => _ ← modify (fun s => set_elfs (<[c := mkLoadedElf buf e]> (ex_elfs s)) s); mret (Some (mkLoadedElf buf e))
      end
  end.

(** lib/BootSequencer.cpp:180-184 hasValidVirtualAddress *)
Definition hasValidVirtualAddress (phdr : Phdr) (c : Core) : bool :=
  isValidRamAddress c (u32 (p_vaddr phdr)) && isValidRamAddress c (u32 (p_vaddr phdr + p_memsz phdr)).

(** lib/BootSequencer.cpp:224-246 BootSequenceStepElf::execute: the loop over the program headers; [false] when the process ends *)
Fixpoint loadSegments (n : nat) (i : Z) (l : LoadedElf E) (elfSize : Z) (c : CoreRef) : MX bool :=
  match n with
  | O => mret true
  | S n =>
      match elf_getphdr (elf_ l) i with
      | None => mret false
      | Some phdr =>
          if p_filesz phdr =? 0 then loadSegments n (i + 1) l elfSize c
          else if elfSize <? p_offset phdr then mret false
          else
            k ← onSys (SysState.core c);
            if isValidRamAddress k (u32 (p_paddr phdr)) && isValidRamAddress k (u32 (p_paddr phdr + p_memsz phdr)) then
              bytes ← lift (fileBytes (elf_buf l) (p_offset phdr) (p_filesz phdr));
              '(k, _) ← lift (writeMemory (u32 (p_paddr phdr)) bytes k); _ ← onSys (putCore c k);
              loadSegments n (i + 1) l elfSize c
            else if hasValidVirtualAddress phdr k then loadSegments n (i + 1) l elfSize c else mret false
      end
  end.

(** The names of the symbols that get a breakpoint, ["_DoSyscall"] and ["_DoException"]. *)
Definition DoSyscallName : list Z := [95; 68; 111; 83; 121; 115; 99; 97; 108; 108].
Definition DoExceptionName : list Z := [95; 68; 111; 69; 120; 99; 101; 112; 116; 105; 111; 110].

(** lib/BootSequencer.cpp:254-260 BootSequenceStepElf::execute: and lines 261-267; a breakpoint on a symbol if there is one, the result is only printed *)
Definition patch (c : CoreRef) (name : list Z) (type : BreakpointType) : MX unit :=
  s ← gets ex_symbols;
  match getGlobalSymbol c name s with Some sym => _ ← bm_setBreakpoint c (sym_value sym) type; mret tt | None => mret tt end.

(** lib/BootSequencer.cpp:186-275 BootSequenceStepElf::execute *)
Definition elf_execute (load_ useElfEntryPoint : bool) (c : CoreRef) (sector : XESector) : MX StepResult :=
  l ← load c sector;
  match l with
  | None => mret (ProcessExit 1)
  | Some l =>
      if negb (elf_isElf (elf_ l)) then mret (ProcessExit 1)
      else
        match elf_getehdr (elf_ l) with
        | None => mret (ProcessExit 1)
        | Some ehdr =>
            if negb (e_machine ehdr =? XCORE_ELF_MACHINE) && negb (e_machine ehdr =? XCORE_ELF_MACHINE_OLD) then mret (ProcessExit 1)
            else
              k ← onSys (SysState.core c);
              let entryPoint := if negb (e_entry ehdr =? 0) && isValidRamAddress k (u32 (e_entry ehdr)) then u32 (e_entry ehdr) else getRamBase k in
              let ram_base := getRamBase k in
              let ram_size := getRamSize k in
              ok ← (if load_ then if e_phnum ehdr =? 0 then mret false else loadSegments (Z.to_nat (e_phnum ehdr)) 0 l (getElfSize sector) c else mret true);
              if negb ok then mret (ProcessExit 1)
              else
                _ ← modify (fun s => set_symbols (Symbols.add c (readSymbols (elf_ l) ram_base (u32 (ram_base + ram_size))) (ex_symbols s)) s);
                _ ← patch c DoSyscallName BP_Syscall;
                _ ← patch c DoExceptionName BP_Exception;
                _ ← (if useElfEntryPoint then _ ← onSys (schedule (c, 0%nat)); onSys (setPcFromAddress (c, 0%nat) entryPoint) else mret tt);
                mret (Status 0)
        end
  end.

(** lib/BootSequencer.cpp:277-283 BootSequenceStepSchedule::execute *)
Definition schedule_execute (c : CoreRef) (address : Z) : MX StepResult :=
  _ ← onSys (schedule (c, 0%nat)); _ ← onSys (setPcFromAddress (c, 0%nat) address); mret (Status 0).

(** A system call of a thread. *)
Definition callFor (t : Ref) (m : M (CallState (W * gmap CoreRef (LoadedElf E))) SyscallOutcome) : MX SyscallOutcome := fun s =>
  th ← threads (ex_sys s) !! t; c ← sys_cores (ex_sys s) !! t.1;
  '(x, o) ← m (mkCall (ex_handler s) (Thread.regs th) c (ex_world s, ex_elfs s));
  Some (mkExecution (set_sys_cores (<[t.1 := call_core x]> (sys_cores (ex_sys s))) (set_threads (<[t := Thread.set_regs (call_regs x) th]> (threads (ex_sys s))) (ex_sys s)))
    (ex_breakpoints s) (handler x) (ex_elfs s) (ex_symbols s) (ex_stream s) (world x).1, o).

(** lib/BootSequencer.cpp:291-324 BootSequenceStepRun::executeAux: the loop, for at most [n] breakpoints and [m] iterations of the main loop between them; [None] when that is not enough *)
Fixpoint run_loop (n m : nat) : MX (option Z) :=
  match n with
  | O => mret None
  | S n =>
      r ← onSys (system_run junk fuel portFuel dev_run m);
      match r with
      | None => mret None
      | Some (BREAKPOINT_STOP _ t) =>
          address ← onSys (getRealPc t); type ← getBreakpointType t.1 address;
          match type with
          | BP_Exception => et ← onSys (getReg t ET); mret (Some (s32 et))
          | BP_Syscall =>
              o ← callFor t (doSyscall t.1);
              match o with
              | SC_EXIT retval => mret (Some retval)
              | SC_CONTINUE => lr ← onSys (getReg t LR); _ ← onSys (setPcFromAddress t lr); run_loop n m
              end
          | BP_Other => undef
          end
      | Some (WATCHPOINT_STOP _ _) => undef
      | Some (TIMEOUT_STOP _) | Some (NO_RUNNABLE_THREADS _) => mret (Some 1)
      | Some (EXIT_STOP _ status) => mret (Some status)
      end
  end.

(** lib/BootSequencer.cpp:285-331 BootSequenceStepRun::execute: and executeAux *)
Definition run_execute (n m : nat) (numDoneSyscalls : Z) : MX (option StepResult) :=
  _ ← modify (fun s => set_handler (setDoneSyscallsRequired numDoneSyscalls (ex_handler s)) s);
  r ← run_loop n m;
  match r with None => mret None | Some status => _ ← unsetBreakpoints; mret (Some (Status status)) end.

Definition step_execute (n m : nat) (step : BootSequenceStep) : MX (option StepResult) :=
  match step with
  | StepElf l u c e => r ← elf_execute l u c e; mret (Some r)
  | StepSchedule c a => r ← schedule_execute c a; mret (Some r)
  | StepRun k => run_execute n m k
  end.

(** lib/BootSequencer.cpp:484-488 BootSequencer::execute: the loop *)
Fixpoint boot_loop (n m : nat) (steps : list BootSequenceStep) : MX (option StepResult) :=
  match steps with
  | [] => mret (Some (Status 0))
  | step :: steps =>
      r ← step_execute n m step;
      match r with Some (Status 0) => boot_loop n m steps | _ => mret r end
  end.

(** lib/BootSequencer.cpp:469-490 BootSequencer::execute: with a new ElfManager *)
Definition boot_execute (n m : nat) (steps : list BootSequenceStep) : MX (option StepResult) := _ ← modify (set_elfs ∅); boot_loop n m steps.
End execute.

(** ** The steps of a file *)

(** lib/BootSequencer.cpp:346-348 BootSequencer::addElf *)
Definition addElf (c : CoreRef) (e : XESector) (l : list BootSequenceStep) : list BootSequenceStep := l ++ [StepElf true true c e].
(** lib/BootSequencer.cpp:350-352 BootSequencer::addSchedule *)
Definition addSchedule (c : CoreRef) (a : Z) (l : list BootSequenceStep) : list BootSequenceStep := l ++ [StepSchedule c a].
(** lib/BootSequencer.cpp:354-356 BootSequencer::addRun *)
Definition addRun (n : Z) (l : list BootSequenceStep) : list BootSequenceStep := l ++ [StepRun n].

(** The nodes of the system: the position in the JTAG chain and the number of cores, or [None] for a node without cores. *)
Definition BootNodes := list (option (Z * nat)).

(** lib/BootSequencer.cpp:496-507 addToCoreMap: one node *)
Definition addNode (node : nat) (jtagIndex : Z) (cores : nat) (m : gmap (Z * Z) CoreRef) : gmap (Z * Z) CoreRef :=
  foldl (fun m i => insertNew (jtagIndex, Z.of_nat i) (node, i) m) m (seq 0 cores).
(** lib/BootSequencer.cpp:510-519 addToCoreMap: the system *)
Definition addToCoreMap (nodes : BootNodes) : gmap (Z * Z) CoreRef :=
  foldl (fun m x => match x with (i, Some (jtagIndex, cores)) => addNode i jtagIndex cores m | (_, None) => m end) ∅ (imap (fun i n => (i, n)) nodes).

(** lib/BootSequencer.cpp:526-527 BootSequencer::populateFromXE: the local variables, with the steps *)
Record Populate := mkPopulate { pp_steps : list BootSequenceStep; gotoSectors : gset CoreRef; callSectors : gset CoreRef }.

Definition zsize (s : gset CoreRef) : Z := Z.of_nat (size s).

(** lib/BootSequencer.cpp:528-599 BootSequencer::populateFromXE: one sector; [None] when the process ends because there is no such core *)
Definition populateSector (coreMap : gmap (Z * Z) CoreRef) (x : Populate) (sector : XESector) : option Populate :=
  let '(mkPopulate steps gotos calls) := x in
  let coreOf := t ← target sector; coreMap !! (node t, XE.core t) in
  if type sector =? XE_SECTOR_ELF then
    c ← coreOf;
    if bool_decide (c ∈ gotos) then Some x
    else
      let '(steps, calls) := if bool_decide (c ∈ calls) then (addRun (zsize calls) steps, ∅) else (steps, calls) in
      Some (mkPopulate (addElf c sector steps) gotos calls)
  else if type sector =? XE_SECTOR_CALL then
    if negb (bool_decide (gotos = ∅)) then Some x
    else
      c ← coreOf;
      Some (if bool_decide (c ∈ calls) then mkPopulate (addRun (zsize calls) steps) gotos {[ c ]} else mkPopulate steps gotos ({[ c ]} ∪ calls))
  else if type sector =? XE_SECTOR_GOTO then
    let '(steps, calls) := if negb (bool_decide (calls = ∅)) then (addRun (zsize calls) steps, ∅) else (steps, calls) in
    c ← coreOf; Some (mkPopulate steps ({[ c ]} ∪ gotos) calls)
  else Some x.

Definition populateAll (coreMap : gmap (Z * Z) CoreRef) (sectors : list XESector) (x : Populate) : option Populate :=
  foldl (fun x s => x ← x; populateSector coreMap x s) (Some x) sectors.

(** lib/BootSequencer.cpp:600-605 BootSequencer::populateFromXE: after the loop *)
Definition lastRun (x : Populate) : list BootSequenceStep :=
  if negb (bool_decide (gotoSectors x = ∅)) then addRun (zsize (gotoSectors x)) (pp_steps x)
  else if negb (bool_decide (callSectors x = ∅)) then addRun (zsize (callSectors x)) (pp_steps x)
  else pp_steps x.

(** lib/BootSequencer.cpp:521-606 BootSequencer::populateFromXE *)
Definition populateFromXE (nodes : BootNodes) (sectors : list XESector) (steps : list BootSequenceStep) : option (list BootSequenceStep) :=
  x ← populateAll (addToCoreMap nodes) sectors (mkPopulate steps ∅ ∅); Some (lastRun x).

(** ** Booting from a flash memory *)

Definition isRun (s : BootSequenceStep) : bool := match s with StepRun _ => true | _ => false end.

(** lib/BootSequencer.cpp:358-372 getPenultimateRunStep: the loop from the end; the position of the step *)
Fixpoint penultimate (l : list BootSequenceStep) (i count : nat) : option nat :=
  match i with
  | O => None
  | S i =>
      match l !! i with
      | Some (StepRun _) => if Nat.eqb (S count) 2 then Some i else penultimate l i (S count)
      | _ => penultimate l i count
      end
  end.
Definition getPenultimateRunStep (l : list BootSequenceStep) : option nat := penultimate l (length l) 0.

(** lib/BootSequencer.cpp:374-388 BootSequencer::setEntryPointToRom *)
Definition setEntryPointToRom (romBase : CoreRef -> Z) (l : list BootSequenceStep) : list BootSequenceStep :=
  concat ((fun s => match s with StepElf i _ c e => [StepElf i false c e; StepSchedule c (romBase c)] | _ => [s] end) <$> l).
(** lib/BootSequencer.cpp:390-399 BootSequencer::eraseAllButLastImage *)
Definition eraseAllButLastImage (l : list BootSequenceStep) : list BootSequenceStep :=
  match getPenultimateRunStep l with Some i => drop i l | None => l end.
(** lib/BootSequencer.cpp:401-408 BootSequencer::setLoadImages *)
Definition setLoadImages (value : bool) (l : list BootSequenceStep) : list BootSequenceStep :=
  (fun s => match s with StepElf _ u c e => StepElf value u c e | _ => s end) <$> l.
(** lib/Core.h:330-330 Core::setBootModePins *)
Definition setBootModePins (v : Z) (c : Core) : Core :=
  mkCore (memory c) (ramDecodeCache c) (memoryOffset c) (invalidationInfoOffset c) (ramSizeLog2 c) (ramBaseMultiple c) (rom c) (romBase c) (romSize c) (functionMap c)
    (unreachableFunctions c) (breakpoints c) (watchpoints c) (threadCaches c) (Core.coreNumber c) v (bootStatus c) (vector_base c) (jitEnabled c).
(** lib/BootSequencer.cpp:613-619 BootSequencer::adjustForSPIBoot: the cores *)
Definition setSPIBootPins {P} (s : Sys P) : Sys P := set_sys_cores (setBootModePins 4 <$> sys_cores s) s.
(** lib/BootSequencer.cpp:608-620 BootSequencer::adjustForSPIBoot: the steps *)
Definition adjustForSPIBoot (romBase : CoreRef -> Z) (l : list BootSequenceStep) : list BootSequenceStep :=
  setLoadImages false (setEntryPointToRom romBase (eraseAllButLastImage l)).
