(* ===== verification/BootFacts.v ===== *)
(** * What the boot sequence does

    The steps that are made of the sectors of a file, what is left of them when the program is in a flash memory, and the
    memory after an executable has been loaded. *)

From Stdlib Require Import ZArith Lia.
From stdpp Require Import base list numbers option gmap sets fin_sets.
From S2P Require Import Prelude Opcode InstrDecode Signal DecodeCache Watchpoint Core CoreFacts CoreLimits.
From S2P Require Import Refs Resource Node RunnableQueue SchedulerMap StateMonad Thread SysState Events SysFacts Timer.
From S2P Require Import Exec ResourceOps Execute PortState Port PortUse DataExec SystemRun Syscalls XE Symbols Boot.

#[local] Open Scope Z_scope.

(** ** The steps of a file *)

(** A stage of a program: the executables of some cores, and the sectors that start cores. *)
Record Stage := mkStage { loads : list (CoreRef * XESector); starts : list (CoreRef * XESector) }.

Definition stageSectors (g : Stage) : list XESector := (loads g).*2 ++ (starts g).*2.
Definition elfSteps (l : list (CoreRef * XESector)) : list BootSequenceStep := (fun x => StepElf true true x.1 x.2) <$> l.
(** A stage as steps: its executables are loaded, then as many cores as it starts have to say that they are done. *)
Definition stageSteps (g : Stage) : list BootSequenceStep := elfSteps (loads g) ++ [StepRun (zlength (starts g))].

Section populate.
Context (m : gmap (Z * Z) CoreRef).

(** The sector has this type and is for this core. *)
Definition names (ty : Z) (x : CoreRef * XESector) : Prop := type x.2 = ty /\ exists t, target x.2 = Some t /\ m !! (node t, XE.core t) = Some x.1.

Record stage_ok (ty : Z) (g : Stage) : Prop := {
  sg_loads : Forall (names XE_SECTOR_ELF) (loads g);
  sg_starts : Forall (names ty) (starts g);
  sg_cores : NoDup (starts g).*1;
  sg_some : starts g <> []
}.

(** A stage that comes after another one begins with a sector for a core that was started there; before a jump the first sector may be the jump. *)
Definition follows (prev : list CoreRef) (ty : Z) (g : Stage) : Prop :=
  match loads g with
  | x :: _ => x.1 ∈ prev
  | [] => if ty =? XE_SECTOR_GOTO then True else match starts g with x :: _ => x.1 ∈ prev | [] => False end
  end.

Fixpoint stages_ok (prev : list CoreRef) (l : list Stage) (last : Stage) : Prop :=
  match l with
  | [] => stage_ok XE_SECTOR_GOTO last /\ (prev = [] \/ follows prev XE_SECTOR_GOTO last)
  | g :: l => stage_ok XE_SECTOR_CALL g /\ (prev = [] \/ follows prev XE_SECTOR_CALL g) /\ stages_ok (starts g).*1 l last
  end.

Lemma populateAll_app l1 l2 x : populateAll m (l1 ++ l2) x = populateAll m l1 x ≫= populateAll m l2.
Proof.
  unfold populateAll. rewrite foldl_app. destruct (foldl _ (Some x) l1); [done |]. cbn. induction l2; cbn; auto.
Qed.

Lemma populateAll_cons x l p : populateAll m (x :: l) p = populateSector m p x ≫= populateAll m l.
Proof. apply (populateAll_app [x] l p). Qed.

(** What one sector does. *)
Lemma populate_elf x steps calls : names XE_SECTOR_ELF x -> populateSector m (mkPopulate steps ∅ calls) x.2 =
  Some (if decide (x.1 ∈ calls) then mkPopulate ((steps ++ [StepRun (zsize calls)]) ++ [StepElf true true x.1 x.2]) ∅ ∅
        else mkPopulate (steps ++ [StepElf true true x.1 x.2]) ∅ calls).
Proof.
  intros [Ht (t & Et & Em)]. unfold populateSector. rewrite Ht, Et. change (XE_SECTOR_ELF =? XE_SECTOR_ELF) with true. cbn [mbind option_bind]. rewrite Em. cbn [mbind option_bind].
  rewrite bool_decide_eq_false_2 by set_solver. by destruct (decide (x.1 ∈ calls)); [rewrite bool_decide_eq_true_2 | rewrite bool_decide_eq_false_2].
Qed.
Lemma populate_call x steps calls : names XE_SECTOR_CALL x -> populateSector m (mkPopulate steps ∅ calls) x.2 =
  Some (if decide (x.1 ∈ calls) then mkPopulate (steps ++ [StepRun (zsize calls)]) ∅ {[ x.1 ]} else mkPopulate steps ∅ ({[ x.1 ]} ∪ calls)).
Proof.
  intros [Ht (t & Et & Em)]. unfold populateSector. rewrite Ht, Et. change (XE_SECTOR_CALL =? XE_SECTOR_ELF) with false. change (XE_SECTOR_CALL =? XE_SECTOR_CALL) with true.
  cbn [mbind option_bind]. rewrite Em, (bool_decide_eq_true_2 (∅ = ∅)) by done. cbn [negb mbind option_bind].
  by destruct (decide (x.1 ∈ calls)); [rewrite bool_decide_eq_true_2 | rewrite bool_decide_eq_false_2].
Qed.
Lemma populate_goto x steps gotos calls : names XE_SECTOR_GOTO x -> populateSector m (mkPopulate steps gotos calls) x.2 =
  Some (mkPopulate (if decide (calls = ∅) then steps else steps ++ [StepRun (zsize calls)]) ({[ x.1 ]} ∪ gotos) ∅).
Proof.
  intros [Ht (t & Et & Em)]. unfold populateSector. rewrite Ht, Et. change (XE_SECTOR_GOTO =? XE_SECTOR_ELF) with false. change (XE_SECTOR_GOTO =? XE_SECTOR_CALL) with false.
  change (XE_SECTOR_GOTO =? XE_SECTOR_GOTO) with true. cbn [mbind option_bind].
  destruct (decide (calls = ∅)) as [-> |]; [rewrite bool_decide_eq_true_2 by done | rewrite bool_decide_eq_false_2 by done]; cbn [negb]; by rewrite Em.
Qed.

Lemma populate_loads l steps calls : Forall (names XE_SECTOR_ELF) l -> Forall (fun x => x.1 ∉ calls) l ->
  populateAll m l.*2 (mkPopulate steps ∅ calls) = Some (mkPopulate (steps ++ elfSteps l) ∅ calls).
Proof.
  revert steps. induction l as [|x l IH]; intros steps Hn Hc; [cbn; by rewrite app_nil_r |].
  apply Forall_cons_1 in Hn as [Hx Hn], Hc as [Hxc Hc]. cbn [fmap list_fmap]. rewrite populateAll_cons, populate_elf, decide_False by done. cbn [mbind option_bind].
  rewrite IH by done. by rewrite <- app_assoc.
Qed.

Lemma populate_calls l steps calls : Forall (names XE_SECTOR_CALL) l -> NoDup l.*1 -> Forall (fun x => x.1 ∉ calls) l ->
  populateAll m l.*2 (mkPopulate steps ∅ calls) = Some (mkPopulate steps ∅ (list_to_set l.*1 ∪ calls)).
Proof.
  revert calls. induction l as [|x l IH]; intros calls Hn Hd Hc; [cbn; by rewrite union_empty_l_L |].
  apply Forall_cons_1 in Hn as [Hx Hn], Hc as [Hxc Hc]. cbn [fmap list_fmap] in *. apply NoDup_cons in Hd as [Hd1 Hd2].
  rewrite populateAll_cons, populate_call, decide_False by done. cbn [mbind option_bind]. rewrite IH; [| done | done |].
  - do 2 f_equal. set_solver.
  - rewrite Forall_forall in *. intros y Hy. specialize (Hc y Hy). apply not_elem_of_union. split; [| done]. apply not_elem_of_singleton. intros E. apply Hd1. rewrite <- E.
    apply list_elem_of_fmap. by exists y.
Qed.

Lemma populate_gotos l steps gotos : Forall (names XE_SECTOR_GOTO) l ->
  populateAll m l.*2 (mkPopulate steps gotos ∅) = Some (mkPopulate steps (list_to_set l.*1 ∪ gotos) ∅).
Proof.
  revert gotos. induction l as [|x l IH]; intros gotos Hn; [cbn; by rewrite union_empty_l_L |].
  apply Forall_cons_1 in Hn as [Hx Hn]. cbn [fmap list_fmap]. rewrite populateAll_cons, populate_goto, decide_True by done. cbn [mbind option_bind]. rewrite IH by done.
  do 2 f_equal. cbn. set_solver.
Qed.

(** The run that a stage ends with is added when the next one begins. *)
Definition pending (steps : list BootSequenceStep) (prev : list CoreRef) : list BootSequenceStep := if decide (prev = []) then steps else steps ++ [StepRun (zlength prev)].

Lemma zsize_list (l : list CoreRef) : NoDup l -> zsize (list_to_set l) = zlength l.
Proof. intros. unfold zsize. by rewrite size_list_to_set. Qed.

(** The executables at the beginning of a stage. *)
Lemma populate_stage_loads prev l steps : NoDup prev -> Forall (names XE_SECTOR_ELF) l -> l <> [] -> (prev = [] \/ exists x l', l = x :: l' /\ x.1 ∈ prev) ->
  populateAll m l.*2 (mkPopulate steps ∅ (list_to_set prev)) = Some (mkPopulate (pending steps prev ++ elfSteps l) ∅ ∅).
Proof.
  intros Hd Hn Hne [-> | (x & l' & -> & Hx)].
  - apply (populate_loads l steps ∅); [done |]. apply Forall_true. set_solver.
  - apply Forall_cons_1 in Hn as [Hx1 Hn]. cbn [fmap list_fmap]. rewrite populateAll_cons, populate_elf, decide_True by (done || by apply elem_of_list_to_set). cbn [mbind option_bind].
    rewrite populate_loads by (done || (apply Forall_true; set_solver)). unfold pending. rewrite decide_False by (intros ->; by apply elem_of_nil in Hx). rewrite zsize_list by done.
    by rewrite <- !app_assoc.
Qed.

Lemma populate_stage prev g steps : NoDup prev -> stage_ok XE_SECTOR_CALL g -> (prev = [] \/ follows prev XE_SECTOR_CALL g) ->
  populateAll m (stageSectors g) (mkPopulate steps ∅ (list_to_set prev)) = Some (mkPopulate (pending steps prev ++ elfSteps (loads g)) ∅ (list_to_set (starts g).*1)).
Proof.
  intros Hd [H1 H2 H3 H4] Hf. unfold stageSectors. rewrite populateAll_app. unfold follows in Hf. destruct (loads g) as [|x l] eqn:El.
  - cbn [fmap list_fmap]. change (populateAll m [] ?p) with (Some p). cbn [mbind option_bind]. destruct (starts g) as [|x l]; [done |].
    destruct Hf as [-> | Hf].
    + rewrite list_to_set_nil, (populate_calls (x :: l)); [| done | done | apply Forall_true; set_solver]. cbn [elfSteps fmap list_fmap]. by rewrite app_nil_r, union_empty_r_L.
    + change (XE_SECTOR_CALL =? XE_SECTOR_GOTO) with false in Hf. cbn iota in Hf. apply Forall_cons_1 in H2 as [Hx H2]. cbn [fmap list_fmap] in *. apply NoDup_cons in H3 as [Hx1 H3].
      rewrite populateAll_cons, populate_call, decide_True by (done || by apply elem_of_list_to_set). cbn [mbind option_bind]. rewrite populate_calls; [| done | done |].
      * unfold pending. rewrite decide_False by (intros ->; by apply elem_of_nil in Hf). rewrite zsize_list by done. cbn [elfSteps fmap list_fmap]. rewrite app_nil_r. do 2 f_equal. cbn. set_solver.
      * rewrite Forall_forall. intros y Hy. apply not_elem_of_singleton. intros E. apply Hx1. rewrite <- E. apply list_elem_of_fmap. by exists y.
  - rewrite (populate_stage_loads prev (x :: l)); [| done | done | done | destruct Hf; [by left | right; by exists x, l]]. cbn [mbind option_bind].
    rewrite populate_calls; [| done | done | apply Forall_true; set_solver]. by rewrite union_empty_r_L.
Qed.

Lemma populate_stages l : forall prev steps last, NoDup prev -> stages_ok prev l last ->
  lastRun <$> populateAll m (concat (stageSectors <$> l) ++ stageSectors last) (mkPopulate steps ∅ (list_to_set prev)) =
    Some (pending steps prev ++ concat (stageSteps <$> l) ++ stageSteps last).
Proof.
  induction l as [|g l IH]; intros prev steps last Hd Hok; cbn [fmap list_fmap concat app stages_ok] in *.
  - destruct Hok as [[H1 H2 H3 H4] Hf]. unfold stageSectors. rewrite populateAll_app.
    assert (exists gs, populateAll m (loads last).*2 (mkPopulate steps ∅ (list_to_set prev)) ≫= populateAll m (starts last).*2 =
      Some (mkPopulate (pending steps prev ++ elfSteps (loads last)) gs ∅) /\ gs = list_to_set (starts last).*1) as (gs & -> & ->).
    { eexists. split; [| reflexivity]. unfold follows in Hf. destruct (loads last) as [|x l] eqn:El.
      - cbn [fmap list_fmap]. change (populateAll m [] ?p) with (Some p). cbn [mbind option_bind]. destruct (starts last) as [|x l]; [done |]. apply Forall_cons_1 in H2 as [Hx H2].
        cbn [fmap list_fmap] in *. rewrite populateAll_cons, populate_goto by done. cbn [mbind option_bind]. rewrite populate_gotos by done. cbn [elfSteps fmap list_fmap]. rewrite app_nil_r.
        unfold pending. do 2 f_equal; [| set_solver]. destruct prev as [|p prev]; [by rewrite !decide_True |]. rewrite decide_False by set_solver. rewrite decide_False by done. by rewrite zsize_list.
      - rewrite (populate_stage_loads prev (x :: l)); [| done | done | done | destruct Hf; [by left | right; by exists x, l]]. cbn [mbind option_bind].
        rewrite populate_gotos by done. by rewrite union_empty_r_L. }
    cbn [fmap option_fmap option_map]. unfold lastRun. cbn [gotoSectors callSectors pp_steps]. destruct (starts last) as [|x l] eqn:Es; [done |].
    rewrite bool_decide_eq_false_2 by (cbn; set_solver). cbn [negb]. unfold addRun, stageSteps. rewrite <- Es in *. rewrite zsize_list, length_fmap by done. by rewrite app_assoc.
  - destruct Hok as (Hg & Hf & Hok). rewrite <- app_assoc, populateAll_app, (populate_stage prev g) by done. cbn [mbind option_bind].
    rewrite IH by (done || exact (sg_cores _ _ Hg)). f_equal. unfold pending at 1. rewrite decide_False by (intros E; apply (sg_some _ _ Hg); by destruct (starts g)).
    change (stageSteps g) with (elfSteps (loads g) ++ [StepRun (zlength (starts g))]). rewrite length_fmap. by rewrite <- !app_assoc.
Qed.
End populate.

(** C16: The steps made of a file are its stages in order: for each stage the executables are loaded and then the cores run until as many of them as the stage starts
    are done, whether the cores are started by calls or, in the last stage, by jumps.  A stage may load any number of executables and start any number of
    different cores; each later one has to begin with a core that was started in the one before, which is how the end of a
    stage is recognised. *)
Theorem boot_stages (nodes : BootNodes) (l : list Stage) (last : Stage) : stages_ok (addToCoreMap nodes) [] l last ->
  populateFromXE nodes (concat (stageSectors <$> l) ++ stageSectors last) [] = Some (concat (stageSteps <$> l) ++ stageSteps last).
Proof.
  intros Hok. pose proof (populate_stages (addToCoreMap nodes) l [] [] last ltac:(constructor) Hok) as E. unfold populateFromXE. cbn [list_to_set] in E.
  change (list_to_set []) with (∅ : gset CoreRef) in E. by destruct (populateAll _ _ _) as [x|].
Qed.

(** Two nodes, one with two cores; a program that is called on all of them and one that is jumped to. *)
Definition twoNodes : BootNodes := [Some (0, 2%nat); None; Some (1, 1%nat)].
Definition sectorFor (ty n c : Z) : XESector := mkSector 0 ty 0 (Some (mkTarget n c 0)).
Definition stageFor (ty : Z) (l : list (CoreRef * (Z * Z))) : Stage :=
  mkStage ((fun x => (x.1, sectorFor XE_SECTOR_ELF x.2.1 x.2.2)) <$> l) ((fun x => (x.1, sectorFor ty x.2.1 x.2.2)) <$> l).

Lemma boot_stages_witness :
  let first := stageFor XE_SECTOR_CALL [((0, 0)%nat, (0, 0)); ((0, 1)%nat, (0, 1)); ((2, 0)%nat, (1, 0))] in let last := stageFor XE_SECTOR_GOTO [((0, 1)%nat, (0, 1))] in
  populateFromXE twoNodes (stageSectors first ++ stageSectors last) [] = Some (stageSteps first ++ stageSteps last).
Proof.
  intros first last. pose proof (boot_stages twoNodes [first] last) as H. cbn [fmap list_fmap concat] in H. rewrite !app_nil_r in H. apply H.
  assert (forall ty l, (forall x, x ∈ l -> addToCoreMap twoNodes !! x.2 = Some x.1) -> NoDup l.*1 -> l <> [] -> stage_ok (addToCoreMap twoNodes) ty (stageFor ty l)) as Hs.
  { intros ty l Hl Hd Hne. split; cbn.
    - apply Forall_forall. intros y Hy. apply list_elem_of_fmap in Hy as ([c [n k]] & -> & Hy). split; [done |]. eexists. split; [done |]. exact (Hl _ Hy).
    - apply Forall_forall. intros y Hy. apply list_elem_of_fmap in Hy as ([c [n k]] & -> & Hy). split; [done |]. eexists. split; [done |]. exact (Hl _ Hy).
    - rewrite <- list_fmap_compose. exact Hd.
    - by destruct l. }
  split; [| split; [by left | split; [| right]]].
  - apply Hs; [| repeat constructor; set_solver | done]. intros x Hx. do 3 (apply elem_of_cons in Hx as [Hx | Hx]; [subst x; vm_compute; reflexivity |]). by apply elem_of_nil in Hx.
  - apply Hs; [| repeat constructor; set_solver | done]. intros x Hx. apply list_elem_of_singleton in Hx. subst x. vm_compute. reflexivity.
  - cbn. right. by left.
Defined.

(** ** Booting from a flash memory *)

Definition romSteps (romBase : CoreRef -> Z) (l : list (CoreRef * XESector)) : list BootSequenceStep :=
  concat ((fun x => [StepElf false false x.1 x.2; StepSchedule x.1 (romBase x.1)]) <$> l).

Lemma penultimate_skip l1 l2 rest count : Forall (fun s => isRun s = false) l2 -> penultimate (l1 ++ l2 ++ rest) (length l1 + length l2) count = penultimate (l1 ++ l2 ++ rest) (length l1) count.
Proof.
  intros Hl. induction l2 as [|x l2 IH] using rev_ind in rest, Hl |- *; [by rewrite Nat.add_0_r |]. apply Forall_app in Hl as [Hl Hx]. apply Forall_cons_1 in Hx as [Hx _].
  rewrite length_app, Nat.add_1_r, Nat.add_succ_r, <- (app_assoc l2). cbn [penultimate app].
  rewrite lookup_app_r, lookup_app_r by lia. replace (length l1 + length l2 - length l1 - length l2)%nat with 0%nat by lia. cbn [lookup list_lookup].
  rewrite (IH (x :: rest) Hl). by destruct x.
Qed.

Lemma getPenultimate_two pre a mid b : Forall (fun s => isRun s = false) mid ->
  getPenultimateRunStep (pre ++ StepRun a :: mid ++ [StepRun b]) = Some (length pre).
Proof.
  intros Hm. unfold getPenultimateRunStep. set (l := pre ++ StepRun a :: mid ++ [StepRun b]).
  assert (l = (pre ++ [StepRun a]) ++ mid ++ [StepRun b]) as El by (unfold l; by rewrite <- app_assoc).
  assert (length l = S (length (pre ++ [StepRun a]) + length mid)) as -> by (rewrite El, !length_app; cbn; lia).
  cbn [penultimate]. assert (l !! (length (pre ++ [StepRun a]) + length mid)%nat = Some (StepRun b)) as ->.
  { rewrite El, lookup_app_r, lookup_app_r by lia. by replace (_ - _ - _)%nat with 0%nat by lia. }
  cbn [Nat.eqb]. rewrite El, penultimate_skip by done. rewrite length_app, Nat.add_1_r. cbn [penultimate].
  rewrite <- app_assoc, lookup_app_r, Nat.sub_diag by lia. done.
Qed.

Lemma erase_two pre a mid b : Forall (fun s => isRun s = false) mid -> eraseAllButLastImage (pre ++ StepRun a :: mid ++ [StepRun b]) = StepRun a :: mid ++ [StepRun b].
Proof. intros Hm. unfold eraseAllButLastImage. by rewrite getPenultimate_two, drop_app_length by done. Qed.

Lemma adjust_elfs romBase l n : setLoadImages false (setEntryPointToRom romBase (elfSteps l ++ [StepRun n])) = romSteps romBase l ++ [StepRun n].
Proof.
  unfold setLoadImages, setEntryPointToRom, romSteps, elfSteps. induction l as [|x l IH]; [done |]. cbn [fmap list_fmap concat app] in *. by rewrite IH.
Qed.

Lemma adjust_two romBase pre a l b :
  adjustForSPIBoot romBase (pre ++ StepRun a :: elfSteps l ++ [StepRun b]) = StepRun a :: romSteps romBase l ++ [StepRun b].
Proof.
  unfold adjustForSPIBoot. rewrite erase_two; [| apply Forall_fmap, Forall_true; done].
  change (setEntryPointToRom romBase (StepRun a :: elfSteps l ++ [StepRun b])) with (StepRun a :: setEntryPointToRom romBase (elfSteps l ++ [StepRun b])).
  cbn [setLoadImages fmap list_fmap]. by rewrite <- adjust_elfs.
Qed.

Section spi.
Context `{PortEnv} `{Jit Ports} {W E : Type} `{Host W} `{ElfLib E}.
Context (junk : Operands) (fuel portFuel : nat) (dev_run : nat -> Z -> M (Sys Ports) (option (Z * Z))).

Lemma exec_bind {S A B} (m : M S A) (k : A -> M S B) s s' a : m s = Some (s', a) -> (m ≫= k) s = k a s'.
Proof. unfold mbind, M_bind. by intros ->. Qed.

(** A run with nothing to run. *)
Lemma run_idle n m k (s : ExecutionState Ports W E) : RunnableQueue.empty (scheduler (ex_sys s)) = true -> ex_breakpoints s = ∅ -> exists s',
  run_execute junk fuel portFuel dev_run (S n) (S m) k s = Some (s', Some (Status 1)) /\ ex_sys s' = ex_sys s.
Proof.
  intros Hq Hb. unfold run_execute, unsetBreakpoints. destruct s as [y bs h es sy st w]. cbn in *. subst bs.
  unfold mbind, M_bind, modify, gets, onSys, lift, mret, M_ret. cbn. unfold system_step, getLatestThreadTime, mbind, M_bind, modify, gets, mret, M_ret. cbn. rewrite Hq. cbn.
  eexists. split; [reflexivity | done].
Qed.

(** C17: A program of more than one stage does not boot from a flash memory.  When the steps of a file with at least one stage before the last one are adjusted for it,
    the run of the stage before the last is kept in front of the executables of the last stage.  Executing the steps on a
    system in which nothing is scheduled then ends in that run with status 1, before anything is loaded or started. *)
Theorem spi_boot_stops (romBase : CoreRef -> Z) (l : list Stage) (g last : Stage) :
  let steps := adjustForSPIBoot romBase (concat (stageSteps <$> (l ++ [g])) ++ stageSteps last) in
  steps = StepRun (zlength (starts g)) :: romSteps romBase (loads last) ++ [StepRun (zlength (starts last))] /\
  forall n m (s : ExecutionState Ports W E), RunnableQueue.empty (scheduler (ex_sys s)) = true -> ex_breakpoints s = ∅ ->
    exists s', boot_execute junk fuel portFuel dev_run (S n) (S m) steps s = Some (s', Some (Status 1)) /\ ex_sys s' = ex_sys s.
Proof.
  intros steps. assert (steps = StepRun (zlength (starts g)) :: romSteps romBase (loads last) ++ [StepRun (zlength (starts last))]) as Es.
  { unfold steps. rewrite fmap_app, concat_app. cbn [fmap list_fmap concat]. rewrite app_nil_r. unfold stageSteps at 2 3.
    rewrite <- !app_assoc. cbn [app]. rewrite app_assoc. apply adjust_two. }
  split; [done |]. intros n m s Hq Hb. rewrite Es. unfold boot_execute.
  destruct (run_idle n m (zlength (starts g)) (set_elfs ∅ s)) as (s' & Er & Ey); [done | done |].
  exists s'. split; [| by rewrite Ey]. rewrite (exec_bind _ _ s (set_elfs ∅ s) tt) by done. cbn [boot_loop step_execute]. by rewrite (exec_bind _ _ _ _ _ Er).
Qed.
End spi.

(** A system without cores, a host and an ELF library on which nothing works. *)
#[local] Instance noHost : Host unit := {|
  host_dup fd w := (w, fd); host_open _ _ _ w := (w, -1); host_close _ w := (w, -1); host_read _ _ w := (w, (-1, [])); host_write _ _ w := (w, -1);
  host_lseek _ _ _ w := (w, -1); host_rename _ _ w := (w, -1); host_remove _ w := (w, -1); host_system _ w := (w, -1); host_time w := (w, -1);
  host_loadImage _ b _ _ w := Some (w, (false, b));
  O_RDONLY := 0; O_WRONLY := 1; O_RDWR := 2; O_CREAT := 64; O_TRUNC := 512; O_APPEND := 1024;
  S_IREAD := 256; S_IWRITE := 128; S_IEXEC := 64; SEEK_CUR := 1; SEEK_END := 2; SEEK_SET := 0 |}.
#[local] Instance noElf : ElfLib unit := {| elf_memory _ := None; elf_isElf _ := false; elf_getehdr _ := None; elf_getphdr _ _ := None; elf_symtab _ := None |}.
Definition emptySystem : Sys Ports := mkSys [] ∅ (mkState [] [] [] None 0 0 false) ∅ ∅ ∅ ∅ ∅ ∅ ∅ ∅ (idleQueue []) None None (mkPorts ∅ ∅).
Definition emptyExecution : ExecutionState Ports unit unit := mkExecution emptySystem ∅ (mkHandler [] ∅ 0 [] 0) ∅ ∅ (at_ [] 0) tt.

Lemma spi_boot_stops_witness :
  let g := stageFor XE_SECTOR_CALL [((0, 0)%nat, (0, 0))] in let last := stageFor XE_SECTOR_GOTO [((0, 0)%nat, (0, 0))] in
  exists s', boot_execute (H := noDevices) (H0 := noCompiler) [] 1 1 (fun _ _ => mret None) 1 1 (adjustForSPIBoot (fun _ => 0xffffc000) (stageSteps g ++ stageSteps last)) emptyExecution =
    Some (s', Some (Status 1)) /\ ex_sys s' = emptySystem.
Proof.
  intros g last. destruct (spi_boot_stops (H := noDevices) (H0 := noCompiler) [] 1 1 (fun _ _ => mret None) (fun _ => 0xffffc000) [] g last) as [_ H].
  cbn [app fmap list_fmap concat] in H. rewrite app_nil_r in H. apply (H 0%nat 0%nat emptyExecution); reflexivity.
Defined.

(** ** The memory after loading *)

(** The bytes that a write leaves. *)
Lemma blit_lookup src p m m' x : blit src p m = Some m' -> 0 <= x ->
  array_get m' x = if decide (p <= x < p + zlength src) then array_get src (x - p) else array_get m x.
Proof.
  unfold blit, assert. destruct (Z.leb_spec 0 p), (Z.leb_spec (p + zlength src) (zlength m)); cbn; try done. intros [= <-] Hx. unfold array_get.
  rewrite (proj2 (Z.leb_le 0 x)) by done. destruct (decide (p <= x < p + zlength src)) as [Hi|Hi].
  - rewrite (proj2 (Z.leb_le 0 (x - p))) by lia. rewrite lookup_app_r by (rewrite length_take; lia). rewrite length_take, lookup_app_l by lia. f_equal. lia.
  - destruct (decide (x < p)).
    + rewrite lookup_app_l by (rewrite length_take; lia). apply lookup_take_lt. lia.
    + rewrite lookup_app_r by (rewrite length_take; lia). rewrite length_take, lookup_app_r, lookup_drop by lia. f_equal. lia.
Qed.

(** A core whose cached instructions are covered by their marks, and the change of its bytes from [a] to [a + n] to those of [f]. *)
Record rewritten (ext : Z -> Z) (a : Z) (bytes : list Z) (k k' : Core) : Prop := {
  rw_wf : core_wf k';
  rw_covered : covered ext k';
  rw_place : getRamBase k' = getRamBase k /\ getRamSize k' = getRamSize k;
  rw_bytes : forall x, getRamBase k <= x ->
    loadRamByte k' x = if decide (a <= x < a + zlength bytes) then array_get bytes (x - a) else loadRamByte k x;
  rw_live : forall pc e, live k' pc e -> live k pc e;
  rw_gone : forall pc e x, live k' pc e -> a <= x < a + zlength bytes -> ~ (2 * pc <= x - getRamBase k < 2 * (pc + ext pc))
}.

Lemma writeMemory_rewritten ext k a bytes : core_wf k -> covered ext k -> 0 < zlength bytes -> getRamBase k <= a -> a + zlength bytes < getRamBase k + getRamSize k ->
  exists k', writeMemory a bytes k = Some (k', true) /\ rewritten ext a bytes k k'.
Proof.
  intros Wk K Hl Hb He. destruct (ram_size_shorts k Wk) as [Hz ?]. destruct (ram_base_half k Wk) as (_ & ? & ?). pose proof (cw_memory k Wk) as Hm. pose proof (cw_memoryOffset k Wk) as Ho.
  unfold writeMemory. rewrite (proj2 (Z.eqb_neq _ _)) by lia.
  assert (memoryRangeRefused k a (zlength bytes) = false) as ->.
  { unfold memoryRangeRefused. rewrite Hz, (wrap_small 32 (getRamBase k + _)), (wrap_small 64 (a + _)) by (unfold fits in *; lia).
    by rewrite (proj2 (Z.ltb_ge _ _)), (proj2 (Z.leb_gt _ _)) by lia. }
  rewrite Ho. destruct (blit_read bytes (a - getRamBase k) (memory k)) as (m & Em & Lm & _); [lia.. |]. rewrite Em. cbn [mbind option_bind].
  rewrite (wrap_small 32 (a + zlength bytes)) by (unfold fits; lia).
  destruct (invalidateRange_flushed ext (set_memory m k)) with (begin := a) (end_ := a + zlength bytes) as (k' & b & -> & F);
    [by apply MemoryAccess.set_memory_wf | done | done | lia | change (a + zlength bytes <= getRamBase k + 2 * size k); lia |].
  cbn [mbind option_bind]. exists k'. split; [done |]. pose proof (same_fields _ _ (fl_same _ _ _ _ _ F)) as Sf. destruct_and! Sf.
  split; [apply F | apply F | done | | apply F | apply F].
  intros x Hx. unfold loadRamByte. replace (memory k') with m by (symmetry; done). replace (memoryOffset k') with (getRamBase k) by (rewrite <- Ho; symmetry; done).
  rewrite Ho, (blit_lookup _ _ _ _ _ Em) by lia. destruct (decide (a <= x < a + zlength bytes)); [rewrite decide_True by lia; f_equal; lia | by rewrite decide_False by lia].
Qed.

Section segments.
Context {W E : Type} `{ElfLib E}.
Context (ext : Z -> Z) (c : CoreRef) (base_ size_ : Z) (l : LoadedElf E) (elfSize : Z).

(** A segment with nothing in the file, or one that is in the file and in the memory, apart from its last byte. *)
Definition segment_ok (p : Phdr) : Prop :=
  p_filesz p = 0 \/
  0 < p_filesz p <= p_memsz p /\ 0 <= p_offset p <= elfSize /\ p_offset p + p_filesz p <= zlength (elf_buf l) /\
  base_ <= p_paddr p /\ p_paddr p + p_memsz p < base_ + size_.

Definition segment_has (p : Phdr) (a : Z) : Prop := p_paddr p <= a < p_paddr p + p_filesz p.
Definition segments_disjoint (p q : Phdr) : Prop := forall a, segment_has p a -> ~ segment_has q a.

(** The core in the state, with the memory in place. *)
Record holds (k : Core) (s : ExecutionState Ports W E) : Prop := {
  hd_core : sys_cores (ex_sys s) !! c = Some k;
  hd_wf : core_wf k;
  hd_covered : covered ext k;
  hd_place : getRamBase k = base_ /\ getRamSize k = size_
}.

(** The segments are in memory, what is outside of them has not changed, and no cached instruction is left over them. *)
Record loaded (phs : list Phdr) (k k' : Core) : Prop := {
  ld_bytes : forall p a, p ∈ phs -> segment_has p a -> loadRamByte k' a = array_get (elf_buf l) (p_offset p + (a - p_paddr p));
  ld_rest : forall a, base_ <= a -> Forall (fun p => ~ segment_has p a) phs -> loadRamByte k' a = loadRamByte k a;
  ld_live : forall pc e, live k' pc e -> live k pc e;
  ld_gone : forall p pc e x, p ∈ phs -> live k' pc e -> segment_has p x -> ~ (2 * pc <= x - base_ < 2 * (pc + ext pc))
}.

Lemma load_one p k s : holds k s -> segment_ok p -> p_filesz p <> 0 -> exists k' bytes,
  fileBytes (elf_buf l) (p_offset p) (p_filesz p) = Some bytes /\ writeMemory (u32 (p_paddr p)) bytes k = Some (k', true) /\
  isValidRamAddress k (u32 (p_paddr p)) && isValidRamAddress k (u32 (p_paddr p + p_memsz p)) = true /\ rewritten ext (p_paddr p) bytes k k' /\
  zlength bytes = p_filesz p /\ (forall i, 0 <= i < p_filesz p -> array_get bytes i = array_get (elf_buf l) (p_offset p + i)).
Proof.
  intros [Hc Wk K [Hb Hz]] [|(F1 & F2 & F3 & F4 & F5)] Hne; [done |]. destruct (ram_size_shorts k Wk) as [Hz2 ?]. destruct (ram_base_half k Wk) as (_ & ? & ?).
  set (bytes := take (Z.to_nat (p_filesz p)) (drop (Z.to_nat (p_offset p)) (elf_buf l))).
  assert (zlength bytes = p_filesz p) as Hl by (unfold bytes; rewrite length_take, length_drop; lia).
  destruct (writeMemory_rewritten ext k (p_paddr p) bytes Wk K) as (k' & E1 & R); [lia.. |]. exists k', bytes.
  rewrite !wrap_small by (unfold fits; lia). split_and!; [| done | | done | done |].
  - unfold fileBytes, assert. by rewrite (proj2 (Z.leb_le 0 _)), (proj2 (Z.leb_le (_ + _) _)) by lia.
  - apply andb_true_intro. split; apply (MemoryAccess.valid_ram_address k _ Wk); lia.
  - intros i Hi. unfold array_get. rewrite !(proj2 (Z.leb_le 0 _)) by lia. unfold bytes. rewrite lookup_take_lt, lookup_drop by lia. f_equal. lia.
Qed.

Lemma loaded_skip p phs k k' : p_filesz p = 0 -> loaded phs k k' -> loaded (p :: phs) k k'.
Proof.
  intros Hp [L1 L2 L3 L4]. assert (forall a, ~ segment_has p a) as Hno by (unfold segment_has; lia). split.
  - intros q a Hq Ha. apply elem_of_cons in Hq as [-> | Hq]; [by apply Hno in Ha | by apply L1].
  - intros a Ha Hf. apply Forall_cons_1 in Hf as [_ Hf]. by apply L2.
  - done.
  - intros q pc e x Hq Hl Hx. apply elem_of_cons in Hq as [-> | Hq]; [by apply Hno in Hx | by eapply L4].
Qed.

Lemma loaded_cons p phs k k1 k' bytes : getRamBase k = base_ -> base_ <= p_paddr p -> rewritten ext (p_paddr p) bytes k k1 -> zlength bytes = p_filesz p ->
  (forall i, 0 <= i < p_filesz p -> array_get bytes i = array_get (elf_buf l) (p_offset p + i)) ->
  Forall (segments_disjoint p) phs -> loaded phs k1 k' -> loaded (p :: phs) k k'.
Proof.
  intros Hb Hp [R1 R2 R3 R4 R5 R6] Hl Hbytes Hd [L1 L2 L3 L4]. split.
  - intros q a Hq Ha. apply elem_of_cons in Hq as [-> | Hq]; [| by apply L1]. rewrite L2 by (unfold segment_has in Ha; lia || (eapply Forall_impl; [exact Hd |]; intros q Hq; by apply Hq)).
    unfold segment_has in Ha. rewrite R4, decide_True, Hbytes by lia. done.
  - intros a Ha Hf. apply Forall_cons_1 in Hf as [Hf1 Hf2]. rewrite L2 by done. unfold segment_has in Hf1. by rewrite R4, decide_False by lia.
  - auto.
  - intros q pc e x Hq Hlv Hx. apply elem_of_cons in Hq as [-> | Hq]; [| by eapply L4]. unfold segment_has in Hx. rewrite <- Hb. apply (R6 pc e); [by apply L3 | lia].
Qed.

Lemma loadSegments_loaded phs : forall i k s, holds k s -> Forall segment_ok phs -> ForallOrdPairs segments_disjoint phs ->
  (forall j p, phs !! j = Some p -> elf_getphdr (elf_ l) (i + Z.of_nat j) = Some p) ->
  exists s' k', loadSegments (length phs) i l elfSize c s = Some (s', true) /\ holds k' s' /\ loaded phs k k'.
Proof.
  induction phs as [|p phs IH]; intros i k s Hh Hok Hd Hph; cbn [length loadSegments].
  - exists s, k. split; [done |]. split; [done |]. split; try done; [intros p a Hp; by apply elem_of_nil in Hp | intros p pc e x Hp; by apply elem_of_nil in Hp].
  - apply Forall_cons_1 in Hok as [Hp Hok]. inversion Hd as [| ? ? D1 D2]; subst. pose proof (Hph 0%nat p eq_refl) as Hp0. replace (i + Z.of_nat 0) with i in Hp0 by lia. rewrite Hp0.
    assert (forall j q, phs !! j = Some q -> elf_getphdr (elf_ l) (i + 1 + Z.of_nat j) = Some q) as Hph' by (intros j q Hq; rewrite <- (Hph (S j) q Hq); f_equal; lia).
    destruct (Z.eqb_spec (p_filesz p) 0) as [E0|E0].
    + destruct (IH (i + 1) k s Hh Hok D2 Hph') as (s' & k' & -> & Hh' & L). exists s', k'. split; [done |]. split; [done |]. by apply loaded_skip.
    + destruct (load_one p k s Hh Hp E0) as (k1 & bytes & Ef & Ew & Ev & R & Hl & Hb). destruct Hp as [|(F1 & F2 & F3 & F4 & F5)]; [done |].
      rewrite (proj2 (Z.ltb_ge _ _)) by lia. pose proof Hh as [Hc Wk K [Hba Hz]].
      set (s1 := mkExecution (set_sys_cores (<[c := k1]> (sys_cores (ex_sys s))) (ex_sys s)) (ex_breakpoints s) (ex_handler s) (ex_elfs s) (ex_symbols s) (ex_stream s) (ex_world s)).
      destruct (IH (i + 1) k1 s1) as (s' & k' & E1 & Hh' & L); [| done | done | done |].
      { split; [cbn; by rewrite lookup_insert_eq | apply R | apply R |]. destruct R as [_ _ [-> ->]]. done. }
      exists s', k'. split; [| split; [done | by eapply (loaded_cons p phs k k1)]].
      cbv iota. erewrite exec_bind; [| unfold onSys, SysState.core, mbind, M_bind, get, lift; cbn; by rewrite Hc]. rewrite Ev. cbv iota.
      erewrite exec_bind; [| unfold lift; by rewrite Ef]. erewrite exec_bind; [| unfold lift; by rewrite Ew].
      cbv iota beta zeta. erewrite exec_bind; [exact E1 | reflexivity].
Qed.
End segments.

(** C15: Loading an executable puts its segments into the memory: for any number of program headers whose segments do not overlap and end before the last byte of the RAM,
    the loop over them succeeds, every byte of a segment that is in the file is afterwards at its physical address, the rest
    of the memory has not changed, and the decode cache holds no instruction that was decoded from the bytes that have been written. *)
Theorem elf_segments_loaded {W E : Type} `{ElfLib E} (ext : Z -> Z) (c : CoreRef) (k : Core) (l : LoadedElf E) (elfSize : Z) (phs : list Phdr)
    (s : ExecutionState Ports W E) :
  sys_cores (ex_sys s) !! c = Some k -> core_wf k -> covered ext k -> Forall (segment_ok (getRamBase k) (getRamSize k) l elfSize) phs ->
  ForallOrdPairs segments_disjoint phs -> (forall i p, phs !! i = Some p -> elf_getphdr (elf_ l) (Z.of_nat i) = Some p) ->
  exists s' k', loadSegments (length phs) 0 l elfSize c s = Some (s', true) /\ sys_cores (ex_sys s') !! c = Some k' /\ core_wf k' /\ covered ext k' /\
    loaded ext (getRamBase k) l phs k k'.
Proof.
  intros Hc Wk K Hok Hd Hph. destruct (loadSegments_loaded ext c (getRamBase k) (getRamSize k) l elfSize phs 0 k s) as (s' & k' & Hl & [H1' H2' H3' _] & L); try done.
  exists s', k'. done.
Qed.

(** An ELF library whose files are lists of program headers, and a system with one core. *)
#[local] Instance headersElf : ElfLib (list Phdr) :=
  {| elf_memory _ := None; elf_isElf _ := true; elf_getehdr _ := None; elf_getphdr e i := e !! Z.to_nat i; elf_symtab _ := None |}.
Definition oneCore (k : Core) : ExecutionState Ports unit (list Phdr) :=
  mkExecution (set_sys_cores {[ (0, 0)%nat := k ]} emptySystem) ∅ (mkHandler [] ∅ 0 [] 0) ∅ ∅ (at_ [] 0) tt.

Lemma elf_segments_loaded_witness : exists k, newCore (2 ^ 6) (2 ^ 6) false (fun _ => 0) 1 = Some k /\
  let phs := [mkPhdr 2 66 66 3 8; mkPhdr 0 0 0 0 0] in exists s' k',
  loadSegments 2 0 (mkLoadedElf [9; 9; 1; 2; 3; 9] phs) 6 (0, 0)%nat (oneCore k) = Some (s', true) /\ sys_cores (ex_sys s') !! (0, 0)%nat = Some k' /\ loadRamByte k' 67 = Some 2.
Proof.
  destruct (newCore_wf 6 false (fun _ => 0) 1) as (k & E & Wk & Hl & Hm & K & _); [lia |].
  assert (getRamBase k = 64 /\ getRamSize k = 64) as [Hb Hs] by (unfold getRamBase, getRamSize; rewrite Hl, Hm; split; reflexivity).
  exists k. split; [exact E |]. intros phs.
  destruct (elf_segments_loaded (fun _ => 1) (0, 0)%nat k (mkLoadedElf [9; 9; 1; 2; 3; 9] phs) 6 phs (oneCore k)) as (s' & k' & Hld & Hc & _ & _ & L).
  - reflexivity.
  - exact Wk.
  - apply K.
  - rewrite Hb, Hs. constructor; [right; cbn; lia | constructor; [by left | constructor]].
  - repeat constructor. unfold segments_disjoint, segment_has. cbn. lia.
  - intros i p Hp. cbn. by rewrite Nat2Z.id.
  - exists s', k'. split; [exact Hld |]. split; [exact Hc |]. rewrite (ld_bytes _ _ _ _ _ _ L (mkPhdr 2 66 66 3 8) 67); [reflexivity | left | unfold segment_has; cbn; lia].
Defined.
