(* ===== verification/Overtake.v ===== *)
(** * Packets that may overtake each other (lib/CheckPacketOvertakeTracer.cpp)

    A tracer that follows the instructions of threads and warns when a channel end has sent two packets with different
    contents without having received anything in between. *)

From Stdlib Require Import ZArith Lia.
From stdpp Require Import base list numbers option gmap.
From S2P Require Import Prelude Opcode InstrDecode Refs Resource RingBuffer.

#[local] Open Scope Z_scope.
#[local] Open Scope cbits_scope.

(** lib/CheckPacketOvertakeTracer.h:21-23 CheckPacketOvertakeTracer::PacketInfo *)
Abbreviation PacketInfo := (list Token).

(** lib/CheckPacketOvertakeTracer.h:17-27 CheckPacketOvertakeTracer: the channel ends have lists of packets *)
Record OvertakeTracer := mkTracer { tr_thread : option Ref; tr_pc : Z; processedInstruction : bool; chanEndMap : gmap Z (list PacketInfo) }.

(** lib/CheckPacketOvertakeTracer.cpp:30-33 CheckPacketOvertakeTracer::CheckPacketOvertakeTracer: the other members are not initialised *)
Definition newOvertakeTracer (pc : Z) (processed : bool) : OvertakeTracer := mkTracer None pc processed ∅.

(** lib/CheckPacketOvertakeTracer.cpp:35-41 CheckPacketOvertakeTracer::reportMismatch: a warning *)
Record Warning := mkWarning { wn_res : Z; wn_first : PacketInfo; wn_second : PacketInfo }.

Definition packetsOf (resID : Z) (m : gmap Z (list PacketInfo)) : list PacketInfo := default [] (m !! resID).

(** lib/CheckPacketOvertakeTracer.cpp:43-49 CheckPacketOvertakeTracer::handleInput *)
Definition handleInput (resID : Z) (m : gmap Z (list PacketInfo)) : gmap Z (list PacketInfo) :=
  if negb (isChanend resID) then m else <[resID := []]> m.

(** lib/CheckPacketOvertakeTracer.cpp:57-74 CheckPacketOvertakeTracer::handleOutput: the packets of the channel end and the packets that do not match *)
Definition addToken (token : Token) (l : list PacketInfo) : list PacketInfo * list (PacketInfo * PacketInfo) :=
  let l := if bool_decide (l = []) then [[]] else l in
  let init := take (length l - 1) l in
  let back := default [] (last l) in
  if isCtEnd token || isCtPause token then
    let current := if isCtPause token then back else back ++ [token] in
    let warn := match last init with
                | Some previous => if bool_decide (previous = current) then [] else [(previous, current)]
                | None => []
                end in
    (init ++ [current] ++ [[]], warn)
  else (init ++ [back ++ [token]], []).

(** lib/CheckPacketOvertakeTracer.cpp:51-75 CheckPacketOvertakeTracer::handleOutput *)
Definition handleOutput (resID : Z) (token : Token) (m : gmap Z (list PacketInfo)) : gmap Z (list PacketInfo) * list Warning :=
  if negb (isChanend resID) then (m, [])
  else
    let '(l, warn) := addToken token (packetsOf resID m) in
    (<[resID := l]> m, (fun x => mkWarning resID x.1 x.2) <$> warn).

(** One token after the other. *)
Fixpoint handleOutputs (resID : Z) (tokens : list Token) (m : gmap Z (list PacketInfo)) : gmap Z (list PacketInfo) * list Warning :=
  match tokens with
  | [] => (m, [])
  | t :: tokens => let '(m, w) := handleOutput resID t m in let '(m, w') := handleOutputs resID tokens m in (m, w ++ w')
  end.

(** lib/CheckPacketOvertakeTracer.cpp:77-141 CheckPacketOvertakeTracer::processInstruction: of a decoded instruction *)
Definition processInstruction (opcode : InstructionOpcode) (ops : Operands) (regs : list Z) (m : gmap Z (list PacketInfo)) : option (gmap Z (list PacketInfo) * list Warning) :=
  let reg i := array_get regs (OP i ops) in
  match opcode with
  | IN_2r | INCT_2r | INT_2r => resID ← reg 1%nat; Some (handleInput resID m, [])
  | CHKCT_2r | CHKCT_rus => resID ← reg 0%nat; Some (handleInput resID m, [])
  | OUT_2r =>
      resID ← reg 1%nat; data ← reg 0%nat;
      Some (handleOutputs resID
        [mkToken ((data .>> 24) .& 0xff) false; mkToken ((data .>> 16) .& 0xff) false; mkToken ((data .>> 8) .& 0xff) false; mkToken (data .& 0xff) false] m)
  | OUTCT_rus => resID ← reg 0%nat; Some (handleOutput resID (mkToken (u8 (OP 1 ops)) true) m)
  | OUTT_2r => resID ← reg 1%nat; v ← reg 0%nat; Some (handleOutput resID (mkToken (u8 v) false) m)
  | OUTCT_2r => resID ← reg 1%nat; v ← reg 0%nat; Some (handleOutput resID (mkToken (u8 v) true) m)
  | SETD_2r => resID ← reg 1%nat; Some (if negb (isChanend resID) then m else <[resID := []]> m, [])
  | _ => Some (m, [])
  end.

Section tracer.
(** What the instruction at an address of a core decodes to, and the registers of a thread. *)
Context (decode : Ref -> Z -> option (InstructionOpcode * Operands)) (regsOf : Ref -> list Z) (getRealPc : Ref -> Z).

(** lib/CheckPacketOvertakeTracer.cpp:143-149 CheckPacketOvertakeTracer::instructionBegin *)
Definition instructionBegin (t : Ref) (x : OvertakeTracer) : option OvertakeTracer :=
  _ ← assert (bool_decide (tr_thread x = None)); Some (mkTracer (Some t) (getRealPc t) false (chanEndMap x)).

Definition process (x : OvertakeTracer) : option (gmap Z (list PacketInfo) * list Warning) :=
  t ← tr_thread x;
  if processedInstruction x then Some (chanEndMap x, [])
  else '(opcode, ops) ← decode t (tr_pc x); processInstruction opcode ops (regsOf t) (chanEndMap x).

(** lib/CheckPacketOvertakeTracer.cpp:151-158 CheckPacketOvertakeTracer::instructionEnd *)
Definition instructionEnd (x : OvertakeTracer) : option (OvertakeTracer * list Warning) :=
  '(m, w) ← process x; Some (mkTracer None (tr_pc x) (processedInstruction x) m, w).

(** lib/CheckPacketOvertakeTracer.cpp:160-167 CheckPacketOvertakeTracer::regWrite *)
Definition regWrite (x : OvertakeTracer) : option (OvertakeTracer * list Warning) :=
  '(m, w) ← process x; Some (mkTracer (tr_thread x) (tr_pc x) true m, w).
End tracer.

(** ** What is reported *)

(** The packets in a sequence of tokens, an END being the last token of its packet and a PAUSE being left out; and the tokens after the last packet. *)
Fixpoint packets (acc : PacketInfo) (tokens : list Token) : list PacketInfo * PacketInfo :=
  match tokens with
  | [] => ([], acc)
  | t :: tokens =>
      if isCtPause t then let '(l, r) := packets [] tokens in (acc :: l, r)
      else if isCtEnd t then let '(l, r) := packets [] tokens in ((acc ++ [t]) :: l, r)
      else packets (acc ++ [t]) tokens
  end.

(** The neighbours in a list that differ. *)
Fixpoint mismatches (l : list PacketInfo) : list (PacketInfo * PacketInfo) :=
  match l with
  | p :: ((q :: _) as l') => (if bool_decide (p = q) then [] else [(p, q)]) ++ mismatches l'
  | _ => []
  end.

(** The tokens of one channel end, from given packets on. *)
Fixpoint addTokens (tokens : list Token) (l : list PacketInfo) : list PacketInfo * list (PacketInfo * PacketInfo) :=
  match tokens with
  | [] => (l, [])
  | t :: tokens => let '(l, w) := addToken t l in let '(l, w') := addTokens tokens l in (l, w ++ w')
  end.

Lemma not_both t : isCtPause t = true -> isCtEnd t = false.
Proof. unfold isCtPause, isCtEnd, CT_PAUSE, CT_END. destruct (isControl t), (Z.eqb_spec (tokenValue t) 2), (Z.eqb_spec (tokenValue t) 1); cbn; try done; congruence. Qed.

Lemma addToken_snoc t l acc : addToken t (l ++ [acc]) =
  if isCtEnd t || isCtPause t then
    let current := if isCtPause t then acc else acc ++ [t] in
    (l ++ [current; []], match last l with Some p => if bool_decide (p = current) then [] else [(p, current)] | None => [] end)
  else (l ++ [acc ++ [t]], []).
Proof.
  unfold addToken. rewrite bool_decide_eq_false_2 by (by destruct l). rewrite length_app, Nat.add_sub, take_app_length. by rewrite last_snoc.
Qed.

(** From completed packets [l] and a packet [acc] that is not complete. *)
Lemma addTokens_packets tokens : forall l acc, addTokens tokens (l ++ [acc]) =
  let '(ps, rest) := packets acc tokens in (l ++ ps ++ [rest], mismatches (option_list (last l) ++ ps)).
Proof.
  induction tokens as [|t tokens IH]; intros l acc; cbn [addTokens packets].
  - rewrite app_nil_r. by destruct (last l).
  - rewrite addToken_snoc. destruct (isCtPause t) eqn:Ep.
    + rewrite (not_both t Ep). cbn [orb]. change [acc; []] with ([acc] ++ [[]] : list PacketInfo). rewrite app_assoc, IH. destruct (packets [] tokens) as [ps rest].
      rewrite last_snoc, <- !app_assoc. f_equal. by destruct (last l).
    + destruct (isCtEnd t); cbn [orb].
      * change [acc ++ [t]; []] with ([acc ++ [t]] ++ [[]] : list PacketInfo). rewrite app_assoc, IH. destruct (packets [] tokens) as [ps rest].
        rewrite last_snoc, <- !app_assoc. f_equal. by destruct (last l).
      * rewrite IH. by destruct (packets (acc ++ [t]) tokens).
Qed.

Lemma addTokens_fresh tokens : (addTokens tokens []).2 = mismatches (packets [] tokens).1.
Proof.
  destruct tokens as [|t tokens]; [done |]. assert (addTokens (t :: tokens) [] = addTokens (t :: tokens) ([] ++ [[]])) as -> by reflexivity.
  rewrite addTokens_packets. by destruct (packets [] (t :: tokens)).
Qed.

Lemma handleOutputs_spec resID tokens : forall m, isChanend resID = true ->
  handleOutputs resID tokens m =
    (if decide (tokens = []) then m else <[resID := (addTokens tokens (packetsOf resID m)).1]> m,
     (fun x => mkWarning resID x.1 x.2) <$> (addTokens tokens (packetsOf resID m)).2).
Proof.
  induction tokens as [|t tokens IH]; intros m Hr; [done |]. cbn [handleOutputs addTokens]. unfold handleOutput. rewrite Hr. cbn [negb].
  destruct (addToken t (packetsOf resID m)) as [l w] eqn:Ea. rewrite IH by done. unfold packetsOf at 1 2. rewrite lookup_insert_eq. cbn [default].
  cbn [from_option id]. destruct (addTokens tokens l) as [l' w'] eqn:Et. cbn [fst snd]. rewrite fmap_app, (decide_False (P := t :: tokens = [])) by done. f_equal.
  destruct (decide (tokens = [])) as [-> |]; [cbn in Et; by simplify_eq |]. by rewrite insert_insert_eq.
Qed.

(** What happens at channel ends: tokens are sent, or something is received or the destination set. *)
Inductive Event := Sent (r : Z) (tokens : list Token) | Received (r : Z).

Fixpoint follow (l : list Event) (m : gmap Z (list PacketInfo)) : gmap Z (list PacketInfo) * list Warning :=
  match l with
  | [] => (m, [])
  | Sent r tokens :: l => let '(m, w) := handleOutputs r tokens m in let '(m, w') := follow l m in (m, w ++ w')
  | Received r :: l => follow l (handleInput r m)
  end.

(** The tokens that a channel end has sent, cut where it has received something. *)
Fixpoint unacknowledged (r : Z) (sent : list Token) (l : list Event) : list (list Token) :=
  match l with
  | [] => [sent]
  | Sent r' tokens :: l => unacknowledged r (if decide (r' = r) then sent ++ tokens else sent) l
  | Received r' :: l => if decide (r' = r) then sent :: unacknowledged r [] l else unacknowledged r sent l
  end.

Definition isOf (r : Z) (w : Warning) : Prop := wn_res w = r.
#[export] Instance isOf_dec r w : Decision (isOf r w) := decide (wn_res w = r).

Lemma addTokens_app a b l : addTokens (a ++ b) l = let '(l, w) := addTokens a l in let '(l, w') := addTokens b l in (l, w ++ w').
Proof.
  revert l. induction a as [|t a IH]; intros l; cbn [addTokens app]; [by destruct (addTokens b l) |]. destruct (addToken t l) as [l1 w1]. rewrite IH.
  destruct (addTokens a l1) as [l2 w2]. destruct (addTokens b l2) as [l3 w3]. by rewrite app_assoc.
Qed.

Lemma packetsOf_insert r r' l m : packetsOf r (<[r' := l]> m) = if decide (r' = r) then l else packetsOf r m.
Proof. unfold packetsOf. destruct (decide (r' = r)) as [-> |]; [by rewrite lookup_insert_eq | by rewrite lookup_insert_ne]. Qed.

Lemma handleOutputs_other r r' tokens m : isChanend r = true -> r' <> r ->
  packetsOf r (handleOutputs r' tokens m).1 = packetsOf r m /\ filter (isOf r) (handleOutputs r' tokens m).2 = [].
Proof.
  intros Hr Hne. destruct (isChanend r') eqn:Er'.
  - rewrite handleOutputs_spec by done. cbn [fst snd]. split.
    + destruct (decide (tokens = [])); [done |]. by rewrite packetsOf_insert, decide_False.
    + induction (addTokens tokens (packetsOf r' m)).2 as [|x l IH]; [done |]. cbn [fmap list_fmap]. rewrite filter_cons_False; [done |]. exact Hne.
  - assert (handleOutputs r' tokens m = (m, [])) as -> by (induction tokens as [|t tokens IH]; cbn; unfold handleOutput; rewrite ?Er'; cbn [negb]; [done | by rewrite IH]). done.
Qed.

Lemma filter_own r (l : list (PacketInfo * PacketInfo)) : filter (isOf r) ((fun x => mkWarning r x.1 x.2) <$> l) = (fun x => mkWarning r x.1 x.2) <$> l.
Proof. induction l as [|x l IH]; [done |]. cbn [fmap list_fmap]. rewrite filter_cons_True by done. by rewrite IH. Qed.

Lemma follow_own r l : isChanend r = true -> forall sent m, packetsOf r m = (addTokens sent []).1 ->
  ((fun x => mkWarning r x.1 x.2) <$> (addTokens sent []).2) ++ filter (isOf r) (follow l m).2 =
    (fun x => mkWarning r x.1 x.2) <$> concat ((fun seg => (addTokens seg []).2) <$> unacknowledged r sent l).
Proof.
  intros Hr. induction l as [|[r' tokens|r'] l IH]; intros sent m Hm; cbn [follow unacknowledged].
  - cbn. by rewrite !app_nil_r.
  - destruct (handleOutputs r' tokens m) as [m1 w1] eqn:E1. destruct (follow l m1) as [m2 w2] eqn:E2. cbn [snd]. rewrite filter_app. destruct (decide (r' = r)) as [-> | Hne].
    + rewrite handleOutputs_spec, Hm in E1 by done. rewrite <- (IH (sent ++ tokens) m1).
      * rewrite E2, addTokens_app. cbn [snd]. injection E1 as _ <-. rewrite filter_own. destruct (addTokens sent []) as [l1 v1]. cbn [fst snd]. destruct (addTokens tokens l1) as [l2 v2].
        cbn [snd]. by rewrite fmap_app, <- app_assoc.
      * rewrite addTokens_app. injection E1 as <- _. destruct (addTokens sent []) as [l1 v1]. cbn [fst] in *. destruct (decide (tokens = [])) as [-> |]; [cbn; by rewrite Hm |].
        rewrite packetsOf_insert, decide_True by done. by destruct (addTokens tokens l1).
    + destruct (handleOutputs_other r r' tokens m Hr Hne) as [H1 H2]. rewrite E1 in H1, H2. cbn [fst snd] in H1, H2. rewrite H2. rewrite <- (IH sent m1) by congruence. by rewrite E2.
  - unfold handleInput. destruct (decide (r' = r)) as [-> | Hne].
    + rewrite Hr. cbn [negb fmap list_fmap concat]. rewrite fmap_app, <- (IH [] (<[r := []]> m)); [done |]. by rewrite packetsOf_insert, decide_True.
    + apply IH. destruct (isChanend r'); cbn [negb]; [| done]. by rewrite packetsOf_insert, decide_False.
Qed.

(** C28: The tracer warns exactly when packets without an acknowledgement differ.  Whatever the channel ends do, in whatever order, the warnings about one of them are the pairs
    of packets, in order, that it has completed one after the other with different contents and without receiving anything in
    between; what the other channel ends send does not matter. *)
Theorem overtake_warnings (l : list Event) (r : Z) : isChanend r = true ->
  filter (isOf r) (follow l ∅).2 =
    (fun x => mkWarning r x.1 x.2) <$> concat ((fun seg => mismatches (packets [] seg).1) <$> unacknowledged r [] l).
Proof.
  intros Hr. pose proof (follow_own r l Hr [] ∅ eq_refl) as E. cbn [addTokens snd fmap list_fmap app] in E. rewrite E. do 2 f_equal. apply list_fmap_ext.
  intros i seg _. apply addTokens_fresh.
Qed.

Lemma overtake_warnings_witness : let d v := mkToken v false in let e := mkToken CT_END true in
  let l := [Sent 2 [d 5; e]; Sent 0x102 [d 6; e]; Sent 2 [d 5; e; d 6]; Received 0x102; Sent 2 [e]; Received 2; Sent 2 [d 7; e]] in
  filter (isOf 2) (follow l ∅).2 = [mkWarning 2 [d 5; e] [d 6; e]].
Proof. intros d e l. rewrite (overtake_warnings l 2) by reflexivity. reflexivity. Defined.
