(* ===== verification/PS2Keyboard.v ===== *)
(** * The keyboard (lib/PS2Keyboard.cpp)

    A PS/2 device: it drives a clock all the time and sends bytes on a data line, a bit in each period of the clock;
    the keyboard sends the scan codes of the keys that are pressed and released. *)

From Stdlib Require Import ZArith Lia.
From stdpp Require Import base list numbers option relations.
From S2P Require Import Prelude BitManip Signal Timer Device.

#[local] Open Scope Z_scope.
#[local] Open Scope cbits_scope.

(** ** The device *)

(** lib/PS2Keyboard.cpp:21-39 PS2Device: with the bytes of the keyboard that have still to be sent, [pendingBytes] of PS2Keyboard *)
Record PS2Device := mkPS2 { initialized : bool; data : Z; bitsRemaining : Z; pendingBytes : list Z }.

(** lib/PS2Keyboard.cpp:49-51 PS2Device::PS2Device: the half period of a clock of 15 kHz *)
Definition ps2HalfPeriod : Z := CYCLES_PER_TICK * 100000000 / (15000 * 2).
(** lib/PS2Keyboard.cpp:51-51 clkSignal *)
Definition clkSignal : Signal := mkSignal ps2HalfPeriod 0.

(** lib/PS2Keyboard.cpp:41-53 PS2Device::PS2Device: [junk] is the data, which is not initialised *)
Definition newPS2Device (junk : Z) : PS2Device * list Call := (mkPS2 false junk 0 [], [Push 0 0]).

(** The pins: the clock is pin 0, the data line pin 1. *)

(** lib/PS2Keyboard.cpp:55-66 PS2Device::startTransmittingByte *)
Definition startTransmittingByte (byte time : Z) : Op PS2Device := fun s =>
  p ← parity byte;
  let d := u16 ((byte .<< 1) .| (Z.b2z p .<< 9) .| (1 .<< 10)) in
  e ← getNextEdgeOf clkSignal time RISING;
  let transitionTime := u64 (edge_time e + halfPeriod clkSignal / 2) in
  Some (mkPS2 (initialized s) d 11 (pendingBytes s), [Push 0 transitionTime]).

(** lib/PS2Keyboard.cpp:94-100 PS2Device::tryToTransmitNextByte: with lines 255-262, PS2Keyboard::getMoreData *)
Definition tryToTransmitNextByte (time : Z) : Op PS2Device := fun s =>
  match pendingBytes s with
  | [] => Some (s, [])
  | byte :: rest => startTransmittingByte byte time (mkPS2 (initialized s) (data s) (bitsRemaining s) rest)
  end.

(** lib/PS2Keyboard.cpp:68-73 PS2Device::notifyDataAvailable *)
Definition notifyDataAvailable (time : Z) : Op PS2Device := fun s =>
  if negb (initialized s) || negb (bitsRemaining s =? 0) then Some (s, []) else tryToTransmitNextByte time s.

(** lib/PS2Keyboard.cpp:75-92 PS2Device::run *)
Definition ps2_run (time : Z) : Op PS2Device := fun s =>
  if negb (initialized s) then
    '(s, l) ← tryToTransmitNextByte time (mkPS2 true (data s) (bitsRemaining s) (pendingBytes s));
    Some (s, [Pins 0 clkSignal time; Pins 1 (constant 1) time] ++ l)
  else
    _ ← assert (negb (bitsRemaining s =? 0));
    let out := Pins 1 (constant (data s .& 1)) time in
    let n := bitsRemaining s - 1 in
    if negb (n =? 0) then Some (mkPS2 true (data s .>> 1) n (pendingBytes s), [out; Push 0 (u64 (time + getPeriod clkSignal))])
    else '(s, l) ← tryToTransmitNextByte time (mkPS2 true (data s) n (pendingBytes s)); Some (s, [out] ++ l).

(** ** The keyboard *)

(** The keys of SDL that the table names, and one for all the others. *)
Inductive Scancode :=
  | SDL_A | SDL_B | SDL_C | SDL_D | SDL_E | SDL_F | SDL_G | SDL_H | SDL_I | SDL_J | SDL_K | SDL_L | SDL_M | SDL_N | SDL_O | SDL_P | SDL_Q | SDL_R
  | SDL_S | SDL_T | SDL_U | SDL_V | SDL_W | SDL_X | SDL_Y | SDL_Z | SDL_0 | SDL_1 | SDL_2 | SDL_3 | SDL_4 | SDL_5 | SDL_6 | SDL_7 | SDL_8 | SDL_9
  | SDL_GRAVE | SDL_MINUS | SDL_EQUALS | SDL_BACKSLASH | SDL_SPACE | SDL_TAB | SDL_CAPSLOCK | SDL_LSHIFT | SDL_LCTRL | SDL_LGUI | SDL_LALT
  | SDL_RSHIFT | SDL_RCTRL | SDL_RGUI | SDL_RALT | SDL_APPLICATION | SDL_RETURN | SDL_ESCAPE | SDL_F1 | SDL_F2 | SDL_F3 | SDL_F4 | SDL_F5 | SDL_F6
  | SDL_F7 | SDL_F8 | SDL_F9 | SDL_F10 | SDL_F11 | SDL_F12 | SDL_PRINTSCREEN | SDL_SCROLLLOCK | SDL_PAUSE | SDL_LEFTBRACKET | SDL_INSERT | SDL_HOME
  | SDL_PAGEUP | SDL_DELETE | SDL_END | SDL_PAGEDOWN | SDL_UP | SDL_LEFT | SDL_DOWN | SDL_RIGHT | SDL_NUMLOCKCLEAR | SDL_KP_DIVIDE | SDL_KP_MULTIPLY
  | SDL_KP_MINUS | SDL_KP_PLUS | SDL_KP_ENTER | SDL_KP_PERIOD | SDL_KP_0 | SDL_KP_1 | SDL_KP_2 | SDL_KP_3 | SDL_KP_4 | SDL_KP_5 | SDL_KP_6 | SDL_KP_7
  | SDL_KP_8 | SDL_KP_9 | SDL_RIGHTBRACKET | SDL_SEMICOLON | SDL_APOSTROPHE | SDL_COMMA | SDL_PERIOD | SDL_SLASH | SDL_OTHER.

(** lib/PS2Keyboard.cpp:122-225 scanCodeMap *)
Definition scanCodeMap (k : Scancode) : option (list Z) :=
  match k with
   | SDL_A => Some [0x1c] | SDL_B => Some [0x32] | SDL_C => Some [0x21] | SDL_D => Some [0x23] | SDL_E => Some [0x24] | SDL_F => Some [0x2b]
   | SDL_G => Some [0x34] | SDL_H => Some [0x33] | SDL_I => Some [0x43] | SDL_J => Some [0x3b] | SDL_K => Some [0x42] | SDL_L => Some [0x4b]
   | SDL_M => Some [0x3a] | SDL_N => Some [0x31] | SDL_O => Some [0x44] | SDL_P => Some [0x4d] | SDL_Q => Some [0x15] | SDL_R => Some [0x2d]
   | SDL_S => Some [0x1b] | SDL_T => Some [0x2c] | SDL_U => Some [0x3c] | SDL_V => Some [0x2a] | SDL_W => Some [0x1d] | SDL_X => Some [0x22]
   | SDL_Y => Some [0x35] | SDL_Z => Some [0x1a] | SDL_0 => Some [0x45] | SDL_1 => Some [0x16] | SDL_2 => Some [0x1e] | SDL_3 => Some [0x26]
   | SDL_4 => Some [0x25] | SDL_5 => Some [0x2e] | SDL_6 => Some [0x36] | SDL_7 => Some [0x3d] | SDL_8 => Some [0x3e] | SDL_9 => Some [0x46]
   | SDL_GRAVE => Some [0x0e] | SDL_MINUS => Some [0x4e] | SDL_EQUALS => Some [0x55] | SDL_BACKSLASH => Some [0x5d] | SDL_SPACE => Some [0x66]
   | SDL_TAB => Some [0x0d] | SDL_CAPSLOCK => Some [0x58] | SDL_LSHIFT => Some [0x12] | SDL_LCTRL => Some [0x14] | SDL_LGUI => Some [0xe0; 0x1f]
   | SDL_LALT => Some [0x11] | SDL_RSHIFT => Some [0x59] | SDL_RCTRL => Some [0xe0; 0x14] | SDL_RGUI => Some [0xe0; 0x27]
   | SDL_RALT => Some [0xe0; 0x11] | SDL_APPLICATION => Some [0xe0; 0x2f] | SDL_RETURN => Some [0x5a] | SDL_ESCAPE => Some [0x76]
   | SDL_F1 => Some [0x05] | SDL_F2 => Some [0x06] | SDL_F3 => Some [0x04] | SDL_F4 => Some [0x0c] | SDL_F5 => Some [0x03] | SDL_F6 => Some [0x0b]
   | SDL_F7 => Some [0x83] | SDL_F8 => Some [0x0a] | SDL_F9 => Some [0x01] | SDL_F10 => Some [0x09] | SDL_F11 => Some [0x78] | SDL_F12 => Some [0x07]
   | SDL_PRINTSCREEN => Some [0x0e; 0x12; 0xe0; 0x7c] | SDL_SCROLLLOCK => Some [0x7e]
   | SDL_PAUSE => Some [0x0e; 0x14; 0x77; 0xe1; 0xf0; 0x14; 0xf0; 0x77] | SDL_LEFTBRACKET => Some [0x54] | SDL_INSERT => Some [0xe0; 0x70]
   | SDL_HOME => Some [0xe0; 0x6c] | SDL_PAGEUP => Some [0xe0; 0x7d] | SDL_DELETE => Some [0xe0; 0x71] | SDL_END => Some [0xe0; 0x69]
   | SDL_PAGEDOWN => Some [0xe0; 0x7a] | SDL_UP => Some [0xe0; 0x75] | SDL_LEFT => Some [0xe0; 0x6b] | SDL_DOWN => Some [0xe0; 0x72]
   | SDL_RIGHT => Some [0xe0; 0x74] | SDL_NUMLOCKCLEAR => Some [0x77] | SDL_KP_DIVIDE => Some [0xe0; 0x4a] | SDL_KP_MULTIPLY => Some [0x7c]
   | SDL_KP_MINUS => Some [0x7b] | SDL_KP_PLUS => Some [0x79] | SDL_KP_ENTER => Some [0xe0; 0x5a] | SDL_KP_PERIOD => Some [0x71]
   | SDL_KP_0 => Some [0x70] | SDL_KP_1 => Some [0x69] | SDL_KP_2 => Some [0x72] | SDL_KP_3 => Some [0x7a] | SDL_KP_4 => Some [0x6b]
   | SDL_KP_5 => Some [0x73] | SDL_KP_6 => Some [0x74] | SDL_KP_7 => Some [0x6c] | SDL_KP_8 => Some [0x75] | SDL_KP_9 => Some [0x7d]
   | SDL_RIGHTBRACKET => Some [0x5b] | SDL_SEMICOLON => Some [0x4c] | SDL_APOSTROPHE => Some [0x52] | SDL_COMMA => Some [0x41]
   | SDL_PERIOD => Some [0x49] | SDL_SLASH => Some [0x4a]
    | SDL_OTHER => None
  end.

(** lib/PS2Keyboard.cpp:235-251 PS2Keyboard::eventCallback: the bytes of a key *)
Definition keyBytes (up : bool) (k : Scancode) (bytes : list Z) : list Z :=
  if up then
    match k with
    | SDL_PAUSE => []
    | SDL_PRINTSCREEN => [0xe0; 0xf0; 0x7c; 0xe0; 0xf0; 0x12]
    | _ => match bytes with 0xe :: bytes => 0xe :: 0xf0 :: bytes | _ => 0xf0 :: bytes end
    end
  else bytes.

(** lib/PS2Keyboard.cpp:227-253 PS2Keyboard::eventCallback: of a key that goes down or up *)
Definition eventCallback (up : bool) (k : Scancode) (time : Z) : Op PS2Device := fun s =>
  match scanCodeMap k with
  | None => Some (s, [])
  | Some bytes =>
      let s' := mkPS2 (initialized s) (data s) (bitsRemaining s) (pendingBytes s ++ keyBytes up k bytes) in
      if up && (match k with SDL_PAUSE => true | _ => false end) then Some (s, []) else notifyDataAvailable time s'
  end.

(** ** What is sent *)

(** The frame of a byte: a start bit, the bits of the byte from the lowest, the parity of the byte and a stop bit. *)
Definition frameBits (b : Z) : list Z :=
  0 :: ((fun i => Z.b2z (Z.testbit b i)) <$> seqZ 0 8) ++ [Z.b2z (Nat.odd (popcount b)); 1].

(** The bits with the times at which they are put on the line, one in each period of the clock. *)
Fixpoint timed (t : Z) (bits : list Z) : list (Z * Z) :=
  match bits with [] => [] | b :: bits => (t, b) :: timed (t + 2 * ps2HalfPeriod) bits end.

(** What is put on a pin by some calls. *)
Definition driving (pin : nat) (l : list Call) : list (Z * Z) :=
  omap (fun c => match c with Pins p s t => if Nat.eqb p pin then Some (t, value s) else None | _ => None end) l.

Fixpoint lowBits (n : nat) (d : Z) : list Z := match n with O => [] | S n => (d .& 1) :: lowBits n (d .>> 1) end.

Lemma timed_app bits bits' : forall t, timed t (bits ++ bits') = timed t bits ++ timed (t + 2 * ps2HalfPeriod * zlength bits) bits'.
Proof.
  induction bits as [|b bits IH]; intros t; [cbn [app timed length]; f_equal; lia |]. cbn [app timed]. rewrite IH. do 2 f_equal.
  cbn [length]. f_equal. lia.
Qed.

Lemma driving_app p l l' : driving p (l ++ l') = driving p l ++ driving p l'.
Proof. apply omap_app. Qed.

(** The word that is shifted out holds the frame. *)
Lemma word_frame b : fits 8 b -> exists p, parity b = Some p /\
  lowBits 11 (u16 ((b .<< 1) .| (Z.b2z p .<< 9) .| (1 .<< 10))) = frameBits b.
Proof.
  intros Hb. unfold fits in Hb. assert (Forall (fun b => (p ← parity b; Some (lowBits 11 (u16 ((b .<< 1) .| (Z.b2z p .<< 9) .| (1 .<< 10))))) = Some (frameBits b))
    (seqZ 0 256)) as F by (apply (bool_decide_unpack _); vm_compute; exact I).
  rewrite Forall_forall in F. specialize (F b). rewrite elem_of_seqZ in F. specialize (F ltac:(lia)).
  destruct (parity b) as [p|]; [| done]. exists p. cbn [mbind option_bind] in F. by simplify_eq.
Qed.

(** A time in the middle of the half period after the rising edge with the number [2 m + 1]. *)
Definition afterRising (m : Z) : Z := (2 * m + 1) * ps2HalfPeriod + ps2HalfPeriod / 2.

Lemma half_period : ps2HalfPeriod = 13333.
Proof. reflexivity. Qed.

Lemma clk_edge t type : 0 <= t < 2 ^ 62 -> getNextEdgeOf clkSignal t type =
  let n := t / ps2HalfPeriod + 1 in
  let n := if bool_decide ((if n mod 2 =? 1 then RISING else FALLING) = type) then n else n + 1 in
  Some (mkEdge (n * ps2HalfPeriod) type).
Proof.
  intros Ht. unfold getNextEdgeOf, getEdgeIterator. rewrite getNextEdge_phase by (split; cbn; rewrite ?half_period; lia).
  unfold phase. cbn [clkSignal halfPeriod value mbind option_bind]. rewrite Z.sub_0_r. unfold it_type, it_next, it_time, it_type.
  cbn [edge edge_type edge_time iter_halfPeriod clkSignal halfPeriod]. set (n := t / ps2HalfPeriod + 1).
  assert (0 <= n < 2 ^ 50) as Hn by (unfold n; rewrite half_period; pose proof (Z.div_pos t 13333); pose proof (Z.div_le_upper_bound t 13333 (2 ^ 49)); lia).
  case_bool_decide as E; [by subst |]. cbn [edge edge_time edge_type].
  assert (u64 (0 + n * ps2HalfPeriod + ps2HalfPeriod) = (n + 1) * ps2HalfPeriod) as ->
    by (rewrite half_period, (wrap_small 64) by (unfold fits; lia); lia).
  do 2 f_equal. by destruct (n mod 2 =? 1), type.
Qed.

Lemma rising_edge t : 0 <= t < 2 ^ 62 ->
  getNextEdgeOf clkSignal t RISING = Some (mkEdge ((2 * ((t / ps2HalfPeriod + 1) / 2) + 1) * ps2HalfPeriod) RISING).
Proof.
  intros Ht. rewrite clk_edge by done. cbv zeta. set (n := t / ps2HalfPeriod + 1). do 3 f_equal.
  pose proof (Z.div_mod n 2). pose proof (Z.mod_pos_bound n 2). destruct (Z.eqb_spec (n mod 2) 1); case_bool_decide; try done; lia.
Qed.

(** The edge at which the other side reads the line comes before the next bit. *)
Lemma falling_edge m : 0 <= m < 2 ^ 40 ->
  getNextEdgeOf clkSignal (afterRising m) FALLING = Some (mkEdge ((2 * m + 2) * ps2HalfPeriod) FALLING).
Proof.
  intros Hm. unfold afterRising. rewrite clk_edge by (rewrite half_period; change (13333 / 2) with 6666; lia). cbv zeta.
  assert (((2 * m + 1) * ps2HalfPeriod + ps2HalfPeriod / 2) / ps2HalfPeriod = 2 * m + 1) as ->.
  { rewrite half_period. change (13333 / 2) with 6666. symmetry. apply Z.div_unique with (r := 6666); lia. }
  replace (2 * m + 1 + 1) with ((m + 1) * 2) by lia. rewrite Z_mod_mult. change (0 =? 1) with false. rewrite bool_decide_true by done. do 3 f_equal. lia.
Qed.

Lemma next_start m : 0 <= m < 2 ^ 40 ->
  exists e, getNextEdgeOf clkSignal (afterRising m) RISING = Some e /\ u64 (edge_time e + halfPeriod clkSignal / 2) = afterRising (m + 1).
Proof.
  intros Hm. unfold afterRising. eexists. split; [apply rising_edge; rewrite half_period; change (13333 / 2) with 6666; lia |].
  cbn [edge_time]. assert (((2 * m + 1) * ps2HalfPeriod + ps2HalfPeriod / 2) / ps2HalfPeriod = 2 * m + 1) as ->.
  { rewrite half_period. change (13333 / 2) with 6666. symmetry. apply Z.div_unique with (r := 6666); lia. }
  replace ((2 * m + 1 + 1) / 2) with (m + 1) by (replace (2 * m + 1 + 1) with ((m + 1) * 2) by lia; by rewrite Z.div_mul).
  cbn [halfPeriod clkSignal]. rewrite half_period. change (13333 / 2) with 6666. rewrite (wrap_small 64) by (unfold fits; lia). lia.
Qed.

Abbreviation ps2_goes := (rtc (happened (fun _ _ _ s => Some (s, [])) ps2_run)).

(** The bits before the last one. *)
Lemma sends_bits n : forall d t rest m, 0 <= t -> t + 2 * ps2HalfPeriod * Z.of_nat n < 2 ^ 62 ->
  exists m', ps2_goes (mkCourse (mkPS2 true d (Z.of_nat n + 1) rest) (Some t) [] m)
    (mkCourse (mkPS2 true (d .>> Z.of_nat n) 1 rest) (Some (t + 2 * ps2HalfPeriod * Z.of_nat n)) [] (m ++ m')) /\
  driving 1 m' = timed t (lowBits n d).
Proof.
  induction n as [|n IH]; intros d t rest m Ht Hb.
  - exists []. rewrite app_nil_r, Z.shiftr_0_r. split; [| done]. replace (t + _) with t by lia. reflexivity.
  - rewrite half_period in Hb. destruct (IH (d .>> 1) (t + 2 * ps2HalfPeriod) rest
      (m ++ [Pins 1 (constant (d .& 1)) t; Push 0 (t + 2 * ps2HalfPeriod)])) as (m' & G & E); [rewrite half_period; lia.. |].
    exists ([Pins 1 (constant (d .& 1)) t; Push 0 (t + 2 * ps2HalfPeriod)] ++ m'). split; [| by rewrite driving_app, E].
    eapply rtc_l; [eapply happens_run with (s' := mkPS2 true (d .>> 1) (Z.of_nat n + 1) rest)
      (k := [Pins 1 (constant (d .& 1)) t; Push 0 (t + 2 * ps2HalfPeriod)]); [done | | done | done] |].
    + unfold ps2_run. cbn [initialized negb bitsRemaining data pendingBytes]. rewrite (proj2 (Z.eqb_neq (Z.of_nat (S n) + 1) 0)) by lia.
      cbn [negb assert mbind option_bind]. replace (Z.of_nat (S n) + 1 - 1) with (Z.of_nat n + 1) by lia.
      rewrite (proj2 (Z.eqb_neq (Z.of_nat n + 1) 0)) by lia. cbn [negb]. do 5 f_equal.
      change (getPeriod clkSignal) with 26666. rewrite half_period. change (2 * 13333) with 26666. apply wrap_small. unfold fits. lia.
    + cbn [wakeAfter foldl]. rewrite app_assoc. rewrite Z.shiftr_shiftr in G by lia. replace (Z.of_nat (S n)) with (1 + Z.of_nat n) by lia.
      replace (t + 2 * ps2HalfPeriod * (1 + Z.of_nat n)) with (t + 2 * ps2HalfPeriod + 2 * ps2HalfPeriod * Z.of_nat n) by lia. exact G.
Qed.

(** The start of a byte in a state in which no bits remain. *)
Lemma starts_byte b t m ini d n rest : fits 8 b -> (exists e, getNextEdgeOf clkSignal t RISING = Some e /\
    u64 (edge_time e + halfPeriod clkSignal / 2) = afterRising m) ->
  exists w, startTransmittingByte b t (mkPS2 ini d n rest) = Some (mkPS2 ini w 11 rest, [Push 0 (afterRising m)]) /\
  lowBits 11 w = frameBits b.
Proof.
  intros Hb (e & E & Et). destruct (word_frame b Hb) as (p & Ep & F). unfold startTransmittingByte. rewrite Ep.
  cbn [mbind option_bind]. rewrite E. cbn [mbind option_bind initialized pendingBytes]. rewrite Et. eexists. by split.
Qed.

Lemma lowBits_last n d : lowBits (S n) d = lowBits n d ++ [(d .>> Z.of_nat n) .& 1].
Proof.
  revert d. induction n as [|n IH]; intros d; [by cbn; rewrite Z.shiftr_0_r |]. cbn [lowBits app] in IH |- *. f_equal.
  rewrite IH, Z.shiftr_shiftr by lia. do 4 f_equal. lia.
Qed.

Lemma afterRising_add m k : afterRising m + 2 * ps2HalfPeriod * k = afterRising (m + k).
Proof. unfold afterRising. lia. Qed.

Lemma lowBits_length n : forall d, length (lowBits n d) = n.
Proof. induction n as [|n IH]; intros d; cbn; [done | by rewrite IH]. Qed.

(** The last bit. *)
Lemma run_last t d rest : ps2_run t (mkPS2 true d 1 rest) =
  ('(s, l) ← tryToTransmitNextByte t (mkPS2 true d 0 rest); Some (s, [Pins 1 (constant (d .& 1)) t] ++ l)).
Proof. reflexivity. Qed.

(** A byte and the bytes behind it. *)
Lemma sends_bytes rest : forall b m w c, Forall (fits 8) rest -> 0 <= m -> m + 11 * (zlength rest + 1) < 2 ^ 40 -> lowBits 11 w = frameBits b ->
  exists d l, ps2_goes (mkCourse (mkPS2 true w 11 rest) (Some (afterRising m)) [] c) (mkCourse (mkPS2 true d 0 []) None [] (c ++ l)) /\
  driving 1 l = timed (afterRising m) (concat (frameBits <$> (b :: rest))).
Proof.
  induction rest as [|b' rest IH]; intros b m w c Hr Hm Hb Hw; cbn [length] in Hb;
    match goal with |- context [mkPS2 true w 11 ?r] => destruct (sends_bits 10 w (afterRising m) r c) as (l & G & E) end;
    try (unfold afterRising; rewrite half_period; change (13333 / 2) with 6666; lia);
    rewrite afterRising_add in G; set (d := w .>> Z.of_nat 10) in *;
    assert (driving 1 (l ++ [Pins 1 (constant (d .& 1)) (afterRising (m + Z.of_nat 10))]) = timed (afterRising m) (frameBits b)) as El
      by (change (Z.of_nat 10) with 10 in *; rewrite driving_app, E, <- Hw, (lowBits_last 10 w), timed_app, lowBits_length, afterRising_add; reflexivity).
  - exists d, (l ++ [Pins 1 (constant (d .& 1)) (afterRising (m + Z.of_nat 10))]). cbn [concat fmap list_fmap]. rewrite app_nil_r.
    split; [| exact El]. etrans; [exact G |]. apply rtc_once. eapply happens_run; [done | done | done |]. by rewrite app_assoc.
  - inversion Hr as [|? ? Hb' Hr']; subst.
    destruct (starts_byte b' (afterRising (m + 10)) (m + 10 + 1) true d 0 rest Hb') as (w' & Es & Ew); [apply next_start; lia |].
    destruct (IH b' (m + 11) w' (c ++ l ++ [Pins 1 (constant (d .& 1)) (afterRising (m + 10)); Push 0 (afterRising (m + 11))])) as (d' & l' & G' & E');
      [done | lia | lia | done |].
    exists d', ((l ++ [Pins 1 (constant (d .& 1)) (afterRising (m + 10))]) ++ [Push 0 (afterRising (m + 11))] ++ l'). split.
    + etrans; [exact G |]. eapply rtc_l; [eapply happens_run with (s' := mkPS2 true w' 11 rest); [done | | done | done] |].
      * rewrite run_last. change (Z.of_nat 10) with 10. unfold tryToTransmitNextByte. cbn [pendingBytes initialized data bitsRemaining]. rewrite Es. reflexivity.
      * replace (m + 10 + 1) with (m + 11) by lia. cbn [app wakeAfter foldl]. rewrite <- !app_assoc in G' |- *. exact G'.
    + rewrite !driving_app, E'. change (Z.of_nat 10) with 10 in El. rewrite driving_app in El. rewrite El. cbn [fmap list_fmap concat].
      rewrite (timed_app (frameBits b)), afterRising_add. replace (zlength (frameBits b)) with 11 by (by rewrite <- Hw, lowBits_length). reflexivity.
Qed.

(** The bytes of a key. *)
Lemma key_bytes_fit up k codes : scanCodeMap k = Some codes ->
  Forall (fits 8) (keyBytes up k codes) /\ (length (keyBytes up k codes) <= 8)%nat.
Proof.
  assert (forall l, bool_decide (Forall (fun b => 0 <= b < 2 ^ 8) l) = true -> Forall (fits 8) l) as F by (intros l E; exact (bool_decide_eq_true_1 _ E)).
  intros E. destruct k, up; cbn in E; simplify_eq; (split; [apply F; vm_compute; reflexivity | cbn; lia]).
Qed.

Lemma event_idle up k codes b rest t ini d : scanCodeMap k = Some codes -> keyBytes up k codes = b :: rest ->
  eventCallback up k t (mkPS2 ini d 0 []) = if ini then startTransmittingByte b t (mkPS2 ini d 0 rest) else Some (mkPS2 ini d 0 (b :: rest), []).
Proof.
  intros E Eb. unfold eventCallback. rewrite E. cbn [initialized data bitsRemaining pendingBytes app]. rewrite Eb.
  destruct (up && _) eqn:Ep; [| by destruct ini]. destruct up, k; try discriminate Ep. discriminate Eb.
Qed.

(** C30: When a key goes down or up while the keyboard is idle, the keyboard puts on the data line the frames of the bytes
    of the key (a start bit, the byte from its lowest bit, its parity, a stop bit) without a gap between them, one bit in each
    period of its clock, and is idle again: each bit is put on the line half way through a high phase of the clock, the first
    after the next rising edge, so that the falling edge at which the other side reads the bit comes before the bit behind it. *)
Theorem ps2_sends up k t s codes bs : initialized s = true -> bitsRemaining s = 0 -> pendingBytes s = [] ->
  scanCodeMap k = Some codes -> keyBytes up k codes = bs -> bs <> [] -> 0 <= t < 2 ^ 50 ->
  let first := (t / ps2HalfPeriod + 1) / 2 in
  (exists s' l s'' m, eventCallback up k t s = Some (s', l) /\
    ps2_goes (mkCourse s' (wakeAfter None l) [] l) (mkCourse s'' None [] m) /\
    initialized s'' = true /\ bitsRemaining s'' = 0 /\ pendingBytes s'' = [] /\
    driving 1 m = timed (afterRising first) (concat (frameBits <$> bs))) /\
  (forall i, 0 <= i < 11 * zlength bs ->
    let bit := afterRising first + 2 * ps2HalfPeriod * i in
    exists e, getNextEdgeOf clkSignal bit FALLING = Some e /\ bit < edge_time e < bit + 2 * ps2HalfPeriod).
Proof.
  intros Hi Hn Hp Ek Eb Hne Ht first. assert (0 <= first < 2 ^ 37) as Hf.
  { unfold first. rewrite half_period. pose proof (Z.div_pos t 13333). pose proof (Z.div_lt_upper_bound t 13333 (2 ^ 37)).
    pose proof (Z.div_pos (t / 13333 + 1) 2). pose proof (Z.div_lt_upper_bound (t / 13333 + 1) 2 (2 ^ 37)). lia. }
  destruct (key_bytes_fit up k codes Ek) as [Hfit Hlen]. rewrite Eb in Hfit, Hlen. split.
  - destruct bs as [|b rest]; [done |]. inversion Hfit as [|? ? Hb Hr]; subst. destruct s as [i d n p]. cbn in Hi, Hn, Hp. subst.
    destruct (starts_byte b t first true d 0 rest Hb) as (w & Es & Ew).
    { eexists. split; [apply rising_edge; lia |]. cbn [edge_time halfPeriod clkSignal]. unfold afterRising. fold first.
      rewrite half_period. apply wrap_small. unfold fits. change (13333 / 2) with 6666. lia. }
    destruct (sends_bytes rest b first w [Push 0 (afterRising first)] Hr) as (d' & l & G & E); [cbn [length] in Hlen; lia.. | done |].
    eexists _, [Push 0 (afterRising first)], _, _. split; [| split; [exact G |]].
    + rewrite (event_idle up k codes b rest t true d Ek Eb). exact Es.
    + repeat split; [done.. |]. cbn [app driving omap list_omap]. exact E.
  - intros i Hib bit. unfold bit. rewrite afterRising_add. eexists. split; [apply falling_edge; lia |]. cbn [edge_time].
    unfold afterRising. rewrite half_period. change (13333 / 2) with 6666. lia.
Qed.

(** The up arrow, pressed at time 1000. *)
Lemma ps2_sends_witness : (exists s' l s'' m, eventCallback false SDL_UP 1000 (mkPS2 true 0 0 []) = Some (s', l) /\
    ps2_goes (mkCourse s' (wakeAfter None l) [] l) (mkCourse s'' None [] m) /\
    initialized s'' = true /\ bitsRemaining s'' = 0 /\ pendingBytes s'' = [] /\
    driving 1 m = timed 19999 [0; 0;0;0;0;0;1;1;1; 1; 1; 0; 1;0;1;0;1;1;1;0; 1; 1]).
Proof.
  pose proof (ps2_sends false SDL_UP 1000 (mkPS2 true 0 0 []) [0xe0; 0x75] [0xe0; 0x75] eq_refl eq_refl eq_refl eq_refl eq_refl
    ltac:(discriminate) ltac:(lia)) as [H _]. exact H.
Defined.
