(* ===== verification/LCDScreen.v ===== *)
(** * The screen (lib/LCDScreen.cpp)

    A display without a frame buffer of its own: at every rising edge of the pixel clock it takes a pixel from the data pins
    while data enable is high; it recognises the end of a line and the end of a frame by the number of edges at which data
    enable was low.  The frame that is shown leaves the system as the call [Out] with its pixels. *)

From Stdlib Require Import ZArith Lia.
From stdpp Require Import base list numbers option relations.
From S2P Require Import Prelude BitManip Signal Device.

#[local] Open Scope Z_scope.

(** ** The screen *)

(** lib/LCDScreen.cpp:42-66 SDLScreen: without the members of SDL and the counter of frames, which is not used *)
Record SDLScreen := mkScreen { width : Z; height : Z; pixels : list Z }.

(** lib/LCDScreen.cpp:68-94 SDLScreen::init: the memory for the pixels, which is not initialised *)
Definition screen_init (junk : list Z) (w h : Z) : option SDLScreen :=
  _ ← assert (zlength junk =? u32 (w * h)); Some (mkScreen w h junk).

(** lib/LCDScreen.cpp:96-109 SDLScreen::flip *)
Definition flip (s : SDLScreen) : list Call := [Out (pixels s)].

(** lib/LCDScreen.cpp:111-114 SDLScreen::writePixel *)
Definition writePixel (x y value : Z) (s : SDLScreen) : option SDLScreen :=
  l ← array_set (pixels s) (u32 (x + y * width s)) (u16 value); Some (mkScreen (width s) (height s) l).

(** ** The device *)

(** lib/LCDScreen.cpp:126-150 LCDScreen *)
Record LCDScreen := mkLCD {
  screen : SDLScreen;
  CLKSignal : Signal;
  CLKValue : Z;
  DataTracker : Signal;
  DETracker : Signal;
  HSYNCTracker : Signal;
  VSYNCTracker : Signal;
  x : Z;
  y : Z;
  edgeCounter : Z;
  lastDEHighEdge : Z
}.

(** lib/LCDScreen.cpp:153-177 LCDScreen::LCDScreen: [clk] is the value of the clock, which is not initialised *)
Definition newLCDScreen (junk : list Z) (clk w h : Z) : option LCDScreen :=
  s ← screen_init junk w h;
  Some (mkLCD s (constant 0) clk newTracker newTracker newTracker newTracker 0 0 0 0).

Definition set_CLK (c : Signal) (v : Z) (s : LCDScreen) : LCDScreen :=
  mkLCD (screen s) c v (DataTracker s) (DETracker s) (HSYNCTracker s) (VSYNCTracker s) (x s) (y s) (edgeCounter s) (lastDEHighEdge s).
Definition set_data (v : Signal) (s : LCDScreen) : LCDScreen :=
  mkLCD (screen s) (CLKSignal s) (CLKValue s) v (DETracker s) (HSYNCTracker s) (VSYNCTracker s) (x s) (y s) (edgeCounter s) (lastDEHighEdge s).
Definition set_DE (v : Signal) (s : LCDScreen) : LCDScreen :=
  mkLCD (screen s) (CLKSignal s) (CLKValue s) (DataTracker s) v (HSYNCTracker s) (VSYNCTracker s) (x s) (y s) (edgeCounter s) (lastDEHighEdge s).
Definition set_HSYNC (v : Signal) (s : LCDScreen) : LCDScreen :=
  mkLCD (screen s) (CLKSignal s) (CLKValue s) (DataTracker s) (DETracker s) v (VSYNCTracker s) (x s) (y s) (edgeCounter s) (lastDEHighEdge s).
Definition set_VSYNC (v : Signal) (s : LCDScreen) : LCDScreen :=
  mkLCD (screen s) (CLKSignal s) (CLKValue s) (DataTracker s) (DETracker s) (HSYNCTracker s) v (x s) (y s) (edgeCounter s) (lastDEHighEdge s).
(** What a sampling edge changes. *)
Definition set_scan (sc : SDLScreen) (x' y' e h : Z) (s : LCDScreen) : LCDScreen :=
  mkLCD sc (CLKSignal s) (CLKValue s) (DataTracker s) (DETracker s) (HSYNCTracker s) (VSYNCTracker s) x' y' e h.

(** lib/LCDScreen.cpp:189-189 LCDScreen::seeSamplingEdge *)
Definition minHorizontalClks : Z := 40.
(** lib/LCDScreen.cpp:191-191 LCDScreen::seeSamplingEdge *)
Definition minVerticalClks : Z := 5 * 520.

(** lib/LCDScreen.cpp:181-207 LCDScreen::seeSamplingEdge *)
Definition seeSamplingEdge (time : Z) : Op LCDScreen := fun s =>
  let e := u32 (edgeCounter s + 1) in
  if getValue (DETracker s) time =? 0 then Some (set_scan (screen s) (x s) (y s) e (lastDEHighEdge s) s, [])
  else
    let lowEdges := u64 (e - u64 (lastDEHighEdge s + 1)) in
    let '(x', y', l) :=
      if minVerticalClks <=? lowEdges then (0, 0, flip (screen s))
      else if minHorizontalClks <=? lowEdges then (0, u32 (y s + 1), [])
      else (x s, y s, []) in
    if (x' <? width (screen s)) && (y' <? height (screen s)) then
      sc ← writePixel x' y' (getValue (DataTracker s) time) (screen s);
      Some (set_scan sc (u32 (x' + 1)) y' e e s, l)
    else Some (set_scan (screen s) x' y' e e s, l).

(** lib/LCDScreen.cpp:209-224 LCDScreen::seeCLKChange *)
Definition seeCLKChange (newSignal : Signal) (time : Z) : Op LCDScreen := fun s =>
  let newValue := getValue newSignal time in
  let changed := negb (newValue =? CLKValue s) in
  let s := set_CLK newSignal newValue s in
  '(s, l) ← (if changed && negb (newValue =? 0) then seeSamplingEdge time s else Some (s, []));
  if isClock newSignal then
    nextEdge ← getEdgeIterator newSignal time;
    let nextEdge := if bool_decide (it_type nextEdge = RISING) then nextEdge else it_next nextEdge in
    Some (s, l ++ [Push 0 (it_time nextEdge)])
  else Some (s, l).

(** lib/LCDScreen.cpp:226-231 LCDScreen::run *)
Definition lcd_run (time : Z) : Op LCDScreen := fun s =>
  _ ← assert (isClock (CLKSignal s));
  '(s, l) ← seeSamplingEdge time s;
  Some (s, l ++ [Push 0 (u64 (time + getPeriod (CLKSignal s)))]).

(** The pins: the clock, the data, data enable and the two signals that are connected and not used. *)
Definition lcd_see (p : nat) (v : Signal) (time : Z) : Op LCDScreen := fun s =>
  match p with
  | 0%nat => seeCLKChange v time s
  | 1%nat => Some (set_data v s, [])
  | 2%nat => Some (set_DE v s, [])
  | 3%nat => Some (set_HSYNC v s, [])
  | _ => Some (set_VSYNC v s, [])
  end.

(** ** What is shown *)

(** What the other side puts on the pins for an edge: a pixel, or nothing with data enable low. *)
Abbreviation Sample := (option Z).

(** The changes on the pins for some samples, each shortly before its edge. *)
Fixpoint samplesLine (t period : Z) (l : list Sample) : list (Z * (nat * Signal)) :=
  match l with
  | [] => []
  | None :: l => (t - 1, (2%nat, constant 0)) :: samplesLine (t + period) period l
  | Some d :: l => (t - 1, (1%nat, constant d)) :: (t - 1, (2%nat, constant 1)) :: samplesLine (t + period) period l
  end.

(** A line of pixels after a number of edges without data. *)
Definition lineSamples (r : nat * list Z) : list Sample := replicate r.1 None ++ (Some <$> r.2).

(** The frames that have been shown. *)
Definition shown (l : list Call) : list (list Z) := omap (fun c => match c with Out l => Some l | _ => None end) l.

Abbreviation lcd_goes := (rtc (happened lcd_see lcd_run)).

Lemma shown_app l l' : shown (l ++ l') = shown l ++ shown l'.
Proof. apply omap_app. Qed.

Lemma shown_frames f : shown (Out <$> f) = f.
Proof. induction f as [|x f IH]; [done |]. cbn. f_equal. exact IH. Qed.

Section scan.
Context (clk : Signal) (w h period : Z) (Hclk : isClock clk = true) (Hperiod : getPeriod clk = period) (Hp : 2 <= period)
  (Hw : 0 < w) (Hh : 0 < h) (Hwh : w * h < 2 ^ 32).

(** The state after [c] edges, the last [gap] of them without data: the next pixel goes to column [x'] of line [y'] unless a new
    line or frame begins. *)
Record scanned (c gap x' y' : Z) (pix : list Z) (s : LCDScreen) : Prop := {
  sc_clk : CLKSignal s = clk;
  sc_screen : screen s = mkScreen w h pix;
  sc_edges : edgeCounter s = c;
  sc_last : lastDEHighEdge s = c - gap;
  sc_x : x s = x';
  sc_y : y s = y';
  sc_gap : 0 <= gap <= c
}.

(** The place of the next pixel and the frame that is shown before. *)
Definition place (gap x' y' : Z) (pix : list Z) : Z * Z * list (list Z) :=
  if minVerticalClks <=? gap then (0, 0, [pix]) else if minHorizontalClks <=? gap then (0, y' + 1, []) else (x', y', []).

(** From one state to another by some samples, with the frames that are shown. *)
Definition shows (l : list Sample) (frames : list (list Z)) (P Q : LCDScreen -> Prop) : Prop :=
  forall s t rest m, P s -> 1 <= t -> t + period * zlength l < 2 ^ 64 ->
    (forall u v, head rest = Some (u, v) -> t + period * zlength l - 1 <= u) ->
    exists s' k, lcd_goes (mkCourse s (Some t) (samplesLine t period l ++ rest) m) (mkCourse s' (Some (t + period * zlength l)) rest (m ++ k)) /\
      Q s' /\ shown k = frames.

Lemma samplesLine_app l : forall t l', samplesLine t period (l ++ l') = samplesLine t period l ++ samplesLine (t + period * zlength l) period l'.
Proof using.
  induction l as [|[d|] l IH]; intros t l'; cbn [app samplesLine length]; [f_equal; lia | do 2 f_equal; rewrite IH; do 2 f_equal; lia | f_equal; rewrite IH; do 2 f_equal; lia].
Qed.

Lemma samplesLine_head t l u v : head (samplesLine t period l) = Some (u, v) -> t - 1 <= u.
Proof using. destruct l as [|[d|] l]; cbn; intros [=]; lia. Qed.

Lemma shows_app l l' f f' P Q R : shows l f P Q -> shows l' f' Q R -> shows (l ++ l') (f ++ f') P R.
Proof using Hp.
  intros H1 H2 s t rest m HP Ht Hb Hr. rewrite length_app in *. rewrite samplesLine_app, <- app_assoc.
  destruct (H1 s t (samplesLine (t + period * zlength l) period l' ++ rest) m HP Ht) as (s1 & k1 & G1 & HQ & E1); [nia | |].
  { intros u v Hu. destruct (samplesLine _ _ l') as [|z zs] eqn:E.
    - apply Hr in Hu. nia.
    - cbn in Hu. simplify_eq. eapply samplesLine_head. by rewrite E. }
  destruct (H2 s1 (t + period * zlength l) rest (m ++ k1) HQ) as (s2 & k2 & G2 & HR & E2); [nia | nia | |].
  { intros u v Hu. apply Hr in Hu. lia. }
  exists s2, (k1 ++ k2). rewrite shown_app, E1, E2, (app_assoc m). split; [| done]. etrans; [exact G1 |].
  replace (t + period * Z.of_nat (length l + length l')) with (t + period * zlength l + period * zlength l') by lia. exact G2.
Qed.

Lemma shows_nil P : shows [] [] P P.
Proof using.
  intros s t rest m HP Ht Hb Hr. exists s, []. cbn [samplesLine app length]. rewrite app_nil_r. replace (t + _) with t by lia. by repeat split.
Qed.
(** The pins at the edge of a sample. *)
Definition prepared (v : Sample) (s : LCDScreen) : LCDScreen :=
  match v with None => set_DE (constant 0) s | Some d => set_DE (constant 1) (set_data (constant d) s) end.

Lemma shows_one v f (P Q : LCDScreen -> Prop) :
  (forall s t, P s -> CLKSignal s = clk /\ exists s' k, seeSamplingEdge t (prepared v s) = Some (s', k) /\ CLKSignal s' = clk /\ Q s' /\ shown k = f) -> shows [v] f P Q.
Proof using Hclk Hperiod Hp.
  intros H s t rest m HP Ht Hb Hr. destruct (H s t HP) as (Ec & s' & k & E & Ec' & HQ & Es). cbn [length] in *. rewrite Z.mul_1_r in *.
  exists s', (k ++ [Push 0 (t + period)]). rewrite shown_app, Es. split; [| by rewrite app_nil_r].
  etrans; [instantiate (1 := mkCourse (prepared v s) (Some t) rest m); destruct v as [d|]; cbn [samplesLine app] |].
  - eapply rtc_l; [apply happens_see with (k := []); [intros u [= <-]; lia | reflexivity | reflexivity | by rewrite app_nil_r] |].
    apply rtc_once. apply happens_see with (k := []); [intros u [= <-]; lia | reflexivity | reflexivity | by rewrite app_nil_r].
  - apply rtc_once. apply happens_see with (k := []); [intros u [= <-]; lia | reflexivity | reflexivity | by rewrite app_nil_r].
  - apply rtc_once. eapply happens_run with (k := k ++ [Push 0 (t + period)]); [intros u y' Hu; apply Hr in Hu; lia | | | done].
    + unfold lcd_run. replace (CLKSignal (prepared v s)) with clk by (by destruct v). rewrite Hclk. cbn [assert mbind option_bind]. rewrite E.
      cbn [mbind option_bind]. rewrite Ec', Hperiod, (wrap_small 64) by (unfold fits; lia). reflexivity.
    + unfold wakeAfter. by rewrite foldl_app.
Qed.

Lemma shows_low c gap x' y' pix : c + 1 < 2 ^ 32 -> shows [None] [] (scanned c gap x' y' pix) (scanned (c + 1) (gap + 1) x' y' pix).
Proof using Hclk Hperiod Hp.
  intros Hc. apply shows_one. intros s t [E1 E2 E3 E4 E5 E6 E7]. split; [done |]. eexists _, _. split; [reflexivity |]. split; [done |]. split; [| done].
  split; cbn; try done; try lia. rewrite E3. apply wrap_small. unfold fits. lia.
Qed.

Lemma shows_pixel c gap x' y' pix d x1 y1 f pix' : c + 1 < 2 ^ 32 -> is_u16 d -> 0 <= x' -> 0 <= y' < h -> place gap x' y' pix = (x1, y1, f) -> x1 < w -> y1 < h ->
  array_set pix (x1 + y1 * w) d = Some pix' -> shows [Some d] f (scanned c gap x' y' pix) (scanned (c + 1) 0 (x1 + 1) y1 pix').
Proof using Hclk Hperiod Hp Hw Hh Hwh.
  intros Hc Hd Hx Hy Hpl Hx1 Hy1 Hs. assert (h < 2 ^ 32 /\ w < 2 ^ 32) as [Hh32 Hw32] by nia.
  assert (0 <= x1 /\ 0 <= y1) as [Hx0 Hy0] by (unfold place in Hpl; repeat case_match; simplify_eq; lia).
  apply shows_one. intros s t [E1 E2 E3 E4 E5 E6 E7]. split; [done |]. unfold seeSamplingEdge.
  cbn [prepared CLKSignal set_data set_DE DETracker DataTracker edgeCounter lastDEHighEdge screen x y getValue constant halfPeriod value Z.eqb].
  rewrite E2, E3, E4, E5, E6. cbn [pixels width height].
  rewrite (wrap_small 32 (c + 1)), (wrap_small 64 (c - gap + 1)), (wrap_small 64) by (unfold fits; lia).
  replace (c + 1 - (c - gap + 1)) with gap by lia.
  assert ((if minVerticalClks <=? gap then (0, 0, flip (mkScreen w h pix)) else if minHorizontalClks <=? gap then (0, u32 (y' + 1), []) else (x', y', []))
    = (x1, y1, Out <$> f)) as ->.
  { unfold place in Hpl. repeat case_match; simplify_eq; try done. by rewrite (wrap_small 32) by (unfold fits; lia). }
  rewrite (proj2 (Z.ltb_lt x1 w)), (proj2 (Z.ltb_lt y1 h)) by done. cbn [andb]. unfold writePixel. cbn [pixels width].
  assert (0 <= x1 + y1 * w < w * h) by nia. rewrite (wrap_small 32 (x1 + y1 * w)), (wrap_small 16 d), Hs by (exact Hd || (unfold fits; lia)). cbn [mbind option_bind].
  eexists _, _. split; [reflexivity |]. split; [done |]. split; [| apply shown_frames].
  split; cbn; try done; try lia. apply wrap_small. unfold fits. lia.
Qed.

Lemma shows_lows n : forall c gap x' y' pix, c + Z.of_nat n < 2 ^ 32 ->
  shows (replicate n None) [] (scanned c gap x' y' pix) (scanned (c + Z.of_nat n) (gap + Z.of_nat n) x' y' pix).
Proof using Hclk Hperiod Hp.
  induction n as [|n IH]; intros c gap x' y' pix Hc; [rewrite !Z.add_0_r; apply shows_nil |].
  apply (shows_app [None] _ [] [] _ (scanned (c + 1) (gap + 1) x' y' pix)); [apply shows_low; lia |].
  replace (c + Z.of_nat (S n)) with (c + 1 + Z.of_nat n) by lia. replace (gap + Z.of_nat (S n)) with (gap + 1 + Z.of_nat n) by lia. apply IH. lia.
Qed.

(** A pixel behind those that have been written. *)
Lemma shows_next c gap x' y' done_ rest d x1 y1 f : c + 1 < 2 ^ 32 -> is_u16 d -> 0 <= x' -> 0 <= y' < h ->
  place gap x' y' (done_ ++ rest) = (x1, y1, f) -> x1 < w -> 0 <= y1 < h -> zlength (done_ ++ rest) = w * h -> x1 + y1 * w < w * h ->
  forall new, x1 + y1 * w = zlength new -> new = take (length new) (done_ ++ rest) ->
  exists rest', zlength ((new ++ [d]) ++ rest') = w * h /\
    shows [Some d] f (scanned c gap x' y' (done_ ++ rest)) (scanned (c + 1) 0 (x1 + 1) y1 ((new ++ [d]) ++ rest')).
Proof using Hclk Hperiod Hp Hw Hh Hwh.
  intros Hc Hd Hx Hy Hpl Hx1 Hy1 Hl Hb new En Et. set (pix := done_ ++ rest) in *.
  assert (exists a tl, pix = new ++ a :: tl) as (a & tl & Epix).
  { pose proof (take_drop (length new) pix) as Hd'. rewrite <- Et in Hd'. destruct (drop (length new) pix) as [|a tl] eqn:E.
    - apply (f_equal length) in E. rewrite length_drop in E. cbn in E. lia.
    - by exists a, tl. }
  exists tl. split; [rewrite <- Hl, Epix, !length_app; cbn; lia |].
  eapply shows_pixel; [done | done | done | done | exact Hpl | done | lia |]. rewrite En, Epix. unfold array_set.
  rewrite Nat2Z.id. destruct (_ && _) eqn:E.
  - by rewrite <- app_assoc, insert_app_r_alt, Nat.sub_diag by done.
  - apply andb_false_iff in E as [E|E]; [lia |]. rewrite length_app in E. cbn [length] in E. apply Z.ltb_ge in E. clear -E. lia.
Qed.

(** The pixels of a line, from the second one on. *)
Lemma shows_pixels ds : forall c x' y' done_ rest, c + zlength ds < 2 ^ 32 -> Forall is_u16 ds -> 0 <= x' -> x' + zlength ds <= w -> 0 <= y' < h ->
  zlength done_ = x' + y' * w -> zlength (done_ ++ rest) = w * h ->
  exists rest', zlength ((done_ ++ ds) ++ rest') = w * h /\
    shows (Some <$> ds) [] (scanned c 0 x' y' (done_ ++ rest)) (scanned (c + zlength ds) 0 (x' + zlength ds) y' ((done_ ++ ds) ++ rest')).
Proof using Hclk Hperiod Hp Hw Hh Hwh.
  induction ds as [|d ds IH]; intros c x' y' done_ rest Hc Hd Hx Hxw Hy Hn Hl.
  - exists rest. rewrite app_nil_r. cbn [length]. rewrite !Z.add_0_r. split; [done | apply shows_nil].
  - inversion Hd as [|? ? Hd1 Hd2]; subst. cbn [length] in *.
    destruct (shows_next c 0 x' y' done_ rest d x' y' []) with (new := done_) as (r1 & L1 & S1); [lia | done | done | done | done | lia | done | done | nia | lia | by rewrite take_app_length |].
    destruct (IH (c + 1) (x' + 1) y' (done_ ++ [d]) r1) as (r2 & L2 & S2); [lia | done | lia | lia | done | rewrite length_app; cbn [length]; lia | done |].
    exists r2. rewrite <- (app_assoc done_ [d] ds) in L2, S2. split; [exact L2 |].
    replace (c + Z.of_nat (S (length ds))) with (c + 1 + zlength ds) by lia. replace (x' + Z.of_nat (S (length ds))) with (x' + 1 + zlength ds) by lia.
    exact (shows_app [Some d] _ [] [] _ _ _ S1 S2).
Qed.

(** A line: the first one of a frame shows the frame before. *)
Lemma shows_line r c gap x' y' y1 done_ rest f : c + zlength (lineSamples r) < 2 ^ 32 -> Forall is_u16 r.2 -> zlength r.2 = w -> 0 <= gap -> 0 <= x' -> 0 <= y' < h ->
  0 <= y1 < h -> place (gap + Z.of_nat r.1) x' y' (done_ ++ rest) = (0, y1, f) -> zlength (done_ ++ rest) = w * h ->
  forall new, y1 * w = zlength new -> new = take (length new) (done_ ++ rest) ->
  exists rest', zlength ((new ++ r.2) ++ rest') = w * h /\
    shows (lineSamples r) f (scanned c gap x' y' (done_ ++ rest)) (scanned (c + zlength (lineSamples r)) 0 w y1 ((new ++ r.2) ++ rest')).
Proof using Hclk Hperiod Hp Hw Hh Hwh.
  destruct r as [n [|d ds]]; cbn [fst snd]; intros Hc Hd Hn Hg Hx Hy Hy1 Hpl Hl new En Et; [cbn in Hn; lia |]. inversion Hd as [|? ? Hd1 Hd2]; subst.
  unfold lineSamples in *. cbn [fst snd fmap list_fmap] in *. rewrite length_app, length_replicate in Hc |- *. cbn [length] in *. rewrite length_fmap in Hc |- *.
  destruct (shows_next (c + Z.of_nat n) (gap + Z.of_nat n) x' y' done_ rest d 0 y1 f) with (new := new) as (r1 & L1 & S1); [lia | done | done | done | done | lia | done | done | nia | lia | done |].
  destruct (shows_pixels ds (c + Z.of_nat n + 1) 1 y1 (new ++ [d]) r1) as (r2 & L2 & S2); [lia | done | lia | lia | done | rewrite length_app; cbn [length]; lia | done |].
  exists r2. rewrite <- (app_assoc new [d] ds) in L2, S2. split; [exact L2 |].
  replace (c + Z.of_nat (n + S (length ds))) with (c + Z.of_nat n + 1 + zlength ds) by lia. rewrite <- (app_nil_l f), <- (app_nil_r f).
  replace (1 + zlength ds) with w in S2 by lia.
  apply (shows_app _ _ [] _ _ (scanned (c + Z.of_nat n) (gap + Z.of_nat n) x' y' (done_ ++ rest))); [apply shows_lows; lia |].
  exact (shows_app [Some d] _ f [] _ _ _ S1 S2).
Qed.

(** The lines behind the first one. *)
Lemma shows_lines l : forall c y' done_ rest, c + zlength (concat (lineSamples <$> l)) < 2 ^ 32 -> 0 <= y' -> y' + zlength l < h ->
  Forall (fun r => Forall is_u16 r.2 /\ zlength r.2 = w /\ minHorizontalClks <= Z.of_nat r.1 < minVerticalClks) l ->
  zlength done_ = (y' + 1) * w -> zlength (done_ ++ rest) = w * h ->
  exists rest', zlength ((done_ ++ concat (l.*2)) ++ rest') = w * h /\
    shows (concat (lineSamples <$> l)) [] (scanned c 0 w y' (done_ ++ rest))
      (scanned (c + zlength (concat (lineSamples <$> l))) 0 w (y' + zlength l) ((done_ ++ concat (l.*2)) ++ rest')).
Proof using Hclk Hperiod Hp Hw Hh Hwh.
  induction l as [|r l IH]; intros c y' done_ rest Hc Hy Hyl Hr Hn Hl.
  - exists rest. cbn [fmap list_fmap concat length]. rewrite app_nil_r, !Z.add_0_r. split; [done | apply shows_nil].
  - inversion Hr as [|? ? (Hu & Hrw & Hg) Hr2]; subst. cbn [fmap list_fmap concat length] in *. rewrite length_app in Hc |- *.
    destruct (shows_line r c 0 w y' (y' + 1) done_ rest []) with (new := done_) as (r1 & L1 & S1); [lia | done | done | lia | lia | lia | lia | | done | lia | by rewrite take_app_length |].
    { unfold place. rewrite Z.add_0_l. destruct (Z.leb_spec minVerticalClks (Z.of_nat r.1)), (Z.leb_spec minHorizontalClks (Z.of_nat r.1)); try lia; done. }
    destruct (IH (c + zlength (lineSamples r)) (y' + 1) (done_ ++ r.2) r1) as (r2 & L2 & S2); [lia | lia | lia | done | rewrite length_app; lia | done |].
    exists r2. rewrite <- (app_assoc done_ r.2 (concat l.*2)) in L2, S2. split; [exact L2 |].
    replace (c + Z.of_nat (length (lineSamples r) + length (concat (lineSamples <$> l)))) with (c + zlength (lineSamples r) + zlength (concat (lineSamples <$> l))) by lia.
    replace (y' + Z.of_nat (S (length l))) with (y' + 1 + zlength l) by lia. exact (shows_app _ _ [] [] _ _ _ S1 S2).
Qed.

(** A frame of [h] lines. *)
Lemma shows_frame first l c gap x' y' pix : c + zlength (concat (lineSamples <$> (first :: l))) < 2 ^ 32 -> zlength l + 1 = h ->
  Forall (fun r => Forall is_u16 r.2 /\ zlength r.2 = w) (first :: l) -> minVerticalClks <= Z.of_nat first.1 ->
  Forall (fun r => minHorizontalClks <= Z.of_nat r.1 < minVerticalClks) l -> 0 <= gap -> 0 <= x' -> 0 <= y' < h -> zlength pix = w * h ->
  shows (concat (lineSamples <$> (first :: l))) [pix] (scanned c gap x' y' pix)
    (scanned (c + zlength (concat (lineSamples <$> (first :: l)))) 0 w (h - 1) (concat ((first :: l).*2))).
Proof using Hclk Hperiod Hp Hw Hh Hwh.
  intros Hc Hn Hr Hf Hg Hgap Hx Hy Hl. inversion Hr as [|? ? [Hu Hrw] Hr2]; subst. cbn [fmap list_fmap concat] in *. rewrite length_app in Hc |- *.
  destruct (shows_line first c gap x' y' 0 [] pix [pix]) with (new := @nil Z) as (r1 & L1 & S1); [lia | done | done | lia | lia | lia | lia | | done | done | done |].
  { unfold place. by rewrite (proj2 (Z.leb_le minVerticalClks (gap + Z.of_nat first.1))) by lia. }
  destruct (shows_lines l (c + zlength (lineSamples first)) 0 ([] ++ first.2) r1) as (r2 & L2 & S2); [lia | lia | lia | | cbn [app]; lia | done |].
  { rewrite Forall_forall in Hr2, Hg |- *. intros r Hi. destruct (Hr2 r Hi), (Hg r Hi). done. }
  assert (r2 = []) as ->.
  { apply nil_length_inv. rewrite !length_app in L2. cbn [app] in L2. assert (zlength (concat l.*2) = w * (h - 1)) as Ec; [| nia].
    replace (h - 1) with (zlength l) by lia. clear -Hr2. induction Hr2 as [|r l [_ Hrl] _ IH]; cbn [fmap list_fmap concat length]; [lia |]. rewrite length_app. nia. }
  rewrite app_nil_r in S2. cbn [app] in S1, S2. replace (0 + zlength l) with (h - 1) in S2 by lia.
  replace (c + Z.of_nat (length (lineSamples first) + length (concat (lineSamples <$> l)))) with (c + zlength (lineSamples first) + zlength (concat (lineSamples <$> l))) by lia.
  exact (shows_app _ _ [pix] [] _ _ _ S1 S2).
Qed.
End scan.

(** C25: A frame that is sent to the screen is shown.  The screen has a clock on its pin and its current line is one of its lines; its edge counter is not
    behind the last edge that had data enable high, and does not reach 2^32 during the frame (where it wraps and the code mistakes the next pixel for the
    start of a frame); the screen has fewer than 2^32 pixels and the times are below 2^64.  Whatever column it is at and whatever it shows, the other side sends the lines of a frame of the
    size of the screen, a pixel before each rising edge with data enable high, the first line after at least 2600 edges with data
    enable low and each other line after at least 40 and fewer than 2600, and then, after at least 2600 edges with data enable low, the first
    pixel of the next frame.  Then the screen shows what it held before when the frame begins, and exactly the pixels of the frame
    when the next one begins. *)
Theorem lcd_shows_frame s t first l blank d :
  let w := width (screen s) in let h := height (screen s) in let period := getPeriod (CLKSignal s) in
  let samples := concat (lineSamples <$> (first :: l)) ++ lineSamples (blank, [d]) in
  isClock (CLKSignal s) = true -> 2 <= period -> 0 < w -> 0 < h -> w * h < 2 ^ 32 -> zlength (pixels (screen s)) = w * h ->
  0 <= lastDEHighEdge s <= edgeCounter s -> edgeCounter s + zlength samples < 2 ^ 32 -> 0 <= x s -> 0 <= y s < h -> 1 <= t -> t + period * zlength samples < 2 ^ 64 ->
  zlength (first :: l) = h -> Forall (fun r => Forall is_u16 r.2 /\ zlength r.2 = w) (first :: l) -> minVerticalClks <= Z.of_nat first.1 ->
  Forall (fun r => minHorizontalClks <= Z.of_nat r.1 < minVerticalClks) l -> minVerticalClks <= Z.of_nat blank -> is_u16 d ->
  exists s' m, lcd_goes (mkCourse s (Some t) (samplesLine t period samples) []) (mkCourse s' (Some (t + period * zlength samples)) [] m) /\
    shown m = [pixels (screen s); concat ((first :: l).*2)].
Proof.
  intros w h period samples Hclk Hp Hw Hh Hwh Hpix Hlast Hc Hx Hy Ht Hb Hn Hr Hf Hg Hbl Hd. unfold samples in *. rewrite length_app in Hc.
  assert (scanned (CLKSignal s) w h (edgeCounter s) (edgeCounter s - lastDEHighEdge s) (x s) (y s) (pixels (screen s)) s) as S0
    by (split; try done; try lia; by destruct (screen s)).
  set (c := edgeCounter s + zlength (concat (lineSamples <$> (first :: l)))) in *.
  assert (zlength (concat (first :: l).*2) = w * h) as El.
  { rewrite <- Hn. clear -Hr. induction Hr as [|r l' [_ Hrl] _ IH]; cbn [fmap list_fmap concat length]; [lia |]. rewrite length_app. nia. }
  assert (length (lineSamples (blank, [d])) = (blank + 1)%nat) as Eb by (unfold lineSamples; by rewrite length_app, length_replicate). rewrite Eb in Hc.
  destruct (array_set_is_Some (concat (first :: l).*2) 0 d) as [pix' Ep]; [nia |].
  assert (shows (getPeriod (CLKSignal s)) (concat (lineSamples <$> (first :: l)) ++ lineSamples (blank, [d]))
    ([pixels (screen s)] ++ ([] ++ [concat ((first :: l).*2)])) (scanned (CLKSignal s) w h (edgeCounter s) (edgeCounter s - lastDEHighEdge s) (x s) (y s) (pixels (screen s)))
    (scanned (CLKSignal s) w h (c + Z.of_nat blank + 1) 0 1 0 pix')) as Hs.
  { eapply shows_app; [done | apply (shows_frame (CLKSignal s) w h period Hclk eq_refl Hp Hw Hh Hwh); try done; cbn [length] in Hn; lia |].
    eapply shows_app; [done | apply (shows_lows (CLKSignal s) w h period Hclk eq_refl Hp); unfold c; cbn [fst]; lia |]. cbn [fst snd].
    apply (shows_pixel (CLKSignal s) w h period Hclk eq_refl Hp Hw Hh Hwh) with (x1 := 0); try done; [unfold c; lia | lia | lia | unfold place; by rewrite (proj2 (Z.leb_le minVerticalClks (0 + Z.of_nat blank))) by lia]. }
  destruct (Hs s t [] [] S0 Ht Hb) as (s' & k & G & _ & E); [done |]. exists s', k. rewrite app_nil_r in G. by split.
Qed.

(** A screen of two by two pixels. *)
Definition smallScreen : LCDScreen :=
  mkLCD (mkScreen 2 2 [7; 7; 7; 7]) (mkSignal 4 0) 0 newTracker newTracker newTracker newTracker 0 0 0 0.

Lemma lcd_shows_frame_witness : exists s' m,
  lcd_goes (mkCourse smallScreen (Some 4) (samplesLine 4 8 (concat (lineSamples <$> [(2600%nat, [1; 2]); (40%nat, [3; 4])]) ++ lineSamples (2600%nat, [5]))) [])
    (mkCourse s' (Some 41964) [] m) /\ shown m = [[7; 7; 7; 7]; [1; 2; 3; 4]].
Proof.
  apply (lcd_shows_frame smallScreen 4 (2600%nat, [1; 2]) [(40%nat, [3; 4])] 2600 5); try done; try (vm_compute; done).
  - repeat constructor; vm_compute; done.
  - repeat constructor; vm_compute; done.
Defined.
