(* ===== verification/Waveform.v ===== *)
(** * Waveforms (lib/WaveformTracer.cpp)

    The tracer that writes the levels on the pins of ports to a file in the format of value change dumps: declarations,
    and then lines with times and lines with the new value of a port.  Between the changes of the signal on a port the edges of a
    clock are written when they are over, from a queue of events. *)

From Stdlib Require Import ZArith Lia Ascii String.
From stdpp Require Import base list numbers option sets.
From S2P Require Import Prelude BitManip Signal Timer PortArg.

#[local] Open Scope char_scope.
#[local] Open Scope Z_scope.
#[local] Open Scope cbits_scope.

(** ** Characters *)

Definition chr (n : Z) : ascii := ascii_of_N (Z.to_N n).

(** The digits of an unsigned number that [out << value] writes. *)
Fixpoint digits (fuel : nat) (base n : Z) (acc : str) : str :=
  match fuel with
  | O => acc
  | S fuel => let acc := chr (48 + n mod base) :: acc in if n <? base then acc else digits fuel base (n / base) acc
  end.
Definition number (n : Z) : str := digits 64 10 n [].

(** The order of the keys of a [std::map]. *)
Fixpoint strLt (a b : str) : bool :=
  match a, b with
  | _, [] => false
  | [], _ :: _ => true
  | x :: a, y :: b => (code x <? code y) || ((code x =? code y) && strLt a b)
  end.

(** ** The tracer *)

(** lib/WaveformTracer.h:22-39 WaveformTracerPort: with the width and the name of its port *)
Record WavePort := mkWavePort { wp_width : Z; wp_name : str; identifier : str; prev : Signal; time : Z }.

(** lib/WaveformTracer.h:41-62 WaveformTracer: an event is the place of a port and a time, the file is the list of its lines *)
Record Waveform := mkWave {
  queue : list (nat * Z);
  out : list str;
  ports : list WavePort;
  modules : list (str * list nat);
  portsFinalized : bool;
  currentTime : Z
}.

(** lib/WaveformTracer.cpp:13-16 WaveformTracer::WaveformTracer *)
Definition newWaveform : Waveform := mkWave [] [] [] [] false 0.

Definition set_queue (q : list (nat * Z)) (w : Waveform) : Waveform := mkWave q (out w) (ports w) (modules w) (portsFinalized w) (currentTime w).
Definition set_out (o : list str) (w : Waveform) : Waveform := mkWave (queue w) o (ports w) (modules w) (portsFinalized w) (currentTime w).
Definition set_ports (p : list WavePort) (w : Waveform) : Waveform := mkWave (queue w) (out w) p (modules w) (portsFinalized w) (currentTime w).
Definition set_currentTime (t : Z) (w : Waveform) : Waveform := mkWave (queue w) (out w) (ports w) (modules w) (portsFinalized w) t.
Definition writes (l : list str) (w : Waveform) : Waveform := set_out (out w ++ l) w.

(** lib/WaveformTracer.cpp:62-65 WaveformTracer::makeIdentifier: the loop *)
Fixpoint makeIdentifier_loop (fuel : nat) (index : Z) : str :=
  match fuel with
  | O => []
  | S fuel => if index =? 0 then [] else chr (33 + index mod 94) :: makeIdentifier_loop fuel (index / 94)
  end.
(** lib/WaveformTracer.cpp:56-70 WaveformTracer::makeIdentifier: the characters ['!'] to ['~'] are the digits *)
Definition makeIdentifier (index : Z) : str := if index =? 0 then [chr 33] else makeIdentifier_loop 32 index.

(** [modules[name].push_back(i)] *)
Fixpoint addModule (name : str) (i : nat) (l : list (str * list nat)) : list (str * list nat) :=
  match l with
  | [] => [(name, [i])]
  | (n, p) :: l =>
      if decide (n = name) then (n, p ++ [i]) :: l
      else if strLt name n then (name, [i]) :: (n, p) :: l else (n, p) :: addModule name i l
  end.

(** lib/WaveformTracer.cpp:48-54 WaveformTracer::add: of a port with this width and name *)
Definition add (name : str) (width : Z) (portName : str) (w : Waveform) : option Waveform :=
  _ ← assert (negb (portsFinalized w));
  let n := length (ports w) in
  Some (mkWave (queue w) (out w) (ports w ++ [mkWavePort width portName (makeIdentifier (u32 (Z.of_nat n))) (constant 0) 0])
    (addModule name n (modules w)) (portsFinalized w) (currentTime w)).

(** lib/WaveformTracer.cpp:72-84 WaveformTracer::emitDate: [date] is the date of the host as a string *)
Definition emitDate (date : option str) : list str :=
  match date with Some d => [lit "$date"; lit "  " ++ d; lit "$end"] | None => [] end.

(** lib/WaveformTracer.cpp:86-97 WaveformTracer::emitDeclarations *)
Definition emitDeclarations (date : option str) : list str :=
  emitDate date ++ [lit "$version"; lit "  AXE (An XCore Emulator)"; lit "$end"; lit "$timescale"; lit "  100 ps"; lit "$end"].

(** lib/WaveformTracer.cpp:116-118 WaveformTracer::dumpPortValue: the loop from bit [i - 1] on *)
Fixpoint binaryFrom (i : nat) (value : Z) : str :=
  match i with O => [] | S i => (if Z.testbit value (Z.of_nat i) then "1" else "0") :: binaryFrom i value end.

(** lib/WaveformTracer.cpp:100-126 WaveformTracer::dumpPortValue *)
Definition dumpPortValue (id : str) (width value : Z) : str :=
  (if width =? 1 then [if value .& 1 =? 0 then "0" else "1"]
   else "b" :: (if negb (value =? 0) then binaryFrom (Z.to_nat (32 - countLeadingZeros value)) value else ["0"]) ++ [" "]) ++ id.

(** lib/WaveformTracer.cpp:128-135 WaveformTracer::dumpInitialValues *)
Definition dumpInitialValues (w : Waveform) : list str :=
  [lit "$dumpvars"] ++ ((fun p => dumpPortValue (identifier p) (wp_width p) 0) <$> ports w) ++ [lit "$end"].

(** lib/WaveformTracer.cpp:150-161 WaveformTracer::finalizePorts: the declaration of a port *)
Definition declarePort (p : WavePort) : list str :=
  [lit "$var"; lit "  wire" ++ [" "] ++ number (wp_width p) ++ [" "] ++ identifier p ++ [" "] ++ wp_name p; lit "$end"].

(** lib/WaveformTracer.cpp:142-165 WaveformTracer::finalizePorts: a module *)
Definition declareModule (w : Waveform) (m : str * list nat) : option (list str) :=
  l ← mapM (fun i => ports w !! i) m.2;
  let named := negb (bool_decide (m.1 = [])) in
  Some ((if named then [lit "$scope"; lit "  module " ++ m.1; lit "$end"] else []) ++ (l ≫= declarePort) ++
    (if named then [lit "$upscope $end"] else [])).

(** lib/WaveformTracer.cpp:137-168 WaveformTracer::finalizePorts: with the ports that get the tracer, in order *)
Definition finalizePorts (date : option str) (w : Waveform) : option (Waveform * list nat) :=
  _ ← assert (negb (portsFinalized w));
  decls ← mapM (declareModule w) (modules w);
  let lines := emitDeclarations date ++ concat decls ++ [lit "$enddefinitions $end"] ++ dumpInitialValues w in
  Some (mkWave (queue w) (out w ++ lines) (ports w) (modules w) true (currentTime w), concat (modules w).*2).

(** lib/WaveformTracer.cpp:186-195 WaveformTracer::seePinsChange *)
Definition wave_seePinsChange (i : nat) (value time : Z) (w : Waveform) : option Waveform :=
  p ← ports w !! i;
  let translatedTime := u64 (time * (100 / CYCLES_PER_TICK)) in
  let w := if negb (translatedTime =? currentTime w) then set_currentTime (u32 translatedTime) (writes ["#" :: number translatedTime] w) else w in
  Some (writes [dumpPortValue (identifier p) (wp_width p) value] w).

(** lib/WaveformTracer.cpp:170-173 WaveformTracer::schedule *)
Definition wave_schedule (i : nat) (time : Z) (w : Waveform) : Waveform := set_queue (queue w ++ [(i, time)]) w.

(** lib/WaveformTracer.cpp:23-27 WaveformTracerPort::update: the loop; [None] when there are more edges *)
Fixpoint update_loop (fuel : nat) (i : nat) (it : EdgeIterator) (newTime : Z) (w : Waveform) : option (Waveform * EdgeIterator) :=
  if it_time it <=? newTime then
    match fuel with
    | O => None
    | S fuel =>
        w ← wave_seePinsChange i (if bool_decide (it_type it = RISING) then 1 else 0) (it_time it) w;
        update_loop fuel i (it_next it) newTime w
    end
  else Some (w, it).

(** lib/WaveformTracer.cpp:18-30 WaveformTracerPort::update: with a step for each half period *)
Definition wave_update (i : nat) (newTime : Z) (w : Waveform) : option Waveform :=
  p ← ports w !! i;
  if negb (isClock (prev p)) then Some w
  else
    it ← getEdgeIterator (prev p) (time p);
    '(w, it) ← update_loop (Z.to_nat ((newTime - time p) / halfPeriod (prev p) + 1)) i it newTime w;
    p ← ports w !! i;
    Some (wave_schedule i (it_time it) (set_ports (<[i := mkWavePort (wp_width p) (wp_name p) (identifier p) (prev p) newTime]> (ports w)) w)).

Section queue.
(** The place of the top of a queue that is not empty: one of the earliest events; which one, when there are several, depends on
    the implementation of [std::priority_queue]. *)
Context (top : list (nat * Z) -> nat).

(** lib/WaveformTracer.cpp:178-182 WaveformTracer::runUntil: the loop, for at most [n] events; [None] also when the top of an empty queue is read *)
Fixpoint runUntil_loop (n : nat) (t : Z) (w : Waveform) : option Waveform :=
  match n with
  | O => None
  | S n =>
      event ← queue w !! top (queue w);
      if event.2 <? t then
        w ← wave_update event.1 event.2 w;
        runUntil_loop n t (set_queue (delete (top (queue w)) (queue w)) w)
      else Some w
  end.

(** lib/WaveformTracer.cpp:175-184 WaveformTracer::runUntil *)
Definition runUntil (n : nat) (t : Z) (w : Waveform) : option Waveform :=
  if bool_decide (queue w = []) then Some w else runUntil_loop n t w.

(** lib/WaveformTracer.cpp:32-46 WaveformTracerPort::seePinsChange: of the port at place [i] *)
Definition waveport_seePinsChange (n i : nat) (value : Signal) (newTime : Z) (w : Waveform) : option Waveform :=
  p ← ports w !! i;
  if signal_eqb value (prev p) then Some w
  else
    w ← runUntil n newTime w;
    p ← ports w !! i;
    let prevValue := getValue (prev p) newTime in
    let newValue := getValue value newTime in
    w ← (if negb (prevValue =? newValue) then wave_seePinsChange i newValue newTime w else Some w);
    let w := set_ports (<[i := mkWavePort (wp_width p) (wp_name p) (identifier p) value newTime]> (ports w)) w in
    if isClock value then e ← getNextEdge value newTime; Some (wave_schedule i (edge_time e) w) else Some w.
End queue.

(** ** Reading a dump *)

Definition valueOf (base : Z) (s : str) : Z := foldl (fun acc c => acc * base + (code c - 48)) 0 s.

(** The changes that some lines of a dump stand for: the time, the place of the port and its value.  [ids] are the identifiers
    of the ports. *)
Fixpoint readLines (ids : list str) (now : Z) (l : list str) : list (Z * option nat * Z) :=
  match l with
  | [] => []
  | ("#" :: s) :: l => readLines ids (valueOf 10 s) l
  | ("b" :: s) :: l =>
      match splitFirst " " s with
      | Some (v, id) => (now, fst <$> list_find (eq id) ids, valueOf 2 v) :: readLines ids now l
      | None => readLines ids now l
      end
  | (v :: id) :: l => (now, fst <$> list_find (eq id) ids, valueOf 2 [v]) :: readLines ids now l
  | [] :: l => readLines ids now l
  end.

Lemma read_time ids now s l : readLines ids now (("#" :: s) :: l) = readLines ids (valueOf 10 s) l.
Proof. reflexivity. Qed.

Lemma code_chr n : 0 <= n < 256 -> code (chr n) = n.
Proof. intros Hn. unfold code, chr. rewrite N_ascii_embedding by lia. lia. Qed.


Lemma digits_value base : 2 <= base <= 10 -> forall fuel n s, (0 < fuel)%nat -> 0 <= n < base ^ Z.of_nat fuel ->
  valueOf base (digits fuel base n s) = foldl (fun acc c => acc * base + (code c - 48)) n s.
Proof.
  intros Hb. induction fuel as [|fuel IH]; intros n s Hf Hn; [lia |]. cbn [digits]. pose proof (Z.mod_pos_bound n base ltac:(lia)) as Hm.
  destruct (Z.ltb_spec n base) as [Hlt|Hge].
  - unfold valueOf. cbn [foldl]. rewrite code_chr by lia. f_equal. rewrite Z.mod_small by lia. lia.
  - destruct fuel as [|fuel]; [cbn in Hn; lia |]. rewrite IH; [| lia |].
    + cbn [foldl]. rewrite code_chr by lia. f_equal. pose proof (Z.div_mod n base). lia.
    + split; [apply Z.div_pos; lia |]. apply Z.div_lt_upper_bound; [lia |]. rewrite Nat2Z.inj_succ, Z.pow_succ_r in Hn by lia. lia.
Qed.

Lemma number_value n : is_u64 n -> valueOf 10 (number n) = n.
Proof. intros Hn. unfold fits in Hn. apply (digits_value 10); [lia | lia |]. assert (2 ^ 64 < 10 ^ Z.of_nat 64) by done. lia. Qed.

Lemma binary_value v : forall i acc, foldl (fun acc c => acc * 2 + (code c - 48)) acc (binaryFrom i v) = acc * 2 ^ Z.of_nat i + v mod 2 ^ Z.of_nat i.
Proof.
  induction i as [|i IH]; intros acc; [cbn [binaryFrom foldl]; rewrite Z.mod_1_r; lia |]. cbn [binaryFrom foldl]. rewrite IH.
  rewrite Nat2Z.inj_succ, Z.pow_succ_r by lia. rewrite (Z.mul_comm 2), Z.rem_mul_r by lia.
  assert ((v / 2 ^ Z.of_nat i) mod 2 = Z.b2z (Z.testbit v (Z.of_nat i))) as -> by (by rewrite Z.testbit_spec' by lia).
  destruct (Z.testbit v (Z.of_nat i)); cbn [Z.b2z]; [change (code "1") with 49 | change (code "0") with 48]; lia.
Qed.

Lemma binary_no_space v i : " " ∉ binaryFrom i v.
Proof. induction i as [|i IH]; cbn [binaryFrom]; [set_solver |]. rewrite elem_of_cons. intros [E|E]; [by destruct (Z.testbit _ _) | done]. Qed.

(** What a port shows of a value. *)
Definition shownValue (width v : Z) : Z := if width =? 1 then v .& 1 else v.

Lemma dumpPortValue_read ids now id width v l : is_u32 v ->
  readLines ids now (dumpPortValue id width v :: l) = (now, fst <$> list_find (eq id) ids, shownValue width v) :: readLines ids now l.
Proof.
  intros Hv. unfold dumpPortValue, shownValue. destruct (width =? 1).
  - cbn [app]. destruct (land1_cases v) as [->| ->]; done.
  - rewrite <- app_comm_cons. cbn [readLines]. rewrite <- app_assoc. cbn [app]. destruct (Z.eqb_spec v 0) as [->|Hv0]; cbn [negb].
    + done.
    + rewrite splitFirst_app by apply binary_no_space. do 2 f_equal. unfold valueOf. rewrite binary_value. unfold fits in Hv.
      rewrite countLeadingZeros_pos by lia. rewrite Z2Nat.id by (pose proof (Z.log2_nonneg v); lia). rewrite Z.mod_small; [lia |].
      replace (32 - (31 - Z.log2 v)) with (Z.succ (Z.log2 v)) by lia. pose proof (Z.log2_spec v). lia.
Qed.

(** ** Identifiers *)

(** The number that an identifier stands for. *)
Definition idValue (s : str) : Z := foldr (fun c acc => (code c - 33) + 94 * acc) 0 s.

Lemma makeIdentifier_value n : is_u32 n -> idValue (makeIdentifier n) = n.
Proof.
  intros Hn. unfold fits in Hn. assert (forall fuel k, 0 <= k < 94 ^ Z.of_nat fuel -> idValue (makeIdentifier_loop fuel k) = k) as L.
  { induction fuel as [|fuel IH]; intros k Hk; [cbn in Hk |- *; lia |]. cbn [makeIdentifier_loop]. destruct (Z.eqb_spec k 0) as [->|]; [done |].
    pose proof (Z.mod_pos_bound k 94 ltac:(lia)). unfold idValue. cbn [foldr]. fold (idValue (makeIdentifier_loop fuel (k / 94))).
    rewrite IH, code_chr by (first [lia | rewrite Nat2Z.inj_succ, Z.pow_succ_r in Hk by lia; split; [apply Z.div_pos; lia | apply Z.div_lt_upper_bound; lia]]).
    pose proof (Z.div_mod k 94). lia. }
  unfold makeIdentifier. destruct (Z.eqb_spec n 0) as [->|]; [done |]. apply L. assert (2 ^ 32 < 94 ^ Z.of_nat 32) by done. lia.
Qed.

(** The ports of a tracer have the identifiers of their places. *)
Record numbered (w : Waveform) : Prop := {
  nb_ids : (identifier <$> ports w) = (fun i => makeIdentifier (Z.of_nat i)) <$> seq 0 (length (ports w));
  nb_modules : concat (modules w).*2 ≡ₚ seq 0 (length (ports w))
}.

Lemma addModule_places name i l : concat (addModule name i l).*2 ≡ₚ concat l.*2 ++ [i].
Proof.
  induction l as [|[n p] l IH]; [done |]. cbn [addModule]. destruct (decide (n = name)); [| destruct (strLt name n)]; cbn [fmap list_fmap concat snd].
  - by rewrite <- !app_assoc, (Permutation_app_comm [i]).
  - by rewrite (Permutation_app_comm [i]).
  - by rewrite IH, app_assoc.
Qed.

Lemma add_numbered name width portName w w' : Z.of_nat (length (ports w)) < 2 ^ 32 -> numbered w -> add name width portName w = Some w' ->
  numbered w' /\ length (ports w') = S (length (ports w)).
Proof.
  intros Hn [H1 H2] E. unfold add in E. destruct (portsFinalized w); cbn in E; [done |]. simplify_eq. cbn. rewrite length_app. cbn [length].
  split; [| lia]. split; cbn.
  - rewrite length_app, fmap_app, H1. cbn [length]. rewrite Nat.add_1_r, seq_S, fmap_app. cbn. do 3 f_equal. apply wrap_small. unfold fits. lia.
  - rewrite addModule_places, H2, length_app. cbn [length]. by rewrite Nat.add_1_r, seq_S.
Qed.

Lemma numbered_find w i : numbered w -> Z.of_nat (length (ports w)) < 2 ^ 32 -> forall p, ports w !! i = Some p ->
  fst <$> list_find (eq (identifier p)) (identifier <$> ports w) = Some i.
Proof.
  intros [H1 _] Hn p Hp. assert ((identifier <$> ports w) !! i = Some (makeIdentifier (Z.of_nat i))) as Hi.
  { rewrite H1, list_lookup_fmap, lookup_seq_lt by (by eapply lookup_lt_Some). done. }
  pose proof Hi as Hi'. rewrite list_lookup_fmap, Hp in Hi'. injection Hi' as Ei. rewrite Ei.
  assert (list_find (eq (makeIdentifier (Z.of_nat i))) (identifier <$> ports w) = Some (i, makeIdentifier (Z.of_nat i))) as ->; [| done].
  apply list_find_Some. split; [done |]. split; [done |]. intros j y Hy Hj E. subst y. rewrite H1, list_lookup_fmap in Hy.
  apply lookup_lt_Some in Hp. rewrite lookup_seq_lt in Hy by lia. injection Hy as Hy.
  apply (f_equal idValue) in Hy. rewrite !makeIdentifier_value in Hy by (unfold fits; lia). lia.
Qed.

(** ** Writing and reading *)

Fixpoint addAll (l : list (str * Z * str)) (w : Waveform) : option Waveform :=
  match l with [] => Some w | p :: l => w ← add p.1.1 p.1.2 p.2 w; addAll l w end.

(** Changes of ports: the place of the port, the value and the time. *)
Fixpoint seeAll (l : list (nat * Z * Z)) (w : Waveform) : option Waveform :=
  match l with [] => Some w | c :: l => w ← wave_seePinsChange c.1.1 c.1.2 c.2 w; seeAll l w end.

(** The changes are in order of time, of ports among [n], with values of 32 bits. *)
Fixpoint inOrder (n : nat) (t : Z) (l : list (nat * Z * Z)) : Prop :=
  match l with [] => True | c :: l => t <= c.2 < 2 ^ 59 /\ (c.1.1 < n)%nat /\ is_u32 c.1.2 /\ inOrder n c.2 l end.

Lemma addAll_numbered l : forall w, portsFinalized w = false -> currentTime w = 0 -> numbered w -> Z.of_nat (length (ports w) + length l) < 2 ^ 32 ->
  exists w', addAll l w = Some w' /\ numbered w' /\ portsFinalized w' = false /\ currentTime w' = 0 /\ (wp_width <$> ports w') = (wp_width <$> ports w) ++ ((fun p => p.1.2) <$> l).
Proof.
  induction l as [|p l IH]; intros w Hf Hc Hw Hn; cbn [addAll length fmap list_fmap] in *; [exists w; by rewrite app_nil_r |].
  assert (exists w1, add p.1.1 p.1.2 p.2 w = Some w1) as [w1 E] by (unfold add; rewrite Hf; by eexists). rewrite E. cbn [mbind option_bind].
  destruct (add_numbered p.1.1 p.1.2 p.2 w w1 ltac:(lia) Hw E) as [N1 L1].
  assert (portsFinalized w1 = false /\ currentTime w1 = 0 /\ (wp_width <$> ports w1) = (wp_width <$> ports w) ++ [p.1.2]) as (F1 & C1 & W1).
  { unfold add in E. rewrite Hf in E. cbn in E. simplify_eq. cbn. by rewrite fmap_app. }
  destruct (IH w1 F1 C1 N1) as (w' & E' & N' & F' & C' & W'); [lia |]. exists w'. rewrite W', W1, <- app_assoc. done.
Qed.

(** A change is read back, with its time when it is a new one. *)
Lemma see_read i v t w p last : numbered w -> Z.of_nat (length (ports w)) < 2 ^ 32 -> ports w !! i = Some p -> is_u32 v -> 0 <= last <= 25 * t -> t < 2 ^ 59 ->
  currentTime w = u32 last ->
  exists w' lines, wave_seePinsChange i v t w = Some w' /\ out w' = out w ++ lines /\ ports w' = ports w /\ modules w' = modules w /\ currentTime w' = u32 (25 * t) /\
    forall rest, readLines (identifier <$> ports w) last (lines ++ rest) =
      (25 * t, Some i, shownValue (wp_width p) v) :: readLines (identifier <$> ports w) (25 * t) rest.
Proof.
  intros Hw Hn Hp Hv Hl Ht Hc. unfold wave_seePinsChange. rewrite Hp. cbn [mbind option_bind]. change (100 / CYCLES_PER_TICK) with 25.
  rewrite (wrap_small 64) by (unfold fits; lia). rewrite (Z.mul_comm t 25).
  assert (forall rest now, readLines (identifier <$> ports w) now (dumpPortValue (identifier p) (wp_width p) v :: rest) =
    (now, Some i, shownValue (wp_width p) v) :: readLines (identifier <$> ports w) now rest) as R
    by (intros rest now; by rewrite dumpPortValue_read, (numbered_find w i) by done).
  destruct (Z.eqb_spec (25 * t) (currentTime w)) as [E|E]; cbn [negb]; eexists _, _; (split; [reflexivity |]); cbn [writes set_out set_currentTime out ports modules currentTime].
  - split; [reflexivity |]. split; [done |]. split; [done |]. rewrite Hc in E |- *.
    assert (last = 25 * t) as -> by (assert (u32 last <= last) by (apply Z.mod_le; lia); lia). split; [done |]. intros rest. apply R.
  - rewrite <- app_assoc. split; [reflexivity |]. split; [done |]. split; [done |]. split; [done |]. intros rest. cbn [app]. rewrite read_time.
    rewrite number_value by (unfold fits; lia). apply R.
Qed.

Lemma seeAll_read l : forall w last t, numbered w -> Z.of_nat (length (ports w)) < 2 ^ 32 -> inOrder (length (ports w)) t l -> 0 <= last <= 25 * t -> currentTime w = u32 last ->
  exists w' lines, seeAll l w = Some w' /\ out w' = out w ++ lines /\
    readLines (identifier <$> ports w) last lines =
      (fun c => (25 * c.2, Some c.1.1, shownValue (nth c.1.1 (wp_width <$> ports w) 0) c.1.2)) <$> l.
Proof.
  induction l as [|[[i v] t] l IH]; intros w last t0 Hw Hn Ho Hl Hc; cbn [seeAll inOrder fst snd] in *; [exists w, []; by rewrite app_nil_r |].
  destruct Ho as (Ht & Hi & Hv & Ho). destruct (lookup_lt_is_Some_2 (ports w) i Hi) as [p Hp].
  destruct (see_read i v t w p last) as (w1 & l1 & E1 & O1 & P1 & M1 & C1 & R1); [done | done | done | done | lia | lia | done |].
  rewrite E1. cbn [mbind option_bind]. destruct (IH w1 (25 * t) t) as (w2 & l2 & E2 & O2 & R2); [| by rewrite P1 | by rewrite P1 | lia | done |].
  { destruct Hw as [H1 H2]. split; by rewrite ?M1, P1. }
  exists w2, (l1 ++ l2). rewrite O2, O1, app_assoc. split; [done |]. split; [done |]. rewrite R1. rewrite P1 in R2. rewrite R2. cbn [fmap list_fmap fst snd].
  do 3 f_equal. symmetry. apply nth_lookup_Some. by rewrite list_lookup_fmap, Hp.
Qed.

(** C29: A dump of waveforms is read back.  A tracer with any number of ports in any modules, all of which it traces once it is finalised, is told of any
    sequence of changes at times that do not decrease; the lines that it writes for them stand for exactly these changes, with the time in
    units of 100 ps, the port by its identifier and the value, of which a port of one bit has the lowest bit. *)
Theorem waveform_roundtrip (ps : list (str * Z * str)) (date : option str) (l : list (nat * Z * Z)) : zlength ps < 2 ^ 32 -> inOrder (length ps) 0 l ->
  exists w0 w1 traced w2 lines, addAll ps newWaveform = Some w0 /\ finalizePorts date w0 = Some (w1, traced) /\ traced ≡ₚ seq 0 (length ps) /\
    seeAll l w1 = Some w2 /\ out w2 = out w1 ++ lines /\
    readLines (identifier <$> ports w1) 0 lines = (fun c => (25 * c.2, Some c.1.1, shownValue (nth c.1.1 ((fun p => p.1.2) <$> ps) 0) c.1.2)) <$> l.
Proof.
  intros Hn Ho. destruct (addAll_numbered ps newWaveform) as (w0 & E0 & N0 & F0 & C0 & W0); [done | done | by split | cbn; lia |]. cbn [newWaveform ports fmap list_fmap app] in W0.
  assert (length (ports w0) = length ps) as L0 by (by rewrite <- (length_fmap wp_width), W0, length_fmap).
  assert (exists d, mapM (declareModule w0) (modules w0) = Some d) as [d Ed].
  { apply mapM_is_Some_2, Forall_forall. intros [n places] Hm. unfold declareModule. cbn [fst snd].
    destruct (mapM_is_Some_2 (fun i => ports w0 !! i) places) as [k Ek]; [| cbn in Ek |- *; rewrite Ek; by eexists].
    apply Forall_forall. intros i Hi. apply lookup_lt_is_Some_2. assert (i ∈ seq 0 (length (ports w0))) as Hs; [| apply elem_of_seq in Hs; lia].
    rewrite <- (nb_modules _ N0). apply list_elem_of_In, in_concat. exists places. split; apply list_elem_of_In; [by apply (list_elem_of_fmap_2 snd _ (n, places)) | done]. }
  eexists w0, _, _. destruct (seeAll_read l (mkWave (queue w0) (out w0 ++ emitDeclarations date ++ concat d ++ [lit "$enddefinitions $end"] ++ dumpInitialValues w0)
    (ports w0) (modules w0) true (currentTime w0)) 0 0) as (w2 & lines & E2 & O2 & R2); [by destruct N0 | cbn; lia | cbn; by rewrite L0 | lia | done |].
  exists w2, lines. split; [done |]. split; [unfold finalizePorts; rewrite F0, Ed; cbn [negb assert mbind option_bind]; reflexivity |].
  split; [by rewrite (nb_modules _ N0), L0 |]. split; [exact E2 |]. split; [exact O2 |]. cbn [ports] in R2 |- *. rewrite R2. by rewrite W0.
Qed.

(** Two ports of one and four bits. *)
Lemma waveform_roundtrip_witness : exists w0 w1 traced w2 lines,
  addAll [(lit "tile0", 1, lit "XS1_PORT_1A"); (lit "tile0", 4, lit "XS1_PORT_4A")] newWaveform = Some w0 /\ finalizePorts None w0 = Some (w1, traced) /\
  traced ≡ₚ [0; 1]%nat /\ seeAll [(1%nat, 10, 4); (0%nat, 1, 4); (1%nat, 0, 8)] w1 = Some w2 /\ out w2 = out w1 ++ lines /\
  readLines (identifier <$> ports w1) 0 lines = [(100, Some 1%nat, 10); (100, Some 0%nat, 1); (200, Some 1%nat, 0)].
Proof.
  apply (waveform_roundtrip [(lit "tile0", 1, lit "XS1_PORT_1A"); (lit "tile0", 4, lit "XS1_PORT_4A")] None [(1%nat, 10, 4); (0%nat, 1, 4); (1%nat, 0, 8)]).
  - reflexivity.
  - cbn. unfold fits. lia.
Defined.

(** ** Clocks that stop *)

(** The first of the earliest events. *)
Definition earliest (q : list (nat * Z)) : nat :=
  default 0%nat (fst <$> list_find (fun e => Forall (fun e' => e.2 <= e'.2) q) q).

(** A tracer of one port of one bit. *)
Definition oneWave : Waveform := mkWave [] [] [mkWavePort 1 (lit "p") (lit "!") (constant 0) 0] [(lit "t", [0%nat])] true 0.

(** A clock that runs is written edge by edge, but when it stops the queue gets empty at the next change and its top is read. *)
Lemma stopped_clock_undefined n :
  (exists w, (w ← waveport_seePinsChange earliest 9 0 (mkSignal 4 0) 1 oneWave; waveport_seePinsChange earliest 9 0 (constant 0) 10 w) = Some w /\
    out w = [lit "#100"; lit "1!"; lit "#200"; lit "0!"]) /\
  (w ← waveport_seePinsChange earliest 9 0 (mkSignal 4 0) 1 oneWave; w ← waveport_seePinsChange earliest 9 0 (constant 0) 10 w;
   waveport_seePinsChange earliest n 0 (constant 1) 20 w) = None.
Proof.
  split; [eexists; split; vm_compute; reflexivity |].
  assert (exists w, (w ← waveport_seePinsChange earliest 9 0 (mkSignal 4 0) 1 oneWave; waveport_seePinsChange earliest 9 0 (constant 0) 10 w) = Some w /\
    queue w = [(0%nat, 12)] /\ ports w = [mkWavePort 1 (lit "p") (lit "!") (constant 0) 10]) as (w & E & Q & P) by (eexists; split; [| split]; vm_compute; reflexivity).
  destruct (waveport_seePinsChange earliest 9 0 (mkSignal 4 0) 1 oneWave) as [w1|]; [| done]. cbn [mbind option_bind] in E |- *. rewrite E. cbn [mbind option_bind].
  unfold waveport_seePinsChange. rewrite P. cbn. unfold runUntil. rewrite Q. rewrite bool_decide_eq_false_2 by done.
  assert (earliest [(0%nat, 12)] = 0%nat) as He by (vm_compute; reflexivity).
  destruct n as [|[|n]]; cbn [runUntil_loop]; [done | |]; rewrite Q, He; cbn [lookup list_lookup mbind option_bind fst snd]; change (12 <? 20) with true; cbn match;
    unfold wave_update; rewrite P; cbn [lookup list_lookup mbind option_bind isClock prev constant halfPeriod Z.eqb negb]; rewrite ?Q, ?He; done.
Qed.

(** When the signal changes just at an edge of the clock to the level behind the edge, the edge is not written. *)
Lemma edge_at_change_lost : exists w,
  (w ← waveport_seePinsChange earliest 9 0 (mkSignal 4 0) 1 oneWave; waveport_seePinsChange earliest 9 0 (constant 1) 4 w) = Some w /\
  getValue (mkSignal 4 0) 3 = 0 /\ getValue (constant 1) 4 = 1 /\ out w = [].
Proof. eexists. split; [vm_compute; reflexivity |]. by repeat split. Qed.
