(* ===== verification/Config.v ===== *)
(** * The configuration (lib/XEReader.cpp, lib/XMLUtils.cpp)

    An executable file holds a description of the system that the program is for, a document in XML: nodes with their cores and
    the links between them.  From it the system is created, and from a second document the names of ports.  The document is
    a tree that the XML library has read; the library itself is a parameter. *)

From Stdlib Require Import ZArith Lia Ascii String.
From stdpp Require Import base list numbers option gmap.
From S2P Require Import Prelude BitManip Opcode InstrDecode DecodeCache Watchpoint Core Resource Node Symbols XE PortArg.

#[local] Open Scope char_scope.
#[local] Open Scope Z_scope.

(** ** Documents *)

(** A node of a document: an element with its name, its attributes and its children, or something else (text, a comment). *)
Inductive Xml := Element (name : str) (properties : list (str * str)) (children : list Xml) | OtherNode.

Definition properties (x : Xml) : list (str * str) := match x with Element _ p _ => p | OtherNode => [] end.
Definition children (x : Xml) : list Xml := match x with Element _ _ c => c | OtherNode => [] end.
(** Whether the node is an element with this name: [type] and [strcmp] of the loops. *)
Definition isElement (name : str) (x : Xml) : bool := match x with Element n _ _ => bool_decide (n = name) | OtherNode => false end.

(** What running the code leads to: a result, the end of the program with an error message, or nothing that is defined. *)
Inductive Outcome (A : Type) := Done (a : A) | Exit | Undefined.
Arguments Done {A}. Arguments Exit {A}. Arguments Undefined {A}.

#[export] Instance Outcome_bind : MBind Outcome := fun A B f m => match m with Done a => f a | Exit => Exit | Undefined => Undefined end.
#[export] Instance Outcome_ret : MRet Outcome := fun A a => Done a.

(** Where the code uses a pointer, or a computation that may be undefined. *)
Definition defined {A} (o : option A) : Outcome A := match o with Some a => Done a | None => Undefined end.
(** Where the code writes a message and calls [exit]. *)
Definition orExit {A} (o : option A) : Outcome A := match o with Some a => Done a | None => Exit end.

(** lib/XMLUtils.cpp:11-20 findChild *)
Definition findChild (node : Xml) (name : str) : option Xml := head (filter (fun c => isElement name c = true) (children node)).

(** lib/XMLUtils.cpp:22-31 findAttribute: the value of the attribute *)
Definition findAttribute (node : Xml) (name : str) : option str := snd <$> head (filter (fun a => a.1 = name) (properties node)).

(** [attr->children->content]: an attribute without a value has no children *)
Definition content (v : str) : Outcome str := if bool_decide (v = []) then Undefined else Done v.

(** lib/XEReader.cpp:41-48 readNumberAttribute: the value of an attribute, for both functions *)
Definition numberOf (v : str) : Outcome Z :=
  s ← content v;
  let '(value, _, erange) := strtol 0 s in
  if erange : bool then Exit else Done value.

(** lib/XEReader.cpp:37-49 readNumberAttribute *)
Definition readNumberAttribute (node : Xml) (name : str) : Outcome Z := v ← defined (findAttribute node name); numberOf v.

(** lib/XEReader.cpp:51-66 readNumberAttribute: with a default *)
Definition readNumberAttributeOr (node : Xml) (name : str) (default_value : Z) : Outcome Z :=
  match findAttribute node name with None => Done default_value | Some v => numberOf v end.

(** ** The system *)

(** A core: its memory and caches, its reference in the configuration, its number and resources. *)
Record CoreObject := mkCoreObject { co_core : Core; codeReference : str; co_resources : RCore }.

(** The nodes, and the memories of the cores of each. *)
Record System := mkSystem { nodes : Net; memories : list (list (Core * str)) }.

Section reader.
(** The contents of memory that has been allocated, and whether there is a tracer. *)
Context (junk : Z -> Z) (tracing : bool).

(** lib/XEReader.cpp:68-91 createCoreFromConfig *)
Definition createCoreFromConfig (config : Xml) : Outcome CoreObject :=
  memoryController ← defined (findChild config (lit "MemoryController"));
  ram ← defined (findChild memoryController (lit "Ram"));
  base ← readNumberAttribute ram (lit "base");
  size ← readNumberAttribute ram (lit "size");
  let ram_base := u32 base in
  let ram_size := u32 size in
  if negb (isPowerOf2 ram_size) then Exit
  else if negb (ram_base mod ram_size =? 0) then Exit
  else
    core ← defined (newCore ram_size ram_base tracing junk NUM_THREADS);
    tables ← defined newTables;
    number ← readNumberAttribute config (lit "number");
    reference ← (match findAttribute config (lit "codeReference") with Some v => content v | None => Done [] end);
    Done (mkCoreObject core reference (mkRCore (u32 number) tables)).

(** lib/XEReader.cpp:116-121 createNodeFromConfig: the cores *)
Fixpoint createCores (l : list Xml) : Outcome (list CoreObject) :=
  match l with
  | [] => Done []
  | child :: l =>
      if negb (isElement (lit "Processor") child) then createCores l
      else c ← createCoreFromConfig child; cs ← createCores l; Done (c :: cs)
  end.

(** lib/XEReader.cpp:93-123 createNodeFromConfig: the node, its cores and its number *)
Definition createNodeFromConfig (config : Xml) : Outcome (Node * list CoreObject * Z) :=
  jtagID ← readNumberAttribute config (lit "jtagId");
  processorMhz ← readNumberAttributeOr config (lit "processorMhz") 400;
  referenceMhz ← readNumberAttributeOr config (lit "referenceMhz") 100;
  nodeType ← orExit (getTypeFromJtagID (u32 jtagID));
  numXLinks ← (match findChild config (lit "Switch") with
               | Some switchNode =>
                   match findAttribute switchNode (lit "sLinks") with
                   | Some _ => readNumberAttribute switchNode (lit "sLinks")
                   | None => Done 0
                   end
               | None => Done 0
               end);
  nodeID ← readNumberAttribute config (lit "number");
  cores ← createCores (children config);
  Done (newNode nodeType (ProcessorNode (co_resources <$> cores) processorMhz referenceMhz) (Z.to_nat (u32 numXLinks)), cores, nodeID).

(** lib/XEReader.cpp:125-133 createGlxNodeFromConfig *)
Definition createGlxNodeFromConfig (config : Xml) : Outcome (Node * Z) :=
  nodeID ← readNumberAttribute config (lit "number");
  n ← defined (setNodeID (u32 nodeID) newPeripheralNode);
  Done (n, nodeID).

(** lib/XEReader.cpp:135-147 parseXLinkEnd *)
Definition parseXLinkEnd (s : str) : option (Z * Z) :=
  let '(node, endp, erange) := strtol 0 s in
  if erange : bool then None
  else
    match endp with
    | "," :: rest =>
        let '(xlink, endp, erange) := strtol 0 rest in
        if (erange : bool) || negb (bool_decide (endp = [])) then None else Some (node, xlink)
    | _ => None
    end.

(** lib/XEReader.cpp:149-158 lookupNodeChecked *)
Definition lookupNodeChecked (nodeNumberMap : gmap Z nat) (nodeID : Z) : Outcome nat := orExit (nodeNumberMap !! u32 nodeID).

(** lib/XEReader.cpp:160-176 createNodes: with SystemState::addNode *)
Fixpoint createNodes (l : list Xml) (s : System) (m : gmap Z nat) : Outcome (System * gmap Z nat) :=
  match l with
  | [] => Done (s, m)
  | child :: l =>
      if isElement (lit "Node") child then
        '(n, cores, nodeID) ← createNodeFromConfig child;
        createNodes l (mkSystem (nodes s ++ [n]) (memories s ++ [(fun c => (co_core c, codeReference c)) <$> cores])) (insertNew nodeID (length (nodes s)) m)
      else if isElement (lit "GlxNode") child then
        '(n, nodeID) ← createGlxNodeFromConfig child;
        createNodes l (mkSystem (nodes s ++ [n]) (memories s ++ [[]])) (insertNew nodeID (length (nodes s)) m)
      else createNodes l s m
  end.
End reader.

(** lib/XEReader.cpp:207-208 makeConnections: [connectXLink] of a node *)
Definition connectEnd (i : nat) (link : Z) (j : nat) (destLink : Z) (net : Net) : Outcome Net :=
  n ← defined (net !! i); n ← defined (connectXLink (u32 link) j (u32 destLink) n); Done (<[i := n]> net).

(** lib/XEReader.cpp:197-206 makeConnections: the node of an end, which has to have the link *)
Definition endOf (m : gmap Z nat) (net : Net) (nodeID link : Z) : Outcome nat :=
  i ← lookupNodeChecked m nodeID; n ← defined (net !! i);
  if zlength (xLinks n) <=? link then Exit else Done i.

(** lib/XEReader.cpp:184-209 makeConnections: the loop *)
Fixpoint connectAll (m : gmap Z nat) (l : list Xml) (net : Net) : Outcome Net :=
  match l with
  | [] => Done net
  | child :: l =>
      if negb (isElement (lit "SLink") child) then connectAll m l net
      else
        end1 ← defined (findAttribute child (lit "end1")); end1 ← content end1; '(nodeID1, link1) ← orExit (parseXLinkEnd end1);
        end2 ← defined (findAttribute child (lit "end2")); end2 ← content end2; '(nodeID2, link2) ← orExit (parseXLinkEnd end2);
        node1 ← endOf m net nodeID1 link1;
        node2 ← endOf m net nodeID2 link2;
        net ← connectEnd node1 link1 node2 link2 net;
        net ← connectEnd node2 link2 node1 link1 net;
        connectAll m l net
  end.

(** lib/XEReader.cpp:178-210 makeConnections *)
Definition makeConnections (system : Xml) (m : gmap Z nat) (net : Net) : Outcome Net :=
  connections ← defined (findChild system (lit "Connections")); connectAll m (children connections) net.

(** lib/Node.h:77-77 Node::setJtagIndex *)
Definition setJtagIndex (v : Z) (n : Node) : Node :=
  mkNode (Node.type n) (kind n) (xLinks n) (directions n) v (nodeID n) (nodeNumberBits n).

(** lib/XEReader.cpp:247-253 createSystemFromConfig: the loop over the chain *)
Fixpoint numberChain (m : gmap Z nat) (l : list Xml) (jtagIndex : Z) (net : Net) : Outcome Net :=
  match l with
  | [] => Done net
  | child :: l =>
      if negb (isElement (lit "Node") child) then numberChain m l jtagIndex net
      else
        nodeID ← readNumberAttribute child (lit "id"); i ← lookupNodeChecked m nodeID;
        numberChain m l (u32 (jtagIndex + 1)) (alter (setJtagIndex jtagIndex) i net)
  end.

(** lib/SystemState.cpp:45-50 SystemState::finalize *)
Definition finalizeNodes (net : Net) : option Net :=
  mapM (fun n => match kind n with ProcessorNode _ _ _ => finalizeProcessor n | PeripheralNode => finalizePeripheral n end) net.

(** lib/XEReader.cpp:237-254 createSystemFromConfig: of the document *)
Definition createSystem (junk : Z -> Z) (tracing : bool) (root : Xml) : Outcome System :=
  system ← defined (findChild root (lit "System"));
  nodesNode ← defined (findChild system (lit "Nodes"));
  '(s, m) ← createNodes junk tracing (children nodesNode) (mkSystem [] []) ∅;
  net ← makeConnections system m (nodes s);
  jtag ← defined (findChild system (lit "JtagChain"));
  net ← numberChain m (children jtag) 0 net;
  net ← defined (finalizeNodes net);
  Done (mkSystem net (memories s)).

(** ** The file *)

(** The XML library: the root of the document in a string, with the check against a schema; the transformation of the second document. *)
Class XmlLib := {
  xml_config : str -> option Xml;
  xml_configValid : str -> bool;
  xml_transformed : str -> option Xml;
  xml_transformedValid : str -> bool
}.

Section file.
Context `{XmlLib} (junk : Z -> Z).

(** lib/XEReader.cpp:218-229 createSystemFromConfig: and lines 323-335, the text in a sector *)
Definition sectorText (c : XESector) (st : Stream) : Outcome (Stream * str) :=
  let '(st, data) := getData c st in
  bytes ← orExit data;
  if length_ c <? 8 then Exit
  else Done (st, c_str ((fun b => ascii_of_N (Z.to_N b)) <$> take (Z.to_nat (length_ c - 8)) bytes)).

(** lib/XEReader.cpp:212-257 createSystemFromConfig *)
Definition createSystemFromConfig (tracing : bool) (configSector : XESector) (st : Stream) : Outcome (Stream * System) :=
  '(st, text) ← sectorText configSector st;
  if negb (xml_configValid text) then Exit
  else root ← defined (xml_config text); s ← createSystem junk tracing root; Done (st, s).

(** lib/XEReader.cpp:259-276 XEReader::readConfig *)
Definition readConfig (tracing : bool) (xe : XE) : Outcome (XE * System) :=
  if error xe then Exit
  else
    configSector ← orExit (getSector XE_SECTOR_CONFIG xe);
    '(st, sys) ← createSystemFromConfig tracing configSector (s xe);
    Done (set_s st xe, sys).

(** lib/XEReader.cpp:283-290 readPortAliasesFromCore: the loop *)
Fixpoint aliasesOfPorts (reference : str) (l : list Xml) (aliases : PortAliases) : Outcome PortAliases :=
  match l with
  | [] => Done aliases
  | port :: l =>
      if negb (isElement (lit "Port") port) then aliasesOfPorts reference l aliases
      else
        location ← defined (findAttribute port (lit "Location")); location ← content location;
        name ← defined (findAttribute port (lit "Name")); name ← content name;
        aliasesOfPorts reference l (addAlias name reference location aliases)
  end.

(** lib/XEReader.cpp:279-291 readPortAliasesFromCore *)
Definition readPortAliasesFromCore (core : Xml) (aliases : PortAliases) : Outcome PortAliases :=
  reference ← defined (findAttribute core (lit "Reference")); reference ← content reference;
  aliasesOfPorts reference (children core) aliases.

(** A loop over the children of a node with a name. *)
Fixpoint forChildren (name : str) (f : Xml -> PortAliases -> Outcome PortAliases) (l : list Xml) (aliases : PortAliases) : Outcome PortAliases :=
  match l with
  | [] => Done aliases
  | x :: l => if negb (isElement name x) then forChildren name f l aliases else a ← f x aliases; forChildren name f l a
  end.

(** lib/XEReader.cpp:293-306 readPortAliasesFromNodes *)
Definition readPortAliasesFromNodes (nodes : Xml) (aliases : PortAliases) : Outcome PortAliases :=
  forChildren (lit "Node") (fun node => forChildren (lit "Tile") readPortAliasesFromCore (children node)) (children nodes) aliases.

(** lib/XEReader.cpp:308-316 readPortAliases: of a document *)
Definition readPortAliasesFrom (root : Xml) (aliases : PortAliases) : Outcome PortAliases :=
  packages ← defined (findChild root (lit "Packages"));
  forChildren (lit "Package") (fun child a => nodes ← defined (findChild child (lit "Nodes")); readPortAliasesFromNodes nodes a) (children packages) aliases.

(** lib/XEReader.cpp:318-345 XEReader::readPortAliases *)
Definition readPortAliases (aliases : PortAliases) (xe : XE) : Outcome (XE * PortAliases) :=
  match getSector XE_SECTOR_XN xe with
  | None => Done (xe, aliases)
  | Some XNSector =>
      '(st, text) ← sectorText XNSector (s xe);
      if negb (xml_transformedValid text) then Exit
      else root ← defined (xml_transformed text); aliases ← readPortAliasesFrom root aliases; Done (set_s st xe, aliases)
  end.
End file.

(** ** Links *)

(** The text of an end of a link: the numbers of the node and of the link. *)
Definition endText (e : Z * Z) : str := decimal e.1 ++ "," :: decimal e.2.
Definition slink (x : (Z * Z) * (Z * Z)) : Xml := Element (lit "SLink") [(lit "end1", endText x.1); (lit "end2", endText x.2)] [].

Lemma decimal_app fuel : forall n acc rest, decimal_ fuel n acc ++ rest = decimal_ fuel n (acc ++ rest).
Proof. induction fuel as [|fuel IH]; intros n acc rest; cbn [decimal_]; [done |]. destruct (n <? 10); [done |]. apply IH. Qed.

Lemma digit_char d : 0 <= d < 10 -> digitOf 10 (ascii_of_N (Z.to_N (48 + d))) = Some d.
Proof.
  intros Hd. assert (d = 0 \/ d = 1 \/ d = 2 \/ d = 3 \/ d = 4 \/ d = 5 \/ d = 6 \/ d = 7 \/ d = 8 \/ d = 9) as Hc by lia.
  repeat (destruct Hc as [->|Hc]; [reflexivity |]). by subst.
Qed.

Lemma takeDigits_decimal fuel : forall n acc, (0 < fuel)%nat -> 0 <= n < 10 ^ Z.of_nat fuel -> takeDigits 10 0 (decimal_ fuel n acc) = takeDigits 10 n acc.
Proof.
  induction fuel as [|fuel IH]; intros n acc Hf Hn; [lia |]. cbn [decimal_]. pose proof (Z.mod_pos_bound n 10 ltac:(lia)) as Hm.
  destruct (Z.ltb_spec n 10).
  - cbn [takeDigits]. rewrite digit_char by lia. f_equal. rewrite Z.mod_small by lia. lia.
  - destruct fuel as [|fuel]; [cbn in Hn; lia |]. rewrite IH; [| lia |].
    + cbn [takeDigits]. rewrite digit_char by lia. f_equal. pose proof (Z.div_mod n 10). lia.
    + rewrite Nat2Z.inj_succ, Z.pow_succ_r in Hn by lia. split; [apply Z.div_pos; lia | apply Z.div_lt_upper_bound; lia].
Qed.

Lemma decimal_head fuel : forall n acc, 0 < n < 10 ^ Z.of_nat fuel -> exists d s, decimal_ fuel n acc = ascii_of_N (Z.to_N (48 + d)) :: s /\ 1 <= d <= 9.
Proof.
  induction fuel as [|fuel IH]; intros n acc Hn; [cbn in Hn; lia |]. cbn [decimal_]. destruct (Z.ltb_spec n 10).
  - eexists (n mod 10), acc. split; [done |]. rewrite Z.mod_small; lia.
  - apply IH. rewrite Nat2Z.inj_succ, Z.pow_succ_r in Hn by lia. split; [apply Z.div_str_pos; lia | apply Z.div_lt_upper_bound; lia].
Qed.

(** A number and what follows it. *)
Lemma strtol_decimal n rest : is_u32 n -> (rest = [] \/ head rest = Some ",") -> strtol 0 (decimal n ++ rest) = (n, rest, false).
Proof.
  intros Hn Hr. unfold decimal. rewrite (wrap_small 32), decimal_app by done. cbn [app]. unfold fits in Hn.
  assert (forall b a, b = 8 \/ b = 10 -> takeDigits b a rest = (a, rest)) as Hrest.
  { intros b a Hb. destruct Hr as [->|Hr]; [done |]. destruct rest as [|c rest]; [done |]. cbn in Hr. injection Hr as ->. by destruct Hb as [->| ->]. }
  destruct (decide (n = 0)) as [->|Hn0].
  - cbn [decimal_]. change (0 <? 10) with true. cbn match. change (ascii_of_N (Z.to_N (48 + 0 mod 10))) with "0".
    assert (prefixOf 0 ("0" :: rest) = (8, "0" :: rest)) as Ep.
    { destruct Hr as [->|Hr]; [done |]. destruct rest as [|c rest]; [done |]. cbn in Hr. by injection Hr as ->. }
    unfold strtol. change (signOf (skipSpace ("0" :: rest))) with (false, "0" :: rest). cbv beta iota zeta. rewrite Ep.
    change (startsNumber 8 ("0" :: rest)) with true. cbv beta iota zeta.
    change (takeDigits 8 0 ("0" :: rest)) with (takeDigits 8 0 rest). rewrite Hrest by lia. done.
  - destruct (decimal_head 10 n rest) as (d & s & E & Hd); [assert (2 ^ 32 < 10 ^ Z.of_nat 10) by done; lia |].
    pose proof (takeDigits_decimal 10 n rest ltac:(lia)) as T. rewrite E in T |- *. rewrite Hrest in T by lia.
    assert (strtol 0 (ascii_of_N (Z.to_N (48 + d)) :: s) =
      let '(v, e) := takeDigits 10 0 (ascii_of_N (Z.to_N (48 + d)) :: s) in let w := Z.max (- 2 ^ 63) (Z.min (2 ^ 63 - 1) v) in (w, e, negb (w =? v))) as ->.
    { assert (d = 1 \/ d = 2 \/ d = 3 \/ d = 4 \/ d = 5 \/ d = 6 \/ d = 7 \/ d = 8 \/ d = 9) as Hc by lia.
      repeat (destruct Hc as [->|Hc]; [reflexivity |]). by subst. }
    rewrite T by (assert (2 ^ 32 < 10 ^ Z.of_nat 10) by done; lia). cbv beta iota zeta. rewrite Z.min_r, Z.max_r, Z.eqb_refl by lia. done.
Qed.

Lemma parse_endText e : is_u32 e.1 -> is_u32 e.2 -> parseXLinkEnd (endText e) = Some e.
Proof.
  intros H1 H2. unfold parseXLinkEnd, endText. rewrite strtol_decimal by (done || by right). cbn match.
  rewrite <- (app_nil_r (decimal e.2)). rewrite strtol_decimal by (done || by left). cbn. by destruct e.
Qed.

Lemma endText_content e : content (endText e) = Done (endText e).
Proof. unfold content, endText. by destruct (decimal e.1). Qed.

(** The link with a number at a node. *)
Definition linkAt (net : Net) (p : nat * Z) : option XLink := n ← net !! p.1; array_get (xLinks n) p.2.
(** That a link leads to another one. *)
Definition leads (net : Net) (p q : nat * Z) : Prop := exists x, linkAt net p = Some x /\ destNode x = Some q.1 /\ destXLinkNum x = q.2.
(** Networks whose nodes differ only in where their links lead. *)
Definition sameNodes (net net' : Net) : Prop := Forall2 (fun n n' => n' = with_xLinks (xLinks n') n /\ length (xLinks n') = length (xLinks n)) net net'.

#[local] Instance sameNodes_refl : Reflexive sameNodes.
Proof. intros net. apply Forall2_same_length_lookup. split; [done |]. intros i n n' H1 H2. rewrite H1 in H2. injection H2 as <-. split; [by destruct n | done]. Qed.

#[local] Instance sameNodes_trans : Transitive sameNodes.
Proof.
  intros a b c H1 H2. revert c H2. induction H1 as [|x y a b [E L] _ IH]; intros c H2; inversion H2 as [|? z ? c' [E' L'] H2']; subst; constructor; [| by apply IH].
  split; [| congruence]. rewrite E', E at 1. by destruct x.
Qed.

(** One end is connected: the link leads to the other end, the others are as before. *)
Lemma connectEnd_spec p q net x : linkAt net p = Some x -> is_u32 p.2 -> is_u32 q.2 ->
  exists net', connectEnd p.1 p.2 q.1 q.2 net = Done net' /\ sameNodes net net' /\ leads net' p q /\ forall r, r <> p -> linkAt net' r = linkAt net r.
Proof.
  intros Hx Hp Hq. unfold linkAt in Hx. destruct (net !! p.1) as [n|] eqn:En; [| done]. cbn [mbind option_bind] in Hx.
  unfold connectEnd. rewrite En. cbn [defined mbind Outcome_bind]. rewrite !(wrap_small 32) by done. unfold connectXLink. rewrite Hx. cbn [mbind option_bind].
  match goal with |- context [array_set ?l ?i ?v] => destruct (array_set_is_Some l i v) as [l' El] end; [by apply array_get_bound in Hx |].
  rewrite El. cbn [mbind option_bind defined Outcome_bind]. eexists. split; [reflexivity |]. apply lookup_lt_Some in En as Hlt. split; [| split].
  - apply Forall2_same_length_lookup. rewrite length_insert. split; [done |]. intros i a b Ha Hb. destruct (decide (i = p.1)) as [->|Hi].
    + rewrite list_lookup_insert_eq in Hb by done. rewrite En in Ha. injection Ha as <-. injection Hb as <-. split; [done |]. cbn. by apply array_set_length in El.
    + rewrite list_lookup_insert_ne, Ha in Hb by done. injection Hb as <-. split; [by destruct a | done].
  - eexists. split; [unfold linkAt; rewrite list_lookup_insert_eq by done; cbn; eapply array_set_get; exact El |]. by split.
  - intros r Hr. unfold linkAt. destruct (decide (r.1 = p.1)) as [E1|]; [| by rewrite list_lookup_insert_ne by done].
    rewrite E1, list_lookup_insert_eq, En by done. cbn. eapply array_set_get_ne; [exact El |]. destruct r, p; cbn in *; congruence.
Qed.

(** The place of an end. *)
Definition placeOf (m : gmap Z nat) (e : Z * Z) : nat * Z := (default 0%nat (m !! e.1), e.2).
(** An end that exists. *)
Record end_ok (m : gmap Z nat) (net : Net) (e : Z * Z) : Prop := {
  eo_node : is_u32 e.1;
  eo_link : is_u32 e.2;
  eo_known : is_Some (m !! e.1);
  eo_there : is_Some (linkAt net (placeOf m e))
}.

(** All the ends of some links. *)
Definition endsOf (m : gmap Z nat) (l : list ((Z * Z) * (Z * Z))) : list (nat * Z) := l ≫= (fun x => [placeOf m x.1; placeOf m x.2]).

Lemma linkAt_same net net' p : sameNodes net net' -> is_Some (linkAt net p) -> is_Some (linkAt net' p).
Proof.
  intros Hs. unfold linkAt. destruct (net !! p.1) as [n|] eqn:En; [| by intros []]. cbn. intros [x Hx].
  destruct (Forall2_lookup_l _ _ _ _ _ Hs En) as (n' & -> & _ & L). cbn. apply array_get_is_Some. apply array_get_bound in Hx. by rewrite L.
Qed.

Lemma end_ok_same m net net' e : sameNodes net net' -> end_ok m net e -> end_ok m net' e.
Proof. intros Hs []. split; try done. by eapply linkAt_same. Qed.

Lemma endOf_ok m net e : end_ok m net e -> endOf m net e.1 e.2 = Done (placeOf m e).1.
Proof.
  intros [H1 H2 [i Hi] [x Hx]]. unfold endOf, lookupNodeChecked. rewrite (wrap_small 32), Hi by done. unfold placeOf, linkAt in *. rewrite Hi in *. cbn in *.
  destruct (net !! i) as [n|]; [| done]. cbn in *. apply array_get_bound in Hx. by rewrite (proj2 (Z.leb_gt _ _)) by lia.
Qed.

(** One link. *)
Lemma connect_slink m e1 e2 rest net : end_ok m net e1 -> end_ok m net e2 -> placeOf m e1 <> placeOf m e2 ->
  exists net', connectAll m (slink (e1, e2) :: rest) net = connectAll m rest net' /\ sameNodes net net' /\
    leads net' (placeOf m e1) (placeOf m e2) /\ leads net' (placeOf m e2) (placeOf m e1) /\
    forall r, r ∉ [placeOf m e1; placeOf m e2] -> linkAt net' r = linkAt net r.
Proof.
  intros H1 H2 Hne. cbn [connectAll]. change (isElement (lit "SLink") (slink (e1, e2))) with true. cbn [negb].
  change (findAttribute (slink (e1, e2)) (lit "end1")) with (Some (endText e1)). change (findAttribute (slink (e1, e2)) (lit "end2")) with (Some (endText e2)).
  cbn [defined mbind Outcome_bind]. rewrite !endText_content. cbn [mbind Outcome_bind]. rewrite !parse_endText by (apply H1 || apply H2).
  destruct (eo_there _ _ _ H1) as [x1 X1]. destruct (connectEnd_spec (placeOf m e1) (placeOf m e2) net x1 X1) as (n1 & C1 & S1 & L1 & F1); [apply H1 | apply H2 |].
  destruct (linkAt_same _ _ _ S1 (eo_there _ _ _ H2)) as [x2 X2].
  destruct (connectEnd_spec (placeOf m e2) (placeOf m e1) n1 x2 X2) as (n2 & C2 & S2 & L2 & F2); [apply H2 | apply H1 |].
  exists n2. split; [| split; [by etrans | split; [| split; [done |]]]].
  - destruct e1 as [a1 k1], e2 as [a2 k2]. cbn [orExit mbind Outcome_bind]. pose proof (endOf_ok _ _ _ H1) as O1. pose proof (endOf_ok _ _ _ H2) as O2. cbn [fst snd] in O1, O2.
    rewrite O1. cbn [mbind Outcome_bind]. rewrite O2. cbn [mbind Outcome_bind]. cbn [placeOf fst snd] in C1, C2 |- *. rewrite C1. cbn [mbind Outcome_bind]. by rewrite C2.
  - destruct L1 as (x & Hx & Hd). exists x. split; [| done]. by rewrite F2 by done.
  - intros r Hr. rewrite !not_elem_of_cons in Hr. destruct Hr as (R1 & R2 & _). by rewrite F2, F1.
Qed.

(** C19: The links of the configuration are made.  Whatever links a configuration names, between whatever nodes and also from a node to itself, as long as both ends of
    each exist and no end is named twice, reading them succeeds: each link then leads to its other end and that one back, the links that
    are not named lead where they led before, and nothing else about the nodes has changed. *)
Theorem config_links (m : gmap Z nat) (l : list ((Z * Z) * (Z * Z))) : forall net,
  Forall (fun x => end_ok m net x.1 /\ end_ok m net x.2) l -> NoDup (endsOf m l) ->
  exists net', connectAll m (slink <$> l) net = Done net' /\ sameNodes net net' /\
    Forall (fun x => leads net' (placeOf m x.1) (placeOf m x.2) /\ leads net' (placeOf m x.2) (placeOf m x.1)) l /\
    forall p, p ∉ endsOf m l -> linkAt net' p = linkAt net p.
Proof.
  induction l as [|[e1 e2] l IH]; intros net Hok Hd; [exists net; by repeat split |].
  inversion Hok as [|? ? [H1 H2] Hok']; subst. unfold endsOf in Hd. cbn [mbind list_bind app] in Hd. fold (endsOf m l) in Hd.
  apply NoDup_cons in Hd as [D1 Hd]. apply NoDup_cons in Hd as [D2 Hd]. cbn [fst snd] in *. apply not_elem_of_cons in D1 as [Dne D1].
  destruct (connect_slink m e1 e2 (slink <$> l) net H1 H2 Dne) as (n1 & C & S1 & L1 & L2 & F).
  destruct (IH n1) as (n2 & C2 & S2 & G & F2); [| done |].
  { eapply Forall_impl; [exact Hok' |]. intros x [Ha Hb]. split; by eapply end_ok_same. }
  exists n2. cbn [fmap list_fmap]. rewrite C. split; [done |]. split; [by etrans |]. split.
  - constructor; [| done]. cbn [fst snd]. destruct L1 as (x1 & X1 & Y1), L2 as (x2 & X2 & Y2).
    split; [exists x1 | exists x2]; (split; [by rewrite F2 | done]).
  - intros p Hp. unfold endsOf in Hp. cbn [mbind list_bind app fst snd] in Hp. fold (endsOf m l) in Hp. apply not_elem_of_cons in Hp as [P1 Hp]. apply not_elem_of_cons in Hp as [P2 Hp].
    rewrite F2, F; [done | | done]. rewrite !not_elem_of_cons. split; [done |]. split; [done | apply not_elem_of_nil].
Qed.

(** Two nodes with two links each. *)
Definition twoNodes : Net := [newNode XS1_L (ProcessorNode [] 400 100) 2; newNode XS1_L (ProcessorNode [] 400 100) 2].
Definition twoNumbers : gmap Z nat := {[0 := 0%nat; 5 := 1%nat]}.

Lemma config_links_witness : exists net', connectAll twoNumbers [slink ((0, 1), (5, 0))] twoNodes = Done net' /\ sameNodes twoNodes net' /\
  Forall (fun x => leads net' (placeOf twoNumbers x.1) (placeOf twoNumbers x.2) /\ leads net' (placeOf twoNumbers x.2) (placeOf twoNumbers x.1)) [((0, 1), (5, 0))] /\
  forall p, p ∉ [(0%nat, 1); (1%nat, 0)] -> linkAt net' p = linkAt twoNodes p.
Proof.
  apply (config_links twoNumbers [((0, 1), (5, 0))] twoNodes).
  - repeat constructor; cbn; try (unfold fits; lia); vm_compute; by eexists.
  - apply (bool_decide_eq_true_1 _). vm_compute. reflexivity.
Defined.

(** A document with two nodes, a core each, and a link between them. *)
Definition coreText : Xml :=
  Element (lit "Processor") [(lit "number", lit "0"); (lit "codeReference", lit "tile[0]")]
    [Element (lit "MemoryController") [] [Element (lit "Ram") [(lit "base", lit "0x40"); (lit "size", lit "64")] []]].
Definition nodeText (n : str) : Xml :=
  Element (lit "Node") [(lit "number", n); (lit "jtagId", lit "0x2633")] [OtherNode; Element (lit "Switch") [(lit "sLinks", lit "8")] []; coreText].
Definition document : Xml :=
  Element (lit "Config") [] [Element (lit "System") []
    [Element (lit "Nodes") [] [nodeText (lit "0"); OtherNode; nodeText (lit "1")];
     Element (lit "Connections") [] [slink ((0, 2), (1, 3))];
     Element (lit "JtagChain") [] [Element (lit "Node") [(lit "id", lit "1")] []; Element (lit "Node") [(lit "id", lit "0")] []]]].

(** What is observed of a system: the place of each node in the chain, the number of its cores, the bases of the memories, and where links lead. *)
Definition observed (links : list (nat * Z)) (o : Outcome System) :=
  match o with
  | Done s => Some (jtagIndex <$> nodes s, (fun n => length (cores n)) <$> nodes s, (fun c => getRamBase c.1) <$> concat (memories s),
      (fun p => x ← linkAt (nodes s) p; d ← destNode x; Some (d, destXLinkNum x)) <$> links)
  | _ => None
  end.

Example document_system : observed [(0%nat, 2); (1%nat, 3); (0%nat, 3)] (createSystem (fun _ => 0) false document) =
  Some ([1; 0], [1; 1]%nat, [64; 64], [Some (1%nat, 3); Some (0%nat, 2); None]).
Proof. vm_compute. reflexivity. Qed.

(** A negative number of a link passes the check, and the link is looked for outside the links of the node. *)
Lemma negative_link_undefined : parseXLinkEnd (lit "0,-1") = Some (0, -1) /\ endOf twoNumbers twoNodes 0 (-1) = Done 0%nat /\
  connectEnd 0 (-1) 1 0 twoNodes = Undefined.
Proof.
  split; [reflexivity |]. split; [reflexivity |]. unfold connectEnd. change (u32 (-1)) with 4294967295. cbn [twoNodes lookup list_lookup defined mbind Outcome_bind].
  unfold connectXLink. destruct (array_get _ 4294967295) as [x|] eqn:E; [| done]. apply array_get_bound in E. cbn in E. lia.
Qed.
