(* ===== verification/EventPoller.v ===== *)
(** * Events of the host (lib/SDLEventPoller.cpp)

    The runnable that asks SDL for events and passes them on to the devices that listen, the keyboard among them. *)

From Stdlib Require Import ZArith Lia.
From stdpp Require Import base list numbers option.
From S2P Require Import Prelude Signal Device.

#[local] Open Scope Z_scope.

(** An event: the window is closed, or something for the listeners. *)
Inductive HostEvent (E : Type) := Quit | Other (e : E).
Arguments Quit {E}. Arguments Other {E}.

(** What a run ends with: the calls to the scheduler, or the exit of the emulator. *)
Inductive PollResult := Polled (l : list Call) | Exits (time status : Z).

Section poller.
(** The devices that listen, with their members [S], and what a listener does with an event. *)
Context {E S : Type}.

(** lib/SDLEventPoller.h:19-30 SDLEventPoller: a listener is a function of an event and a time *)
Record SDLEventPoller := mkPoller { lastPollEvent : Z; listeners : list (HostEvent E -> Z -> S -> option S) }.

(** lib/SDLEventPoller.cpp:14-19 SDLEventPoller::SDLEventPoller *)
Definition newPoller : SDLEventPoller * list Call := (mkPoller 0 [], [Push 0 0]).

(** lib/SDLEventPoller.h:26-28 SDLEventPoller::addListener *)
Definition addListener (f : HostEvent E -> Z -> S -> option S) (p : SDLEventPoller) : SDLEventPoller :=
  mkPoller (lastPollEvent p) (listeners p ++ [f]).

(** lib/SDLEventPoller.cpp:30-32 SDLEventPoller::run: an event for all the listeners *)
Definition deliver (p : SDLEventPoller) (e : HostEvent E) (time : Z) (s : S) : option S :=
  foldl (fun s f => s ← s; f e time s) (Some s) (listeners p).

(** lib/SDLEventPoller.cpp:29-35 SDLEventPoller::run: the loop over the events that are pending; whether one of them ends the emulator *)
Fixpoint pollEvents (p : SDLEventPoller) (events : list (HostEvent E)) (time : Z) (s : S) : option (S * bool) :=
  match events with
  | [] => Some (s, false)
  | e :: events =>
      s ← deliver p e time s;
      match e with Quit => Some (s, true) | Other _ => pollEvents p events time s end
  end.

(** lib/SDLEventPoller.cpp:21-40 SDLEventPoller::run: [hostTime] are the milliseconds that SDL counts, [front] the time of the first runnable of the scheduler
    after the events, if there is one *)
Definition poller_run (hostTime : Z) (events : list (HostEvent E)) (front : S -> option Z) (time : Z) (p : SDLEventPoller) (s : S)
    : option (SDLEventPoller * S * PollResult) :=
  if u32 (hostTime - lastPollEvent p) <? 1000 / 25 then Some (p, s, Polled [])
  else
    let p := mkPoller (u32 time) (listeners p) in
    '(s, quit) ← pollEvents p events time s;
    if quit : bool then Some (p, s, Exits time 0)
    else Some (p, s, Polled (match front s with None => [] | Some wakeUpTime => [Push 0 (u64 (wakeUpTime + 20000))] end)).

(** The events go to the listeners in order up to the one that ends the emulator, and the poller is scheduled again unless the emulator ends or nothing
    else is scheduled. *)
Lemma poller_delivers hostTime events front time p s s' :
  Forall (fun e => e <> Quit) events -> 1000 / 25 <= u32 (hostTime - lastPollEvent p) ->
  foldl (fun s e => s ← s; deliver p e time s) (Some s) events = Some s' ->
  poller_run hostTime events front time p s =
    Some (mkPoller (u32 time) (listeners p), s', Polled (match front s' with None => [] | Some w => [Push 0 (u64 (w + 20000))] end)).
Proof.
  intros Hq Ht Hf. unfold poller_run. rewrite (proj2 (Z.ltb_ge _ _)) by done.
  assert (pollEvents (mkPoller (u32 time) (listeners p)) events time s = Some (s', false)) as ->; [| done].
  revert s Hf. induction Hq as [|e events He _ IH]; intros s Hf; cbn [foldl pollEvents] in *; [by simplify_eq |].
  cbn [mbind option_bind] in Hf. change (deliver (mkPoller (u32 time) (listeners p)) e time s) with (deliver p e time s).
  destruct (deliver p e time s) as [s1|]; cbn [mbind option_bind].
  - destruct e; [done |]. by apply IH.
  - exfalso. clear -Hf. induction events as [|x events IH]; [done | by apply IH].
Qed.

(** A run that comes too early does not ask for events and does not schedule the poller again, so that no later run does either. *)
Lemma poller_stops hostTime events front time p s : u32 (hostTime - lastPollEvent p) < 40 -> poller_run hostTime events front time p s = Some (p, s, Polled []).
Proof. intros Ht. unfold poller_run. by rewrite (proj2 (Z.ltb_lt _ _)) by done. Qed.
End poller.
